(* ===== verification/_CoqProject ===== *)
-Q . S2P
Prelude.v
Kernel.v
Grants.v
Json.v
Dispatch.v
Policy.v
Text.v
Envelope.v
Conversation.v
Dedup.v
Bus.v
Encoding.v
Digests.v
Wire.v
Struct.v
Receipts.v
Approvals.v
Paths.v
Intents.v
Authority.v
Contracts.v
Identity.v
Snapshots.v
Tables.v
StoreBudget.v
StoreIdentity.v
StoreIntents.v
StoreGrants.v
StoreBirths.v
StoreConfig.v
StoreStart.v
StoreLedger.v
StoreApprovals.v
StoreRuns.v
Executor.v
Protocol.v
Agent.v
Orchestrator.v
Router.v
RouterRuns.v
Supervisor.v
