(* ===== verification/Prelude.v ===== *)
(** * Korvun: a verification library for the Go kernel

    Korvun runs assistants ("brains") behind channels.  A message arrives as
    an envelope, is deduplicated and routed to a brain; the brain selects
    models and tools under a policy, asks the models in sequence or in
    parallel, and reduces their answers.  A tool call becomes an action: it is
    bound to an identity, checked against the intents and grants of a human,
    perhaps parked for an approval, charged to budgets, executed, and recorded
    in a signed ledger of receipts.  This library models the parts of that
    path that decide something.

    ** Files and the code they model (paths under src/)

    - [Prelude]: Go values every file shares: instants, 64-bit wrap-around,
      error values with [errors.Is], guards, loops over a set of seen keys.
    - [Kernel] (internal/action/state.go, effect.go, contract.go): the action
      state machine, the effect ladder, the lifecycle of contracts.
    - [Grants] (contract.go, attenuation.go, validity.go, budget.go): the
      grants of version 1, delegation, and the in-memory budget ledger.
    - [Json], [Struct], [Wire]: encoding/json as the code uses it.  [Json] has
      values, the scanner, [Marshal] and [CanonicalParams]; [Wire] the flat
      structs of receipts and approvals; [Struct] the nested structs of the
      contracts of version 2, read under a type.
    - [Encoding], [Text], [Paths]: SHA-256, hex, decimal, RFC 3339, runes and
      lexical paths, all executable.
    - [Dispatch], [Policy] (internal/model, internal/policy): one model call,
      the fan-out and the sequential coordinators, the retry decorator; the
      selectors of models and tools, the priority and consensus reducers.
    - [Envelope], [Conversation], [Dedup], [Bus] (internal/envelope,
      internal/conversation, internal/router/dedup.go, internal/bus): the
      message and its validator, the in-memory session store behind the class
      [SessionStore], the deduplication window, the event bus.
    - [Digests], [Receipts], [Approvals] (internal/action/action.go,
      identity.go, wire.go, receipt.go, signing.go, approval.go, preview.go,
      bound.go, and ledger.go of the store): what the digests bind, the three
      eras of receipts and their chain, approvals and previews.
    - [Intents], [Authority], [Contracts] (intent_v2.go, authority_v2.go): the
      signed intents and grants of version 2, one delegation edge, the use an
      operation makes of resources, and the strict readers of stored bytes.
    - [Identity] (internal/identity): issuers, ingress, evidence, its seals.
    - [Snapshots] (authorization_snapshot.go): the signed record of why an
      action was allowed to start.
    - The store (internal/action/sqlite), one file per group of doors over the
      tables of [Tables]: [StoreBudget] the budget accounts with their chains
      of signed debits; [StoreIdentity] principals, bindings, evidence rows and
      the identity gate; [StoreIntents] the life of an intent; [StoreGrants]
      issue, delegation, revocation and import of grants and the walk over a
      chain; [StoreBirths] the activation of a profile and the ledger of
      approval births; [StoreConfig] the clauses of the configuration;
      [StoreStart] the resolution of authority, the start of a request and its
      park; [StoreLedger] the attempts, the closes and their receipts;
      [StoreApprovals] the life of an approval: birth, decision, expiry, sweep,
      hand-out of the arguments, strict start, tombstones and reads;
      [StoreRuns] whole runs of these doors.
    - [Executor] (internal/action/executor, internal/tool/outcome.go): the one
      path that runs a tool, against an interface to the store and the tools.
    - [Protocol], [Agent], [Orchestrator] (internal/brain): what a model is
      told and how its replies are read; the two lanes of an agent, a bounded
      loop over [Executor]; the fan-out brain over a coordinator and a policy.
    - [Router] (internal/router): one inbound message from the deduplication
      window through sessions, commands, takeover and notes to the queue of a
      brain, and replies to the queue of a channel.  [RouterRuns]: the callers,
      the workers and the shutdown over those queues.
    - [Supervisor] (internal/supervisor): the life of the running app, its
      replacement under another configuration, and those who ask for it.

    ** How the model corresponds to the code

    A struct is a [Record] with the Go field names, an enum the Go strings or
    constructors, a map a [gmap].  A method that mutates its receiver takes
    and returns the state; a method under a mutex is one step of it.  Errors
    are values of [Prelude.error], so that [errors.Is] is a function.  [int]
    and [int64] are [Z] with [wrap64] where the code adds or subtracts.  The
    goroutines of the bus, the fan-out pool, the router's queues and the
    supervisor are step relations whose steps interleave freely.  A door of the store is a transaction
    [Tables.Tx], a function of the tables that either commits or leaves them
    unchanged; unique indexes, checks and foreign keys the doors can violate
    are tests that answer [ErrConstraint].

    ** What the theorems show

    - Runs of the store: whatever sequence of doors it answers, each account
      has paid exactly the starts that used it and is never overdrawn, every
      action row moves along its edges, each close has its one receipt, and
      nothing starts, is decided or is handed out twice ([StoreRuns]).
    - Starts: a start, immediate or after an approval, finds every link of the
      chain, the intent, the identity and the budget in order, or changes
      nothing ([StoreStart], [StoreApprovals]).
    - The executor: a tool runs only after the whole of its admission is on
      record, once, with the arguments that were judged or approved, and what
      runs is closed ([Executor]).
    - A message: it costs a bounded number of model calls and tool attempts,
      gets one reply and one group of remembered turns, and nothing a model
      says widens what its tools may do ([Agent], [Orchestrator]); the reader
      of printed calls accepts one sentence ([Protocol]).
    - The router: each message has one fate, queued, answered or refused; a
      redelivery is dropped and a refused message may come again; a reply is
      queued, sent or reported ([Router]); the queues lose, repeat and reorder
      nothing and, left alone, come to rest ([RouterRuns]).
    - Reloads: one at a time, one app at a time, the disk behind a started app
      only, and every handle told the history that happened ([Supervisor]).
    - Machines and invariants: an action's history is a run of the sealed
      table; the in-memory budgets are never overspent; sessions stay
      numbered; a disabled principal stays out.
    - Authority never widens: along a chain of delegations, at any depth, in
      both versions; a private envelope selects local models only; the tool
      gate only grants what both sides allow.
    - Seals: equal digests mean equal terms, or an explicit SHA-256 collision
      ([Digests.sha256_collision], never assumed away); signatures are checked
      over recomputed bytes in their own domain.
    - Round trips: canonical parameters are a normal form; receipts,
      approvals, evidence, grants and intents are read back from the bytes
      they are sealed as.
    - Concurrency and termination: bus, pool, router and supervisor are safe
      in every interleaving; bus, pool and queues account for every offer and
      end; retries are bounded.

    ** Bounds and fuel

    The JSON reader runs on [Json.json_fuel], more than the length of its
    input; escapes and string pieces on the length of the string; decimal
    printing on the number of digits.  Each recursion consumes at least one
    byte, and the round trips show that the fuel is never what stops them.
    The retry loop runs on [Dispatch.retry_fuel], one round per allowed retry;
    [Dispatch.retry_is_bounded] shows it returns.

    ** What is a parameter

    Ed25519 ([Sign], [Verify], [Public]; only that a signature verifies), the
    reader of times [time.Parse] (only that it reads back what is printed),
    net/url, the verb %q, float formatting, the text normalisation of the
    consensus, the order of map iteration, random bytes and identities,
    clocks, contexts, model providers, bus handlers.  Each theorem that rests
    on such a hypothesis has a witness with a concrete instance.

    ** What is not modelled

    Network and terminal code (channels, model adapters, HTTP servers, the
    control API, the command line, the desktop shell, metrics), start-up
    wiring, configuration files, skills and caged tools: they call the parts
    above or are called as opaque.  SQL text, migrations, database failures
    and cancelled contexts of the action store: a statement of the model
    always answers.  The session store in SQL ([Conversation] models the one in
    memory).  The doors of the version 1 contracts, listings and retention, and
    the handlings of one brain interleaved. *)

From stdpp Require Export base gmap sets list strings option fin_maps sorting.
From Stdlib Require Export ZArith Lia.

(** ** Go values shared by every component *)

(** A [time.Time] is the number of nanoseconds elapsed since Go's zero
    instant (January 1, year 1, 00:00:00 UTC); the zero value of the type is
    therefore [0].  Every comparison the source makes is on instants. *)
Abbreviation time := Z (only parsing).
Abbreviation duration := Z (only parsing).

Definition time_is_zero (t : time) : bool := bool_decide (t = 0%Z).
Definition time_before (a b : time) : bool := (a <? b)%Z.
Definition time_after (a b : time) : bool := (b <? a)%Z.
Definition time_sub (a b : time) : duration := (a - b)%Z.

Definition Millisecond : duration := 1000000%Z.
Definition Second : duration := 1000000000%Z.
Definition Minute : duration := (60 * Second)%Z.

(** Go's [int] and [int64] (the program is built for 64-bit targets): the
    two's-complement wrap-around of an exact result. *)
Definition wrap64 (z : Z) : Z :=
  ((z + 9223372036854775808) mod 18446744073709551616 - 9223372036854775808)%Z.

Definition int64_range (z : Z) : Prop :=
  (-9223372036854775808 <= z < 9223372036854775808)%Z.

(** ** Go error values

    A sentinel is identified by the message it is created with; a [%w]
    wrapping, an [errors.Join] and the one structured error type that carries
    data used by control flow ([model.RateLimitError]) keep their causes. *)
Inductive error :=
| ErrorNew (msg : string)
| ErrorWrap (msg : string) (cause : error)
| ErrorJoin (causes : list error)
| ErrorRateLimit (provider : string) (retryAfter : duration).

Definition sentinel_rate_limited : string := "model: provider rate-limited the caller".

(** [errors.Is err target], for a sentinel [target] named by its message. *)
Fixpoint error_is (target : string) (e : error) : bool :=
  match e with
  | ErrorNew msg => bool_decide (msg = target)
  | ErrorWrap _ cause => error_is target cause
  | ErrorJoin causes => existsb (error_is target) causes
  | ErrorRateLimit _ _ => bool_decide (sentinel_rate_limited = target)
  end.

(** [errors.As err &rle]: the first [*model.RateLimitError] of the chain. *)
Fixpoint error_as_rate_limit (e : error) : option (string * duration) :=
  match e with
  | ErrorNew _ => None
  | ErrorWrap _ cause => error_as_rate_limit cause
  | ErrorJoin causes =>
      fold_right (fun c acc => match error_as_rate_limit c with
                               | Some r => Some r
                               | None => acc
                               end) None causes
  | ErrorRateLimit p d => Some (p, d)
  end.

(** A Go function returning [(T, error)]. *)
Inductive result (A : Type) :=
| Ok (a : A)
| Err (e : error).
Arguments Ok {A} _.
Arguments Err {A} _.

Declare Scope korvun_scope.
Delimit Scope korvun_scope with korvun.

Notation "'let?' x ':=' r 'in' k" :=
  (match r with Ok x => k | Err e => Err e end)
  (at level 200, x pattern, r at level 100, k at level 200,
   right associativity) : korvun_scope.

(** A Go function returning only [error]: [None] is [nil].  [e1 ;;; e2] runs
    the checks in order and keeps the first failure. *)
Definition first_error (a b : option error) : option error :=
  match a with Some e => Some e | None => b end.

Notation "a ;;; b" := (first_error a b)
  (at level 62, right associativity) : korvun_scope.

Definition fail_if (b : bool) (e : error) : option error :=
  if b then Some e else None.

Fixpoint check_all {A} (f : A -> option error) (l : list A) : option error :=
  match l with
  | [] => None
  | x :: l' => first_error (f x) (check_all f l')
  end.

(** [slices.Contains]. *)
Definition contains {A} `{EqDecision A} (l : list A) (x : A) : bool :=
  bool_decide (x ∈ l).

(** Bytewise order on Go strings (the operator [<] on [string]). *)
Definition str_leb (a b : string) : bool := String.leb a b.

(** [sort.Strings]: the order [String.le] is the lexicographic order on
    bytes, which is Go's. *)
Definition sort_strings (l : list string) : list string := merge_sort String.le l.

(** A loop over a list that threads a state and stops at the first error. *)
Fixpoint each {A S} (step : A -> S -> result S) (l : list A) (s : S) : result S :=
  match l with
  | [] => Ok s
  | x :: l' => match step x s with Ok s' => each step l' s' | Err e => Err e end
  end.

(** A comparator that looks at a field first: [if a.F != b.F { return a.F < b.F }]. *)
Definition then_by {A B} (f : A -> B) (R : B -> B -> Prop) (S : A -> A -> Prop) (a b : A) : Prop :=
  (f a <> f b /\ R (f a) (f b)) \/ (f a = f b /\ S a b).

(** A comparator on one field. *)
Definition on {A B} (f : A -> B) (R : B -> B -> Prop) (a b : A) : Prop := R (f a) (f b).

(** ** Automation *)

Create HintDb korvun.

(** Splits conjunctions, existentials and equations between constructors. *)
Ltac korvun_simpl :=
  repeat match goal with
  | H : _ /\ _ |- _ => destruct H
  | H : exists _, _ |- _ => destruct H
  | H : Some _ = Some _ |- _ => injection H as H; try subst
  | H : Ok _ = Ok _ |- _ => injection H as H; try subst
  | H : Err _ = Err _ |- _ => injection H as H; try subst
  | H : Some _ = None |- _ => discriminate H
  | H : None = Some _ |- _ => discriminate H
  | H : Ok _ = Err _ |- _ => discriminate H
  | H : Err _ = Ok _ |- _ => discriminate H
  end.

(** Turns boolean tests of the source into the propositions they decide. *)
Ltac bools :=
  repeat match goal with
  | H : andb _ _ = true |- _ => apply andb_true_iff in H as [? ?]
  | H : orb _ _ = false |- _ => apply orb_false_iff in H as [? ?]
  | H : orb _ _ = true |- _ => apply orb_true_iff in H
  | H : andb _ _ = false |- _ => apply andb_false_iff in H
  | H : negb _ = true |- _ => apply negb_true_iff in H
  | H : negb _ = false |- _ => apply negb_false_iff in H
  | H : bool_decide _ = true |- _ => apply bool_decide_eq_true in H
  | H : bool_decide _ = false |- _ => apply bool_decide_eq_false in H
  | H : (_ =? _)%Z = true |- _ => apply Z.eqb_eq in H
  | H : (_ =? _)%Z = false |- _ => apply Z.eqb_neq in H
  | H : (_ <? _)%Z = true |- _ => apply Z.ltb_lt in H
  | H : (_ <? _)%Z = false |- _ => apply Z.ltb_ge in H
  | H : (_ <=? _)%Z = true |- _ => apply Z.leb_le in H
  | H : (_ <=? _)%Z = false |- _ => apply Z.leb_gt in H
  end.

(** Case analysis on every guard a handler of the source goes through. *)
Ltac guards := repeat (case_match; korvun_simpl; simplify_eq/=); bools.

(** ** Generic lemmas *)

Lemma first_error_None (a b : option error) :
  first_error a b = None <-> a = None /\ b = None.
Proof. destruct a; naive_solver. Qed.

Lemma first_error_Some (a b : option error) (e : error) :
  first_error a b = Some e <-> a = Some e \/ (a = None /\ b = Some e).
Proof. destruct a; naive_solver. Qed.

Lemma fail_if_None (b : bool) (e : error) : fail_if b e = None <-> b = false.
Proof. destruct b; naive_solver. Qed.

Lemma fail_if_Some (b : bool) (e e' : error) :
  fail_if b e = Some e' <-> b = true /\ e' = e.
Proof. destruct b; naive_solver. Qed.

Lemma check_all_None {A} (f : A -> option error) (l : list A) :
  check_all f l = None <-> Forall (fun x => f x = None) l.
Proof.
  induction l as [|x l IH]; simpl; [naive_solver|].
  rewrite first_error_None, IH, Forall_cons. done.
Qed.

Lemma check_all_Some {A} (f : A -> option error) (l : list A) (e : error) :
  check_all f l = Some e -> exists x, x ∈ l /\ f x = Some e.
Proof.
  induction l as [|x l IH]; simpl; [done|]. rewrite first_error_Some.
  intros [H|[_ H]]; [exists x; set_solver|].
  destruct (IH H) as (y & ? & ?). exists y. set_solver.
Qed.

Lemma contains_true {A} `{EqDecision A} (l : list A) (x : A) :
  contains l x = true <-> x ∈ l.
Proof. apply bool_decide_eq_true. Qed.

Lemma contains_false {A} `{EqDecision A} (l : list A) (x : A) :
  contains l x = false <-> x ∉ l.
Proof. apply bool_decide_eq_false. Qed.

#[export] Hint Rewrite first_error_None fail_if_None @check_all_None
  @contains_true @contains_false : korvun.

Lemma filter_all {A} (P : A -> Prop) `{!forall x, Decision (P x)} (l : list A) :
  Forall P l -> filter P l = l.
Proof. induction 1; rewrite ?filter_cons_True; by f_equal. Qed.

Lemma StronglySorted_filter {A} (R : A -> A -> Prop) (P : A -> Prop)
    `{!forall x, Decision (P x)} (l : list A) :
  StronglySorted R l -> StronglySorted R (filter P l).
Proof.
  induction 1 as [|x l _ IH Hall]; [constructor|]. rewrite filter_cons.
  case_decide; [|done]. constructor; [done|]. rewrite Forall_forall in *.
  intros y [_ Hy]%list_elem_of_filter. auto.
Qed.

Lemma StronglySorted_weaken {A} (R Q : A -> A -> Prop) (l : list A) :
  (forall x y, x ∈ l -> y ∈ l -> R x y -> Q x y) -> StronglySorted R l -> StronglySorted Q l.
Proof.
  intros HRQ. induction 1 as [|x l _ IH Hall]; constructor.
  - apply IH. set_solver.
  - rewrite Forall_forall in *. intros y Hy. apply HRQ; [by left|by right|auto].
Qed.

Lemma NoDup_fmap_filter {A B} (f : A -> B) (P : A -> Prop)
    `{!forall x, Decision (P x)} (l : list A) :
  NoDup (f <$> l) -> NoDup (f <$> filter P l).
Proof.
  induction l as [|x l IH]; [done|]. rewrite fmap_cons, NoDup_cons. intros [Hx Hnd].
  rewrite filter_cons. case_decide; [|auto]. rewrite fmap_cons, NoDup_cons.
  split; [|auto]. intros (y & Heq & [_ Hy]%list_elem_of_filter)%list_elem_of_fmap.
  apply Hx. rewrite Heq. by apply list_elem_of_fmap_2.
Qed.

Lemma StronglySorted_fmap_iff {A B} (f : A -> B) (R : B -> B -> Prop) (l : list A) :
  StronglySorted R (f <$> l) <-> StronglySorted (fun x y => R (f x) (f y)) l.
Proof.
  induction l as [|x l IH]; [split; constructor|]. rewrite fmap_cons.
  split; intros [? ?]%StronglySorted_inv; constructor; try tauto; by apply Forall_fmap.
Qed.

Lemma NoDup_fmap_inj {A B} (f : A -> B) (l : list A) (x y : A) :
  NoDup (f <$> l) -> x ∈ l -> y ∈ l -> f x = f y -> x = y.
Proof.
  induction l as [|z l IH]; [set_solver|]. rewrite fmap_cons, NoDup_cons.
  intros [Hz Hnd] [->|Hx]%elem_of_cons [->|Hy]%elem_of_cons Heq; auto.
  - destruct Hz. rewrite Heq. by apply list_elem_of_fmap_2.
  - destruct Hz. rewrite <- Heq. by apply list_elem_of_fmap_2.
Qed.

Lemma length_filter_lt {A} (P : A -> Prop) `{!forall x, Decision (P x)} (l : list A) (x : A) :
  x ∈ l -> ~ P x -> length (filter P l) < length l.
Proof.
  induction l as [|y l IH]; [set_solver|]. intros [->|Hx]%elem_of_cons HP; rewrite filter_cons.
  - rewrite decide_False by done. simpl. pose proof (length_filter P l). lia.
  - specialize (IH Hx HP). case_decide; simpl; lia.
Qed.

Lemma omap_snoc {A B} (f : A -> option B) (l : list A) (x : A) :
  omap f (l ++ [x]) = omap f l ++ match f x with Some y => [y] | None => [] end.
Proof. rewrite omap_app. cbn. by destruct (f x). Qed.

Lemma sum_list_with_insert {A} (f : A -> nat) (l : list A) (i : nat) (x y : A) :
  l !! i = Some x ->
  sum_list_with f (<[i := y]> l) + f x = sum_list_with f l + f y.
Proof.
  revert i. induction l as [|z l IH]; intros [|i] Hi; simplify_eq/=; [lia|].
  specialize (IH i Hi). lia.
Qed.

Lemma sort_strings_perm (l : list string) : sort_strings l ≡ₚ l.
Proof. apply merge_sort_Permutation. Qed.

Lemma sort_strings_proper (l k : list string) :
  l ≡ₚ k -> sort_strings l = sort_strings k.
Proof.
  intros H. apply (StronglySorted_unique String.le).
  - apply (StronglySorted_merge_sort _ _).
  - apply (StronglySorted_merge_sort _ _).
  - by rewrite !sort_strings_perm.
Qed.

#[export] Instance sort_strings_Proper : Proper ((≡ₚ) ==> (=)) sort_strings.
Proof. intros l k. apply sort_strings_proper. Qed.

Lemma wrap64_small (z : Z) : int64_range z -> wrap64 z = z.
Proof. unfold int64_range, wrap64. intros. rewrite Z.mod_small; lia. Qed.

Lemma wrap64_range (z : Z) : int64_range (wrap64 z).
Proof.
  unfold int64_range, wrap64.
  pose proof (Z.mod_pos_bound (z + 9223372036854775808) 18446744073709551616). lia.
Qed.

#[export] Hint Resolve wrap64_range : korvun.

(** ** Sorting by a comparator *)

#[export] Instance then_by_dec {A B} (f : A -> B) R S `{EqDecision B, !RelDecision R, !RelDecision S} :
  RelDecision (@then_by A B f R S).
Proof. intros a b. unfold then_by. apply _. Defined.

#[export] Instance on_dec {A B} (f : A -> B) R `{!RelDecision R} : RelDecision (@on A B f R).
Proof. intros a b. unfold on. apply _. Defined.

#[export] Instance then_by_total {A B} (f : A -> B) R S `{EqDecision B, !Total R, !Total S} :
  Total (@then_by A B f R S).
Proof.
  intros a b. unfold then_by. destruct (decide (f a = f b)) as [E|N].
  - destruct (total S a b); auto.
  - destruct (total R (f a) (f b)); auto.
Qed.

#[export] Instance on_total {A B} (f : A -> B) R `{!Total R} : Total (@on A B f R).
Proof. intros a b. apply (total R). Qed.

#[export] Instance then_by_trans {A B} (f : A -> B) R S
  `{EqDecision B, !Transitive R, !AntiSymm (=) R, !Transitive S} : Transitive (@then_by A B f R S).
Proof.
  intros a b c [[N1 R1]|[E1 S1]] [[N2 R2]|[E2 S2]]; unfold then_by.
  - left. split; [|by etrans]. intros E. apply N1. apply (anti_symm R); [done|]. by rewrite E.
  - left. by rewrite <- E2.
  - left. by rewrite E1.
  - right. split; [congruence|by etrans].
Qed.

#[export] Instance on_trans {A B} (f : A -> B) R `{!Transitive R} : Transitive (@on A B f R).
Proof. intros a b c. unfold on. apply transitivity. Qed.

(** Two sortings of one collection agree when the comparator tells its members apart. *)
Lemma merge_sort_unique {A} (R : A -> A -> Prop) `{!RelDecision R, !Total R, !Transitive R}
    (l k : list A) :
  (forall x y, x ∈ l -> y ∈ l -> R x y -> R y x -> x = y) ->
  l ≡ₚ k -> merge_sort R l = merge_sort R k.
Proof.
  intros Hanti H. apply (StronglySorted_unique_strong R).
  - intros x y Hx Hy. apply Hanti.
    + by rewrite <- (merge_sort_Permutation R l).
    + by rewrite H, <- (merge_sort_Permutation R k).
  - apply (StronglySorted_merge_sort R).
  - apply (StronglySorted_merge_sort R).
  - by rewrite !merge_sort_Permutation.
Qed.

(** ** Loops over a state *)

Lemma each_ind {A S} (step : A -> S -> result S) (P : S -> Prop) (l : list A) (s s' : S) :
  (forall x t t', x ∈ l -> P t -> step x t = Ok t' -> P t') ->
  P s -> each step l s = Ok s' -> P s'.
Proof.
  revert s. induction l as [|x l IH]; intros s Hstep Hs; cbn [each]; [by intros [= <-]|].
  destruct (step x s) as [t|] eqn:E; [|done]. intros H. apply (IH t); [|by eapply Hstep; [left|..]|done].
  intros y t0 t' Hy. apply Hstep. by right.
Qed.

(** ** Loops that refuse a repeated key *)

Section Unique.
Context {A : Type} (bad : A -> bool) (key : A -> string) (e_bad e_dup : A -> error).

(** The loop body both contract validators share. *)
Definition unique_step (x : A) (seen : gset string) : result (gset string) :=
  if bad x then Err (e_bad x)
  else if bool_decide (key x ∈ seen) then Err (e_dup x)
  else Ok ({[key x]} ∪ seen).

Lemma each_unique (l : list A) (seen seen' : gset string) :
  each unique_step l seen = Ok seen' <->
  Forall (fun x => bad x = false) l /\ NoDup (key <$> l)
  /\ (forall x, x ∈ l -> key x ∉ seen) /\ seen' = list_to_set (key <$> l) ∪ seen.
Proof.
  revert seen. induction l as [|x l IH]; intros seen; cbn [each].
  - split.
    + intros [= <-]. split_and!; [constructor|constructor|set_solver|set_solver].
    + intros (_ & _ & _ & ->). f_equal. set_solver.
  - unfold unique_step at 1. destruct (bad x) eqn:Eb.
    { split; [done|]. intros ([? _]%Forall_cons & _). congruence. }
    case_bool_decide as Ek.
    { split; [done|]. intros (_ & _ & H & _). destruct (H x); [by left|done]. }
    rewrite IH, Forall_cons, fmap_cons, NoDup_cons, list_elem_of_fmap. clear IH. split.
    + intros (H1 & H2 & H3 & ->). split_and!; try done.
      * intros (y & Hy & Hin). apply (H3 y Hin). set_solver.
      * intros y [->|Hy]%elem_of_cons; [done|]. specialize (H3 y Hy). set_solver.
      * simpl. set_solver.
    + intros ([_ H1] & [Hn H2] & H3 & ->). split_and!; try done.
      * intros y Hy [Hk%elem_of_singleton|Hk]%elem_of_union; [by apply Hn; exists y|].
        apply (H3 y); [by right|done].
      * simpl. set_solver.
Qed.

Lemma each_unique_error (l : list A) (seen : gset string) e :
  each unique_step l seen = Err e -> exists x, x ∈ l /\ (e = e_bad x \/ e = e_dup x).
Proof.
  revert seen. induction l as [|x l IH]; intros seen; cbn [each]; [done|].
  unfold unique_step at 1. destruct (bad x); [intros [= <-]; exists x; set_solver|].
  case_bool_decide; [intros [= <-]; exists x; set_solver|]. intros Hrest.
  destruct (IH _ Hrest) as (y & Hy & He). exists y. set_solver.
Qed.

End Unique.
