(* ===== verification/Kernel.v ===== *)
(** * The action kernel's finite machines

    [internal/action/state.go] (the action state machine),
    [internal/action/effect.go] (the effect ladder) and the contract lifecycle
    of [internal/action/contract.go].  The Go types are named strings, and rows
    read back from storage may hold any string, so the model keeps strings: an
    unknown state is representable and the tables must reject it. *)

From S2P Require Import Prelude.

(** ** The action state machine *)

Module ActionState.

Definition State := string.

Definition StateReceived : State := "RECEIVED".
Definition StateNormalized : State := "NORMALIZED".
Definition StateDenied : State := "DENIED".
Definition StateShadowed : State := "SHADOWED".
Definition StateAuthorized : State := "AUTHORIZED".
Definition StateSucceeded : State := "SUCCEEDED".
Definition StateFailed : State := "FAILED".
Definition StatePendingApproval : State := "PENDING_APPROVAL".
Definition StateRejected : State := "REJECTED".
Definition StateApproved : State := "APPROVED".
Definition StatePreparing : State := "PREPARING".
Definition StatePrepareFailed : State := "PREPARE_FAILED".
Definition StatePrepared : State := "PREPARED".
Definition StateCommitting : State := "COMMITTING".
Definition StateOutcomeUnknown : State := "OUTCOME_UNKNOWN".
Definition StateCompensating : State := "COMPENSATING".
Definition StateCompensated : State := "COMPENSATED".
Definition StateCompensationFailed : State := "COMPENSATION_FAILED".

Definition ErrInvalidTransition : error := ErrorNew "action: invalid state transition".

(** A Go [map[State]bool] literal whose every value is [true]. *)
Definition targets (l : list State) : gmap State bool :=
  list_to_map ((fun s => (s, true)) <$> l).

Definition transitions : gmap State (gmap State bool) :=
  list_to_map
    [ (StateReceived, targets [StateNormalized]);
      (StateNormalized,
        targets [StateDenied; StateShadowed; StateAuthorized; StatePendingApproval]);
      (StateAuthorized, targets [StateSucceeded; StateFailed; StateOutcomeUnknown]);
      (StatePendingApproval, targets [StateRejected; StateApproved]);
      (StateApproved, targets [StateSucceeded; StateFailed; StateOutcomeUnknown]) ].

(** [invalidTransitionError]: its message names the edge and it unwraps to
    the sentinel. *)
Definition errInvalidTransition (from to : State) : error :=
  ErrorWrap ("action: invalid state transition " +:+ from +:+ " -> " +:+ to)
    ErrInvalidTransition.

(** [transitions[from][to]]: a missing row is a nil map, a missing entry is
    [false]. *)
Definition Transition (from to : State) : option error :=
  if default false (default ∅ (transitions !! from) !! to)
  then None
  else Some (errInvalidTransition from to).

Definition Terminal (s : State) : bool :=
  bool_decide (s ∈ [StateDenied; StateShadowed; StateSucceeded; StateFailed;
                    StateRejected; StateOutcomeUnknown]).

(** The step relation [Transition] decides, and the states an action row can
    reach from its birth state. *)
Inductive step : State -> State -> Prop :=
| step_edge from to : Transition from to = None -> step from to.

Definition reachable (s : State) : Prop := rtc step StateReceived s.

(** A run is the list of states an action went through, newest first. *)
Inductive run : list State -> Prop :=
| run_birth : run [StateReceived]
| run_step l from to : run (from :: l) -> step from to -> run (to :: from :: l).

(** The edges of the table as a list. *)
Definition edges : list (State * State) :=
  [ (StateReceived, StateNormalized);
    (StateNormalized, StateDenied); (StateNormalized, StateShadowed);
    (StateNormalized, StateAuthorized); (StateNormalized, StatePendingApproval);
    (StateAuthorized, StateSucceeded); (StateAuthorized, StateFailed);
    (StateAuthorized, StateOutcomeUnknown);
    (StatePendingApproval, StateRejected); (StatePendingApproval, StateApproved);
    (StateApproved, StateSucceeded); (StateApproved, StateFailed);
    (StateApproved, StateOutcomeUnknown) ].

(** The ways an action can end, each as the list of states it visits, oldest
    first. *)
Definition complete_runs : list (list State) :=
  [ [StateReceived; StateNormalized; StateDenied];
    [StateReceived; StateNormalized; StateShadowed];
    [StateReceived; StateNormalized; StateAuthorized; StateSucceeded];
    [StateReceived; StateNormalized; StateAuthorized; StateFailed];
    [StateReceived; StateNormalized; StateAuthorized; StateOutcomeUnknown];
    [StateReceived; StateNormalized; StatePendingApproval; StateRejected];
    [StateReceived; StateNormalized; StatePendingApproval; StateApproved; StateSucceeded];
    [StateReceived; StateNormalized; StatePendingApproval; StateApproved; StateFailed];
    [StateReceived; StateNormalized; StatePendingApproval; StateApproved;
     StateOutcomeUnknown] ].

Lemma Transition_edges (from to : State) :
  Transition from to = None <-> (from, to) ∈ edges.
Proof.
  unfold Transition.
  assert (default false (default ∅ (transitions !! from) !! to) = true
          <-> (from, to) ∈ edges) as <-; [|by case_match].
  unfold transitions, targets, edges. simpl.
  rewrite !elem_of_cons, elem_of_nil. setoid_rewrite pair_equal_spec.
  repeat (rewrite lookup_insert; case_decide; subst; simpl);
    rewrite ?lookup_empty; simpl; rewrite ?lookup_empty; simpl;
    repeat (rewrite lookup_insert; case_decide; subst; simpl);
    rewrite ?lookup_empty; simpl; naive_solver.
Qed.

Lemma step_edges (from to : State) : step from to <-> (from, to) ∈ edges.
Proof.
  rewrite <- Transition_edges. split; [by inversion 1|by constructor].
Qed.

(** Case analysis on an edge of the table. *)
Ltac by_edges H :=
  apply step_edges in H; unfold edges in H;
  repeat (apply elem_of_cons in H as [H|H]; [simplify_eq/=|]);
  [..|by apply elem_of_nil in H].

(** The runs that did not end yet. *)
Definition open_runs : list (list State) :=
  [ [StateReceived]; [StateReceived; StateNormalized];
    [StateReceived; StateNormalized; StateAuthorized];
    [StateReceived; StateNormalized; StatePendingApproval];
    [StateReceived; StateNormalized; StatePendingApproval; StateApproved] ].

Lemma run_cases (l : list State) :
  run l -> l ∈ reverse <$> (open_runs ++ complete_runs).
Proof.
  unfold open_runs, complete_runs. simpl.
  induction 1 as [|l from to Hrun IH Hstep]; [by left|].
  repeat (apply elem_of_cons in IH as [IH|IH];
          [injection IH as -> ->; by_edges Hstep; set_solver|]).
  by apply elem_of_nil in IH.
Qed.

Lemma reachable_run (s : State) : reachable s -> exists l, run (s :: l).
Proof.
  unfold reachable. revert s. apply rtc_ind_r; [exists []; constructor|].
  intros y z _ Hstep [l Hl]. exists (y :: l). by constructor.
Qed.

(** C24.  Every action history the transition table admits is one of nine
    complete runs or one of five open prefixes: a history whose current state
    [Terminal] accepts followed exactly one of the nine, and any other history
    is one of the five.  So nothing executes ([SUCCEEDED], [FAILED],
    [OUTCOME_UNKNOWN]) unless it was [AUTHORIZED], or parked and then
    [APPROVED]; a parked action never becomes [AUTHORIZED]; and no reserved or
    unknown state is ever visited. *)
Theorem runs_are_the_sealed_ones (l : list State) (s : State) :
  run (s :: l) ->
  (Terminal s = true /\ reverse (s :: l) ∈ complete_runs)
  \/ (Terminal s = false /\ reverse (s :: l) ∈ open_runs).
Proof.
  intros H%run_cases. revert H. unfold open_runs, complete_runs. simpl. intros H.
  repeat (apply elem_of_cons in H as [H|H];
          [injection H as -> ->;
           ((left; split; [reflexivity|]) || (right; split; [reflexivity|]));
           apply (bool_decide_unpack _); vm_compute; done|]).
  by apply elem_of_nil in H.
Qed.

(** The approved path of an irreversible call whose answer was lost. *)
Lemma runs_are_the_sealed_ones_witness :
  reverse [StateOutcomeUnknown; StateApproved; StatePendingApproval;
           StateNormalized; StateReceived] ∈ complete_runs
  \/ reverse [StateOutcomeUnknown; StateApproved; StatePendingApproval;
              StateNormalized; StateReceived] ∈ open_runs.
Proof.
  destruct (runs_are_the_sealed_ones
    [StateApproved; StatePendingApproval; StateNormalized; StateReceived]
    StateOutcomeUnknown) as [[_ H]|[_ H]]; [|by left|by right].
  repeat (constructor; [|constructor; reflexivity]). constructor.
Defined.

(** On the states an action can reach, [Terminal] accepts exactly the
    ones with no outgoing edge, and every action ends: the step relation is
    strongly normalising from any state, with at most four steps from birth. *)
Theorem terminal_states_are_the_stuck_ones (s : State) :
  reachable s ->
  (Terminal s = true <-> forall s', Transition s s' <> None)
  /\ (forall l, run (s :: l) -> length l <= 4).
Proof.
  intros [l Hl]%reachable_run. split.
  - apply run_cases in Hl. revert Hl. unfold open_runs, complete_runs. simpl. intros H.
    repeat (apply elem_of_cons in H as [H|H];
      [injection H as -> _; split;
       [intros Ht s' H'%step_edge; first [discriminate Ht|by_edges H']
       |intros Hs; try reflexivity; exfalso; revert Hs; clear]|]);
      [..|by apply elem_of_nil in H].
    all: intros Hs; first
      [ by apply (Hs StateNormalized) | by apply (Hs StateDenied)
      | by apply (Hs StateSucceeded) | by apply (Hs StateRejected) ].
  - intros k H%run_cases. revert H. unfold open_runs, complete_runs. simpl. intros H.
    repeat (apply elem_of_cons in H as [H|H]; [injection H as _ ->; simpl; lia|]).
    by apply elem_of_nil in H.
Qed.

Lemma terminal_states_are_the_stuck_ones_witness :
  Terminal StateRejected = true /\ forall s', Transition StateRejected s' <> None.
Proof.
  split; [reflexivity|].
  refine (proj1 (proj1 (terminal_states_are_the_stuck_ones StateRejected _)) _);
    [|reflexivity].
  eapply rtc_l; [constructor|eapply rtc_l; [constructor|eapply rtc_l; [constructor|]]].
  - instantiate (1 := StateNormalized). reflexivity.
  - instantiate (1 := StatePendingApproval). reflexivity.
  - instantiate (1 := StateRejected). reflexivity.
  - reflexivity.
Defined.

End ActionState.

(** ** The effect ladder *)

Module Effect.

Definition EffectClass := string.

Definition EffectPure : EffectClass := "pure".
Definition EffectReadExternal : EffectClass := "read_external".
Definition EffectWriteReversible : EffectClass := "write_reversible".
Definition EffectWriteCompensatable : EffectClass := "write_compensatable".
Definition EffectWriteIrreversible : EffectClass := "write_irreversible".
Definition EffectCritical : EffectClass := "critical".

Definition effectRanks : gmap EffectClass Z :=
  list_to_map
    [ (EffectPure, 0%Z); (EffectReadExternal, 1%Z); (EffectWriteReversible, 2%Z);
      (EffectWriteCompensatable, 3%Z); (EffectWriteIrreversible, 4%Z);
      (EffectCritical, 5%Z) ].

Definition unknownEffectRank : Z := 6.

Definition OnLadder (c : EffectClass) : bool :=
  match effectRanks !! c with Some _ => true | None => false end.

Definition Rank (c : EffectClass) : Z :=
  match effectRanks !! c with Some rank => rank | None => unknownEffectRank end.

Definition Known (c : EffectClass) : bool :=
  match effectRanks !! c with Some _ => true | None => false end.

Record EffectDescriptor := {
  Class : EffectClass;
  ReadsExternalState : bool;
  WritesExternalState : bool;
  DataEgress : bool;
  Reversible : bool;
  Compensatable : bool
}.

Lemma effectRanks_lookup (c : EffectClass) (r : Z) :
  effectRanks !! c = Some r ->
  (c = EffectPure /\ r = 0%Z) \/ (c = EffectReadExternal /\ r = 1%Z) \/
  (c = EffectWriteReversible /\ r = 2%Z) \/ (c = EffectWriteCompensatable /\ r = 3%Z) \/
  (c = EffectWriteIrreversible /\ r = 4%Z) \/ (c = EffectCritical /\ r = 5%Z).
Proof.
  unfold effectRanks. simpl. rewrite !lookup_insert_Some, lookup_empty. naive_solver.
Qed.

Lemma Rank_known (c : EffectClass) : Known c = true -> (0 <= Rank c <= 5)%Z.
Proof.
  unfold Known, Rank. case_match eqn:E; [|done].
  apply effectRanks_lookup in E. intros _. naive_solver lia.
Qed.

Lemma Rank_unknown (c : EffectClass) : Known c = false -> Rank c = 6%Z.
Proof. unfold Known, Rank. by case_match. Qed.

Lemma Rank_bounds (c : EffectClass) : (0 <= Rank c <= 6)%Z.
Proof.
  destruct (Known c) eqn:E; [apply Rank_known in E|apply Rank_unknown in E]; lia.
Qed.

(** [Rank] is a total order on the six declared classes and fails
    closed on everything else: two known classes with the same rank are equal,
    and a string that is not one of them — a future class, a corrupt row, the
    historical "unclassified" — ranks strictly above every known class, so no
    known ceiling can admit it. *)
Theorem ladder_is_total_and_fails_closed (c d : EffectClass) :
  Known c = true ->
  (Known d = true -> Rank c = Rank d -> c = d)
  /\ (Known d = false -> (Rank c < Rank d)%Z)
  /\ OnLadder c = true.
Proof.
  intros Hc. repeat split.
  - unfold Known, Rank in *. repeat case_match; try done. intros _ ->.
    repeat match goal with H : effectRanks !! _ = Some _ |- _ =>
      apply effectRanks_lookup in H end.
    naive_solver.
  - intros Hd. rewrite (Rank_unknown d Hd). apply Rank_known in Hc. lia.
  - done.
Qed.

Lemma ladder_is_total_and_fails_closed_witness :
  (Rank EffectCritical < Rank "unclassified")%Z.
Proof.
  apply (ladder_is_total_and_fails_closed EffectCritical "unclassified"); reflexivity.
Defined.

End Effect.

(** ** The shared contract lifecycle *)

Module Lifecycle.

Definition LifecycleStatus := string.

Definition LifecycleDraft : LifecycleStatus := "DRAFT".
Definition LifecycleActive : LifecycleStatus := "ACTIVE".
Definition LifecycleExpired : LifecycleStatus := "EXPIRED".
Definition LifecycleRevoked : LifecycleStatus := "REVOKED".

Definition ErrInvalidLifecycleTransition : error :=
  ErrorNew "action: invalid lifecycle transition".

Definition lifecycleTransitions : gmap LifecycleStatus (gmap LifecycleStatus bool) :=
  list_to_map
    [ (LifecycleDraft, list_to_map [(LifecycleActive, true)]);
      (LifecycleActive, list_to_map [(LifecycleExpired, true); (LifecycleRevoked, true)]) ].

Definition LifecycleTransition (from to : LifecycleStatus) : option error :=
  if default false (default ∅ (lifecycleTransitions !! from) !! to)
  then None
  else Some (ErrorWrap (from +:+ " -> " +:+ to) ErrInvalidLifecycleTransition).

Definition Terminal (s : LifecycleStatus) : bool :=
  bool_decide (s ∈ [LifecycleExpired; LifecycleRevoked]).

Lemma LifecycleTransition_None (from to : LifecycleStatus) :
  LifecycleTransition from to = None <->
  (from = LifecycleDraft /\ to = LifecycleActive)
  \/ (from = LifecycleActive /\ (to = LifecycleExpired \/ to = LifecycleRevoked)).
Proof.
  unfold LifecycleTransition.
  assert (default false (default ∅ (lifecycleTransitions !! from) !! to) = true
     <-> (from = LifecycleDraft /\ to = LifecycleActive)
         \/ (from = LifecycleActive /\ (to = LifecycleExpired \/ to = LifecycleRevoked)))
    as <-; [|by case_match].
  unfold lifecycleTransitions. simpl.
  repeat (rewrite lookup_insert; case_decide; subst; simpl);
    rewrite ?lookup_empty; simpl; rewrite ?lookup_empty; simpl;
    repeat (rewrite lookup_insert; case_decide; subst; simpl);
    rewrite ?lookup_empty; simpl; naive_solver.
Qed.

End Lifecycle.
