(* ===== verification/Grants.v ===== *)
(** * Intent contracts, authority grants, validity windows and budgets

    [internal/action/contract.go] (the records), [attenuation.go] (the
    delegation validator), [validity.go] (the clock rules), [budget.go] (the
    ledger that serialises consumption) and the operator identities of
    [identity.go] and [wire.go] these rest on. *)

From S2P Require Import Prelude Kernel.
Import Effect Lifecycle.
Local Open Scope korvun_scope.

(** ** Data *)

(** A Go map field may be nil: [None].  Reading a nil map finds nothing; the
    two only differ once marshalled. *)
Record Budgets := {
  MaxActions : Z;
  PerOperation : option (gmap string Z)
}.

Definition MaxActionsPerOperation (b : Budgets) : gmap string Z := default ∅ b.(PerOperation).

Module IntentContract.

Record t := {
  IntentID : string;
  SchemaVersion : Z;
  OwnerPrincipalID : string;
  Purpose : string;
  AllowedOperations : list string;
  AllowedResources : list string;
  Budgets : Budgets;
  ValidFrom : time;
  ExpiresAt : time;
  Status : LifecycleStatus;
  Version : Z
}.

End IntentContract.

Module AuthorityGrant.

Record t := {
  GrantID : string;
  IntentID : string;
  IssuerPrincipalID : string;
  SubjectPrincipalID : string;
  ParentGrantID : string;
  Operations : list string;
  ResourceScope : list string;
  Budgets : Budgets;
  ValidFrom : time;
  ExpiresAt : time;
  DelegationDepthRemaining : Z;
  EffectCeiling : EffectClass;
  Status : LifecycleStatus
}.

End AuthorityGrant.

Module Principal.

Record t := {
  PrincipalID : string;
  Type_ : string;
  DisplayName : string;
  ResponsibleHumanID : string;
  CreatedAt : time;
  DisabledAt : time
}.

End Principal.

(** ** Attenuation: one delegation edge *)

Definition ErrAttenuationViolated : error := ErrorNew "action: delegation widens authority".

Definition widens (dimension detail : string) : error :=
  ErrorWrap (dimension +:+ " (" +:+ detail +:+ ")") ErrAttenuationViolated.

Definition coveredBy (item : string) (parentSet : list string) : bool :=
  existsb (fun s => bool_decide (s = item) || bool_decide (s = "*")) parentSet.

Section Attenuation.
Import AuthorityGrant.

Definition ValidateAttenuation (parent child : AuthorityGrant.t) : option error :=
  fail_if (bool_decide (child.(IntentID) <> parent.(IntentID)))
    (widens "intent" "child leaves the parent's intent") ;;;
  fail_if (bool_decide (child.(ParentGrantID) <> parent.(GrantID)))
    (widens "parent" "child does not name this grant as its delegation parent") ;;;
  fail_if (bool_decide (child.(IssuerPrincipalID) <> parent.(SubjectPrincipalID)))
    (widens "issuer" "only the parent's subject may issue the child") ;;;
  fail_if (parent.(DelegationDepthRemaining) <=? 0)%Z
    (widens "depth" "parent has no delegation depth remaining") ;;;
  fail_if (parent.(DelegationDepthRemaining) <=? child.(DelegationDepthRemaining))%Z
    (widens "depth" "child depth must strictly decrease") ;;;
  check_all (fun op => fail_if (negb (coveredBy op parent.(Operations)))
      (widens "operations" ("operation " +:+ op +:+ " is not covered by the parent")))
    child.(Operations) ;;;
  check_all (fun r => fail_if (negb (coveredBy r parent.(ResourceScope)))
      (widens "resources" ("resource " +:+ r +:+ " is not covered by the parent")))
    child.(ResourceScope) ;;;
  fail_if (bool_decide (parent.(Budgets).(MaxActions) <> 0%Z)
           && (bool_decide (child.(Budgets).(MaxActions) = 0%Z)
               || (parent.(Budgets).(MaxActions) <? child.(Budgets).(MaxActions))%Z))
    (widens "budget" "child max_actions must be limited within the parent's") ;;;
  fail_if (negb (time_is_zero parent.(ExpiresAt))
           && (time_is_zero child.(ExpiresAt)
               || time_after child.(ExpiresAt) parent.(ExpiresAt)))
    (widens "expiry" "child must expire no later than the parent") ;;;
  (if bool_decide (parent.(EffectCeiling) <> "") then
     fail_if (bool_decide (child.(EffectCeiling) = ""))
       (widens "effect_ceiling" "child must carry a ceiling within the parent's") ;;;
     fail_if (Rank parent.(EffectCeiling) <? Rank child.(EffectCeiling))%Z
       (widens "effect_ceiling" "child ceiling exceeds the parent's on the effect ladder")
   else None) ;;;
  fail_if (time_before child.(ValidFrom) parent.(ValidFrom))
    (widens "window" "child validity must not start before the parent's").

End Attenuation.

(** ** Validity at an injected instant *)

Definition RuleIntentInactive : string := "intent_inactive".
Definition RuleIntentExpired : string := "intent_expired".
Definition RuleAuthorityExpired : string := "authority_expired".
Definition RuleAuthorityRevoked : string := "authority_revoked".
Definition RuleAuthorityInactive : string := "authority_inactive".
Definition RuleBudgetExhausted : string := "budget_exhausted".
Definition RulePrincipalDisabled : string := "principal_disabled".

Definition ValidateIntentAt (c : IntentContract.t) (at_ : time) : string :=
  if bool_decide (c.(IntentContract.Status) <> LifecycleActive) then RuleIntentInactive
  else if time_before at_ c.(IntentContract.ValidFrom) then RuleIntentInactive
  else if negb (time_is_zero c.(IntentContract.ExpiresAt))
          && negb (time_before at_ c.(IntentContract.ExpiresAt))
       then RuleIntentExpired
  else "".

Definition ValidateGrantAt (g : AuthorityGrant.t) (at_ : time) : string :=
  let status := g.(AuthorityGrant.Status) in
  if bool_decide (status = LifecycleRevoked) then RuleAuthorityRevoked
  else if bool_decide (status = LifecycleExpired) then RuleAuthorityExpired
  else if bool_decide (status <> LifecycleActive) then RuleAuthorityInactive
  else if time_before at_ g.(AuthorityGrant.ValidFrom) then RuleAuthorityInactive
  else if negb (time_is_zero g.(AuthorityGrant.ExpiresAt))
          && negb (time_before at_ g.(AuthorityGrant.ExpiresAt))
       then RuleAuthorityExpired
  else "".

Definition ValidatePrincipalAt (p : Principal.t) (at_ : time) : string :=
  if negb (time_is_zero p.(Principal.DisabledAt))
     && negb (time_before at_ p.(Principal.DisabledAt))
  then RulePrincipalDisabled else "".

(** ** The budget ledger *)

Module BudgetLedger.

Record t := {
  limits : Budgets;
  total : Z;
  perOp : gmap string Z
}.

Definition NewBudgetLedger (b : Budgets) : t :=
  {| limits := b; total := 0; perOp := ∅ |}.

(** The mutex makes one call the atomic step of any interleaving, so a
    concurrent history is a list of calls in lock order. *)
Definition Consume (operation : string) (l : t) : string * t :=
  if bool_decide (l.(limits).(MaxActions) <> 0%Z)
     && (l.(limits).(MaxActions) <=? l.(total))%Z
  then (RuleBudgetExhausted, l)
  else if match MaxActionsPerOperation l.(limits) !! operation with
          | Some opCap =>
              bool_decide (opCap <> 0%Z)
              && (opCap <=? default 0 (l.(perOp) !! operation))%Z
          | None => false
          end
  then (RuleBudgetExhausted, l)
  else ("", {| limits := l.(limits);
               total := wrap64 (l.(total) + 1);
               perOp := <[operation :=
                  wrap64 (default 0 (l.(perOp) !! operation) + 1)]> l.(perOp) |})%Z.

Definition Spent (l : t) : Z := l.(total).

(** A history: the calls in lock order, their answers and the final ledger. *)
Fixpoint consume_all (ops : list string) (l : t) : list string * t :=
  match ops with
  | [] => ([], l)
  | op :: ops' =>
      let '(r, l1) := Consume op l in
      let '(rs, l2) := consume_all ops' l1 in
      (r :: rs, l2)
  end.


(** ** Lemmas *)

(** The number of granted calls, in total and per operation. *)
Definition granted (rs : list string) : nat := length (filter (fun r => r = "") rs).

Definition granted_for (op : string) (ops rs : list string) : nat :=
  length (filter (fun p => p.1 = op /\ p.2 = "") (zip ops rs)).

(** The counter of one operation; a missing entry of the Go map reads 0. *)
Definition spent_on (op : string) (l : t) : Z := default 0%Z (l.(perOp) !! op).

(** A ledger that respects its limits and whose counters cannot overflow
    within the next [n] calls. *)
Record bounded (n : Z) (l : t) : Prop := {
  bounded_total : (0 <= l.(total) /\ l.(total) + n < 9223372036854775808)%Z;
  bounded_total_cap : l.(limits).(MaxActions) <> 0%Z ->
    (l.(total) <= Z.max 0 l.(limits).(MaxActions))%Z;
  bounded_op : forall op,
    (0 <= spent_on op l /\ spent_on op l + n < 9223372036854775808)%Z;
  bounded_op_cap : forall op opCap,
    MaxActionsPerOperation l.(limits) !! op = Some opCap -> opCap <> 0%Z ->
    (spent_on op l <= Z.max 0 opCap)%Z
}.

Lemma Consume_denied (op : string) (l l' : t) (r : string) :
  Consume op l = (r, l') -> r <> "" -> r = RuleBudgetExhausted /\ l' = l.
Proof. unfold Consume. intros H Hr. repeat case_match; naive_solver. Qed.

Lemma Consume_granted (op : string) (l l' : t) :
  Consume op l = ("", l') ->
  (l.(limits).(MaxActions) = 0%Z \/ (l.(total) < l.(limits).(MaxActions))%Z)
  /\ (forall opCap, MaxActionsPerOperation l.(limits) !! op = Some opCap ->
       opCap = 0%Z \/ (spent_on op l < opCap)%Z)
  /\ l' = {| limits := l.(limits); total := wrap64 (l.(total) + 1);
             perOp := <[op := wrap64 (spent_on op l + 1)%Z]> l.(perOp) |}.
Proof.
  unfold Consume. intros H. case_match eqn:E1; [done|]. case_match eqn:E2; [done|].
  simplify_eq. split_and!; [| |done].
  - bools. destruct E1 as [E1|E1]; bools; [left|right]; [|done].
    destruct (decide (l.(limits).(MaxActions) = 0%Z)); tauto.
  - intros opCap Hc. rewrite Hc in E2. bools. unfold spent_on.
    destruct E2 as [E2|E2]; bools; [left|right]; [|done].
    destruct (decide (opCap = 0%Z)); tauto.
Qed.

(** One call preserves the limits and moves the counters by its answer. *)
Lemma Consume_step (op r : string) (l l' : t) (n : Z) :
  (0 <= n)%Z -> bounded (n + 1) l -> Consume op l = (r, l') ->
  bounded n l' /\ l'.(limits) = l.(limits)
  /\ l'.(total) = (l.(total) + if bool_decide (r = "") then 1 else 0)%Z
  /\ forall op', spent_on op' l' =
      (spent_on op' l + if bool_decide (op = op' /\ r = "") then 1 else 0)%Z.
Proof.
  intros Hn [Ht Htc Ho Hoc] HC. destruct (decide (r = "")) as [->|Hr].
  - apply Consume_granted in HC as (H1 & H2 & ->). unfold spent_on in *; simpl.
    assert (forall op', default 0 (<[op := wrap64 (default 0 (l.(perOp) !! op) + 1)]>
              l.(perOp) !! op') = default 0 (l.(perOp) !! op')
                                  + if bool_decide (op = op' /\ "" = "") then 1 else 0)%Z
      as Heq.
    { intros op'. rewrite lookup_insert. specialize (Ho op). case_decide.
      - subst. rewrite bool_decide_eq_true_2 by done. simpl.
        apply wrap64_small. unfold int64_range. lia.
      - rewrite bool_decide_eq_false_2 by naive_solver. lia. }
    rewrite wrap64_small by (unfold int64_range; lia).
    split_and!; [split; unfold spent_on; simpl| | |]; try done; try lia.
    + intros op'. rewrite Heq. specialize (Ho op'). case_match; lia.
    + intros op' opCap Hcap Hne. rewrite Heq. specialize (Hoc _ _ Hcap Hne).
      case_bool_decide; [|lia]. destruct_and!; subst. destruct (H2 _ Hcap); lia.
  - destruct (Consume_denied _ _ _ _ HC Hr) as [-> ->]. split_and!; try done.
    + split; try done; [lia|]. intros op'. specialize (Ho op'). lia.
    + rewrite bool_decide_eq_false_2 by done. lia.
    + intros op'. rewrite bool_decide_eq_false_2 by naive_solver. lia.
Qed.

Lemma consume_all_counts (ops rs : list string) (l l' : t) :
  bounded (Z.of_nat (length ops)) l -> consume_all ops l = (rs, l') ->
  bounded 0 l' /\ l'.(limits) = l.(limits)
  /\ l'.(total) = (l.(total) + Z.of_nat (granted rs))%Z
  /\ forall op, spent_on op l' = (spent_on op l + Z.of_nat (granted_for op ops rs))%Z.
Proof.
  revert rs l. induction ops as [|op ops IH]; simpl; intros rs l Hb HC.
  { simplify_eq. unfold granted_for, granted. simpl. split_and!; try done; intros; lia. }
  destruct (Consume op l) as [r l1] eqn:E1.
  destruct (consume_all ops l1) as [rs1 l2] eqn:E2. simplify_eq.
  destruct (Consume_step op r l l1 (Z.of_nat (length ops))) as (Hb1 & Hl1 & Ht1 & Ho1);
    [lia|by replace (Z.of_nat (length ops) + 1)%Z with (Z.of_nat (S (length ops))) by lia
    |done|].
  destruct (IH _ _ Hb1 E2) as (Hb2 & Hl2 & Ht2 & Ho2).
  split_and!; [done|congruence| |].
  - rewrite Ht2, Ht1. unfold granted. rewrite filter_cons.
    repeat (case_decide || case_bool_decide); simpl; try done; lia.
  - intros op'. rewrite Ho2, Ho1. unfold granted_for. simpl. rewrite filter_cons.
    repeat (case_decide || case_bool_decide); simpl in *; try done; lia.
Qed.

Lemma new_bounded (b : Budgets) (n : Z) :
  (0 <= n < 9223372036854775808)%Z -> bounded n (NewBudgetLedger b).
Proof.
  intros Hn. split; unfold spent_on; simpl; intros; rewrite ?lookup_empty; simpl; lia.
Qed.

(** With a total cap only, the ledger grants as long as there is room. *)
Lemma consume_all_exact (ops rs : list string) (l l' : t) :
  bounded (Z.of_nat (length ops)) l -> consume_all ops l = (rs, l') ->
  MaxActionsPerOperation l.(limits) = ∅ -> (0 < l.(limits).(MaxActions))%Z ->
  Z.of_nat (granted rs)
    = Z.min (Z.of_nat (length ops)) (l.(limits).(MaxActions) - l.(total))%Z.
Proof.
  revert rs l. induction ops as [|op ops IH]; simpl; intros rs l Hb HC He Hm.
  { simplify_eq. destruct Hb as [? Hc _ _]. simpl. unfold granted. simpl. lia. }
  destruct (Consume op l) as [r l1] eqn:E1.
  destruct (consume_all ops l1) as [rs1 l2] eqn:E2. simplify_eq.
  destruct (Consume_step op r l l1 (Z.of_nat (length ops))) as (Hb1 & Hl1 & Ht1 & Ho1);
    [lia|by replace (Z.of_nat (length ops) + 1)%Z with (Z.of_nat (S (length ops))) by lia
    |done|].
  specialize (IH _ _ Hb1 E2). rewrite Hl1 in IH. specialize (IH He Hm).
  unfold granted. rewrite filter_cons. fold (granted rs1).
  destruct (decide (r = "")) as [->|Hr].
  - rewrite bool_decide_eq_true_2 in Ht1 by done.
    apply Consume_granted in E1 as ([?|?] & _ & _); [lia|].
    unfold granted in *. simpl. lia.
  - rewrite bool_decide_eq_false_2 in Ht1 by done.
    assert (l.(total) >= l.(limits).(MaxActions))%Z.
    { revert E1. unfold Consume. rewrite He, lookup_empty.
      case_match eqn:E; bools; [lia|naive_solver]. }
    unfold granted in *. lia.
Qed.

(** Whatever the order in which concurrent consumers reach the
    mutex, a ledger built over [b] never grants more than its limits: the
    number of granted calls equals [Spent], stays within the total cap, and for
    every capped operation stays within that operation's cap.  When only the
    total is capped nothing is lost either: exactly the first [MaxActions]
    calls are granted, so a denial consumes no room.  (Fewer than [2^63] calls:
    the counters of unlimited dimensions are machine integers.) *)
Theorem budget_is_never_exceeded (b : Budgets) (ops rs : list string) (l : t) :
  (Z.of_nat (length ops) < 9223372036854775808)%Z ->
  consume_all ops (NewBudgetLedger b) = (rs, l) ->
  Spent l = Z.of_nat (granted rs)
  /\ (b.(MaxActions) <> 0%Z -> (Z.of_nat (granted rs) <= Z.max 0 b.(MaxActions))%Z)
  /\ (forall op opCap, MaxActionsPerOperation b !! op = Some opCap -> opCap <> 0%Z ->
       (Z.of_nat (granted_for op ops rs) <= Z.max 0 opCap)%Z)
  /\ (MaxActionsPerOperation b = ∅ -> (0 < b.(MaxActions))%Z ->
       Z.of_nat (granted rs) = Z.min (Z.of_nat (length ops)) b.(MaxActions)).
Proof.
  intros Hlen HC. pose proof (new_bounded b _ (conj (Nat2Z.is_nonneg _) Hlen)) as Hb.
  destruct (consume_all_counts _ _ _ _ Hb HC) as ([_ Htc _ Hoc] & Hl & Ht & Ho).
  unfold Spent. simpl in *. split_and!.
  - lia.
  - intros Hm. rewrite Hl in Htc. specialize (Htc Hm). simpl in Htc. lia.
  - intros op opCap Hc Hne. rewrite Hl in Hoc. specialize (Hoc op opCap Hc Hne).
    rewrite Ho in Hoc. unfold spent_on in Hoc. simpl in Hoc.
    rewrite lookup_empty in Hoc. simpl in Hoc. lia.
  - intros He Hm. rewrite (consume_all_exact _ _ _ _ Hb HC He Hm). simpl. lia.
Qed.

Lemma budget_is_never_exceeded_witness :
  let b := {| MaxActions := 2; PerOperation := None |} in
  let h := consume_all ["calc"; "echo"; "calc"] (NewBudgetLedger b) in
  h.1 = [""; ""; RuleBudgetExhausted] /\ Spent h.2 = 2%Z.
Proof.
  intros b h. split; [reflexivity|].
  refine (eq_trans (proj1 (budget_is_never_exceeded b ["calc"; "echo"; "calc"] h.1 h.2 _ _)) _);
    [reflexivity|reflexivity|reflexivity].
Defined.

End BudgetLedger.

(** ** Delegation chains *)

Section Delegation.
Import AuthorityGrant.

(** [n] validated edges lead from [root] to [leaf]. *)
Inductive delegated (root : AuthorityGrant.t) : nat -> AuthorityGrant.t -> Prop :=
| delegated_self : delegated root 0 root
| delegated_edge n parent child :
    delegated root n parent -> ValidateAttenuation parent child = None ->
    delegated root (S n) child.

(** What a grant lets its subject do at an instant: an operation on a resource
    with an effect class, under a grant in force. *)
Record authorizes (g : AuthorityGrant.t) (op resource : string)
    (class : EffectClass) (at_ : time) : Prop := {
  authorizes_at : ValidateGrantAt g at_ = "";
  authorizes_op : coveredBy op g.(Operations) = true;
  authorizes_resource : coveredBy resource g.(ResourceScope) = true;
  authorizes_class : g.(EffectCeiling) <> "" -> (Rank class <= Rank g.(EffectCeiling))%Z
}.

Lemma coveredBy_true (x : string) (l : list string) :
  coveredBy x l = true <-> x ∈ l \/ "*" ∈ l.
Proof.
  unfold coveredBy. rewrite existsb_exists. setoid_rewrite orb_true_iff.
  setoid_rewrite bool_decide_eq_true. setoid_rewrite <- list_elem_of_In. naive_solver.
Qed.

(** Coverage of every member of a set lifts to coverage by the set. *)
Lemma coveredBy_trans (x : string) (l k : list string) :
  Forall (fun y => coveredBy y k = true) l -> coveredBy x l = true -> coveredBy x k = true.
Proof.
  rewrite Forall_forall. intros Hl. rewrite (coveredBy_true x l).
  intros [Hx|Hx]; apply Hl in Hx; [done|].
  rewrite coveredBy_true in *. naive_solver.
Qed.

(** The dimensions one accepted edge narrows. *)
Record attenuates (parent child : AuthorityGrant.t) : Prop := {
  att_intent : child.(IntentID) = parent.(IntentID);
  att_link : child.(ParentGrantID) = parent.(GrantID);
  att_issuer : child.(IssuerPrincipalID) = parent.(SubjectPrincipalID);
  att_depth : (0 < parent.(DelegationDepthRemaining))%Z
              /\ (child.(DelegationDepthRemaining) < parent.(DelegationDepthRemaining))%Z;
  att_ops : Forall (fun op => coveredBy op parent.(Operations) = true) child.(Operations);
  att_res : Forall (fun r => coveredBy r parent.(ResourceScope) = true) child.(ResourceScope);
  att_budget : parent.(Budgets).(MaxActions) <> 0%Z ->
    child.(Budgets).(MaxActions) <> 0%Z
    /\ (child.(Budgets).(MaxActions) <= parent.(Budgets).(MaxActions))%Z;
  att_expiry : parent.(ExpiresAt) <> 0%Z ->
    child.(ExpiresAt) <> 0%Z /\ (child.(ExpiresAt) <= parent.(ExpiresAt))%Z;
  att_ceiling : parent.(EffectCeiling) <> "" ->
    child.(EffectCeiling) <> ""
    /\ (Rank child.(EffectCeiling) <= Rank parent.(EffectCeiling))%Z;
  att_from : (parent.(ValidFrom) <= child.(ValidFrom))%Z
}.

Lemma Forall_fail_if {A} (P : A -> bool) (mk : A -> error) (l : list A) :
  Forall (fun x => fail_if (negb (P x)) (mk x) = None) l
  <-> Forall (fun x => P x = true) l.
Proof.
  rewrite !Forall_forall. setoid_rewrite fail_if_None. setoid_rewrite negb_false_iff. done.
Qed.

Lemma budget_guard_None (p c : Z) (e : error) :
  fail_if (bool_decide (p <> 0%Z) && (bool_decide (c = 0%Z) || (p <? c)%Z)) e = None
  <-> (p <> 0%Z -> c <> 0%Z /\ (c <= p)%Z).
Proof. rewrite fail_if_None. repeat case_bool_decide; simpl; rewrite ?Z.ltb_ge; naive_solver. Qed.

Lemma expiry_guard_None (p c : Z) (e : error) :
  fail_if (negb (time_is_zero p) && (time_is_zero c || time_after c p)) e = None
  <-> (p <> 0%Z -> c <> 0%Z /\ (c <= p)%Z).
Proof.
  unfold time_is_zero, time_after. rewrite fail_if_None.
  repeat case_bool_decide; simpl; rewrite ?Z.ltb_ge; naive_solver.
Qed.

Lemma ceiling_guard_None (p c : EffectClass) (e1 e2 : error) :
  (if bool_decide (p <> "") then
     fail_if (bool_decide (c = "")) e1 ;;; fail_if (Rank p <? Rank c)%Z e2
   else None) = None
  <-> (p <> "" -> c <> "" /\ (Rank c <= Rank p)%Z).
Proof.
  case_bool_decide; [|tauto].
  rewrite first_error_None, !fail_if_None, bool_decide_eq_false, Z.ltb_ge. tauto.
Qed.

Lemma equality_guard_None (a b : string) (e : error) :
  fail_if (bool_decide (a <> b)) e = None <-> a = b.
Proof. rewrite fail_if_None, bool_decide_eq_false. split; [apply dec_stable|auto]. Qed.

Lemma ValidateAttenuation_None (parent child : AuthorityGrant.t) :
  ValidateAttenuation parent child = None <-> attenuates parent child.
Proof.
  unfold ValidateAttenuation.
  rewrite !first_error_None, !check_all_None, !Forall_fail_if, !equality_guard_None,
    budget_guard_None, expiry_guard_None, ceiling_guard_None, !fail_if_None, !Z.leb_gt.
  unfold time_before. rewrite Z.ltb_ge. split.
  - intros (? & ? & ? & ? & ? & ? & ? & ? & ? & ? & ?). by constructor.
  - intros [? ? ? [] ? ? ? ? ? ?]. split_and!; done.
Qed.

Lemma window_nested (parent child : AuthorityGrant.t) (at_ : time) :
  attenuates parent child -> parent.(Status) = LifecycleActive ->
  ValidateGrantAt child at_ = "" -> ValidateGrantAt parent at_ = "".
Proof.
  intros [_ _ _ _ _ _ _ Hexp _ Hfrom] Hs. unfold ValidateGrantAt.
  rewrite Hs. simpl. unfold time_before, time_is_zero.
  repeat case_match; try done; bools; try lia;
    repeat match goal with H : _ \/ _ |- _ => destruct H end; bools; try lia;
    exfalso; lia.
Qed.

Lemma edge_never_widens (parent child : AuthorityGrant.t) op resource class at_ :
  attenuates parent child -> parent.(Status) = LifecycleActive ->
  authorizes child op resource class at_ -> authorizes parent op resource class at_.
Proof.
  intros Hatt Hs [Hat Hop Hres Hcl]. pose proof Hatt as [].
  split; eauto using window_nested, coveredBy_trans.
  intros Hc. destruct (att_ceiling0 Hc) as [H1 H2]. specialize (Hcl H1). lia.
Qed.

Lemma delegated_depth (root leaf : AuthorityGrant.t) (n : nat) :
  delegated root n leaf ->
  (leaf.(DelegationDepthRemaining) + Z.of_nat n <= root.(DelegationDepthRemaining))%Z
  /\ (n = 0 \/ (Z.of_nat n <= root.(DelegationDepthRemaining))%Z).
Proof.
  induction 1 as [|n p c _ [IH1 IH2] Hv]; [lia|].
  apply ValidateAttenuation_None in Hv as [_ _ _ [? ?] _ _ _ _ _ _]. lia.
Qed.

(** A delegation chain never widens authority: if every grant of the
    chain is still ACTIVE, then whatever operation, resource, effect class and
    instant the last grant authorises, the first grant authorises too; a finite
    budget of the first stays finite and does not grow; the intent never
    changes; and the first grant's remaining depth bounds the chain's length. *)
Theorem delegation_never_widens (root : AuthorityGrant.t) (n : nat)
    (leaf : AuthorityGrant.t) :
  delegated root n leaf ->
  (forall op resource class at_,
     (forall k g, delegated root k g -> k < n -> g.(Status) = LifecycleActive) ->
     authorizes leaf op resource class at_ -> authorizes root op resource class at_)
  /\ (root.(Budgets).(MaxActions) <> 0%Z ->
      leaf.(Budgets).(MaxActions) <> 0%Z
      /\ (leaf.(Budgets).(MaxActions) <= root.(Budgets).(MaxActions))%Z)
  /\ leaf.(IntentID) = root.(IntentID)
  /\ (Z.of_nat n <= Z.max 0 root.(DelegationDepthRemaining))%Z.
Proof.
  intros Hd. pose proof (delegated_depth _ _ _ Hd) as [_ Hlen].
  split_and!; [| | |lia]; clear Hlen;
    (induction Hd as [|n p c Hd IH Hv]; [by auto with lia|]);
    apply ValidateAttenuation_None in Hv as Hatt.
  - intros op resource class at_ Hact Hc. apply IH.
    + intros k g Hg Hk. apply (Hact k g Hg). lia.
    + eapply edge_never_widens; eauto.
  - destruct Hatt. intros Hr. specialize (IH Hr). naive_solver lia.
  - destruct Hatt. congruence.
Qed.

(** The shapes the witnesses use: the operator's root grant and a delegated
    read-only child. *)
Definition example_root : AuthorityGrant.t :=
  {| GrantID := "grant_root"; IntentID := "int_root";
     IssuerPrincipalID := "principal_operator"; SubjectPrincipalID := "principal_brain_a";
     ParentGrantID := ""; Operations := ["*"]; ResourceScope := ["*"];
     Budgets := {| MaxActions := 10; PerOperation := None |};
     ValidFrom := 5; ExpiresAt := 100; DelegationDepthRemaining := 2;
     EffectCeiling := EffectWriteReversible; Status := LifecycleActive |}.

Definition example_child : AuthorityGrant.t :=
  {| GrantID := "grant_child"; IntentID := "int_root";
     IssuerPrincipalID := "principal_brain_a"; SubjectPrincipalID := "principal_brain_b";
     ParentGrantID := "grant_root"; Operations := ["calc"]; ResourceScope := ["telegram"];
     Budgets := {| MaxActions := 3; PerOperation := None |};
     ValidFrom := 10; ExpiresAt := 50; DelegationDepthRemaining := 1;
     EffectCeiling := EffectReadExternal; Status := LifecycleActive |}.

Lemma delegation_never_widens_witness :
  authorizes example_root "calc" "telegram" EffectPure 20.
Proof.
  refine (proj1 (delegation_never_widens example_root 1 example_child _)
            "calc" "telegram" EffectPure 20%Z _ _).
  - econstructor; [constructor|reflexivity].
  - intros k g Hg Hk. destruct Hg; [reflexivity|lia].
  - split; try reflexivity. vm_compute. discriminate.
Defined.

End Delegation.
