(* ===== verification/Json.v ===== *)
(** * JSON: the part of [encoding/json] the kernel's canonical form rests on

    The decoder with [UseNumber] (numbers stay literals), strict as the
    standard library's scanner; and [Marshal] of the decoded value, which
    sorts object keys at every level and escapes HTML.  Strings are Go
    strings: byte sequences. *)

From S2P Require Import Prelude.
From Stdlib Require Import Ascii String.
Local Open Scope Z_scope.
#[local] Arguments String.append !_ _ : simpl nomatch.

(** ** Bytes and UTF-8 *)

Definition code (c : ascii) : Z := Z.of_N (N_of_ascii c).
Definition byte (z : Z) : ascii := ascii_of_N (Z.to_N z).

(** The bytes [0x00 .. 0x7f]; [utf8.RuneSelf] is [0x80]. *)
Definition RuneSelf : Z := 128.

Definition in_range (lo hi z : Z) : bool := (lo <=? z) && (z <=? hi).
Definition continuation (z : Z) : bool := in_range 128 191 z.

(** The well-formed multi-byte sequences (Unicode table 3-7), which are the ones
    [utf8.DecodeRune] accepts. *)
Definition utf8_2 (a b : Z) : bool := in_range 194 223 a && continuation b.

Definition utf8_3 (a b c : Z) : bool :=
  ((a =? 224) && in_range 160 191 b
   || (in_range 225 236 a || in_range 238 239 a) && continuation b
   || (a =? 237) && in_range 128 159 b)
  && continuation c.

Definition utf8_4 (a b c d : Z) : bool :=
  ((a =? 240) && in_range 144 191 b
   || in_range 241 243 a && continuation b
   || (a =? 244) && in_range 128 143 b)
  && continuation c && continuation d.

(** The number of bytes of the rune at the head of [String c s]: 1 to 4, or 0
    when the head byte starts no well-formed sequence. *)
Definition rune_size (c : ascii) (s : string) : nat :=
  if code c <? RuneSelf then 1%nat
  else match s with
  | EmptyString => 0%nat
  | String c1 s1 =>
      if utf8_2 (code c) (code c1) then 2%nat
      else match s1 with
      | EmptyString => 0%nat
      | String c2 s2 =>
          if utf8_3 (code c) (code c1) (code c2) then 3%nat
          else match s2 with
          | EmptyString => 0%nat
          | String c3 _ => if utf8_4 (code c) (code c1) (code c2) (code c3) then 4%nat else 0%nat
          end
      end
  end.

(** [utf8.EncodeRune] for a code point that is not a surrogate. *)
Definition encode_rune (r : Z) : string :=
  if r <? 128 then String (byte r) EmptyString
  else if r <? 2048 then
    String (byte (192 + r / 64)) (String (byte (128 + r mod 64)) EmptyString)
  else if r <? 65536 then
    String (byte (224 + r / 4096)) (String (byte (128 + (r / 64) mod 64))
      (String (byte (128 + r mod 64)) EmptyString))
  else
    String (byte (240 + r / 262144)) (String (byte (128 + (r / 4096) mod 64))
      (String (byte (128 + (r / 64) mod 64)) (String (byte (128 + r mod 64)) EmptyString))).

(** U+FFFD, the replacement character. *)
Definition replacement : string := encode_rune 65533.

Fixpoint str_drop (n : nat) (s : string) : string :=
  match n, s with
  | S n', String _ s' => str_drop n' s'
  | _, _ => s
  end.

Fixpoint str_take (n : nat) (s : string) : string :=
  match n, s with
  | S n', String c s' => String c (str_take n' s')
  | _, _ => EmptyString
  end.

(** ** Values *)

(** An object keeps its members in order of appearance, duplicates included. *)
Inductive value :=
| VNull
| VBool (b : bool)
| VNumber (literal : string)
| VString (s : string)
| VArray (elements : list value)
| VObject (members : list (string * value)).

(** ** The decoder *)

Definition is_space (c : ascii) : bool :=
  let z := code c in (z =? 32) || (z =? 9) || (z =? 13) || (z =? 10).

Fixpoint skip_space (s : string) : string :=
  match s with
  | String c s' => if is_space c then skip_space s' else s
  | EmptyString => EmptyString
  end.

Definition hex_digit (c : ascii) : option Z :=
  let z := code c in
  if in_range 48 57 z then Some (z - 48)
  else if in_range 97 102 z then Some (z - 87)
  else if in_range 65 70 z then Some (z - 55)
  else None.

(** [getu4] after the backslash and the [u]: four hex digits. *)
Definition hex4 (s : string) : option (Z * string) :=
  match s with
  | String a (String b (String c (String d s'))) =>
      match hex_digit a, hex_digit b, hex_digit c, hex_digit d with
      | Some x, Some y, Some z, Some w => Some (((x * 16 + y) * 16 + z) * 16 + w, s')
      | _, _, _, _ => None
      end
  | _ => None
  end.

Definition is_surrogate (r : Z) : bool := in_range 55296 57343 r.

(** [utf16.DecodeRune]: a high surrogate followed by a low one. *)
Definition decode_pair (hi lo : Z) : option Z :=
  if in_range 55296 56319 hi && in_range 56320 57343 lo
  then Some ((hi - 55296) * 1024 + (lo - 56320) + 65536) else None.

(** The escapes of one letter. *)
Definition simple_escape (c : ascii) : option ascii :=
  let z := code c in
  if (z =? 34) || (z =? 92) || (z =? 47) then Some c
  else if z =? 98 then Some (byte 8)
  else if z =? 102 then Some (byte 12)
  else if z =? 110 then Some (byte 10)
  else if z =? 114 then Some (byte 13)
  else if z =? 116 then Some (byte 9)
  else None.

(** What follows [\u]: the encoded rune and the rest; a lone surrogate becomes
    the replacement character and consumes only itself. *)
Definition unicode_escape (s : string) : option (string * string) :=
  match hex4 s with
  | None => None
  | Some (rr, s1) =>
      if is_surrogate rr then
        match s1 with
        | String b (String u s2) =>
            match (if (code b =? 92) && (code u =? 117) then hex4 s2 else None) with
            | Some (rr1, s3) =>
                match decode_pair rr rr1 with
                | Some r => Some (encode_rune r, s3)
                | None => Some (replacement, s1)
                end
            | None => Some (replacement, s1)
            end
        | _ => Some (replacement, s1)
        end
      else Some (encode_rune rr, s1)
  end.

(** One piece of a string literal after its opening quote: [None] is a syntax
    error, [Some None] the closing quote. *)
Definition string_piece (c : ascii) (s : string) : option (option (string * string)) :=
  let z := code c in
  if z =? 34 then Some None
  else if z =? 92 then
    match s with
    | EmptyString => None
    | String e s1 =>
        match simple_escape e with
        | Some c' => Some (Some (String c' EmptyString, s1))
        | None => if code e =? 117 then Some <$> unicode_escape s1 else None
        end
    end
  else if z <? 32 then None
  else match rune_size c s with
       | O => Some (Some (replacement, s))
       | S n => Some (Some (String c (str_take n s), str_drop n s))
       end.

Fixpoint unquote (fuel : nat) (s : string) : option (string * string) :=
  match fuel, s with
  | S fuel', String c s1 =>
      match string_piece c s1 with
      | Some None => Some (EmptyString, s1)
      | Some (Some (piece, s2)) =>
          match unquote fuel' s2 with
          | Some (d, s3) => Some (piece +:+ d, s3)
          | None => None
          end
      | None => None
      end
  | _, _ => None
  end.

Definition is_digit (c : ascii) : bool := in_range 48 57 (code c).

Fixpoint span_digits (s : string) : string * string :=
  match s with
  | String c s' =>
      if is_digit c then let '(d, r) := span_digits s' in (String c d, r)
      else (EmptyString, s)
  | EmptyString => (EmptyString, EmptyString)
  end.

(** The integer part: a single zero, or a non-zero digit and more digits. *)
Definition lex_int (s : string) : option (string * string) :=
  match s with
  | String c s' =>
      if code c =? 48 then Some (String c EmptyString, s')
      else if is_digit c then let '(d, r) := span_digits s' in Some (String c d, r)
      else None
  | EmptyString => None
  end.

(** At least one digit. *)
Definition lex_digits1 (s : string) : option (string * string) :=
  let '(d, r) := span_digits s in
  match d with EmptyString => None | _ => Some (d, r) end.

Definition lex_frac (s : string) : option (string * string) :=
  match s with
  | String c s' =>
      if code c =? 46 then
        match lex_digits1 s' with Some (d, r) => Some (String c d, r) | None => None end
      else Some (EmptyString, s)
  | EmptyString => Some (EmptyString, EmptyString)
  end.

Definition lex_sign (s : string) : string * string :=
  match s with
  | String c s' => if (code c =? 43) || (code c =? 45) then (String c EmptyString, s')
                   else (EmptyString, s)
  | EmptyString => (EmptyString, EmptyString)
  end.

Definition lex_exp (s : string) : option (string * string) :=
  match s with
  | String c s' =>
      if (code c =? 101) || (code c =? 69) then
        let '(sg, s1) := lex_sign s' in
        match lex_digits1 s1 with
        | Some (d, r) => Some (String c (sg +:+ d), r)
        | None => None
        end
      else Some (EmptyString, s)
  | EmptyString => Some (EmptyString, EmptyString)
  end.

(** A number literal, as long as possible. *)
Definition lex_number (s : string) : option (string * string) :=
  let '(sg, s0) := match s with
                   | String c s' => if code c =? 45 then (String c EmptyString, s')
                                    else (EmptyString, s)
                   | EmptyString => (EmptyString, EmptyString)
                   end in
  match lex_int s0 with
  | None => None
  | Some (i, s1) =>
      match lex_frac s1 with
      | None => None
      | Some (f, s2) =>
          match lex_exp s2 with
          | None => None
          | Some (e, s3) => Some (sg +:+ i +:+ f +:+ e, s3)
          end
      end
  end.

Fixpoint strip_prefix (p s : string) : option string :=
  match p, s with
  | EmptyString, _ => Some s
  | String a p', String b s' => if Ascii.eqb a b then strip_prefix p' s' else None
  | String _ _, EmptyString => None
  end.

(** [maxNestingDepth]: how many brackets may be open at once. *)
Definition maxNestingDepth : Z := 10000.

(** The value at the head of [s] (no leading space), with [d] brackets open. *)
Fixpoint parse_value (fuel : nat) (d : Z) (s : string) : option (value * string) :=
  match fuel with
  | O => None
  | S fuel' =>
      match s with
      | EmptyString => None
      | String c s1 =>
          let z := code c in
          if z =? 123 then
            if maxNestingDepth <? d + 1 then None
            else match skip_space s1 with
            | EmptyString => None
            | String c2 s2 =>
                if code c2 =? 125 then Some (VObject [], s2)
                else match parse_members fuel' (d + 1) (String c2 s2) with
                     | Some (ms, s3) => Some (VObject ms, s3)
                     | None => None
                     end
            end
          else if z =? 91 then
            if maxNestingDepth <? d + 1 then None
            else match skip_space s1 with
            | EmptyString => None
            | String c2 s2 =>
                if code c2 =? 93 then Some (VArray [], s2)
                else match parse_elements fuel' (d + 1) (String c2 s2) with
                     | Some (es, s3) => Some (VArray es, s3)
                     | None => None
                     end
            end
          else if z =? 34 then
            match unquote (S (String.length s1)) s1 with
            | Some (str, s2) => Some (VString str, s2)
            | None => None
            end
          else if z =? 116 then
            match strip_prefix "rue" s1 with Some s2 => Some (VBool true, s2) | None => None end
          else if z =? 102 then
            match strip_prefix "alse" s1 with Some s2 => Some (VBool false, s2) | None => None end
          else if z =? 110 then
            match strip_prefix "ull" s1 with Some s2 => Some (VNull, s2) | None => None end
          else
            match lex_number s with
            | Some (lit, s2) => Some (VNumber lit, s2)
            | None => None
            end
      end
  end
(** One or more members up to the closing brace. *)
with parse_members (fuel : nat) (d : Z) (s : string)
    : option (list (string * value) * string) :=
  match fuel with
  | O => None
  | S fuel' =>
      match s with
      | String q s1 =>
          if code q =? 34 then
            match unquote (S (String.length s1)) s1 with
            | None => None
            | Some (key, s2) =>
                match skip_space s2 with
                | String colon s3 =>
                    if code colon =? 58 then
                      match parse_value fuel' d (skip_space s3) with
                      | None => None
                      | Some (v, s4) =>
                          match skip_space s4 with
                          | String sep s5 =>
                              if code sep =? 125 then Some ([(key, v)], s5)
                              else if code sep =? 44 then
                                match parse_members fuel' d (skip_space s5) with
                                | Some (ms, s6) => Some ((key, v) :: ms, s6)
                                | None => None
                                end
                              else None
                          | EmptyString => None
                          end
                      end
                    else None
                | EmptyString => None
                end
            end
          else None
      | EmptyString => None
      end
  end
(** One or more elements up to the closing bracket. *)
with parse_elements (fuel : nat) (d : Z) (s : string) : option (list value * string) :=
  match fuel with
  | O => None
  | S fuel' =>
      match parse_value fuel' d s with
      | None => None
      | Some (v, s1) =>
          match skip_space s1 with
          | String sep s2 =>
              if code sep =? 93 then Some ([v], s2)
              else if code sep =? 44 then
                match parse_elements fuel' d (skip_space s2) with
                | Some (es, s3) => Some (v :: es, s3)
                | None => None
                end
              else None
          | EmptyString => None
          end
      end
  end.

(** Two units of fuel per byte are enough. *)
Definition json_fuel (s : string) : nat := S (String.length s + String.length s).

(** Exactly one value, with nothing but white space around it. *)
Definition parse (s : string) : option value :=
  let s0 := skip_space s in
  match parse_value (json_fuel s0) 0 s0 with
  | Some (v, rest) =>
      match skip_space rest with EmptyString => Some v | String _ _ => None end
  | None => None
  end.

(** ** The encoder *)

Definition hex_char (z : Z) : ascii := byte (if z <? 10 then 48 + z else 87 + z).

Definition backslash_u00 (z : Z) : string :=
  "\u00" +:+ String (hex_char (z / 16)) (String (hex_char (z mod 16)) EmptyString).

(** One ASCII byte of a string, HTML escaping on. *)
Definition escape_ascii (c : ascii) : string :=
  let z := code c in
  if (z =? 34) || (z =? 92) then String (byte 92) (String c EmptyString)
  else if z =? 8 then "\b"
  else if z =? 12 then "\f"
  else if z =? 10 then "\n"
  else if z =? 13 then "\r"
  else if z =? 9 then "\t"
  else if (z <? 32) || (z =? 60) || (z =? 62) || (z =? 38) then backslash_u00 z
  else String c EmptyString.

(** U+2028 and U+2029 are escaped for JavaScript. *)
Definition escape_rune (s : string) : string :=
  if bool_decide (s = encode_rune 8232) then "\u2028"
  else if bool_decide (s = encode_rune 8233) then "\u2029"
  else s.

Fixpoint escape (fuel : nat) (s : string) : string :=
  match fuel, s with
  | S fuel', String c s' =>
      match rune_size c s' with
      | O => "\ufffd" +:+ escape fuel' s'
      | S O => escape_ascii c +:+ escape fuel' s'
      | S n => escape_rune (String c (str_take n s')) +:+ escape fuel' (str_drop n s')
      end
  | _, _ => EmptyString
  end.

Definition quote (s : string) : string :=
  String (byte 34) (escape (String.length s) s +:+ String (byte 34) EmptyString).

Definition join (sep : string) (l : list string) : string := String.concat sep l.

Fixpoint print (v : value) : string :=
  match v with
  | VNull => "null"
  | VBool true => "true"
  | VBool false => "false"
  | VNumber lit => lit
  | VString s => quote s
  | VArray es => "[" +:+ join "," (map print es) +:+ "]"
  | VObject ms =>
      "{" +:+ join "," (map (fun p => quote (fst p) +:+ ":" +:+ print (snd p)) ms) +:+ "}"
  end.

(** The Go map an object decodes to, as the association list sorted by key that
    [Marshal] prints: a repeated key keeps its last value. *)
Fixpoint insert_member (k : string) (v : value) (l : list (string * value))
    : list (string * value) :=
  match l with
  | [] => [(k, v)]
  | (k', v') :: l' =>
      match String.compare k k' with
      | Eq => (k, v) :: l'
      | Lt => (k, v) :: l
      | Gt => (k', v') :: insert_member k v l'
      end
  end.

Fixpoint canon (v : value) : value :=
  match v with
  | VArray es => VArray (map canon es)
  | VObject ms =>
      VObject (fold_left (fun acc p => insert_member (fst p) (snd p) acc)
                 (map (fun p => (fst p, canon (snd p))) ms) [])
  | _ => v
  end.

(** [CanonicalParams] ([internal/action/action.go]). *)
Definition CanonicalParams (raw : string) : string :=
  match parse raw with
  | Some v => print (canon v)
  | None => raw
  end.

(** ** Lemmas: bytes and UTF-8 *)

Lemma code_range (c : ascii) : 0 <= code c < 256.
Proof. unfold code. pose proof (N_ascii_bounded c). lia. Qed.

Lemma code_byte (z : Z) : 0 <= z < 256 -> code (byte z) = z.
Proof. intros Hz. unfold code, byte. rewrite N_ascii_embedding by lia. lia. Qed.

Lemma byte_code (c : ascii) : byte (code c) = c.
Proof. unfold code, byte. by rewrite N2Z.id, ascii_N_embedding. Qed.

Lemma code_inj (a b : ascii) : code a = code b -> a = b.
Proof. intros H. by rewrite <- (byte_code a), H, byte_code. Qed.

Lemma str_app_assoc (a b c : string) : (a +:+ b) +:+ c = a +:+ (b +:+ c).
Proof. induction a; simpl; congruence. Qed.

Lemma str_app_nil (a : string) : a +:+ EmptyString = a.
Proof. induction a; simpl; congruence. Qed.

Lemma str_length_app (a b : string) :
  String.length (a +:+ b) = (String.length a + String.length b)%nat.
Proof. induction a; simpl; congruence. Qed.

Lemma str_take_drop (n : nat) (s : string) : str_take n s +:+ str_drop n s = s.
Proof. revert s. induction n; intros [|c s]; simpl; congruence. Qed.

Lemma str_take_app (a b : string) : str_take (String.length a) (a +:+ b) = a.
Proof. induction a; simpl; [by destruct b|]. congruence. Qed.

Lemma str_drop_app (a b : string) : str_drop (String.length a) (a +:+ b) = b.
Proof. induction a; simpl; [by destruct b|]. done. Qed.

(** One well-formed rune: its size is its length, whatever follows. *)
Definition rune (p : string) : Prop :=
  match p with
  | EmptyString => False
  | String c s => forall t, rune_size c (s +:+ t) = S (String.length s)
  end.

(** A well-formed UTF-8 string is a sequence of runes. *)
Inductive utf8 : string -> Prop :=
| utf8_nil : utf8 EmptyString
| utf8_rune p s : rune p -> utf8 s -> utf8 (p +:+ s).

Lemma rune_size_local (c : ascii) (s : string) (n : nat) :
  rune_size c s = S n -> String.length (str_take n s) = n /\ rune (String c (str_take n s)).
Proof.
  unfold rune, rune_size. destruct (code c <? RuneSelf); [by intros [= <-]|].
  destruct s as [|c1 s1]; [done|].
  destruct (utf8_2 (code c) (code c1)) eqn:E2; [intros [= <-]; simpl; by rewrite E2|].
  destruct s1 as [|c2 s2]; [done|].
  destruct (utf8_3 (code c) (code c1) (code c2)) eqn:E3;
    [intros [= <-]; simpl; by rewrite E2, E3|].
  destruct s2 as [|c3 s3]; [done|].
  destruct (utf8_4 _ _ _ _) eqn:E4; [|done]. intros [= <-]. simpl. by rewrite E2, E3, E4.
Qed.

Lemma utf8_app (a b : string) : utf8 a -> utf8 b -> utf8 (a +:+ b).
Proof.
  induction 1 as [|p s Hp _ IH]; intros Hb; simpl; [done|].
  rewrite str_app_assoc. constructor; auto.
Qed.

Lemma rune_utf8 (p : string) : rune p -> utf8 p.
Proof. intros. rewrite <- (str_app_nil p). constructor; [done|constructor]. Qed.

Lemma in_range_true (lo hi z : Z) : lo <= z <= hi -> in_range lo hi z = true.
Proof. intros. unfold in_range. rewrite andb_true_iff, !Z.leb_le. done. Qed.

Lemma in_range_iff (lo hi z : Z) : in_range lo hi z = true <-> lo <= z <= hi.
Proof. unfold in_range. rewrite andb_true_iff, !Z.leb_le. done. Qed.

Lemma in_range_false (lo hi z : Z) : z < lo \/ hi < z -> in_range lo hi z = false.
Proof. intros. unfold in_range. rewrite andb_false_iff, !Z.leb_gt. lia. Qed.

(** A code point [EncodeRune] may be given: not a surrogate. *)
Definition scalar (r : Z) : Prop := 0 <= r < 55296 \/ 57344 <= r < 1114112.

Lemma encode_rune_rune (r : Z) : scalar r -> rune (encode_rune r).
Proof.
  intros Hr. unfold encode_rune, scalar in *. unfold rune, rune_size, RuneSelf.
  assert (forall x, 0 <= x mod 64 < 64) as Hm by (intros; apply Z.mod_pos_bound; lia).
  pose proof (Hm r). pose proof (Hm (r / 64)). pose proof (Hm (r / 4096)).
  destruct (r <? 128) eqn:E1; bools.
  { intros t. rewrite code_byte by lia. by rewrite (proj2 (Z.ltb_lt _ _)). }
  destruct (r <? 2048) eqn:E2; bools.
  { assert (2 <= r / 64 < 32) by (split; [apply Z.div_le_lower_bound|apply Z.div_lt_upper_bound]; lia).
    intros t. simpl. rewrite !code_byte by lia. rewrite (proj2 (Z.ltb_ge _ _)) by lia.
    unfold utf8_2, continuation. rewrite !in_range_true by lia. done. }
  destruct (r <? 65536) eqn:E3; bools.
  { assert (0 <= r / 4096 < 16) by (split; [apply Z.div_pos|apply Z.div_lt_upper_bound]; lia).
    assert (r = 64 * (r / 64) + r mod 64) as D1 by (apply Z.div_mod; lia).
    assert (r / 64 = 64 * (r / 4096) + (r / 64) mod 64) as D2.
    { replace (r / 4096) with (r / 64 / 64) by (rewrite Z.div_div by lia; done).
      apply Z.div_mod; lia. }
    intros t. simpl. rewrite !code_byte by lia. rewrite (proj2 (Z.ltb_ge _ _)) by lia.
    unfold utf8_2. rewrite in_range_false by lia. simpl. unfold utf8_3, continuation.
    rewrite (in_range_true 128 191 (128 + r mod 64)) by lia. rewrite andb_true_r.
    match goal with |- (if ?b then _ else _) = _ => assert (b = true) as -> end; [|done].
    rewrite !orb_true_iff, !andb_true_iff, !orb_true_iff, !in_range_iff, !Z.eqb_eq. lia. }
  assert (0 <= r / 262144 < 5) by (split; [apply Z.div_pos|apply Z.div_lt_upper_bound]; lia).
  assert (r = 64 * (r / 64) + r mod 64) as D1 by (apply Z.div_mod; lia).
  assert (r / 64 = 64 * (r / 4096) + (r / 64) mod 64) as D2.
  { replace (r / 4096) with (r / 64 / 64) by (rewrite Z.div_div by lia; done).
    apply Z.div_mod; lia. }
  assert (r / 4096 = 64 * (r / 262144) + (r / 4096) mod 64) as D3.
  { replace (r / 262144) with (r / 4096 / 64) by (rewrite Z.div_div by lia; done).
    apply Z.div_mod; lia. }
  intros t. simpl. rewrite !code_byte by lia. rewrite (proj2 (Z.ltb_ge _ _)) by lia.
  unfold utf8_2. rewrite in_range_false by lia. simpl. unfold utf8_3.
  rewrite (proj2 (Z.eqb_neq (240 + r / 262144) 224)) by lia.
  rewrite (proj2 (Z.eqb_neq (240 + r / 262144) 237)) by lia.
  rewrite (in_range_false 225 236), (in_range_false 238 239) by lia. simpl.
  unfold utf8_4, continuation. rewrite (in_range_true 128 191 (128 + r mod 64)) by lia.
  rewrite (in_range_true 128 191 (128 + (r / 64) mod 64)) by lia. rewrite !andb_true_r.
  match goal with |- (if ?b then _ else _) = _ => assert (b = true) as -> end; [|done].
  rewrite !orb_true_iff, !andb_true_iff, !in_range_iff, !Z.eqb_eq. lia.
Qed.

Lemma replacement_rune : rune replacement.
Proof. apply encode_rune_rune. right. lia. Qed.

Lemma ascii_rune (c : ascii) : code c < 128 -> rune (String c EmptyString).
Proof. intros Hc t. unfold rune_size, RuneSelf. by rewrite (proj2 (Z.ltb_lt _ _)). Qed.

(** A string of ASCII bytes is well formed. *)
Fixpoint ascii_only (s : string) : bool :=
  match s with
  | EmptyString => true
  | String c s' => (code c <? 128) && ascii_only s'
  end.

Lemma ascii_only_utf8 (s : string) : ascii_only s = true -> utf8 s.
Proof.
  induction s as [|c s IH]; simpl; [constructor|]. intros [H1%Z.ltb_lt H2]%andb_true_iff.
  apply (utf8_rune (String c EmptyString) s); auto using ascii_rune.
Qed.

(** ** Lemmas: string literals *)

(** What one piece of a literal decodes to is a rune, and it is shorter. *)
Lemma hex_digit_range (c : ascii) (x : Z) : hex_digit c = Some x -> 0 <= x < 16.
Proof.
  unfold hex_digit. repeat (case_match; try done); intros [= <-];
    repeat match goal with H : in_range _ _ _ = true |- _ => apply in_range_iff in H end; lia.
Qed.

Lemma hex4_spec (s s' : string) (r : Z) :
  hex4 s = Some (r, s') -> 0 <= r < 65536 /\ (String.length s' < String.length s)%nat.
Proof.
  destruct s as [|a [|b [|c [|d s2]]]]; try done. simpl.
  repeat (case_match; [|done]). intros [= <- <-].
  repeat match goal with H : hex_digit _ = _ |- _ => apply hex_digit_range in H end. lia.
Qed.

Lemma unicode_escape_spec (s p s' : string) :
  unicode_escape s = Some (p, s') -> rune p /\ (String.length s' < String.length s)%nat.
Proof.
  unfold unicode_escape. destruct (hex4 s) as [[rr s1]|] eqn:E1; [|done].
  apply hex4_spec in E1 as [Hr Hl]. destruct (is_surrogate rr) eqn:Es.
  - assert (forall q, Some (replacement, s1) = Some (p, q) ->
      rune p /\ (String.length q < String.length s)%nat) as Hrep.
    { intros q [= <- <-]. split; [apply replacement_rune|done]. }
    destruct s1 as [|b [|u s2]]; [apply Hrep..|].
    destruct (if _ && _ then hex4 s2 else None) as [[rr1 s3]|] eqn:E2; [|apply Hrep].
    destruct (decode_pair rr rr1) as [r|] eqn:Ed; [|apply Hrep]. intros [= <- <-].
    destruct (_ && _); [|done]. apply hex4_spec in E2 as [? Hl3]. simpl in *. split; [|lia].
    unfold decode_pair in Ed. destruct (in_range _ _ rr && _) eqn:Eb; [|done].
    apply andb_true_iff in Eb as [?%in_range_iff ?%in_range_iff]. injection Ed as <-.
    apply encode_rune_rune. right. lia.
  - intros [= <- <-]. split; [|done]. apply encode_rune_rune.
    unfold is_surrogate in Es. unfold scalar.
    destruct (decide (55296 <= rr <= 57343)) as [Hin|Hout].
    + rewrite in_range_true in Es by done. done.
    + lia.
Qed.

Lemma simple_escape_rune (c c' : ascii) :
  simple_escape c = Some c' -> rune (String c' EmptyString).
Proof.
  intros H. apply ascii_rune. revert H. unfold simple_escape.
  repeat (case_match; [intros [= <-]; rewrite ?code_byte by lia;
    try lia; rewrite !orb_true_iff, !Z.eqb_eq in *; lia|]). done.
Qed.

Lemma str_drop_length (n : nat) (s : string) :
  (String.length (str_drop n s) <= String.length s)%nat.
Proof. revert s. induction n; intros [|c s]; simpl; try lia. specialize (IHn s). lia. Qed.

Lemma string_piece_spec (c : ascii) (s p s' : string) :
  string_piece c s = Some (Some (p, s')) ->
  rune p /\ (String.length s' <= String.length s)%nat.
Proof.
  unfold string_piece. destruct (code c =? 34); [done|]. destruct (code c =? 92).
  { destruct s as [|e s1]; [done|]. destruct (simple_escape e) as [c'|] eqn:Ee.
    - intros [= <- <-]. split; [by eapply simple_escape_rune|simpl; lia].
    - destruct (code e =? 117); [|done]. intros H. apply fmap_Some in H as ([q t] & H & [= -> ->]).
      apply unicode_escape_spec in H as [? ?]. simpl. split; [done|lia]. }
  destruct (code c <? 32); [done|]. destruct (rune_size c s) as [|n] eqn:En; intros [= <- <-].
  - split; [apply replacement_rune|done].
  - apply rune_size_local in En as [_ ?]. split; [done|apply str_drop_length].
Qed.

Lemma unquote_utf8 (fuel : nat) (s d s' : string) :
  unquote fuel s = Some (d, s') -> utf8 d.
Proof.
  revert s d s'. induction fuel as [|fuel IH]; intros [|c s] d s'; simpl; try done.
  destruct (string_piece c s) as [[[p s2]|]|] eqn:Ep; [|intros [= <- _]; constructor|done].
  destruct (unquote fuel s2) as [[d2 s3]|] eqn:Eu; [|done]. intros [= <- _].
  apply string_piece_spec in Ep as [? _]. constructor; eauto.
Qed.

(** The escape of one rune decodes back to that rune. *)
Definition escape_piece (p : string) : string :=
  match p with
  | EmptyString => EmptyString
  | String c EmptyString => escape_ascii c
  | _ => escape_rune p
  end.

Lemma escape_cons (fuel : nat) (p s : string) :
  rune p -> escape (S fuel) (p +:+ s) = escape_piece p +:+ escape fuel s.
Proof.
  intros Hp. destruct p as [|c q]; [done|]. simpl. rewrite (Hp s).
  rewrite str_take_app, str_drop_app. by destruct q as [|c2 q].
Qed.

(** What the decoder does with the escape of one rune. *)
Definition decodes_to (e p : string) : Prop :=
  match e with
  | EmptyString => False
  | String c s => forall t, string_piece c (s +:+ t) = Some (Some (p, t))
  end.

Lemma hex_char_digit (z : Z) : 0 <= z < 16 -> hex_digit (hex_char z) = Some z.
Proof.
  intros Hz. unfold hex_digit, hex_char. destruct (z <? 10) eqn:E; bools.
  - rewrite code_byte, in_range_true by lia. f_equal. lia.
  - rewrite code_byte, in_range_false, in_range_true by lia. f_equal. lia.
Qed.

Lemma backslash_u00_decodes (c : ascii) :
  code c < 128 -> decodes_to (backslash_u00 (code c)) (String c EmptyString).
Proof.
  intros Hc t. pose proof (code_range c). unfold backslash_u00. set (z := code c) in *.
  assert (0 <= z / 16 < 16) by (split; [apply Z.div_pos|apply Z.div_lt_upper_bound]; lia).
  assert (0 <= z mod 16 < 16) by (apply Z.mod_pos_bound; lia).
  change (Some <$> unicode_escape (String "0" (String "0" (String (hex_char (z / 16))
    (String (hex_char (z mod 16)) t)))) = Some (Some (String c EmptyString, t))).
  assert (hex4 (String "0" (String "0" (String (hex_char (z / 16))
    (String (hex_char (z mod 16)) t)))) = Some (z, t)) as Hh.
  { unfold hex4. rewrite !hex_char_digit by done. change (hex_digit "0") with (Some 0).
    cbv iota. do 2 f_equal. pose proof (Z.div_mod z 16). lia. }
  unfold unicode_escape. rewrite Hh. unfold is_surrogate. rewrite in_range_false by lia.
  unfold encode_rune. rewrite (proj2 (Z.ltb_lt _ _)) by lia. unfold z. by rewrite byte_code.
Qed.

Lemma backslash_decodes (e c : ascii) :
  simple_escape e = Some c -> decodes_to (String (byte 92) (String e EmptyString)) (String c EmptyString).
Proof. intros He t. simpl. unfold string_piece. rewrite code_byte by lia. simpl. by rewrite He. Qed.

Lemma escape_ascii_decodes (c : ascii) :
  code c < 128 -> decodes_to (escape_ascii c) (String c EmptyString).
Proof.
  intros Hc. unfold escape_ascii.
  assert (forall z, 0 <= z < 256 -> (code c =? z) = true -> c = byte z) as Hbyte.
  { intros z Hz Hq. apply code_inj. rewrite code_byte by done. by bools. }
  destruct ((code c =? 34) || (code c =? 92)) eqn:E0.
  { apply backslash_decodes. unfold simple_escape.
    apply orb_true_iff in E0 as [E0|E0]; rewrite E0; by rewrite ?orb_true_r. }
  repeat match goal with
  | |- context [if code c =? ?z then _ else _] =>
      destruct (code c =? z) eqn:?;
      [rewrite (Hbyte z) by (lia || done); apply backslash_decodes; reflexivity|]
  end.
  destruct (_ || _ || _ || _) eqn:E1; [by apply backslash_u00_decodes|].
  intros t. simpl. unfold string_piece. bools.
  rewrite (proj2 (Z.eqb_neq _ 34)), (proj2 (Z.eqb_neq _ 92)), (proj2 (Z.ltb_ge _ 32)) by lia.
  unfold rune_size, RuneSelf. by rewrite (proj2 (Z.ltb_lt _ 128)).
Qed.

Lemma long_rune_decodes (c c2 : ascii) (q : string) :
  rune (String c (String c2 q)) ->
  decodes_to (String c (String c2 q)) (String c (String c2 q)).
Proof.
  intros Hr t. assert (128 <= code c) as Hc.
  { specialize (Hr EmptyString). simpl in Hr. unfold rune_size, RuneSelf in Hr.
    destruct (code c <? 128) eqn:E; bools; [simpl in Hr; lia|done]. }
  specialize (Hr t). unfold string_piece.
  rewrite (proj2 (Z.eqb_neq _ 34)), (proj2 (Z.eqb_neq _ 92)), (proj2 (Z.ltb_ge _ 32)) by lia.
  rewrite Hr. by rewrite str_take_app, str_drop_app.
Qed.

Lemma escape_piece_decodes (p : string) : rune p -> decodes_to (escape_piece p) p.
Proof.
  intros Hp. destruct p as [|c [|c2 q]]; [done| |].
  - apply escape_ascii_decodes. specialize (Hp EmptyString). simpl in Hp.
    unfold rune_size, RuneSelf in Hp. destruct (code c <? 128) eqn:E; bools; [done|].
    simpl in Hp. done.
  - unfold escape_piece, escape_rune. case_bool_decide as E1; [by rewrite E1; vm_compute|].
    case_bool_decide as E2; [by rewrite E2; vm_compute|]. by apply long_rune_decodes.
Qed.

Lemma escape_fuel (s : string) (f : nat) : utf8 s -> (String.length s <= f)%nat ->
  escape f s = escape (String.length s) s.
Proof.
  intros Hs. revert f. remember (String.length s) as n eqn:Hn.
  revert s Hs Hn. induction n as [n IH] using lt_wf_ind. intros s Hs -> f Hf.
  destruct Hs as [|p s Hp Hs]; [by destruct f|].
  assert (0 < String.length p)%nat by (destruct p; simpl; [done|lia]).
  rewrite str_length_app in *. destruct f as [|f]; [lia|].
  destruct (String.length p + String.length s)%nat as [|m] eqn:Em; [lia|].
  rewrite !escape_cons by done. f_equal.
  rewrite (IH (String.length s)), (IH (String.length s) ltac:(lia) s Hs eq_refl m) by (done || lia).
  done.
Qed.

(** Quoting then decoding is the identity on well-formed strings. *)
Lemma unquote_escape (s rest : string) (f : nat) : utf8 s ->
  (String.length (escape (String.length s) s +:+ String (byte 34) rest) < f)%nat ->
  unquote f (escape (String.length s) s +:+ String (byte 34) rest) = Some (s, rest).
Proof.
  intros Hs. revert f. induction Hs as [|p s Hp Hs IH]; intros f.
  { destruct f; [simpl; lia|]. done. }
  assert (escape (String.length (p +:+ s)) (p +:+ s)
          = escape_piece p +:+ escape (String.length s) s) as ->.
  { rewrite str_length_app. assert (0 < String.length p)%nat by (destruct p; simpl; [done|lia]).
    destruct (String.length p + String.length s)%nat as [|m] eqn:Em; [lia|].
    rewrite escape_cons by done. by rewrite (escape_fuel s m) by (done || lia). }
  rewrite str_app_assoc. pose proof (escape_piece_decodes p Hp) as Hd.
  destruct (escape_piece p) as [|c e]; [done|]. destruct f as [|f]; [lia|]. simpl.
  rewrite (Hd _), str_length_app. intros Hf. by rewrite IH by lia.
Qed.

(** ** Lemmas: number literals *)

(** The first byte of [s], if any, satisfies [P]. *)
Definition first_is (P : ascii -> bool) (s : string) : Prop :=
  match s with EmptyString => True | String c _ => P c = true end.

(** A byte that cannot continue a number. *)
Definition stops_number (c : ascii) : bool :=
  negb (is_digit c || (code c =? 46) || (code c =? 101) || (code c =? 69)).

Definition no_digit (c : ascii) : bool := negb (is_digit c).

Lemma first_is_impl (P Q : ascii -> bool) (s : string) :
  (forall c, P c = true -> Q c = true) -> first_is P s -> first_is Q s.
Proof. destruct s; simpl; auto. Qed.

Lemma stops_no_digit (c : ascii) : stops_number c = true -> no_digit c = true.
Proof. unfold stops_number, no_digit. destruct (is_digit c); done. Qed.

Lemma span_digits_local (s d r : string) :
  span_digits s = (d, r) ->
  s = d +:+ r /\ forall t, first_is no_digit t -> span_digits (d +:+ t) = (d, t).
Proof.
  revert d r. induction s as [|c s IH]; simpl; intros d r.
  - intros [= <- <-]. split; [done|]. intros [|c t] Ht; [done|]. simpl in *.
    unfold no_digit in Ht. by destruct (is_digit c).
  - destruct (is_digit c) eqn:Ec.
    + destruct (span_digits s) as [d0 r0] eqn:E. intros [= <- <-].
      destruct (IH _ _ eq_refl) as [-> IH2]. split; [done|]. intros t Ht. simpl.
      by rewrite Ec, IH2.
    + intros [= <- <-]. split; [done|]. intros [|c' t] Ht; [done|]. simpl in *.
      unfold no_digit in Ht. by destruct (is_digit c').
Qed.

Lemma lex_int_local (s d r : string) :
  lex_int s = Some (d, r) ->
  s = d +:+ r /\ d <> EmptyString
  /\ forall t, first_is no_digit t -> lex_int (d +:+ t) = Some (d, t).
Proof.
  destruct s as [|c s]; simpl; [done|]. destruct (code c =? 48) eqn:E0.
  { intros [= <- <-]. split_and!; [done|done|]. intros t _. simpl. by rewrite E0. }
  destruct (is_digit c) eqn:Ed; [|done].
  destruct (span_digits s) as [d0 r0] eqn:E. intros [= <- <-].
  apply span_digits_local in E as [-> Hl]. split_and!; [done|done|].
  intros t Ht. simpl. by rewrite E0, Ed, Hl.
Qed.

Lemma lex_digits1_local (s d r : string) :
  lex_digits1 s = Some (d, r) ->
  s = d +:+ r /\ first_is is_digit d /\ d <> EmptyString
  /\ forall t, first_is no_digit t -> lex_digits1 (d +:+ t) = Some (d, t).
Proof.
  unfold lex_digits1. destruct (span_digits s) as [d0 r0] eqn:E.
  destruct d0 as [|c d0]; [done|]. intros [= <- <-].
  destruct (span_digits_local _ _ _ E) as [-> Hl]. split_and!; [done| |done|].
  - simpl in *. by destruct (is_digit c).
  - intros t Ht. by rewrite Hl.
Qed.

(** The optional fraction starts with a point, the exponent with an [e]. *)
Lemma lex_frac_local (s d r : string) :
  lex_frac s = Some (d, r) ->
  s = d +:+ r /\ first_is (fun c => code c =? 46) d
  /\ forall t, first_is (fun c => no_digit c && negb (code c =? 46)) t ->
     lex_frac (d +:+ t) = Some (d, t).
Proof.
  assert (forall t, first_is (fun c => no_digit c && negb (code c =? 46)) t ->
    lex_frac t = Some (EmptyString, t)) as Hnone.
  { intros [|c t] Ht; [done|]. simpl in *. destruct (code c =? 46); [|done].
    by rewrite andb_false_r in Ht. }
  destruct s as [|c s]; simpl; [intros [= <- <-]; by split_and!|].
  destruct (code c =? 46) eqn:Ec; [|intros [= <- <-]; by split_and!].
  destruct (lex_digits1 s) as [[d0 r0]|] eqn:E; [|done]. intros [= <- <-].
  apply lex_digits1_local in E as (-> & _ & _ & Hl). split_and!; [done|done|].
  intros t Ht. simpl. rewrite Ec, Hl; [done|].
  eapply first_is_impl; [|exact Ht]. intros c'. rewrite andb_true_iff. tauto.
Qed.

Lemma lex_exp_local (s d r : string) :
  lex_exp s = Some (d, r) ->
  s = d +:+ r /\ first_is (fun c => (code c =? 101) || (code c =? 69)) d
  /\ forall t, first_is stops_number t -> lex_exp (d +:+ t) = Some (d, t).
Proof.
  assert (forall t, first_is stops_number t -> lex_exp t = Some (EmptyString, t)) as Hnone.
  { intros [|c t] Ht; [done|]. simpl in *. unfold stops_number in Ht.
    destruct (code c =? 101), (code c =? 69); simpl in *; try done;
      by rewrite ?orb_true_r in Ht. }
  destruct s as [|c s]; simpl; [intros [= <- <-]; by split_and!|].
  destruct (_ || _) eqn:Ec; [|intros [= <- <-]; by split_and!].
  destruct (lex_sign s) as [sg s1] eqn:Es.
  destruct (lex_digits1 s1) as [[d0 r0]|] eqn:E; [|done]. intros [= <- <-].
  apply lex_digits1_local in E as (-> & Hdig & Hne & Hl).
  assert (s = sg +:+ d0 +:+ r0 /\ forall t, lex_sign (sg +:+ d0 +:+ t) = (sg, d0 +:+ t))
    as [-> Hsg].
  { destruct s as [|c1 s]; simpl in Es.
    - injection Es as <- Hd. by destruct d0.
    - destruct ((code c1 =? 43) || (code c1 =? 45)) eqn:E1; injection Es as <- Hd.
      + rewrite Hd. split; [done|]. intros t. simpl. by rewrite E1.
      + split; [done|]. intros t. simpl. destruct d0 as [|c2 d0]; [done|]. simpl.
        injection Hd as -> _. by rewrite E1. }
  split_and!; [by simpl; rewrite str_app_assoc|done|].
  intros t Ht. simpl. rewrite Ec, str_app_assoc, Hsg, Hl; [done|].
  eapply first_is_impl; [apply stops_no_digit|done].
Qed.

Lemma first_is_app (P : ascii -> bool) (a b : string) :
  first_is P a -> first_is P b -> first_is P (a +:+ b).
Proof. by destruct a. Qed.

Lemma lex_number_local (s lit r : string) :
  lex_number s = Some (lit, r) ->
  lit <> EmptyString /\ forall t, first_is stops_number t -> lex_number (lit +:+ t) = Some (lit, t).
Proof.
  unfold lex_number.
  destruct (match s with EmptyString => _ | String c s' => _ end) as [sg s0] eqn:Es.
  destruct (lex_int s0) as [[i s1]|] eqn:Ei; [|done].
  destruct (lex_frac s1) as [[f s2]|] eqn:Ef; [|done].
  destruct (lex_exp s2) as [[e s3]|] eqn:Ee; [|done]. intros [= <- <-].
  apply lex_int_local in Ei as (-> & Hi & Li). apply lex_frac_local in Ef as (-> & Hf & Lf).
  apply lex_exp_local in Ee as (-> & He & Le).
  split; [by destruct sg, i|]. intros t Ht. rewrite !str_app_assoc.
  assert (forall t', match sg +:+ i +:+ t' with
    | EmptyString => (EmptyString, EmptyString)
    | String c s' => if code c =? 45 then (String c EmptyString, s')
                     else (EmptyString, sg +:+ i +:+ t')
    end = (sg, i +:+ t')) as Hsg.
  { intros t'. destruct i as [|ci i]; [done|]. destruct s as [|c s]; [discriminate Es|].
    destruct (code c =? 45) eqn:E; simplify_eq/=; by rewrite E. }
  rewrite Hsg.
  assert (first_is stops_number t -> first_is (fun c => no_digit c && negb (code c =? 46)) t) as Ht'.
  { apply first_is_impl. intros c. unfold stops_number, no_digit.
    destruct (is_digit c), (code c =? 46); done. }
  assert (forall c, (code c =? 101) || (code c =? 69) = true ->
    no_digit c && negb (code c =? 46) = true) as Hexp.
  { intros c. rewrite orb_true_iff, !Z.eqb_eq. unfold no_digit, is_digit.
    intros Hc. rewrite in_range_false by lia. rewrite (proj2 (Z.eqb_neq (code c) 46)) by lia. done. }
  rewrite Li.
  - rewrite Lf, Le; [done|done|]. apply first_is_app; [|auto].
    eapply first_is_impl; [|exact He]. apply Hexp.
  - apply first_is_app; [|apply first_is_app].
    + eapply first_is_impl; [|exact Hf]. intros c Hc. simpl in Hc. bools. unfold no_digit, is_digit.
      by rewrite in_range_false by lia.
    + eapply first_is_impl; [|exact He]. intros c Hc%Hexp. by apply andb_true_iff in Hc as [? _].
    + eapply first_is_impl; [apply stops_no_digit|done].
Qed.

(** A literal of the JSON grammar. *)
Definition number_literal (lit : string) : Prop :=
  lex_number lit = Some (lit, EmptyString).

Lemma lex_number_literal (s lit r : string) :
  lex_number s = Some (lit, r) -> number_literal lit.
Proof.
  intros [_ H]%lex_number_local. specialize (H EmptyString I). by rewrite str_app_nil in H.
Qed.

(** A literal starts with a minus sign or a digit. *)
Lemma number_first (c : ascii) (s : string) :
  number_literal (String c s) -> code c = 45 \/ is_digit c = true.
Proof.
  unfold number_literal, lex_number. destruct (code c =? 45) eqn:E; bools; [by left|].
  intros H. right. simpl in H. destruct (code c =? 48) eqn:E0; bools.
  - unfold is_digit. rewrite in_range_true by lia. done.
  - by destruct (is_digit c).
Qed.

(** ** Lemmas: values *)

Section ValueInd.
Context (P : value -> Prop).
Hypothesis Hnull : P VNull.
Hypothesis Hbool : forall b, P (VBool b).
Hypothesis Hnumber : forall l, P (VNumber l).
Hypothesis Hstring : forall s, P (VString s).
Hypothesis Harray : forall es, Forall P es -> P (VArray es).
Hypothesis Hobject : forall ms, Forall (fun p => P (snd p)) ms -> P (VObject ms).

Fixpoint value_nested_ind (v : value) : P v :=
  match v with
  | VNull => Hnull
  | VBool b => Hbool b
  | VNumber l => Hnumber l
  | VString s => Hstring s
  | VArray es =>
      Harray es ((fix all (l : list value) : Forall P l :=
        match l with
        | [] => Forall_nil_2 P
        | x :: l' => Forall_cons_2 P x l' (value_nested_ind x) (all l')
        end) es)
  | VObject ms =>
      Hobject ms ((fix all (l : list (string * value)) : Forall (fun p => P (snd p)) l :=
        match l with
        | [] => Forall_nil_2 _
        | x :: l' => Forall_cons_2 _ x l' (value_nested_ind (snd x)) (all l')
        end) ms)
  end.

End ValueInd.

(** What the decoder can produce with [d] brackets open: well-formed strings,
    literals of the grammar, bounded nesting. *)
Inductive wf : Z -> value -> Prop :=
| wf_null d : wf d VNull
| wf_bool d b : wf d (VBool b)
| wf_number d l : number_literal l -> wf d (VNumber l)
| wf_string d s : utf8 s -> wf d (VString s)
| wf_array d es : d + 1 <= maxNestingDepth -> Forall (wf (d + 1)) es -> wf d (VArray es)
| wf_object d ms : d + 1 <= maxNestingDepth ->
    Forall (fun p => utf8 (fst p) /\ wf (d + 1) (snd p)) ms -> wf d (VObject ms).

Lemma parse_wf (f : nat) :
  (forall d s v t, parse_value f d s = Some (v, t) -> wf d v)
  /\ (forall d s ms t, parse_members f d s = Some (ms, t) ->
        Forall (fun p => utf8 (fst p) /\ wf d (snd p)) ms)
  /\ (forall d s es t, parse_elements f d s = Some (es, t) -> Forall (wf d) es).
Proof.
  induction f as [|f (IHv & IHm & IHe)]; [by split_and!|]. split_and!.
  - intros d [|c s] v t; cbn [parse_value]; [done|].
    destruct (code c =? 123).
    { destruct (maxNestingDepth <? d + 1) eqn:Ed; [done|]. bools.
      destruct (skip_space s) as [|c2 s2]; [done|].
      destruct (code c2 =? 125); [intros [= <- _]; by constructor|].
      destruct (parse_members _ _ _) as [[ms s3]|] eqn:E; [|done]. intros [= <- _].
      constructor; eauto. }
    destruct (code c =? 91).
    { destruct (maxNestingDepth <? d + 1) eqn:Ed; [done|]. bools.
      destruct (skip_space s) as [|c2 s2]; [done|].
      destruct (code c2 =? 93); [intros [= <- _]; by constructor|].
      destruct (parse_elements _ _ _) as [[es s3]|] eqn:E; [|done]. intros [= <- _].
      constructor; eauto. }
    destruct (code c =? 34).
    { destruct (unquote _ s) as [[str s2]|] eqn:E; [|done]. intros [= <- _].
      constructor. by eapply unquote_utf8. }
    repeat (match goal with
      | |- context [if ?b then match strip_prefix ?p s with _ => _ end else _] =>
          destruct b; [destruct (strip_prefix p s); [intros [= <- _]; constructor|done]|]
      end).
    destruct (lex_number _) as [[lit s2]|] eqn:E; [|done]. intros [= <- _].
    constructor. by eapply lex_number_literal.
  - intros d [|q s] ms t; cbn [parse_members]; [done|]. destruct (code q =? 34); [|done].
    destruct (unquote _ s) as [[key s2]|] eqn:Ek; [|done].
    assert (utf8 key) by (by eapply unquote_utf8).
    destruct (skip_space s2) as [|colon s3]; [done|]. destruct (code colon =? 58); [|done].
    destruct (parse_value f d _) as [[v s4]|] eqn:Ev; [|done].
    destruct (skip_space s4) as [|sep s5]; [done|].
    destruct (code sep =? 125); [intros [= <- _]; repeat constructor; simpl; eauto|].
    destruct (code sep =? 44); [|done].
    destruct (parse_members f d _) as [[ms' s6]|] eqn:Em; [|done]. intros [= <- _].
    constructor; simpl; eauto.
  - intros d s es t; cbn [parse_elements]. destruct (parse_value f d s) as [[v s1]|] eqn:Ev; [|done].
    destruct (skip_space s1) as [|sep s2]; [done|].
    destruct (code sep =? 93); [intros [= <- _]; repeat constructor; eauto|].
    destruct (code sep =? 44); [|done].
    destruct (parse_elements f d _) as [[es' s3]|] eqn:Em; [|done]. intros [= <- _].
    constructor; eauto.
Qed.

Lemma skip_space_first (s : string) :
  first_is (fun c => negb (is_space c)) s -> skip_space s = s.
Proof. destruct s as [|c s]; simpl; [done|]. by destruct (is_space c). Qed.

(** How the text of a value starts. *)
Definition value_first (c : ascii) : bool :=
  negb (is_space c) && negb (code c =? 93) && negb (code c =? 125).

Lemma print_first (d : Z) (v : value) : wf d v ->
  exists c s, print v = String c s /\ value_first c = true.
Proof.
  destruct 1 as [d|d [|]|d l Hl|d s Hs|d es|d ms]; try by (eexists _, _; split; [reflexivity|]).
  destruct l as [|c l]; [done|]. exists c, l. split; [done|].
  apply number_first in Hl. unfold is_digit in Hl. rewrite in_range_iff in Hl.
  unfold value_first, is_space. rewrite !andb_true_iff, !negb_true_iff, !orb_false_iff, !Z.eqb_neq.
  lia.
Qed.

(** What may follow a value inside a text: nothing, a comma or a bracket. *)
Definition ends_value (s : string) : Prop := first_is stops_number s.

(** The side conditions of a reparse: what follows, and the fuel. *)
Ltac json_side := first [done | exact eq_refl | lia].

Definition reparses (v : value) : Prop :=
  forall d t f, wf d v -> ends_value t ->
  (2 * String.length (print v +:+ t) + 1 <= f)%nat ->
  parse_value f d (print v +:+ t) = Some (v, t).

Definition member_text (p : string * value) : string :=
  quote (fst p) +:+ ":" +:+ print (snd p).

Lemma join_cons (sep a b : string) (l : list string) :
  join sep (a :: b :: l) = a +:+ sep +:+ join sep (b :: l).
Proof. done. Qed.

Lemma print_skip (d : Z) (v : value) (t : string) :
  wf d v -> skip_space (print v +:+ t) = print v +:+ t.
Proof.
  intros Hv. destruct (print_first d v Hv) as (c & s & -> & Hc). simpl.
  unfold value_first in Hc. by destruct (is_space c).
Qed.

Lemma reparse_elements (d : Z) (es : list value) (t : string) (f : nat) :
  es <> [] -> Forall reparses es -> Forall (wf d) es ->
  (2 * String.length (join "," (map print es) +:+ String "]" t) + 2 <= f)%nat ->
  parse_elements f d (join "," (map print es) +:+ String "]" t) = Some (es, t).
Proof.
  revert f. induction es as [|v es IH]; intros f Hne HP Hwf; [done|].
  apply Forall_cons in HP as [Hv HP]. apply Forall_cons in Hwf as [Hwv Hwf].
  destruct f as [|f]; [lia|]. cbn [parse_elements]. destruct es as [|v2 es].
  - cbn [map join String.concat]. intros Hf. rewrite Hv by json_side. done.
  - change (map print (v :: v2 :: es)) with (print v :: print v2 :: map print es).
    rewrite join_cons, !str_app_assoc. intros Hf.
    rewrite Hv by json_side. rewrite str_length_app in Hf. cbn [String.length String.append] in Hf.
    change (skip_space ("," +:+ join "," (print v2 :: map print es) +:+ String "]" t))
      with (String "," (join "," (print v2 :: map print es) +:+ String "]" t)).
    cbn iota beta. change (code "," =? 93) with false. change (code "," =? 44) with true.
    cbn iota. apply Forall_cons in Hwf as Hw2. destruct Hw2 as [Hw2 _].
    assert (skip_space (join "," (print v2 :: map print es) +:+ String "]" t)
            = join "," (map print (v2 :: es)) +:+ String "]" t) as ->.
    { destruct es as [|v3 es]; [by apply (print_skip d)|].
      cbn [map]. rewrite join_cons, str_app_assoc. by apply (print_skip d). }
    rewrite IH; [done..|]. cbn [map]. lia.
Qed.

Lemma quote_first (s t : string) : quote s +:+ t =
  String (byte 34) (escape (String.length s) s +:+ String (byte 34) t).
Proof. unfold quote. simpl. by rewrite str_app_assoc. Qed.

Lemma reparse_members (d : Z) (ms : list (string * value)) (t : string) (f : nat) :
  ms <> [] -> Forall (fun p => reparses (snd p)) ms ->
  Forall (fun p => utf8 (fst p) /\ wf d (snd p)) ms ->
  (2 * String.length (join "," (map member_text ms) +:+ String "}" t) + 2 <= f)%nat ->
  parse_members f d (join "," (map member_text ms) +:+ String "}" t) = Some (ms, t).
Proof.
  revert f. induction ms as [|[k v] ms IH]; intros f Hne HP Hwf; [done|].
  apply Forall_cons in HP as [Hv HP]. apply Forall_cons in Hwf as [[Hk Hwv] Hwf].
  cbn [fst snd] in *. destruct f as [|f]; [lia|].
  assert (exists sep rest, first_is stops_number (String sep rest) /\ is_space sep = false
    /\ join "," (map member_text ((k, v) :: ms)) +:+ String "}" t
       = member_text (k, v) +:+ String sep rest
    /\ (ms = [] /\ sep = "}"%char /\ rest = t
        \/ ms <> [] /\ sep = ","%char /\ rest = join "," (map member_text ms) +:+ String "}" t))
    as (sep & rest & Hstop & Hsp & -> & Hcase).
  { destruct ms as [|p2 ms].
    - exists "}"%char, t. split_and!; [done|done|done|]. by left.
    - exists ","%char, (join "," (map member_text (p2 :: ms)) +:+ String "}" t).
      split_and!; [done|done| |by right].
      change (map member_text ((k, v) :: p2 :: ms))
        with (member_text (k, v) :: member_text p2 :: map member_text ms).
      by rewrite join_cons, !str_app_assoc. }
  unfold member_text. cbn [fst snd]. rewrite str_app_assoc, quote_first.
  set (body := escape (String.length k) k +:+ String (byte 34)
                 ((":" +:+ print v) +:+ String sep rest)).
  intros Hf. cbn [parse_members]. change (code (byte 34) =? 34) with true. cbn iota.
  unfold body at 2. rewrite unquote_escape by (done || (unfold body; lia)).
  change ((":" +:+ print v) +:+ String sep rest) with (String ":" (print v +:+ String sep rest)).
  cbn [skip_space]. change (is_space ":") with false. cbn iota.
  change (code ":" =? 58) with true. cbn iota.
  assert (String.length (print v +:+ String sep rest) + 3 <= String.length (String (byte 34) body))%nat
    as Hlen.
  { unfold body. cbn [String.length]. rewrite !str_length_app. cbn [String.length].
    rewrite !str_length_app. cbn [String.length]. lia. }
  rewrite (print_skip d) by done. rewrite Hv by json_side.
  cbn [skip_space]. rewrite Hsp.
  destruct Hcase as [(-> & -> & ->)|(Hms & -> & ->)].
  - change (code "}" =? 125) with true. done.
  - change (code "," =? 125) with false. change (code "," =? 44) with true. cbn iota.
    rewrite str_length_app in Hlen. cbn [String.length] in Hlen, Hf.
    assert (skip_space (join "," (map member_text ms) +:+ String "}" t)
            = join "," (map member_text ms) +:+ String "}" t) as ->.
    { destruct ms as [|[k2 v2] [|p3 ms]]; [done|reflexivity|reflexivity]. }
    rewrite IH; [done..|]. lia.
Qed.

Lemma print_reparses (v : value) : reparses v.
Proof.
  induction v as [|b|l|s|es IH|ms IH] using value_nested_ind;
    intros d t f Hwf Ht; (destruct f as [|f]; [lia|]); intros Hf.
  - done.
  - by destruct b.
  - inversion Hwf; subst. cbn [print] in *. destruct l as [|c l]; [done|].
    pose proof (number_first _ _ H1) as Hc.
    assert (forall z, z <> 45 -> z < 48 \/ 57 < z -> code c =? z = false) as Hz.
    { intros z ? ?. apply Z.eqb_neq. unfold is_digit in Hc. rewrite in_range_iff in Hc. lia. }
    apply lex_number_local in H1 as [_ Hl]. specialize (Hl t Ht).
    change ((String c l +:+ t)) with (String c (l +:+ t)) in *.
    cbn [parse_value]. rewrite !Hz by lia. by rewrite Hl.
  - inversion Hwf; subst. cbn [print] in *. rewrite quote_first in *.
    cbn [parse_value]. change (code (byte 34) =? 123) with false.
    change (code (byte 34) =? 91) with false. change (code (byte 34) =? 34) with true.
    cbn iota. rewrite unquote_escape by json_side. done.
  - inversion Hwf as [| | | |? ? Hd Hes|]; subst. cbn [print] in *.
    destruct es as [|v es].
    { change (map print []) with (@nil string). cbn [parse_value].
      change (parse_value (S f) d (String "[" (String "]" t)) = Some (VArray [], t)).
      cbn [parse_value]. change (code "[" =? 123) with false. change (code "[" =? 91) with true.
      cbn iota. rewrite (proj2 (Z.ltb_ge _ _)) by done. done. }
    rewrite !str_app_assoc in *.
    change ("[" +:+ join "," (map print (v :: es)) +:+ "]" +:+ t)
      with (String "[" (join "," (map print (v :: es)) +:+ String "]" t)) in *.
    cbn [parse_value]. change (code "[" =? 123) with false. change (code "[" =? 91) with true.
    cbn iota. rewrite (proj2 (Z.ltb_ge _ _)) by done.
    assert (exists c s, join "," (map print (v :: es)) +:+ String "]" t = String c s
      /\ value_first c = true) as (c & s & Hcs & Hc).
    { apply Forall_cons in Hes as [Hv _]. destruct (print_first _ _ Hv) as (c & s & He & Hc).
      exists c. cbn [map]. destruct es as [|v2 es]; cbn [map].
      - exists (s +:+ String "]" t). split; [|done]. cbn [join String.concat]. by rewrite He.
      - rewrite join_cons, He. eexists. split; [reflexivity|done]. }
    pose proof (reparse_elements (d + 1) (v :: es) t f ltac:(done) IH Hes) as He.
    rewrite Hcs in *. unfold value_first in Hc.
    cbn [skip_space]. destruct (is_space c); [done|]. destruct (code c =? 93); [done|].
    rewrite He; [done|]. cbn [String.length] in *. lia.
  - inversion Hwf as [| | | | |? ? Hd Hms]; subst. cbn [print] in *.
    fold member_text in *. destruct ms as [|p ms].
    { change (parse_value (S f) d (String "{" (String "}" t)) = Some (VObject [], t)).
      cbn [parse_value]. change (code "{" =? 123) with true.
      cbn iota. rewrite (proj2 (Z.ltb_ge _ _)) by done. done. }
    rewrite !str_app_assoc in *.
    change ("{" +:+ join "," (map member_text (p :: ms)) +:+ "}" +:+ t)
      with (String "{" (join "," (map member_text (p :: ms)) +:+ String "}" t)) in *.
    cbn [parse_value]. change (code "{" =? 123) with true. cbn iota.
    rewrite (proj2 (Z.ltb_ge _ _)) by done.
    assert (exists s, join "," (map member_text (p :: ms)) +:+ String "}" t
      = String (byte 34) s) as (s & Hcs).
    { destruct p as [k v], ms as [|p2 ms]; eexists; reflexivity. }
    pose proof (reparse_members (d + 1) (p :: ms) t f ltac:(done) IH Hms) as He.
    rewrite Hcs in *. cbn [skip_space]. change (is_space (byte 34)) with false. cbn iota.
    change (code (byte 34) =? 125) with false. cbn iota.
    rewrite He; [done|]. cbn [String.length] in *. lia.
Qed.

(** ** Lemmas: the canonical order of members *)

Definition key_lt (a b : string) : Prop := String.compare a b = Lt.

Lemma key_lt_trans (a b c : string) : key_lt a b -> key_lt b c -> key_lt a c.
Proof.
  unfold key_lt. intros Hab Hbc.
  assert (String.le a c) as Hac.
  { transitivity b; unfold String.le, String.leb; by rewrite ?Hab, ?Hbc. }
  unfold String.le, String.leb in Hac. destruct (String.compare a c) eqn:E; [|done..].
  apply String.compare_eq_iff in E as ->. rewrite String.compare_antisym, Hbc in Hab. done.
Qed.

Lemma key_gt_lt (a b : string) : String.compare a b = Gt -> key_lt b a.
Proof. intros H. unfold key_lt. by rewrite String.compare_antisym, H. Qed.

Definition sorted (l : list (string * value)) : Prop :=
  StronglySorted (fun p q => key_lt (fst p) (fst q)) l.

Lemma insert_member_elem (k : string) (v : value) l p :
  p ∈ insert_member k v l -> p = (k, v) \/ p ∈ l.
Proof.
  induction l as [|[k' v'] l IH]; simpl; [set_solver|].
  destruct (String.compare k k'); set_solver.
Qed.

Lemma insert_member_Forall (P : string * value -> Prop) k v l :
  P (k, v) -> Forall P l -> Forall P (insert_member k v l).
Proof.
  rewrite !Forall_forall. intros Hk Hl p Hp.
  apply insert_member_elem in Hp as [->|Hp]; auto.
Qed.

Lemma insert_member_sorted k v l : sorted l -> sorted (insert_member k v l).
Proof.
  unfold sorted. induction l as [|[k' v'] l IH]; intros Hs; simpl; [repeat constructor|].
  apply StronglySorted_inv in Hs as [Hs Hall]. destruct (String.compare k k') eqn:E.
  - apply String.compare_eq_iff in E as ->. by constructor.
  - constructor; [by constructor|]. constructor; [done|].
    eapply Forall_impl; [exact Hall|]. intros q Hq. simpl in *. by eapply key_lt_trans.
  - constructor; [by apply IH|]. apply insert_member_Forall; [|done].
    simpl. by apply key_gt_lt.
Qed.

(** Building the map of a member list. *)
Definition build (ms acc : list (string * value)) : list (string * value) :=
  fold_left (fun acc p => insert_member (fst p) (snd p) acc) ms acc.

Lemma build_sorted ms acc : sorted acc -> sorted (build ms acc).
Proof. revert acc. induction ms; simpl; auto using insert_member_sorted. Qed.

Lemma build_Forall (P : string * value -> Prop) ms acc :
  Forall P ms -> Forall P acc -> Forall P (build ms acc).
Proof.
  intros Hms. revert acc. induction Hms as [|[k v] ms Hp _ IH]; simpl; [done|].
  auto using insert_member_Forall.
Qed.

(** Inserting a key beyond the last one appends it. *)
Lemma insert_member_last k v l :
  Forall (fun p => key_lt (fst p) k) l -> insert_member k v l = l ++ [(k, v)].
Proof.
  induction 1 as [|[k' v'] l Hlt _ IH]; simpl; [done|].
  assert (String.compare k k' = Gt) as ->.
  { rewrite String.compare_antisym. simpl in Hlt. unfold key_lt in Hlt. by rewrite Hlt. }
  by rewrite IH.
Qed.

Lemma build_id ms acc :
  sorted (acc ++ ms) -> build ms acc = acc ++ ms.
Proof.
  revert acc. induction ms as [|[k v] ms IH]; intros acc Hs; simpl; [by rewrite app_nil_r|].
  assert (Forall (fun p => key_lt (fst p) k) acc) as Hlast.
  { apply Forall_forall. intros p Hp.
    exact (StronglySorted_app_1_elem_of _ acc ((k, v) :: ms) p (k, v) Hs Hp ltac:(by left)). }
  rewrite insert_member_last by done. rewrite IH.
  - by rewrite <- app_assoc.
  - by rewrite <- app_assoc.
Qed.

Lemma canon_wf (v : value) : forall d, wf d v -> wf d (canon v).
Proof.
  induction v as [|b|l|s|es IH|ms IH] using value_nested_ind; intros d Hwf; try done.
  - inversion Hwf as [| | | |? ? Hd Hes|]; subst. simpl. constructor; [done|].
    clear Hwf. induction Hes; simpl; constructor; inversion IH; subst; auto.
  - inversion Hwf as [| | | | |? ? Hd Hms]; subst. simpl. constructor; [done|].
    apply (build_Forall (fun p => utf8 p.1 /\ wf (d + 1) p.2)); [|constructor].
    clear Hwf. induction Hms as [|[k v] ms [? ?] _ IHm]; simpl; constructor;
      inversion IH; subst; simpl in *; auto.
Qed.

Lemma canon_canon (v : value) : canon (canon v) = canon v.
Proof.
  induction v as [|b|l|s|es IH|ms IH] using value_nested_ind; try done.
  - simpl. f_equal. induction IH; simpl; congruence.
  - simpl. fold (build (map (fun p => (p.1, canon p.2)) ms) []).
    set (R := build _ _). f_equal. fold (build (map (fun p => (p.1, canon p.2)) R) []).
    assert (map (fun p => (p.1, canon p.2)) R = R) as ->.
    { assert (Forall (fun p => canon p.2 = p.2) R) as HR.
      { apply build_Forall; [|constructor]. induction IH; simpl; constructor; auto. }
      induction HR as [|[k v] l Hv _ IHl]; simpl in *; congruence. }
    apply (build_id R []). apply build_sorted. constructor.
Qed.

Lemma parse_print (v : value) : wf 0 v -> parse (print v) = Some v.
Proof.
  intros Hv. unfold parse.
  assert (skip_space (print v) = print v) as ->.
  { pose proof (print_skip 0 v EmptyString Hv). by rewrite str_app_nil in H. }
  pose proof (print_reparses v 0 EmptyString (json_fuel (print v)) Hv I) as H.
  rewrite str_app_nil in H. rewrite H; [done|]. unfold json_fuel. lia.
Qed.

Lemma parse_value_wf (raw : string) (v : value) : parse raw = Some v -> wf 0 v.
Proof.
  unfold parse. destruct (parse_value _ _ _) as [[v' rest]|] eqn:E; [|done].
  destruct (skip_space rest); [|done]. intros [= <-]. by eapply parse_wf.
Qed.

Lemma CanonicalParams_parse (raw : string) (v : value) :
  parse raw = Some v ->
  CanonicalParams raw = print (canon v) /\ parse (CanonicalParams raw) = Some (canon v).
Proof.
  intros Hp. unfold CanonicalParams. rewrite Hp. split; [done|].
  apply parse_print, canon_wf. by eapply parse_value_wf.
Qed.

(** With distinct keys the map holds exactly the members. *)
Lemma insert_member_perm k v l :
  k ∉ l.*1 -> insert_member k v l ≡ₚ (k, v) :: l.
Proof.
  induction l as [|[k' v'] l IH]; intros Hk; simpl; [done|].
  rewrite fmap_cons, not_elem_of_cons in Hk. destruct Hk as [Hne Hk].
  destruct (String.compare k k') eqn:E; [|done|].
  - apply String.compare_eq_iff in E. done.
  - rewrite IH by done. apply perm_swap.
Qed.

Lemma build_perm ms acc :
  NoDup (ms.*1 ++ acc.*1) -> build ms acc ≡ₚ ms ++ acc.
Proof.
  revert acc. induction ms as [|[k v] ms IH]; intros acc Hnd; simpl; [done|].
  rewrite fmap_cons in Hnd. simpl in Hnd. apply NoDup_cons in Hnd as [Hk Hnd].
  rewrite not_elem_of_app in Hk. destruct Hk as [Hk1 Hk2].
  assert (insert_member k v acc ≡ₚ (k, v) :: acc) as Hins by (by apply insert_member_perm).
  rewrite IH.
  - rewrite Hins. by rewrite Permutation_middle.
  - rewrite Hins. simpl. rewrite <- Permutation_middle. constructor; [|done].
    by rewrite not_elem_of_app.
Qed.

Lemma sorted_unique l k : sorted l -> sorted k -> l ≡ₚ k -> l = k.
Proof.
  apply StronglySorted_unique. intros p q Hpq Hqp.
  pose proof (key_lt_trans _ _ _ Hpq Hqp) as H. unfold key_lt in H.
  pose proof (String.compare_antisym p.1 p.1) as Ha. by rewrite H in Ha.
Qed.

Lemma canon_object_perm ms ms' :
  NoDup ms.*1 -> ms ≡ₚ ms' -> canon (VObject ms) = canon (VObject ms').
Proof.
  intros Hnd Hp. simpl. f_equal. fold (build (map (fun p => (p.1, canon p.2)) ms) []).
  fold (build (map (fun p => (p.1, canon p.2)) ms') []).
  assert (forall l : list (string * value),
    (map (fun p => (p.1, canon p.2)) l).*1 = l.*1) as Hk.
  { intros l. induction l as [|[k v] l IH]; [done|]. cbn. by f_equal. }
  apply sorted_unique; try (apply build_sorted; constructor).
  rewrite !build_perm; rewrite ?Hk, ?app_nil_r; [|by rewrite <- Hp|done].
  by rewrite Hp.
Qed.

(** ** Theorems *)


(** The order in which an object lists its members, and the white space
    around anything, do not reach the canonical bytes. *)
Theorem canonical_params_ignores_member_order (raw raw' : string)
    (ms ms' : list (string * value)) :
  parse raw = Some (VObject ms) -> parse raw' = Some (VObject ms') ->
  NoDup ms.*1 -> ms ≡ₚ ms' ->
  CanonicalParams raw = CanonicalParams raw'.
Proof.
  intros H H' Hnd Hp. unfold CanonicalParams. rewrite H, H'.
  by rewrite (canon_object_perm ms ms').
Qed.

(** Two spellings of one object; the quotes are built from their code. *)
Definition example_quoted (s : string) : string :=
  String (byte 34) (s +:+ String (byte 34) EmptyString).

Definition example_raw : string :=
  "{ " +:+ example_quoted "b" +:+ " : 1.50 , " +:+ example_quoted "a" +:+ ":[true,null]}".

Definition example_raw' : string :=
  "{" +:+ example_quoted "a" +:+ ":[true,null]," +:+ example_quoted "b" +:+ ":1.50} ".

Lemma canonical_params_ignores_member_order_witness :
  CanonicalParams example_raw = CanonicalParams example_raw'.
Proof.
  apply (canonical_params_ignores_member_order example_raw example_raw'
    [("b", VNumber "1.50"); ("a", VArray [VBool true; VNull])]
    [("a", VArray [VBool true; VNull]); ("b", VNumber "1.50")]).
  - vm_compute. reflexivity.
  - vm_compute. reflexivity.
  - cbn. repeat constructor; set_solver.
  - apply perm_swap.
Defined.
