(* ===== verification/Dispatch.v ===== *)
(** * Model dispatch: requests, one call, the two coordinators and retry

    [internal/model/errors.go] (request validation), [internal/model/fanout]
    (the shared call primitive and the parallel coordinator),
    [internal/model/sequential] (first success stops), and
    [internal/model/retry] (the transient-only retry decorator).

    Providers, clocks and contexts act on a world [W]: a provider call is a
    function of the world that returns, or panics, and leaves a new world. *)

From S2P Require Import Prelude Json.
Local Open Scope korvun_scope.

(** ** Requests *)

Definition Role := Z.
Definition RoleSystem : Role := 1%Z.
Definition RoleUser : Role := 2%Z.
Definition RoleAssistant : Role := 3%Z.
Definition RoleTool : Role := (RoleAssistant + 1)%Z.

Module ToolCall.

Record t := {
  ID : string;
  Name : string;
  Arguments : gmap string value
}.

End ToolCall.

Module Message.

Record t := {
  Role : Role;
  Content : string;
  ToolCalls : list ToolCall.t;
  ToolName : string;
  ToolCallID : string
}.

End Message.

Module Request.

Record t := {
  Model : string;
  Messages : list Message.t
}.

End Request.

Module Response.

Record t := {
  Message : Message.t;
  Provider : string;
  ModelName : string
}.

End Response.

Definition ErrNilRequest : error := ErrorNew "model: request is nil".
Definition ErrEmptyModel : error := ErrorNew "model: request model name is empty".
Definition ErrEmptyMessages : error := ErrorNew "model: request has no messages".
Definition ErrInvalidRole : error := ErrorNew "model: message has invalid role".
Definition ErrEmptyContent : error := ErrorNew "model: message content is empty".
Definition sentinel_provider_unavailable : string := "model: provider unavailable".
Definition ErrProviderUnavailable : error := ErrorNew sentinel_provider_unavailable.

Definition non_empty {A} (l : list A) : bool := negb (bool_decide (l = [] :> list A)).

(** The per-message half of [ValidateRequest]: the role's field invariants,
    then the content rule. *)
Definition validate_role (m : Message.t) : option error :=
  let has_calls := (0 <? Z.of_nat (length m.(Message.ToolCalls)))%Z in
  let has_name := bool_decide (m.(Message.ToolName) <> "") in
  if bool_decide (m.(Message.Role) = RoleSystem)
     || bool_decide (m.(Message.Role) = RoleUser)
  then fail_if (has_calls || has_name)
         (ErrorWrap "turn carries tool-calling fields" ErrInvalidRole)
  else if bool_decide (m.(Message.Role) = RoleAssistant)
  then fail_if has_name
         (ErrorWrap "assistant turn carries a tool result attribution" ErrInvalidRole)
  else if bool_decide (m.(Message.Role) = RoleTool)
  then fail_if (negb has_name || has_calls) ErrInvalidRole
  else Some ErrInvalidRole.

Definition validate_message (m : Message.t) : option error :=
  validate_role m ;;;
  fail_if (bool_decide (m.(Message.Content) = "")
           && negb (bool_decide (m.(Message.Role) = RoleAssistant)
                    && (0 <? Z.of_nat (length m.(Message.ToolCalls)))%Z))
    ErrEmptyContent.

Definition ValidateRequest (req : option Request.t) : option error :=
  match req with
  | None => Some ErrNilRequest
  | Some req =>
      fail_if (bool_decide (req.(Request.Model) = "")) ErrEmptyModel ;;;
      fail_if (bool_decide (length req.(Request.Messages) = 0)) ErrEmptyMessages ;;;
      check_all validate_message req.(Request.Messages)
  end.

(** ** One call *)

(** A recovered panic value. *)
Inductive panic_value :=
| PanicError (e : error)
| PanicOther (text : string).

Inductive exn (A : Type) :=
| Ret (a : A)
| Panic (v : panic_value).
Arguments Ret {A} _.
Arguments Panic {A} _.

Definition sentinel_deadline_exceeded : string := "context deadline exceeded".
Definition DeadlineExceeded : error := ErrorNew sentinel_deadline_exceeded.

Definition ErrNoModels : error := ErrorNew "fanout: no models".
Definition ErrNilModel : error := ErrorNew "fanout: nil model entry".

Module Outcome.

Record t := {
  Provider : string;
  Response : option Response.t;
  Err : option error;
  Latency : duration
}.

(** The zero value a pre-allocated slot holds. *)
Definition zero : t :=
  {| Provider := ""; Response := None; Err := None; Latency := 0 |}.

End Outcome.

Section World.
Context {W : Type}.

(** A [context.Context]: its deadline, and what [Err] answers in each world. *)
Record Context := {
  Deadline : option time;
  CtxErr : W -> option error
}.

(** [context.WithTimeout]: the earlier of the parent's deadline and
    [now + d]; expiry is reported once the parent is not already done. *)
Definition WithTimeout (now : W -> time) (ctx : Context) (d : duration) (w : W) : Context :=
  let mine := (now w + d)%Z in
  let dl := match ctx.(Deadline) with Some p => Z.min p mine | None => mine end in
  {| Deadline := Some dl;
     CtxErr := fun w' => match ctx.(CtxErr) w' with
                         | Some e => Some e
                         | None => if (dl <=? now w')%Z then Some DeadlineExceeded else None
                         end |}.

(** The [model.Model] interface. *)
Record Model := {
  Name : W -> exn string;
  Generate : Context -> option Request.t -> W
             -> exn (option Response.t * option error) * W
}.

Definition ValidateRunInputs (ctx : option Context) (req : option Request.t)
    (models : list (option Model)) (w : W) : option error :=
  match ctx with
  | None => Some (ErrorNew "model dispatch: nil ctx")
  | Some ctx =>
      ValidateRequest req ;;;
      fail_if (bool_decide (length models = 0)) ErrNoModels ;;;
      check_all (fun m => match m with None => Some ErrNilModel | Some _ => None end) models ;;;
      ctx.(CtxErr) w
  end.

Definition recovered (v : panic_value) : error :=
  match v with
  | PanicError e => ErrorWrap "model dispatch: provider panicked" e
  | PanicOther text => ErrorNew ("model dispatch: provider panicked: " +:+ text)
  end.

(** Calling a method of a nil interface panics with a runtime error. *)
Definition nil_dereference : panic_value :=
  PanicError (ErrorNew "runtime error: invalid memory address or nil pointer dereference").

Definition model_Name (m : option Model) (w : W) : exn string :=
  match m with Some m => m.(Name) w | None => Panic nil_dereference end.

Definition model_Generate (m : option Model) (ctx : Context) (req : option Request.t)
    (w : W) : exn (option Response.t * option error) * W :=
  match m with Some m => m.(Generate) ctx req w | None => (Panic nil_dereference, w) end.

Definition CallOne (ctx : Context) (req : option Request.t) (m : option Model)
    (perModelTimeout : duration) (now : W -> time) (w : W) : Outcome.t * W :=
  match model_Name m w with
  | Panic v =>
      ({| Outcome.Provider := ""; Outcome.Response := None;
          Outcome.Err := Some (recovered v); Outcome.Latency := 0 |}, w)
  | Ret name =>
      let callCtx := if (0 <? perModelTimeout)%Z
                     then WithTimeout now ctx perModelTimeout w else ctx in
      let start := now w in
      let '(r, w') := model_Generate m callCtx req w in
      let latency := time_sub (now w') start in
      match r with
      | Panic v =>
          ({| Outcome.Provider := name; Outcome.Response := None;
              Outcome.Err := Some (recovered v); Outcome.Latency := latency |}, w')
      | Ret (_, Some e) =>
          ({| Outcome.Provider := name; Outcome.Response := None;
              Outcome.Err := Some e; Outcome.Latency := latency |}, w')
      | Ret (resp, None) =>
          ({| Outcome.Provider := name; Outcome.Response := resp;
              Outcome.Err := None; Outcome.Latency := latency |}, w')
      end
  end.

(** ** The sequential coordinator *)

Record Coordinator := {
  perModelTimeout : duration;
  cancelOnFirstUsableSuccess : bool;
  now : option (W -> time)
}.

(** An option of [New]; the sequential package has only the timeout. *)
Definition WithPerModelTimeout (d : duration) (c : Coordinator) : Coordinator :=
  if (0 <? d)%Z
  then {| perModelTimeout := d;
          cancelOnFirstUsableSuccess := c.(cancelOnFirstUsableSuccess);
          now := c.(now) |}
  else c.

Definition WithCancelOnFirstUsableSuccess (c : Coordinator) : Coordinator :=
  {| perModelTimeout := c.(perModelTimeout); cancelOnFirstUsableSuccess := true;
     now := c.(now) |}.

Definition NewCoordinator (timeNow : W -> time)
    (opts : list (Coordinator -> Coordinator)) : Coordinator :=
  fold_left (fun c opt => opt c) opts
    {| perModelTimeout := 0; cancelOnFirstUsableSuccess := false; now := Some timeNow |}.

(** The lazily defaulted clock of a zero-value coordinator. *)
Definition clock (timeNow : W -> time) (c : Coordinator) : W -> time :=
  default timeNow c.(now).

Fixpoint sequential_loop (ctx : Context) (req : option Request.t) (timeout : duration)
    (now : W -> time) (models : list (option Model)) (w : W) : list Outcome.t * W :=
  match models with
  | [] => ([], w)
  | m :: models' =>
      match ctx.(CtxErr) w with
      | Some _ => ([], w)
      | None =>
          let '(oc, w1) := CallOne ctx req m timeout now w in
          match oc.(Outcome.Err) with
          | None => ([oc], w1)
          | Some _ =>
              let '(ocs, w2) := sequential_loop ctx req timeout now models' w1 in
              (oc :: ocs, w2)
          end
      end
  end.

Definition SequentialRun (timeNow : W -> time) (c : Coordinator) (ctx : option Context)
    (req : option Request.t) (models : list (option Model)) (w : W)
    : result (list Outcome.t) * W :=
  match ctx, ValidateRunInputs ctx req models w with
  | Some ctx', None =>
      let '(ocs, w') :=
        sequential_loop ctx' req c.(perModelTimeout) (clock timeNow c) models w in
      (Ok ocs, w')
  | _, Some e => (Err e, w)
  | None, None => (Ok [], w)
  end.

(** ** The parallel coordinator

    [Run] starts one goroutine per model and waits for all of them.  A
    goroutine's three visible actions are the write of its own slot, the
    signal that may cancel the siblings, and [wg.Done]; any interleaving of
    these is an execution of the relation [pool_step]. *)

Inductive goroutine := Calling | Published | Signalled | Returned.

Record pool := {
  outcomes : list Outcome.t;
  goroutines : list goroutine;
  once_fired : bool;
  runCancelled : bool;
  wg : nat
}.

Definition pool_start (models : list (option Model)) : pool :=
  {| outcomes := replicate (length models) Outcome.zero;
     goroutines := replicate (length models) Calling;
     once_fired := false; runCancelled := false; wg := length models |}.

(** The context a goroutine calls with is derived from the caller's: the
    sibling cancellation can only add an error. *)
Definition derived_from (ctx runCtx : Context) : Prop :=
  runCtx.(Deadline) = ctx.(Deadline)
  /\ forall w, ctx.(CtxErr) w <> None -> runCtx.(CtxErr) w <> None.

(** What one call of model [m] may produce, in whatever world it starts. *)
Definition call_produces (ctx : Context) (req : option Request.t) (timeout : duration)
    (now : W -> time) (m : option Model) (oc : Outcome.t) : Prop :=
  exists runCtx w, derived_from ctx runCtx /\ (CallOne runCtx req m timeout now w).1 = oc.

Definition usable_success (oc : Outcome.t) : bool :=
  match oc.(Outcome.Err) with None => true | Some _ => false end.

(** [onUsableSuccess]: [once.Do(cancel)], after a usable success only. *)
Definition signal (cancelOnFirst : bool) (oc : Outcome.t) (s : pool) : pool :=
  if cancelOnFirst && usable_success oc && negb s.(once_fired) then
    {| outcomes := s.(outcomes); goroutines := s.(goroutines);
       once_fired := true; runCancelled := true; wg := s.(wg) |}
  else s.

Definition set_goroutine (i : nat) (g : goroutine) (s : pool) : pool :=
  {| outcomes := s.(outcomes); goroutines := <[i := g]> s.(goroutines);
     once_fired := s.(once_fired); runCancelled := s.(runCancelled); wg := s.(wg) |}.

Definition publish (i : nat) (oc : Outcome.t) (s : pool) : pool :=
  {| outcomes := <[i := oc]> s.(outcomes); goroutines := <[i := Published]> s.(goroutines);
     once_fired := s.(once_fired); runCancelled := s.(runCancelled); wg := s.(wg) |}.

Definition wg_done (i : nat) (s : pool) : pool :=
  {| outcomes := s.(outcomes); goroutines := <[i := Returned]> s.(goroutines);
     once_fired := s.(once_fired); runCancelled := s.(runCancelled);
     wg := s.(wg) - 1 |}.

Inductive pool_step (ctx : Context) (req : option Request.t) (c : Coordinator)
    (timeNow : W -> time) (models : list (option Model)) : pool -> pool -> Prop :=
| step_call s i m oc :
    models !! i = Some m -> s.(goroutines) !! i = Some Calling ->
    call_produces ctx req c.(perModelTimeout) (clock timeNow c) m oc ->
    pool_step ctx req c timeNow models s (publish i oc s)
| step_signal s i oc :
    s.(goroutines) !! i = Some Published -> s.(outcomes) !! i = Some oc ->
    pool_step ctx req c timeNow models s
      (set_goroutine i Signalled (signal c.(cancelOnFirstUsableSuccess) oc s))
| step_done s i :
    s.(goroutines) !! i = Some Signalled ->
    pool_step ctx req c timeNow models s (wg_done i s).

(** [wg.Wait] returns exactly when the counter is zero. *)
Definition wait_returns (s : pool) : Prop := s.(wg) = 0.

(** ** Lemmas on the parallel coordinator *)

Definition remaining (g : goroutine) : nat :=
  match g with Calling => 3 | Published => 2 | Signalled => 1 | Returned => 0 end.

Definition alive (g : goroutine) : nat :=
  match g with Returned => 0 | _ => 1 end.

Definition has_signalled (g : goroutine) : bool :=
  match g with Signalled | Returned => true | _ => false end.

Definition has_published (g : goroutine) : bool :=
  match g with Calling => false | _ => true end.

Section Pool.
Context (ctx : Context) (req : option Request.t) (c : Coordinator)
        (timeNow : W -> time) (models : list (option Model)).

Local Abbreviation produces :=
  (call_produces ctx req c.(perModelTimeout) (clock timeNow c)) (only parsing).
Local Abbreviation step := (pool_step ctx req c timeNow models) (only parsing).

(** Some goroutine has signalled the usable success it published. *)
Definition success_signalled (gs : list goroutine) (ocs : list Outcome.t) : Prop :=
  exists i g oc, gs !! i = Some g /\ has_signalled g = true
                 /\ ocs !! i = Some oc /\ usable_success oc = true.

Record pool_ok (s : pool) : Prop := {
  pool_outcomes : length s.(outcomes) = length models;
  pool_goroutines : length s.(goroutines) = length models;
  pool_wg : s.(wg) = sum_list_with alive s.(goroutines);
  pool_slot : forall i g m oc, s.(goroutines) !! i = Some g -> has_published g = true ->
    models !! i = Some m -> s.(outcomes) !! i = Some oc -> produces m oc;
  pool_once : s.(once_fired) = s.(runCancelled);
  pool_cancel : s.(runCancelled) = true <->
    c.(cancelOnFirstUsableSuccess) = true
    /\ success_signalled s.(goroutines) s.(outcomes)
}.

Lemma pool_start_ok : pool_ok (pool_start models).
Proof.
  split; simpl; rewrite ?length_replicate; try done.
  - induction models; simpl; congruence.
  - intros i g m oc [-> _]%lookup_replicate. done.
  - split; [done|]. intros (_ & i & g & oc & [-> _]%lookup_replicate & ? & _). done.
Qed.

(** Writing a slot whose goroutine has not signalled changes no signal. *)
Lemma signalled_publish gs ocs i g oc :
  gs !! i = Some g -> has_signalled g = false ->
  success_signalled (<[i := Published]> gs) (<[i := oc]> ocs) <-> success_signalled gs ocs.
Proof.
  intros Hi Hg.
  split; intros (j & g' & oc' & H1 & H2 & H3 & H4); exists j, g', oc';
    (destruct (decide (i = j)) as [<-|Hne];
     [|by rewrite ?list_lookup_insert_ne in * by done]);
    exfalso; [|congruence].
  rewrite list_lookup_insert_eq in H1 by eauto using lookup_lt_Some. by simplify_eq.
Qed.

(** Moving goroutine [i] to a signalled state adds slot [i]'s success. *)
Lemma signalled_insert gs ocs i g g' oc :
  gs !! i = Some g -> has_signalled g' = true -> ocs !! i = Some oc ->
  success_signalled (<[i := g']> gs) ocs
  <-> usable_success oc = true \/ success_signalled gs ocs.
Proof.
  intros Hi Hg' Hoc. pose proof (lookup_lt_Some _ _ _ Hi). split.
  - intros (j & g'' & oc' & H1 & H2 & H3 & H4).
    destruct (decide (i = j)) as [<-|Hne]; [left; congruence|right].
    exists j, g'', oc'. by rewrite list_lookup_insert_ne in H1 by done.
  - intros [Hu|(j & g'' & oc' & H1 & H2 & H3 & H4)].
    + exists i, g', oc. by rewrite list_lookup_insert_eq by done.
    + destruct (decide (i = j)) as [<-|Hne].
      * exists i, g', oc'. by rewrite list_lookup_insert_eq by done.
      * exists j, g'', oc'. by rewrite list_lookup_insert_ne by done.
Qed.

(** A goroutine that already signalled stays so when it returns. *)
Lemma signalled_return gs ocs i :
  gs !! i = Some Signalled ->
  success_signalled (<[i := Returned]> gs) ocs <-> success_signalled gs ocs.
Proof.
  intros Hi. pose proof (lookup_lt_Some _ _ _ Hi). split;
    intros (j & g' & oc' & H1 & H2 & H3 & H4);
    (destruct (decide (i = j)) as [<-|Hne];
      [|exists j, g', oc'; by rewrite ?list_lookup_insert_ne in * by done]).
  - by exists i, Signalled, oc'.
  - exists i, Returned, oc'. by rewrite list_lookup_insert_eq by done.
Qed.

Lemma goroutine_slot (gs : list goroutine) (i j : nat) (g g' gj : goroutine) :
  gs !! i = Some g -> <[i := g']> gs !! j = Some gj ->
  (i = j /\ gj = g') \/ (i <> j /\ gs !! j = Some gj).
Proof.
  intros Hi Hj. destruct (decide (i = j)) as [<-|Hne].
  - rewrite list_lookup_insert_eq in Hj by eauto using lookup_lt_Some. naive_solver.
  - rewrite list_lookup_insert_ne in Hj by done. auto.
Qed.

Lemma publish_ok s i m oc :
  pool_ok s -> models !! i = Some m -> s.(goroutines) !! i = Some Calling ->
  produces m oc -> pool_ok (publish i oc s).
Proof.
  intros [Ho Hg Hw Hsl Hon Hc] Hm Hi Hp.
  split; simpl; rewrite ?length_insert; try done.
  - pose proof (sum_list_with_insert alive _ _ _ Published Hi). simpl in *. lia.
  - intros j g m' oc' Hj Hpub Hm'.
    destruct (goroutine_slot _ _ _ _ _ _ Hi Hj) as [[<- _]|[Hne Hj']].
    + rewrite list_lookup_insert_eq by (rewrite Ho; eauto using lookup_lt_Some).
      congruence.
    + rewrite list_lookup_insert_ne by done. eauto.
  - rewrite (signalled_publish _ _ _ Calling) by done. done.
Qed.

Lemma signal_ok s i oc :
  pool_ok s -> s.(goroutines) !! i = Some Published -> s.(outcomes) !! i = Some oc ->
  pool_ok (set_goroutine i Signalled (signal c.(cancelOnFirstUsableSuccess) oc s)).
Proof.
  intros [Ho Hg Hw Hsl Hon Hc] Hi Hoc.
  pose proof (sum_list_with_insert alive _ _ _ Signalled Hi) as Hsum. simpl in Hsum.
  pose proof (signalled_insert _ _ _ _ Signalled _ Hi eq_refl Hoc) as Hins.
  assert (forall j g m oc', <[i := Signalled]> s.(goroutines) !! j = Some g ->
    has_published g = true -> models !! j = Some m ->
    s.(outcomes) !! j = Some oc' -> produces m oc') as Hslot.
  { intros j g m oc' Hj Hpub Hm. destruct (goroutine_slot _ _ _ _ _ _ Hi Hj) as [[<- _]|[_ Hj']];
      [by apply (Hsl i Published)|by apply (Hsl j g)]. }
  unfold signal. case_match eqn:E; bools; split; simpl; rewrite ?length_insert; try done; try lia.
  - rewrite Hins. naive_solver.
  - rewrite Hins. clear -E Hon Hc. destruct E as [E|E]; bools.
    + rewrite Hc. destruct E as [E|E]; rewrite E; intuition congruence.
    + rewrite Hon in E. rewrite E in *. intuition.
Qed.

Lemma wg_done_ok s i :
  pool_ok s -> s.(goroutines) !! i = Some Signalled -> pool_ok (wg_done i s).
Proof.
  intros [Ho Hg Hw Hsl Hon Hc] Hi.
  split; simpl; rewrite ?length_insert; try done.
  - pose proof (sum_list_with_insert alive _ _ _ Returned Hi). simpl in *. lia.
  - intros j g m oc' Hj Hpub Hm. destruct (goroutine_slot _ _ _ _ _ _ Hi Hj) as [[<- _]|[_ Hj']];
      [by apply (Hsl i Signalled)|by apply (Hsl j g)].
  - by rewrite signalled_return.
Qed.

Lemma pool_step_ok (s s' : pool) : pool_ok s -> step s s' -> pool_ok s'.
Proof. destruct 2; eauto using publish_ok, signal_ok, wg_done_ok. Qed.

Lemma pool_steps_ok (k : nat) (s s' : pool) : nsteps step k s s' -> pool_ok s -> pool_ok s'.
Proof. induction 1; eauto using pool_step_ok. Qed.

(** Every step of the pool uses up one of the actions left. *)
Lemma pool_step_measure (s s' : pool) :
  step s s' ->
  sum_list_with remaining s'.(goroutines) + 1 = sum_list_with remaining s.(goroutines).
Proof.
  destruct 1 as [s i m oc _ Hi _|s i oc Hi _|s i Hi].
  - pose proof (sum_list_with_insert remaining _ _ _ Published Hi). simpl in *. lia.
  - pose proof (sum_list_with_insert remaining _ _ _ Signalled Hi).
    unfold signal. case_match; simpl in *; lia.
  - pose proof (sum_list_with_insert remaining _ _ _ Returned Hi). simpl in *. lia.
Qed.

Lemma pool_steps_measure (k : nat) (s s' : pool) :
  nsteps step k s s' ->
  sum_list_with remaining s'.(goroutines) + k = sum_list_with remaining s.(goroutines).
Proof.
  induction 1 as [|k s s1 s' Hs _ IH]; [lia|]. apply pool_step_measure in Hs. lia.
Qed.

(** While a goroutine is alive, some action is possible. *)
Lemma pool_progress (w0 : W) (s : pool) :
  pool_ok s -> s.(wg) <> 0 -> exists s', step s s'.
Proof.
  intros [Ho Hg Hw Hsl Hon Hc] Hne.
  assert (exists i g, s.(goroutines) !! i = Some g /\ g <> Returned) as (i & g & Hi & Hr).
  { rewrite Hw in Hne. clear -Hne. induction (goroutines s) as [|g gs IH]; [done|].
    destruct (decide (alive g = 0)) as [Hz|Hz].
    - destruct IH as (i & g' & ? & ?); [simpl in Hne; lia|]. by exists (S i), g'.
    - exists 0, g. split; [done|]. by intros ->. }
  assert (i < length models) as Hlt by (rewrite <- Hg; eauto using lookup_lt_Some).
  destruct (lookup_lt_is_Some_2 models i Hlt) as [m Hm].
  destruct (lookup_lt_is_Some_2 s.(outcomes) i) as [oc Hoc]; [lia|].
  destruct g; [| | |done].
  - eexists. eapply (step_call _ _ _ _ _ _ i m); [done|done|].
    exists ctx, w0. split; [|reflexivity]. split; auto.
  - eexists. by eapply step_signal.
  - eexists. by eapply step_done.
Qed.

Lemma alive_remaining (gs : list goroutine) :
  sum_list_with alive gs = 0 <-> sum_list_with remaining gs = 0.
Proof. induction gs as [|[] gs IH]; simpl; lia. Qed.

Lemma all_returned (gs : list goroutine) (i : nat) (g : goroutine) :
  sum_list_with alive gs = 0 -> gs !! i = Some g -> g = Returned.
Proof.
  revert i. induction gs as [|g' gs IH]; intros [|i] Hs Hi; simplify_eq/=.
  - destruct g; simpl in Hs; congruence || lia.
  - apply (IH i); [lia|done].
Qed.

Lemma start_remaining :
  sum_list_with remaining (pool_start models).(goroutines) = 3 * length models.
Proof. simpl. induction models; simpl; lia. Qed.


End Pool.

(** ** Lemmas on the sequential coordinator *)

(** The calls a dispatch made: each model in order, each under a live context,
    each in the world the previous call left. *)
Inductive called (ctx : Context) (req : option Request.t) (timeout : duration)
    (now : W -> time) : list (option Model) -> W -> list Outcome.t -> W -> Prop :=
| called_nil w : called ctx req timeout now [] w [] w
| called_cons m models w oc w1 ocs w2 :
    ctx.(CtxErr) w = None -> CallOne ctx req m timeout now w = (oc, w1) ->
    called ctx req timeout now models w1 ocs w2 ->
    called ctx req timeout now (m :: models) w (oc :: ocs) w2.

(** Why the loop stopped. *)
Inductive stopped (ctx : Context) (models : list (option Model)) (ocs : list Outcome.t)
    (w : W) : Prop :=
| stopped_success pre oc :
    ocs = pre ++ [oc] -> usable_success oc = true ->
    Forall (fun oc => usable_success oc = false) pre -> stopped ctx models ocs w
| stopped_exhausted :
    length ocs = length models ->
    Forall (fun oc => usable_success oc = false) ocs -> stopped ctx models ocs w
| stopped_cancelled e :
    ctx.(CtxErr) w = Some e -> length ocs < length models ->
    Forall (fun oc => usable_success oc = false) ocs -> stopped ctx models ocs w.

Lemma sequential_loop_spec ctx req timeout now models w ocs w' :
  sequential_loop ctx req timeout now models w = (ocs, w') ->
  called ctx req timeout now (take (length ocs) models) w ocs w'
  /\ stopped ctx models ocs w'.
Proof.
  revert w ocs. induction models as [|m models IH]; simpl; intros w ocs H; simplify_eq.
  { split; [constructor|]. by apply stopped_exhausted. }
  destruct (CtxErr ctx w) as [e|] eqn:Ec; simplify_eq.
  { split; [constructor|]. eapply stopped_cancelled; simpl; eauto with lia. }
  destruct (CallOne ctx req m timeout now w) as [oc w1] eqn:E1.
  destruct (Outcome.Err oc) eqn:Eo; simplify_eq.
  - destruct (sequential_loop ctx req timeout now models w1) as [ocs2 w2] eqn:E2.
    simplify_eq. destruct (IH _ _ E2) as [Hc Hs]. split; [by econstructor|].
    assert (usable_success oc = false) by (unfold usable_success; by rewrite Eo).
    destruct Hs as [pre oc' -> ? ?|? ?|e' ? ? ?].
    + by apply (stopped_success _ _ _ _ (oc :: pre) oc'); [| |constructor].
    + apply stopped_exhausted; [simpl; congruence|by constructor].
    + eapply stopped_cancelled; [done|simpl; lia|by constructor].
  - simpl. rewrite take_0. split; [econstructor; eauto; constructor|].
    apply (stopped_success _ _ _ _ [] oc); [done| |done].
    unfold usable_success. by rewrite Eo.
Qed.

(** Sequential dispatch rejects a misconfiguration without calling any
    model.  Otherwise it calls a non-empty prefix of the models, in order, each
    in the world the previous call left and under a live context, and stops for
    exactly one of three reasons: the last call is the first usable success;
    every model was called and failed; or the caller's context was done between
    two calls, every call made so far having failed. *)
Theorem sequential_stops_at_first_success (timeNow : W -> time) (c : Coordinator)
    (ctx : Context) (req : option Request.t) (models : list (option Model)) (w w' : W)
    (r : result (list Outcome.t)) :
  SequentialRun timeNow c (Some ctx) req models w = (r, w') ->
  match r with
  | Err e => ValidateRunInputs (Some ctx) req models w = Some e /\ w' = w
  | Ok ocs =>
      ValidateRunInputs (Some ctx) req models w = None /\ ocs <> []
      /\ called ctx req c.(perModelTimeout) (clock timeNow c)
           (take (length ocs) models) w ocs w'
      /\ stopped ctx models ocs w'
  end.
Proof.
  unfold SequentialRun. destruct (ValidateRunInputs _ _ _ _) as [e|] eqn:Ev; intros H;
    simplify_eq; [done|].
  destruct (sequential_loop _ _ _ _ _ _) as [ocs w1] eqn:El. simplify_eq.
  destruct (sequential_loop_spec _ _ _ _ _ _ _ _ El) as [Hc Hs].
  split_and!; [done| |done|done].
  intros ->. revert Ev. unfold ValidateRunInputs.
  rewrite !first_error_None, fail_if_None, bool_decide_eq_false. intros (_ & Hm & _ & Hx).
  destruct models as [|m ms]; [done|]. simpl in El. rewrite Hx in El.
  destruct (CallOne _ _ _ _ _ _). repeat case_match; simplify_eq.
Qed.

(** One call never lets a panic escape and keeps the upstream error
    grammar: the outcome is attributed to [Model.Name]; a returned error is the
    outcome's error, unchanged, and a panicked error value is still found by
    [errors.Is]; and if the adapter honours its contract (a nil error comes
    with a response) exactly one of the outcome's response and error is set. *)
Theorem call_one_keeps_error_grammar (ctx : Context) (req : option Request.t)
    (m : Model) (timeout : duration) (now : W -> time) (w : W) (name : string) :
  m.(Name) w = Ret name ->
  (forall c w1 w2 resp, m.(Generate) c req w1 = (Ret (resp, None), w2) -> resp <> None) ->
  exists c r w', m.(Generate) c req w = (r, w')
    /\ c.(Deadline) = (if (0 <? timeout)%Z
         then Some (match ctx.(Deadline) with
                    | Some p => Z.min p (now w + timeout)
                    | None => now w + timeout end)%Z
         else ctx.(Deadline))
    /\ let oc := (CallOne ctx req (Some m) timeout now w).1 in
    (CallOne ctx req (Some m) timeout now w).2 = w'
    /\ oc.(Outcome.Provider) = name
    /\ (is_Some oc.(Outcome.Response) <-> oc.(Outcome.Err) = None)
    /\ match r with
       | Ret (_, Some e) => oc.(Outcome.Err) = Some e
       | Ret (resp, None) => oc.(Outcome.Response) = resp
       | Panic (PanicError e) => exists e', oc.(Outcome.Err) = Some e'
           /\ forall target, error_is target e = true -> error_is target e' = true
       | Panic (PanicOther _) => is_Some oc.(Outcome.Err)
       end.
Proof.
  intros Hn Hcontract. unfold CallOne. simpl. rewrite Hn.
  set (c := if (0 <? timeout)%Z then WithTimeout now ctx timeout w else ctx).
  destruct (Generate m c req w) as [r w'] eqn:Eg. exists c, r, w'.
  split; [done|]. split; [unfold c; by case_match|].
  destruct r as [[resp [e|]]|[e|text]]; simpl; split_and!; try done; eauto;
    try (by intros [? ?]).
  all: try (destruct resp; [by eauto|by specialize (Hcontract _ _ _ _ Eg)]).
Qed.

(** ** The retry decorator *)

Section Retry.

(** [rand.Float64] draws [k / 2^53]; [rnd] yields the numerator. *)
Context (clockNow : W -> time) (Sleep : Context -> duration -> W -> option error * W)
        (rnd : W -> Z).

Record Config := {
  PerAttempt : duration;
  MaxRetries : Z
}.

Definition BackoffBase : duration := (200 * Millisecond)%Z.
Definition MaxBackoffPerWait : duration := (2 * Second)%Z.
Definition RetryAfterCap : duration := (30 * Second)%Z.

(** What the decorator does to the outside, in order: provider calls (with
    their error), the two metric counters, and backoff sleeps. *)
Inductive event :=
| EvCall (err : option error)
| EvCallPanicked
| EvRetryCounted
| EvBudgetExhausted
| EvSleep (d : duration).

(** The nearest float64 (ties to even) of a positive integer: its 53 leading
    bits, as an integer. *)
Definition round_float64 (n : Z) : Z :=
  let e := Z.max 0 (Z.log2 n - 52) in
  let q := (n / 2 ^ e)%Z in
  let r := (n mod 2 ^ e)%Z in
  (2 ^ e * (if (2 ^ e <? 2 * r) || ((2 * r =? 2 ^ e) && Z.odd q) then q + 1 else q))%Z.

(** [time.Duration(d.rnd() * float64(step))]: the product [k / 2^53 * step]
    rounded to float64, then truncated. *)
Definition scale (k step : Z) : duration := (round_float64 (k * step) / 2 ^ 53)%Z.

(** The step is computed on [int64]: the shift wraps, and the guard catches
    both the sign change and the shifted-out zero. *)
Definition backoff_step (attempt : Z) : duration :=
  let step := wrap64 (Z.shiftl BackoffBase attempt) in
  if (step <=? 0)%Z || (MaxBackoffPerWait <? step)%Z then MaxBackoffPerWait else step.

Definition backoff (attempt : Z) (w : W) : duration := scale (rnd w) (backoff_step attempt).

Definition cappedRetryAfter (ra : duration) : duration :=
  if (ra <=? 0)%Z then 0%Z else if (RetryAfterCap <? ra)%Z then RetryAfterCap else ra.

Definition maxDuration (a b : duration) : duration := if (b <? a)%Z then a else b.

Definition waitFor (err : error) (attempt : Z) (w : W) : duration * bool :=
  match error_as_rate_limit err with
  | Some (_, retryAfter) => (maxDuration (backoff attempt w) (cappedRetryAfter retryAfter), true)
  | None =>
      if error_is sentinel_provider_unavailable err then (backoff attempt w, true)
      else (0%Z, false)
  end.

(** A provider call as the loop sees it; a panic is not recovered here. *)
Definition answer := exn (option Response.t * option error).

Definition attemptCall (cfg : Config) (ctx : Context) (call : Context -> W -> answer * W)
    (w : W) : answer * W :=
  if (cfg.(PerAttempt) <=? 0)%Z then call ctx w
  else call (WithTimeout clockNow ctx cfg.(PerAttempt) w) w.

(** [retryLoop], one unit of fuel per attempt; the events come oldest first. *)
Fixpoint retryLoop (fuel : nat) (cfg : Config) (ctx : Context)
    (call : Context -> W -> answer * W) (attempt : Z) (w : W)
    : option (answer * list event * W) :=
  match fuel with
  | 0 => None
  | S fuel' =>
      let '(r, w1) := attemptCall cfg ctx call w in
      match r with
      | Panic v => Some (Panic v, [EvCallPanicked], w1)
      | Ret (resp, None) => Some (Ret (resp, None), [EvCall None], w1)
      | Ret (_, Some e) =>
          let stop evs w' := Some (Ret (None, Some e), EvCall (Some e) :: evs, w') in
          if bool_decide (is_Some (ctx.(CtxErr) w1)) then stop [] w1
          else if error_is sentinel_deadline_exceeded e then stop [] w1
          else
            let '(wait, retryable) := waitFor e attempt w1 in
            if negb retryable then stop [] w1
            else if (cfg.(MaxRetries) <=? attempt)%Z then stop [EvBudgetExhausted] w1
            else if match ctx.(Deadline) with
                    | Some dl => (dl - clockNow w1 <? wait)%Z
                    | None => false
                    end
            then stop [EvBudgetExhausted] w1
            else
              let '(serr, w2) := Sleep ctx wait w1 in
              match serr with
              | Some _ => stop [EvRetryCounted; EvSleep wait] w2
              | None =>
                  match retryLoop fuel' cfg ctx call (wrap64 (attempt + 1)) w2 with
                  | Some (r', evs, w3) =>
                      Some (r', EvCall (Some e) :: EvRetryCounted :: EvSleep wait :: evs, w3)
                  | None => None
                  end
              end
      end
  end.

(** Enough fuel for every attempt the budget allows. *)
Definition retry_fuel (cfg : Config) : nat := S (Z.to_nat cfg.(MaxRetries)).

(** [Generate] of the decorator; [Name] delegates.  [None] is unreachable. *)
Definition decorator_Generate (cfg : Config) (inner : Model) (ctx : Context)
    (req : option Request.t) (w : W) : option (answer * list event * W) :=
  retryLoop (retry_fuel cfg) cfg ctx (fun attemptCtx => inner.(Generate) attemptCtx req) 0 w.

(** ** Lemmas on retry *)

Lemma shifted_multiple (a : Z) : (22 <= a)%Z ->
  exists m, Z.shiftl BackoffBase a = (2147483648 * m)%Z.
Proof.
  intros Ha. exists (390625 * 2 ^ (a - 22))%Z. rewrite Z.shiftl_mul_pow2 by lia.
  change BackoffBase with (390625 * 512)%Z. replace a with (22 + (a - 22))%Z at 1 by lia.
  rewrite Z.pow_add_r by lia. lia.
Qed.

Lemma wrap64_multiple (m : Z) : exists m', wrap64 (2147483648 * m) = (2147483648 * m')%Z.
Proof.
  unfold wrap64. exists ((m + 4294967296) mod 8589934592 - 4294967296)%Z.
  replace (2147483648 * m + 9223372036854775808)%Z
    with (2147483648 * (m + 4294967296))%Z by lia.
  change 18446744073709551616%Z with (2147483648 * 8589934592)%Z.
  rewrite Zmult_mod_distr_l. lia.
Qed.

Lemma backoff_step_eq (a : Z) : (0 <= a)%Z ->
  backoff_step a = Z.min MaxBackoffPerWait (BackoffBase * 2 ^ a).
Proof.
  intros Ha. assert (a < 22 \/ 22 <= a)%Z as [Hs|Hl] by lia.
  - assert (Forall (fun n : nat => backoff_step (Z.of_nat n)
        = Z.min MaxBackoffPerWait (BackoffBase * 2 ^ Z.of_nat n)) (seq 0 22)) as Hall
      by (repeat constructor).
    rewrite Forall_forall in Hall. specialize (Hall (Z.to_nat a)).
    rewrite Z2Nat.id in Hall by lia. apply Hall. apply elem_of_seq. lia.
  - unfold backoff_step. destruct (shifted_multiple a Hl) as [m ->].
    destruct (wrap64_multiple m) as [m' ->].
    assert (MaxBackoffPerWait <= BackoffBase * 2 ^ a)%Z.
    { transitivity (BackoffBase * 2 ^ 22)%Z; [done|].
      apply Z.mul_le_mono_nonneg_l; [done|]. apply Z.pow_le_mono_r; lia. }
    rewrite Z.min_l by done. change MaxBackoffPerWait with 2000000000%Z.
    case_match eqn:E; [done|]. bools. lia.
Qed.

Lemma backoff_step_bounds (a : Z) : (0 <= a)%Z ->
  (0 < backoff_step a <= MaxBackoffPerWait)%Z.
Proof.
  intros Ha. rewrite backoff_step_eq by done.
  assert (0 < BackoffBase * 2 ^ a)%Z by (apply Z.mul_pos_pos; [done|]; apply Z.pow_pos_nonneg; lia).
  change MaxBackoffPerWait with 2000000000%Z. lia.
Qed.

(** Half an ulp of the jitter product stays below the step. *)
Lemma half_ulp (n step : Z) : (0 < n < 2 ^ 53 * step)%Z ->
  (2 ^ Z.max 0 (Z.log2 n - 52) < 2 * step)%Z.
Proof.
  intros Hn. destruct (Z.max_spec 0 (Z.log2 n - 52)) as [[? ->]|[? ->]]; [|lia].
  pose proof (Z.log2_spec n (proj1 Hn)) as [Hlog _].
  replace (Z.log2 n) with (52 + (Z.log2 n - 52))%Z in Hlog by lia.
  rewrite Z.pow_add_r in Hlog by lia. lia.
Qed.

(** The rounding of the jitter product cannot reach the step itself. *)
Lemma scale_bounds (k step : Z) :
  (0 <= k < 2 ^ 53)%Z -> (0 < step)%Z -> (0 <= scale k step < step)%Z.
Proof.
  intros Hk Hs. unfold scale, round_float64. set (n := (k * step)%Z).
  assert (0 <= n <= 2 ^ 53 * step - step)%Z as Hn by (unfold n; nia).
  set (p := (2 ^ Z.max 0 (Z.log2 n - 52))%Z).
  assert (0 < p)%Z by (apply Z.pow_pos_nonneg; lia).
  assert (n = 0 \/ p < 2 * step)%Z as Hp.
  { destruct (decide (n = 0%Z)); [by left|right]. apply half_ulp. lia. }
  pose proof (Z.div_mod n p) as Hd. pose proof (Z.mod_pos_bound n p).
  assert (0 <= n / p)%Z by (apply Z.div_pos; lia).
  split.
  - apply Z.div_pos; [|lia]. case_match; nia.
  - apply Z.div_lt_upper_bound; [lia|]. case_match eqn:E; [|nia].
    assert (p <= 2 * (n mod p))%Z.
    { apply orb_true_iff in E as [E|E]; bools; lia. }
    destruct Hp as [Hz|Hp]; [|nia]. rewrite Hz, Z.mod_0_l in *; lia.
Qed.

(** A transient failure: retried, unless the deadline of the attempt itself
    expired; [d] is the wait it earns. *)
Definition transient (e : error) : Prop :=
  error_is sentinel_deadline_exceeded e = false
  /\ (is_Some (error_as_rate_limit e) \/ error_is sentinel_provider_unavailable e = true).

Definition wait_bounded (e : error) (d : duration) : Prop :=
  match error_as_rate_limit e with
  | Some (_, hint) => (Z.min (Z.max 0 hint) RetryAfterCap <= d <= RetryAfterCap)%Z
  | None => (0 <= d < MaxBackoffPerWait)%Z
  end.

(** How the last attempt ends the loop. *)
Inductive last_attempt : answer -> list event -> Prop :=
| last_success resp : last_attempt (Ret (resp, None)) [EvCall None]
| last_panic v : last_attempt (Panic v) [EvCallPanicked]
| last_stop e : last_attempt (Ret (None, Some e)) [EvCall (Some e)]
| last_exhausted e : transient e ->
    last_attempt (Ret (None, Some e)) [EvCall (Some e); EvBudgetExhausted]
| last_interrupted e d : transient e -> wait_bounded e d ->
    last_attempt (Ret (None, Some e)) [EvCall (Some e); EvRetryCounted; EvSleep d].

Lemma waitFor_bounds (e : error) (attempt : Z) (w : W) (wait : duration) :
  (0 <= rnd w < 2 ^ 53)%Z -> (0 <= attempt)%Z -> waitFor e attempt w = (wait, true) ->
  (is_Some (error_as_rate_limit e) \/ error_is sentinel_provider_unavailable e = true)
  /\ wait_bounded e wait.
Proof.
  intros Hr Ha. pose proof (backoff_step_bounds attempt Ha) as [? Hmax].
  pose proof (scale_bounds (rnd w) (backoff_step attempt) Hr) as Hb.
  change MaxBackoffPerWait with 2000000000%Z in Hmax.
  unfold waitFor, wait_bounded, maxDuration, cappedRetryAfter, backoff.
  change RetryAfterCap with 30000000000%Z. change MaxBackoffPerWait with 2000000000%Z.
  destruct (error_as_rate_limit e) as [[p hint]|].
  - intros [= <-]. split; [by left; eexists|]. repeat case_match; bools; lia.
  - destruct (error_is _ e); [|done]. intros [= <-]. split; [by right|]. lia.
Qed.

(** The attempts after which the loop slept and went on. *)
Definition retried_events (p : error * duration) : list event :=
  [EvCall (Some p.1); EvRetryCounted; EvSleep p.2].

Lemma retryLoop_spec (cfg : Config) (ctx : Context) (call : Context -> W -> answer * W)
    (fuel : nat) (attempt : Z) (w : W) :
  (forall w, 0 <= rnd w < 2 ^ 53)%Z -> int64_range cfg.(MaxRetries) -> (0 <= attempt)%Z ->
  (Z.max attempt cfg.(MaxRetries) < attempt + Z.of_nat fuel)%Z ->
  exists r retried final w',
    retryLoop fuel cfg ctx call attempt w
      = Some (r, concat (map retried_events retried) ++ final, w')
    /\ last_attempt r final
    /\ (attempt + Z.of_nat (length retried) <= Z.max attempt cfg.(MaxRetries))%Z
    /\ Forall (fun p => transient p.1 /\ wait_bounded p.1 p.2) retried.
Proof.
  intros Hrnd Hmax. revert attempt w.
  induction fuel as [|fuel IH]; intros attempt w Ha Hf; [lia|]. simpl.
  assert (forall r final (w' : W), last_attempt r final ->
    exists r' retried final' w'',
      Some (r, final, w') = Some (r', concat (map retried_events retried) ++ final', w'')
      /\ last_attempt r' final'
      /\ (attempt + Z.of_nat (length retried) <= Z.max attempt cfg.(MaxRetries))%Z
      /\ Forall (fun p => transient p.1 /\ wait_bounded p.1 p.2) retried) as Hstop.
  { intros r final w' Hl. exists r, [], final, w'. simpl. split_and!; [done|done|lia|done]. }
  destruct (attemptCall cfg ctx call w) as [r w1].
  destruct r as [[resp [e|]]|v]; [|apply Hstop; constructor..].
  case_bool_decide; [apply Hstop; constructor|].
  destruct (error_is sentinel_deadline_exceeded e) eqn:Ed; [apply Hstop; constructor|].
  destruct (waitFor e attempt w1) as [wait retryable] eqn:Ew.
  destruct retryable; simpl; [|apply Hstop; constructor].
  destruct (waitFor_bounds _ _ _ _ (Hrnd w1) Ha Ew) as [Ht Hwb].
  assert (transient e) by done.
  destruct (cfg.(MaxRetries) <=? attempt)%Z eqn:Em; [by apply Hstop; constructor|].
  destruct (match ctx.(Deadline) with Some _ => _ | None => _ end);
    [by apply Hstop; constructor|].
  destruct (Sleep ctx wait w1) as [[serr|] w2]; [by apply Hstop; constructor|].
  bools. rewrite wrap64_small by (unfold int64_range in *; lia).
  destruct (IH (attempt + 1)%Z w2) as (r' & retried & final & w' & -> & Hl & Hn & Hall);
    [lia|lia|].
  exists r', ((e, wait) :: retried), final, w'. simpl. split_and!; try done; [lia|].
  by constructor.
Qed.

(** C29.  The retry loop always returns: one unit of fuel per attempt of the
    budget is enough.  It makes at most [max 0 MaxRetries + 1] provider calls;
    every attempt it goes on from failed with a transient error that is not a
    deadline expiry, was counted once and slept once, and its wait honours the
    rate-limit hint up to [RetryAfterCap] (without a hint it stays under
    [MaxBackoffPerWait]); and the value returned is the last attempt's. *)
Theorem retry_is_bounded (cfg : Config) (ctx : Context)
    (call : Context -> W -> answer * W) (w : W) :
  (forall w, 0 <= rnd w < 2 ^ 53)%Z -> int64_range cfg.(MaxRetries) ->
  exists r retried final w',
    retryLoop (retry_fuel cfg) cfg ctx call 0 w
      = Some (r, concat (map retried_events retried) ++ final, w')
    /\ last_attempt r final
    /\ (Z.of_nat (length retried) <= Z.max 0 cfg.(MaxRetries))%Z
    /\ Forall (fun p => transient p.1 /\ wait_bounded p.1 p.2) retried.
Proof.
  intros Hrnd Hmax.
  destruct (retryLoop_spec cfg ctx call (retry_fuel cfg) 0 w Hrnd Hmax)
    as (r & retried & final & w' & ? & ? & ? & ?); [lia|unfold retry_fuel; lia|].
  exists r, retried, final, w'. auto.
Qed.

(** The backoff step is the mathematical one, [min(2s, 200ms * 2^n)],
    for every attempt number: the guard on the wrapped [int64] shift misses no
    overflow and clamps nothing else.  A jittered wait is a non-negative
    duration strictly below that step. *)
Theorem backoff_is_exact (attempt : Z) (w : W) :
  (0 <= attempt)%Z -> (0 <= rnd w < 2 ^ 53)%Z ->
  backoff_step attempt = Z.min MaxBackoffPerWait (BackoffBase * 2 ^ attempt)
  /\ (0 <= backoff attempt w < Z.min MaxBackoffPerWait (BackoffBase * 2 ^ attempt))%Z.
Proof.
  intros Ha Hr. rewrite <- (backoff_step_eq attempt Ha). split; [done|].
  apply scale_bounds; [done|]. apply backoff_step_bounds. done.
Qed.

End Retry.

End World.
Arguments Context : clear implicits.
Arguments Model : clear implicits.
Arguments Coordinator : clear implicits.

(** ** Concrete executions *)

(** A world that is just the time: a provider that answers after one second,
    and one whose transport is down. *)
Definition example_reply : Response.t :=
  {| Response.Message := {| Message.Role := RoleAssistant; Message.Content := "yes";
       Message.ToolCalls := []; Message.ToolName := ""; Message.ToolCallID := "" |};
     Response.Provider := "self"; Response.ModelName := "m" |}.

Definition example_request : Request.t :=
  {| Request.Model := "m";
     Request.Messages := [ {| Message.Role := RoleUser; Message.Content := "hi";
       Message.ToolCalls := []; Message.ToolName := ""; Message.ToolCallID := "" |} ] |}.

Definition example_up : Model Z :=
  {| Name := fun _ => Ret "up";
     Generate := fun _ _ w => (Ret (Some example_reply, None), (w + Second)%Z) |}.

Definition example_down : Model Z :=
  {| Name := fun _ => Ret "down";
     Generate := fun _ _ w => (Ret (None, Some ErrProviderUnavailable), (w + Second)%Z) |}.

Definition example_ctx : Context Z := {| Deadline := None; CtxErr := fun _ => None |}.

Definition example_coordinator : Coordinator Z :=
  NewCoordinator (fun w => w) [WithPerModelTimeout Minute; WithCancelOnFirstUsableSuccess].

Definition example_outcome : Outcome.t :=
  {| Outcome.Provider := "up"; Outcome.Response := Some example_reply;
     Outcome.Err := None; Outcome.Latency := Second |}.


Lemma sequential_stops_at_first_success_witness :
  exists ocs w', SequentialRun (fun w => w) example_coordinator (Some example_ctx)
      (Some example_request) [Some example_down; Some example_up; Some example_up] 0%Z
    = (Ok ocs, w') /\ length ocs = 2 /\ w' = (2 * Second)%Z
    /\ stopped example_ctx [Some example_down; Some example_up; Some example_up] ocs w'.
Proof.
  eexists _, _. split; [reflexivity|]. split; [reflexivity|]. split; [reflexivity|].
  exact (proj2 (proj2 (proj2 (sequential_stops_at_first_success (fun w => w)
    example_coordinator example_ctx (Some example_request)
    [Some example_down; Some example_up; Some example_up] 0%Z _ _ eq_refl)))).
Defined.

Lemma call_one_keeps_error_grammar_witness :
  exists oc : Outcome.t, (CallOne example_ctx None (Some example_down) Minute (fun w => w) 7%Z).1 = oc
    /\ oc.(Outcome.Provider) = "down".
Proof.
  eexists. split; [reflexivity|].
  destruct (call_one_keeps_error_grammar example_ctx None example_down Minute (fun w => w)
    7%Z "down" eq_refl) as (c & r & w' & _ & _ & _ & Hp & _); [done|exact Hp].
Defined.

(** A provider that is down, two retries, no jitter. *)
Lemma retry_is_bounded_witness :
  exists r retried final w',
    retryLoop (fun w => w) (fun _ d w => (None, (w + d)%Z)) (fun _ => 0%Z)
      (retry_fuel {| PerAttempt := Second; MaxRetries := 2 |})
      {| PerAttempt := Second; MaxRetries := 2 |} example_ctx
      (fun c => example_down.(Generate) c None) 0 0%Z
    = Some (r, concat (map retried_events retried) ++ final, w')
    /\ (Z.of_nat (length retried) <= 2)%Z.
Proof.
  destruct (retry_is_bounded (fun w => w) (fun _ d w => (None, (w + d)%Z)) (fun _ => 0%Z)
    {| PerAttempt := Second; MaxRetries := 2 |} example_ctx
    (fun c => example_down.(Generate) c None) 0%Z) as (r & retried & final & w' & Hr & _ & Hn & _).
  - intros _. split; [reflexivity|]. reflexivity.
  - vm_compute. split; [discriminate|reflexivity].
  - exists r, retried, final, w'. split; [exact Hr|exact Hn].
Defined.

Lemma backoff_is_exact_witness :
  backoff_step 61 = MaxBackoffPerWait
  /\ (backoff (fun _ : Z => 2 ^ 53 - 1)%Z 3 0%Z < 1600 * Millisecond)%Z.
Proof.
  split; [reflexivity|].
  apply (backoff_is_exact (fun _ : Z => 2 ^ 53 - 1)%Z 3 0%Z); [lia|cbv beta; lia].
Defined.
