(* ===== verification/Policy.v ===== *)
(** * The policy engine

    [internal/policy]: the pre-dispatch selectors ([selector.go], [tools.go])
    and the post-dispatch reducers ([policy.go], [priority.go],
    [consensus.go]) over the outcomes of [Dispatch]. *)

From S2P Require Import Prelude Json Dispatch.
Local Open Scope korvun_scope.

(** ** Model selection *)

Definition Sensitivity := Z.
Definition Public : Sensitivity := 1%Z.
Definition Private : Sensitivity := 2%Z.

Definition Locality := Z.
Definition Local_ : Locality := 1%Z.
Definition Cloud : Locality := 2%Z.

Definition ErrNoEligibleModels : error := ErrorNew "policy: no eligible models".
Definition ErrUnknownSensitivity : error := ErrorNew "policy: unknown sensitivity".
Definition ErrUnknownLocality : error := ErrorNew "policy: unknown locality".
Definition ErrUnknownToolMode : error := ErrorNew "policy: unknown tool mode".
Definition ErrDuplicateToolGrant : error := ErrorNew "policy: duplicate tool grant".
Definition ErrInvalidToolGrant : error := ErrorNew "policy: invalid tool grant".

Module CatalogEntry.

Record t (M : Type) := {
  Model : option M;
  Locality : Locality
}.
Arguments Model {M} _.
Arguments Locality {M} _.

End CatalogEntry.

(** The [keep] predicate the sensitivity selects, or the loud failure. *)
Definition keep_for (s : Sensitivity) : result (Locality -> bool) :=
  if bool_decide (s = Public) then Ok (fun _ => true)
  else if bool_decide (s = Private) then Ok (fun l => bool_decide (l = Local_))
  else Err (ErrorWrap "unknown sensitivity" ErrUnknownSensitivity).

Definition SelectModels {M} (catalog : list (CatalogEntry.t M)) (s : Sensitivity)
    : result (list (option M)) :=
  let? keep := keep_for s in
  let selected :=
    fold_left (fun acc e => if keep e.(CatalogEntry.Locality)
                            then acc ++ [e.(CatalogEntry.Model)] else acc) catalog [] in
  if bool_decide (length selected = 0) then Err ErrNoEligibleModels else Ok selected.

(** ** Tool selection *)

Definition ToolMode := Z.
Definition ToolAllow : ToolMode := 1%Z.
Definition ToolShadow : ToolMode := 2%Z.
Definition ToolDeny : ToolMode := 3%Z.

Module ToolAttrs.

Record t := {
  Sensitive : bool;
  Network : bool
}.

Definition zero : t := {| Sensitive := false; Network := false |}.

End ToolAttrs.

Module ToolGrant.

Record t := {
  Name : string;
  Mode : ToolMode;
  Channels : list string
}.

End ToolGrant.

Definition ToolRule := string.
Definition ToolRuleNone : ToolRule := "".
Definition ToolRuleDenyGrant : ToolRule := "deny".
Definition ToolRuleNotGranted : ToolRule := "not_granted".
Definition ToolRuleChannel : ToolRule := "channel".
Definition ToolRuleSensitiveLocality : ToolRule := "sensitive_locality".

Module ToolDecision.

Record t := {
  Mode : ToolMode;
  Rule : ToolRule;
  Shield : bool
}.

End ToolDecision.

Module ToolQuery.

Record t := {
  Channel : string;
  Sensitivity : Sensitivity;
  Locality : Locality
}.

End ToolQuery.

Definition containsChannel (channels : list string) (channel : string) : bool :=
  existsb (fun c => bool_decide (c = channel)) channels.

Definition deny (rule : ToolRule) : ToolDecision.t :=
  {| ToolDecision.Mode := ToolDeny; ToolDecision.Rule := rule;
     ToolDecision.Shield := false |}.

Definition decideTool (g : ToolGrant.t) (a : ToolAttrs.t) (q : ToolQuery.t)
    : ToolDecision.t :=
  if bool_decide (g.(ToolGrant.Mode) = ToolDeny) then deny ToolRuleDenyGrant
  else if (0 <? Z.of_nat (length g.(ToolGrant.Channels)))%Z
          && negb (containsChannel g.(ToolGrant.Channels) q.(ToolQuery.Channel))
  then deny ToolRuleChannel
  else if a.(ToolAttrs.Sensitive) && bool_decide (q.(ToolQuery.Locality) = Cloud)
  then deny ToolRuleSensitiveLocality
  else {| ToolDecision.Mode := g.(ToolGrant.Mode); ToolDecision.Rule := ToolRuleNone;
          ToolDecision.Shield := a.(ToolAttrs.Network)
             && bool_decide (q.(ToolQuery.Sensitivity) = Private) |}.

(** The loop over the grants; the map keeps what was decided so far. *)
Fixpoint decide_grants (grants : list ToolGrant.t) (attrs : gmap string ToolAttrs.t)
    (q : ToolQuery.t) (decisions : gmap string ToolDecision.t)
    : result (gmap string ToolDecision.t) :=
  match grants with
  | [] => Ok decisions
  | g :: grants' =>
      let name := g.(ToolGrant.Name) in
      if bool_decide (name = "")
      then Err (ErrorWrap "empty tool name" ErrInvalidToolGrant)
      else if bool_decide (is_Some (decisions !! name))
      then Err (ErrorWrap name ErrDuplicateToolGrant)
      else if negb (bool_decide (g.(ToolGrant.Mode) = ToolAllow)
                    || bool_decide (g.(ToolGrant.Mode) = ToolShadow)
                    || bool_decide (g.(ToolGrant.Mode) = ToolDeny))
      then Err (ErrorWrap name ErrUnknownToolMode)
      else decide_grants grants' attrs q
             (<[name := decideTool g (default ToolAttrs.zero (attrs !! name)) q]> decisions)
  end.

(** The second loop ranges over the attributes map; each iteration touches its
    own key, so the map's iteration order does not matter. *)
Definition not_granted_rest (attrs : gmap string ToolAttrs.t)
    (decisions : gmap string ToolDecision.t) : gmap string ToolDecision.t :=
  map_fold (fun name _ acc =>
      match acc !! name with
      | Some _ => acc
      | None => <[name := deny ToolRuleNotGranted]> acc
      end) decisions attrs.

Definition SelectTools (grants : list ToolGrant.t) (attrs : gmap string ToolAttrs.t)
    (q : ToolQuery.t) : result (gmap string ToolDecision.t) :=
  if negb (bool_decide (q.(ToolQuery.Sensitivity) = Public)
           || bool_decide (q.(ToolQuery.Sensitivity) = Private))
  then Err (ErrorWrap "unknown sensitivity" ErrUnknownSensitivity)
  else if negb (bool_decide (q.(ToolQuery.Locality) = Local_)
                || bool_decide (q.(ToolQuery.Locality) = Cloud))
  then Err (ErrorWrap "unknown locality" ErrUnknownLocality)
  else
    let? decisions := decide_grants grants attrs q ∅ in
    Ok (not_granted_rest attrs decisions).

(** ** Reducers *)

Definition ErrNilResult : error := ErrorNew "policy: nil result".
Definition ErrNoUsableOutcome : error := ErrorNew "policy: no usable outcome".
Definition ErrNoConsensus : error := ErrorNew "policy: no consensus".

Module Contribution.

Record t := {
  Provider : string;
  Used : bool;
  Err : option error
}.

End Contribution.

Module ProviderCost.

Record t := {
  Provider : string;
  Latency : duration
}.

End ProviderCost.

Module Decision.

Record t := {
  Response : option Response.t;
  Considered : list Contribution.t;
  Accounting : list ProviderCost.t
}.

End Decision.

(** The test both reducers share: no error and a response. *)
Definition usable (oc : Outcome.t) : bool :=
  match oc.(Outcome.Err), oc.(Outcome.Response) with
  | None, Some _ => true
  | _, _ => false
  end.

Definition considered (ocs : list Outcome.t) : list Contribution.t :=
  map (fun oc => {| Contribution.Provider := oc.(Outcome.Provider);
                    Contribution.Used := false;
                    Contribution.Err := oc.(Outcome.Err) |}) ocs.

Definition accounting (ocs : list Outcome.t) : list ProviderCost.t :=
  map (fun oc => {| ProviderCost.Provider := oc.(Outcome.Provider);
                    ProviderCost.Latency := oc.(Outcome.Latency) |}) ocs.

(** [errors.Join] of the sentinel and every per-provider failure. *)
Definition no_usable_outcome (ocs : list Outcome.t) : error :=
  ErrorJoin (ErrNoUsableOutcome :: omap Outcome.Err ocs).

Definition mark_used (i : nat) (l : list Contribution.t) : list Contribution.t :=
  alter (fun c => {| Contribution.Provider := c.(Contribution.Provider);
                     Contribution.Used := true;
                     Contribution.Err := c.(Contribution.Err) |}) i l.

Fixpoint rankByOrder (order : list string) (provider : string) : nat :=
  match order with
  | [] => 0
  | name :: order' =>
      if bool_decide (name = provider) then 0 else S (rankByOrder order' provider)
  end.

(** [math.MaxInt]. *)
Definition MaxInt : Z := 9223372036854775807%Z.

(** The single pass of [PriorityReducer.Apply]: best index and best rank. *)
Fixpoint best_loop (order : list string) (ocs : list Outcome.t) (i : nat)
    (bestIdx : option nat) (bestRank : Z) : option nat :=
  match ocs with
  | [] => bestIdx
  | oc :: ocs' =>
      let rank := Z.of_nat (rankByOrder order oc.(Outcome.Provider)) in
      if usable oc && (rank <? bestRank)%Z
      then best_loop order ocs' (S i) (Some i) rank
      else best_loop order ocs' (S i) bestIdx bestRank
  end.

Definition PriorityApply (Order : list string) (r : option (list Outcome.t))
    : option Decision.t * option error :=
  match r with
  | None => (None, Some ErrNilResult)
  | Some ocs =>
      match best_loop Order ocs 0 None MaxInt with
      | None =>
          (Some {| Decision.Response := None; Decision.Considered := considered ocs;
                   Decision.Accounting := accounting ocs |},
           Some (no_usable_outcome ocs))
      | Some bestIdx =>
          (Some {| Decision.Response := ocs !! bestIdx ≫= Outcome.Response;
                   Decision.Considered := mark_used bestIdx (considered ocs);
                   Decision.Accounting := accounting ocs |},
           None)
      end
  end.

Definition content (oc : Outcome.t) : string :=
  match oc.(Outcome.Response) with
  | Some r => r.(Response.Message).(Message.Content)
  | None => ""
  end.

(** The vote loop: normalised class to the indices that voted it, in fan-out
    order, and the number of usable outcomes. *)
Fixpoint vote_loop (normalize : string -> string) (ocs : list Outcome.t) (i : nat)
    (votes : gmap string (list nat)) (n : nat) : gmap string (list nat) * nat :=
  match ocs with
  | [] => (votes, n)
  | oc :: ocs' =>
      if usable oc
      then let key := normalize (content oc) in
           vote_loop normalize ocs' (S i)
             (<[key := default [] (votes !! key) ++ [i]]> votes) (S n)
      else vote_loop normalize ocs' (S i) votes n
  end.

(** The winner search, over the classes in some iteration order. *)
Definition find_winners (classes : list (string * list nat)) (n : nat)
    : option (list nat) :=
  snd <$> List.find (fun p => (2 <=? length p.2) && (n <? length p.2 * 2)) classes.

(** The representative: best rank, then lowest index. *)
Fixpoint representative (order : list string) (ocs : list Outcome.t) (rest : list nat)
    (repIdx bestRank : nat) : nat :=
  match rest with
  | [] => repIdx
  | idx :: rest' =>
      let rank := rankByOrder order (default "" (Outcome.Provider <$> ocs !! idx)) in
      if (rank <? bestRank) then representative order ocs rest' idx rank
      else representative order ocs rest' repIdx bestRank
  end.

(** [iterate] is the runtime's map iteration order. *)
Definition ConsensusApply (iterate : gmap string (list nat) -> list (string * list nat))
    (Order : list string) (normalize : string -> string) (r : option (list Outcome.t))
    : option Decision.t * option error :=
  match r with
  | None => (None, Some ErrNilResult)
  | Some ocs =>
      let '(votes, n) := vote_loop normalize ocs 0 ∅ 0 in
      let undecided := {| Decision.Response := None; Decision.Considered := considered ocs;
                          Decision.Accounting := accounting ocs |} in
      if bool_decide (n = 0) then (Some undecided, Some (no_usable_outcome ocs))
      else match find_winners (iterate votes) n with
      | None | Some [] => (Some undecided, Some ErrNoConsensus)
      | Some (w0 :: ws) =>
          let bestRank := rankByOrder Order (default "" (Outcome.Provider <$> ocs !! w0)) in
          let repIdx := representative Order ocs ws w0 bestRank in
          (Some {| Decision.Response := ocs !! repIdx ≫= Outcome.Response;
                   Decision.Considered := foldr mark_used (considered ocs) (w0 :: ws);
                   Decision.Accounting := accounting ocs |},
           None)
      end
  end.

(** ** Model selection: theorems *)

Lemma select_fold {M} (keep : Locality -> bool) (catalog : list (CatalogEntry.t M)) acc :
  fold_left (fun acc e => if keep e.(CatalogEntry.Locality)
                          then acc ++ [e.(CatalogEntry.Model)] else acc) catalog acc
  = acc ++ (CatalogEntry.Model
            <$> filter (fun e => keep e.(CatalogEntry.Locality) = true) catalog).
Proof.
  revert acc. induction catalog as [|e l IH]; intros acc; simpl.
  { by rewrite app_nil_r. }
  rewrite IH, filter_cons. destruct (keep _); simpl; [|done]. by rewrite <- app_assoc.
Qed.

(** The selector is exact and fails loud.  A [Private] brain gets the
    models of the local entries and of no other, a [Public] one every model,
    both in catalog order; an undeclared sensitivity is the sensitivity error
    whatever the catalog; and a selection is refused as empty exactly when no
    entry of the catalog is permitted. *)
Theorem private_selects_local_only {M} (catalog : list (CatalogEntry.t M))
    (s : Sensitivity) :
  match SelectModels catalog s with
  | Ok ms =>
      ms <> []
      /\ ((s = Public /\ ms = CatalogEntry.Model <$> catalog)
          \/ (s = Private
              /\ ms = CatalogEntry.Model
                      <$> filter (fun e => e.(CatalogEntry.Locality) = Local_) catalog))
  | Err e =>
      (error_is "policy: unknown sensitivity" e = true /\ s <> Public /\ s <> Private)
      \/ (e = ErrNoEligibleModels
          /\ ((s = Public /\ catalog = [])
              \/ (s = Private
                  /\ Forall (fun e => e.(CatalogEntry.Locality) <> Local_) catalog)))
  end.
Proof.
  unfold SelectModels. destruct (keep_for s) as [keep|e] eqn:Ek;
    [rewrite select_fold, app_nil_l; cbv zeta|]; revert Ek; unfold keep_for;
    (destruct (decide (s = Public)) as [->|];
      [|destruct (decide (s = Private)) as [->|]; [|rewrite !bool_decide_eq_false_2 by done]]);
    simpl; intros Ek; simplify_eq.
  - rewrite (filter_all (fun _ => true = true) catalog) by (by induction catalog; constructor).
    destruct catalog as [|x l]; simpl; [by auto|].
    split; [done|]. by left.
  - rewrite (list_filter_iff (fun x => bool_decide (x.(CatalogEntry.Locality) = Local_) = true)
       (fun x => x.(CatalogEntry.Locality) = Local_)) by (intros; apply bool_decide_eq_true).
    case_bool_decide as Hl.
    + right. split; [done|]. right. split; [done|].
      rewrite length_fmap in Hl. apply length_zero_iff_nil in Hl.
      apply Forall_forall. intros x Hx Hloc.
      assert (x ∈ filter (fun e => e.(CatalogEntry.Locality) = Local_) catalog)
        as Hin by (by apply list_elem_of_filter). rewrite Hl in Hin. set_solver.
    + split; [by intros Hn; rewrite Hn in Hl|]. auto.
  - left. done.
Qed.

(** ** Tool selection: theorems *)

Definition valid_mode (m : ToolMode) : Prop := m = ToolAllow \/ m = ToolShadow \/ m = ToolDeny.

Definition valid_grants (grants : list ToolGrant.t) : Prop :=
  NoDup (ToolGrant.Name <$> grants)
  /\ Forall (fun g => g.(ToolGrant.Name) <> "" /\ valid_mode g.(ToolGrant.Mode)) grants.

Definition valid_query (q : ToolQuery.t) : Prop :=
  (q.(ToolQuery.Sensitivity) = Public \/ q.(ToolQuery.Sensitivity) = Private)
  /\ (q.(ToolQuery.Locality) = Local_ \/ q.(ToolQuery.Locality) = Cloud).

Definition grant_decision (attrs : gmap string ToolAttrs.t) (q : ToolQuery.t)
    (g : ToolGrant.t) : string * ToolDecision.t :=
  (g.(ToolGrant.Name),
   decideTool g (default ToolAttrs.zero (attrs !! g.(ToolGrant.Name))) q).

Lemma mode_guard (m : ToolMode) :
  negb (bool_decide (m = ToolAllow) || bool_decide (m = ToolShadow)
        || bool_decide (m = ToolDeny)) = false <-> valid_mode m.
Proof.
  unfold valid_mode. rewrite negb_false_iff, !orb_true_iff, !bool_decide_eq_true. tauto.
Qed.

Lemma decide_grants_Ok grants attrs q d0 d :
  decide_grants grants attrs q d0 = Ok d <->
  (valid_grants grants /\ Forall (fun g => d0 !! g.(ToolGrant.Name) = None) grants)
  /\ d = list_to_map (grant_decision attrs q <$> grants) ∪ d0.
Proof.
  revert d0. unfold valid_grants. induction grants as [|g gs IH]; intros d0; simpl.
  { rewrite (left_id_L ∅ (∪)). split; [intros [= ->]|]; [split_and!; constructor|].
    intros [_ ->]. done. }
  rewrite NoDup_cons, !Forall_cons. case_bool_decide as Hn; [split; [done|tauto]|].
  case_bool_decide as Hd.
  { split; [done|]. intros [[_ [Hnone _]] _]. rewrite Hnone in Hd. by destruct Hd. }
  apply eq_None_not_Some in Hd. destruct (negb _) eqn:Em.
  { split; [done|]. intros [[[_ [[_ Hm] _]] _] _]. apply mode_guard in Hm. congruence. }
  apply mode_guard in Em. rewrite IH.
  assert (forall n, <[g.(ToolGrant.Name) := decideTool g
      (default ToolAttrs.zero (attrs !! g.(ToolGrant.Name))) q]> d0 !! n = None
      <-> g.(ToolGrant.Name) <> n /\ d0 !! n = None) as Hins
    by (intros; rewrite lookup_insert_None; tauto).
  setoid_rewrite Hins. rewrite !Forall_and.
  assert (Forall (fun g0 => g.(ToolGrant.Name) <> g0.(ToolGrant.Name)) gs
          <-> g.(ToolGrant.Name) ∉ (ToolGrant.Name <$> gs)) as Hfresh.
  { rewrite Forall_forall, list_elem_of_fmap. naive_solver. }
  rewrite Hfresh.
  assert (forall d', g.(ToolGrant.Name) ∉ (ToolGrant.Name <$> gs) ->
    d' = list_to_map (grant_decision attrs q <$> gs)
         ∪ <[g.(ToolGrant.Name) := decideTool g
               (default ToolAttrs.zero (attrs !! g.(ToolGrant.Name))) q]> d0
    <-> d' = <[g.(ToolGrant.Name) := decideTool g
               (default ToolAttrs.zero (attrs !! g.(ToolGrant.Name))) q]>
             (list_to_map (grant_decision attrs q <$> gs)) ∪ d0) as Hmap.
  { intros d' Hn'. rewrite <- insert_union_l, insert_union_r; [done|].
    apply not_elem_of_list_to_map_1. by rewrite <- list_fmap_compose. }
  split; intros [H1 H2]; (split; [tauto|]); apply Hmap; tauto.
Qed.

(** What the second loop gives a name: nothing new unless only declared. *)
Definition declared_only (attrs : gmap string ToolAttrs.t) (n : string)
    : option ToolDecision.t :=
  (fun _ => deny ToolRuleNotGranted) <$> attrs !! n.

Lemma not_granted_rest_lookup attrs decisions n :
  not_granted_rest attrs decisions !! n =
    match decisions !! n with Some d => Some d | None => declared_only attrs n end.
Proof.
  unfold not_granted_rest, declared_only. revert n.
  apply (map_fold_weak_ind (fun r m => forall n, r !! n =
    match decisions !! n with
    | Some d => Some d
    | None => (fun _ => deny ToolRuleNotGranted) <$> m !! n
    end)).
  - intros n. rewrite lookup_empty. by destruct (decisions !! n).
  - intros i x m r Hi IH n. destruct (r !! i) as [d|] eqn:Er;
      (destruct (decide (i = n)) as [->|Hne];
        [|by rewrite ?lookup_insert_ne by done]); rewrite !lookup_insert_eq || idtac.
    + rewrite IH. rewrite IH, Hi in Er. destruct (decisions !! n); [done|]. done.
    + rewrite IH in Er. by destruct (decisions !! n).
Qed.

(** The decision of one name, read off the configuration directly. *)
Definition tool_decision (grants : list ToolGrant.t) (attrs : gmap string ToolAttrs.t)
    (q : ToolQuery.t) (n : string) : option ToolDecision.t :=
  match List.find (fun g => bool_decide (g.(ToolGrant.Name) = n)) grants with
  | Some g => Some (decideTool g (default ToolAttrs.zero (attrs !! n)) q)
  | None => declared_only attrs n
  end.

Lemma grant_decisions_lookup attrs q grants n :
  (list_to_map (grant_decision attrs q <$> grants) : gmap string ToolDecision.t) !! n
  = (fun g => decideTool g (default ToolAttrs.zero (attrs !! n)) q)
      <$> List.find (fun g => bool_decide (g.(ToolGrant.Name) = n)) grants.
Proof.
  induction grants as [|g gs IH]; simpl; [apply lookup_empty|].
  rewrite lookup_insert. case_decide; subst; [by rewrite bool_decide_eq_true_2|].
  by rewrite bool_decide_eq_false_2.
Qed.

Lemma query_guards (q : ToolQuery.t) :
  (negb (bool_decide (q.(ToolQuery.Sensitivity) = Public)
         || bool_decide (q.(ToolQuery.Sensitivity) = Private)) = false
   /\ negb (bool_decide (q.(ToolQuery.Locality) = Local_)
         || bool_decide (q.(ToolQuery.Locality) = Cloud)) = false) <-> valid_query q.
Proof.
  unfold valid_query. rewrite !negb_false_iff, !orb_true_iff, !bool_decide_eq_true. tauto.
Qed.

Lemma SelectTools_Ok grants attrs q d :
  SelectTools grants attrs q = Ok d <->
  valid_query q /\ valid_grants grants
  /\ forall n, d !! n = tool_decision grants attrs q n.
Proof.
  unfold SelectTools. pose proof (query_guards q) as Hq.
  destruct (negb (bool_decide (_ = Public) || _)); [naive_solver|].
  destruct (negb (bool_decide (_ = Local_) || _)); [naive_solver|].
  assert (forall d0 n, d0 = list_to_map (grant_decision attrs q <$> grants) ∪ ∅ ->
    not_granted_rest attrs d0 !! n = tool_decision grants attrs q n) as Hn.
  { intros d0 n ->. rewrite (right_id_L ∅ (∪)), not_granted_rest_lookup,
      grant_decisions_lookup. unfold tool_decision. by destruct (List.find _ _). }
  destruct (decide_grants grants attrs q ∅) as [d0|e] eqn:E.
  - apply decide_grants_Ok in E as [[Hv _] Hd0]. split.
    + intros [= <-]. split_and!; [tauto|done|]. intros n. by apply Hn.
    + intros (_ & _ & Hd). f_equal. apply map_eq. intros n. rewrite Hd. by apply Hn.
  - split; [done|]. intros (_ & Hv & _).
    assert (decide_grants grants attrs q ∅
      = Ok (list_to_map (grant_decision attrs q <$> grants) ∪ ∅)) as Hok; [|congruence].
    apply decide_grants_Ok. split_and!; try apply Hv; [|done].
    apply Forall_forall. intros. apply lookup_empty.
Qed.

Lemma find_perm grants grants' n :
  NoDup (ToolGrant.Name <$> grants) -> grants ≡ₚ grants' ->
  List.find (fun g => bool_decide (g.(ToolGrant.Name) = n)) grants
  = List.find (fun g => bool_decide (g.(ToolGrant.Name) = n)) grants'.
Proof.
  intros Hnd Hp. induction Hp as [|g l k _ IH|g1 g2 l|l k m Hlk IH1 Hkm IH2]; simpl.
  - done.
  - case_bool_decide; [done|]. apply IH. by inversion Hnd.
  - repeat case_bool_decide; try done. simpl in Hnd. inversion Hnd; subst. set_solver.
  - rewrite IH1 by done. apply IH2. by rewrite <- Hlk.
Qed.

(** [SelectTools] succeeds exactly on a declared query and on grants
    that are named, unique and of a known mode; then the map decides the union
    of the granted and the declared tools, each from its own grant and
    attributes only.  The order of the grants in the configuration is
    irrelevant. *)
Theorem select_tools_is_total_and_ordered_out (grants grants' : list ToolGrant.t)
    (attrs : gmap string ToolAttrs.t) (q : ToolQuery.t) :
  (forall d, SelectTools grants attrs q = Ok d <->
     valid_query q /\ valid_grants grants
     /\ forall n, d !! n = tool_decision grants attrs q n)
  /\ (valid_query q -> valid_grants grants -> exists d, SelectTools grants attrs q = Ok d)
  /\ (grants ≡ₚ grants' -> forall d,
       SelectTools grants attrs q = Ok d -> SelectTools grants' attrs q = Ok d).
Proof.
  split; [intros; apply SelectTools_Ok|]. split.
  - intros Hq Hv.
    exists (not_granted_rest attrs (list_to_map (grant_decision attrs q <$> grants) ∪ ∅)).
    apply SelectTools_Ok. split_and!; [done|done|]. intros n.
    rewrite (right_id_L ∅ (∪)), not_granted_rest_lookup, grant_decisions_lookup.
    unfold tool_decision. by destruct (List.find _ _).
  - intros Hp d. rewrite !SelectTools_Ok. intros (Hq & Hv & Hd).
    split_and!; [done|split|]; try (rewrite <- Hp; apply Hv).
    intros n. rewrite Hd. unfold tool_decision. by rewrite (find_perm _ _ n (proj1 Hv) Hp).
Qed.

(** C25.  The gate restricts and never widens.  A tool that may execute has a
    grant for exactly that mode, whose channel list is empty or names the
    message's channel, and is not a sensitive tool on a cloud model; every
    other tool is denied with a rule that says why; and on a private brain every
    network tool the model may see carries the network shield. *)
Theorem tool_gate_never_widens (grants : list ToolGrant.t)
    (attrs : gmap string ToolAttrs.t) (q : ToolQuery.t)
    (d : gmap string ToolDecision.t) (n : string) (dec : ToolDecision.t) :
  SelectTools grants attrs q = Ok d -> d !! n = Some dec ->
  let a := default ToolAttrs.zero (attrs !! n) in
  (dec.(ToolDecision.Mode) = ToolDeny /\ dec.(ToolDecision.Rule) <> ToolRuleNone
   /\ dec.(ToolDecision.Shield) = false)
  \/ (exists g, g ∈ grants /\ g.(ToolGrant.Name) = n
      /\ dec.(ToolDecision.Mode) = g.(ToolGrant.Mode)
      /\ g.(ToolGrant.Mode) <> ToolDeny /\ dec.(ToolDecision.Rule) = ToolRuleNone
      /\ (g.(ToolGrant.Channels) = [] \/ q.(ToolQuery.Channel) ∈ g.(ToolGrant.Channels))
      /\ (a.(ToolAttrs.Sensitive) = true -> q.(ToolQuery.Locality) = Local_)
      /\ (dec.(ToolDecision.Shield) = true <->
          a.(ToolAttrs.Network) = true /\ q.(ToolQuery.Sensitivity) = Private)).
Proof.
  intros Hs Hn. apply SelectTools_Ok in Hs as (Hq & _ & Hd). rewrite Hd in Hn.
  unfold tool_decision in Hn. intros a. fold a in Hn.
  destruct (List.find _ grants) as [g|] eqn:Hf; [|unfold declared_only in Hn; apply fmap_Some in Hn as (? & _ & ->); by left].
  apply List.find_some in Hf as [Hin Hname]. bools. apply list_elem_of_In in Hin.
  injection Hn as <-. unfold decideTool.
  case_bool_decide; [by left|]. destruct (_ && negb _) eqn:Ec; [by left|].
  destruct (a.(ToolAttrs.Sensitive) && _) eqn:Es; [by left|]. right.
  exists g. simpl. split_and!; try done.
  - bools. destruct Ec as [Ec|Ec]; bools.
    + left. destruct (ToolGrant.Channels g); [done|]. simpl in Ec. lia.
    + right. unfold containsChannel in Ec. apply existsb_exists in Ec as (c & Hc & ?).
      bools. subst. by apply list_elem_of_In.
  - intros Hsens. rewrite Hsens in Es. simpl in Es. bools.
    destruct Hq as [_ [?|?]]; done.
  - rewrite andb_true_iff, bool_decide_eq_true. done.
Qed.

(** ** Priority: theorems *)

(** [i] is the choice the priority rule makes among [ocs]: usable, of best
    rank, and the first of its rank. *)
Definition best_choice (Order : list string) (ocs : list Outcome.t) (i : nat) : Prop :=
  exists oc, ocs !! i = Some oc /\ usable oc = true
    /\ forall j oc', ocs !! j = Some oc' -> usable oc' = true ->
       rankByOrder Order oc.(Outcome.Provider) < rankByOrder Order oc'.(Outcome.Provider)
       \/ (rankByOrder Order oc.(Outcome.Provider) = rankByOrder Order oc'.(Outcome.Provider)
           /\ i <= j).

Definition best_so_far (Order : list string) (pre : list Outcome.t) (b : option nat)
    (rank : Z) : Prop :=
  match b with
  | None => rank = MaxInt /\ Forall (fun oc => usable oc = false) pre
  | Some i => best_choice Order pre i
      /\ exists oc, pre !! i = Some oc
         /\ rank = Z.of_nat (rankByOrder Order oc.(Outcome.Provider))
  end.

Lemma rankByOrder_le order p : rankByOrder order p <= length order.
Proof. induction order; simpl; [lia|]. case_bool_decide; lia. Qed.

Lemma best_so_far_skip Order pre oc b rank :
  best_so_far Order pre b rank -> usable oc = false ->
  best_so_far Order (pre ++ [oc]) b rank.
Proof.
  destruct b as [i|]; simpl.
  - intros [(o & Hi & Hu & Hmin) (o' & Hi' & Hr)] Hoc.
    assert (i < length pre) by eauto using lookup_lt_Some. split.
    + exists o. rewrite lookup_app_l by done. split_and!; [done|done|].
      intros j oc' [Hj|[_ Hj]]%lookup_app_Some Hu'; [by apply Hmin|].
      apply list_lookup_singleton_Some in Hj as [_ <-]. congruence.
    + exists o'. by rewrite lookup_app_l.
  - intros [? ?] ?. rewrite Forall_app, Forall_singleton. done.
Qed.

Lemma best_so_far_keep Order pre oc i rank :
  best_so_far Order pre (Some i) rank ->
  (rank <= Z.of_nat (rankByOrder Order oc.(Outcome.Provider)))%Z ->
  best_so_far Order (pre ++ [oc]) (Some i) rank.
Proof.
  intros [(o & Hi & Hu & Hmin) (o' & Hi' & ->)] Hle. simplify_eq.
  assert (i < length pre) by eauto using lookup_lt_Some. split.
  - exists o. rewrite lookup_app_l by done. split_and!; [done|done|].
    intros j oc' [Hj|[Hlen Hj]]%lookup_app_Some Hu'; [by apply Hmin|].
    apply list_lookup_singleton_Some in Hj as [? <-]. lia.
  - exists o. by rewrite lookup_app_l.
Qed.

Lemma best_so_far_take Order pre oc b rank :
  best_so_far Order pre b rank -> usable oc = true ->
  (Z.of_nat (rankByOrder Order oc.(Outcome.Provider)) < rank)%Z ->
  best_so_far Order (pre ++ [oc]) (Some (length pre))
    (Z.of_nat (rankByOrder Order oc.(Outcome.Provider))).
Proof.
  intros Hb Hu Hlt. split; exists oc; rewrite list_lookup_middle by done; split_and!; try done.
  intros j oc' [Hj|[Hlen Hj]]%lookup_app_Some Hu'.
  - left. destruct b as [i|]; simpl in Hb.
    + destruct Hb as [(o & Hi & _ & Hmin) (o' & Hi' & ->)]. simplify_eq.
      specialize (Hmin _ _ Hj Hu'). lia.
    + destruct Hb as [_ Hb]. rewrite Forall_lookup in Hb. apply Hb in Hj. congruence.
  - apply list_lookup_singleton_Some in Hj as [? <-]. right. lia.
Qed.

Lemma best_loop_spec Order pre rest b rank :
  (Z.of_nat (length Order) < MaxInt)%Z -> best_so_far Order pre b rank ->
  exists rank', best_so_far Order (pre ++ rest)
                  (best_loop Order rest (length pre) b rank) rank'.
Proof.
  intros Hlen. revert pre b rank. induction rest as [|oc rest IH]; intros pre b rank Hb; simpl.
  { rewrite app_nil_r. eauto. }
  rewrite cons_middle, app_assoc. destruct (usable oc) eqn:Eu; simpl.
  - destruct (_ <? rank)%Z eqn:El; bools.
    + rewrite <- (last_length pre oc). eapply IH, best_so_far_take; eauto.
    + rewrite <- (last_length pre oc). eapply IH. destruct b as [i|].
      * by eapply best_so_far_keep.
      * pose proof (rankByOrder_le Order oc.(Outcome.Provider)).
        destruct Hb as [-> _]. lia.
  - rewrite <- (last_length pre oc). eapply IH, best_so_far_skip; eauto.
Qed.

Lemma error_is_join target e es :
  e ∈ es -> error_is target e = true -> error_is target (ErrorJoin es) = true.
Proof. intros Hin He. simpl. apply existsb_exists. exists e. by rewrite <- list_elem_of_In. Qed.

(** The joined error keeps the sentinel and every upstream sentinel. *)
Lemma no_usable_outcome_is ocs :
  error_is "policy: no usable outcome" (no_usable_outcome ocs) = true
  /\ forall oc e target, oc ∈ ocs -> oc.(Outcome.Err) = Some e ->
     error_is target e = true -> error_is target (no_usable_outcome ocs) = true.
Proof.
  split; [reflexivity|]. intros oc e target Hin He Ht.
  apply (error_is_join _ e); [|done]. right. apply list_elem_of_omap. eauto.
Qed.

Lemma mark_used_lookup i l k :
  Contribution.Used <$> mark_used i l !! k
  = (fun c => bool_decide (k = i) || c.(Contribution.Used)) <$> l !! k.
Proof.
  unfold mark_used. destruct (decide (k = i)) as [->|].
  - rewrite list_lookup_alter, decide_True by done. rewrite bool_decide_eq_true_2 by done.
    by destruct (l !! i).
  - rewrite list_lookup_alter_ne by done. rewrite bool_decide_eq_false_2 by done. done.
Qed.

(** Priority reduction answers whenever some outcome is usable: the
    response is the one of the best-ranked usable outcome, the first of its
    rank, and exactly that outcome is marked used.  Otherwise there is no
    response and the error matches both the policy's sentinel and every
    provider's own error. *)
Theorem priority_picks_the_best_usable (Order : list string) (ocs : list Outcome.t) :
  (Z.of_nat (length Order) < MaxInt)%Z ->
  exists dec err, PriorityApply Order (Some ocs) = (Some dec, err)
  /\ dec.(Decision.Accounting) = accounting ocs
  /\ match err with
     | None => exists i, best_choice Order ocs i
         /\ dec.(Decision.Response) = ocs !! i ≫= Outcome.Response
         /\ forall k, Contribution.Used <$> dec.(Decision.Considered) !! k
              = (fun _ => bool_decide (k = i)) <$> ocs !! k
     | Some e => Forall (fun oc => usable oc = false) ocs
         /\ dec.(Decision.Response) = None
         /\ error_is "policy: no usable outcome" e = true
         /\ forall oc e' target, oc ∈ ocs -> oc.(Outcome.Err) = Some e' ->
            error_is target e' = true -> error_is target e = true
     end.
Proof.
  intros Hlen. unfold PriorityApply.
  destruct (best_loop_spec Order [] ocs None MaxInt Hlen) as [rank Hb]; [split; [done|constructor]|].
  simpl in Hb. destruct (best_loop Order ocs 0 None MaxInt) as [i|] eqn:Eb.
  - eexists _, None. split_and!; [done|done|]. exists i. split; [apply Hb|]. split; [done|].
    intros k. simpl. rewrite mark_used_lookup. unfold considered.
    rewrite list_lookup_fmap. destruct (ocs !! k); simpl; [|done]. by rewrite orb_false_r.
  - eexists _, (Some _). split_and!; [done|done|apply Hb|done|apply no_usable_outcome_is..].
Qed.

(** ** Consensus: theorems *)

Section Consensus.
Context (normalize : string -> string) (Order : list string).

(** The outcomes that voted for [key], by increasing index from [i]. *)
Fixpoint members (key : string) (ocs : list Outcome.t) (i : nat) : list nat :=
  match ocs with
  | [] => []
  | oc :: ocs' =>
      if usable oc && bool_decide (normalize (content oc) = key)
      then i :: members key ocs' (S i) else members key ocs' (S i)
  end.

Fixpoint count_usable (ocs : list Outcome.t) : nat :=
  match ocs with
  | [] => 0
  | oc :: ocs' => if usable oc then S (count_usable ocs') else count_usable ocs'
  end.

(** The consensus threshold: at least two votes and a strict majority. *)
Definition majority (ocs : list Outcome.t) (key : string) : Prop :=
  2 <= length (members key ocs 0) /\ count_usable ocs < length (members key ocs 0) * 2.

Definition rank_of (ocs : list Outcome.t) (i : nat) : nat :=
  rankByOrder Order (default "" (Outcome.Provider <$> ocs !! i)).

Lemma vote_loop_spec ocs i votes n :
  let r := vote_loop normalize ocs i votes n in
  r.2 = n + count_usable ocs
  /\ forall key, default [] (r.1 !! key) = default [] (votes !! key) ++ members key ocs i.
Proof.
  revert i votes n. induction ocs as [|oc ocs IH]; intros i votes n; simpl.
  { split; [lia|]. intros. by rewrite app_nil_r. }
  destruct (usable oc); simpl; [|apply IH].
  destruct (IH (S i) (<[normalize (content oc) :=
    default [] (votes !! normalize (content oc)) ++ [i]]> votes) (S n)) as [H1 H2].
  split; [lia|]. intros key. rewrite H2, lookup_insert.
  destruct (decide (normalize (content oc) = key)) as [->|Hne].
  - rewrite bool_decide_eq_true_2 by done. simpl. by rewrite <- app_assoc.
  - by rewrite bool_decide_eq_false_2.
Qed.

(** Two classes cannot share a vote. *)
Lemma members_disjoint key1 key2 ocs i :
  key1 <> key2 ->
  length (members key1 ocs i) + length (members key2 ocs i) <= count_usable ocs.
Proof.
  intros Hne. revert i. induction ocs as [|oc ocs IH]; intros i; simpl; [lia|].
  specialize (IH (S i)). destruct (usable oc); simpl; [|lia].
  repeat case_bool_decide; simpl; try lia. congruence.
Qed.

Lemma majority_unique ocs key1 key2 :
  majority ocs key1 -> majority ocs key2 -> key1 = key2.
Proof.
  intros [_ H1] [_ H2]. destruct (decide (key1 = key2)) as [|Hne]; [done|].
  pose proof (members_disjoint _ _ ocs 0 Hne). lia.
Qed.

Lemma members_elem key ocs i k :
  k ∈ members key ocs i <->
  exists oc, i <= k /\ ocs !! (k - i) = Some oc /\ usable oc = true
             /\ normalize (content oc) = key.
Proof.
  revert i. induction ocs as [|oc ocs IH]; intros i; simpl.
  { rewrite lookup_nil. set_solver. }
  assert (k ∈ members key ocs (S i) <-> exists oc', i < k /\ (oc :: ocs) !! (k - i) = Some oc'
     /\ usable oc' = true /\ normalize (content oc') = key) as IH'.
  { rewrite IH. split; intros (oc' & ? & Hl & ?); exists oc'; (split; [lia|]);
      replace (k - i) with (S (k - S i)) in * by lia; done. }
  destruct (usable oc && _) eqn:E.
  - rewrite elem_of_cons, IH'. apply andb_true_iff in E as [? E%bool_decide_eq_true].
    split.
    + intros [->|(oc' & ? & ?)]; [|exists oc'; auto with lia].
      exists oc. rewrite Nat.sub_diag. auto.
    + intros (oc' & Hle & ?). destruct (decide (k = i)); [by left|right].
      exists oc'. auto with lia.
  - rewrite IH'. split; intros (oc' & Hle & Hl & Hu & Hk); exists oc'; split_and!; try done; [lia|].
    destruct (decide (k = i)) as [->|]; [|lia]. rewrite Nat.sub_diag in Hl.
    simplify_eq/=. by rewrite Hu, bool_decide_eq_true_2 in E.
Qed.

Lemma members_sorted key ocs i : StronglySorted lt (members key ocs i).
Proof.
  revert i. induction ocs as [|oc ocs IH]; intros i; simpl; [constructor|].
  case_match; [|done]. constructor; [done|]. apply Forall_forall. intros k Hk.
  apply members_elem in Hk as (? & ? & _). lia.
Qed.

Lemma representative_spec ocs rest rep :
  StronglySorted lt (rep :: rest) ->
  let r := representative Order ocs rest rep (rank_of ocs rep) in
  r ∈ rep :: rest
  /\ forall j, j ∈ rep :: rest ->
     rank_of ocs r < rank_of ocs j \/ (rank_of ocs r = rank_of ocs j /\ r <= j).
Proof.
  revert rep. induction rest as [|idx rest IH]; intros rep Hs; simpl.
  { split; [set_solver|]. intros j ->%list_elem_of_singleton. lia. }
  apply StronglySorted_inv in Hs as [Hs Hall]. apply Forall_cons in Hall as [Hlt Hall].
  fold (rank_of ocs idx). destruct (rank_of ocs idx <? rank_of ocs rep) eqn:E.
  - apply Nat.ltb_lt in E. destruct (IH idx Hs) as [Hin Hmin]. split; [set_solver|].
    intros j [->|Hj]%elem_of_cons; [|by apply Hmin].
    destruct (Hmin idx ltac:(set_solver)); lia.
  - apply Nat.ltb_ge in E. apply StronglySorted_inv in Hs as [Hs Hall2].
    destruct (IH rep) as [Hin Hmin]; [by constructor|]. split; [set_solver|].
    intros j [->|[->|Hj]%elem_of_cons]%elem_of_cons.
    + apply Hmin. by left.
    + destruct (Hmin rep ltac:(by left)); lia.
    + apply Hmin. by right.
Qed.

Lemma find_winners_spec iterate ocs votes n :
  (iterate votes ≡ₚ map_to_list votes) -> vote_loop normalize ocs 0 ∅ 0 = (votes, n) ->
  match find_winners (iterate votes) n with
  | Some l => exists key, l = members key ocs 0 /\ majority ocs key
  | None => forall key, ~ majority ocs key
  end.
Proof.
  intros Hp Hv. pose proof (vote_loop_spec ocs 0 ∅ 0) as Hs. rewrite Hv in Hs.
  simpl in Hs. destruct Hs as [-> Hm].
  assert (forall key, default [] (votes !! key) = members key ocs 0) as Hmem.
  { intros key. by rewrite Hm, lookup_empty. }
  unfold find_winners. destruct (List.find _ _) as [[key l]|] eqn:Ef; simpl.
  - apply List.find_some in Ef as [Hin Hb]. apply list_elem_of_In in Hin.
    rewrite Hp in Hin. apply elem_of_map_to_list in Hin.
    specialize (Hmem key). rewrite Hin in Hmem. cbn [snd] in *.
    change (l = members key ocs 0) in Hmem. subst l.
    apply andb_true_iff in Hb as [H1%Nat.leb_le H2%Nat.ltb_lt].
    exists key. done.
  - intros key [H1 H2]. destruct (votes !! key) as [l|] eqn:El.
    + assert ((key, l) ∈ iterate votes) as Hin by (by rewrite Hp, elem_of_map_to_list).
      apply list_elem_of_In, (List.find_none _ _ Ef) in Hin. cbn [snd] in Hin.
      specialize (Hmem key). rewrite El in Hmem. change (l = members key ocs 0) in Hmem. subst l.
      apply andb_false_iff in Hin as [?%Nat.leb_gt|?%Nat.ltb_ge]; lia.
    + specialize (Hmem key). rewrite El in Hmem. simpl in Hmem. rewrite <- Hmem in H1.
      simpl in H1. lia.
Qed.

Lemma foldr_mark_used l cs k :
  Contribution.Used <$> foldr mark_used cs l !! k
  = (fun c => bool_decide (k ∈ l) || c.(Contribution.Used)) <$> cs !! k.
Proof.
  induction l as [|i l IH]; simpl.
  { by destruct (cs !! k). }
  rewrite mark_used_lookup.
  assert (forall (o o' : option Contribution.t) b b', 
    Contribution.Used <$> o = (fun c => b || c.(Contribution.Used)) <$> o' ->
    (fun c => b' || c.(Contribution.Used)) <$> o
    = (fun c => (b' || b) || c.(Contribution.Used)) <$> o') as Hm.
  { intros [c|] [c'|] b b'; simpl; intros; simplify_eq; [|done]. f_equal.
    by rewrite <- orb_assoc; congruence. }
  rewrite (Hm _ _ _ _ IH). destruct (cs !! k); simpl; [|done]. do 2 f_equal.
  rewrite <- bool_decide_or. apply bool_decide_ext. by rewrite elem_of_cons.
Qed.

Lemma count_usable_zero ocs : count_usable ocs = 0 <-> Forall (fun oc => usable oc = false) ocs.
Proof.
  induction ocs as [|oc ocs IH]; simpl; [done|]. rewrite Forall_cons.
  destruct (usable oc); naive_solver.
Qed.

(** Consensus, for every iteration order of the vote map.  A response is
    given exactly when some class holds at least two votes and a strict majority
    of the usable outcomes; that class is unique, the response is its
    best-ranked member's (lowest index on a tie), and exactly the class members
    are marked used.  With usable but disagreeing outcomes the error is the bare
    [ErrNoConsensus]; with none usable it is [ErrNoUsableOutcome]. *)
Theorem consensus_is_the_unique_majority
    (iterate : gmap string (list nat) -> list (string * list nat)) (ocs : list Outcome.t) :
  (forall m, iterate m ≡ₚ map_to_list m) ->
  exists dec err, ConsensusApply iterate Order normalize (Some ocs) = (Some dec, err)
  /\ match err with
     | None => exists key rep, majority ocs key
         /\ (forall key', majority ocs key' -> key' = key)
         /\ rep ∈ members key ocs 0
         /\ (forall j, j ∈ members key ocs 0 ->
              rank_of ocs rep < rank_of ocs j
              \/ (rank_of ocs rep = rank_of ocs j /\ rep <= j))
         /\ dec.(Decision.Response) = ocs !! rep ≫= Outcome.Response
         /\ forall k, Contribution.Used <$> dec.(Decision.Considered) !! k
              = (fun _ => bool_decide (k ∈ members key ocs 0)) <$> ocs !! k
     | Some e => dec.(Decision.Response) = None /\ (forall key, ~ majority ocs key)
         /\ ((count_usable ocs = 0 /\ error_is "policy: no usable outcome" e = true)
             \/ (count_usable ocs <> 0 /\ e = ErrNoConsensus))
     end.
Proof.
  intros Hit. unfold ConsensusApply.
  destruct (vote_loop normalize ocs 0 ∅ 0) as [votes n] eqn:Ev.
  pose proof (find_winners_spec iterate ocs votes n (Hit votes) Ev) as Hw.
  pose proof (vote_loop_spec ocs 0 ∅ 0) as [Hn _]. rewrite Ev in Hn. simpl in Hn. subst n.
  case_bool_decide as Hz.
  { eexists _, (Some _). split; [done|]. split_and!; [done| |by left].
    intros key [H1 H2]. destruct (decide (members key ocs 0 = [])) as [He|Hne].
    - rewrite He in H1. simpl in H1. lia.
    - destruct (members key ocs 0) as [|k l] eqn:Em; [done|].
      assert (k ∈ members key ocs 0) as Hk by (rewrite Em; left).
      apply members_elem in Hk as (oc & _ & Hl & Hu & _).
      apply count_usable_zero in Hz. rewrite Forall_lookup in Hz.
      apply Hz in Hl. congruence. }
  destruct (find_winners _ _) as [[|w0 ws]|].
  - destruct Hw as (key & He & [H1 _]). rewrite <- He in H1. simpl in H1. lia.
  - destruct Hw as (key & He & Hmaj). fold (rank_of ocs w0).
    destruct (representative_spec ocs ws w0) as [Hin Hmin];
      [rewrite He; apply members_sorted|].
    eexists _, None. split; [done|]. exists key, (representative Order ocs ws w0 (rank_of ocs w0)).
    rewrite <- He. split_and!; try done.
    + intros key' Hk. by apply (majority_unique ocs).
    + intros k. cbn [Decision.Considered]. rewrite foldr_mark_used. unfold considered.
      rewrite list_lookup_fmap. destruct (ocs !! k); simpl; [|done]. by rewrite orb_false_r.
  - eexists _, (Some _). split; [done|]. split_and!; [done|done|by right].
Qed.

End Consensus.

(** ** Concrete executions *)

Definition example_grants : list ToolGrant.t :=
  [ {| ToolGrant.Name := "calc"; ToolGrant.Mode := ToolAllow; ToolGrant.Channels := ["telegram"] |};
    {| ToolGrant.Name := "http_fetch"; ToolGrant.Mode := ToolShadow; ToolGrant.Channels := [] |} ].

Definition example_attrs : gmap string ToolAttrs.t :=
  {[ "http_fetch" := {| ToolAttrs.Sensitive := false; ToolAttrs.Network := true |};
     "read_file" := {| ToolAttrs.Sensitive := true; ToolAttrs.Network := false |} ]}.

Definition example_query : ToolQuery.t :=
  {| ToolQuery.Channel := "telegram"; ToolQuery.Sensitivity := Private;
     ToolQuery.Locality := Local_ |}.

Definition example_decisions : gmap string ToolDecision.t :=
  match SelectTools example_grants example_attrs example_query with
  | Ok d => d
  | Err _ => ∅
  end.

Lemma tool_gate_never_widens_witness :
  exists dec, example_decisions !! "http_fetch" = Some dec
    /\ dec.(ToolDecision.Mode) = ToolShadow /\ dec.(ToolDecision.Shield) = true.
Proof.
  eexists. split; [reflexivity|].
  destruct (tool_gate_never_widens example_grants example_attrs example_query
    example_decisions "http_fetch" _ eq_refl eq_refl) as [(H & _)|H]; [discriminate H|].
  split; reflexivity.
Defined.

Lemma select_tools_is_total_and_ordered_out_witness :
  SelectTools (reverse example_grants) example_attrs example_query = Ok example_decisions.
Proof.
  apply (select_tools_is_total_and_ordered_out example_grants).
  - apply perm_swap.
  - reflexivity.
Defined.

Definition example_outcomes : list Outcome.t :=
  let mk p c := {| Outcome.Provider := p; Outcome.Response := Some {|
       Response.Message := {| Message.Role := RoleAssistant; Message.Content := c;
         Message.ToolCalls := []; Message.ToolName := ""; Message.ToolCallID := "" |};
       Response.Provider := p; Response.ModelName := "m" |};
     Outcome.Err := None; Outcome.Latency := 0%Z |} in
  [ mk "ollama" "no"; mk "groq" "yes"; mk "openai" "yes" ].

Lemma priority_picks_the_best_usable_witness :
  exists dec, PriorityApply ["groq"] (Some example_outcomes) = (Some dec, None)
    /\ dec.(Decision.Accounting) = accounting example_outcomes.
Proof.
  destruct (priority_picks_the_best_usable ["groq"] example_outcomes eq_refl)
    as (dec & err & H & Ha & _). exists dec. split; [|exact Ha].
  rewrite H. f_equal. injection H. auto.
Defined.

Example consensus_yes :
  match ConsensusApply map_to_list ["openai"] (fun s => s) (Some example_outcomes) with
  | (Some dec, None) =>
      (Response.Provider <$> dec.(Decision.Response)) = Some "openai"
      /\ map Contribution.Used dec.(Decision.Considered) = [false; true; true]
  | _ => False
  end.
Proof. vm_compute. auto. Qed.

Lemma consensus_is_the_unique_majority_witness :
  exists dec err, ConsensusApply map_to_list ["openai"] (fun s => s) (Some example_outcomes)
      = (Some dec, err)
    /\ majority (fun s => s) example_outcomes "yes".
Proof.
  destruct (consensus_is_the_unique_majority (fun s => s) ["openai"] map_to_list
    example_outcomes (fun m => reflexivity _)) as (dec & err & H & _).
  exists dec, err. split; [exact H|]. split; [apply le_n|vm_compute; lia].
Defined.
