(* ===== verification/Text.v ===== *)
(** * Text: the parts of Go's [strings] and [strconv] the program uses

    Strings are cut into runes as [range] and [unicode/utf8] do: a well-formed
    sequence is one rune, any other byte stands alone. *)

From S2P Require Import Prelude Json.
From Stdlib Require Import Ascii String.
#[local] Arguments String.append !_ _ : simpl nomatch.

(** The runes of a string, each as its bytes. *)
Fixpoint runes_fuel (fuel : nat) (s : string) : list string :=
  match fuel, s with
  | S fuel', String c s' =>
      match rune_size c s' with
      | 0 => String c EmptyString :: runes_fuel fuel' s'
      | S n => String c (str_take n s') :: runes_fuel fuel' (str_drop n s')
      end
  | _, _ => []
  end.

Definition runes (s : string) : list string := runes_fuel (String.length s) s.

Definition join_runes (l : list string) : string := foldr String.append EmptyString l.

(** [unicode.IsSpace]. *)
Definition space_runes : list string :=
  map encode_rune
    [9; 10; 11; 12; 13; 32; 133; 160; 5760; 8192; 8193; 8194; 8195; 8196; 8197; 8198;
     8199; 8200; 8201; 8202; 8232; 8233; 8239; 8287; 12288]%Z.

Definition IsSpace (r : string) : bool := contains space_runes r.

Fixpoint trim_left (l : list string) : list string :=
  match l with
  | [] => []
  | r :: l' => if IsSpace r then trim_left l' else l
  end.

(** [strings.TrimSpace]. *)
Definition TrimSpace (s : string) : string :=
  join_runes (reverse (trim_left (reverse (trim_left (runes s))))).

(** [strings.Join]. *)
Definition Join (l : list string) (sep : string) : string := String.concat sep l.

(** ** Lemmas *)

Lemma runes_fuel_join (fuel : nat) (s : string) :
  (String.length s <= fuel)%nat -> join_runes (runes_fuel fuel s) = s.
Proof.
  revert s. induction fuel as [|fuel IH]; intros [|c s] Hl; simpl in *; try done; [lia|].
  destruct (rune_size c s) as [|n]; simpl; f_equal.
  - apply IH. lia.
  - rewrite IH; [apply str_take_drop|]. pose proof (str_drop_length n s). lia.
Qed.

Lemma runes_join (s : string) : join_runes (runes s) = s.
Proof. by apply runes_fuel_join. Qed.

Lemma trim_left_suffix (l : list string) : exists k, l = k ++ trim_left l.
Proof.
  induction l as [|r l [k IH]]; simpl; [by exists []|].
  destruct (IsSpace r); [exists (r :: k); simpl; congruence|by exists []].
Qed.

Lemma join_runes_app (l k : list string) :
  join_runes (l ++ k) = join_runes l +:+ join_runes k.
Proof. induction l; simpl; [done|]. by rewrite IHl, str_app_assoc. Qed.

(** Trimming only removes text at the two ends. *)
Lemma TrimSpace_infix (s : string) : exists a b, s = a +:+ TrimSpace s +:+ b.
Proof.
  destruct (trim_left_suffix (runes s)) as [k Hk].
  destruct (trim_left_suffix (reverse (trim_left (runes s)))) as [k' Hk'].
  exists (join_runes k), (join_runes (reverse k')). unfold TrimSpace.
  rewrite <- !join_runes_app, <- reverse_app, <- Hk', reverse_involutive, <- Hk.
  symmetry. apply runes_join.
Qed.
