(* ===== verification/Envelope.v ===== *)
(** * Envelopes: the canonical message

    [internal/envelope]: the message type every channel and brain exchanges,
    its builders ([builder.go], [keyboard.go], [location.go]), its validator
    ([validate.go]) and the transcript line of a message ([transcript.go]). *)

From S2P Require Import Prelude Json Text.
Local Open Scope korvun_scope.

(** ** Data *)

Definition DirectionT := Z.
Definition Inbound : DirectionT := 0%Z.
Definition Outbound : DirectionT := 1%Z.

Definition PartType := Z.
Definition Text : PartType := 0%Z.
Definition Image : PartType := 1%Z.
Definition Audio : PartType := 2%Z.
Definition Video : PartType := 3%Z.
Definition File : PartType := 4%Z.
Definition Location : PartType := 5%Z.
Definition Callback : PartType := 6%Z.
Definition Reaction : PartType := 8%Z.

Definition PartType_String (pt : PartType) : string :=
  if bool_decide (pt = Text) then "text"
  else if bool_decide (pt = Image) then "image"
  else if bool_decide (pt = Audio) then "audio"
  else if bool_decide (pt = Video) then "video"
  else if bool_decide (pt = File) then "file"
  else if bool_decide (pt = Location) then "location"
  else if bool_decide (pt = Callback) then "callback"
  else if bool_decide (pt = Reaction) then "reaction"
  else "unknown".

Definition OperationKind := Z.
Definition OpEditText : OperationKind := 0%Z.
Definition OpEditCaption : OperationKind := 1%Z.
Definition OpDelete : OperationKind := 2%Z.
Definition OpCallbackAck : OperationKind := 3%Z.
Definition OpSetReaction : OperationKind := 4%Z.

Module Part.

Record t := {
  Type_ : PartType;
  Content : string;
  Source : string;
  MIMEType : string
}.

End Part.

Module Participant.

Record t := {
  ID : string;
  Name : string
}.

End Participant.

Module Button.

Record t := {
  Text : string;
  CallbackData : string;
  URL : string
}.

End Button.

Definition CallbackButton (text data : string) : Button.t :=
  {| Button.Text := text; Button.CallbackData := data; Button.URL := "" |}.

Definition URLButton (text url : string) : Button.t :=
  {| Button.Text := text; Button.CallbackData := ""; Button.URL := url |}.

(** A keyboard is its rows of buttons. *)
Definition KeyboardT := list (list Button.t).

Module Envelope.

(** [Meta] is a map; a missing key reads as the empty string.  The adapter-minted
    ingress capability is opaque to every operation modelled here. *)
Record t := {
  ID : string;
  Channel : string;
  Direction : DirectionT;
  Sender : Participant.t;
  Parts : list Part.t;
  Timestamp : time;
  Meta : gmap string string;
  Keyboard : option KeyboardT;
  Operation : option OperationKind
}.

End Envelope.
Import Envelope.

Definition meta (e : Envelope.t) (k : string) : string := default "" (e.(Meta) !! k).

Definition set_Parts (ps : list Part.t) (e : Envelope.t) : Envelope.t :=
  {| ID := e.(ID); Channel := e.(Channel); Direction := e.(Direction);
     Sender := e.(Sender); Parts := ps; Timestamp := e.(Timestamp); Meta := e.(Meta);
     Keyboard := e.(Keyboard); Operation := e.(Operation) |}.

Definition set_Operation (op : option OperationKind) (e : Envelope.t) : Envelope.t :=
  {| ID := e.(ID); Channel := e.(Channel); Direction := e.(Direction);
     Sender := e.(Sender); Parts := e.(Parts); Timestamp := e.(Timestamp); Meta := e.(Meta);
     Keyboard := e.(Keyboard); Operation := op |}.

Definition set_Meta (k v : string) (e : Envelope.t) : Envelope.t :=
  {| ID := e.(ID); Channel := e.(Channel); Direction := e.(Direction);
     Sender := e.(Sender); Parts := e.(Parts); Timestamp := e.(Timestamp);
     Meta := <[k := v]> e.(Meta);
     Keyboard := e.(Keyboard); Operation := e.(Operation) |}.

(** ** Builders *)

(** [New]; the generated id and the current time are inputs. *)
Definition New (newID : string) (timeNow : time) (channel : string) (dir : DirectionT)
    (sender : Participant.t) : Envelope.t :=
  {| ID := newID; Channel := channel; Direction := dir; Sender := sender; Parts := [];
     Timestamp := timeNow; Meta := ∅; Keyboard := None; Operation := None |}.

Definition content_part (ty : PartType) (content : string) : Part.t :=
  {| Part.Type_ := ty; Part.Content := content; Part.Source := ""; Part.MIMEType := "" |}.

Definition add_part (p : Part.t) (e : Envelope.t) : Envelope.t :=
  set_Parts (e.(Parts) ++ [p]) e.

Definition AddText (content : string) (e : Envelope.t) : Envelope.t :=
  add_part (content_part Text content) e.

Definition AddMedia (pt : PartType) (source mimeType : string) (e : Envelope.t) : Envelope.t :=
  add_part {| Part.Type_ := pt; Part.Content := ""; Part.Source := source;
              Part.MIMEType := mimeType |} e.

Definition AddCallback (data : string) (e : Envelope.t) : Envelope.t :=
  add_part (content_part Callback data) e.

Definition AddReaction (emoji : string) (e : Envelope.t) : Envelope.t :=
  add_part (content_part Reaction emoji) e.

Definition WithKeyboard (rows : KeyboardT) (e : Envelope.t) : Envelope.t :=
  {| ID := e.(ID); Channel := e.(Channel); Direction := e.(Direction);
     Sender := e.(Sender); Parts := e.(Parts); Timestamp := e.(Timestamp);
     Meta := e.(Meta); Keyboard := Some rows; Operation := e.(Operation) |}.

Definition SetEditText (text : string) (e : Envelope.t) : Envelope.t :=
  set_Parts [content_part Text text] (set_Operation (Some OpEditText) e).

Definition SetEditCaption (caption : string) (e : Envelope.t) : Envelope.t :=
  set_Parts [content_part Text caption] (set_Operation (Some OpEditCaption) e).

Definition SetDelete (e : Envelope.t) : Envelope.t :=
  set_Parts [] (set_Operation (Some OpDelete) e).

Definition SetCallbackAck (toast : string) (e : Envelope.t) : Envelope.t :=
  let e1 := set_Operation (Some OpCallbackAck) e in
  if bool_decide (toast = "") then set_Parts [] e1
  else set_Parts [content_part Text toast] e1.

Definition SetReactions (emojis : list string) (e : Envelope.t) : Envelope.t :=
  set_Parts (map (content_part Text) emojis) (set_Operation (Some OpSetReaction) e).

(** ** Locations

    Coordinates are [float64]: their JSON text and its parser are the standard
    library's, which this section takes as given. *)

Section Floats.
Context {float64 : Type} (float_zero : float64)
        (ParseFloat : string -> option float64) (FormatFloat : float64 -> option string).

(** [marshalLocation]: a coordinate with no JSON form (a NaN, an infinity) makes
    [json.Marshal] fail, and the ignored error leaves an empty content. *)
Definition marshalLocation (lat lon : float64) : string :=
  match FormatFloat lat, FormatFloat lon with
  | Some a, Some b => print (VObject [("lat", VNumber a); ("lon", VNumber b)])
  | _, _ => ""
  end.

Definition AddLocation (lat lon : float64) (e : Envelope.t) : Envelope.t :=
  add_part (content_part Location (marshalLocation lat lon)) e.

(** [json.Unmarshal] of one raw member into a [float64]: a null leaves the zero. *)
Definition unmarshal_float (v : value) : option float64 :=
  match v with
  | VNumber lit => ParseFloat lit
  | VNull => Some float_zero
  | _ => None
  end.

(** The last member of that name, as the decoded map has it. *)
Definition last_member (k : string) (ms : list (string * value)) : option value :=
  fold_left (fun acc p => if bool_decide (p.1 = k) then Some p.2 else acc) ms None.

(** [Part.Location]. *)
Definition Part_Location (p : Part.t) : option (float64 * float64) :=
  if bool_decide (p.(Part.Type_) <> Location) then None
  else if bool_decide (p.(Part.Content) = "") then None
  else match parse p.(Part.Content) with
  | Some (VObject ms) =>
      match last_member "lat" ms, last_member "lon" ms with
      | Some a, Some b =>
          match unmarshal_float a, unmarshal_float b with
          | Some lat, Some lon => Some (lat, lon)
          | _, _ => None
          end
      | _, _ => None
      end
  | _ => None
  end.

(** ** Validation *)

Definition invalid (what : string) : error := ErrorNew what.

Definition validatePart (p : Part.t) : option error :=
  let ty := p.(Part.Type_) in
  let no_content := bool_decide (p.(Part.Content) = "") in
  let has_source := bool_decide (p.(Part.Source) <> "") in
  let has_mime := bool_decide (p.(Part.MIMEType) <> "") in
  if bool_decide (ty = Text) then
    fail_if no_content (invalid "empty content for text part")
  else if bool_decide (ty = Image) || bool_decide (ty = Audio) || bool_decide (ty = Video)
          || bool_decide (ty = File) then
    fail_if (negb has_source) (invalid ("empty source for " +:+ PartType_String ty +:+ " part"))
  else if bool_decide (ty = Location) then
    fail_if no_content (invalid "empty content for location part") ;;;
    fail_if has_source (invalid "location must not set source") ;;;
    fail_if has_mime (invalid "location must not set mime type") ;;;
    fail_if (match Part_Location p with Some _ => false | None => true end)
      (invalid "invalid location content")
  else if bool_decide (ty = Callback) then
    fail_if no_content (invalid "empty content for callback part") ;;;
    fail_if has_source (invalid "callback must not set source") ;;;
    fail_if has_mime (invalid "callback must not set mime type")
  else if bool_decide (ty = Reaction) then
    fail_if no_content (invalid "empty content for reaction part") ;;;
    fail_if has_source (invalid "reaction must not set source") ;;;
    fail_if has_mime (invalid "reaction must not set mime type")
  else Some (invalid "unknown part type").

Definition validateExclusivePartTypes (parts : list Part.t) : option error :=
  if (length parts <=? 1) then None
  else
    check_all (fun p => fail_if (bool_decide (p.(Part.Type_) = Callback))
      (invalid "callback part must be the only part in the envelope")) parts ;;;
    let hasReaction := existsb (fun p => bool_decide (p.(Part.Type_) = Reaction)) parts in
    let hasNonReaction :=
      existsb (fun p => negb (bool_decide (p.(Part.Type_) = Reaction))) parts in
    fail_if (hasReaction && hasNonReaction)
      (invalid "reaction parts must not coexist with other part types").

Definition sets_media (p : Part.t) : bool :=
  bool_decide (p.(Part.Source) <> "") || bool_decide (p.(Part.MIMEType) <> "").

Definition validateOperation (op : OperationKind) (e : Envelope.t) : option error :=
  let has_keyboard := bool_decide (is_Some e.(Keyboard)) in
  if bool_decide (op = OpEditText) then
    match e.(Parts) with
    | [p] =>
        fail_if (bool_decide (p.(Part.Type_) <> Text)) (invalid "OpEditText part must be Text") ;;;
        fail_if (bool_decide (p.(Part.Content) = ""))
          (invalid "OpEditText part must have non-empty Content") ;;;
        fail_if (sets_media p) (invalid "OpEditText part must not set Source/MIMEType")
    | _ => Some (invalid "OpEditText requires exactly 1 part")
    end
  else if bool_decide (op = OpEditCaption) then
    match e.(Parts) with
    | [p] =>
        fail_if (bool_decide (p.(Part.Type_) <> Text))
          (invalid "OpEditCaption part must be Text") ;;;
        fail_if (sets_media p) (invalid "OpEditCaption part must not set Source/MIMEType")
    | _ => Some (invalid "OpEditCaption requires exactly 1 part")
    end
  else if bool_decide (op = OpDelete) then
    fail_if (negb (bool_decide (length e.(Parts) = 0)))
      (invalid "OpDelete requires empty parts") ;;;
    fail_if has_keyboard (invalid "OpDelete must not carry a Keyboard")
  else if bool_decide (op = OpCallbackAck) then
    match e.(Parts) with
    | [] => None
    | [p] =>
        fail_if (bool_decide (p.(Part.Type_) <> Text))
          (invalid "OpCallbackAck part must be Text") ;;;
        fail_if (bool_decide (p.(Part.Content) = ""))
          (invalid "OpCallbackAck part must have non-empty Content") ;;;
        fail_if (sets_media p) (invalid "OpCallbackAck part must not set Source/MIMEType")
    | _ => Some (invalid "OpCallbackAck requires 0 or 1 parts")
    end ;;;
    fail_if has_keyboard (invalid "OpCallbackAck must not carry a Keyboard")
  else if bool_decide (op = OpSetReaction) then
    check_all (fun p =>
      fail_if (bool_decide (p.(Part.Type_) <> Text)) (invalid "OpSetReaction part must be Text") ;;;
      fail_if (bool_decide (p.(Part.Content) = ""))
        (invalid "OpSetReaction part must have non-empty Content") ;;;
      fail_if (sets_media p) (invalid "OpSetReaction part must not set Source/MIMEType"))
      e.(Parts) ;;;
    fail_if has_keyboard (invalid "OpSetReaction must not carry a Keyboard")
  else Some (invalid "unknown OperationKind").

Definition validateButton (b : Button.t) : option error :=
  fail_if (bool_decide (b.(Button.Text) = "")) (invalid "button text is empty") ;;;
  fail_if (bool_decide (bool_decide (b.(Button.CallbackData) <> "")
                        = bool_decide (b.(Button.URL) <> "")))
    (invalid "button must set exactly one of callback_data or url").

Definition validateKeyboard (k : KeyboardT) : option error :=
  fail_if (bool_decide (length k = 0)) (invalid "keyboard has no rows") ;;;
  check_all (fun row =>
    fail_if (bool_decide (length row = 0)) (invalid "keyboard row has no buttons") ;;;
    check_all validateButton row) k.

Definition Validate (e : Envelope.t) : option error :=
  fail_if (bool_decide (e.(ID) = "")) (invalid "empty ID") ;;;
  fail_if (bool_decide (e.(Channel) = "")) (invalid "empty channel") ;;;
  fail_if (bool_decide (e.(Direction) <> Inbound) && bool_decide (e.(Direction) <> Outbound))
    (invalid "invalid direction") ;;;
  fail_if (bool_decide (e.(Sender).(Participant.ID) = "")) (invalid "empty sender ID") ;;;
  fail_if (time_is_zero e.(Timestamp)) (invalid "zero timestamp") ;;;
  match e.(Operation) with
  | Some op => validateOperation op e
  | None =>
      fail_if (bool_decide (length e.(Parts) = 0)) (invalid "no parts") ;;;
      validateExclusivePartTypes e.(Parts) ;;;
      check_all validatePart e.(Parts)
  end ;;;
  match e.(Keyboard) with
  | Some k => validateKeyboard k
  | None => None
  end.

(** ** Theorems *)

(** The fields every envelope must carry, whatever its body. *)
Record header_ok (e : Envelope.t) : Prop := {
  header_ID : e.(ID) <> "";
  header_Channel : e.(Channel) <> "";
  header_Direction : e.(Direction) = Inbound \/ e.(Direction) = Outbound;
  header_Sender : e.(Sender).(Participant.ID) <> "";
  header_Timestamp : e.(Timestamp) <> 0%Z
}.

(** A button is labelled and does exactly one thing. *)
Definition button_ok (b : Button.t) : Prop :=
  b.(Button.Text) <> ""
  /\ ((b.(Button.CallbackData) <> "" /\ b.(Button.URL) = "")
      \/ (b.(Button.CallbackData) = "" /\ b.(Button.URL) <> "")).

Definition keyboard_ok (e : Envelope.t) : Prop :=
  match e.(Keyboard) with
  | None => True
  | Some rows => rows <> [] /\ Forall (fun row => row <> [] /\ Forall button_ok row) rows
  end.

Lemma validateButton_None (b : Button.t) : validateButton b = None <-> button_ok b.
Proof.
  unfold validateButton, button_ok.
  rewrite first_error_None, !fail_if_None, !bool_decide_eq_false. apply and_iff_compat_l.
  destruct b as [t c u]; simpl. destruct (decide (c = "")), (decide (u = ""));
    repeat case_bool_decide; naive_solver.
Qed.

Lemma length_zero_guard {A} (l : list A) : bool_decide (length l = 0) = false <-> l <> [].
Proof. rewrite bool_decide_eq_false. by destruct l. Qed.

Lemma validateKeyboard_None (k : KeyboardT) :
  validateKeyboard k = None <->
  k <> [] /\ Forall (fun row => row <> [] /\ Forall button_ok row) k.
Proof.
  unfold validateKeyboard. rewrite first_error_None, fail_if_None, length_zero_guard.
  rewrite check_all_None. setoid_rewrite first_error_None. setoid_rewrite fail_if_None.
  setoid_rewrite length_zero_guard. setoid_rewrite check_all_None.
  setoid_rewrite validateButton_None. done.
Qed.

(** The body: an operation's contract, or parts that are there, compatible with
    each other and each well formed. *)
Definition body (e : Envelope.t) : option error :=
  match e.(Operation) with
  | Some op => validateOperation op e
  | None =>
      fail_if (bool_decide (length e.(Parts) = 0)) (invalid "no parts") ;;;
      validateExclusivePartTypes e.(Parts) ;;;
      check_all validatePart e.(Parts)
  end.

Lemma Validate_None (e : Envelope.t) :
  Validate e = None <-> header_ok e /\ body e = None /\ keyboard_ok e.
Proof.
  unfold Validate. fold (body e).
  rewrite !first_error_None, !fail_if_None, andb_false_iff, !bool_decide_eq_false.
  unfold time_is_zero. rewrite bool_decide_eq_false.
  assert (match e.(Keyboard) with Some k => validateKeyboard k | None => None end = None
          <-> keyboard_ok e) as ->.
  { unfold keyboard_ok. destruct (Keyboard e); [apply validateKeyboard_None|done]. }
  split.
  - intros (? & ? & Hd & ? & ? & ? & ?). split_and!; [|done|done]. constructor; try done.
    destruct (decide (e.(Direction) = Inbound)), (decide (e.(Direction) = Outbound)); tauto.
  - intros ([] & ? & ?). split_and!; try done. tauto.
Qed.

Lemma reactions_None (emojis : list string) :
  check_all (fun p =>
      fail_if (bool_decide (p.(Part.Type_) <> Text)) (invalid "OpSetReaction part must be Text") ;;;
      fail_if (bool_decide (p.(Part.Content) = ""))
        (invalid "OpSetReaction part must have non-empty Content") ;;;
      fail_if (sets_media p) (invalid "OpSetReaction part must not set Source/MIMEType"))
    (map (content_part Text) emojis) = None
  <-> Forall (fun em => em <> "") emojis.
Proof.
  induction emojis as [|em emojis IH]; simpl; [done|].
  rewrite first_error_None, IH, Forall_cons. apply and_iff_compat_r.
  case_bool_decide; naive_solver.
Qed.

Lemma Validate_operation (ps : list Part.t) (op : OperationKind) (e : Envelope.t) :
  header_ok e ->
  Validate (set_Parts ps (set_Operation (Some op) e)) = None
  <-> validateOperation op (set_Parts ps (set_Operation (Some op) e)) = None /\ keyboard_ok e.
Proof.
  intros Hh. rewrite Validate_None. unfold body. simpl. split; [tauto|].
  intros [? ?]. split; [|done]. destruct Hh. by constructor.
Qed.

Lemma no_keyboard_guard (e : Envelope.t) (err : error) :
  fail_if (bool_decide (is_Some e.(Keyboard))) err = None <-> e.(Keyboard) = None.
Proof. rewrite fail_if_None, bool_decide_eq_false, eq_None_not_Some. done. Qed.

Lemma no_keyboard_ok (e : Envelope.t) : e.(Keyboard) = None -> keyboard_ok e.
Proof. unfold keyboard_ok. by intros ->. Qed.

(** The operation builders replace whatever body the envelope had, and
    what they build is valid exactly when the documented contract holds: an
    edited text is non-empty, a deletion, an acknowledgement and a reaction
    carry no keyboard, every emoji is non-empty, and an empty toast is the
    silent acknowledgement. *)
Theorem operation_builders_are_valid (e : Envelope.t) (text : string) (emojis : list string) :
  header_ok e ->
  (Validate (SetEditText text e) = None <-> text <> "" /\ keyboard_ok e)
  /\ (Validate (SetEditCaption text e) = None <-> keyboard_ok e)
  /\ (Validate (SetDelete e) = None <-> e.(Keyboard) = None)
  /\ (Validate (SetCallbackAck text e) = None <-> e.(Keyboard) = None)
  /\ (Validate (SetReactions emojis e) = None <->
      e.(Keyboard) = None /\ Forall (fun em => em <> "") emojis).
Proof.
  intros Hh. pose proof (no_keyboard_ok e) as Hn.
  unfold SetEditText, SetEditCaption, SetDelete, SetCallbackAck, SetReactions.
  split_and!.
  - rewrite Validate_operation by done. unfold validateOperation. simpl.
    case_bool_decide; simpl; intuition congruence.
  - rewrite Validate_operation by done. unfold validateOperation. simpl. tauto.
  - rewrite Validate_operation by done. unfold validateOperation. simpl.
    rewrite no_keyboard_guard. tauto.
  - case_bool_decide; rewrite Validate_operation by done; unfold validateOperation; simpl;
      [|rewrite bool_decide_eq_false_2 by done; simpl]; rewrite no_keyboard_guard; tauto.
  - rewrite Validate_operation by done. unfold validateOperation. simpl.
    rewrite first_error_None, no_keyboard_guard, reactions_None. tauto.
Qed.

(** What each part type requires and forbids. *)
Definition part_ok (p : Part.t) : Prop :=
  (p.(Part.Type_) = Text /\ p.(Part.Content) <> "")
  \/ (p.(Part.Type_) ∈ [Image; Audio; Video; File] /\ p.(Part.Source) <> "")
  \/ (p.(Part.Type_) ∈ [Location; Callback; Reaction] /\ p.(Part.Content) <> ""
      /\ p.(Part.Source) = "" /\ p.(Part.MIMEType) = ""
      /\ (p.(Part.Type_) = Location -> is_Some (Part_Location p))).

Lemma empty_guard (s : string) : bool_decide (s <> "") = false <-> s = "".
Proof. rewrite bool_decide_eq_false. split; [apply dec_stable|auto]. Qed.

Lemma validatePart_None (p : Part.t) : validatePart p = None -> part_ok p.
Proof.
  unfold validatePart, part_ok. set (loc := Part_Location p). clearbody loc.
  destruct p as [ty c s m]; simpl. intros H.
  destruct (decide (ty = Text)) as [->|]; [left; simpl in H|rewrite (bool_decide_eq_false_2 (ty = Text)) in H by done].
  { rewrite fail_if_None, bool_decide_eq_false in H. done. }
  right. destruct (_ || _ || _ || _) eqn:Em.
  { left. rewrite !orb_true_iff, !bool_decide_eq_true in Em.
    rewrite fail_if_None, negb_false_iff, bool_decide_eq_true in H. set_solver. }
  right. destruct (decide (ty = Location)) as [->|].
  { simpl in H. rewrite !first_error_None, !fail_if_None, !empty_guard, bool_decide_eq_false in H.
    destruct H as (? & ? & ? & Hl). destruct loc; [|done]. split_and!; try done; eauto; set_solver. }
  rewrite (bool_decide_eq_false_2 (ty = Location)) in H by done.
  destruct (decide (ty = Callback)) as [->|]; [|rewrite (bool_decide_eq_false_2 (ty = Callback)) in H by done;
    destruct (decide (ty = Reaction)) as [->|]; [|by rewrite (bool_decide_eq_false_2 (ty = Reaction)) in H by done]];
    simpl in H; rewrite !first_error_None, !fail_if_None, !empty_guard, bool_decide_eq_false in H;
    (destruct H as (? & ? & ?); split_and!; try done; set_solver).
Qed.

(** In a valid content message a tap comes alone and reactions are never
    mixed: a callback part is the only part, and one reaction part makes every
    part a reaction; no part is of an unknown type, and each carries what its
    type needs and no field it must not set. *)
Theorem valid_parts_are_exclusive (e : Envelope.t) :
  Validate e = None -> e.(Operation) = None ->
  e.(Parts) <> []
  /\ (forall p, p ∈ e.(Parts) -> p.(Part.Type_) = Callback -> e.(Parts) = [p])
  /\ (forall p, p ∈ e.(Parts) -> p.(Part.Type_) = Reaction ->
      Forall (fun q => q.(Part.Type_) = Reaction) e.(Parts))
  /\ Forall part_ok e.(Parts).
Proof.
  rewrite Validate_None. unfold body. intros (_ & Hb & _) Ho. rewrite Ho in Hb.
  rewrite !first_error_None, fail_if_None, length_zero_guard in Hb.
  destruct Hb as (Hne & Hex & Hparts).
  split; [done|]. split; [|split].
  - intros p Hp Ht. unfold validateExclusivePartTypes in Hex.
    destruct (e.(Parts)) as [|p1 [|p2 ps]] eqn:Ep; [done|set_solver|].
    cbn [length Nat.leb] in Hex. rewrite first_error_None, check_all_None in Hex.
    destruct Hex as [Hex _]. rewrite Forall_forall in Hex. specialize (Hex p Hp).
    rewrite fail_if_None, bool_decide_eq_false in Hex. done.
  - intros p Hp Ht. unfold validateExclusivePartTypes in Hex.
    destruct (e.(Parts)) as [|p1 [|p2 ps]] eqn:Ep; [done| |].
    { apply list_elem_of_singleton in Hp as ->. by repeat constructor. }
    cbn [length Nat.leb] in Hex. rewrite first_error_None, fail_if_None in Hex.
    destruct Hex as [_ Hex]. apply andb_false_iff in Hex as [Hex|Hex].
    + apply not_true_iff_false in Hex. destruct Hex. apply existsb_exists.
      exists p. rewrite <- list_elem_of_In, bool_decide_eq_true. done.
    + apply Forall_forall. intros q Hq. apply not_true_iff_false in Hex.
      destruct (decide (q.(Part.Type_) = Reaction)) as [|Hn]; [done|]. destruct Hex.
      apply existsb_exists. exists q. rewrite <- list_elem_of_In, bool_decide_eq_false_2 by done. done.
  - rewrite check_all_None in Hparts. eapply Forall_impl; [exact Hparts|].
    intros p. apply validatePart_None.
Qed.

(** A location survives the wire: given that the standard library's
    number formatting yields a JSON literal that parses back to the same value,
    the part [AddLocation] appends reads back to the same coordinates and
    passes the part validator. *)
Theorem location_round_trip (lat lon : float64) (e : Envelope.t) :
  (forall f lit, FormatFloat f = Some lit -> number_literal lit /\ ParseFloat lit = Some f) ->
  is_Some (FormatFloat lat) -> is_Some (FormatFloat lon) ->
  exists p, (AddLocation lat lon e).(Parts) = e.(Parts) ++ [p]
    /\ Part_Location p = Some (lat, lon) /\ validatePart p = None.
Proof.
  intros Hfmt [a Ha] [b Hb]. destruct (Hfmt _ _ Ha) as [La Pa]. destruct (Hfmt _ _ Hb) as [Lb Pb].
  eexists. split; [reflexivity|].
  assert (Part_Location (content_part Location (marshalLocation lat lon)) = Some (lat, lon)) as Hp.
  { unfold Part_Location, marshalLocation. cbn [content_part Part.Type_ Part.Content].
    rewrite Ha, Hb, bool_decide_eq_false_2 by (intros H; by apply H).
    rewrite bool_decide_eq_false_2 by done.
    rewrite parse_print.
    { change (last_member "lat" _) with (Some (VNumber a)).
      change (last_member "lon" _) with (Some (VNumber b)). simpl. by rewrite Pa, Pb. }
    apply wf_object; [done|]. repeat constructor; try done; by apply ascii_only_utf8. }
  split; [done|]. unfold validatePart. rewrite Hp. simpl.
  unfold marshalLocation. by rewrite Ha, Hb.
Qed.

End Floats.

(** ** The transcript line *)

Definition TranscriptText (parts : list Part.t) : string :=
  let '(pieces, text) :=
    fold_left (fun acc p =>
      let '(pieces, text) := acc in
      let ty := p.(Part.Type_) in
      if bool_decide (ty = Text) then
        if bool_decide (TrimSpace p.(Part.Content) <> "") then (pieces, p.(Part.Content))
        else (pieces, text)
      else if bool_decide (ty = Image) then (pieces ++ ["[image]"], text)
      else if bool_decide (ty = Audio) then (pieces ++ ["[audio]"], text)
      else if bool_decide (ty = Video) then (pieces ++ ["[video]"], text)
      else if bool_decide (ty = File) then (pieces ++ ["[file]"], text)
      else (pieces, text)) parts ([], "") in
  Join (if bool_decide (text <> "") then pieces ++ [text] else pieces) " ".

(** ** Concrete executions *)

Definition example_envelope : Envelope.t :=
  New "id-1" 42%Z "telegram" Inbound {| Participant.ID := "u1"; Participant.Name := "" |}.

Lemma operation_builders_are_valid_witness :
  Validate 0%Z (fun _ => None) (SetCallbackAck "" example_envelope) = None.
Proof.
  apply (operation_builders_are_valid 0%Z (fun _ => None) (fun _ => None) example_envelope "" []); [|done].
  by constructor; [..|left|idtac|idtac].
Defined.

Lemma valid_parts_are_exclusive_witness :
  let e := AddCallback "data" example_envelope in
  e.(Parts) = [content_part Callback "data"].
Proof.
  apply (proj1 (proj2 (valid_parts_are_exclusive 0%Z (fun _ => None) (fun _ => None)
    (AddCallback "data" example_envelope) eq_refl eq_refl))); [by left|reflexivity].
Defined.

(** A toy number format, two values wide, meets the hypotheses. *)
Lemma location_round_trip_witness :
  exists p, (AddLocation (fun b : bool => Some (if b then "1.5" else "-0")) true false
               example_envelope).(Parts) = [p]
    /\ Part_Location false (fun s => if bool_decide (s = "1.5") then Some true
                             else if bool_decide (s = "-0") then Some false else None) p
       = Some (true, false).
Proof.
  destruct (location_round_trip false (fun s => if bool_decide (s = "1.5") then Some true
     else if bool_decide (s = "-0") then Some false else None)
     (fun b : bool => Some (if b then "1.5" else "-0")) true false example_envelope)
    as (p & H1 & H2 & _).
  - intros [] lit H; injection H as <-; split; vm_compute; reflexivity.
  - eauto.
  - eauto.
  - exists p. split; [exact H1|exact H2].
Defined.
