(* ===== verification/Conversation.v ===== *)
(** * Conversation memory

    [internal/conversation]: the conversation key and the turn record
    ([conversation.go]), the in-memory session store ([memstore.go]) and the
    persistent notes ([notes.go]).  The [SessionStore] seam is a class: its
    laws speak of an abstract history, and its clients are proved against
    them. *)

From S2P Require Import Prelude Json Text Envelope.
Local Open Scope korvun_scope.

(** ** Keys and turns *)

Definition MetaConversationID : string := "conversation.id".
Definition ErrNoConversationID : error :=
  ErrorNew "conversation: envelope is missing Meta[conversation.id]".
Definition ErrActiveSession : error :=
  ErrorNew "conversation: cannot delete the active session".

Definition Key := string.

Definition KeyFromEnvelope (env : option Envelope.t) : result Key :=
  match env with
  | None => Err ErrNoConversationID
  | Some env =>
      let id := meta env MetaConversationID in
      if bool_decide (id = "") then Err ErrNoConversationID
      else Ok (env.(Envelope.Channel) +:+ "::" +:+ id)
  end.

Module Turn.

Record t := {
  Role : string;
  Content : string;
  Timestamp : time;
  Seq : Z
}.

Definition with_Seq (n : Z) (x : t) : t :=
  {| Role := x.(Role); Content := x.(Content); Timestamp := x.(Timestamp); Seq := n |}.

End Turn.

Definition RoleUser : string := "user".
Definition RoleAssistant : string := "assistant".
Definition RoleSystem : string := "system".
Definition RoleOperator : string := "operator".

Module SessionInfo.

Record t := {
  ID : Z;
  TurnCount : Z;
  First : time;
  Last : time
}.

End SessionInfo.

Module ConversationInfo.

Record t := {
  Key : string;
  ActiveSession : Z;
  SessionCount : Z;
  TurnCount : Z;
  LastActivity : time;
  LastRole : string
}.

End ConversationInfo.

(** ** Notes *)

Definition NoteScope := Z.
Definition ScopeConversation : NoteScope := 1%Z.
Definition ScopeBrainGlobal : NoteScope := 2%Z.

Module Note.

Record t := {
  Seq : Z;
  Content : string;
  Timestamp : time
}.

End Note.

Definition ErrNotesFull : error := ErrorNew "conversation: note box full".
Definition ErrInvalidNoteScope : error :=
  ErrorNew "conversation: invalid note scope/key pair".

Definition EffectiveNoteScope (configured : NoteScope) (key : Key) : result (NoteScope * Key) :=
  if bool_decide (configured = ScopeConversation) then
    if bool_decide (key = "")
    then Err (ErrorWrap "conversation scope without a conversation key" ErrInvalidNoteScope)
    else Ok (ScopeConversation, key)
  else if bool_decide (configured = ScopeBrainGlobal) then Ok (ScopeBrainGlobal, "")
  else Err (ErrorWrap "unknown scope" ErrInvalidNoteScope).

Definition CheckNotePair (scope : NoteScope) (key : Key) : option error :=
  if bool_decide (scope = ScopeConversation) then
    fail_if (bool_decide (key = ""))
      (ErrorWrap "conversation scope with an empty key" ErrInvalidNoteScope)
  else if bool_decide (scope = ScopeBrainGlobal) then
    fail_if (bool_decide (key <> ""))
      (ErrorWrap "brain-global scope with a non-empty key" ErrInvalidNoteScope)
  else Some (ErrorWrap "unknown scope" ErrInvalidNoteScope).

(** ** The session-store seam *)

(** A session as its clients see it: its id and its turns, oldest first. *)
Definition session : Type := Z * list Turn.t.

(** Consecutive numbers from [base]. *)
Fixpoint number (base : Z) (turns : list Turn.t) : list Turn.t :=
  match turns with
  | [] => []
  | x :: turns' => Turn.with_Seq base x :: number (base + 1) turns'
  end.

(** The last [n] turns; [n <= 0] is none. *)
Definition tail_of {A} (n : Z) (l : list A) : list A :=
  if (n <=? 0)%Z then [] else drop (length l - Z.to_nat n) l.

(** The seam's operations on a store state [S]. *)
Class SessionStore (S : Type) := {
  store_LoadRecent : Key -> Z -> S -> list Turn.t;
  store_AppendTurns : Key -> list Turn.t -> S -> list Turn.t * S;
  store_NewSession : Key -> S -> Z * S;
  store_LoadSession : Key -> Z -> S -> list Turn.t;
  store_DeleteSession : Key -> Z -> S -> option error * S;
  store_DeleteConversation : Key -> S -> S
}.

(** What a store promises: each key has a history of sessions with increasing
    ids, the last one active, and every operation is a function of it. *)
Class SessionStoreLaws (S : Type) `{SessionStore S} := {
  history : S -> Key -> list session;
  store_inv : S -> Prop;
  history_ids s key : store_inv s -> StronglySorted Z.lt (history s key).*1;
  LoadRecent_spec s key n : store_inv s ->
    store_LoadRecent key n s = tail_of n (default [] (snd <$> last (history s key)));
  AppendTurns_spec s key turns out s' : store_inv s -> turns <> [] ->
    store_AppendTurns key turns s = (out, s') ->
    let '(old, act) := match last (history s key) with
                       | Some act => (take (length (history s key) - 1) (history s key), act)
                       | None => ([], (1%Z, []))
                       end in
    out = number (Z.of_nat (length act.2)) turns
    /\ history s' key = old ++ [(act.1, act.2 ++ out)]
    /\ (forall key', key' <> key -> history s' key' = history s key')
    /\ store_inv s';
  NewSession_spec s key id s' : store_inv s -> store_NewSession key s = (id, s') ->
    last (history s' key) = Some (id, [])
    /\ (forall i ts, (i, ts) ∈ history s' key -> (i, ts) ∈ history s key \/ (i, ts) = (id, []))
    /\ (forall i ts, (i, ts) ∈ history s key -> (i, ts) ∈ history s' key)
    /\ (forall key', key' <> key -> history s' key' = history s key')
    /\ store_inv s'
}.

(** ** The in-memory store *)

Module MemStore.

Record memSession := {
  id : Z;
  turns : list Turn.t
}.

Record t := {
  m : gmap Key (list memSession);
  notes : gmap (string * Key) (list Note.t)
}.

Definition NewMemStore : t := {| m := ∅; notes := ∅ |}.

Definition sessions (key : Key) (s : t) : list memSession := default [] (s.(m) !! key).

Definition set_sessions (key : Key) (l : list memSession) (s : t) : t :=
  {| m := <[key := l]> s.(m); notes := s.(notes) |}.

(** The sessions before the active one, and the active one: the last, or a fresh
    session 1 when the key has no history. *)
Definition activeLocked (key : Key) (s : t) : list memSession * memSession :=
  match last (sessions key s) with
  | None => ([], {| id := 1; turns := [] |})
  | Some sess => (take (length (sessions key s) - 1) (sessions key s), sess)
  end.

Definition AppendTurns (key : Key) (ts : list Turn.t) (s : t) : list Turn.t * t :=
  match ts with
  | [] => ([], s)
  | _ =>
      let '(old, sess) := activeLocked key s in
      let out := number (Z.of_nat (length sess.(turns))) ts in
      (out, set_sessions key
              (old ++ [{| id := sess.(id); turns := sess.(turns) ++ out |}]) s)
  end.

(** [Append] of one turn; the group is not empty, so there is a first result. *)
Definition Append (key : Key) (turn : Turn.t) (s : t) : Turn.t * t :=
  let '(out, s') := AppendTurns key [turn] s in (default turn (head out), s').

Definition LoadRecent (key : Key) (n : Z) (s : t) : list Turn.t :=
  if (n <=? 0)%Z then []
  else match last (sessions key s) with
  | None => []
  | Some sess =>
      let ts := sess.(turns) in
      let start := (Z.of_nat (length ts) - n)%Z in
      drop (Z.to_nat (if (start <? 0)%Z then 0 else start)) ts
  end.

Definition NewSession (key : Key) (s : t) : Z * t :=
  match last (sessions key s) with
  | None => (1%Z, set_sessions key [{| id := 1; turns := [] |}] s)
  | Some active =>
      if bool_decide (length active.(turns) = 0) then (active.(id), s)
      else let next := {| id := (active.(id) + 1)%Z; turns := [] |} in
           (next.(id), set_sessions key (sessions key s ++ [next]) s)
  end.

Definition ListSessions (key : Key) (s : t) : list SessionInfo.t :=
  map (fun sess =>
    {| SessionInfo.ID := sess.(id);
       SessionInfo.TurnCount := Z.of_nat (length sess.(turns));
       SessionInfo.First := default 0%Z (Turn.Timestamp <$> head sess.(turns));
       SessionInfo.Last := default 0%Z (Turn.Timestamp <$> last sess.(turns)) |})
    (sessions key s).

Definition find_session (key : Key) (n : Z) (s : t) : option memSession :=
  List.find (fun sess => bool_decide (sess.(id) = n)) (sessions key s).

Definition LoadSession (key : Key) (n : Z) (s : t) : list Turn.t :=
  default [] (turns <$> find_session key n s).

Definition LoadSessionTail (key : Key) (sessionID n : Z) (s : t) : list Turn.t :=
  if (n <=? 0)%Z then []
  else match find_session key sessionID s with
  | None => []
  | Some sess =>
      let ts := sess.(turns) in
      if (n <? Z.of_nat (length ts))%Z then drop (length ts - Z.to_nat n) ts else ts
  end.

(** The row of one conversation: activity of the latest non-empty session. *)
Definition conversation_info (key : Key) (l : list memSession) : ConversationInfo.t :=
  let latest := last (omap (fun sess => last sess.(turns)) l) in
  {| ConversationInfo.Key := key;
     ConversationInfo.ActiveSession := default 0%Z (id <$> last l);
     ConversationInfo.SessionCount := Z.of_nat (length l);
     ConversationInfo.TurnCount := Z.of_nat (sum_list_with (fun sess => length sess.(turns)) l);
     ConversationInfo.LastActivity := default 0%Z (Turn.Timestamp <$> latest);
     ConversationInfo.LastRole := default "" (Turn.Role <$> latest) |}.

(** Most recent activity first, then by key. *)
Definition activity_before (a b : ConversationInfo.t) : Prop :=
  (b.(ConversationInfo.LastActivity) < a.(ConversationInfo.LastActivity))%Z
  \/ (b.(ConversationInfo.LastActivity) = a.(ConversationInfo.LastActivity)
      /\ String.le a.(ConversationInfo.Key) b.(ConversationInfo.Key)).

#[export] Instance activity_before_dec a b : Decision (activity_before a b).
Proof. unfold activity_before. apply _. Defined.

(** The rows come from a range over the map, in an order [iterate] decides. *)
Definition ListConversations
    (iterate : gmap Key (list memSession) -> list (Key * list memSession))
    (limit : Z) (s : t) : list ConversationInfo.t :=
  if (limit <=? 0)%Z then []
  else take (Z.to_nat limit)
         (merge_sort activity_before
            (map (fun p => conversation_info p.1 p.2) (iterate s.(m)))).

Definition DeleteConversation (key : Key) (s : t) : t :=
  {| m := delete key s.(m); notes := s.(notes) |}.

Definition DeleteSession (key : Key) (n : Z) (s : t) : option error * t :=
  match last (sessions key s) with
  | None => (None, s)
  | Some active =>
      if bool_decide (active.(id) = n) then (Some ErrActiveSession, s)
      else (None, set_sessions key
                    (filter (fun sess => sess.(id) <> n) (sessions key s)) s)
  end.

(** [AppendNote]; the store's clock is an input. *)
Definition AppendNote (timeNow : time) (brain : string) (scope : NoteScope) (key : Key)
    (content : string) (maxNotes : Z) (s : t) : result Note.t * t :=
  match CheckNotePair scope key with
  | Some e => (Err e, s)
  | None =>
      let existing := default [] (s.(notes) !! (brain, key)) in
      if (0 <? maxNotes)%Z && (maxNotes <=? Z.of_nat (length existing))%Z
      then (Err ErrNotesFull, s)
      else
        let note := {| Note.Seq := (Z.of_nat (length existing) + 1)%Z;
                       Note.Content := content; Note.Timestamp := timeNow |} in
        (Ok note, {| m := s.(m); notes := <[(brain, key) := existing ++ [note]]> s.(notes) |})
  end.

Definition ListNotes (brain : string) (scope : NoteScope) (key : Key) (s : t) : list Note.t :=
  default [] (s.(notes) !! (brain, key)).

Definition ClearNotes (brain : string) (scope : NoteScope) (key : Key) (s : t) : t :=
  {| m := s.(m); notes := delete (brain, key) s.(notes) |}.

(** ** Lemmas *)

Definition to_session (x : memSession) : session := (x.(id), x.(turns)).

(** Ids increase from 1 and every turn knows its position. *)
Record sessions_ok (l : list memSession) : Prop := {
  ok_non_empty : l <> [];
  ok_sorted : StronglySorted Z.lt (id <$> l);
  ok_positive : Forall (fun x => 1 <= x.(id))%Z l;
  ok_numbered : Forall (fun x => x.(turns) = number 0 x.(turns)) l
}.

Definition ok (s : t) : Prop := forall key l, s.(m) !! key = Some l -> sessions_ok l.

Lemma sessions_set key key' l s :
  sessions key' (set_sessions key l s) = if decide (key = key') then l else sessions key' s.
Proof. unfold sessions, set_sessions. simpl. rewrite lookup_insert. by case_decide. Qed.

Lemma split_last {A} (l : list A) (x : A) :
  last l = Some x -> l = take (length l - 1) l ++ [x].
Proof.
  intros [l' ->]%last_Some. rewrite length_app. simpl.
  replace (length l' + 1 - 1) with (length l') by lia. by rewrite take_app_length.
Qed.

Lemma number_app base ts us :
  number base (ts ++ us) = number base ts ++ number (base + Z.of_nat (length ts)) us.
Proof.
  revert base. induction ts as [|x ts IH]; intros base; simpl; [f_equal; lia|].
  rewrite IH. do 3 f_equal. lia.
Qed.

Lemma number_number base ts : number base (number base ts) = number base ts.
Proof. revert base. induction ts; intros; simpl; [done|]. by rewrite IHts. Qed.

Lemma set_ok key l s : ok s -> sessions_ok l -> ok (set_sessions key l s).
Proof.
  intros Hs Hl key' l'. simpl. rewrite lookup_insert. case_decide; [by intros [= <-]|].
  apply Hs.
Qed.

Lemma sessions_last key s : ok s ->
  match last (sessions key s) with
  | None => s.(m) !! key = None
  | Some x => exists old, s.(m) !! key = Some (old ++ [x]) /\ sessions key s = old ++ [x]
              /\ take (length (sessions key s) - 1) (sessions key s) = old
              /\ sessions_ok (old ++ [x])
  end.
Proof.
  intros Hs. unfold sessions. destruct (s.(m) !! key) as [l|] eqn:E; simpl; [|done].
  specialize (Hs _ _ E). destruct (last l) as [x|] eqn:El.
  - apply split_last in El as Hl. exists (take (length l - 1) l). rewrite <- Hl. done.
  - apply last_None in El. by destruct Hs.
Qed.

Lemma replace_last_ok old x ts :
  sessions_ok (old ++ [x]) -> ts = number 0 ts ->
  sessions_ok (old ++ [{| id := x.(id); turns := ts |}]).
Proof.
  intros [Hne Hs Hp Hn] Hts. split.
  - by destruct old.
  - rewrite fmap_app in *. done.
  - rewrite Forall_app, !Forall_singleton in *. done.
  - rewrite Forall_app, !Forall_singleton in *. naive_solver.
Qed.

Lemma first_session_ok ts :
  ts = number 0 ts -> sessions_ok [{| id := 1; turns := ts |}].
Proof. intros H. split; [done|repeat constructor|by repeat constructor|by constructor]. Qed.

Lemma AppendTurns_ok key ts s : ok s -> ok (AppendTurns key ts s).2.
Proof.
  intros Hs. unfold AppendTurns. destruct ts as [|x ts]; [done|]. unfold activeLocked.
  pose proof (sessions_last key s Hs) as Hl.
  destruct (last (sessions key s)) as [sess|]; simpl.
  - destruct Hl as (old & _ & _ & -> & Hok). apply set_ok; [done|].
    apply replace_last_ok; [done|]. rewrite number_app. simpl.
    destruct Hok as [_ _ _ Hn]. rewrite Forall_app, Forall_singleton in Hn.
    destruct Hn as [_ Hn]. f_equal; [done|]. symmetry.
    apply (number_number (Z.of_nat (length sess.(turns))) (x :: ts)).
  - apply set_ok; [done|]. apply first_session_ok. simpl. f_equal.
    symmetry. apply (number_number 1 ts).
Qed.

Lemma NewSession_ok key s : ok s -> ok (NewSession key s).2.
Proof.
  intros Hs. unfold NewSession. pose proof (sessions_last key s Hs) as Hl.
  destruct (last (sessions key s)) as [sess|]; simpl.
  - destruct Hl as (old & _ & -> & _ & [Hne Hsort Hp Hn]).
    case_bool_decide; simpl; [done|]. apply set_ok; [done|]. split.
    + by destruct old.
    + rewrite fmap_app. apply StronglySorted_app_2; [|done|repeat constructor].
      intros i j Hi Hj. apply list_elem_of_singleton in Hj as ->. simpl.
      rewrite fmap_app in Hi, Hsort. apply elem_of_app in Hi as [Hi|Hi].
      * pose proof (StronglySorted_app_1_elem_of _ _ _ i sess.(id) Hsort Hi ltac:(by left)). lia.
      * apply list_elem_of_singleton in Hi as ->. simpl. lia.
    + rewrite Forall_app, Forall_singleton. split; [done|]. simpl.
      rewrite Forall_app, Forall_singleton in Hp. destruct Hp. lia.
    + rewrite Forall_app, Forall_singleton. done.
  - apply set_ok; [done|]. by apply first_session_ok.
Qed.

Lemma DeleteSession_ok key n s : ok s -> ok (DeleteSession key n s).2.
Proof.
  intros Hs. unfold DeleteSession. pose proof (sessions_last key s Hs) as Hl.
  destruct (last (sessions key s)) as [sess|]; simpl; [|done].
  destruct Hl as (old & _ & -> & _ & [Hne Hsort Hp Hn]).
  case_bool_decide as Hid; simpl; [done|]. apply set_ok; [done|]. split.
  - rewrite filter_app, filter_cons_True by done. by destruct (filter _ old).
  - clear -Hsort. rewrite StronglySorted_fmap_iff in *. by apply StronglySorted_filter.
  - apply Forall_forall. intros y [_ Hy]%list_elem_of_filter. rewrite Forall_forall in Hp. auto.
  - apply Forall_forall. intros y [_ Hy]%list_elem_of_filter. rewrite Forall_forall in Hn. auto.
Qed.

Lemma DeleteConversation_ok key s : ok s -> ok (DeleteConversation key s).
Proof. intros Hs key' l. simpl. rewrite lookup_delete_Some. intros [_ H]. eauto. Qed.

(** ** Histories of calls, in the order the mutex serialises them *)

Inductive op :=
| CallAppendTurns (key : Key) (ts : list Turn.t)
| CallNewSession (key : Key)
| CallDeleteSession (key : Key) (n : Z)
| CallDeleteConversation (key : Key)
| CallAppendNote (timeNow : time) (brain : string) (scope : NoteScope) (key : Key)
    (content : string) (maxNotes : Z)
| CallClearNotes (brain : string) (scope : NoteScope) (key : Key).

Definition run_op (s : t) (o : op) : t :=
  match o with
  | CallAppendTurns key ts => (AppendTurns key ts s).2
  | CallNewSession key => (NewSession key s).2
  | CallDeleteSession key n => (DeleteSession key n s).2
  | CallDeleteConversation key => DeleteConversation key s
  | CallAppendNote now brain scope key content maxNotes =>
      (AppendNote now brain scope key content maxNotes s).2
  | CallClearNotes brain scope key => ClearNotes brain scope key s
  end.

Definition run_ops (ops : list op) : t := fold_left run_op ops NewMemStore.

Lemma AppendNote_m now brain scope key content maxNotes s :
  (AppendNote now brain scope key content maxNotes s).2.(m) = s.(m).
Proof. unfold AppendNote. by repeat case_match. Qed.

Lemma run_op_ok s o : ok s -> ok (run_op s o).
Proof.
  destruct o; simpl; auto using AppendTurns_ok, NewSession_ok, DeleteSession_ok,
    DeleteConversation_ok.
  intros Hs key' l. rewrite AppendNote_m. apply Hs.
Qed.

Lemma run_ops_ind (P : t -> Prop) (ops : list op) :
  P NewMemStore -> (forall s o, o ∈ ops -> P s -> P (run_op s o)) -> P (run_ops ops).
Proof.
  intros H0 Hstep. unfold run_ops. generalize dependent NewMemStore.
  induction ops as [|o ops IH]; intros s Hs; simpl; [done|].
  apply IH; [|apply Hstep; [left|done]]. intros s' o' Ho'. apply Hstep. by right.
Qed.

Lemma run_ops_ok ops : ok (run_ops ops).
Proof. apply run_ops_ind; [intros key l; simpl; by rewrite lookup_empty|auto using run_op_ok]. Qed.

Lemma number_lookup base ts i x :
  number base ts !! i = Some x -> x.(Turn.Seq) = (base + Z.of_nat i)%Z.
Proof.
  revert base i. induction ts as [|y ts IH]; intros base [|i]; simpl; try done.
  - intros [= <-]. simpl. lia.
  - intros ->%IH. lia.
Qed.

(** Whatever calls reach the store and in whatever order, every
    conversation it knows has sessions numbered by strictly increasing positive
    ids, the listing is never empty for it, and the turn at position [i] of any
    session carries sequence number [i]: nothing is renumbered by resets,
    deletions or concurrent appends. *)
Theorem sessions_stay_numbered (ops : list op) (key : Key) :
  let s := run_ops ops in
  (is_Some (s.(m) !! key) <-> ListSessions key s <> [])
  /\ StronglySorted Z.lt (SessionInfo.ID <$> ListSessions key s)
  /\ Forall (fun i => 1 <= i.(SessionInfo.ID))%Z (ListSessions key s)
  /\ forall n i x, LoadSession key n s !! i = Some x -> x.(Turn.Seq) = Z.of_nat i.
Proof.
  intros s. pose proof (run_ops_ok ops key) as Hok. fold s in Hok.
  unfold ListSessions, LoadSession, find_session, sessions.
  destruct (s.(m) !! key) as [l|]; simpl.
  - destruct (Hok l eq_refl) as [Hne Hs Hp Hn]. split_and!.
    + split; [intros _|by eexists]. by destruct l.
    + by rewrite <- list_fmap_compose.
    + rewrite Forall_map. done.
    + intros n i x. destruct (List.find _ l) as [sess|] eqn:Ef; simpl; [|done].
      apply List.find_some in Ef as [Hin _]. apply list_elem_of_In in Hin.
      rewrite Forall_forall in Hn. rewrite (Hn sess Hin). apply number_lookup.
  - split_and!; [|constructor|constructor|done]. split; [by intros [? ?]|done].
Qed.

(** Deleting the active session is refused and changes nothing;
    deleting any other one removes exactly that session: it loads empty, every
    other session and every other conversation loads as before, and so does the
    recent context. *)
Theorem active_session_is_protected (ops : list op) (key : Key) (n : Z)
    (err : option error) (s' : t) :
  let s := run_ops ops in
  DeleteSession key n s = (err, s') ->
  (err = Some ErrActiveSession <-> exists x, last (sessions key s) = Some x /\ x.(id) = n)
  /\ (err <> None -> s' = s)
  /\ (err = None -> LoadSession key n s' = []
      /\ (forall key' k, (key', k) <> (key, n) -> LoadSession key' k s' = LoadSession key' k s)
      /\ forall key' k, LoadRecent key' k s' = LoadRecent key' k s).
Proof.
  intros s. pose proof (sessions_last key s (run_ops_ok ops)) as Hl. unfold DeleteSession.
  destruct (last (sessions key s)) as [x|] eqn:El.
  - destruct Hl as (old & Hm & Hs & _ & Hok). case_bool_decide as Hid; intros [= <- <-].
    + split_and!; [naive_solver|done|done].
    + split_and!; [naive_solver|done|]. intros _.
      assert (forall k (l : list memSession), k <> n ->
        List.find (fun y => bool_decide (y.(id) = k)) (filter (fun y => y.(id) <> n) l)
        = List.find (fun y => bool_decide (y.(id) = k)) l) as Hfind.
      { intros k l Hk. induction l as [|y l IH]; [done|]. rewrite filter_cons.
        case_decide; simpl; [by rewrite IH|]. rewrite bool_decide_eq_false_2; [done|].
        intros <-. tauto. }
      split_and!.
      * unfold LoadSession, find_session. rewrite sessions_set, decide_True by done.
        destruct (List.find _ _) as [y|] eqn:Ef; [|done].
        apply List.find_some in Ef as [Hin Hy]. bools. apply list_elem_of_In in Hin.
        apply list_elem_of_filter in Hin as [? _]. done.
      * intros key' k Hne. unfold LoadSession, find_session. rewrite sessions_set.
        case_decide as Hk; [|done]. subst key'. rewrite Hfind; [done|congruence].
      * intros key' k. unfold LoadRecent. rewrite sessions_set. case_decide as Hk; [|done].
        subst key'. rewrite Hs, filter_app, filter_cons_True by done. simpl.
        by rewrite filter_nil, !last_snoc.
  - intros [= <- <-]. split_and!; [naive_solver|done|]. intros _.
    split_and!; [|done|done]. unfold LoadSession, find_session.
    apply last_None in El. by rewrite El.
Qed.

(** The scope/key pairs the derivation can produce are the ones the store takes. *)
Lemma EffectiveNoteScope_CheckNotePair configured key scope key' :
  EffectiveNoteScope configured key = Ok (scope, key') -> CheckNotePair scope key' = None.
Proof.
  unfold EffectiveNoteScope, CheckNotePair. repeat case_bool_decide; intros; simplify_eq/=; done.
Qed.

Lemma run_op_notes s o :
  (run_op s o).(notes) = s.(notes)
  \/ (exists now b scope k content mx, o = CallAppendNote now b scope k content mx)
  \/ (exists b scope k, o = CallClearNotes b scope k).
Proof.
  destruct o as [k ts|k|k n|k|now b scope k content mx|b scope k]; simpl; eauto 10; left.
  - unfold AppendTurns. destruct ts; [done|]. by destruct (activeLocked _ _).
  - unfold NewSession. by repeat case_match.
  - unfold DeleteSession. by repeat case_match.
Qed.

(** The note box is bounded and never leaks scope.  If every append to
    a scope is made under a positive cap of at most [cap], the box never holds
    more than [cap] notes, numbered from 1; an append at the cap is refused and
    stores nothing.  A pair with the wrong key for its scope is refused, and
    whatever pair [EffectiveNoteScope] derives is accepted. *)
Theorem note_box_is_bounded (ops : list op) (brain : string) (key : Key) (cap : Z) :
  (forall now b scope k content mx, CallAppendNote now b scope k content mx ∈ ops ->
     b = brain -> k = key -> (0 < mx <= cap)%Z) ->
  let s := run_ops ops in
  let box := ListNotes brain ScopeConversation key s in
  (Z.of_nat (length box) <= Z.max 0 cap)%Z
  /\ (forall i x, box !! i = Some x -> x.(Note.Seq) = (Z.of_nat i + 1)%Z)
  /\ (forall now scope content mx, (0 < mx)%Z -> (mx <= Z.of_nat (length box))%Z ->
       exists e, AppendNote now brain scope key content mx s = (Err e, s))
  /\ (forall now configured k scope content mx,
       EffectiveNoteScope configured k = Ok (scope, key) ->
       (Z.of_nat (length box) < mx)%Z ->
       exists x s', AppendNote now brain scope key content mx s = (Ok x, s')
         /\ ListNotes brain scope key s' = box ++ [x]).
Proof.
  intros Hcap s box. split_and!.
  - apply (run_ops_ind (fun s => Z.of_nat (length (default [] (s.(notes) !! (brain, key))))
             <= Z.max 0 cap)%Z); [simpl; rewrite lookup_empty; simpl; lia|].
    intros s0 o Ho IH. destruct (run_op_notes s0 o)
      as [->|[(now & b & scope & k & content & mx & ->)|(b & scope & k & ->)]]; simpl; [done|..].
    + specialize (Hcap _ _ _ _ _ _ Ho). unfold AppendNote. case_match; [done|].
      destruct (_ && _) eqn:Eb; simpl; [done|]. rewrite lookup_insert.
      case_decide as Hd; [|done]. injection Hd as -> ->. specialize (Hcap eq_refl eq_refl).
      simpl. rewrite length_app. simpl. bools. destruct Eb; bools; lia.
    + rewrite lookup_delete. case_decide; simpl; [lia|done].
  - apply (run_ops_ind (fun s => forall i x,
       default [] (s.(notes) !! (brain, key)) !! i = Some x -> x.(Note.Seq) = (Z.of_nat i + 1)%Z));
      [intros i x; simpl; by rewrite lookup_empty|].
    intros s0 o Ho IH. destruct (run_op_notes s0 o)
      as [->|[(now & b & scope & k & content & mx & ->)|(b & scope & k & ->)]]; simpl; [done|..].
    + unfold AppendNote. case_match; [done|]. destruct (_ && _); simpl; [done|].
      rewrite lookup_insert. case_decide as Hd; [|done]. injection Hd as -> ->.
      intros i x. simpl. intros [Hi|[Hlen Hi]]%lookup_app_Some; [by apply IH|].
      apply list_lookup_singleton_Some in Hi as [Hi <-]. simpl. lia.
    + rewrite lookup_delete. case_decide; simpl; [done|done].
  - intros now scope content mx H1 H2. unfold AppendNote. case_match; [eauto|].
    unfold box, ListNotes in H2. rewrite (proj2 (Z.ltb_lt _ _)), (proj2 (Z.leb_le _ _)) by done.
    eauto.
  - intros now configured k scope content mx He Hlt. unfold AppendNote.
    rewrite (EffectiveNoteScope_CheckNotePair _ _ _ _ He).
    rewrite (proj2 (Z.leb_gt _ _)), andb_false_r by done.
    eexists _, _. split; [done|]. unfold ListNotes. simpl. by rewrite lookup_insert_eq.
Qed.

End MemStore.

(** ** The in-memory store keeps the seam's promises *)

#[export] Instance MemStore_SessionStore : SessionStore MemStore.t := {|
  store_LoadRecent := MemStore.LoadRecent;
  store_AppendTurns := MemStore.AppendTurns;
  store_NewSession := MemStore.NewSession;
  store_LoadSession := MemStore.LoadSession;
  store_DeleteSession := MemStore.DeleteSession;
  store_DeleteConversation := MemStore.DeleteConversation
|}.

Definition mem_history (s : MemStore.t) (key : Key) : list session :=
  MemStore.to_session <$> MemStore.sessions key s.

Lemma mem_history_last s key :
  last (mem_history s key) = MemStore.to_session <$> last (MemStore.sessions key s).
Proof. unfold mem_history. apply fmap_last. Qed.

Lemma mem_LoadRecent s key n :
  MemStore.LoadRecent key n s = tail_of n (default [] (snd <$> last (mem_history s key))).
Proof.
  rewrite mem_history_last. unfold MemStore.LoadRecent, tail_of.
  destruct (n <=? 0)%Z eqn:En; [done|]. bools.
  destruct (last (MemStore.sessions key s)) as [sess|]; [|simpl; by rewrite ?drop_nil].
  simpl. f_equal. case_match; bools; lia.
Qed.

Lemma mem_set_other s key key' l :
  key' <> key -> mem_history (MemStore.set_sessions key l s) key' = mem_history s key'.
Proof. intros Hne. unfold mem_history. by rewrite MemStore.sessions_set, decide_False. Qed.

Lemma mem_set_same s key l :
  mem_history (MemStore.set_sessions key l s) key = MemStore.to_session <$> l.
Proof. unfold mem_history. by rewrite MemStore.sessions_set, decide_True. Qed.

Lemma mem_ids s key : MemStore.ok s -> StronglySorted Z.lt (mem_history s key).*1.
Proof.
  intros Hs. unfold mem_history. rewrite <- list_fmap_compose.
  change (fst ∘ MemStore.to_session) with MemStore.id. unfold MemStore.sessions.
  destruct (s.(MemStore.m) !! key) as [l|] eqn:E; simpl; [|constructor].
  by destruct (Hs _ _ E).
Qed.

#[export] Program Instance MemStore_Laws : SessionStoreLaws MemStore.t := {|
  history := mem_history;
  store_inv := MemStore.ok
|}.
Next Obligation. intros s key. apply mem_ids. Qed.
Next Obligation. intros s key n _. apply mem_LoadRecent. Qed.
Next Obligation.
  intros s key turns out s' Hs Hne Ha. simpl in Ha.
  pose proof (MemStore.AppendTurns_ok key turns s Hs) as Hok. rewrite Ha in Hok.
  rewrite mem_history_last. pose proof (MemStore.sessions_last key s Hs) as Hl.
  unfold MemStore.AppendTurns, MemStore.activeLocked in Ha. destruct turns as [|x ts]; [done|].
  destruct (last (MemStore.sessions key s)) as [sess|].
  - destruct Hl as (old & _ & Hses & Htake & _). rewrite Htake in Ha. injection Ha as <- <-.
    simpl. split_and!; [done| |intros; by rewrite mem_set_other|done].
    rewrite mem_set_same, fmap_app. f_equal. unfold mem_history.
    rewrite Hses, fmap_app, length_app, length_fmap. simpl.
    replace (length old + 1 - 1) with (length (MemStore.to_session <$> old))
      by (rewrite length_fmap; lia).
    by rewrite take_app_length.
  - injection Ha as <- <-. simpl.
    split_and!; [done|by rewrite mem_set_same|intros; by rewrite mem_set_other|done].
Qed.
Next Obligation.
  intros s key id s' Hs Hn. simpl in Hn.
  pose proof (MemStore.NewSession_ok key s Hs) as Hok. rewrite Hn in Hok.
  pose proof (MemStore.sessions_last key s Hs) as Hl. unfold MemStore.NewSession in Hn.
  destruct (last (MemStore.sessions key s)) as [sess|] eqn:El.
  - destruct Hl as (old & _ & Hses & _ & _). case_bool_decide as Hz; injection Hn as <- <-.
    + split_and!; auto. rewrite mem_history_last, El. simpl. unfold MemStore.to_session.
      by destruct (MemStore.turns sess).
    + rewrite mem_set_same, fmap_app, list_fmap_singleton.
      split_and!; [by rewrite last_snoc| | |intros; by rewrite mem_set_other|done].
      * intros i ts [Hi|Hi%list_elem_of_singleton]%elem_of_app; [by left|by right].
      * intros i ts Hi. apply elem_of_app. by left.
  - injection Hn as <- <-. rewrite mem_set_same.
    split_and!; [done| | |intros; by rewrite mem_set_other|done].
    + intros i ts Hi%list_elem_of_singleton. by right.
    + intros i ts. unfold mem_history, MemStore.sessions. rewrite Hl. simpl. set_solver.
Qed.


(** ** Concrete executions *)

Definition example_turn (role content : string) : Turn.t :=
  {| Turn.Role := role; Turn.Content := content; Turn.Timestamp := 7; Turn.Seq := 0 |}.

Definition example_store : MemStore.t :=
  MemStore.run_ops [MemStore.CallAppendTurns "telegram::1" [example_turn RoleUser "hi"]].


Lemma active_session_is_protected_witness :
  let s := MemStore.run_ops
    [MemStore.CallAppendTurns "telegram::1" [example_turn RoleUser "hi"];
     MemStore.CallNewSession "telegram::1"] in
  let s' := (MemStore.DeleteSession "telegram::1" 1 s).2 in
  (MemStore.DeleteSession "telegram::1" 2 s).1 = Some ErrActiveSession
  /\ MemStore.LoadSession "telegram::1" 1 s' = []
  /\ forall key' k, MemStore.LoadRecent key' k s' = MemStore.LoadRecent key' k s.
Proof.
  split; [reflexivity|].
  destruct (MemStore.active_session_is_protected
    [MemStore.CallAppendTurns "telegram::1" [example_turn RoleUser "hi"];
     MemStore.CallNewSession "telegram::1"] "telegram::1" 1 None _ eq_refl) as (_ & _ & H).
  destruct (H eq_refl) as (H1 & _ & H2). exact (conj H1 H2).
Defined.

Lemma note_box_is_bounded_witness :
  (Z.of_nat (length (MemStore.ListNotes "b" ScopeConversation "telegram::1"
     (MemStore.run_ops [MemStore.CallAppendNote 5 "b" ScopeConversation "telegram::1" "x" 1;
                        MemStore.CallAppendNote 6 "b" ScopeConversation "telegram::1" "y" 1])))
   <= Z.max 0 1)%Z.
Proof.
  apply (MemStore.note_box_is_bounded
    [MemStore.CallAppendNote 5 "b" ScopeConversation "telegram::1" "x" 1;
     MemStore.CallAppendNote 6 "b" ScopeConversation "telegram::1" "y" 1] "b" "telegram::1" 1).
  intros now b scope k content mx H _ _.
  apply elem_of_cons in H as [H|H]; [injection H as _ _ _ _ _ ->; lia|].
  apply list_elem_of_singleton in H. injection H as _ _ _ _ _ ->. lia.
Defined.
