(* ===== verification/Dedup.v ===== *)
(** * Inbound deduplication

    [internal/router/dedup.go]: the bounded LRU and TTL window of event ids.
    The doubly linked list is a sequence of elements with an identity, front
    first, and [byKey] maps a key to the identity of its element. *)

From S2P Require Import Prelude Json Text Envelope.

Definition DedupCapacity : Z := 4096%Z.
Definition DedupTTL : duration := (10 * Minute)%Z.
Definition ErrDuplicateEvent : error := ErrorNew "router: duplicate event dropped".

Definition MetaProviderEventID : string := "provider.event_id".

(** An element of [container/list] and the entry it points to. *)
Record element := {
  el_id : nat;
  key : string;
  seen_at : time
}.

Record dedupWindow := {
  cap : Z;
  ttl : duration;
  order : list element;
  byKey : gmap string nat;
  next_id : nat
}.

Definition newDedupWindow (capacity : Z) (ttl_ : duration) : dedupWindow :=
  {| cap := capacity; ttl := ttl_; order := []; byKey := ∅; next_id := 0 |}.

Definition with_order (o : list element) (b : gmap string nat) (n : nat)
    (w : dedupWindow) : dedupWindow :=
  {| cap := w.(cap); ttl := w.(ttl); order := o; byKey := b; next_id := n |}.

Definition find_element (i : nat) (l : list element) : option element :=
  List.find (fun el => Nat.eqb el.(el_id) i) l.

Definition remove_element (i : nat) (l : list element) : list element :=
  filter (fun el => el.(el_id) <> i) l.

(** Stamps the entry and moves its element to the front. *)
Definition refresh (el : element) (now : time) (w : dedupWindow) : dedupWindow :=
  with_order ({| el_id := el.(el_id); key := el.(key); seen_at := now |}
              :: remove_element el.(el_id) w.(order)) w.(byKey) w.(next_id) w.

(** [PushFront] of a fresh entry. *)
Definition push_front (k : string) (now : time) (w : dedupWindow) : dedupWindow :=
  with_order ({| el_id := w.(next_id); key := k; seen_at := now |} :: w.(order))
    (<[k := w.(next_id)]> w.(byKey)) (S w.(next_id)) w.

(** Drops the element at the back, if any. *)
Definition evict_oldest (w : dedupWindow) : dedupWindow :=
  match last w.(order) with
  | None => w
  | Some oldest =>
      with_order (remove_element oldest.(el_id) w.(order))
        (delete oldest.(key) w.(byKey)) w.(next_id) w
  end.

Definition seen (k : string) (now : time) (w : dedupWindow) : bool * dedupWindow :=
  match w.(byKey) !! k ≫= fun i => find_element i w.(order) with
  | Some el =>
      if (time_sub now el.(seen_at) <=? w.(ttl))%Z
      then (true, refresh el now w)
      else (false, refresh el now w)
  | None =>
      let w1 := if (w.(cap) <=? Z.of_nat (length w.(order)))%Z then evict_oldest w else w in
      (false, push_front k now w1)
  end.

Definition forget (k : string) (w : dedupWindow) : dedupWindow :=
  match w.(byKey) !! k with
  | Some i => with_order (remove_element i w.(order)) (delete k w.(byKey)) w.(next_id) w
  | None => w
  end.

Definition nul : string := encode_rune 0.

Definition dedupKey (env : Envelope.t) : string :=
  let id := meta env MetaProviderEventID in
  if bool_decide (id = "") then ""
  else env.(Envelope.Channel) +:+ nul +:+ id.

(** ** Histories of calls, newest first *)

Inductive event :=
| Seen (k : string) (now : time)
| Forget (k : string).

Fixpoint after (capacity : Z) (ttl_ : duration) (h : list event) : dedupWindow :=
  match h with
  | [] => newDedupWindow capacity ttl_
  | Seen k now :: h' => (seen k now (after capacity ttl_ h')).2
  | Forget k :: h' => forget k (after capacity ttl_ h')
  end.

(** When [k] was last seen, unless it was forgotten since. *)
Fixpoint last_touch (k : string) (h : list event) : option time :=
  match h with
  | [] => None
  | Seen k' now :: h' => if bool_decide (k' = k) then Some now else last_touch k h'
  | Forget k' :: h' => if bool_decide (k' = k) then None else last_touch k h'
  end.

(** The other keys seen since [k] was. *)
Fixpoint touched_since (k : string) (h : list event) : gset string :=
  match h with
  | [] => ∅
  | Seen k' _ :: h' => if bool_decide (k' = k) then ∅ else {[ k' ]} ∪ touched_since k h'
  | Forget _ :: h' => touched_since k h'
  end.

(** ** Lemmas *)

Record window_ok (h : list event) (w : dedupWindow) : Prop := {
  ok_ids : NoDup (el_id <$> w.(order));
  ok_keys : NoDup (key <$> w.(order));
  ok_fresh : Forall (fun el => el.(el_id) < w.(next_id)) w.(order);
  ok_index : forall k i, w.(byKey) !! k = Some i <->
    exists el, el ∈ w.(order) /\ el.(key) = k /\ el.(el_id) = i;
  ok_size : (Z.of_nat (length w.(order)) <= Z.max 1 w.(cap))%Z;
  ok_time : Forall (fun el => last_touch el.(key) h = Some el.(seen_at)) w.(order);
  ok_recency : StronglySorted (fun a b => a.(key) ∈ touched_since b.(key) h) w.(order);
  ok_complete : forall k t, last_touch k h = Some t ->
    k ∈ (key <$> w.(order)) \/ (Z.max 1 w.(cap) <= Z.of_nat (size (touched_since k h)))%Z
}.

Lemma find_element_Some i l el :
  find_element i l = Some el -> el ∈ l /\ el.(el_id) = i.
Proof.
  unfold find_element. intros [H1 H2]%List.find_some. apply Nat.eqb_eq in H2.
  by rewrite list_elem_of_In.
Qed.

Lemma find_element_in l el :
  NoDup (el_id <$> l) -> el ∈ l -> find_element el.(el_id) l = Some el.
Proof.
  intros Hnd Hin. induction l as [|x l IH]; [set_solver|]. unfold find_element. simpl.
  rewrite fmap_cons in Hnd. apply NoDup_cons in Hnd as [Hx Hnd].
  destruct (Nat.eqb_spec x.(el_id) el.(el_id)) as [He|He].
  - apply elem_of_cons in Hin as [->|Hin]; [done|]. destruct Hx. rewrite He.
    by apply list_elem_of_fmap_2.
  - apply IH; [done|]. set_solver.
Qed.

(** The lookup of [seen] finds the element of that key, if there is one. *)
Lemma lookup_spec h w k : window_ok h w ->
  match w.(byKey) !! k ≫= fun i => find_element i w.(order) with
  | Some el => el ∈ w.(order) /\ el.(key) = k
  | None => k ∉ (key <$> w.(order))
  end.
Proof.
  intros [Hids Hkeys _ Hidx _ _ _ _]. destruct (w.(byKey) !! k) as [i|] eqn:E; simpl.
  - apply Hidx in E as (el & Hin & Hk & <-). rewrite (find_element_in _ _ Hids Hin). done.
  - intros (el & -> & Hin)%list_elem_of_fmap.
    assert (w.(byKey) !! el.(key) = Some el.(el_id)) as H by (apply Hidx; eauto). congruence.
Qed.

Lemma last_touch_other k k' now h :
  k <> k' -> last_touch k' (Seen k now :: h) = last_touch k' h.
Proof. intros. simpl. by rewrite bool_decide_eq_false_2. Qed.

Lemma touched_since_other k k' now h :
  k <> k' -> touched_since k' (Seen k now :: h) = {[ k ]} ∪ touched_since k' h.
Proof. intros. simpl. by rewrite bool_decide_eq_false_2. Qed.

Lemma in_remove el i l : el ∈ remove_element i l <-> el ∈ l /\ el.(el_id) <> i.
Proof. unfold remove_element. rewrite list_elem_of_filter. tauto. Qed.

(** Removing the element of [k] leaves exactly the elements of other keys. *)
Lemma in_remove_key h w el x :
  window_ok h w -> el ∈ w.(order) ->
  x ∈ remove_element el.(el_id) w.(order) <-> x ∈ w.(order) /\ x.(key) <> el.(key).
Proof.
  intros [Hids Hkeys _ _ _ _ _ _] Hin. rewrite in_remove.
  split; intros [Hx Hne]; (split; [done|]); intros Heq; apply Hne.
  - apply (NoDup_fmap_inj key w.(order)) in Heq; [by subst|done..].
  - apply (NoDup_fmap_inj el_id w.(order)) in Heq; [by subst|done..].
Qed.

(** A list whose elements other than [k] are old ones, with [k] in front, is in
    recency order after [k] was seen. *)
Lemma front_ok h (l : list element) (el : element) now :
  Forall (fun x => x.(key) <> el.(key)) l ->
  StronglySorted (fun a b => a.(key) ∈ touched_since b.(key) h) l ->
  Forall (fun x => last_touch x.(key) h = Some x.(seen_at)) l ->
  el.(seen_at) = now ->
  StronglySorted (fun a b => a.(key) ∈ touched_since b.(key) (Seen el.(key) now :: h)) (el :: l)
  /\ Forall (fun x => last_touch x.(key) (Seen el.(key) now :: h) = Some x.(seen_at)) (el :: l).
Proof.
  intros Hne Hs Ht Hnow. rewrite Forall_forall in Hne, Ht. split.
  - constructor.
    + eapply StronglySorted_weaken; [|exact Hs]. intros x y Hx Hy Hxy.
      rewrite touched_since_other by (intros He; by apply (Hne y)). set_solver.
    + apply Forall_forall. intros y Hy.
      rewrite touched_since_other by (intros He; by apply (Hne y)). set_solver.
  - constructor; [simpl; by rewrite bool_decide_eq_true_2, Hnow|].
    apply Forall_forall. intros y Hy.
    rewrite last_touch_other by (intros He; by apply (Hne y)). auto.
Qed.

Lemma refresh_ok h w el now :
  window_ok h w -> el ∈ w.(order) -> window_ok (Seen el.(key) now :: h) (refresh el now w).
Proof.
  intros Hok Hin. pose proof (fun x => in_remove_key h w el x Hok Hin) as Hrem.
  pose proof Hok as [Hids Hkeys Hfr Hidx Hsz Ht Hr Hc].
  destruct (front_ok h (remove_element el.(el_id) w.(order))
    {| el_id := el.(el_id); key := el.(key); seen_at := now |} now) as [Hs' Ht']; simpl.
  { apply Forall_forall. intros x Hx. by apply Hrem in Hx as [_ ?]. }
  { by apply StronglySorted_filter. }
  { rewrite Forall_forall in *. intros x Hx. apply Hrem in Hx as [? _]. auto. }
  { done. }
  split; simpl; try done.
  - constructor; [|by apply NoDup_fmap_filter].
    intros (x & Hx & [_ ?]%in_remove)%list_elem_of_fmap. congruence.
  - constructor; [|by apply NoDup_fmap_filter].
    intros (x & Hx & [_ ?]%Hrem)%list_elem_of_fmap. congruence.
  - rewrite Forall_forall in *. intros x [->|Hx]%elem_of_cons; simpl; [by apply Hfr|].
    apply Hrem in Hx as [? _]. auto.
  - intros k i. rewrite Hidx. split.
    + intros (x & Hx & <- & <-). destruct (decide (x.(key) = el.(key))) as [He|He].
      * apply (NoDup_fmap_inj key w.(order)) in He; [subst|done..].
        eexists. split; [by left|done].
      * exists x. split; [right; by apply Hrem|done].
    + intros (x & [->|Hx]%elem_of_cons & <- & <-); simpl; [eauto|].
      apply Hrem in Hx as [? _]. eauto.
  - assert (length (remove_element el.(el_id) w.(order)) < length w.(order)).
    { unfold remove_element. apply (length_filter_lt _ _ el); [done|naive_solver]. }
    lia.
  - intros k t Hk. destruct (decide (el.(key) = k)) as [<-|Hne]; [left; by left|].
    rewrite bool_decide_eq_false_2 in Hk by done. apply Hc in Hk as [Hk|Hk].
    + left. right. apply list_elem_of_fmap in Hk as (x & -> & Hx).
      apply list_elem_of_fmap_2. by apply Hrem.
    + right. rewrite bool_decide_eq_false_2 by done.
      assert (size (touched_since k h) <= size ({[ el.(key) ]} ∪ touched_since k h)).
      { apply subseteq_size. set_solver. }
      lia.
Qed.

Lemma remove_last pre oldest :
  NoDup (el_id <$> pre ++ [oldest]) -> remove_element oldest.(el_id) (pre ++ [oldest]) = pre.
Proof.
  rewrite fmap_app, NoDup_app. intros (_ & Hd & _). unfold remove_element.
  rewrite filter_app, filter_cons_False, filter_nil, app_nil_r by naive_solver.
  apply filter_all, Forall_forall. intros x Hx He. apply (Hd x.(el_id)).
  - by apply list_elem_of_fmap_2.
  - rewrite He. by left.
Qed.

(** The window once room was made: what was dropped, and why. *)
Definition made_room (w w1 : dedupWindow) : Prop :=
  w1.(cap) = w.(cap) /\ w1.(ttl) = w.(ttl) /\ w1.(next_id) = w.(next_id)
  /\ ((w1 = w /\ (Z.of_nat (length w.(order)) < w.(cap) \/ w.(order) = [])%Z)
      \/ exists oldest, w.(order) = w1.(order) ++ [oldest]
         /\ w1.(byKey) = delete oldest.(key) w.(byKey)
         /\ (w.(cap) <= Z.of_nat (length w.(order)))%Z).

Lemma make_room h w : window_ok h w ->
  made_room w (if (w.(cap) <=? Z.of_nat (length w.(order)))%Z then evict_oldest w else w).
Proof.
  intros [Hids _ _ _ _ _ _ _]. unfold made_room. destruct (_ <=? _)%Z eqn:E; bools.
  - unfold evict_oldest. destruct (last w.(order)) as [oldest|] eqn:El.
    + apply last_Some in El as [pre Hp]. split_and!; try done. right. exists oldest. simpl.
      rewrite Hp, remove_last by (by rewrite <- Hp). split_and!; [done|done|by rewrite <- Hp].
    + apply last_None in El. split_and!; try done. left. auto.
  - split_and!; try done. left. auto.
Qed.

(** The index still describes the elements that are left. *)
Lemma made_room_index h w w1 : window_ok h w -> made_room w w1 ->
  (forall el, el ∈ w1.(order) -> el ∈ w.(order))
  /\ forall k i, w1.(byKey) !! k = Some i <->
     exists el, el ∈ w1.(order) /\ el.(key) = k /\ el.(el_id) = i.
Proof.
  intros [_ Hkeys _ Hidx _ _ _ _] (_ & _ & _ & [[-> _]|(oldest & Ho & Hb & _)]); [done|].
  rewrite Ho in Hidx, Hkeys. rewrite fmap_app, NoDup_app in Hkeys.
  destruct Hkeys as (_ & Hd & _). split.
  - intros el Hel. rewrite Ho. apply elem_of_app. by left.
  - intros k i. rewrite Hb, lookup_delete_Some, Hidx. split.
    + intros [Hne (el & [Hel|Hel%list_elem_of_singleton]%elem_of_app & Hk & Hi)]; [eauto|].
      subst. done.
    + intros (el & Hel & <- & <-). split.
      * intros He. apply (Hd el.(key)); [by apply list_elem_of_fmap_2|]. rewrite <- He. by left.
      * exists el. split; [apply elem_of_app; by left|done].
Qed.

Lemma made_room_sub h w w1 : window_ok h w -> made_room w w1 ->
  NoDup (el_id <$> w1.(order)) /\ NoDup (key <$> w1.(order))
  /\ Forall (fun el => el.(el_id) < w.(next_id)) w1.(order)
  /\ Forall (fun el => last_touch el.(key) h = Some el.(seen_at)) w1.(order)
  /\ StronglySorted (fun a b => a.(key) ∈ touched_since b.(key) h) w1.(order)
  /\ (Z.of_nat (S (length w1.(order))) <= Z.max 1 w.(cap))%Z.
Proof.
  intros [Hids Hkeys Hfr _ Hsz Ht Hr _] (_ & _ & _ & [[-> Hc]|(oldest & Ho & _ & Hc)]).
  - split_and!; try done. destruct Hc as [Hc| ->]; simpl; lia.
  - rewrite Ho in Hids, Hkeys, Hfr, Hsz, Ht, Hr. rewrite fmap_app in Hids.
    rewrite fmap_app in Hkeys. rewrite Forall_app in Hfr. rewrite Forall_app in Ht.
    split_and!; try tauto.
    + by apply NoDup_app in Hids as (? & _).
    + by apply NoDup_app in Hkeys as (? & _).
    + by eapply StronglySorted_app_1_l.
    + rewrite length_app in Hsz. simpl in Hsz. lia.
Qed.

(** An evicted key was followed by a full window of other keys. *)
Lemma made_room_complete h w w1 k now t : window_ok h w -> made_room w w1 ->
  k ∉ (key <$> w.(order)) -> forall k', k' <> k -> last_touch k' h = Some t ->
  k' ∈ (key <$> w1.(order))
  \/ (Z.max 1 w.(cap) <= Z.of_nat (size (touched_since k' (Seen k now :: h))))%Z.
Proof.
  intros [Hids Hkeys Hfr _ Hsz Ht Hr Hcomp] Hroom Hnew k' Hne Hlast.
  rewrite touched_since_other by done.
  destruct (Hcomp k' t Hlast) as [Hin|Hbig].
  - destruct Hroom as (_ & _ & _ & [[-> _]|(oldest & Ho & _ & Hc)]); [by left|].
    rewrite Ho, fmap_app in Hin. apply elem_of_app in Hin as [Hin|Hin]; [by left|right].
    apply list_elem_of_singleton in Hin as ->. rewrite Ho in Hr, Hc, Hnew, Hkeys, Hsz.
    assert (list_to_set (k :: (key <$> w1.(order))) ⊆@{gset string}
            {[ k ]} ∪ touched_since oldest.(key) h) as Hsub.
    { simpl. apply union_mono_l. intros x Hx. apply elem_of_list_to_set in Hx.
      apply list_elem_of_fmap in Hx as (el & -> & Hel).
      apply (StronglySorted_app_1_elem_of _ _ _ el oldest Hr Hel). by left. }
    apply subseteq_size in Hsub. rewrite size_list_to_set in Hsub.
    + simpl in Hsub. rewrite length_fmap in Hsub. rewrite length_app in Hc. simpl in *. lia.
    + rewrite fmap_app in Hnew. rewrite fmap_app in Hkeys. constructor; [set_solver|].
      by apply NoDup_app in Hkeys as (? & _).
  - right. assert (size (touched_since k' h) <= size ({[ k ]} ∪ touched_since k' h)).
    { apply subseteq_size. set_solver. } lia.
Qed.

Lemma admit_ok h w w1 k now : window_ok h w -> made_room w w1 ->
  k ∉ (key <$> w.(order)) -> window_ok (Seen k now :: h) (push_front k now w1).
Proof.
  intros Hok Hroom Hnew.
  destruct (made_room_sub h w w1 Hok Hroom) as (Hids & Hkeys & Hfr & Ht & Hr & Hsz).
  destruct (made_room_index h w w1 Hok Hroom) as [Hsub Hidx].
  assert (k ∉ (key <$> w1.(order))) as Hnew1.
  { intros (x & -> & Hx)%list_elem_of_fmap. apply Hnew. apply list_elem_of_fmap_2. auto. }
  pose proof Hroom as (Hcap & _ & Hnext & _).
  destruct (front_ok h w1.(order) {| el_id := w1.(next_id); key := k; seen_at := now |} now)
    as [Hs' Ht']; simpl; [|done..|].
  { apply Forall_forall. intros x Hx Hk. apply Hnew1. rewrite <- Hk. by apply list_elem_of_fmap_2. }
  rewrite Forall_forall in Hfr. split; simpl; try done.
  - constructor; [|done]. intros (x & Hx & Hin)%list_elem_of_fmap. apply Hfr in Hin. lia.
  - by constructor.
  - constructor; [simpl; lia|]. apply Forall_forall. intros x Hx. apply Hfr in Hx. lia.
  - intros k' i. rewrite lookup_insert. case_decide as Hd; [subst k'|].
    + split.
      * intros [= <-]. eexists. split; [by left|done].
      * intros (x & [->|Hx]%elem_of_cons & Hk & <-); [done|]. destruct Hnew1. rewrite <- Hk.
        by apply list_elem_of_fmap_2.
    + rewrite Hidx. split; intros (x & Hx & Hk & Hi).
      * exists x. split; [by right|done].
      * apply elem_of_cons in Hx as [->|Hx]; [done|eauto].
  - rewrite Hcap. done.
  - intros k' t. destruct (decide (k = k')) as [<-|Hd]; [intros _; left; by left|].
    rewrite bool_decide_eq_false_2 by done. intros Hl.
    destruct (made_room_complete h w w1 k now t Hok Hroom Hnew k' ltac:(done) Hl) as [Hin|Hbig].
    + left. by right.
    + right. rewrite Hcap. by rewrite touched_since_other in Hbig.
Qed.

Lemma forget_ok h w k : window_ok h w -> window_ok (Forget k :: h) (forget k w).
Proof.
  intros Hok. pose proof Hok as [Hids Hkeys Hfr Hidx Hsz Ht Hr Hc]. unfold forget.
  destruct (w.(byKey) !! k) as [i|] eqn:E.
  - apply Hidx in E as (el & Hin & <- & <-).
    pose proof (fun x => in_remove_key h w el x Hok Hin) as Hrem. split; simpl.
    + by apply NoDup_fmap_filter.
    + by apply NoDup_fmap_filter.
    + rewrite Forall_forall in *. intros x [? _]%Hrem. auto.
    + intros k i. rewrite lookup_delete_Some, Hidx. setoid_rewrite Hrem. naive_solver.
    + pose proof (length_filter (fun x => x.(el_id) <> el.(el_id)) w.(order)).
      unfold remove_element. lia.
    + rewrite Forall_forall in *. intros x [Hx Hne]%Hrem.
      rewrite bool_decide_eq_false_2 by done. auto.
    + by apply StronglySorted_filter.
    + intros k t. case_bool_decide as Hk; [done|]. intros [Hl|Hl]%Hc; [left|by right].
      apply list_elem_of_fmap in Hl as (x & -> & Hx). apply list_elem_of_fmap_2.
      apply Hrem. auto.
  - assert (forall x, x ∈ w.(order) -> k <> x.(key)) as Hno.
    { intros x Hx ->. assert (w.(byKey) !! x.(key) = Some x.(el_id)) by (apply Hidx; eauto).
      congruence. }
    split; simpl; try done.
    + rewrite Forall_forall in *. intros x Hx. rewrite bool_decide_eq_false_2 by auto. auto.
    + intros k' t. case_bool_decide; [done|]. apply Hc.
Qed.

Lemma after_cap c d h : (after c d h).(cap) = c /\ (after c d h).(ttl) = d.
Proof.
  induction h as [|[k now|k] h [IH1 IH2]]; simpl; [done|..].
  - unfold seen, evict_oldest. repeat case_match; simpl; done.
  - unfold forget. by case_match.
Qed.

Lemma after_ok c d h : window_ok h (after c d h).
Proof.
  induction h as [|[k now|k] h IH]; simpl.
  - split; simpl; try constructor; try set_solver; lia.
  - unfold seen. pose proof (lookup_spec h (after c d h) k IH) as Hl.
    destruct (_ ≫= _) as [el|].
    + destruct Hl as [Hin <-]. case_match; by apply refresh_ok.
    + simpl. by eapply admit_ok, Hl; [|apply (make_room h)].
  - by apply forget_ok.
Qed.

(** The window is exact within its bounds, after any history of calls.
    It never holds more than [max 1 capacity] ids.  It reports a duplicate only
    if that very key was seen before, was not forgotten since, and was last
    touched within the TTL, so no first delivery is ever lost.  And it does
    report it in that case as long as fewer than [capacity] other keys came in
    between. *)
Theorem dedup_window_is_exact (c : Z) (d : duration) (h : list event) (k : string)
    (now : time) :
  let w := after c d h in
  (Z.of_nat (length w.(order)) <= Z.max 1 c)%Z
  /\ ((seen k now w).1 = true ->
      exists t, last_touch k h = Some t /\ (now - t <= d)%Z)
  /\ (forall t, last_touch k h = Some t -> (now - t <= d)%Z ->
      (Z.of_nat (size (touched_since k h)) < Z.max 1 c)%Z -> (seen k now w).1 = true).
Proof.
  intros w. destruct (after_cap c d h) as [Hcap Httl]. fold w in Hcap, Httl.
  pose proof (after_ok c d h) as Hok. fold w in Hok.
  pose proof (lookup_spec h w k Hok) as Hl. pose proof Hok as [_ _ _ _ Hsz Ht _ Hc].
  rewrite Hcap in *. rewrite Forall_forall in Ht. unfold seen, time_sub. rewrite Httl.
  split_and!; [done| |].
  - destruct (_ ≫= _) as [el|]; [|done]. destruct Hl as [Hin <-].
    destruct (_ <=? d)%Z eqn:E; [|done]. bools. intros _. eauto.
  - intros t Hk Hd Hlt. destruct (_ ≫= _) as [el|].
    + destruct Hl as [Hin <-]. apply Ht in Hin. rewrite Hin in Hk. injection Hk as ->.
      by rewrite (proj2 (Z.leb_le _ _)).
    + destruct (Hc k t Hk) as [?|?]; [done|lia].
Qed.

(** The second key is evicted by the third. *)
Example dedup_concrete :
  (seen "a" 20 (after 2 5 [Seen "b" 18; Seen "a" 16])%Z).1 = true
  /\ (seen "a" 20 (after 2 5 [Seen "c" 19; Seen "b" 18; Seen "a" 16])%Z).1 = false.
Proof. split; vm_compute; reflexivity. Qed.
