(* ===== verification/Bus.v ===== *)
(** * The in-process event bus (internal/bus/bus.go)

    [InMemoryBus] as a labelled transition system: every call is a thread, a
    critical section of the read/write mutex is one atomic action, and sends,
    receives and channel closes interleave freely.  Sending on a closed
    channel and closing a closed channel are Go panics and set [panicked]. *)

From S2P Require Import Prelude Json Text Envelope.
From stdpp Require Import relations.

Module InMemoryBus.

Definition EventType := Z.
Definition MessageReceived : EventType := 1%Z.
Definition ReplySent : EventType := 2%Z.
Definition MessageDropped : EventType := 3%Z.
Definition HandleFailed : EventType := 4%Z.
Definition ToolUsed : EventType := 5%Z.
Definition ToolDenied : EventType := 6%Z.
Definition ToolShadowed : EventType := 7%Z.

Definition EventType_String (t : EventType) : string :=
  if bool_decide (t = MessageReceived) then "message_received"
  else if bool_decide (t = ReplySent) then "reply_sent"
  else if bool_decide (t = MessageDropped) then "message_dropped"
  else if bool_decide (t = HandleFailed) then "handle_failed"
  else if bool_decide (t = ToolUsed) then "tool_used"
  else if bool_decide (t = ToolDenied) then "tool_denied"
  else if bool_decide (t = ToolShadowed) then "tool_shadowed"
  else "unknown".

Record Event := {
  Type_ : EventType;
  EventEnvelope : option Envelope.t;
  Channel : string;
  Brain : string;
  Err : option error;
  Tool : string;
  EventOutcome : string;
  Rule : string;
  Latency : duration;
}.

Definition DefaultSubscriberBuffer : Z := 64%Z.

(** [New], with the options that were given: each [WithSubscriberBuffer n]
    replaces the depth if [n] is positive. *)
Definition WithSubscriberBuffer (n buffer : Z) : Z := if (0 <? n)%Z then n else buffer.

Definition buffer_of (opts : list Z) : Z :=
  fold_left (fun b n => WithSubscriberBuffer n b) opts DefaultSubscriberBuffer.

(** [sync.Once] guarding a body that other callers wait for. *)
Inductive once_state := NotRun | Running | Ran.

(** The goroutine that ranges over the subscriber's channel. *)
Inductive goroutine := NotStarted | Draining | Exited.

Record subscription := {
  typ : EventType;
  ch : list Event;
  ch_closed : bool;
  closeOnce : bool;
  once : once_state;
  drain : goroutine;
  received : list Event;
}.

(** A call in progress, at the point it has reached. *)
Inductive thread :=
| PubStart (ev : Event)
| PubSending (ev : Event) (rest : list nat)
| SubStart (t : EventType)
| SubSpawn (id : nat)
| UnsubStart (id : nat)
| UnsubLock (id : nat)
| UnsubClose (id : nat)
| CloseStart
| CloseClosing (rest : list nat)
| Returned.

Record state := {
  buffer : Z;
  subs : gmap EventType (gset nat);
  closed : bool;
  dropped : Z;
  heap : gmap nat subscription;
  threads : gmap nat thread;
  panicked : bool;
}.

Definition New (opts : list Z) : state :=
  {| buffer := buffer_of opts; subs := ∅; closed := false; dropped := 0; heap := ∅;
     threads := ∅; panicked := false |}.

Definition subscribers (ty : EventType) (s : state) : gset nat := default ∅ (s.(subs) !! ty).

(** ** State updates *)

Definition set_thread (t : nat) (th : thread) (s : state) : state :=
  {| buffer := s.(buffer); subs := s.(subs); closed := s.(closed); dropped := s.(dropped);
     heap := s.(heap); threads := <[t := th]> s.(threads); panicked := s.(panicked) |}.

Definition set_sub (id : nat) (x : subscription) (s : state) : state :=
  {| buffer := s.(buffer); subs := s.(subs); closed := s.(closed); dropped := s.(dropped);
     heap := <[id := x]> s.(heap); threads := s.(threads); panicked := s.(panicked) |}.

Definition set_subs (m : gmap EventType (gset nat)) (c : bool) (s : state) : state :=
  {| buffer := s.(buffer); subs := m; closed := c; dropped := s.(dropped);
     heap := s.(heap); threads := s.(threads); panicked := s.(panicked) |}.

Definition panic (s : state) : state :=
  {| buffer := s.(buffer); subs := s.(subs); closed := s.(closed); dropped := s.(dropped);
     heap := s.(heap); threads := s.(threads); panicked := true |}.

(** [b.dropped.Add(1)] on an [atomic.Uint64]. *)
Definition drop_one (s : state) : state :=
  {| buffer := s.(buffer); subs := s.(subs); closed := s.(closed);
     dropped := ((s.(dropped) + 1) mod 2 ^ 64)%Z;
     heap := s.(heap); threads := s.(threads); panicked := s.(panicked) |}.

Definition set_ch (l : list Event) (rc : list Event) (x : subscription) : subscription :=
  {| typ := x.(typ); ch := l; ch_closed := x.(ch_closed); closeOnce := x.(closeOnce);
     once := x.(once); drain := x.(drain); received := rc |}.

Definition set_once (o : once_state) (x : subscription) : subscription :=
  {| typ := x.(typ); ch := x.(ch); ch_closed := x.(ch_closed); closeOnce := x.(closeOnce);
     once := o; drain := x.(drain); received := x.(received) |}.

Definition set_drain (g : goroutine) (x : subscription) : subscription :=
  {| typ := x.(typ); ch := x.(ch); ch_closed := x.(ch_closed); closeOnce := x.(closeOnce);
     once := x.(once); drain := g; received := x.(received) |}.

Definition mark_closed (x : subscription) : subscription :=
  {| typ := x.(typ); ch := x.(ch); ch_closed := true; closeOnce := true;
     once := x.(once); drain := x.(drain); received := x.(received) |}.

(** ** The actions of the code *)

Definition has_room (x : subscription) (s : state) : bool :=
  (Z.of_nat (length x.(ch)) <? s.(buffer))%Z.

(** One turn of the loop of [Publish]: [select { case s.ch <- ev: default: }]. *)
Definition offer (id : nat) (x : subscription) (ev : Event) (s : state) : state :=
  if x.(ch_closed) then panic s
  else if has_room x s then set_sub id (set_ch (x.(ch) ++ [ev]) x.(received) x) s
  else drop_one s.

(** [closeCh]: the body of the [sync.Once] closes the channel. *)
Definition closeCh (id : nat) (x : subscription) (s : state) : state :=
  if x.(closeOnce) then s
  else if x.(ch_closed) then panic s
  else set_sub id (mark_closed x) s.

Definition new_subscription (ty : EventType) : subscription :=
  {| typ := ty; ch := []; ch_closed := false; closeOnce := false; once := NotRun;
     drain := NotStarted; received := [] |}.

(** The critical section of [Subscribe] when the bus is open. *)
Definition register (id : nat) (ty : EventType) (s : state) : state :=
  set_sub id (new_subscription ty)
    (set_subs (<[ty := {[id]} ∪ subscribers ty s]> s.(subs)) s.(closed) s).

(** The critical section of an unsubscribe function. *)
Definition unregister (id : nat) (ty : EventType) (s : state) : state :=
  match s.(subs) !! ty with
  | Some set => set_subs (<[ty := set ∖ {[id]}]> s.(subs)) s.(closed) s
  | None => s
  end.

(** The subscriptions [Close] collects, in the iteration order of the maps. *)
Definition all_subscribers (s : state) : gset nat :=
  ⋃ (map_to_list s.(subs)).*2.

Definition clear_subs (s : state) : state := set_subs ∅ true s.

(** ** Steps *)

Definition holds_rlock (th : thread) : bool :=
  match th with PubSending _ _ => true | _ => false end.

(** The write lock can be taken: no [Publish] is inside its read section. *)
Definition write_free (s : state) : Prop :=
  map_Forall (fun _ th => holds_rlock th = false) s.(threads).

Inductive label :=
| Internal
| Offer (t id : nat) (ev : Event) (accepted : bool)
| PubReturn (t : nat) (ev : Event).

Inductive step : state -> label -> state -> Prop :=
| publish_rlock s t ev rest :
    s.(threads) !! t = Some (PubStart ev) ->
    rest ≡ₚ elements (subscribers ev.(Type_) s) ->
    step s Internal (set_thread t (PubSending ev rest) s)
| publish_send s t ev id rest x :
    s.(threads) !! t = Some (PubSending ev (id :: rest)) ->
    s.(heap) !! id = Some x ->
    step s (Offer t id ev (has_room x s)) (set_thread t (PubSending ev rest) (offer id x ev s))
| publish_runlock s t ev :
    s.(threads) !! t = Some (PubSending ev []) ->
    step s (PubReturn t ev) (set_thread t Returned s)
| subscribe_closed s t ty :
    s.(threads) !! t = Some (SubStart ty) -> write_free s -> s.(closed) = true ->
    step s Internal (set_thread t Returned s)
| subscribe_lock s t ty id :
    s.(threads) !! t = Some (SubStart ty) -> write_free s -> s.(closed) = false ->
    s.(heap) !! id = None ->
    step s Internal (set_thread t (SubSpawn id) (register id ty s))
| subscribe_spawn s t id x :
    s.(threads) !! t = Some (SubSpawn id) -> s.(heap) !! id = Some x ->
    step s Internal (set_thread t Returned (set_sub id (set_drain Draining x) s))
| unsubscribe_once s t id x :
    s.(threads) !! t = Some (UnsubStart id) -> s.(heap) !! id = Some x ->
    x.(once) = NotRun ->
    step s Internal (set_thread t (UnsubLock id) (set_sub id (set_once Running x) s))
| unsubscribe_again s t id x :
    s.(threads) !! t = Some (UnsubStart id) -> s.(heap) !! id = Some x ->
    x.(once) = Ran ->
    step s Internal (set_thread t Returned s)
| unsubscribe_lock s t id x :
    s.(threads) !! t = Some (UnsubLock id) -> write_free s -> s.(heap) !! id = Some x ->
    step s Internal (set_thread t (UnsubClose id) (unregister id x.(typ) s))
| unsubscribe_close s t id x :
    s.(threads) !! t = Some (UnsubClose id) -> s.(heap) !! id = Some x ->
    step s Internal
      (set_thread t Returned (closeCh id (set_once Ran x) (set_sub id (set_once Ran x) s)))
| close_again s t :
    s.(threads) !! t = Some CloseStart -> write_free s -> s.(closed) = true ->
    step s Internal (set_thread t Returned s)
| close_lock s t drained :
    s.(threads) !! t = Some CloseStart -> write_free s -> s.(closed) = false ->
    drained ≡ₚ elements (all_subscribers s) ->
    step s Internal (set_thread t (CloseClosing drained) (clear_subs s))
| close_one s t id rest x :
    s.(threads) !! t = Some (CloseClosing (id :: rest)) -> s.(heap) !! id = Some x ->
    step s Internal (set_thread t (CloseClosing rest) (closeCh id x s))
| close_done s t :
    s.(threads) !! t = Some (CloseClosing []) ->
    step s Internal (set_thread t Returned s)
| drain_receive s id x ev rest :
    s.(heap) !! id = Some x -> x.(drain) = Draining -> x.(ch) = ev :: rest ->
    step s Internal (set_sub id (set_ch rest (x.(received) ++ [ev]) x) s)
| drain_exit s id x :
    s.(heap) !! id = Some x -> x.(drain) = Draining -> x.(ch) = [] -> x.(ch_closed) = true ->
    step s Internal (set_sub id (set_drain Exited x) s).

(** A new call.  An unsubscribe function exists once its [Subscribe] has
    started the goroutine. *)
Inductive call : state -> thread -> Prop :=
| call_publish s ev : call s (PubStart ev)
| call_subscribe s ty : call s (SubStart ty)
| call_unsubscribe s id x :
    s.(heap) !! id = Some x -> x.(drain) <> NotStarted -> call s (UnsubStart id)
| call_close s : call s CloseStart.

(** The states a bus can be in, with the labels of the actions so far. *)
Inductive reach (opts : list Z) : list label -> state -> Prop :=
| reach_new : reach opts [] (New opts)
| reach_call tr s t th :
    reach opts tr s -> s.(threads) !! t = None -> call s th ->
    reach opts tr (set_thread t th s)
| reach_step tr s l s' :
    reach opts tr s -> step s l s' -> reach opts (tr ++ [l]) s'.

(** ** What the labels record *)

Definition accepted_for (id : nat) (l : label) : list Event :=
  match l with
  | Offer _ id' ev true => if decide (id' = id) then [ev] else []
  | _ => []
  end.

Definition accepted (id : nat) (tr : list label) : list Event := tr ≫= accepted_for id.

Definition offer_of (l : label) : list (nat * nat) :=
  match l with Offer t id _ _ => [(t, id)] | _ => [] end.

Definition offers (tr : list label) : list (nat * nat) := tr ≫= offer_of.

Definition rejection (l : label) : nat :=
  match l with Offer _ _ _ false => 1 | _ => 0 end.

Definition rejections (tr : list label) : nat := sum_list_with rejection tr.

(** ** The invariant *)

Definition not_registered (id : nat) (s : state) : Prop :=
  forall ty, id ∉ subscribers ty s.

Definition thread_ok (tr : list label) (s : state) (t : nat) (th : thread) : Prop :=
  match th with
  | PubStart _ => forall id, (t, id) ∉ offers tr
  | PubSending ev rest =>
      NoDup rest
      /\ (forall id, id ∈ rest -> id ∈ subscribers ev.(Type_) s /\ (t, id) ∉ offers tr)
      /\ (forall id, id ∈ subscribers ev.(Type_) s -> id ∈ rest \/ (t, id) ∈ offers tr)
  | SubSpawn id | UnsubStart id | UnsubLock id => is_Some (s.(heap) !! id)
  | UnsubClose id => is_Some (s.(heap) !! id) /\ not_registered id s
  | CloseClosing rest =>
      forall id, id ∈ rest -> is_Some (s.(heap) !! id) /\ not_registered id s
  | SubStart _ | CloseStart | Returned => True
  end.

(** Some call in progress will close the channel of [id]. *)
Definition closing (s : state) (id : nat) : Prop :=
  exists t th, s.(threads) !! t = Some th /\
    match th with
    | UnsubClose id' => id' = id
    | CloseClosing rest => id ∈ rest
    | _ => False
    end.

Definition unsubscribing (s : state) (id : nat) : Prop :=
  exists t th, s.(threads) !! t = Some th /\ (th = UnsubLock id \/ th = UnsubClose id).

Record sub_ok (tr : list label) (s : state) (id : nat) (x : subscription) : Prop := {
  sub_close_once : x.(ch_closed) = x.(closeOnce);
  sub_capacity : (Z.of_nat (length x.(ch)) <= s.(buffer))%Z;
  sub_order : x.(received) ++ x.(ch) = accepted id tr;
  sub_typ : Forall (fun ev => ev.(Type_) = x.(typ)) (accepted id tr);
  sub_started : x.(drain) = NotStarted -> exists t, s.(threads) !! t = Some (SubSpawn id);
  sub_exited : x.(drain) = Exited -> x.(ch) = [] /\ x.(ch_closed) = true;
  sub_running : x.(once) = Running -> unsubscribing s id;
  sub_ran : x.(once) = Ran -> x.(ch_closed) = true;
  sub_open : x.(ch_closed) = false -> id ∈ subscribers x.(typ) s \/ closing s id;
}.

Record inv (opts : list Z) (tr : list label) (s : state) : Prop := {
  inv_buffer : s.(buffer) = buffer_of opts;
  inv_panicked : s.(panicked) = false;
  inv_offers : forall t id, (t, id) ∈ offers tr ->
    is_Some (s.(threads) !! t) /\ is_Some (s.(heap) !! id);
  inv_once : NoDup (offers tr);
  inv_registered : forall ty id, id ∈ subscribers ty s ->
    exists x, s.(heap) !! id = Some x /\ x.(typ) = ty /\ x.(ch_closed) = false;
  inv_closed : s.(closed) = true -> forall ty, subscribers ty s = ∅;
  inv_dropped : s.(dropped) = (Z.of_nat (rejections tr) mod 2 ^ 64)%Z;
  inv_threads : forall t th, s.(threads) !! t = Some th -> thread_ok tr s t th;
  inv_subs : forall id x, s.(heap) !! id = Some x -> sub_ok tr s id x;
}.

(** *** Bookkeeping of labels and registries *)

Lemma accepted_app id tr l : accepted id (tr ++ [l]) = accepted id tr ++ accepted_for id l.
Proof. unfold accepted. by rewrite bind_app, bind_singleton. Qed.

Lemma offers_app tr l : offers (tr ++ [l]) = offers tr ++ offer_of l.
Proof. unfold offers. by rewrite bind_app, bind_singleton. Qed.

Lemma rejections_app tr l : rejections (tr ++ [l]) = rejections tr + rejection l.
Proof. unfold rejections. rewrite sum_list_with_app. simpl. lia. Qed.

Lemma accepted_offers id tr ev : ev ∈ accepted id tr -> exists t, (t, id) ∈ offers tr.
Proof.
  unfold accepted, offers. rewrite list_elem_of_bind. intros (l & Hev & Hl).
  destruct l as [|t id' ev' []|]; simpl in Hev; try by apply not_elem_of_nil in Hev.
  case_decide; [subst|by apply not_elem_of_nil in Hev].
  exists t. apply list_elem_of_bind. exists (Offer t id ev' true). split; [|done]. simpl.
  by apply list_elem_of_singleton.
Qed.

Lemma subscribers_set_thread ty t th s : subscribers ty (set_thread t th s) = subscribers ty s.
Proof. done. Qed.

Lemma subscribers_register id ty s ty' :
  subscribers ty' (register id ty s)
  = if decide (ty' = ty) then {[id]} ∪ subscribers ty s else subscribers ty' s.
Proof.
  unfold subscribers, register, set_sub, set_subs; simpl. case_decide; subst.
  - by rewrite lookup_insert_eq.
  - by rewrite lookup_insert_ne.
Qed.

Lemma elem_subscribers_unregister id ty s ty' id' :
  id' ∈ subscribers ty' (unregister id ty s)
  <-> id' ∈ subscribers ty' s /\ ~ (id' = id /\ ty' = ty).
Proof.
  unfold unregister. destruct (s.(subs) !! ty) as [set|] eqn:E.
  - unfold subscribers; simpl. destruct (decide (ty' = ty)) as [->|].
    + rewrite lookup_insert_eq, E. simpl. set_solver.
    + rewrite lookup_insert_ne by done. set_solver.
  - unfold subscribers. split; [|tauto]. intros H. split; [done|]. intros [-> ->].
    rewrite E in H. simpl in H. set_solver.
Qed.

Lemma unregister_fields id ty s :
  (unregister id ty s).(buffer) = s.(buffer) /\ (unregister id ty s).(closed) = s.(closed)
  /\ (unregister id ty s).(dropped) = s.(dropped) /\ (unregister id ty s).(heap) = s.(heap)
  /\ (unregister id ty s).(threads) = s.(threads)
  /\ (unregister id ty s).(panicked) = s.(panicked).
Proof. unfold unregister. by case_match. Qed.

Lemma elem_all_subscribers id s :
  id ∈ all_subscribers s <-> exists ty, id ∈ subscribers ty s.
Proof.
  unfold all_subscribers, subscribers. rewrite elem_of_union_list. split.
  - intros (X & HX & Hid). apply list_elem_of_fmap in HX as ([ty Y] & -> & HY).
    apply elem_of_map_to_list in HY. exists ty. by rewrite HY.
  - intros [ty Hid]. destruct (s.(subs) !! ty) as [X|] eqn:E; simpl in Hid; [|set_solver].
    exists X. split; [|done]. apply list_elem_of_fmap. exists (ty, X). split; [done|].
    by apply elem_of_map_to_list.
Qed.

Lemma buffer_of_positive opts : (0 < buffer_of opts)%Z.
Proof.
  unfold buffer_of. cut (0 < DefaultSubscriberBuffer)%Z; [|done].
  generalize DefaultSubscriberBuffer. induction opts as [|n opts IH]; intros b Hb; [done|].
  simpl. apply IH. unfold WithSubscriberBuffer. case_match; lia.
Qed.

Lemma write_free_sending s t ev rest :
  write_free s -> s.(threads) !! t <> Some (PubSending ev rest).
Proof. intros H Ht. apply H in Ht. done. Qed.

(** *** Frame lemmas: one thread, or one subscription, changes *)

Definition closes (th : thread) (id : nat) : Prop :=
  match th with
  | UnsubClose id' => id' = id
  | CloseClosing rest => id ∈ rest
  | _ => False
  end.

Definition unsubs (th : thread) (id : nat) : Prop := th = UnsubLock id \/ th = UnsubClose id.

(** What thread [t] may stop doing for a subscription when it moves on. *)
Record releases (s : state) (th th' : thread) : Prop := {
  rel_spawn : forall id x, s.(heap) !! id = Some x -> th = SubSpawn id -> x.(drain) <> NotStarted;
  rel_unsub : forall id x, s.(heap) !! id = Some x -> x.(once) = Running ->
    unsubs th id -> unsubs th' id;
  rel_close : forall id x, s.(heap) !! id = Some x -> x.(ch_closed) = false ->
    closes th id -> closes th' id;
}.

Lemma thread_move (P : thread -> Prop) (m : gmap nat thread) t th th' :
  (m !! t = None \/ m !! t = Some th /\ (P th -> P th')) ->
  (exists u tu, m !! u = Some tu /\ P tu) ->
  exists u tu, <[t := th']> m !! u = Some tu /\ P tu.
Proof.
  intros Hm (u & tu & Hu & HP). destruct (decide (u = t)) as [->|].
  - destruct Hm as [Hm|[Hm HPP]]; simplify_eq. exists t, th'. rewrite lookup_insert_eq. auto.
  - exists u, tu. by rewrite lookup_insert_ne.
Qed.

Lemma sub_ok_set_thread tr s t th th' id x :
  s.(heap) !! id = Some x ->
  (s.(threads) !! t = None \/ s.(threads) !! t = Some th /\ releases s th th') ->
  sub_ok tr s id x -> sub_ok tr (set_thread t th' s) id x.
Proof.
  intros Hx Hm [H1 H2 H3 H4 H5 H6 H7 H8 H9].
  assert (forall P : thread -> Prop, (releases s th th' -> P th -> P th') ->
    (exists u tu, s.(threads) !! u = Some tu /\ P tu) ->
    exists u tu, <[t := th']> s.(threads) !! u = Some tu /\ P tu) as Hmove.
  { intros P HP. apply (thread_move P _ t th). destruct Hm as [|[]]; [by left|right; auto]. }
  split; try done.
  - intros Hd. destruct (Hmove (fun tu => tu = SubSpawn id)) as (u & tu & Hu & ->).
    + intros Hrel ->. by destruct (rel_spawn _ _ _ Hrel id x Hx eq_refl).
    + destruct (H5 Hd) as [u Hu]. eauto.
    + by exists u.
  - intros Ho. apply (Hmove (fun tu => unsubs tu id)); [|by apply H7].
    intros Hrel. by apply (rel_unsub _ _ _ Hrel id x).
  - intros Hc. destruct (H9 Hc) as [|Hcl]; [by left|right].
    apply (Hmove (fun tu => closes tu id)); [|done].
    intros Hrel. by apply (rel_close _ _ _ Hrel id x).
Qed.

Lemma inv_set_thread opts tr s t th th' :
  inv opts tr s ->
  (s.(threads) !! t = None \/ s.(threads) !! t = Some th /\ releases s th th') ->
  thread_ok tr s t th' ->
  inv opts tr (set_thread t th' s).
Proof.
  intros [H1 H2 H3 H4 H5 H6 H7 H8 H9] Hm Hok. split; try done.
  - intros u id Hu. apply H3 in Hu as [Hu ?]. split; [|done]. simpl.
    rewrite lookup_insert_is_Some. destruct (decide (t = u)); auto.
  - simpl. intros u tu. rewrite lookup_insert_Some. intros [[<- <-]|[_ Hu]]; [done|].
    by apply H8 in Hu.
  - simpl. intros id x Hx. eapply sub_ok_set_thread; eauto.
Qed.

Lemma thread_ok_mono tr s s' t th :
  (forall ty, subscribers ty s' = subscribers ty s) ->
  (forall id, is_Some (s.(heap) !! id) -> is_Some (s'.(heap) !! id)) ->
  thread_ok tr s t th -> thread_ok tr s' t th.
Proof.
  intros Hs Hh. unfold thread_ok, not_registered. destruct th; try done.
  - by rewrite Hs.
  - apply Hh.
  - apply Hh.
  - apply Hh.
  - intros [Hid Hn]. split; [by apply Hh|]. intros ty. by rewrite Hs.
  - intros Hr id Hid. destruct (Hr id Hid) as [? Hn]. split; [by apply Hh|].
    intros ty. by rewrite Hs.
Qed.

Lemma inv_set_sub opts tr s id x x' :
  inv opts tr s -> s.(heap) !! id = Some x -> x'.(typ) = x.(typ) ->
  (x'.(ch_closed) = false \/ not_registered id s) ->
  sub_ok tr s id x' ->
  inv opts tr (set_sub id x' s).
Proof.
  intros [H1 H2 H3 H4 H5 H6 H7 H8 H9] Hx Htyp Hreg Hok.
  assert (forall i, is_Some (s.(heap) !! i) -> is_Some (<[id := x']> s.(heap) !! i)) as Hdom.
  { intros i Hi. rewrite lookup_insert_is_Some. destruct (decide (id = i)); auto. }
  split; try done.
  - intros t i Hi. apply H3 in Hi as [? ?]. split; [done|]. by apply Hdom.
  - intros ty i Hi. change (subscribers ty (set_sub id x' s)) with (subscribers ty s) in Hi.
    destruct (H5 ty i Hi) as (y & Hy & Hty & Hcl). simpl.
    destruct (decide (id = i)) as [->|]; [|rewrite lookup_insert_ne by done; eauto].
    simplify_eq. rewrite lookup_insert_eq. exists x'. split_and!; [done|done|].
    destruct Hreg as [|Hreg]; [done|]. by destruct (Hreg x.(typ)).
  - intros t th Ht. apply (thread_ok_mono _ s); auto.
  - simpl. intros i y. rewrite lookup_insert_Some. intros [[<- <-]|[_ Hy]].
    + by destruct Hok; split.
    + by destruct (H9 _ _ Hy); split.
Qed.

Lemma inv_quiet opts tr s l :
  offer_of l = [] -> rejection l = 0 -> (forall id, accepted_for id l = []) ->
  inv opts tr s -> inv opts (tr ++ [l]) s.
Proof.
  intros Ho Hr Ha [H1 H2 H3 H4 H5 H6 H7 H8 H9].
  split; try done; rewrite ?offers_app, ?rejections_app, ?Ho, ?Hr, ?app_nil_r, ?Nat.add_0_r;
    try done.
  - intros t th Ht. apply H8 in Ht. unfold thread_ok in *.
    by rewrite offers_app, Ho, app_nil_r.
  - intros id x Hx. apply H9 in Hx as []. split; try done; by rewrite accepted_app, Ha, app_nil_r.
Qed.

(** *** Steps that move the registry *)

Lemma thread_ok_unregister tr s id ty t th :
  write_free s -> s.(threads) !! t = Some th ->
  thread_ok tr s t th -> thread_ok tr (unregister id ty s) t th.
Proof.
  intros Hw Ht. destruct (unregister_fields id ty s) as (_ & _ & _ & Hh & _).
  destruct th; unfold thread_ok, not_registered; rewrite ?Hh; try done.
  - by apply write_free_sending in Ht.
  - intros [? Hn]. split; [done|]. intros ty'. rewrite elem_subscribers_unregister. naive_solver.
  - intros Hr i Hi. destruct (Hr i Hi) as [? Hn]. split; [done|]. intros ty'.
    rewrite elem_subscribers_unregister. naive_solver.
Qed.

Lemma inv_unsubscribe_lock opts tr s t id x :
  inv opts tr s -> s.(threads) !! t = Some (UnsubLock id) -> write_free s ->
  s.(heap) !! id = Some x ->
  inv opts tr (set_thread t (UnsubClose id) (unregister id x.(typ) s)).
Proof.
  intros Hinv Ht Hw Hx. pose proof (unregister_fields id x.(typ) s) as (F1 & F2 & F3 & F4 & F5 & F6).
  destruct Hinv as [H1 H2 H3 H4 H5 H6 H7 H8 H9].
  assert (not_registered id (unregister id x.(typ) s)) as Hnot.
  { intros ty. rewrite elem_subscribers_unregister. intros [Hin Hne].
    destruct (H5 _ _ Hin) as (y & Hy & Hty & _). simplify_eq. by apply Hne. }
  split; simpl; rewrite ?F1, ?F2, ?F3, ?F4, ?F5, ?F6; try done.
  - intros u i Hu. apply H3 in Hu as [Hu ?]. split; [|done].
    rewrite lookup_insert_is_Some. destruct (decide (t = u)); auto.
  - intros ty i Hi. apply elem_subscribers_unregister in Hi as [Hi _]. by apply H5.
  - intros Hc ty. apply set_eq. intros i.
    rewrite subscribers_set_thread, elem_subscribers_unregister, H6 by done.
    set_solver.
  - intros u tu. rewrite lookup_insert_Some. intros [[<- <-]|[_ Hu]].
    + split; [|exact Hnot]. simpl. rewrite F4. eauto.
    + change (thread_ok tr (unregister id x.(typ) s) u tu).
      apply thread_ok_unregister; auto.
  - intros i y Hy. pose proof (H9 i y Hy) as [G1 G2 G3 G4 G5 G6 G7 G8 G9].
    assert (forall P : thread -> Prop, (P (UnsubLock id) -> P (UnsubClose id)) ->
      (exists u tu, s.(threads) !! u = Some tu /\ P tu) ->
      exists u tu, <[t := UnsubClose id]> s.(threads) !! u = Some tu /\ P tu) as Hmove.
    { intros P HP. apply (thread_move P _ t (UnsubLock id)). auto. }
    split; simpl; rewrite ?F1, ?F5; try done.
    + intros Hd. destruct (Hmove (fun tu => tu = SubSpawn i)) as (u & tu & Hu & ->);
        [done|destruct (G5 Hd); eauto|simpl; rewrite ?F5; eauto].
    + intros Ho. unfold unsubscribing; simpl. rewrite F5.
      apply (Hmove (fun tu => unsubs tu i)); [|by apply G7]. intros [[= ->]|]; [by right|done].
    + intros Hc. change (subscribers y.(typ) (set_thread t (UnsubClose id) (unregister id x.(typ) s)))
        with (subscribers y.(typ) (unregister id x.(typ) s)).
      destruct (decide (i = id)) as [->|Hne].
      * right. exists t, (UnsubClose id). simpl. by rewrite lookup_insert_eq.
      * destruct (G9 Hc) as [Hin|Hcl].
        -- left. apply elem_subscribers_unregister. naive_solver.
        -- right. unfold closing; simpl. rewrite F5.
           apply (Hmove (fun tu => closes tu i)); [done|apply Hcl].
Qed.

Lemma inv_close_lock opts tr s t drained :
  inv opts tr s -> s.(threads) !! t = Some CloseStart -> write_free s ->
  drained ≡ₚ elements (all_subscribers s) ->
  inv opts tr (set_thread t (CloseClosing drained) (clear_subs s)).
Proof.
  intros [H1 H2 H3 H4 H5 H6 H7 H8 H9] Ht Hw Hd.
  assert (forall id, id ∈ drained <-> exists ty, id ∈ subscribers ty s) as Hdr.
  { intros id. by rewrite Hd, elem_of_elements, elem_all_subscribers. }
  assert (forall ty, subscribers ty (clear_subs s) = ∅) as Hnone.
  { intros ty. unfold subscribers. simpl. by rewrite lookup_empty. }
  split; simpl; try done.
  - intros u i Hu. apply H3 in Hu as [Hu ?]. split; [|done].
    rewrite lookup_insert_is_Some. destruct (decide (t = u)); auto.
  - intros u tu. rewrite lookup_insert_Some. intros [[<- <-]|[_ Hu]].
    + intros i Hi. apply Hdr in Hi as [ty Hi]. destruct (H5 _ _ Hi) as (x & Hx & _).
      split; [simpl; eauto|]. intros ty'.
      change (i ∉ subscribers ty' (clear_subs s)). rewrite Hnone. set_solver.
    + apply H8 in Hu as Hok. destruct tu; try done.
      * by apply write_free_sending in Hu.
      * destruct Hok as [? _]. split; [done|]. intros ty'.
        change (id ∉ subscribers ty' (clear_subs s)). rewrite Hnone. set_solver.
      * intros i Hi. destruct (Hok i Hi) as [? _]. split; [done|]. intros ty'.
        change (i ∉ subscribers ty' (clear_subs s)). rewrite Hnone. set_solver.
  - intros i y Hy. pose proof (H9 i y Hy) as [G1 G2 G3 G4 G5 G6 G7 G8 G9].
    assert (forall P : thread -> Prop, (P CloseStart -> P (CloseClosing drained)) ->
      (exists u tu, s.(threads) !! u = Some tu /\ P tu) ->
      exists u tu, <[t := CloseClosing drained]> s.(threads) !! u = Some tu /\ P tu) as Hmove.
    { intros P HP. apply (thread_move P _ t CloseStart). auto. }
    split; simpl; try done.
    + intros Hdn. destruct (Hmove (fun tu => tu = SubSpawn i)) as (u & tu & Hu & ->);
        [done|destruct (G5 Hdn); eauto|eauto].
    + intros Ho. apply (Hmove (fun tu => unsubs tu i)); [|by apply G7]. by intros [|].
    + intros Hc. right. destruct (G9 Hc) as [Hin|Hcl].
      * exists t, (CloseClosing drained). simpl. rewrite lookup_insert_eq. split; [done|].
        apply Hdr. eauto.
      * apply (Hmove (fun tu => closes tu i)); [done|apply Hcl].
Qed.

Lemma inv_subscribe_lock opts tr s t ty id :
  inv opts tr s -> s.(threads) !! t = Some (SubStart ty) -> write_free s ->
  s.(closed) = false -> s.(heap) !! id = None ->
  inv opts tr (set_thread t (SubSpawn id) (register id ty s)).
Proof.
  intros [H1 H2 H3 H4 H5 H6 H7 H8 H9] Ht Hw Hc Hfresh.
  assert (forall ty' i, i ∈ subscribers ty' (register id ty s)
    <-> i ∈ subscribers ty' s \/ i = id /\ ty' = ty) as Hreg.
  { intros ty' i. rewrite subscribers_register. case_decide; subst; set_solver. }
  assert (forall i, is_Some (s.(heap) !! i) -> i <> id) as Hne.
  { intros i [x Hx] ->. by rewrite Hfresh in Hx. }
  assert (forall i, is_Some (s.(heap) !! i) ->
    is_Some (<[id := new_subscription ty]> s.(heap) !! i)) as Hdom.
  { intros i Hi. rewrite lookup_insert_ne; [done|]. by intros ->; apply (Hne i). }
  assert (forall i, is_Some (s.(heap) !! i) -> not_registered i s ->
    not_registered i (register id ty s)) as Hnot.
  { intros i Hi Hn ty'. rewrite Hreg. intros [Hin|[-> _]]; [by apply (Hn ty')|by apply (Hne id)]. }
  split; simpl; try done.
  - intros u i Hu. apply H3 in Hu as [Hu ?]. split; [|by apply Hdom].
    rewrite lookup_insert_is_Some. destruct (decide (t = u)); auto.
  - intros ty' i Hi. change (i ∈ subscribers ty' (register id ty s)) in Hi.
    apply Hreg in Hi as [Hi|[-> ->]].
    + destruct (H5 _ _ Hi) as (x & Hx & ? & ?). exists x. rewrite lookup_insert_ne; [done|].
      intros ->. by rewrite Hfresh in Hx.
    + exists (new_subscription ty). by rewrite lookup_insert_eq.
  - by rewrite Hc.
  - intros u tu. rewrite lookup_insert_Some. intros [[<- <-]|[_ Hu]].
    + simpl. rewrite lookup_insert_eq. eauto.
    + apply H8 in Hu as Hok. destruct tu; simpl in *; auto.
      * by apply write_free_sending in Hu.
      * destruct Hok as [? Hn]. split; [auto|]. by apply Hnot.
      * intros i Hi. destruct (Hok i Hi) as [? Hn]. split; [auto|]. by apply Hnot.
  - intros i y. rewrite lookup_insert_Some. intros [[<- <-]|[Hni Hy]].
    + assert (accepted id tr = []) as Hnil.
      { destruct (accepted id tr) as [|ev l] eqn:E; [done|].
        destruct (accepted_offers id tr ev) as [u Hu]; [rewrite E; by left|].
        apply H3 in Hu as [_ Hs]. by apply Hne in Hs. }
      pose proof (buffer_of_positive opts). split; simpl; rewrite ?Hnil; try done; [lia| |].
      * intros _. exists t. by rewrite lookup_insert_eq.
      * intros _. left. apply (Hreg ty id). by right.
    + pose proof (H9 i y Hy) as [G1 G2 G3 G4 G5 G6 G7 G8 G9].
      assert (forall P : thread -> Prop, (P (SubStart ty) -> P (SubSpawn id)) ->
        (exists u tu, s.(threads) !! u = Some tu /\ P tu) ->
        exists u tu, <[t := SubSpawn id]> s.(threads) !! u = Some tu /\ P tu) as Hmove.
      { intros P HP. apply (thread_move P _ t (SubStart ty)). auto. }
      split; simpl; try done.
      * intros Hdn. destruct (Hmove (fun tu => tu = SubSpawn i)) as (u & tu & Hu & ->);
          [done|destruct (G5 Hdn); eauto|eauto].
      * intros Ho. apply (Hmove (fun tu => unsubs tu i)); [|by apply G7]. by intros [|].
      * intros Hcl. destruct (G9 Hcl) as [Hin|Hcg].
        -- left. apply (Hreg y.(typ) i). by left.
        -- right. apply (Hmove (fun tu => closes tu i)); [done|apply Hcg].
Qed.

(** *** A send *)

Lemma offer_open id x ev s :
  x.(ch_closed) = false ->
  offer id x ev s
  = if has_room x s then set_sub id (set_ch (x.(ch) ++ [ev]) x.(received) x) s else drop_one s.
Proof. intros H. unfold offer. by rewrite H. Qed.

Lemma offer_frame id x ev s :
  x.(ch_closed) = false -> s.(heap) !! id = Some x ->
  (offer id x ev s).(buffer) = s.(buffer) /\ (offer id x ev s).(subs) = s.(subs)
  /\ (offer id x ev s).(closed) = s.(closed) /\ (offer id x ev s).(threads) = s.(threads)
  /\ (offer id x ev s).(panicked) = s.(panicked)
  /\ (forall i, is_Some ((offer id x ev s).(heap) !! i) <-> is_Some (s.(heap) !! i))
  /\ (forall i, i <> id -> (offer id x ev s).(heap) !! i = s.(heap) !! i)
  /\ (offer id x ev s).(heap) !! id
     = Some (set_ch (if has_room x s then x.(ch) ++ [ev] else x.(ch)) x.(received) x)
  /\ (offer id x ev s).(dropped)
     = if has_room x s then s.(dropped) else ((s.(dropped) + 1) mod 2 ^ 64)%Z.
Proof.
  intros Hc Hx. rewrite offer_open by done. destruct (has_room x s); simpl; split_and!; try done.
  - intros i. rewrite lookup_insert_is_Some. destruct (decide (id = i)) as [->|]; naive_solver.
  - intros i Hi. by rewrite lookup_insert_ne.
  - by rewrite lookup_insert_eq.
  - rewrite Hx. f_equal. by destruct x.
Qed.

Lemma sub_ok_offer tr s t id x ev (y := set_ch (if has_room x s then x.(ch) ++ [ev] else x.(ch)) x.(received) x) :
  x.(typ) = ev.(Type_) -> x.(ch_closed) = false ->
  sub_ok tr s id x -> sub_ok (tr ++ [Offer t id ev (has_room x s)]) s id y.
Proof.
  intros Hty Hcl [G1 G2 G3 G4 G5 G6 G7 G8 G9].
  assert (x.(drain) <> Exited) as Hd by (intros Hd; destruct (G6 Hd); congruence).
  subst y. split; simpl; try done; rewrite ?accepted_app; simpl.
  - unfold has_room. case_match eqn:E; [|done]. rewrite length_app. simpl. lia.
  - rewrite <- G3. case_match; rewrite ?decide_True, ?app_assoc, ?app_nil_r by done; done.
  - case_match; rewrite ?decide_True, ?app_nil_r by done; [|done].
    apply Forall_app; split; [done|]. by apply Forall_singleton.
Qed.

Lemma sub_ok_other tr s t id ev b i x :
  i <> id -> sub_ok tr s i x -> sub_ok (tr ++ [Offer t id ev b]) s i x.
Proof.
  intros Hne [G1 G2 G3 G4 G5 G6 G7 G8 G9].
  assert (accepted i (tr ++ [Offer t id ev b]) = accepted i tr) as E.
  { rewrite accepted_app. simpl. destruct b; [|apply app_nil_r].
    rewrite decide_False by done. apply app_nil_r. }
  split; rewrite ?E; done.
Qed.

Lemma sub_ok_frame tr s s' id x :
  s'.(buffer) = s.(buffer) -> s'.(subs) = s.(subs) -> s'.(threads) = s.(threads) ->
  sub_ok tr s id x -> sub_ok tr s' id x.
Proof.
  intros F1 F2 F3 [G1 G2 G3 G4 G5 G6 G7 G8 G9].
  split; unfold unsubscribing, closing, subscribers; rewrite ?F1, ?F2, ?F3; done.
Qed.

Lemma thread_ok_offer tr s t ev id rest u tu b :
  thread_ok tr s t (PubSending ev (id :: rest)) ->
  (u = t -> tu = PubSending ev rest) -> (u <> t -> thread_ok tr s u tu) ->
  thread_ok (tr ++ [Offer t id ev b]) s u tu.
Proof.
  intros (Hnd & Hin & Hall) Hsame Hother. destruct (decide (u = t)) as [->|Hne].
  - rewrite (Hsame eq_refl). simpl. rewrite offers_app; simpl.
    apply NoDup_cons in Hnd as [Hid Hnd]. split_and!; [done| |].
    + intros i Hi. destruct (Hin i) as [? Hn]; [by right|]. split; [done|].
      rewrite elem_of_app, list_elem_of_singleton. intros [|[= ->]]; [by apply Hn|done].
    + intros i Hi. rewrite elem_of_app, list_elem_of_singleton.
      destruct (Hall i Hi) as [Hi'|]; [|by auto]. apply elem_of_cons in Hi' as [->|]; auto.
  - specialize (Hother Hne).
    assert (forall i, (u, i) ∈ offers (tr ++ [Offer t id ev b]) <-> (u, i) ∈ offers tr) as E.
    { intros i. rewrite offers_app, elem_of_app. simpl. rewrite list_elem_of_singleton.
      naive_solver. }
    destruct tu; try done; simpl.
    + intros i. rewrite E. apply Hother.
    + destruct Hother as (? & H2 & H3). split_and!; [done| |].
      * intros i Hi. rewrite E. auto.
      * intros i Hi. rewrite E. auto.
Qed.

Lemma inv_send opts tr s t ev id rest x :
  inv opts tr s -> s.(threads) !! t = Some (PubSending ev (id :: rest)) ->
  s.(heap) !! id = Some x ->
  inv opts (tr ++ [Offer t id ev (has_room x s)])
    (set_thread t (PubSending ev rest) (offer id x ev s)).
Proof.
  intros [H1 H2 H3 H4 H5 H6 H7 H8 H9] Ht Hx.
  pose proof (H8 _ _ Ht) as (Hnd & Hin & Hall).
  destruct (Hin id) as [Hreg Hno]; [by left|].
  assert (x.(typ) = ev.(Type_) /\ x.(ch_closed) = false) as [Hty Hcl].
  { destruct (H5 _ _ Hreg) as (y & Hy & ? & ?). by simplify_eq. }
  destruct (offer_frame id x ev s Hcl Hx) as (F1 & F2 & F3 & F4 & F5 & F6 & F7 & F8 & F9).
  assert (forall ty, subscribers ty (set_thread t (PubSending ev rest) (offer id x ev s))
    = subscribers ty s) as Fs by (intros ty; unfold subscribers; simpl; by rewrite F2).
  split; simpl; rewrite ?F1, ?F3, ?F4, ?F5; try done.
  - intros u i. rewrite offers_app, elem_of_app. simpl. rewrite list_elem_of_singleton, F6.
    rewrite lookup_insert_is_Some. intros [Hu|[= -> ->]]; [|eauto].
    apply H3 in Hu as [? ?]. destruct (decide (t = u)); auto.
  - rewrite offers_app. apply NoDup_app. split_and!; [done| |apply NoDup_singleton].
    intros p Hp Hq. apply list_elem_of_singleton in Hq as ->. done.
  - intros ty i. rewrite Fs. intros Hi. destruct (H5 ty i Hi) as (y & Hy & ? & ?).
    destruct (decide (i = id)) as [->|]; [|rewrite F7 by done; eauto].
    simplify_eq. rewrite F8. eauto.
  - intros Hc ty. rewrite Fs. by apply H6.
  - rewrite F9, rejections_app, H7. simpl. destruct (has_room x s); simpl.
    + by rewrite Nat.add_0_r.
    + rewrite Zplus_mod_idemp_l. f_equal. lia.
  - intros u tu Hu. apply (thread_ok_mono _ s); [exact Fs|intros i; by rewrite F6|].
    apply thread_ok_offer with rest; [by split_and!|intros ->|intros Hne].
    + rewrite lookup_insert_eq in Hu. by simplify_eq.
    + rewrite lookup_insert_ne in Hu by done. by apply H8.
  - intros i y Hy. eapply sub_ok_set_thread with (th := PubSending ev (id :: rest)).
    + done.
    + right. rewrite F4. split; [done|]. split; [by intros|intros ? ? ? ? [|]; done|by intros].
    + apply sub_ok_frame with s; [done..|]. destruct (decide (i = id)) as [->|].
      * rewrite F8 in Hy. simplify_eq. apply sub_ok_offer; auto.
      * rewrite F7 in Hy by done. apply sub_ok_other; auto.
Qed.

(** *** Every step *)

Lemma closeCh_once id x s :
  x.(ch_closed) = x.(closeOnce) ->
  closeCh id x s = if x.(ch_closed) then s else set_sub id (mark_closed x) s.
Proof. intros H. unfold closeCh. rewrite <- H. by destruct (ch_closed x). Qed.

Lemma sub_ok_closed tr s id x o :
  sub_ok tr s id x -> (o = x.(once) \/ o = Ran) ->
  sub_ok tr s id (mark_closed (set_once o x)).
Proof.
  intros [G1 G2 G3 G4 G5 G6 G7 G8 G9] Ho. split; simpl; try done.
  - intros Hd. by destruct (G6 Hd).
  - intros ->. destruct Ho as [Ho|]; [|done]. by apply G7.
Qed.

Ltac no_release := split; [by intros|intros ? ? ? ? [|]; done|by intros].

Lemma inv_closeCh opts tr s id x :
  inv opts tr s -> s.(heap) !! id = Some x -> not_registered id s ->
  inv opts tr (closeCh id x s).
Proof.
  intros Hinv Hx Hnot. pose proof (inv_subs _ _ _ Hinv _ _ Hx) as Hok.
  rewrite closeCh_once by apply Hok. destruct (ch_closed x) eqn:Hc; [done|].
  eapply inv_set_sub; [done|done|done|by right|].
  pose proof (sub_ok_closed _ _ _ _ x.(once) Hok (or_introl eq_refl)) as H. by destruct x.
Qed.

Lemma closeCh_lookup id x s i y :
  x.(ch_closed) = x.(closeOnce) -> s.(heap) !! id = Some x ->
  (closeCh id x s).(heap) !! i = Some y ->
  (i = id -> y.(ch_closed) = true) /\ (closeCh id x s).(threads) = s.(threads)
  /\ (forall ty, subscribers ty (closeCh id x s) = subscribers ty s)
  /\ (forall j, is_Some (s.(heap) !! j) -> is_Some ((closeCh id x s).(heap) !! j))
  /\ (i = id -> y.(once) = x.(once) /\ y.(drain) = x.(drain)).
Proof.
  intros Hc Hx. rewrite closeCh_once by done. destruct (ch_closed x) eqn:E; intros Hy.
  - split_and!; try done; intros ->; by simplify_eq.
  - simpl in *. split_and!; try done.
    + intros ->. rewrite lookup_insert_eq in Hy. by simplify_eq.
    + intros j Hj. rewrite lookup_insert_is_Some. destruct (decide (id = j)); auto.
    + intros ->. rewrite lookup_insert_eq in Hy. by simplify_eq.
Qed.

Lemma inv_unsubscribe_close opts tr s t id x :
  inv opts tr s -> s.(threads) !! t = Some (UnsubClose id) -> s.(heap) !! id = Some x ->
  inv opts tr
    (set_thread t Returned (closeCh id (set_once Ran x) (set_sub id (set_once Ran x) s))).
Proof.
  intros Hinv Ht Hx. pose proof (inv_subs _ _ _ Hinv _ _ Hx) as Hok.
  pose proof (inv_threads _ _ _ Hinv _ _ Ht) as [_ Hnot].
  set (y := mark_closed (set_once Ran x)).
  assert (sub_ok tr s id y) as Hy by (apply sub_ok_closed; auto).
  assert (closeCh id (set_once Ran x) (set_sub id (set_once Ran x) s) = set_sub id y s) as ->.
  { rewrite closeCh_once by apply Hok. simpl. destruct (ch_closed x) eqn:E.
    - unfold y, mark_closed, set_once; simpl. f_equal. destruct Hok. f_equal; congruence.
    - unfold set_sub; simpl. f_equal. apply insert_insert_eq. }
  apply inv_set_thread with (UnsubClose id); [|right; split; [done|]|done].
  - apply inv_set_sub with x; auto.
  - split; simpl.
    + by intros.
    + intros i z Hz Hrun [|[= ->]]; [done|]. rewrite lookup_insert_eq in Hz. by simplify_eq.
    + intros i z Hz Hop ->. rewrite lookup_insert_eq in Hz. by simplify_eq.
Qed.

Lemma inv_close_one opts tr s t id rest x :
  inv opts tr s -> s.(threads) !! t = Some (CloseClosing (id :: rest)) ->
  s.(heap) !! id = Some x ->
  inv opts tr (set_thread t (CloseClosing rest) (closeCh id x s)).
Proof.
  intros Hinv Ht Hx. pose proof (inv_subs _ _ _ Hinv _ _ Hx) as Hok.
  pose proof (inv_threads _ _ _ Hinv _ _ Ht) as Hr. simpl in Hr.
  destruct (Hr id) as [_ Hnot]; [by left|].
  pose proof (fun i y => closeCh_lookup id x s i y (sub_close_once _ _ _ _ Hok) Hx) as HL.
  assert (exists y, (closeCh id x s).(heap) !! id = Some y) as [y Hy].
  { rewrite closeCh_once by apply Hok. destruct (ch_closed x); simpl; [eauto|].
    rewrite lookup_insert_eq. eauto. }
  destruct (HL id y Hy) as (Hcl & F1 & F2 & F3 & _).
  apply inv_set_thread with (CloseClosing (id :: rest)).
  - by apply inv_closeCh.
  - right. rewrite F1. split; [done|]. split; simpl.
    + by intros.
    + intros ? ? ? ? [|]; done.
    + intros i z Hz Hop Hi. apply elem_of_cons in Hi as [->|]; [|done].
      destruct (HL id z Hz) as [Ht' _]. rewrite Ht' in Hop by done. done.
  - intros i Hi. destruct (Hr i) as [? Hn]; [by right|]. split; [by apply F3|].
    intros ty. rewrite F2. apply Hn.
Qed.

Lemma inv_drain opts tr s id x x' :
  inv opts tr s -> s.(heap) !! id = Some x ->
  x'.(typ) = x.(typ) -> x'.(ch_closed) = x.(ch_closed) -> sub_ok tr s id x' ->
  inv opts tr (set_sub id x' s).
Proof.
  intros Hinv Hx Hty Hcl Hok. apply inv_set_sub with x; try done. rewrite Hcl.
  destruct (ch_closed x) eqn:E; [right|by left]. intros ty Hin.
  destruct (inv_registered _ _ _ Hinv _ _ Hin) as (y & Hy & _ & ?). simplify_eq. congruence.
Qed.

Lemma inv_step opts tr s l s' :
  inv opts tr s -> step s l s' -> inv opts (tr ++ [l]) s'.
Proof.
  intros Hinv Hst. destruct Hst as
    [s t ev rest Ht Hp|s t ev id rest x Ht Hx|s t ev Ht|s t ty Ht Hw Hc|s t ty id Ht Hw Hc Hf
    |s t id x Ht Hx|s t id x Ht Hx Ho|s t id x Ht Hx Ho|s t id x Ht Hw Hx|s t id x Ht Hx
    |s t Ht Hw Hc|s t dr Ht Hw Hc Hp|s t id rest x Ht Hx|s t Ht|s id x ev rest Hx Hd Hch
    |s id x Hx Hd Hch Hcl]; try (by apply inv_send); apply inv_quiet; try done.
  - apply inv_set_thread with (PubStart ev); [done|right; split; [done|no_release]|].
    pose proof (inv_threads _ _ _ Hinv _ _ Ht) as Hno. simpl in Hno. split_and!.
    + rewrite Hp. apply NoDup_elements.
    + intros id Hid. rewrite Hp, elem_of_elements in Hid. auto.
    + intros id Hid. left. by rewrite Hp, elem_of_elements.
  - apply inv_set_thread with (PubSending ev []); [done|right; split; [done|no_release]|done].
  - apply inv_set_thread with (SubStart ty); [done|right; split; [done|no_release]|done].
  - by apply inv_subscribe_lock.
  - pose proof (inv_subs _ _ _ Hinv _ _ Hx) as [].
    apply inv_set_thread with (SubSpawn id); [|right; split; [done|]|done].
    + apply inv_drain with x; try done.
    + split; simpl; [|intros ? ? ? ? [|]; done|by intros].
      intros i y Hy [= ->]. rewrite lookup_insert_eq in Hy. by simplify_eq.
  - change (inv opts tr (set_sub id (set_once Running x) (set_thread t (UnsubLock id) s))).
    assert (inv opts tr (set_thread t (UnsubLock id) s)) as Hinv'.
    { apply inv_set_thread with (UnsubStart id);
        [done|right; split; [done|no_release]|by eexists]. }
    apply inv_drain with x; try done.
    destruct (inv_subs _ _ _ Hinv' _ _ Hx) as [G1 G2 G3 G4 G5 G6 G7 G8 G9].
    split; try done. intros _. exists t, (UnsubLock id). simpl. rewrite lookup_insert_eq. auto.
  - apply inv_set_thread with (UnsubStart id); [done|right; split; [done|no_release]|done].
  - by apply inv_unsubscribe_lock.
  - by apply inv_unsubscribe_close.
  - apply inv_set_thread with CloseStart; [done|right; split; [done|no_release]|done].
  - by apply inv_close_lock.
  - by apply inv_close_one.
  - apply inv_set_thread with (CloseClosing []); [done| |done]. right; split; [done|].
    split; [by intros|intros ? ? ? ? [|]; done|]. simpl. intros ? ? ? ? Hn.
    by apply not_elem_of_nil in Hn.
  - destruct (inv_subs _ _ _ Hinv _ _ Hx) as [G1 G2 G3 G4 G5 G6 G7 G8 G9].
    apply inv_drain with x; try done. rewrite Hch in G2, G3. simpl in G2.
    split; simpl; try done; [lia|by rewrite <- app_assoc|congruence].
  - destruct (inv_subs _ _ _ Hinv _ _ Hx) as [G1 G2 G3 G4 G5 G6 G7 G8 G9].
    apply inv_drain with x; try done.
Qed.

Lemma inv_reach opts tr s : reach opts tr s -> inv opts tr s.
Proof.
  induction 1 as [|tr s t th _ IH Ht Hcall|tr s l s' _ IH Hst].
  - split; simpl; try done.
    + intros t id Hin. by apply not_elem_of_nil in Hin.
    + apply NoDup_nil_2.
  - apply inv_set_thread with Returned; [done|by left|].
    destruct Hcall; simpl; eauto.
    intros id Hin. apply (inv_offers _ _ _ IH) in Hin as [[? ?] _]. congruence.
  - by eapply inv_step.
Qed.

(** C31.  For every interleaving of publishers, subscribers, unsubscribes
    and closes: the bus never sends on a closed channel and never closes one
    twice; a subscriber's buffer stays within its depth; what a subscriber has
    received and has buffered is exactly the sequence of events the bus
    accepted for it, all of its own type, in order; one [Publish] offers its
    event at most once to a subscriber, and when it returns it has offered it
    to every subscriber registered for that type; and [DroppedCount] counts
    exactly the refused offers. *)
Theorem bus_is_safe_and_accounts_for_every_offer opts tr s :
  reach opts tr s ->
  s.(panicked) = false
  /\ (forall id x, s.(heap) !! id = Some x ->
      (Z.of_nat (length x.(ch)) <= buffer_of opts)%Z
      /\ x.(received) ++ x.(ch) = accepted id tr
      /\ Forall (fun ev => ev.(Type_) = x.(typ)) (accepted id tr))
  /\ NoDup (offers tr)
  /\ (forall t ev s', step s (PubReturn t ev) s' ->
      forall id, id ∈ subscribers ev.(Type_) s -> (t, id) ∈ offers tr)
  /\ s.(dropped) = (Z.of_nat (rejections tr) mod 2 ^ 64)%Z.
Proof.
  intros Hr. pose proof (inv_reach _ _ _ Hr) as [H1 H2 H3 H4 H5 H6 H7 H8 H9].
  split_and!; try done.
  - intros id x Hx. apply H9 in Hx as []. rewrite <- H1. auto.
  - intros t ev s' Hst id Hid. inversion Hst as [| |? ? ? Ht| | | | | | | | | | | | |]; subst.
    apply H8 in Ht as (_ & _ & Hall). destruct (Hall id Hid) as [Hn|]; [|done].
    by apply not_elem_of_nil in Hn.
Qed.

(** ** Every call returns *)

(** Sums over a finite map. *)
Definition msum {A} (f : A -> nat) (m : gmap nat A) : nat :=
  sum_list_with (fun p => f p.2) (map_to_list m).

Lemma msum_insert_new {A} (f : A -> nat) (m : gmap nat A) i x :
  m !! i = None -> msum f (<[i := x]> m) = f x + msum f m.
Proof.
  intros H. unfold msum. by rewrite (map_to_list_insert m i x H).
Qed.

Lemma msum_insert {A} (f : A -> nat) (m : gmap nat A) i x y :
  m !! i = Some x -> msum f (<[i := y]> m) + f x = msum f m + f y.
Proof.
  intros H. rewrite <- (insert_delete_id m i x H) at 2.
  rewrite <- (insert_delete_eq m i y).
  rewrite !msum_insert_new by apply lookup_delete_eq. lia.
Qed.

Section Progress.
Context (N : nat).

Definition thread_weight (th : thread) : nat :=
  match th with
  | PubStart _ => 2 * N + 2
  | PubSending _ rest => 2 * length rest + 1
  | SubStart _ => 4
  | SubSpawn _ => 2
  | UnsubStart _ => 3
  | UnsubLock _ => 2
  | UnsubClose _ => 1
  | CloseStart => N + 2
  | CloseClosing rest => length rest + 1
  | Returned => 0
  end.

Definition sub_weight (x : subscription) : nat :=
  length x.(ch) + match x.(drain) with Exited => 0 | _ => 1 end.

Definition work (s : state) : nat := msum thread_weight s.(threads) + msum sub_weight s.(heap).

Definition subscribing (th : thread) : nat := match th with SubStart _ => 1 | _ => 0 end.

(** [N] bounds the subscriptions that exist or are being made. *)
Definition enough (s : state) : Prop :=
  size s.(heap) + msum subscribing s.(threads) <= N.

Lemma subscribers_size opts tr s (X : gset nat) :
  inv opts tr s -> (forall id, id ∈ X -> exists ty, id ∈ subscribers ty s) ->
  length (elements X) <= size s.(heap).
Proof.
  intros Hinv HX. rewrite <- size_dom. change (length (elements X)) with (size X).
  apply subseteq_size. intros id Hid. apply HX in Hid as [ty Hid].
  destruct (inv_registered _ _ _ Hinv _ _ Hid) as (x & Hx & _). apply elem_of_dom. eauto.
Qed.

Lemma size_insert_same {A} (m : gmap nat A) i x y : m !! i = Some x -> size (<[i := y]> m) = size m.
Proof. intros H. rewrite map_size_insert_Some; eauto. Qed.

(** One thread changes, and at most one subscription. *)
Lemma work_thread s t th th' :
  s.(threads) !! t = Some th ->
  work (set_thread t th' s) + thread_weight th = work s + thread_weight th'.
Proof. intros H. unfold work; simpl. pose proof (msum_insert thread_weight _ _ _ th' H). lia. Qed.

Lemma work_sub s id x x' :
  s.(heap) !! id = Some x ->
  work (set_sub id x' s) + sub_weight x = work s + sub_weight x'.
Proof. intros H. unfold work; simpl. pose proof (msum_insert sub_weight _ _ _ x' H). lia. Qed.

Lemma enough_thread s t th th' :
  s.(threads) !! t = Some th -> subscribing th' <= subscribing th ->
  enough s -> enough (set_thread t th' s).
Proof.
  intros H Hle. unfold enough; simpl. pose proof (msum_insert subscribing _ _ _ th' H). lia.
Qed.

Lemma enough_sub s id x x' : s.(heap) !! id = Some x -> enough s -> enough (set_sub id x' s).
Proof. intros H. unfold enough; simpl. by rewrite (size_insert_same _ _ _ x' H). Qed.

Lemma closeCh_work opts tr s id x :
  inv opts tr s -> s.(heap) !! id = Some x ->
  work (closeCh id x s) = work s /\ (enough s -> enough (closeCh id x s))
  /\ (closeCh id x s).(threads) = s.(threads).
Proof.
  intros Hinv Hx. rewrite closeCh_once by apply (inv_subs _ _ _ Hinv _ _ Hx).
  destruct (ch_closed x); [done|]. split_and!; [|by apply enough_sub with x|done].
  pose proof (work_sub s id x (mark_closed x) Hx) as H. unfold sub_weight in H; simpl in H. lia.
Qed.

Lemma offer_work id x ev s :
  x.(ch_closed) = false -> s.(heap) !! id = Some x ->
  work (offer id x ev s) <= S (work s) /\ (enough s -> enough (offer id x ev s))
  /\ (offer id x ev s).(threads) = s.(threads).
Proof.
  intros Hc Hx. rewrite offer_open by done. destruct (has_room x s).
  - split_and!; [|by apply enough_sub with x|done].
    pose proof (work_sub s id x (set_ch (x.(ch) ++ [ev]) x.(received) x) Hx) as H.
    unfold sub_weight in H; simpl in H. rewrite length_app in H. simpl in H. lia.
  - split_and!; try done. unfold work; simpl. lia.
Qed.

(** A thread moves on in a state [s1] whose own work grew by at most [k]. *)
Lemma work_move k s s1 t th th' :
  s1.(threads) !! t = Some th -> work s1 <= k + work s ->
  k + thread_weight th' < thread_weight th -> subscribing th' <= subscribing th ->
  enough s1 -> work (set_thread t th' s1) < work s /\ enough (set_thread t th' s1).
Proof.
  intros Ht Hw Hlt Hsub Hen. pose proof (work_thread s1 t th th' Ht).
  split; [lia|by eapply enough_thread].
Qed.

Lemma work_send opts tr s t ev id rest x :
  inv opts tr s -> enough s -> s.(threads) !! t = Some (PubSending ev (id :: rest)) ->
  s.(heap) !! id = Some x ->
  work (set_thread t (PubSending ev rest) (offer id x ev s)) < work s
  /\ enough (set_thread t (PubSending ev rest) (offer id x ev s)).
Proof.
  intros Hinv Hen Ht Hx. destruct (inv_threads _ _ _ Hinv _ _ Ht) as (_ & Hin & _).
  destruct (Hin id) as [Hreg _]; [by left|].
  destruct (inv_registered _ _ _ Hinv _ _ Hreg) as (y & Hy & _ & Hcl). simplify_eq.
  destruct (offer_work id x ev s Hcl Hx) as (Hle & Hen2 & Hth).
  apply (work_move 1) with (PubSending ev (id :: rest)); simpl; auto; [by rewrite Hth|lia].
Qed.

Lemma work_subscribe s t ty id :
  enough s -> s.(threads) !! t = Some (SubStart ty) -> s.(heap) !! id = None ->
  work (set_thread t (SubSpawn id) (register id ty s)) < work s
  /\ enough (set_thread t (SubSpawn id) (register id ty s)).
Proof.
  intros Hen Ht Hf. pose proof (work_thread s t _ (SubSpawn id) Ht) as HW.
  pose proof (msum_insert subscribing _ _ _ (SubSpawn id) Ht) as HM.
  unfold work, enough in *; simpl in *.
  rewrite (msum_insert_new sub_weight _ id) by done. rewrite map_size_insert_None by done.
  unfold sub_weight at 1; simpl. lia.
Qed.

Lemma work_set_sub k s id x x' :
  s.(heap) !! id = Some x -> enough s -> sub_weight x' <= k + sub_weight x ->
  work (set_sub id x' s) <= k + work s /\ enough (set_sub id x' s).
Proof.
  intros Hx Hen Hle. pose proof (work_sub s id x x' Hx). split; [lia|by eapply enough_sub].
Qed.

Lemma closeCh_again opts tr s id x :
  inv opts tr s -> s.(heap) !! id = Some x -> enough s ->
  let s' := closeCh id (set_once Ran x) (set_sub id (set_once Ran x) s) in
  work s' <= work s /\ enough s' /\ s'.(threads) = s.(threads).
Proof.
  intros Hinv Hx Hen. destruct (inv_subs _ _ _ Hinv _ _ Hx) as [G1 _ _ _ _ _ _ _ _].
  destruct (work_set_sub 0 s id x (set_once Ran x) Hx Hen) as [HW1 Hen1]; [done|].
  simpl. rewrite closeCh_once by done. simpl. destruct (ch_closed x); [done|].
  set (s1 := set_sub id (set_once Ran x) s) in *.
  destruct (work_set_sub 0 s1 id (set_once Ran x) (mark_closed (set_once Ran x))) as [HW2 Hen2];
    [apply lookup_insert_eq|done|done|]. split_and!; [lia|done|done].
Qed.

Lemma work_decreases opts tr s l s' :
  inv opts tr s -> enough s -> step s l s' -> work s' < work s /\ enough s'.
Proof.
  intros Hinv Hen Hst. pose proof Hen as Hen'. unfold enough in Hen'. destruct Hst as
    [s t ev rest Ht Hp|s t ev id rest x Ht Hx|s t ev Ht|s t ty Ht Hw Hc|s t ty id Ht Hw Hc Hf
    |s t id x Ht Hx|s t id x Ht Hx Ho|s t id x Ht Hx Ho|s t id x Ht Hw Hx|s t id x Ht Hx
    |s t Ht Hw Hc|s t dr Ht Hw Hc Hp|s t id rest x Ht Hx|s t Ht|s id x ev rest Hx Hd Hch
    |s id x Hx Hd Hch Hcl];
    try (eapply (work_move 0); [exact Ht|done|simpl; lia|simpl; lia|done]).
  - pose proof (subscribers_size opts tr s (subscribers ev.(Type_) s) Hinv ltac:(eauto)) as Hs.
    rewrite <- (Permutation_length Hp) in Hs.
    eapply (work_move 0); [exact Ht|done|simpl; lia|done|done].
  - by eapply work_send.
  - by apply work_subscribe.
  - destruct (work_set_sub 1 s id x (set_drain Draining x) Hx Hen) as [HW1 Hen1].
    { unfold sub_weight; simpl. destruct (drain x); lia. }
    eapply (work_move 1); [exact Ht|exact HW1|simpl; lia|done|done].
  - destruct (work_set_sub 0 s id x (set_once Running x) Hx Hen) as [HW1 Hen1]; [done|].
    eapply (work_move 0); [exact Ht|exact HW1|simpl; lia|done|done].
  - destruct (unregister_fields id x.(typ) s) as (_ & _ & _ & F4 & F5 & _).
    eapply (work_move 0) with (th := UnsubLock id);
      [by rewrite F5|by unfold work; rewrite F4, F5|simpl; lia|done|].
    unfold enough. by rewrite F4, F5.
  - destruct (closeCh_again opts tr s id x Hinv Hx Hen) as (HW1 & Hen1 & Hth).
    eapply (work_move 0) with (th := UnsubClose id);
      [by rewrite Hth|exact HW1|simpl; lia|done|done].
  - pose proof (subscribers_size opts tr s (all_subscribers s) Hinv) as Hs.
    rewrite <- (Permutation_length Hp) in Hs.
    specialize (Hs ltac:(intros i; apply elem_all_subscribers)).
    eapply (work_move 0) with (s1 := clear_subs s); [exact Ht|done|simpl; lia|done|done].
  - destruct (closeCh_work opts tr s id x Hinv Hx) as (HW1 & Hen1 & Hth).
    eapply (work_move 0) with (th := CloseClosing (id :: rest));
      [by rewrite Hth|by rewrite HW1|simpl; lia|done|auto].
  - pose proof (work_sub s id x (set_ch rest (x.(received) ++ [ev]) x) Hx) as HW.
    unfold sub_weight in HW; simpl in HW. rewrite Hch in HW. simpl in HW.
    split; [lia|by eapply enough_sub].
  - pose proof (work_sub s id x (set_drain Exited x) Hx) as HW.
    unfold sub_weight in HW; simpl in HW. rewrite Hd in HW.
    split; [lia|by eapply enough_sub].
Qed.

End Progress.

Definition moves (s s' : state) : Prop := exists l, step s l s'.

Lemma moves_terminate N opts tr s :
  inv opts tr s -> enough N s -> sn moves s.
Proof.
  remember (work N s) as n eqn:Hn. revert tr s Hn.
  induction (lt_wf n) as [n _ IH]. intros tr s -> Hinv Hen. constructor. intros s' [l Hst].
  destruct (work_decreases N opts tr s l s' Hinv Hen Hst) as [Hlt Hen'].
  eapply IH; [exact Hlt|done| |done]. by eapply inv_step.
Qed.

(** *** No deadlock *)

Lemma sending_moves opts tr s t ev rest :
  inv opts tr s -> s.(threads) !! t = Some (PubSending ev rest) -> exists s', moves s s'.
Proof.
  intros Hinv Ht. destruct rest as [|id rest]; [eexists; eexists; by eapply publish_runlock|].
  destruct (inv_threads _ _ _ Hinv _ _ Ht) as (_ & Hin & _).
  destruct (Hin id) as [Hreg _]; [by left|].
  destruct (inv_registered _ _ _ Hinv _ _ Hreg) as (x & Hx & _).
  eexists; eexists; by eapply publish_send.
Qed.

Lemma unsubscribing_moves opts tr s id :
  inv opts tr s -> write_free s -> unsubscribing s id -> exists s', moves s s'.
Proof.
  intros Hinv Hw (t & th & Ht & [-> | ->]).
  - destruct (inv_threads _ _ _ Hinv _ _ Ht) as [x Hx]. eexists; eexists; by eapply unsubscribe_lock.
  - destruct (inv_threads _ _ _ Hinv _ _ Ht) as [[x Hx] _].
    eexists; eexists; by eapply unsubscribe_close.
Qed.

Lemma thread_moves opts tr s t th :
  inv opts tr s -> write_free s -> s.(threads) !! t = Some th -> th <> Returned ->
  exists s', moves s s'.
Proof.
  intros Hinv Hw Ht Hne. pose proof (inv_threads _ _ _ Hinv _ _ Ht) as Hok.
  destruct th as [ev|ev rest|ty|id|id|id|id| |rest|]; simpl in Hok; [| | | | | | | | |done].
  - eexists; eexists; by eapply publish_rlock.
  - by eapply sending_moves.
  - destruct (closed s) eqn:Hc; eexists; eexists; [by eapply subscribe_closed|].
    eapply subscribe_lock; [done..|]. apply not_elem_of_dom_1, is_fresh.
  - destruct Hok as [x Hx]. eexists; eexists; by eapply subscribe_spawn.
  - destruct Hok as [x Hx]. destruct (once x) eqn:Ho.
    + eexists; eexists; by eapply unsubscribe_once.
    + eapply unsubscribing_moves; [done..|]. by apply (inv_subs _ _ _ Hinv _ _ Hx).
    + eexists; eexists; by eapply unsubscribe_again.
  - destruct Hok as [x Hx]. eexists; eexists; by eapply unsubscribe_lock.
  - destruct Hok as [[x Hx] _]. eexists; eexists; by eapply unsubscribe_close.
  - destruct (closed s) eqn:Hc; eexists; eexists; [by eapply close_again|by eapply close_lock].
  - destruct rest as [|id rest]; [eexists; eexists; by eapply close_done|].
    destruct (Hok id) as [[x Hx] _]; [by left|]. eexists; eexists; by eapply close_one.
Qed.

Lemma stuck_returned opts tr s t th :
  inv opts tr s -> (forall s', ~ moves s s') -> s.(threads) !! t = Some th -> th = Returned.
Proof.
  intros Hinv Hstuck Ht.
  assert (write_free s) as Hw.
  { intros u tu Hu. destruct tu; try done.
    destruct (sending_moves _ _ _ _ _ _ Hinv Hu) as [s' Hs]. by destruct (Hstuck s'). }
  destruct th; try done;
    by (edestruct thread_moves as [s' Hs]; [exact Hinv|exact Hw|exact Ht|done|destruct (Hstuck s')]).
Qed.

(** C32.  Nothing blocks and nothing leaks, as long as handlers return.
    From every reachable state, with no further calls, the bus comes to rest
    whatever the schedule; and at rest every call has returned, every
    subscriber has been handed everything accepted for it, the goroutine of an
    unsubscribed subscriber (and, after [Close], of every subscriber) has
    exited, and the goroutine of a registered one is still waiting. *)
Theorem bus_calls_return_and_goroutines_stop opts tr s :
  reach opts tr s ->
  sn moves s
  /\ ((forall s', ~ moves s s') ->
      (forall t th, s.(threads) !! t = Some th -> th = Returned)
      /\ forall id x, s.(heap) !! id = Some x ->
         x.(received) = accepted id tr
         /\ (s.(closed) = true \/ x.(once) = Ran -> x.(drain) = Exited)
         /\ (id ∈ subscribers x.(typ) s -> x.(drain) = Draining)).
Proof.
  intros Hr. pose proof (inv_reach _ _ _ Hr) as Hinv. split.
  { eapply (moves_terminate (size s.(heap) + msum subscribing s.(threads))); [done|].
    unfold enough. lia. }
  intros Hstuck. pose proof (fun t th => stuck_returned opts tr s t th Hinv Hstuck) as Hret.
  split; [exact Hret|]. intros id x Hx.
  destruct (inv_subs _ _ _ Hinv _ _ Hx) as [G1 G2 G3 G4 G5 G6 G7 G8 G9].
  assert (x.(drain) <> NotStarted) as Hstarted.
  { intros Hd. destruct (G5 Hd) as [t Ht]. by apply Hret in Ht. }
  assert (x.(ch) = []) as Hempty.
  { destruct (drain x) eqn:Hd; [done| |by apply G6].
    destruct (ch x) as [|ev rest] eqn:Hch; [done|].
    edestruct Hstuck. eexists. by eapply drain_receive. }
  rewrite Hempty, app_nil_r in G3. split_and!; [done| |].
  - intros Hwhy. assert (x.(ch_closed) = true) as Hcl.
    { destruct Hwhy as [Hc|Ho]; [|by apply G8]. destruct (ch_closed x); [done|].
      destruct (G9 eq_refl) as [Hin|(t & th & Ht & Hth)].
      - rewrite (inv_closed _ _ _ Hinv Hc) in Hin. set_solver.
      - apply Hret in Ht as ->. done. }
    destruct (drain x) eqn:Hd; [done| |done].
    edestruct Hstuck. eexists. by eapply drain_exit.
  - intros Hin. destruct (inv_registered _ _ _ Hinv _ _ Hin) as (y & Hy & _ & Hcl). simplify_eq.
    destruct (drain x) eqn:Hd; [done|done|]. destruct (G6 eq_refl). congruence.
Qed.

(** ** A concrete execution: a full buffer of depth one *)

Definition example_event (c : string) : Event :=
  {| Type_ := ReplySent; EventEnvelope := None; Channel := c; Brain := "b"; Err := None;
     Tool := ""; EventOutcome := ""; Rule := ""; Latency := 0 |}.

Definition example_subscribed : state :=
  let s := set_thread 0 (SubSpawn 0)
    (register 0 ReplySent (set_thread 0 (SubStart ReplySent) (New [1%Z]))) in
  set_thread 0 Returned (set_sub 0 (set_drain Draining (new_subscription ReplySent)) s).

(** [Publish] by thread [t] to subscription 0, from the call to the send. *)
Definition example_publish (t : nat) (ev : Event) (x : subscription) (s : state) : state :=
  set_thread t (PubSending ev [])
    (offer 0 x ev (set_thread t (PubSending ev [0]) (set_thread t (PubStart ev) s))).

Definition example_first : state :=
  set_thread 1 Returned
    (example_publish 1 (example_event "x") (set_drain Draining (new_subscription ReplySent))
       example_subscribed).

Definition example_full : subscription :=
  set_ch [example_event "x"] [] (set_drain Draining (new_subscription ReplySent)).

Definition example_second : state :=
  example_publish 2 (example_event "y") example_full example_first.

Definition example_trace : list label :=
  [Internal; Internal] ++ [Internal; Offer 1 0 (example_event "x") true]
  ++ [PubReturn 1 (example_event "x")] ++ [Internal; Offer 2 0 (example_event "y") false].

Lemma publish_reach opts tr s t ev x :
  reach opts tr s -> s.(threads) !! t = None -> s.(heap) !! 0 = Some x ->
  elements (subscribers ev.(Type_) s) = [0] ->
  reach opts (tr ++ [Internal; Offer t 0 ev (has_room x s)]) (example_publish t ev x s).
Proof.
  intros Hr Ht Hx Hs.
  change [Internal; Offer t 0 ev (has_room x s)] with ([Internal] ++ [Offer t 0 ev (has_room x s)]).
  rewrite app_assoc. eapply reach_step.
  - eapply reach_step; [by eapply reach_call; [|done|constructor]|].
    apply (publish_rlock _ t ev [0]); [apply lookup_insert_eq|]. by rewrite subscribers_set_thread, Hs.
  - apply (publish_send (set_thread t (PubSending ev [0]) (set_thread t (PubStart ev) s)) t ev 0 [] x);
      [apply lookup_insert_eq|done].
Qed.

Lemma example_reach : reach [1%Z] example_trace example_second.
Proof.
  unfold example_trace. rewrite !app_assoc.
  apply (publish_reach _ _ example_first 2 (example_event "y") example_full);
    [|reflexivity|reflexivity|reflexivity].
  apply (reach_step _ _ (example_publish 1 (example_event "x")
    (set_drain Draining (new_subscription ReplySent)) example_subscribed));
    [|apply publish_runlock; reflexivity].
  apply (publish_reach [1%Z] [Internal; Internal] example_subscribed 1 (example_event "x")
    (set_drain Draining (new_subscription ReplySent)));
    [|reflexivity|reflexivity|reflexivity].
  apply (reach_step _ [Internal] (set_thread 0 (SubSpawn 0)
    (register 0 ReplySent (set_thread 0 (SubStart ReplySent) (New [1%Z])))));
    [|apply (subscribe_spawn _ 0 0); reflexivity].
  apply (reach_step _ [] (set_thread 0 (SubStart ReplySent) (New [1%Z]))).
  - apply reach_call; [constructor|reflexivity|constructor].
  - apply subscribe_lock; [reflexivity| |reflexivity|reflexivity].
    intros t th. simpl. rewrite lookup_insert_Some, lookup_empty. naive_solver.
Qed.

Lemma bus_is_safe_and_accounts_for_every_offer_witness :
  example_second.(panicked) = false
  /\ example_second.(dropped) = (Z.of_nat (rejections example_trace) mod 2 ^ 64)%Z
  /\ rejections example_trace = 1.
Proof.
  destruct (bus_is_safe_and_accounts_for_every_offer [1%Z] example_trace example_second
    example_reach) as (H1 & _ & _ & _ & H2).
  exact (conj H1 (conj H2 eq_refl)).
Defined.

Lemma bus_calls_return_and_goroutines_stop_witness : sn moves example_second.
Proof.
  exact (proj1 (bus_calls_return_and_goroutines_stop [1%Z] example_trace example_second
    example_reach)).
Defined.

End InMemoryBus.
