(* ===== verification/Encoding.v ===== *)
(** * Encodings of Go's standard library the kernel's digests rest on

    [crypto/sha256], [encoding/hex], [strconv.Itoa] and the RFC 3339 form of
    [time.Time] in UTC, executable, with the inverses that make them
    injective. *)

From S2P Require Import Prelude Json.
From Stdlib Require Import Ascii String.
Local Open Scope Z_scope.
#[local] Arguments String.append !_ _ : simpl nomatch.
#[local] Ltac Zify.zify_post_hook ::= Z.to_euclidean_division_equations.

(** ** SHA-256 *)

Definition mask32 (z : Z) : Z := Z.land z 0xffffffff.
Definition add32 (a b : Z) : Z := mask32 (a + b).
Definition rotr (n x : Z) : Z := Z.lor (Z.shiftr x n) (mask32 (Z.shiftl x (32 - n))).

(** The constants of the standard are the first 32 bits of the fractional
    parts of roots of the first primes: square roots of eight for the initial
    state, cube roots of sixty-four for the rounds. *)
Definition is_prime (n : Z) : bool :=
  forallb (fun d => negb (n mod d =? 0)) (map Z.of_nat (seq 2 (Z.to_nat n - 2))).

Definition primes : list Z :=
  Eval vm_compute in List.filter is_prime (map Z.of_nat (seq 2 310)).

(** The integer cube root of [n], from the bit [k - 1] down. *)
Fixpoint cube_root (k : nat) (acc n : Z) : Z :=
  match k with
  | O => acc
  | S k' =>
      let c := acc + Z.shiftl 1 (Z.of_nat k') in
      cube_root k' (if c * c * c <=? n then c else acc) n
  end.

Definition sha_H : list Z :=
  Eval vm_compute in map (fun p => mask32 (Z.sqrt (Z.shiftl p 64))) (take 8 primes).

Definition sha_K : list Z :=
  Eval vm_compute in map (fun p => mask32 (cube_root 36 0 (Z.shiftl p 96))) primes.

Example sha_K_length : List.length sha_K = 64%nat.
Proof. reflexivity. Qed.

Definition bytes_of (s : string) : list Z := map code (String.list_ascii_of_string s).
Definition string_of_bytes (l : list Z) : string := String.string_of_list_ascii (map byte l).

(** The [n] low bytes of [z], most significant first. *)
Fixpoint be_bytes (n : nat) (z : Z) : list Z :=
  match n with
  | O => []
  | S n' => be_bytes n' (Z.shiftr z 8) ++ [Z.land z 255]
  end.

Definition pad (l : list Z) : list Z :=
  let n := Z.of_nat (List.length l) in
  l ++ 128 :: repeat 0 (Z.to_nat ((55 - n) mod 64)) ++ be_bytes 8 (8 * n).

Fixpoint words (l : list Z) : list Z :=
  match l with
  | a :: b :: c :: d :: l' =>
      Z.lor (Z.shiftl a 24) (Z.lor (Z.shiftl b 16) (Z.lor (Z.shiftl c 8) d)) :: words l'
  | _ => []
  end.

(** The message schedule, latest word first. *)
Fixpoint schedule (n : nat) (ws : list Z) : list Z :=
  match n with
  | O => ws
  | S n' =>
      let x := nth 14 ws 0 in
      let y := nth 1 ws 0 in
      let s0 := Z.lxor (rotr 7 x) (Z.lxor (rotr 18 x) (Z.shiftr x 3)) in
      let s1 := Z.lxor (rotr 17 y) (Z.lxor (rotr 19 y) (Z.shiftr y 10)) in
      schedule n' (mask32 (nth 15 ws 0 + s0 + nth 6 ws 0 + s1) :: ws)
  end.

Definition sha_round (st : list Z) (kw : Z * Z) : list Z :=
  match st with
  | [a; b; c; d; e; f; g; h] =>
      let S1 := Z.lxor (rotr 6 e) (Z.lxor (rotr 11 e) (rotr 25 e)) in
      let ch := Z.lxor (Z.land e f) (Z.land (Z.lxor e 0xffffffff) g) in
      let t1 := h + S1 + ch + kw.1 + kw.2 in
      let S0 := Z.lxor (rotr 2 a) (Z.lxor (rotr 13 a) (rotr 22 a)) in
      let maj := Z.lxor (Z.land a b) (Z.lxor (Z.land a c) (Z.land b c)) in
      [mask32 (t1 + S0 + maj); a; b; c; add32 d t1; e; f; g]
  | _ => st
  end.

Definition compress (st block : list Z) : list Z :=
  let ws := rev (schedule 48 (rev (words block))) in
  zip_with add32 st (fold_left sha_round (zip sha_K ws) st).

Fixpoint blocks (n : nat) (st l : list Z) : list Z :=
  match n with
  | O => st
  | S n' => blocks n' (compress st (take 64 l)) (drop 64 l)
  end.

(** [sha256.Sum256]: 32 bytes. *)
Definition sha256 (s : string) : string :=
  let l := pad (bytes_of s) in
  string_of_bytes (blocks (Nat.div (List.length l) 64) sha_H l ≫= be_bytes 4).

(** ** Hexadecimal *)

(** [hex.EncodeToString]. *)
Fixpoint hex_encode (s : string) : string :=
  match s with
  | String c s' =>
      String (hex_char (code c / 16)) (String (hex_char (code c mod 16)) (hex_encode s'))
  | EmptyString => EmptyString
  end.

(** [hex.DecodeString]; both cases of the letters are accepted. *)
Fixpoint hex_decode (s : string) : option string :=
  match s with
  | String a (String b s') =>
      match hex_digit a, hex_digit b, hex_decode s' with
      | Some x, Some y, Some r => Some (String (byte (16 * x + y)) r)
      | _, _, _ => None
      end
  | String _ EmptyString => None
  | EmptyString => Some EmptyString
  end.

(** ** Decimal integers *)

Definition digit (z : Z) : ascii := byte (48 + z).

Fixpoint decimal (fuel : nat) (n : Z) (acc : string) : string :=
  match fuel with
  | O => acc
  | S fuel' =>
      let acc' := String (digit (n mod 10)) acc in
      if n <? 10 then acc' else decimal fuel' (n / 10) acc'
  end.

(** [strconv.Itoa] and [%d]. *)
Definition Itoa (z : Z) : string :=
  let s := decimal (S (Z.to_nat (Z.log2 (Z.abs z)))) (Z.abs z) EmptyString in
  if z <? 0 then String (byte 45) s else s.

(** The number a string of digits denotes, after [acc]. *)
Fixpoint undecimal (acc : Z) (s : string) : option Z :=
  match s with
  | String c s' => if is_digit c then undecimal (10 * acc + (code c - 48)) s' else None
  | EmptyString => Some acc
  end.

(** ** RFC 3339 *)

(** [n] digits, most significant first. *)
Fixpoint fixed (n : nat) (z : Z) : string :=
  match n with
  | O => EmptyString
  | S n' => fixed n' (z / 10) +:+ String (digit (z mod 10)) EmptyString
  end.

(** The civil date of a day count (day 0 is 0001-01-01): the year, month and
    day of the proleptic Gregorian calendar, through years that begin in
    March and 400-year eras of 146097 days. *)
Definition civil (days : Z) : Z * Z * Z :=
  let z := days + 306 in
  let era := z / 146097 in
  let doe := z mod 146097 in
  let yoe := (doe - doe / 1460 + doe / 36524 - doe / 146096) / 365 in
  let doy := doe - (365 * yoe + yoe / 4 - yoe / 100) in
  let mp := (5 * doy + 2) / 153 in
  let d := doy - (153 * mp + 2) / 5 + 1 in
  let m := if mp <? 10 then mp + 3 else mp - 9 in
  (yoe + era * 400 + (if m <=? 2 then 1 else 0), m, d).

Definition days_of_civil (y m d : Z) : Z :=
  let y' := y - (if m <=? 2 then 1 else 0) in
  let era := y' / 400 in
  let yoe := y' mod 400 in
  let mp := if 2 <? m then m - 3 else m + 9 in
  let doy := (153 * mp + 2) / 5 + d - 1 in
  era * 146097 + (365 * yoe + yoe / 4 - yoe / 100 + doy) - 306.

Fixpoint trim_zeros (n : nat) (z : Z) : string :=
  match n with
  | O => EmptyString
  | S n' => if z mod 10 =? 0 then trim_zeros n' (z / 10) else fixed n z
  end.

(** The fraction [.999999999]: trailing zeros and an empty fraction vanish. *)
Definition fraction (ns : Z) : string :=
  if ns =? 0 then EmptyString else String (byte 46) (trim_zeros 9 ns).

Definition NsPerDay : Z := 86400 * Second.

(** [t.UTC().Format(time.RFC3339Nano)] for the years 1 to 9999. *)
Definition rfc3339 (t : time) : string :=
  let '(y, m, d) := civil (t / NsPerDay) in
  let ns := t mod NsPerDay in
  let sec := ns / Second in
  fixed 4 y +:+ "-" +:+ fixed 2 m +:+ "-" +:+ fixed 2 d +:+ "T"
  +:+ fixed 2 (sec / 3600) +:+ ":" +:+ fixed 2 (sec / 60 mod 60) +:+ ":" +:+ fixed 2 (sec mod 60)
  +:+ fraction (ns mod Second) +:+ "Z".

(** The instants of those years. *)
Definition year_10000 : time := 3652059 * NsPerDay.
Definition rfc3339_range (t : time) : Prop := 0 <= t < year_10000.

(** ** Known answers *)

Example sha256_abc : hex_encode (sha256 "abc")
  = "ba7816bf8f01cfea414140de5dae2223b00361a396177a9cb410ff61f20015ad".
Proof. vm_compute. reflexivity. Qed.

Example rfc3339_example : rfc3339 (days_of_civil 2026 8 30 * NsPerDay + 86399 * Second + 120)
  = "2026-08-30T23:59:59.00000012Z".
Proof. vm_compute. reflexivity. Qed.

Example days_example : days_of_civil 10000 1 1 = 3652059 /\ days_of_civil 1 1 1 = 0.
Proof. split; reflexivity. Qed.

(** ** Lemmas: strings of known length *)

Lemma str_app_inj (a a' b b' : string) :
  String.length a = String.length a' -> a +:+ b = a' +:+ b' -> a = a' /\ b = b'.
Proof.
  revert a'. induction a as [|c a IH]; intros [|c' a']; simpl; try done.
  intros [= Hl] [= -> H]. destruct (IH a' Hl H) as [-> ->]. done.
Qed.

Lemma str_app_inj_r (a a' b : string) : a +:+ b = a' +:+ b -> a = a'.
Proof.
  intros H. eapply proj1, str_app_inj; [|exact H].
  apply (f_equal String.length) in H. rewrite !str_length_app in H. lia.
Qed.

Lemma digit_code (z : Z) : 0 <= z < 10 -> code (digit z) = 48 + z.
Proof. intros. unfold digit. apply code_byte. lia. Qed.

Lemma digit_is_digit (z : Z) : 0 <= z < 10 -> is_digit (digit z) = true.
Proof. intros. unfold is_digit. rewrite digit_code by done. apply in_range_true. lia. Qed.

Lemma fixed_length n z : String.length (fixed n z) = n.
Proof.
  revert z. induction n as [|n IH]; intros z; simpl; [done|].
  rewrite str_length_app, IH. simpl. lia.
Qed.

Lemma fixed_inj n a b :
  0 <= a < 10 ^ Z.of_nat n -> 0 <= b < 10 ^ Z.of_nat n -> fixed n a = fixed n b -> a = b.
Proof.
  revert a b. induction n as [|n IH]; intros a b Ha Hb H.
  - simpl in *. lia.
  - rewrite Nat2Z.inj_succ, Z.pow_succ_r in Ha, Hb by lia. simpl in H.
    apply str_app_inj in H as [H1 H2]; [|by rewrite !fixed_length].
    assert (forall x, 0 <= x < 10 * 10 ^ Z.of_nat n -> 0 <= x / 10 < 10 ^ Z.of_nat n) as Hq.
    { intros x Hx. split; [apply Z.div_pos; lia|apply Z.div_lt_upper_bound; lia]. }
    apply IH in H1; [|by apply Hq..]. injection H2 as H2. apply (f_equal code) in H2.
    rewrite !digit_code in H2 by (apply Z.mod_pos_bound; lia).
    rewrite (Z.div_mod a 10), (Z.div_mod b 10) by done. lia.
Qed.

(** ** Hexadecimal and decimal *)

Lemma hex_decode_encode (s : string) : hex_decode (hex_encode s) = Some s.
Proof.
  induction s as [|c s IH]; [done|]. pose proof (code_range c). simpl.
  rewrite !hex_char_digit, IH by lia. do 2 f_equal.
  rewrite <- Z.div_mod by done. apply byte_code.
Qed.

Lemma hex_encode_inj (s s' : string) : hex_encode s = hex_encode s' -> s = s'.
Proof. intros H. apply (f_equal hex_decode) in H. rewrite !hex_decode_encode in H. by simplify_eq. Qed.

(** Digits without a leading zero: what [lex_int] reads. *)
Fixpoint all_digits (s : string) : bool :=
  match s with String c s' => is_digit c && all_digits s' | EmptyString => true end.

Lemma span_all_digits s : all_digits s = true -> span_digits s = (s, EmptyString).
Proof. induction s as [|c s IH]; simpl; [done|]. intros H. bools. by rewrite H, IH. Qed.

Lemma undecimal_app s t a b :
  undecimal a s = Some b -> undecimal a (s +:+ t) = undecimal b t.
Proof.
  revert a. induction s as [|c s IH]; intros a; simpl; [by intros [= ->]|].
  destruct (is_digit c); [apply IH|done].
Qed.

(** The digits [decimal] puts before [acc]: they denote [n], and they start
    with a zero only if [n] is zero. *)
Record decimal_of (n : Z) (s : string) : Prop := {
  dec_digits : all_digits s = true;
  dec_value : forall a, undecimal a s = Some (a * 10 ^ Z.of_nat (String.length s) + n);
  dec_first : match s with
              | EmptyString => False
              | String c s' => code c = 48 -> s = "0"
              end;
}.

Lemma all_digits_app s t : all_digits (s +:+ t) = all_digits s && all_digits t.
Proof. induction s as [|c s IH]; simpl; [done|]. by rewrite IH, andb_assoc. Qed.

Lemma decimal_of_one n : 0 <= n < 10 -> decimal_of n (String (digit n) EmptyString).
Proof.
  intros Hn. split; simpl.
  - by rewrite digit_is_digit.
  - intros a. rewrite digit_is_digit, digit_code by done. f_equal. lia.
  - rewrite digit_code by done. intros H. assert (n = 0) as -> by lia. done.
Qed.

Lemma decimal_of_snoc n s :
  0 <= n -> 1 <= n / 10 -> decimal_of (n / 10) s ->
  decimal_of n (s +:+ String (digit (n mod 10)) EmptyString).
Proof.
  intros Hn Hq [D1 D2 D3]. split.
  - rewrite all_digits_app, D1. simpl. by rewrite digit_is_digit by lia.
  - intros a. rewrite (undecimal_app s _ a _ (D2 a)). simpl.
    rewrite digit_is_digit, digit_code by lia. f_equal.
    rewrite str_length_app. simpl. rewrite Nat2Z.inj_add, Z.pow_add_r by lia.
    change (10 ^ Z.of_nat 1) with 10.
    rewrite (Z.div_mod n 10) at 3 by done. ring.
  - destruct s as [|c s]; [done|]. simpl. intros Hc. specialize (D3 Hc).
    rewrite D3 in D2. specialize (D2 0). change (undecimal 0 "0") with (Some 0) in D2.
    injection D2 as D2. lia.
Qed.

Lemma decimal_spec fuel n acc :
  0 <= n -> n < 2 ^ Z.of_nat fuel -> (0 < fuel)%nat ->
  exists s, decimal fuel n acc = s +:+ acc /\ decimal_of n s.
Proof.
  revert n acc. induction fuel as [|fuel IH]; intros n acc Hn Hlt Hf; [lia|].
  simpl. destruct (n <? 10) eqn:E; bools.
  - exists (String (digit n) EmptyString). split; [|by apply decimal_of_one].
    simpl. by rewrite Z.mod_small by lia.
  - rewrite Nat2Z.inj_succ, Z.pow_succ_r in Hlt by lia.
    destruct fuel as [|fuel]; [simpl in Hlt; lia|].
    destruct (IH (n / 10) (String (digit (n mod 10)) acc)) as (s & Hs & Hd); [lia|lia|lia|].
    exists (s +:+ String (digit (n mod 10)) EmptyString). split.
    + rewrite Hs, str_app_assoc. done.
    + apply decimal_of_snoc; [done|lia|done].
Qed.

Lemma Itoa_spec z : exists s, decimal_of (Z.abs z) s /\
  Itoa z = if z <? 0 then String (byte 45) s else s.
Proof.
  destruct (decimal_spec (S (Z.to_nat (Z.log2 (Z.abs z)))) (Z.abs z) EmptyString)
    as (s & Hs & Hd); [lia| |lia|].
  - rewrite Nat2Z.inj_succ, Z2Nat.id by apply Z.log2_nonneg.
    destruct (decide (z = 0)) as [->|]; [reflexivity|]. apply Z.log2_spec. lia.
  - exists s. split; [done|]. unfold Itoa. by rewrite Hs, str_app_nil.
Qed.

Lemma decimal_of_first n s : decimal_of n s -> exists c s', s = String c s' /\ is_digit c = true
  /\ code c <> 45.
Proof.
  intros [D1 _ D3]. destruct s as [|c s]; [done|]. exists c, s. simpl in D1.
  apply andb_true_iff in D1 as [Hc _]. split_and!; [done|done|].
  apply in_range_iff in Hc. lia.
Qed.

Lemma Itoa_inj z z' : Itoa z = Itoa z' -> z = z'.
Proof.
  destruct (Itoa_spec z) as (s & Hs & ->), (Itoa_spec z') as (s' & Hs' & ->).
  destruct (decimal_of_first _ _ Hs) as (c & r & -> & _ & Hc).
  destruct (decimal_of_first _ _ Hs') as (c' & r' & -> & _ & Hc').
  pose proof (dec_value _ _ Hs 0) as V. pose proof (dec_value _ _ Hs' 0) as V'.
  destruct (z <? 0) eqn:E, (z' <? 0) eqn:E'; bools; intros [= H1 H2]; subst;
    try (rewrite V in V'; simplify_eq; lia); exfalso;
    [apply Hc'|apply Hc]; by rewrite <- ?H1, ?H1, code_byte by lia.
Qed.

Lemma lex_int_decimal n s : decimal_of n s -> lex_int s = Some (s, EmptyString).
Proof.
  intros Hd. destruct (decimal_of_first _ _ Hd) as (c & r & -> & Hc & _).
  destruct Hd as [D1 _ D3]. simpl in *. rewrite Hc in *. simpl in D1.
  destruct (code c =? 48) eqn:E; bools.
  - apply D3 in E. injection E as -> ->. done.
  - by rewrite span_all_digits.
Qed.

(** The literal of an integer is a JSON number. *)
Lemma Itoa_literal z : number_literal (Itoa z).
Proof.
  destruct (Itoa_spec z) as (s & Hs & ->). unfold number_literal, lex_number.
  destruct (decimal_of_first _ _ Hs) as (c & r & E & _ & Hc).
  pose proof (lex_int_decimal _ _ Hs) as HL.
  destruct (z <? 0).
  - rewrite code_byte by lia. simpl. rewrite HL. simpl. by rewrite str_app_nil.
  - rewrite E in HL |- *. rewrite (proj2 (Z.eqb_neq _ _) Hc), HL. simpl.
    by rewrite str_app_nil.
Qed.

(** ** Dates *)

Lemma civil_ranges days y m d :
  civil days = (y, m, d) -> 1 <= m <= 12 /\ 1 <= d <= 31 /\ days_of_civil y m d = days.
Proof.
  unfold civil, days_of_civil. set (z := days + 306).
  set (doe := z mod 146097). assert (0 <= doe < 146097) as Hdoe by (subst doe; lia).
  set (yoe := (doe - doe / 1460 + doe / 36524 - doe / 146096) / 365).
  assert (0 <= yoe <= 399) as Hyoe by (subst yoe; lia).
  set (doy := doe - (365 * yoe + yoe / 4 - yoe / 100)).
  assert (0 <= doy <= 365) as Hdoy by (subst doy yoe; lia).
  set (mp := (5 * doy + 2) / 153). assert (0 <= mp <= 11) as Hmp by (subst mp; lia).
  intros [= <- <- <-].
  split_and!; [case_match; bools; lia|case_match; bools; lia|subst mp; lia|subst mp; lia|].
  set (m := if mp <? 10 then mp + 3 else mp - 9).
  assert ((if 2 <? m then m - 3 else m + 9) = mp) as ->
    by (subst m; repeat case_match; bools; lia).
  set (y1 := if m <=? 2 then 1 else 0).
  replace (yoe + z / 146097 * 400 + y1 - y1) with (yoe + z / 146097 * 400) by lia.
  rewrite Z.div_add, Z.mod_add, Z.div_small, Z.mod_small by lia. subst doy doe. lia.
Qed.

Lemma year_range days y m d :
  0 <= days < 3652059 -> civil days = (y, m, d) -> 1 <= y <= 9999.
Proof.
  unfold civil. set (z := days + 306). intros Hd.
  set (doe := z mod 146097). assert (0 <= doe < 146097) as Hdoe by (subst doe; lia).
  set (yoe := (doe - doe / 1460 + doe / 36524 - doe / 146096) / 365).
  assert (0 <= yoe <= 399) as Hyoe by (subst yoe; lia).
  set (doy := doe - (365 * yoe + yoe / 4 - yoe / 100)).
  assert (0 <= doy <= 365) as Hdoy by (subst doy yoe; lia).
  set (mp := (5 * doy + 2) / 153). assert (0 <= mp <= 11) as Hmp by (subst mp; lia).
  set (era := z / 146097). assert (z = 146097 * era + doe) as Hz by (subst era doe; lia).
  assert (doe = 365 * yoe + yoe / 4 - yoe / 100 + doy) as Hdoe' by (subst doy; lia).
  assert (mp < 10 <-> doy < 306) as Hmonth by (subst mp; lia).
  intros [= <- _ _]. clearbody mp doy yoe doe era. subst z. destruct (mp <? 10) eqn:E; bools.
  - rewrite (proj2 (Z.leb_gt (mp + 3) 2)) by lia. lia.
  - rewrite (proj2 (Z.leb_le (mp - 9) 2)) by lia. lia.
Qed.

Lemma trim_zeros_spec n z :
  0 <= z < 10 ^ Z.of_nat n -> z <> 0 ->
  exists k, (k < n)%nat /\ trim_zeros n z = fixed (n - k) (z / 10 ^ Z.of_nat k)
  /\ z = 10 ^ Z.of_nat k * (z / 10 ^ Z.of_nat k).
Proof.
  revert z. induction n as [|n IH]; intros z Hz Hne; [simpl in Hz; lia|].
  cbn [trim_zeros]. destruct (z mod 10 =? 0) eqn:E; bools.
  - rewrite Nat2Z.inj_succ, Z.pow_succ_r in Hz by lia.
    destruct (IH (z / 10)) as (k & Hk & H1 & H2).
    { split; [lia|]. apply Z.div_lt_upper_bound; lia. }
    { lia. }
    rewrite Z.div_div in H1, H2 by (try apply Z.pow_pos_nonneg; lia).
    exists (S k). rewrite Nat2Z.inj_succ, Z.pow_succ_r by lia.
    split_and!; [lia|exact H1|]. rewrite (Z.div_mod z 10) at 1 by done. rewrite E. lia.
  - exists 0%nat. rewrite Z.pow_0_r, Z.div_1_r, Nat.sub_0_r. split_and!; [lia|done|lia].
Qed.

Lemma fraction_inj a b :
  0 <= a < Second -> 0 <= b < Second -> fraction a = fraction b -> a = b.
Proof.
  intros Ha Hb. unfold fraction.
  destruct (a =? 0) eqn:Ea, (b =? 0) eqn:Eb; bools; try done; [lia|]. intros H0.
  assert (trim_zeros 9 a = trim_zeros 9 b) as H by congruence. clear H0.
  destruct (trim_zeros_spec 9 a) as (k & Hk & H1 & H2); [exact Ha|done|].
  destruct (trim_zeros_spec 9 b) as (j & Hj & H3 & H4); [exact Hb|done|].
  rewrite H1, H3 in H. assert (k = j) as <-.
  { apply (f_equal String.length) in H. rewrite !fixed_length in H. lia. }
  assert (forall x, 0 <= x < Second -> 0 <= x / 10 ^ Z.of_nat k < 10 ^ Z.of_nat (9 - k)) as Hr.
  { intros x Hx. split; [apply Z.div_pos; [lia|apply Z.pow_pos_nonneg; lia]|].
    apply Z.div_lt_upper_bound; [apply Z.pow_pos_nonneg; lia|].
    rewrite <- Z.pow_add_r by lia.
    replace (Z.of_nat k + Z.of_nat (9 - k)) with 9 by lia. apply Hx. }
  apply fixed_inj in H; [|by apply Hr..]. rewrite H2, H4, H. done.
Qed.

(** Distinct instants are distinct texts. *)
Lemma rfc3339_inj t t' :
  rfc3339_range t -> rfc3339_range t' -> rfc3339 t = rfc3339 t' -> t = t'.
Proof.
  unfold rfc3339_range, year_10000, rfc3339. intros Ht Ht' H.
  assert (0 < NsPerDay) as Hpos by done.
  assert (forall x, 0 <= x < 3652059 * NsPerDay -> 0 <= x / NsPerDay < 3652059) as Hdays.
  { intros x Hx. split; [apply Z.div_pos; lia|apply Z.div_lt_upper_bound; lia]. }
  destruct (civil (t / NsPerDay)) as [[y m] d] eqn:E.
  destruct (civil (t' / NsPerDay)) as [[y' m'] d'] eqn:E'.
  pose proof (year_range _ _ _ _ (Hdays _ Ht) E).
  pose proof (year_range _ _ _ _ (Hdays _ Ht') E').
  apply civil_ranges in E as (Hm & Hd & E), E' as (Hm' & Hd' & E').
  assert (forall x, 0 <= x mod NsPerDay < NsPerDay) as Hns by (intros; by apply Z.mod_pos_bound).
  pose proof (Hns t) as Hn. pose proof (Hns t') as Hn'.
  set (n := t mod NsPerDay) in *. set (n' := t' mod NsPerDay) in *.
  assert (n < 86400 * Second /\ n' < 86400 * Second) as [Hb Hb'] by (split; [apply Hn|apply Hn']).
  unfold Second in *.
  apply str_app_inj in H as [Hy H]; [|by rewrite !fixed_length].
  apply str_app_inj in H as [_ H]; [|done].
  apply str_app_inj in H as [Hmm H]; [|by rewrite !fixed_length].
  apply str_app_inj in H as [_ H]; [|done].
  apply str_app_inj in H as [Hdd H]; [|by rewrite !fixed_length].
  apply str_app_inj in H as [_ H]; [|done].
  apply str_app_inj in H as [Hhh H]; [|by rewrite !fixed_length].
  apply str_app_inj in H as [_ H]; [|done].
  apply str_app_inj in H as [Hmi H]; [|by rewrite !fixed_length].
  apply str_app_inj in H as [_ H]; [|done].
  apply str_app_inj in H as [Hse H]; [|by rewrite !fixed_length].
  apply str_app_inj_r, fraction_inj in H; [|by apply Z.mod_pos_bound..].
  apply fixed_inj in Hy, Hmm, Hdd, Hhh, Hmi, Hse; try (simpl; lia).
  subst y' m' d'. assert (t / NsPerDay = t' / NsPerDay) as Hq by congruence.
  assert (n = n') as Hnn by (unfold Second in *; lia).
  rewrite (Z.div_mod t NsPerDay), (Z.div_mod t' NsPerDay) by done. fold n n'. congruence.
Qed.

(** ** Everything here is ASCII *)

Lemma ascii_only_app (a b : string) : ascii_only (a +:+ b) = ascii_only a && ascii_only b.
Proof. induction a as [|c a IH]; simpl; [done|]. rewrite IH. by rewrite andb_assoc. Qed.

Lemma digit_ascii z : 0 <= z < 10 -> ascii_only (String (digit z) EmptyString) = true.
Proof.
  intros Hz. simpl. rewrite digit_code by done.
  apply andb_true_iff; split; [apply Z.ltb_lt; lia|done].
Qed.

Lemma fixed_ascii n z : ascii_only (fixed n z) = true.
Proof.
  revert z. induction n as [|n IH]; intros z; [done|]. cbn [fixed].
  rewrite ascii_only_app, IH. apply digit_ascii. lia.
Qed.

Lemma trim_zeros_ascii n z : ascii_only (trim_zeros n z) = true.
Proof.
  revert z. induction n as [|n IH]; intros z; [done|]. cbn [trim_zeros].
  case_match; [apply IH|apply fixed_ascii].
Qed.

Lemma rfc3339_ascii t : ascii_only (rfc3339 t) = true.
Proof.
  unfold rfc3339, fraction. destruct (civil _) as [[y m] d].
  rewrite !ascii_only_app, !fixed_ascii. case_match; [done|].
  cbn [ascii_only]. by rewrite trim_zeros_ascii.
Qed.

Lemma hex_encode_ascii s : ascii_only (hex_encode s) = true.
Proof.
  induction s as [|c s IH]; [done|]. pose proof (code_range c).
  assert (forall z, 0 <= z < 16 -> code (hex_char z) < 128) as Hh.
  { intros z Hz. unfold hex_char. case_match; bools; rewrite code_byte by lia; lia. }
  simpl. rewrite IH, !andb_true_r.
  apply andb_true_iff; split; apply Z.ltb_lt; apply Hh; lia.
Qed.
