(* ===== verification/Digests.v ===== *)
(** * Action envelopes, identities and the digests that seal them

    [internal/action/action.go] (the envelope and [Digest]),
    [internal/action/identity.go] (principals, evidence, [ResolvePrincipal]),
    the digests of [internal/action/contract.go] and the derived identities of
    [internal/action/wire.go].  Random bytes are arguments of the functions
    that draw them. *)

From S2P Require Import Prelude Kernel Grants Json Encoding.
From Stdlib Require Import Ascii String.
Import Effect Lifecycle.
Local Open Scope Z_scope.
#[local] Arguments String.append !_ _ : simpl nomatch.

(** ** The action envelope *)

Module Source.

Record t := { Kind : string; Protocol : string; Channel : string }.

End Source.

Module Operation.

Record t := { Namespace : string; Name : string; Version : Z }.

End Operation.

Module PrincipalRef.

Record t := { PrincipalID : string; EvidenceID : string; ResponsibleHumanID : string }.

End PrincipalRef.

Module ActionEnvelope.

Record t := {
  SchemaVersion : Z;
  ActionID : string;
  CorrelationID : string;
  Source : Source.t;
  Operation : Operation.t;
  ParametersDigest : string;
  EffectClass : string;
  RequestedAt : time;
  Principal : PrincipalRef.t;
  IntentID : string;
  AuthorityRefs : list string;
}.

End ActionEnvelope.

(** The pinned form of a SHA-256 sum. *)
Definition pinned (sum : string) : string := "sha256:" +:+ hex_encode sum.

(** [part] inside [Digest]: a length-prefixed field. *)
Definition part (b : string) : string :=
  Itoa (Z.of_nat (String.length b)) +:+ ":" +:+ b.

(** The bytes [Digest] writes to the hash. *)
Definition digest_preimage (op : Operation.t) (rawArgs : string) : string :=
  part op.(Operation.Namespace) +:+ part op.(Operation.Name)
  +:+ part (Itoa op.(Operation.Version)) +:+ part (CanonicalParams rawArgs).

Definition Digest (op : Operation.t) (rawArgs : string) : string :=
  pinned (sha256 (digest_preimage op rawArgs)).

Definition NewID (rand16 : string) : string := "act_" +:+ hex_encode rand16.

Definition NewEnvelope (id correlationID : string) (src : Source.t) (op : Operation.t)
    (rawArgs : string) (at_ : time) : ActionEnvelope.t :=
  {| ActionEnvelope.SchemaVersion := 1;
     ActionEnvelope.ActionID := id;
     ActionEnvelope.CorrelationID := correlationID;
     ActionEnvelope.Source := src;
     ActionEnvelope.Operation := op;
     ActionEnvelope.ParametersDigest := Digest op rawArgs;
     ActionEnvelope.EffectClass := "unclassified";
     ActionEnvelope.RequestedAt := at_;
     ActionEnvelope.Principal :=
       {| PrincipalRef.PrincipalID := ""; PrincipalRef.EvidenceID := "";
          PrincipalRef.ResponsibleHumanID := "" |};
     ActionEnvelope.IntentID := "";
     ActionEnvelope.AuthorityRefs := [] |}.

(** ** Canonical terms *)

Definition HashCanonical (raw : string) : string := pinned (sha256 (CanonicalParams raw)).

Definition sortedSet (values : list string) : list string := sort_strings values.

(** How [json.Marshal] renders the values of a terms map; a nil slice, which
    is what [sortedSet] returns for an empty one, is [null]. *)
Definition num (z : Z) : value := VNumber (Itoa z).
Definition string_set (l : list string) : value :=
  match sortedSet l with [] => VNull | l' => VArray (map VString l') end.

Definition budgetTerms (b : Budgets) : value :=
  VObject [("max_actions", num b.(MaxActions));
           ("per_operation",
             match b.(PerOperation) with
             | None => VNull
             | Some m => VObject (map (fun p => (p.1, num p.2)) (map_to_list m))
             end)].

Definition timeTerm (t : time) : string := if time_is_zero t then "" else rfc3339 t.

(** [json.Marshal] of a map sorts the keys, at every level: [canon]. *)
Definition contractTerms (terms : list (string * value)) : string := print (canon (VObject terms)).

Definition intent_terms (c : IntentContract.t) : list (string * value) :=
  [("intent_id", VString c.(IntentContract.IntentID));
   ("schema_version", num c.(IntentContract.SchemaVersion));
   ("owner", VString c.(IntentContract.OwnerPrincipalID));
   ("purpose", VString c.(IntentContract.Purpose));
   ("operations", string_set c.(IntentContract.AllowedOperations));
   ("resources", string_set c.(IntentContract.AllowedResources));
   ("budgets", budgetTerms c.(IntentContract.Budgets));
   ("valid_from", VString (timeTerm c.(IntentContract.ValidFrom)));
   ("expires_at", VString (timeTerm c.(IntentContract.ExpiresAt)));
   ("version", num c.(IntentContract.Version))].

Definition IntentContract_Digest (c : IntentContract.t) : string :=
  HashCanonical (contractTerms (intent_terms c)).

Definition grant_terms (g : AuthorityGrant.t) : list (string * value) :=
  [("grant_id", VString g.(AuthorityGrant.GrantID));
   ("intent_id", VString g.(AuthorityGrant.IntentID));
   ("issuer", VString g.(AuthorityGrant.IssuerPrincipalID));
   ("subject", VString g.(AuthorityGrant.SubjectPrincipalID));
   ("parent", VString g.(AuthorityGrant.ParentGrantID));
   ("operations", string_set g.(AuthorityGrant.Operations));
   ("resources", string_set g.(AuthorityGrant.ResourceScope));
   ("budgets", budgetTerms g.(AuthorityGrant.Budgets));
   ("valid_from", VString (timeTerm g.(AuthorityGrant.ValidFrom)));
   ("expires_at", VString (timeTerm g.(AuthorityGrant.ExpiresAt)));
   ("depth", num g.(AuthorityGrant.DelegationDepthRemaining))]
  ++ (if bool_decide (g.(AuthorityGrant.EffectCeiling) <> "")
      then [("effect_ceiling", VString g.(AuthorityGrant.EffectCeiling))] else []).

Definition AuthorityGrant_Digest (g : AuthorityGrant.t) : string :=
  HashCanonical (contractTerms (grant_terms g)).

(** ** Identities *)

Definition PrincipalOperatorHuman : string := "operator_human".
Definition PrincipalAgentBrain : string := "agent_brain".
Definition PrincipalChannelPeer : string := "channel_peer".

Definition CredentialBotTokenSession : string := "bot_token_session".
Definition CredentialInboundBearer : string := "inbound_bearer".
Definition CredentialGatewaySession : string := "gateway_session".
Definition CredentialLoopbackInProcess : string := "loopback_inprocess".

Module IdentityEvidence.

Record t := {
  EvidenceID : string;
  Provider : string;
  Subject : string;
  Credential : string;
  IssuedAt : time;
  TransportBinding : string;
  ClaimsDigest : string;
}.

End IdentityEvidence.

Definition ErrUnknownProvenance : error := ErrorNew "action: unknown provenance".

Module Provenance.

Record t := { Class_ : string; Credential : string }.

End Provenance.

Definition ProvenanceRegistry := gmap string Provenance.t.

Definition operatorPrincipalID : string := "principal_operator".
Definition classConsole : string := "console".

Definition principal (id ty responsible : string) : Principal.t :=
  {| Principal.PrincipalID := id; Principal.Type_ := ty; Principal.DisplayName := "";
     Principal.ResponsibleHumanID := responsible; Principal.CreatedAt := 0;
     Principal.DisabledAt := 0 |}.

Definition OperatorPrincipal : Principal.t :=
  principal operatorPrincipalID PrincipalOperatorHuman "".

Definition BrainPrincipal (name : string) : Principal.t :=
  principal ("principal_brain_" +:+ name) PrincipalAgentBrain operatorPrincipalID.

Definition NewEvidenceID (rand16 : string) : string := "evd_" +:+ hex_encode rand16.

Definition claims (channelName class senderID : string) : string :=
  contractTerms [("channel", VString channelName); ("class", VString class);
                 ("subject", VString senderID)].

Definition ResolvePrincipal (rand16 : string) (reg : ProvenanceRegistry)
    (channelName senderID : string) (at_ : time)
    : result (Principal.t * IdentityEvidence.t) :=
  match reg !! channelName with
  | None => Err (ErrorWrap ("channel " +:+ channelName) ErrUnknownProvenance)
  | Some provenance =>
      let p := if bool_decide (provenance.(Provenance.Class_) <> classConsole)
               then principal ("principal_ch_" +:+ channelName) PrincipalChannelPeer ""
               else OperatorPrincipal in
      Ok (p, {| IdentityEvidence.EvidenceID := NewEvidenceID rand16;
                IdentityEvidence.Provider := provenance.(Provenance.Class_);
                IdentityEvidence.Subject := senderID;
                IdentityEvidence.Credential := provenance.(Provenance.Credential);
                IdentityEvidence.IssuedAt := at_;
                IdentityEvidence.TransportBinding := channelName;
                IdentityEvidence.ClaimsDigest :=
                  HashCanonical (claims channelName provenance.(Provenance.Class_) senderID) |})
  end.

(** ** Derived identities *)

Definition RootIntentID : string := "int_root".
Definition IntentEventIDPrefix : string := "iev_".

Definition NewIntentID (rand16 : string) : string := "int_" +:+ hex_encode rand16.
Definition NewGrantID (rand16 : string) : string := "grant_" +:+ hex_encode rand16.
Definition NewIntentEventID (rand16 : string) : string := IntentEventIDPrefix +:+ hex_encode rand16.
Definition NewReceiptID (rand16 : string) : string := "rcpt_" +:+ hex_encode rand16.

(** The class [[0-9a-f]] of the id shapes. *)
Definition lower_hex (c : ascii) : bool :=
  in_range 48 57 (code c) || in_range 97 102 (code c).

Fixpoint all_lower_hex (s : string) : bool :=
  match s with String c s' => lower_hex c && all_lower_hex s' | EmptyString => true end.

(** A prefix followed by exactly 32 lower-case hexadecimal digits. *)
Definition id_shape (prefix id : string) : bool :=
  match strip_prefix prefix id with
  | Some rest => bool_decide (String.length rest = 32%nat) && all_lower_hex rest
  | None => false
  end.

Definition ValidReceiptID (id : string) : bool := id_shape "rcpt_" id.

Definition RootIntent : IntentContract.t :=
  {| IntentContract.IntentID := RootIntentID;
     IntentContract.SchemaVersion := 1;
     IntentContract.OwnerPrincipalID := OperatorPrincipal.(Principal.PrincipalID);
     IntentContract.Purpose :=
       "operate this Korvun instance under the operator's standing authority";
     IntentContract.AllowedOperations := ["*"];
     IntentContract.AllowedResources := ["*"];
     IntentContract.Budgets := {| MaxActions := 0; PerOperation := None |};
     IntentContract.ValidFrom := 0;
     IntentContract.ExpiresAt := 0;
     IntentContract.Status := LifecycleActive;
     IntentContract.Version := 1 |}.

Definition config_grant (id brainName : string) (operations resources : list string)
    : AuthorityGrant.t :=
  {| AuthorityGrant.GrantID := id;
     AuthorityGrant.IntentID := RootIntentID;
     AuthorityGrant.IssuerPrincipalID := OperatorPrincipal.(Principal.PrincipalID);
     AuthorityGrant.SubjectPrincipalID := (BrainPrincipal brainName).(Principal.PrincipalID);
     AuthorityGrant.ParentGrantID := "";
     AuthorityGrant.Operations := operations;
     AuthorityGrant.ResourceScope := resources;
     AuthorityGrant.Budgets := {| MaxActions := 0; PerOperation := None |};
     AuthorityGrant.ValidFrom := 0;
     AuthorityGrant.ExpiresAt := 0;
     AuthorityGrant.DelegationDepthRemaining := 0;
     AuthorityGrant.EffectCeiling := "";
     AuthorityGrant.Status := LifecycleActive |}.

(** [strings.TrimPrefix]. *)
Definition TrimPrefix (s prefix : string) : string := default s (strip_prefix prefix s).

Definition DeriveConfigGrant (brainName : string) (operations resources : list string)
    : AuthorityGrant.t :=
  let digest := TrimPrefix
    (AuthorityGrant_Digest (config_grant "" brainName operations resources)) "sha256:" in
  config_grant ("grant_cfg_" +:+ str_take 16 digest) brainName operations resources.

(** ** Known answers: the literals the repository's own tests pin *)

Example config_grant_id_pinned :
  (DeriveConfigGrant "asistente" ["calc"; "time"] ["*"]).(AuthorityGrant.GrantID)
  = "grant_cfg_5446517958b987c7".
Proof. vm_compute. reflexivity. Qed.

Example grant_digest_pinned :
  AuthorityGrant_Digest
    {| AuthorityGrant.GrantID := "grant_1"; AuthorityGrant.IntentID := "int_root";
       AuthorityGrant.IssuerPrincipalID := ""; AuthorityGrant.SubjectPrincipalID := "";
       AuthorityGrant.ParentGrantID := ""; AuthorityGrant.Operations := ["calc"];
       AuthorityGrant.ResourceScope := [];
       AuthorityGrant.Budgets := {| MaxActions := 0; PerOperation := None |};
       AuthorityGrant.ValidFrom := 0; AuthorityGrant.ExpiresAt := 0;
       AuthorityGrant.DelegationDepthRemaining := 0; AuthorityGrant.EffectCeiling := "";
       AuthorityGrant.Status := "" |}
  = "sha256:1b5c9e13f7bfa1bcb478793843d81d143b3ef1a085308b910e4c024cb9d4595d".
Proof. vm_compute. reflexivity. Qed.

(** ** Lemmas: unambiguous preimages *)

Lemma pinned_inj a b : pinned a = pinned b <-> a = b.
Proof.
  split; [|by intros ->]. unfold pinned. intros H.
  apply str_app_inj in H as [_ H]; [|done]. by apply hex_encode_inj.
Qed.

Lemma span_digits_stop s c t :
  all_digits s = true -> is_digit c = false ->
  span_digits (s +:+ String c t) = (s, String c t).
Proof.
  intros Hs Hc. induction s as [|d s IH]; simpl in *; [by rewrite Hc|].
  apply andb_true_iff in Hs as [Hd Hs]. by rewrite Hd, IH.
Qed.

Lemma Itoa_digits z : 0 <= z -> all_digits (Itoa z) = true.
Proof.
  intros Hz. destruct (Itoa_spec z) as (s & Hs & ->).
  rewrite (proj2 (Z.ltb_ge z 0)) by done. apply Hs.
Qed.

Lemma part_inj b b' r r' : part b +:+ r = part b' +:+ r' -> b = b' /\ r = r'.
Proof.
  unfold part. rewrite !str_app_assoc. intros H.
  apply (f_equal span_digits) in H. change (":" +:+ ?x) with (String ":" x) in H.
  rewrite !span_digits_stop in H by (done || apply Itoa_digits; lia).
  injection H as Hn Hr. apply Itoa_inj in Hn. apply str_app_inj in Hr; [done|lia].
Qed.

Lemma digest_preimage_inj op op' r r' :
  digest_preimage op r = digest_preimage op' r' <->
  op = op' /\ CanonicalParams r = CanonicalParams r'.
Proof.
  split.
  - unfold digest_preimage. intros H. apply part_inj in H as [H1 H]. apply part_inj in H as [H2 H].
    apply part_inj in H as [H3 H]. apply Itoa_inj in H3.
    rewrite <- (str_app_nil (part (CanonicalParams r))), <- (str_app_nil (part (CanonicalParams r')))
      in H.
    apply part_inj in H as [H4 _]. destruct op, op'; simpl in *. by subst.
  - intros [-> H]. unfold digest_preimage. by rewrite H.
Qed.

(** Two different inputs with the same SHA-256 sum. *)
Definition sha256_collision (a b : string) : Prop := a <> b /\ sha256 a = sha256 b.

Lemma sha256_eq_iff a b : sha256 a = sha256 b <-> a = b \/ sha256_collision a b.
Proof.
  unfold sha256_collision. split; [|intuition congruence].
  destruct (decide (a = b)); [by left|]. by right.
Qed.

(** C33.  The parameters digest binds the operation and the canonical
    arguments: two requests have the same digest exactly when the operation
    triple is the same and the arguments have the same canonical bytes, or
    else the two preimages are an explicit SHA-256 collision.  No pair of
    field boundaries can be confused. *)
Theorem action_digest_binds (op op' : Operation.t) (rawArgs rawArgs' : string) :
  Digest op rawArgs = Digest op' rawArgs' <->
  (op = op' /\ CanonicalParams rawArgs = CanonicalParams rawArgs')
  \/ sha256_collision (digest_preimage op rawArgs) (digest_preimage op' rawArgs').
Proof. unfold Digest. by rewrite pinned_inj, sha256_eq_iff, digest_preimage_inj. Qed.

(** ** Lemmas: canonical terms *)

Lemma print_inj (v v' : value) : wf 0 v -> wf 0 v' -> print v = print v' -> v = v'.
Proof.
  intros Hv Hv' H. apply (f_equal parse) in H. rewrite !parse_print in H by done. by simplify_eq.
Qed.

Lemma contractTerms_canonical ms :
  wf 0 (VObject ms) -> CanonicalParams (contractTerms ms) = contractTerms ms.
Proof.
  intros H. unfold contractTerms.
  destruct (CanonicalParams_parse (print (canon (VObject ms))) (canon (VObject ms))) as [-> _].
  - by apply parse_print, canon_wf.
  - by rewrite canon_canon.
Qed.

Lemma contractTerms_inj ms ms' :
  wf 0 (VObject ms) -> wf 0 (VObject ms') ->
  contractTerms ms = contractTerms ms' -> canon (VObject ms) = canon (VObject ms').
Proof. intros H H'. apply print_inj; by apply canon_wf. Qed.

(** Equal terms, or a collision of the canonical bytes. *)
Lemma terms_digest_eq ms ms' :
  wf 0 (VObject ms) -> wf 0 (VObject ms') ->
  HashCanonical (contractTerms ms) = HashCanonical (contractTerms ms') <->
  canon (VObject ms) = canon (VObject ms')
  \/ sha256_collision (contractTerms ms) (contractTerms ms').
Proof.
  intros H H'. unfold HashCanonical.
  rewrite pinned_inj, sha256_eq_iff, !contractTerms_canonical by done.
  split; (intros [E|]; [left|by right]).
  - by apply contractTerms_inj.
  - unfold contractTerms. by rewrite E.
Qed.

(** The value a map holds under a key: the last one listed. *)
Definition member (k : string) (ms : list (string * value)) : option value :=
  snd <$> List.find (fun p => bool_decide (p.1 = k)) (rev ms).

Lemma insert_member_find k k' v l :
  sorted l ->
  List.find (fun p => bool_decide (p.1 = k)) (insert_member k' v l)
  = if decide (k' = k) then Some (k', v) else List.find (fun p => bool_decide (p.1 = k)) l.
Proof.
  intros Hs. induction l as [|[k1 v1] l IH]; simpl.
  - case_decide; [by rewrite bool_decide_eq_true_2|by rewrite bool_decide_eq_false_2].
  - destruct (String.compare k' k1) eqn:E; simpl.
    + apply String.compare_eq_iff in E as ->. case_decide as Hk.
      * by rewrite bool_decide_eq_true_2.
      * rewrite !bool_decide_eq_false_2 by done. done.
    + case_decide; [by rewrite bool_decide_eq_true_2|by rewrite bool_decide_eq_false_2].
    + apply StronglySorted_inv in Hs as [Hs _]. rewrite IH by done. case_decide as Hk; [|done].
      subst. rewrite bool_decide_eq_false_2; [done|]. intros ->. pose proof (String.compare_antisym k k) as A. by rewrite E in A.
Qed.

Lemma build_find k ms acc :
  sorted acc ->
  List.find (fun p => bool_decide (p.1 = k)) (build ms acc)
  = match List.find (fun p => bool_decide (p.1 = k)) (rev ms) with
    | Some p => Some p
    | None => List.find (fun p => bool_decide (p.1 = k)) acc
    end.
Proof.
  revert acc. induction ms as [|[k' v] ms IH]; intros acc Hs; simpl; [done|].
  rewrite IH by by apply insert_member_sorted. rewrite insert_member_find by done.
  assert (forall l l' : list (string * value), List.find (fun p => bool_decide (p.1 = k)) (l ++ l')
    = match List.find (fun p => bool_decide (p.1 = k)) l with
      | Some p => Some p | None => List.find (fun p => bool_decide (p.1 = k)) l' end) as Hfa.
  { intros l l'. induction l as [|[a b] l IHl]; simpl; [done|]. by case_bool_decide. }
  rewrite Hfa. case_match; [done|]. simpl.
  case_decide; [by rewrite bool_decide_eq_true_2|by rewrite bool_decide_eq_false_2].
Qed.

Lemma member_canon k ms :
  member k (map (fun p => (p.1, canon p.2)) ms) = canon <$> member k ms.
Proof.
  unfold member. rewrite <- map_rev. induction (rev ms) as [|[a b] l IH]; simpl; [done|].
  case_bool_decide; simpl; [done|apply IH].
Qed.

Lemma canon_object_member ms ms' k :
  canon (VObject ms) = canon (VObject ms') -> canon <$> member k ms = canon <$> member k ms'.
Proof.
  cbn [canon]. intros [= H]. fold (build (map (fun p => (p.1, canon p.2)) ms) []) in H.
  fold (build (map (fun p => (p.1, canon p.2)) ms') []) in H.
  apply (f_equal (List.find (fun p => bool_decide (p.1 = k)))) in H.
  rewrite !build_find in H by constructor. rewrite <- !member_canon. unfold member.
  simpl in H. destruct (List.find _ (rev (map _ ms))), (List.find _ (rev (map _ ms'))); congruence.
Qed.

Lemma find_key_iff (l : list (string * value)) k v :
  NoDup l.*1 ->
  List.find (fun p => bool_decide (p.1 = k)) l = Some (k, v) <-> (k, v) ∈ l.
Proof.
  induction l as [|[a b] l IH]; intros Hnd; [by split; [|intros ?%not_elem_of_nil]|].
  rewrite fmap_cons in Hnd. apply NoDup_cons in Hnd as [Ha Hnd]. simpl. rewrite elem_of_cons.
  case_bool_decide as E; simpl in E.
  - subst. split; [intros [= ->]; by left|]. intros [[= ->]|Hin]; [done|].
    destruct Ha. apply list_elem_of_fmap. by exists (k, v).
  - rewrite IH by done. split; [by right|]. intros [[= <- <-]|]; done.
Qed.

(** The entries of a map of integers, read back by key. *)
Lemma member_map_to_list (m : gmap string Z) k :
  member k (map (fun p => (p.1, num p.2)) (map_to_list m)) = num <$> m !! k.
Proof.
  unfold member. rewrite <- map_rev.
  set (l := map (fun p => (p.1, num p.2)) (rev (map_to_list m))).
  assert (forall v, (k, v) ∈ l <-> exists n, m !! k = Some n /\ v = num n) as Hl.
  { intros v. subst l. rewrite list_elem_of_In, in_map_iff. setoid_rewrite <- in_rev.
    setoid_rewrite <- list_elem_of_In. split.
    - intros ([k' n] & [= -> <-] & Hin). apply elem_of_map_to_list in Hin. eauto.
    - intros (n & Hn & ->). exists (k, n). split; [done|]. by apply elem_of_map_to_list. }
  assert (NoDup l.*1) as Hnd.
  { subst l. replace ((map (fun p => (p.1, num p.2)) (rev (map_to_list m))).*1)
      with (rev (map_to_list m).*1).
    - rewrite <- (Permutation_rev ((map_to_list m).*1)). apply NoDup_fst_map_to_list.
    - clear. induction (map_to_list m) as [|[a b] l IH]; [done|].
      rewrite fmap_cons. cbn [rev]. by rewrite map_app, fmap_app, <- IH. }
  destruct (m !! k) as [n|] eqn:E; simpl.
  - assert ((k, num n) ∈ l) as Hin by (apply Hl; eauto).
    apply find_key_iff in Hin; [|done]. by rewrite Hin.
  - destruct (List.find _ l) as [[k' v]|] eqn:F; [|done].
    apply List.find_some in F as [Hin Hk]. apply bool_decide_eq_true in Hk. simpl in Hk. subst.
    apply list_elem_of_In, Hl in Hin as (n & ? & _). congruence.
Qed.

Lemma num_inj a b : num a = num b -> a = b.
Proof. intros [= H]. by apply Itoa_inj. Qed.

Lemma string_set_perm l l' : l ≡ₚ l' -> string_set l = string_set l'.
Proof. intros H. unfold string_set, sortedSet. by rewrite H. Qed.

Lemma string_set_inj l l' : canon (string_set l) = canon (string_set l') <-> l ≡ₚ l'.
Proof.
  assert (forall l, map canon (map VString l) = map VString l) as Hc.
  { intros k. induction k; simpl; congruence. }
  assert (forall l, canon (string_set l) = string_set l) as Hs.
  { intros k. unfold string_set. destruct (sortedSet k); [done|]. cbn [canon]. by rewrite Hc. }
  rewrite !Hs. split.
  - intros H. assert (sort_strings l = sort_strings l') as E.
    { unfold string_set, sortedSet in H.
      destruct (sort_strings l) as [|a r], (sort_strings l') as [|b r']; try done.
      injection H as -> H. f_equal. revert r' H.
      induction r as [|x r IH]; intros [|y r']; simpl; try done. intros [= -> H].
      by rewrite (IH r'). }
    rewrite <- (merge_sort_Permutation String.le l), <- (merge_sort_Permutation String.le l').
    unfold sort_strings in E. by rewrite E.
  - apply string_set_perm.
Qed.

Lemma budgetTerms_inj b b' :
  canon (budgetTerms b) = canon (budgetTerms b') <-> b = b'.
Proof.
  split; [|by intros ->]. intros H.
  pose proof (canon_object_member _ _ "max_actions" H) as H1.
  pose proof (canon_object_member _ _ "per_operation" H) as H2.
  destruct b as [n p], b' as [n' p']. cbn -[canon num map_to_list] in H1, H2.
  injection H1 as H1. apply Itoa_inj in H1 as ->. f_equal. injection H2 as H2.
  destruct p as [m|], p' as [m'|]; try done. f_equal. apply map_eq. intros k.
  apply (canon_object_member _ _ k) in H2. rewrite !member_map_to_list in H2.
  destruct (m !! k), (m' !! k); simpl in H2; try done. f_equal.
  injection H2 as H2. by apply Itoa_inj.
Qed.

(** ** Grants: what the digest seals *)

(** Text the wire form can carry: valid UTF-8 and instants of four-digit years. *)
Record grant_text (g : AuthorityGrant.t) : Prop := {
  gt_strings : Forall utf8
    [g.(AuthorityGrant.GrantID); g.(AuthorityGrant.IntentID);
     g.(AuthorityGrant.IssuerPrincipalID); g.(AuthorityGrant.SubjectPrincipalID);
     g.(AuthorityGrant.ParentGrantID); g.(AuthorityGrant.EffectCeiling)];
  gt_operations : Forall utf8 g.(AuthorityGrant.Operations);
  gt_resources : Forall utf8 g.(AuthorityGrant.ResourceScope);
  gt_budgets : Forall (fun p => utf8 p.1)
    (map_to_list (MaxActionsPerOperation g.(AuthorityGrant.Budgets)));
  gt_from : rfc3339_range g.(AuthorityGrant.ValidFrom);
  gt_until : rfc3339_range g.(AuthorityGrant.ExpiresAt);
}.

(** Equal but for the order of the two sets and the runtime status. *)
Record same_grant_terms (g g' : AuthorityGrant.t) : Prop := {
  sg_id : g.(AuthorityGrant.GrantID) = g'.(AuthorityGrant.GrantID);
  sg_intent : g.(AuthorityGrant.IntentID) = g'.(AuthorityGrant.IntentID);
  sg_issuer : g.(AuthorityGrant.IssuerPrincipalID) = g'.(AuthorityGrant.IssuerPrincipalID);
  sg_subject : g.(AuthorityGrant.SubjectPrincipalID) = g'.(AuthorityGrant.SubjectPrincipalID);
  sg_parent : g.(AuthorityGrant.ParentGrantID) = g'.(AuthorityGrant.ParentGrantID);
  sg_operations : g.(AuthorityGrant.Operations) ≡ₚ g'.(AuthorityGrant.Operations);
  sg_resources : g.(AuthorityGrant.ResourceScope) ≡ₚ g'.(AuthorityGrant.ResourceScope);
  sg_budgets : g.(AuthorityGrant.Budgets) = g'.(AuthorityGrant.Budgets);
  sg_from : g.(AuthorityGrant.ValidFrom) = g'.(AuthorityGrant.ValidFrom);
  sg_until : g.(AuthorityGrant.ExpiresAt) = g'.(AuthorityGrant.ExpiresAt);
  sg_depth :
    g.(AuthorityGrant.DelegationDepthRemaining) = g'.(AuthorityGrant.DelegationDepthRemaining);
  sg_ceiling : g.(AuthorityGrant.EffectCeiling) = g'.(AuthorityGrant.EffectCeiling);
}.

Lemma timeTerm_utf8 t : utf8 (timeTerm t).
Proof.
  unfold timeTerm. case_match; [constructor|]. apply ascii_only_utf8, rfc3339_ascii.
Qed.

Lemma rfc3339_not_empty t : rfc3339 t <> "".
Proof.
  unfold rfc3339. destruct (civil _) as [[y m] d]. intros H.
  apply (f_equal String.length) in H. rewrite !str_length_app, !fixed_length in H. simpl in H. lia.
Qed.

Lemma timeTerm_inj t t' :
  rfc3339_range t -> rfc3339_range t' -> timeTerm t = timeTerm t' <-> t = t'.
Proof.
  intros H H'. split; [|by intros ->]. unfold timeTerm, time_is_zero.
  case_bool_decide; case_bool_decide; try congruence; intros E.
  - by destruct (rfc3339_not_empty t').
  - by destruct (rfc3339_not_empty t).
  - by apply rfc3339_inj.
Qed.

Lemma string_set_wf d l : d + 1 <= maxNestingDepth -> Forall utf8 l -> wf d (string_set l).
Proof.
  intros Hd Hl. unfold string_set, sortedSet.
  assert (Forall utf8 (sort_strings l)) as Hs.
  { eapply Permutation_Forall; [|exact Hl]. symmetry. apply merge_sort_Permutation. }
  destruct (sort_strings l) as [|a r]; constructor; [done|].
  apply Forall_map. eapply Forall_impl; [exact Hs|]. intros x Hx. by constructor.
Qed.

Lemma num_wf d z : wf d (num z).
Proof. constructor. apply Itoa_literal. Qed.

Lemma budgetTerms_wf d b :
  d + 2 <= maxNestingDepth -> Forall (fun p => utf8 p.1) (map_to_list (MaxActionsPerOperation b)) ->
  wf d (budgetTerms b).
Proof.
  intros Hd Hb. constructor; [lia|]. repeat constructor; try by apply ascii_only_utf8.
  - apply Itoa_literal.
  - unfold MaxActionsPerOperation in Hb. destruct (PerOperation b) as [m|]; constructor; [lia|].
    apply Forall_map. eapply Forall_impl; [exact Hb|]. intros p Hp. split; [done|apply num_wf].
Qed.

Create HintDb terms.
#[export] Hint Resolve string_set_wf num_wf budgetTerms_wf timeTerm_utf8 wf_string : terms.
#[export] Hint Extern 1 (_ <= _) => (unfold maxNestingDepth; lia) : terms.

Lemma grant_terms_wf g : grant_text g -> wf 0 (VObject (grant_terms g)).
Proof.
  intros [H1 H2 H3 H4 H5 H6]. constructor; [done|].
  repeat (apply Forall_cons in H1 as [? H1]). unfold grant_terms.
  apply Forall_app. split.
  - repeat (apply Forall_cons; split;
      [split; [by apply ascii_only_utf8|cbn [snd]; auto with terms]|]). constructor.
  - case_bool_decide; [|constructor]. apply Forall_singleton.
    split; [by apply ascii_only_utf8|]. cbn [snd]. auto with terms.
Qed.

(** Evaluates the lookup of a literal key among literal keys. *)
Ltac find_member H :=
  cbn -[num string_set budgetTerms timeTerm] in H;
  repeat first [rewrite bool_decide_eq_true_2 in H by reflexivity
               |rewrite bool_decide_eq_false_2 in H by discriminate];
  cbn -[num string_set budgetTerms timeTerm] in H.

Lemma grant_terms_iff g g' :
  grant_text g -> grant_text g' ->
  canon (VObject (grant_terms g)) = canon (VObject (grant_terms g')) <-> same_grant_terms g g'.
Proof.
  intros Ht Ht'. split.
  - intros H. pose proof (fun k => canon_object_member _ _ k H) as HM. clear H.
    assert (forall k, canon <$> member k (grant_terms g) = canon <$> member k (grant_terms g')) as HM'
      by exact HM. clear HM. unfold grant_terms in HM'.
    assert (g.(AuthorityGrant.EffectCeiling) = g'.(AuthorityGrant.EffectCeiling)) as Hce.
    { specialize (HM' "effect_ceiling"). case_bool_decide as A; case_bool_decide as B;
        find_member HM'; congruence. }
    rewrite <- Hce in HM'.
    split; try exact Hce; [specialize (HM' "grant_id")|specialize (HM' "intent_id")
      |specialize (HM' "issuer")|specialize (HM' "subject")|specialize (HM' "parent")
      |specialize (HM' "operations")|specialize (HM' "resources")|specialize (HM' "budgets")
      |specialize (HM' "valid_from")|specialize (HM' "expires_at")|specialize (HM' "depth")];
      case_bool_decide; find_member HM'; apply (inj Some) in HM';
      first [by apply string_set_inj|by apply budgetTerms_inj|by injection HM'
            |by apply Itoa_inj; injection HM'
            |by injection HM' as HM'; apply timeTerm_inj in HM'; [|apply Ht|apply Ht']].
  - intros [E1 E2 E3 E4 E5 E6 E7 E8 E9 E10 E11 E12].
    unfold grant_terms.
    rewrite E1, E2, E3, E4, E5, (string_set_perm _ _ E6), (string_set_perm _ _ E7).
    by rewrite E8, E9, E10, E11, E12.
Qed.

(** A grant's digest seals its terms and nothing else: for
    representable grants, two digests agree exactly when the terms agree up to
    the order of the operation and resource sets — whatever the lifecycle
    status — or the canonical bytes are an explicit SHA-256 collision.  An
    absent effect ceiling is distinct from every present one. *)
Theorem grant_digest_seals_the_terms (g g' : AuthorityGrant.t) :
  grant_text g -> grant_text g' ->
  AuthorityGrant_Digest g = AuthorityGrant_Digest g' <->
  same_grant_terms g g'
  \/ sha256_collision (contractTerms (grant_terms g)) (contractTerms (grant_terms g')).
Proof.
  intros Hg Hg'. unfold AuthorityGrant_Digest.
  rewrite terms_digest_eq, grant_terms_iff by (done || by apply grant_terms_wf). done.
Qed.

Definition example_grant (ops : list string) (status : LifecycleStatus) : AuthorityGrant.t :=
  {| AuthorityGrant.GrantID := "grant_1"; AuthorityGrant.IntentID := "int_root";
     AuthorityGrant.IssuerPrincipalID := "principal_operator";
     AuthorityGrant.SubjectPrincipalID := "principal_brain_a";
     AuthorityGrant.ParentGrantID := ""; AuthorityGrant.Operations := ops;
     AuthorityGrant.ResourceScope := ["*"];
     AuthorityGrant.Budgets := {| MaxActions := 3; PerOperation := None |};
     AuthorityGrant.ValidFrom := 0; AuthorityGrant.ExpiresAt := 86400 * Second;
     AuthorityGrant.DelegationDepthRemaining := 1; AuthorityGrant.EffectCeiling := EffectPure;
     AuthorityGrant.Status := status |}.

Lemma example_grant_text status ops :
  Forall (fun s => ascii_only s = true) ops -> grant_text (example_grant ops status).
Proof.
  intros Hops. split; simpl.
  - repeat constructor; by apply ascii_only_utf8.
  - eapply Forall_impl; [exact Hops|]. apply ascii_only_utf8.
  - repeat constructor. by apply ascii_only_utf8.
  - unfold MaxActionsPerOperation. simpl. rewrite map_to_list_empty. constructor.
  - by split.
  - by split.
Qed.

Lemma grant_digest_seals_the_terms_witness :
  AuthorityGrant_Digest (example_grant ["calc"; "time"] LifecycleActive)
  = AuthorityGrant_Digest (example_grant ["time"; "calc"] LifecycleRevoked).
Proof.
  apply (grant_digest_seals_the_terms (example_grant ["calc"; "time"] LifecycleActive)
    (example_grant ["time"; "calc"] LifecycleRevoked)).
  - apply example_grant_text. repeat constructor.
  - apply example_grant_text. repeat constructor.
  - left. split; simpl; try reflexivity. constructor.
Defined.

(** ** Identities *)

Lemma claims_inj a b c a' b' c' :
  utf8 a -> utf8 b -> utf8 c -> utf8 a' -> utf8 b' -> utf8 c' ->
  HashCanonical (claims a b c) = HashCanonical (claims a' b' c') <->
  (a = a' /\ b = b' /\ c = c') \/ sha256_collision (claims a b c) (claims a' b' c').
Proof.
  intros. unfold claims. rewrite terms_digest_eq.
  - split; (intros [H'|]; [left|by right]); [|naive_solver].
    cbn in H'. naive_solver.
  - constructor; [done|]. repeat constructor; try done; by apply ascii_only_utf8.
  - constructor; [done|]. repeat constructor; try done; by apply ascii_only_utf8.
Qed.

(** Authority derives from configured provenance only.  A channel
    the registry does not name fails closed; otherwise the principal is a
    function of the channel alone — the sender chooses nothing but the subject
    the evidence records —, it is the operator exactly on a console channel,
    and two channels share a principal only if both are consoles or they are
    the same channel.  The claims digest of the evidence binds the channel, its
    class and the sender, up to an explicit SHA-256 collision. *)
Theorem principal_comes_from_provenance (reg : ProvenanceRegistry) :
  (forall rnd rnd' ch ch' sender sender' at_ at_' p p' ev ev',
     ResolvePrincipal rnd reg ch sender at_ = Ok (p, ev) ->
     ResolvePrincipal rnd' reg ch' sender' at_' = Ok (p', ev') ->
     Forall utf8 [ch; ch'; sender; sender';
                  ev.(IdentityEvidence.Provider); ev'.(IdentityEvidence.Provider)] ->
     ev.(IdentityEvidence.ClaimsDigest) = ev'.(IdentityEvidence.ClaimsDigest) ->
     (ch = ch' /\ sender = sender')
     \/ sha256_collision (claims ch ev.(IdentityEvidence.Provider) sender)
          (claims ch' ev'.(IdentityEvidence.Provider) sender'))
  /\ (forall rnd ch sender at_, reg !! ch = None ->
     ResolvePrincipal rnd reg ch sender at_
     = Err (ErrorWrap ("channel " +:+ ch) ErrUnknownProvenance))
  /\ forall ch pv, reg !! ch = Some pv ->
     exists p, (forall rnd sender at_, exists ev,
         ResolvePrincipal rnd reg ch sender at_ = Ok (p, ev)
         /\ ev.(IdentityEvidence.Subject) = sender
         /\ ev.(IdentityEvidence.TransportBinding) = ch
         /\ ev.(IdentityEvidence.Credential) = pv.(Provenance.Credential))
     /\ (p = OperatorPrincipal <-> pv.(Provenance.Class_) = classConsole)
     /\ (forall rnd ch' sender at_ p' ev, ResolvePrincipal rnd reg ch' sender at_ = Ok (p', ev) ->
         p'.(Principal.PrincipalID) = p.(Principal.PrincipalID) ->
         ch' = ch \/ ev.(IdentityEvidence.Provider) = classConsole
                     /\ pv.(Provenance.Class_) = classConsole).
Proof.
  split.
  { unfold ResolvePrincipal. intros rnd rnd' ch ch' sender sender' at_ at_' p p' ev ev' H H'.
    destruct (reg !! ch), (reg !! ch'); try done. injection H as _ <-. injection H' as _ <-.
    cbn [IdentityEvidence.Provider IdentityEvidence.ClaimsDigest]. intros Hu.
    repeat (apply Forall_cons in Hu as [? Hu]).
    rewrite claims_inj by assumption. intros [(? & _ & ?)|]; [by left|by right]. }
  split; [intros rnd ch sender at_ H; unfold ResolvePrincipal; by rewrite H|].
  intros ch pv Hpv. unfold ResolvePrincipal. rewrite Hpv. eexists. split; [|split].
  - intros rnd sender at_. eexists. split; [reflexivity|done].
  - by case_bool_decide.
  - intros rnd ch' sender at_ p' ev Hr Hid.
    destruct (reg !! ch') as [pv'|]; [|done]. injection Hr as <- <-.
    case_bool_decide as E'; case_bool_decide as E; cbn in Hid; try done.
    + left. by injection Hid as Hid.
    + by right.
Qed.
