(* ===== verification/Wire.v ===== *)
(** * Flat JSON structs: what [encoding/json] does with the kernel's wire types

    The wire structs of the receipts and approvals have string and integer
    fields only.  [marshal] prints them in declaration order; [strictUnmarshal]
    (internal/action/receipt.go) decodes one value with
    [DisallowUnknownFields] and then asks [Decoder.More]. *)

From S2P Require Import Prelude Json Text Encoding Digests.
From Stdlib Require Import Ascii String.
Local Open Scope Z_scope.
#[local] Arguments String.append !_ _ : simpl nomatch.

Inductive kind := KString | KInt.

Inductive slot := SString (s : string) | SInt (z : Z).

#[export] Instance kind_eq_dec : EqDecision kind.
Proof. solve_decision. Defined.

#[export] Instance slot_eq_dec : EqDecision slot.
Proof. solve_decision. Defined.

Definition kind_of (x : slot) : kind := match x with SString _ => KString | SInt _ => KInt end.
Definition zero_slot (k : kind) : slot := match k with KString => SString "" | KInt => SInt 0 end.
Definition slot_value (x : slot) : value := match x with SString s => VString s | SInt z => num z end.

(** The json tags and types of a struct, in declaration order. *)
Definition schema := list (string * kind).

(** [json.Marshal] of a struct. *)
Definition marshal_struct (sch : schema) (fs : list slot) : value :=
  VObject (zip_with (fun f x => (f.1, slot_value x)) sch fs).

Definition marshal (sch : schema) (fs : list slot) : string := print (marshal_struct sch fs).

(** ** Decoding *)

(** [strconv.ParseInt(lit, 10, 64)] on a JSON number literal. *)
Definition parse_int64 (lit : string) : option Z :=
  let n := match lit with
           | String c s => if code c =? 45 then Z.opp <$> undecimal 0 s else undecimal 0 lit
           | EmptyString => None
           end in
  match n with
  | Some z => if bool_decide (int64_range z) then Some z else None
  | None => None
  end.

(** Keys match a tag exactly or up to case folding; the only runes beyond
    ASCII that fold onto an ASCII letter are U+017F and U+212A. *)
Definition fold_rune (r : string) : string :=
  if bool_decide (r = encode_rune 383) then "S"
  else if bool_decide (r = encode_rune 8490) then "K"
  else match r with
       | String c EmptyString =>
           if in_range 97 122 (code c) then String (byte (code c - 32)) EmptyString else r
       | _ => r
       end.

Definition fold_name (s : string) : string := join_runes (map fold_rune (runes s)).

Definition find_field (sch : schema) (key : string) : option (nat * (string * kind)) :=
  match list_find (fun f => f.1 = key) sch with
  | Some x => Some x
  | None => list_find (fun f => fold_name f.1 = fold_name key) sch
  end.

(** One member value into a field: [null] leaves the field alone. *)
Definition decode_slot (k : kind) (v : value) (old : slot) : option slot :=
  match k, v with
  | _, VNull => Some old
  | KString, VString s => Some (SString s)
  | KInt, VNumber lit => SInt <$> parse_int64 lit
  | _, _ => None
  end.

(** The members in order, into the fields; [strict] refuses unknown keys. *)
Fixpoint decode_members (strict : bool) (sch : schema) (ms : list (string * value))
    (fs : list slot) : option (list slot) :=
  match ms with
  | [] => Some fs
  | (key, v) :: ms' =>
      match find_field sch key with
      | None => if strict then None else decode_members strict sch ms' fs
      | Some (i, f) =>
          match decode_slot f.2 v (default (zero_slot f.2) (fs !! i)) with
          | None => None
          | Some x => decode_members strict sch ms' (<[i := x]> fs)
          end
      end
  end.

Definition zero_struct (sch : schema) : list slot := map (fun f => zero_slot f.2) sch.

(** A struct accepts an object, and [null], which changes nothing. *)
Definition decode_struct (strict : bool) (sch : schema) (v : value) : option (list slot) :=
  match v with
  | VNull => Some (zero_struct sch)
  | VObject ms => decode_members strict sch ms (zero_struct sch)
  | _ => None
  end.

(** [Decoder.More] after a top-level value: another element follows unless
    the next byte closes an array or an object. *)
Definition more (rest : string) : bool :=
  match skip_space rest with
  | EmptyString => false
  | String c _ => negb ((code c =? 93) || (code c =? 125))
  end.

(** [Decoder.Decode]: the first value and the unread input. *)
Definition decode_prefix (raw : string) : option (value * string) :=
  let s := skip_space raw in parse_value (json_fuel s) 0 s.

Definition strictUnmarshal (sch : schema) (raw : string) : option (list slot) :=
  match decode_prefix raw with
  | None => None
  | Some (v, rest) =>
      match decode_struct true sch v with
      | None => None
      | Some fs => if more rest then None else Some fs
      end
  end.

(** ** Lemmas *)

(** Fields the wire form represents exactly. *)
Definition slot_ok (x : slot) : Prop :=
  match x with SString s => utf8 s | SInt z => int64_range z end.

Definition typed (sch : schema) (fs : list slot) : Prop :=
  Forall2 (fun f x => kind_of x = f.2 /\ slot_ok x) sch fs.

Definition schema_ok (sch : schema) : Prop :=
  NoDup sch.*1 /\ Forall (fun f => ascii_only f.1 = true) sch.

Lemma parse_int64_Itoa z : int64_range z -> parse_int64 (Itoa z) = Some z.
Proof.
  intros Hz. destruct (Itoa_spec z) as (s & Hs & ->). unfold parse_int64.
  destruct (decimal_of_first _ _ Hs) as (c & r & E & _ & Hc).
  pose proof (dec_value _ _ Hs 0) as V. rewrite Z.mul_0_l, Z.add_0_l in V.
  destruct (z <? 0) eqn:Ez; bools.
  - rewrite code_byte by lia. rewrite V. cbn -[bool_decide Z.abs].
    replace (- Z.abs z) with z by lia. by rewrite bool_decide_eq_true_2.
  - rewrite E in V |- *. rewrite (proj2 (Z.eqb_neq _ _) Hc), V.
    replace (Z.abs z) with z by lia. by rewrite bool_decide_eq_true_2.
Qed.

Lemma decode_slot_value x old :
  slot_ok x -> decode_slot (kind_of x) (slot_value x) old = Some x.
Proof.
  destruct x as [s|z]; simpl; [done|]. intros H. by rewrite parse_int64_Itoa.
Qed.

Lemma marshal_struct_wf sch fs : schema_ok sch -> typed sch fs -> wf 0 (marshal_struct sch fs).
Proof.
  intros [_ Hs] Ht. constructor; [done|].
  induction Ht as [|f x sch fs [_ Hx] _ IH]; [constructor|].
  apply Forall_cons in Hs as [Hf Hs]. constructor; [|by apply IH]. simpl. split.
  - by apply ascii_only_utf8.
  - destruct x; [by constructor|apply num_wf].
Qed.

Lemma find_field_at sch i f :
  NoDup sch.*1 -> sch !! i = Some f -> find_field sch f.1 = Some (i, f).
Proof.
  intros Hnd Hi. unfold find_field.
  assert (list_find (fun g => g.1 = f.1) sch = Some (i, f)) as ->; [|done].
  apply list_find_Some. split_and!; [done|done|]. intros j g Hj Hlt Hg.
  assert (j = i); [|lia]. eapply NoDup_lookup; [exact Hnd| |].
  - rewrite list_lookup_fmap, Hj. done.
  - rewrite list_lookup_fmap, Hi. simpl. by rewrite Hg.
Qed.

(** Decoding the members of a struct fills the fields from left to right. *)
Lemma decode_members_tail strict sch pre fs done_fs rest :
  NoDup (pre ++ sch).*1 -> typed sch fs -> List.length done_fs = List.length pre ->
  List.length rest = List.length sch ->
  decode_members strict (pre ++ sch) (zip_with (fun f x => (f.1, slot_value x)) sch fs)
    (done_fs ++ rest) = Some (done_fs ++ fs).
Proof.
  intros Hnd Ht. revert pre done_fs rest Hnd.
  induction Ht as [|f x sch fs [Hk Hx] Ht IH]; intros pre done_fs rest Hnd Hl Hr.
  - destruct rest; [done|simpl in Hr; lia].
  - destruct rest as [|y rest]; [simpl in Hr; lia|]. simpl.
    rewrite (find_field_at _ (List.length pre) f Hnd) by by rewrite list_lookup_middle.
    rewrite <- Hk, decode_slot_value by done.
    rewrite <- Hl, insert_app_r_alt, Nat.sub_diag by lia. simpl.
    specialize (IH (pre ++ [f]) (done_fs ++ [x]) rest).
    rewrite <- !app_assoc in IH. apply IH.
    + done.
    + rewrite !length_app. simpl. lia.
    + simpl in Hr. lia.
Qed.

Lemma decode_struct_marshal strict sch fs :
  schema_ok sch -> typed sch fs ->
  decode_struct strict sch (marshal_struct sch fs) = Some fs.
Proof.
  intros [Hnd _] Ht. unfold decode_struct, marshal_struct.
  pose proof (decode_members_tail strict sch [] fs [] (zero_struct sch)) as H. simpl in H.
  apply H; [done|done|done|]. unfold zero_struct. by rewrite length_map.
Qed.

Lemma decode_prefix_print v rest :
  wf 0 v -> ends_value rest -> decode_prefix (print v +:+ rest) = Some (v, rest).
Proof.
  intros Hv Hr. unfold decode_prefix. rewrite (print_skip 0 v rest Hv).
  apply print_reparses; [done|done|]. unfold json_fuel. lia.
Qed.

(** A marshalled struct parses back to its fields, whatever closing bracket
    follows. *)
Lemma strictUnmarshal_marshal sch fs rest :
  schema_ok sch -> typed sch fs -> ends_value rest -> more rest = false ->
  strictUnmarshal sch (marshal sch fs +:+ rest) = Some fs.
Proof.
  intros Hs Ht Hr Hm. unfold strictUnmarshal, marshal.
  rewrite decode_prefix_print by (done || by apply marshal_struct_wf).
  by rewrite decode_struct_marshal, Hm.
Qed.

Lemma marshal_inj sch fs fs' :
  schema_ok sch -> typed sch fs -> typed sch fs' -> marshal sch fs = marshal sch fs' -> fs = fs'.
Proof.
  intros Hs Ht Ht' H.
  pose proof (strictUnmarshal_marshal sch fs EmptyString Hs Ht I eq_refl) as E.
  pose proof (strictUnmarshal_marshal sch fs' EmptyString Hs Ht' I eq_refl) as E'.
  rewrite H, E' in E. by simplify_eq.
Qed.

(** *** Members in any order *)

Lemma struct_member sch fs p :
  typed sch fs -> p ∈ zip_with (fun f x => (f.1, slot_value x)) sch fs ->
  exists i f x, sch !! i = Some f /\ fs !! i = Some x /\ p = (f.1, slot_value x)
    /\ kind_of x = f.2 /\ slot_ok x.
Proof.
  intros Ht Hp. apply list_elem_of_lookup in Hp as [i Hi].
  apply lookup_zip_with_Some in Hi as (f & x & -> & Hf & Hx).
  destruct (Forall2_lookup_lr _ _ _ _ _ _ Ht Hf Hx) as [? ?]. eauto 10.
Qed.

Lemma decode_members_fill strict sch fs ms acc :
  NoDup sch.*1 -> typed sch fs -> List.length acc = List.length fs ->
  (forall p, p ∈ ms -> p ∈ zip_with (fun f x => (f.1, slot_value x)) sch fs) ->
  exists acc', decode_members strict sch ms acc = Some acc'
    /\ List.length acc' = List.length fs
    /\ forall i f x, sch !! i = Some f -> fs !! i = Some x ->
         (f.1, slot_value x) ∈ ms \/ acc !! i = Some x -> acc' !! i = Some x.
Proof.
  intros Hnd Ht. revert acc. induction ms as [|p ms IH]; intros acc Hl Hms.
  - exists acc. split_and!; [done|done|]. intros i f x _ _ [H|H]; [by apply not_elem_of_nil in H|done].
  - destruct (struct_member sch fs p Ht (Hms p ltac:(by left))) as (i & f & x & Hf & Hx & -> & Hk & Hok).
    simpl. rewrite (find_field_at _ i f Hnd Hf), <- Hk, decode_slot_value by done.
    destruct (IH (<[i := x]> acc)) as (acc' & E & Hl' & Hfill).
    + by rewrite length_insert.
    + intros q Hq. apply Hms. by right.
    + exists acc'. split_and!; [done|done|]. intros j g y Hg Hy Hin. apply (Hfill j g y Hg Hy).
      assert (j = i -> <[i := x]> acc !! j = Some y) as Hsame.
      { intros ->. rewrite Hx in Hy. simplify_eq. apply list_lookup_insert_eq.
        rewrite Hl. by eapply lookup_lt_Some. }
      destruct (decide (j = i)) as [e|Hne]; [right; by apply Hsame|].
      rewrite list_lookup_insert_ne by done. destruct Hin as [Hin|]; [|by right].
      apply elem_of_cons in Hin as [Hin|]; [|by left]. injection Hin as Hin _.
      destruct Hne. eapply NoDup_lookup; [exact Hnd| |].
      * rewrite list_lookup_fmap, Hg. done.
      * rewrite list_lookup_fmap, fmap_Some. exists f. by rewrite Hin.
Qed.

Lemma decode_members_perm strict sch fs ms :
  NoDup sch.*1 -> typed sch fs ->
  ms ≡ₚ zip_with (fun f x => (f.1, slot_value x)) sch fs ->
  decode_members strict sch ms (zero_struct sch) = Some fs.
Proof.
  intros Hnd Ht Hp. pose proof (Forall2_length _ _ _ Ht) as Hlen.
  destruct (decode_members_fill strict sch fs ms (zero_struct sch)) as (acc' & E & Hl & Hfill);
    [done|done|unfold zero_struct; by rewrite length_map|intros p; by rewrite Hp|].
  rewrite E. f_equal. apply list_eq_same_length with (List.length fs); [done|done|].
  intros i a b Hi Ha Hb. destruct (lookup_lt_is_Some_2 sch i) as [f Hf]; [lia|].
  rewrite (Hfill i f b Hf Hb) in Ha; [by simplify_eq|]. left. rewrite Hp.
  apply list_elem_of_lookup. exists i.
  apply lookup_zip_with_Some. by exists f, b.
Qed.

Lemma canon_marshal sch fs :
  schema_ok sch -> typed sch fs ->
  exists ms, canon (marshal_struct sch fs) = VObject ms
    /\ ms ≡ₚ zip_with (fun f x => (f.1, slot_value x)) sch fs.
Proof.
  intros [Hnd _] Ht. unfold marshal_struct. cbn [canon].
  set (ms := zip_with (fun f x => (f.1, slot_value x)) sch fs).
  assert (map (fun p => (p.1, canon p.2)) ms = ms) as ->.
  { subst ms. clear Hnd. induction Ht as [|f x sch fs _ _ IH]; [done|]. simpl. rewrite IH.
    by destruct x. }
  assert (ms.*1 = sch.*1) as Hk.
  { subst ms. clear Hnd. induction Ht as [|f x sch fs _ _ IH]; [done|].
    cbn [zip_with]. rewrite !fmap_cons, IH. done. }
  eexists. split; [reflexivity|]. fold (build ms []).
  rewrite build_perm; [by rewrite app_nil_r|]. rewrite Hk. simpl. by rewrite app_nil_r.
Qed.

(** The canonicalised form (keys sorted) parses back as well. *)
Lemma strictUnmarshal_canonical sch fs rest :
  schema_ok sch -> typed sch fs -> ends_value rest -> more rest = false ->
  strictUnmarshal sch (CanonicalParams (marshal sch fs) +:+ rest) = Some fs.
Proof.
  intros Hs Ht Hr Hm. pose proof (marshal_struct_wf sch fs Hs Ht) as Hwf.
  destruct (CanonicalParams_parse (marshal sch fs) (marshal_struct sch fs)) as [-> _];
    [by apply parse_print|].
  destruct (canon_marshal sch fs Hs Ht) as (ms & Hms & Hp). unfold strictUnmarshal.
  rewrite decode_prefix_print by (done || by apply canon_wf).
  rewrite Hms. simpl. rewrite (decode_members_perm true sch fs ms) by (done || apply Hs).
  by rewrite Hm.
Qed.
