(* ===== verification/Struct.v ===== *)
(** * Nested JSON structs: [encoding/json] directed by a Go type

    The contracts of version 2 and the identity evidence are structs that
    nest: slices of structs, an optional integer, a map of counts, an instant,
    a string left out when empty, an integer left out when absent.  [gotype] names those types, [marshal_go] is
    [json.Marshal] on them and [decode_go] is [Decoder.Decode] with
    [DisallowUnknownFields]; a slice decoded twice starts again from empty.
    The text reader of [time.Time] is an argument of its type; it is given the
    decoded text, so an instant spelled with escapes, which Go refuses, is not
    told apart. *)

From S2P Require Import Prelude Json Text Encoding Digests Wire.
From Stdlib Require Import Ascii String.
Local Open Scope Z_scope.
#[local] Arguments String.append !_ _ : simpl nomatch.

Inductive gotype :=
| TString
| TOmitString
| TInt
| TBool
| TTime (unmarshal : string -> option time)
| TSlice (t : gotype)
| TOptInt
| TOmitOptInt
| TCounts
| TStruct (fields : list (string * gotype)).

Inductive goval :=
| GString (s : string)
| GInt (z : Z)
| GBool (b : bool)
| GTime (t : time)
| GSlice (l : option (list goval))
| GOptInt (z : option Z)
| GCounts (m : option (gmap string Z))
| GStruct (fields : list goval).

Fixpoint zero_go (t : gotype) : goval :=
  match t with
  | TString | TOmitString => GString ""
  | TInt => GInt 0
  | TBool => GBool false
  | TTime _ => GTime 0
  | TSlice _ => GSlice None
  | TOptInt | TOmitOptInt => GOptInt None
  | TCounts => GCounts None
  | TStruct fs => GStruct (map (fun f => zero_go f.2) fs)
  end.

(** ** Marshalling *)

Definition counts_value (m : gmap string Z) : value :=
  canon (VObject (map (fun p => (p.1, num p.2)) (map_to_list m))).

(** The option [omitempty] on a string field and on a pointer. *)
Definition omitted (t : gotype) (g : goval) : bool :=
  match t, g with
  | TOmitString, GString s => bool_decide (s = "")
  | TOmitOptInt, GOptInt z => bool_decide (z = None)
  | _, _ => false
  end.

Fixpoint marshal_go (t : gotype) (g : goval) : value :=
  match t, g with
  | TString, GString s | TOmitString, GString s => VString s
  | TInt, GInt z => num z
  | TBool, GBool b => VBool b
  | TTime _, GTime t => VString (rfc3339 t)
  | TSlice t, GSlice (Some l) => VArray (map (marshal_go t) l)
  | TOptInt, GOptInt (Some z) | TOmitOptInt, GOptInt (Some z) => num z
  | TCounts, GCounts (Some m) => counts_value m
  | TStruct fs, GStruct gs =>
      VObject ((fix members (fs : list (string * gotype)) (gs : list goval) :=
                  match fs, gs with
                  | f :: fs', g :: gs' =>
                      if omitted f.2 g then members fs' gs'
                      else (f.1, marshal_go f.2 g) :: members fs' gs'
                  | _, _ => []
                  end) fs gs)
  | _, _ => VNull
  end.

(** ** Decoding *)

(** [json.Unmarshal] into a [map[string]int64]: the last member of a key wins,
    and a [null] member is a zero. *)
Fixpoint int64_members (ms : list (string * value)) (m : gmap string Z) : option (gmap string Z) :=
  match ms with
  | [] => Some m
  | (k, VNull) :: ms' => int64_members ms' (<[k := 0]> m)
  | (k, VNumber lit) :: ms' =>
      match parse_int64 lit with Some z => int64_members ms' (<[k := z]> m) | None => None end
  | _ => None
  end.

Definition decoder := value -> goval -> option goval.

Definition find_decoder (ds : list (string * decoder)) (key : string) : option (nat * (string * decoder)) :=
  match list_find (fun f => f.1 = key) ds with
  | Some x => Some x
  | None => list_find (fun f => fold_name f.1 = fold_name key) ds
  end.

(** The members in order, into the fields; an unknown key is refused. *)
Fixpoint decode_fields (ds : list (string * decoder)) (ms : list (string * value))
    (gs : list goval) : option (list goval) :=
  match ms with
  | [] => Some gs
  | (key, v) :: ms' =>
      match find_decoder ds key with
      | None => None
      | Some (i, d) =>
          match gs !! i with
          | None => None
          | Some old => match d.2 v old with
                        | None => None
                        | Some g => decode_fields ds ms' (<[i := g]> gs)
                        end
          end
      end
  end.

(** One value into a variable: [null] leaves a plain value alone and empties a
    slice, a map or a pointer. *)
Fixpoint decode_go (t : gotype) : decoder := fun v old =>
  match t, v with
  | TString, VNull | TOmitString, VNull | TInt, VNull | TBool, VNull | TTime _, VNull
  | TStruct _, VNull => Some old
  | TString, VString s | TOmitString, VString s => Some (GString s)
  | TInt, VNumber lit => GInt <$> parse_int64 lit
  | TBool, VBool b => Some (GBool b)
  | TTime unmarshal, VString s => GTime <$> unmarshal s
  | TSlice _, VNull => Some (GSlice None)
  | TSlice t, VArray vs => (fun l => GSlice (Some l)) <$> mapM (fun v => decode_go t v (zero_go t)) vs
  | TOptInt, VNull | TOmitOptInt, VNull => Some (GOptInt None)
  | TOptInt, VNumber lit | TOmitOptInt, VNumber lit => (fun z => GOptInt (Some z)) <$> parse_int64 lit
  | TCounts, VNull => Some (GCounts None)
  | TCounts, VObject ms =>
      (fun m => GCounts (Some m)) <$>
        int64_members ms (match old with GCounts (Some m) => m | _ => ∅ end)
  | TStruct fs, VObject ms =>
      match old with
      | GStruct gs => GStruct <$> decode_fields (map (fun f => (f.1, decode_go f.2)) fs) ms gs
      | _ => None
      end
  | _, _ => None
  end.

(** ** What marshals and decodes back *)

Fixpoint typed_go (t : gotype) (g : goval) : Prop :=
  match t, g with
  | TString, GString s | TOmitString, GString s => utf8 s
  | TInt, GInt z => int64_range z
  | TBool, GBool _ => True
  | TTime unmarshal, GTime t => unmarshal (rfc3339 t) = Some t
  | TSlice t, GSlice l => match l with Some l => Forall (typed_go t) l | None => True end
  | TOptInt, GOptInt z | TOmitOptInt, GOptInt z => match z with Some z => int64_range z | None => True end
  | TCounts, GCounts m =>
      match m with Some m => map_Forall (fun k z => utf8 k /\ int64_range z) m | None => True end
  | TStruct fs, GStruct gs =>
      (fix fields (fs : list (string * gotype)) (gs : list goval) : Prop :=
         match fs, gs with
         | [], [] => True
         | f :: fs', g :: gs' => typed_go f.2 g /\ fields fs' gs'
         | _, _ => False
         end) fs gs
  | _, _ => False
  end.

(** Distinct plain-text tags at every level. *)
Fixpoint type_ok (t : gotype) : Prop :=
  match t with
  | TSlice t => type_ok t
  | TStruct fs => NoDup fs.*1 /\ Forall (fun f => ascii_only f.1 = true) fs
      /\ (fix each (fs : list (string * gotype)) : Prop :=
            match fs with [] => True | f :: fs' => type_ok f.2 /\ each fs' end) fs
  | _ => True
  end.

(** How deep the brackets of a type go. *)
Fixpoint depth (t : gotype) : Z :=
  match t with
  | TSlice t => 1 + depth t
  | TCounts => 1
  | TStruct fs => 1 + (fix deepest (fs : list (string * gotype)) : Z :=
                         match fs with [] => 0 | f :: fs' => Z.max (depth f.2) (deepest fs') end) fs
  | _ => 0
  end.

Section GoTypeInd.
Context (P : gotype -> Prop) (Hstring : P TString) (Homit : P TOmitString) (Hint : P TInt)
  (Hbool : P TBool) (Htime : forall u, P (TTime u))
  (Hslice : forall t, P t -> P (TSlice t)) (Hopt : P TOptInt)
  (Homitopt : P TOmitOptInt) (Hcounts : P TCounts)
  (Hstruct : forall fs, Forall (fun f => P f.2) fs -> P (TStruct fs)).

Fixpoint gotype_nested_ind (t : gotype) : P t :=
  match t with
  | TString => Hstring
  | TOmitString => Homit
  | TInt => Hint
  | TBool => Hbool
  | TTime u => Htime u
  | TSlice t => Hslice t (gotype_nested_ind t)
  | TOptInt => Hopt
  | TOmitOptInt => Homitopt
  | TCounts => Hcounts
  | TStruct fs => Hstruct fs
      ((fix go fs : Forall (fun f => P f.2) fs :=
          match fs with
          | [] => Forall_nil_2 _
          | f :: fs' => Forall_cons_2 _ f fs' (gotype_nested_ind f.2) (go fs')
          end) fs)
  end.

End GoTypeInd.

(** ** Round trip *)

(** A map of counts, its members in any order. *)
Lemma int64_members_back (l : list (string * Z)) (m0 : gmap string Z) :
  NoDup l.*1 -> Forall (fun p => int64_range p.2) l ->
  int64_members (map (fun p => (p.1, num p.2)) l) m0 = Some (list_to_map l ∪ m0).
Proof.
  revert m0. induction l as [|[k z] l IH]; intros m0 Hnd Hr.
  - simpl. f_equal. symmetry. apply (left_id_L ∅ (∪)).
  - rewrite fmap_cons in Hnd. apply NoDup_cons in Hnd as [Hk Hnd]. apply Forall_cons in Hr as [Hz Hr].
    cbn [map fst snd int64_members num]. rewrite parse_int64_Itoa by done. rewrite IH by done.
    f_equal. apply map_eq. intros k'. cbn [list_to_map fst snd foldr uncurry].
    rewrite !lookup_union. destruct (decide (k' = k)) as [->|N].
    + rewrite !lookup_insert_eq. rewrite not_elem_of_list_to_map_1 by done.
      by destruct (m0 !! k).
    + by rewrite !lookup_insert_ne.
Qed.

Lemma counts_members (m : gmap string Z) : exists l, l ≡ₚ map_to_list m
  /\ counts_value m = VObject (map (fun p => (p.1, num p.2)) l).
Proof.
  assert (counts_value m = VObject (build (map (fun p => (p.1, num p.2)) (map_to_list m)) [])) as ->.
  { unfold counts_value. cbn [canon]. by rewrite map_map. }
  assert (Hp : build (map (fun p => (p.1, num p.2)) (map_to_list m)) []
               ≡ₚ map (fun p => (p.1, num p.2)) (map_to_list m)).
  { rewrite build_perm, app_nil_r; [done|]. rewrite app_nil_r.
    change (map (fun p : string * Z => (p.1, num p.2))) with
      (fmap (M := list) (fun p : string * Z => (p.1, num p.2))).
    rewrite <- list_fmap_compose. apply NoDup_fst_map_to_list. }
  clear -Hp. destruct (Permutation_map_inv _ _ Hp) as (l & -> & Hl). exists l. by split.
Qed.

Lemma decode_counts m : map_Forall (fun k z => utf8 k /\ int64_range z) m ->
  decode_go TCounts (counts_value m) (GCounts None) = Some (GCounts (Some m)).
Proof.
  intros Hm. destruct (counts_members m) as (l & Hl & ->). cbn [decode_go].
  rewrite int64_members_back.
  - rewrite (right_id_L ∅ (∪)). cbn [fmap option_fmap option_map]. do 3 f_equal.
    assert (Hn : NoDup l.*1) by (rewrite Hl; apply NoDup_fst_map_to_list).
    by rewrite (list_to_map_proper _ _ Hn Hl), list_to_map_to_list.
  - rewrite Hl. apply NoDup_fst_map_to_list.
  - rewrite Hl. apply Forall_forall. intros [k z] Hk%elem_of_map_to_list. by apply (Hm k z).
Qed.

Lemma find_decoder_at (ds : list (string * decoder)) i d :
  NoDup ds.*1 -> ds !! i = Some d -> find_decoder ds d.1 = Some (i, d).
Proof.
  intros Hnd Hi. unfold find_decoder.
  assert (list_find (fun g => g.1 = d.1) ds = Some (i, d)) as ->; [|done].
  apply list_find_Some. split_and!; [done|done|]. intros j g Hj Hlt Hg.
  assert (j = i); [|lia]. eapply NoDup_lookup; [exact Hnd| |].
  - rewrite list_lookup_fmap, Hj. done.
  - rewrite list_lookup_fmap, Hi. simpl. by rewrite Hg.
Qed.

Definition decoders (fs : list (string * gotype)) : list (string * decoder) :=
  map (fun f => (f.1, decode_go f.2)) fs.

Fixpoint members (fs : list (string * gotype)) (gs : list goval) : list (string * value) :=
  match fs, gs with
  | f :: fs', g :: gs' =>
      if omitted f.2 g then members fs' gs' else (f.1, marshal_go f.2 g) :: members fs' gs'
  | _, _ => []
  end.

Lemma marshal_struct_members fs gs : marshal_go (TStruct fs) (GStruct gs) = VObject (members fs gs).
Proof. done. Qed.

Lemma typed_struct fs gs :
  typed_go (TStruct fs) (GStruct gs) <-> Forall2 (fun f g => typed_go f.2 g) fs gs.
Proof.
  cbn [typed_go]. revert gs. induction fs as [|f fs IH]; intros [|g gs].
  - split; [constructor|done].
  - split; [done|inversion 1].
  - split; [done|inversion 1].
  - rewrite Forall2_cons, <- IH. done.
Qed.

Lemma type_ok_struct fs : type_ok (TStruct fs) <->
  NoDup fs.*1 /\ Forall (fun f => ascii_only f.1 = true) fs /\ Forall (fun f => type_ok f.2) fs.
Proof.
  cbn [type_ok]. do 2 (apply and_iff_compat_l).
  induction fs as [|f fs IH]; [done|]. rewrite Forall_cons, <- IH. done.
Qed.

Lemma decoders_names fs : (decoders fs).*1 = fs.*1.
Proof. unfold decoders. induction fs as [|f fs IH]; [done|]. cbn. by f_equal. Qed.

(** Decoding the members of a struct fills the fields from left to right. *)
Lemma decode_fields_tail pre fs gs done_gs :
  NoDup (pre ++ fs).*1 -> List.length done_gs = List.length pre ->
  Forall2 (fun f g => decode_go f.2 (marshal_go f.2 g) (zero_go f.2) = Some g) fs gs ->
  decode_fields (decoders (pre ++ fs)) (members fs gs) (done_gs ++ map (fun f => zero_go f.2) fs)
    = Some (done_gs ++ gs).
Proof.
  intros Hnd Hl Hd. revert pre done_gs Hnd Hl.
  induction Hd as [|f g fs gs Hfg Hd IH]; intros pre done_gs Hnd Hl; [done|].
  specialize (IH (pre ++ [f]) (done_gs ++ [g])). rewrite <- !app_assoc in IH. cbn [app] in IH.
  rewrite !length_app in IH. cbn [List.length] in IH. specialize (IH Hnd ltac:(lia)).
  cbn [members map]. destruct (omitted f.2 g) eqn:Eo.
  { assert (zero_go f.2 = g) as ->; [|exact IH].
    destruct f as [k t], t, g; try done; apply bool_decide_eq_true in Eo; by subst. }
  cbn [decode_fields].
  assert (Hat : decoders (pre ++ f :: fs) !! List.length pre = Some (f.1, decode_go f.2)).
  { unfold decoders. rewrite map_app, <- (length_map (fun f => (f.1, decode_go f.2)) pre).
    cbn [map]. by rewrite list_lookup_middle. }
  rewrite (find_decoder_at _ (List.length pre) (f.1, decode_go f.2)) by
    (by rewrite ?decoders_names).
  rewrite <- Hl. rewrite list_lookup_middle by done. cbn [snd]. rewrite Hfg.
  rewrite insert_app_r_alt, Nat.sub_diag by lia. exact IH.
Qed.

Lemma decode_marshal_go t : type_ok t -> forall g, typed_go t g ->
  decode_go t (marshal_go t g) (zero_go t) = Some g.
Proof.
  induction t as [| | | |u|t IH| | | |fs IH] using gotype_nested_ind; intros Hok g Hg.
  - by destruct g.
  - by destruct g.
  - destruct g; try done. cbn. by rewrite parse_int64_Itoa.
  - by destruct g.
  - destruct g; try done. cbn [typed_go marshal_go decode_go] in *. by rewrite Hg.
  - destruct g as [| | | |[l|]| | |]; try done. cbn [typed_go] in Hg. cbn [marshal_go decode_go].
    assert (mapM (fun v => decode_go t v (zero_go t)) (map (marshal_go t) l) = Some l) as ->; [|done].
    induction Hg as [|g l Hg _ IHl]; [done|]. cbn [map mapM]. rewrite (IH Hok g Hg).
    cbn [mbind option_bind]. by rewrite IHl.
  - destruct g as [| | | | |[z|]| |]; try done. cbn. by rewrite parse_int64_Itoa.
  - destruct g as [| | | | |[z|]| |]; try done. cbn. by rewrite parse_int64_Itoa.
  - destruct g as [| | | | | |[m|]|]; try done. by apply decode_counts.
  - destruct g as [| | | | | | |gs]; try done. apply typed_struct in Hg.
    apply type_ok_struct in Hok as (Hnd & _ & Hok).
    rewrite marshal_struct_members. cbn [decode_go zero_go].
    pose proof (decode_fields_tail [] fs gs [] Hnd eq_refl) as D. simpl in D.
    unfold decoders in D. rewrite D; [done|]. clear D Hnd.
    induction Hg as [|f g fs gs Hg _ IHg]; [constructor|].
    apply Forall_cons in IH as [IHf IH], Hok as [Hf Hok]. constructor; [by apply IHf|by apply IHg].
Qed.

Lemma counts_value_wf d m : d + 1 <= maxNestingDepth ->
  map_Forall (fun k z => utf8 k /\ int64_range z) m -> wf d (counts_value m).
Proof.
  intros Hd Hm. destruct (counts_members m) as (l & Hl & ->). constructor; [done|].
  apply Forall_map. rewrite Hl. apply Forall_forall. intros [k z] Hk%elem_of_map_to_list.
  split; [by apply (Hm k z)|apply num_wf].
Qed.

Lemma depth_nonneg t : 0 <= depth t.
Proof.
  induction t as [| | | |u|t IH| | | |fs IH] using gotype_nested_ind; cbn [depth]; try lia.
  induction IH as [|f fs Hf _ IHf]; lia.
Qed.

Lemma marshal_go_wf t : type_ok t -> forall g d, typed_go t g -> d + depth t <= maxNestingDepth ->
  wf d (marshal_go t g).
Proof.
  induction t as [| | | |u|t IH| | | |fs IH] using gotype_nested_ind; intros Hok g d Hg Hd.
  - destruct g; try done. by constructor.
  - destruct g; try done. by constructor.
  - destruct g; try done. apply num_wf.
  - destruct g; try done. constructor.
  - destruct g; try done. constructor. apply ascii_only_utf8, rfc3339_ascii.
  - destruct g as [| | | |[l|]| | |]; try done; [|constructor]. cbn [typed_go depth] in *.
    pose proof (depth_nonneg t). constructor; [lia|]. apply Forall_map.
    eapply Forall_impl; [exact Hg|]. intros g Hg'. apply IH; [done|done|lia].
  - destruct g as [| | | | |[z|]| |]; try done; [apply num_wf|constructor].
  - destruct g as [| | | | |[z|]| |]; try done; [apply num_wf|constructor].
  - destruct g as [| | | | | |[m|]|]; try done; [|constructor]. apply counts_value_wf; [|done].
    cbn [depth] in Hd. lia.
  - destruct g as [| | | | | | |gs]; try done. apply typed_struct in Hg.
    apply type_ok_struct in Hok as (_ & Hn & Hok). rewrite marshal_struct_members.
    cbn [depth] in Hd. pose proof (depth_nonneg (TStruct fs)) as Hz. cbn [depth] in Hz.
    assert (H0 : 0 <= (fix deepest (fs : list (string * gotype)) : Z :=
              match fs with [] => 0 | f :: fs' => Z.max (depth f.2) (deepest fs') end) fs).
    { clear. induction fs as [|f fs IH]; [done|]. pose proof (depth_nonneg f.2). lia. }
    constructor; [lia|]. clear Hz H0.
    induction Hg as [|f g fs gs Hg _ IHg]; [constructor|]. cbn [members].
    apply Forall_cons in IH as [IHf IH], Hok as [Hf Hok], Hn as [Hn1 Hn].
    assert (Forall (fun p => utf8 p.1 /\ wf (d + 1) p.2) (members fs gs)) as Hrest
      by (apply IHg; try done; lia).
    destruct (omitted f.2 g); [exact Hrest|]. constructor; [|exact Hrest].
    split; [by apply ascii_only_utf8|]. apply IHf; [done|done|lia].
Qed.

(** The tags of a struct are distinct plain text. *)
Definition tags_ok (fs : list (string * gotype)) : bool :=
  bool_decide (NoDup fs.*1) && forallb (fun f => ascii_only f.1) fs.

Lemma struct_ok fs : tags_ok fs = true -> Forall (fun f => type_ok f.2) fs -> type_ok (TStruct fs).
Proof.
  intros [H1%bool_decide_eq_true H2]%andb_true_iff H3.
  apply type_ok_struct. split_and!; [done| |done].
  apply List.Forall_forall. by apply forallb_forall.
Qed.

Ltac types_ok := repeat (apply struct_ok; [vm_compute; reflexivity|]);
  repeat (apply Forall_cons; split); try apply Forall_nil; cbn [snd]; try exact I.

(** What a well-typed value marshals to parses and decodes to it. *)
Lemma marshal_go_back t g : type_ok t -> depth t <= maxNestingDepth -> typed_go t g ->
  parse (print (marshal_go t g)) = Some (marshal_go t g)
  /\ decode_go t (marshal_go t g) (zero_go t) = Some g.
Proof.
  intros Hok Hd Hg. split; [|by apply decode_marshal_go]. by apply parse_print, marshal_go_wf.
Qed.
