(* ===== verification/Receipts.v ===== *)
(** * Execution receipts, their hash chain and their signatures

    [internal/action/receipt.go] and [internal/action/signing.go].  Ed25519 and
    the parser of RFC 3339 times are parameters: [Sign], [Verify] and [Public]
    of [crypto/ed25519], [time.Parse]. *)

From S2P Require Import Prelude Kernel Json Text Encoding Digests Wire.
From Stdlib Require Import Ascii String.
Import Effect.
Local Open Scope Z_scope.
Local Open Scope korvun_scope.
#[local] Arguments String.append !_ _ : simpl nomatch.

Record Receipt := {
  ReceiptID : string;
  SchemaVersion : Z;
  ActionID : string;
  IntentDigest : string;
  PrincipalID : string;
  AuthorityDigest : string;
  DecisionDigest : string;
  ActionDigest : string;
  EffectClass : EffectClass;
  Attempt : Z;
  Outcome : string;
  ResultDigest : string;
  ApprovalDigest : string;
  IdentityStatus : string;
  RequesterPrincipalID : string;
  ActorPrincipalID : string;
  ResponsiblePrincipalID : string;
  IdentityEvidenceDigest : string;
  IdentitySnapshotDigest : string;
  StartedAt : time;
  FinishedAt : time;
  Partition : string;
  ChainSeq : Z;
  PreviousReceiptHash : string;
  ReceiptHash : string;
  SigningKeyID : string;
  Signature : string;
}.

Definition GenesisPreviousHash : string :=
  "sha256:e3b0c44298fc1c149afbf4c8996fb92427ae41e4649b934ca495991b7852b855".

(** ** The three eras of the wire form *)

Definition receiptWire : schema :=
  [("receipt_id", KString); ("action_id", KString); ("intent_digest", KString);
   ("principal_id", KString); ("authority_digest", KString); ("decision_digest", KString);
   ("action_digest", KString); ("effect_class", KString); ("attempt", KInt);
   ("outcome", KString); ("result_digest", KString); ("started_at", KString);
   ("finished_at", KString); ("partition", KString); ("chain_seq", KInt);
   ("previous_receipt_hash", KString)].

Definition receiptWireV2 : schema :=
  [("schema_version", KInt); ("receipt_id", KString); ("action_id", KString);
   ("intent_digest", KString); ("principal_id", KString); ("authority_digest", KString);
   ("decision_digest", KString); ("action_digest", KString); ("approval_digest", KString);
   ("effect_class", KString); ("attempt", KInt); ("outcome", KString);
   ("result_digest", KString); ("started_at", KString); ("finished_at", KString);
   ("partition", KString); ("chain_seq", KInt); ("previous_receipt_hash", KString)].

Definition receiptWireV3 : schema :=
  [("schema_version", KInt); ("receipt_id", KString); ("action_id", KString);
   ("intent_digest", KString); ("principal_id", KString); ("authority_digest", KString);
   ("decision_digest", KString); ("action_digest", KString); ("approval_digest", KString);
   ("identity_status", KString); ("requester_principal_id", KString);
   ("actor_principal_id", KString); ("responsible_principal_id", KString);
   ("identity_evidence_digest", KString); ("identity_snapshot_digest", KString);
   ("effect_class", KString); ("attempt", KInt); ("outcome", KString);
   ("result_digest", KString); ("started_at", KString); ("finished_at", KString);
   ("partition", KString); ("chain_seq", KInt); ("previous_receipt_hash", KString)].

Definition wire_v1 (r : Receipt) : list slot :=
  [SString r.(ReceiptID); SString r.(ActionID); SString r.(IntentDigest);
   SString r.(PrincipalID); SString r.(AuthorityDigest); SString r.(DecisionDigest);
   SString r.(ActionDigest); SString r.(EffectClass); SInt r.(Attempt); SString r.(Outcome);
   SString r.(ResultDigest); SString (timeTerm r.(StartedAt));
   SString (timeTerm r.(FinishedAt)); SString r.(Partition); SInt r.(ChainSeq);
   SString r.(PreviousReceiptHash)].

Definition wire_v2 (r : Receipt) : list slot :=
  [SInt r.(SchemaVersion); SString r.(ReceiptID); SString r.(ActionID);
   SString r.(IntentDigest); SString r.(PrincipalID); SString r.(AuthorityDigest);
   SString r.(DecisionDigest); SString r.(ActionDigest); SString r.(ApprovalDigest);
   SString r.(EffectClass); SInt r.(Attempt); SString r.(Outcome); SString r.(ResultDigest);
   SString (timeTerm r.(StartedAt)); SString (timeTerm r.(FinishedAt));
   SString r.(Partition); SInt r.(ChainSeq); SString r.(PreviousReceiptHash)].

Definition wire_v3 (r : Receipt) : list slot :=
  [SInt r.(SchemaVersion); SString r.(ReceiptID); SString r.(ActionID);
   SString r.(IntentDigest); SString r.(PrincipalID); SString r.(AuthorityDigest);
   SString r.(DecisionDigest); SString r.(ActionDigest); SString r.(ApprovalDigest);
   SString r.(IdentityStatus); SString r.(RequesterPrincipalID);
   SString r.(ActorPrincipalID); SString r.(ResponsiblePrincipalID);
   SString r.(IdentityEvidenceDigest); SString r.(IdentitySnapshotDigest);
   SString r.(EffectClass); SInt r.(Attempt); SString r.(Outcome); SString r.(ResultDigest);
   SString (timeTerm r.(StartedAt)); SString (timeTerm r.(FinishedAt));
   SString r.(Partition); SInt r.(ChainSeq); SString r.(PreviousReceiptHash)].

Definition CanonicalReceipt (r : Receipt) : string :=
  if 3 <=? r.(SchemaVersion) then marshal receiptWireV3 (wire_v3 r)
  else if 2 <=? r.(SchemaVersion) then marshal receiptWireV2 (wire_v2 r)
  else CanonicalParams (marshal receiptWire (wire_v1 r)).

Definition ComputeReceiptHash (r : Receipt) : string := pinned (sha256 (CanonicalReceipt r)).

(** ** The chain *)

Definition LinkReceipt (next prev : Receipt) : Receipt :=
  {| ReceiptID := next.(ReceiptID);
     SchemaVersion := next.(SchemaVersion);
     ActionID := next.(ActionID);
     IntentDigest := next.(IntentDigest);
     PrincipalID := next.(PrincipalID);
     AuthorityDigest := next.(AuthorityDigest);
     DecisionDigest := next.(DecisionDigest);
     ActionDigest := next.(ActionDigest);
     EffectClass := next.(EffectClass);
     Attempt := next.(Attempt);
     Outcome := next.(Outcome);
     ResultDigest := next.(ResultDigest);
     ApprovalDigest := next.(ApprovalDigest);
     IdentityStatus := next.(IdentityStatus);
     RequesterPrincipalID := next.(RequesterPrincipalID);
     ActorPrincipalID := next.(ActorPrincipalID);
     ResponsiblePrincipalID := next.(ResponsiblePrincipalID);
     IdentityEvidenceDigest := next.(IdentityEvidenceDigest);
     IdentitySnapshotDigest := next.(IdentitySnapshotDigest);
     StartedAt := next.(StartedAt);
     FinishedAt := next.(FinishedAt);
     Partition := prev.(Partition);
     ChainSeq := wrap64 (prev.(ChainSeq) + 1);
     PreviousReceiptHash := prev.(ReceiptHash);
     ReceiptHash := next.(ReceiptHash);
     SigningKeyID := next.(SigningKeyID);
     Signature := next.(Signature) |}.

(** ** Parsing untrusted bytes *)

(** The lax [json.Unmarshal] into a struct with one integer field: a member
    that does not fit leaves the field as it was. *)
Definition sniff_member (acc : Z) (p : string * value) : Z :=
  match find_field [("schema_version", KInt)] p.1 with
  | Some _ => match decode_slot KInt p.2 (SInt acc) with Some (SInt z) => z | _ => acc end
  | None => acc
  end.

Definition sniff_version (raw : string) : Z :=
  match parse raw with Some (VObject ms) => fold_left sniff_member ms 0 | _ => 0 end.

Section Times.
Context (time_Parse : string -> option time).

Definition parseTimeTerm (raw : string) : option time :=
  if bool_decide (raw = "") then Some 0 else time_Parse raw.

Definition time_field (name raw : string) : result time :=
  match parseTimeTerm raw with
  | Some t => Ok t
  | None => Err (ErrorNew ("action: parse receipt " +:+ name))
  end.

Definition receipt_of_v1 (fs : list slot) : result Receipt :=
  match fs with
  | [SString receipt_id; SString action_id; SString intent_digest; SString principal_id;
       SString authority_digest; SString decision_digest; SString action_digest; SString
       effect_class; SInt attempt; SString outcome; SString result_digest; SString
       started_at_text; SString finished_at_text; SString partition; SInt chain_seq; SString
       previous_receipt_hash] =>
      let? started_at := time_field "started_at" started_at_text in
      let? finished_at := time_field "finished_at" finished_at_text in
      Ok {| ReceiptID := receipt_id; SchemaVersion := 0; ActionID := action_id; IntentDigest
            := intent_digest; PrincipalID := principal_id; AuthorityDigest :=
            authority_digest; DecisionDigest := decision_digest; ActionDigest :=
            action_digest; EffectClass := effect_class; Attempt := attempt; Outcome :=
            outcome; ResultDigest := result_digest; ApprovalDigest := ""; IdentityStatus :=
            ""; RequesterPrincipalID := ""; ActorPrincipalID := ""; ResponsiblePrincipalID :=
            ""; IdentityEvidenceDigest := ""; IdentitySnapshotDigest := ""; StartedAt :=
            started_at; FinishedAt := finished_at; Partition := partition; ChainSeq :=
            chain_seq; PreviousReceiptHash := previous_receipt_hash; ReceiptHash := "";
            SigningKeyID := ""; Signature := "" |}
  | _ => Err (ErrorNew "action: parse canonical receipt")
  end.

Definition receipt_of_v2 (fs : list slot) : result Receipt :=
  match fs with
  | [SInt schema_version; SString receipt_id; SString action_id; SString intent_digest;
       SString principal_id; SString authority_digest; SString decision_digest; SString
       action_digest; SString approval_digest; SString effect_class; SInt attempt; SString
       outcome; SString result_digest; SString started_at_text; SString finished_at_text;
       SString partition; SInt chain_seq; SString previous_receipt_hash] =>
      let? started_at := time_field "started_at" started_at_text in
      let? finished_at := time_field "finished_at" finished_at_text in
      Ok {| ReceiptID := receipt_id; SchemaVersion := schema_version; ActionID := action_id;
            IntentDigest := intent_digest; PrincipalID := principal_id; AuthorityDigest :=
            authority_digest; DecisionDigest := decision_digest; ActionDigest :=
            action_digest; EffectClass := effect_class; Attempt := attempt; Outcome :=
            outcome; ResultDigest := result_digest; ApprovalDigest := approval_digest;
            IdentityStatus := ""; RequesterPrincipalID := ""; ActorPrincipalID := "";
            ResponsiblePrincipalID := ""; IdentityEvidenceDigest := ""; IdentitySnapshotDigest
            := ""; StartedAt := started_at; FinishedAt := finished_at; Partition := partition;
            ChainSeq := chain_seq; PreviousReceiptHash := previous_receipt_hash; ReceiptHash
            := ""; SigningKeyID := ""; Signature := "" |}
  | _ => Err (ErrorNew "action: parse canonical receipt")
  end.

Definition receipt_of_v3 (fs : list slot) : result Receipt :=
  match fs with
  | [SInt schema_version; SString receipt_id; SString action_id; SString intent_digest;
       SString principal_id; SString authority_digest; SString decision_digest; SString
       action_digest; SString approval_digest; SString identity_status; SString
       requester_principal_id; SString actor_principal_id; SString responsible_principal_id;
       SString identity_evidence_digest; SString identity_snapshot_digest; SString
       effect_class; SInt attempt; SString outcome; SString result_digest; SString
       started_at_text; SString finished_at_text; SString partition; SInt chain_seq; SString
       previous_receipt_hash] =>
      let? started_at := time_field "started_at" started_at_text in
      let? finished_at := time_field "finished_at" finished_at_text in
      Ok {| ReceiptID := receipt_id; SchemaVersion := schema_version; ActionID := action_id;
            IntentDigest := intent_digest; PrincipalID := principal_id; AuthorityDigest :=
            authority_digest; DecisionDigest := decision_digest; ActionDigest :=
            action_digest; EffectClass := effect_class; Attempt := attempt; Outcome :=
            outcome; ResultDigest := result_digest; ApprovalDigest := approval_digest;
            IdentityStatus := identity_status; RequesterPrincipalID := requester_principal_id;
            ActorPrincipalID := actor_principal_id; ResponsiblePrincipalID :=
            responsible_principal_id; IdentityEvidenceDigest := identity_evidence_digest;
            IdentitySnapshotDigest := identity_snapshot_digest; StartedAt := started_at;
            FinishedAt := finished_at; Partition := partition; ChainSeq := chain_seq;
            PreviousReceiptHash := previous_receipt_hash; ReceiptHash := ""; SigningKeyID :=
            ""; Signature := "" |}
  | _ => Err (ErrorNew "action: parse canonical receipt")
  end.

Definition parse_era (sch : schema) (build : list slot -> result Receipt) (raw : string)
    : result Receipt :=
  match strictUnmarshal sch raw with
  | Some fs => build fs
  | None => Err (ErrorNew "action: parse canonical receipt")
  end.

Definition ParseCanonicalReceipt (raw : string) : result Receipt :=
  let v := sniff_version raw in
  if v =? 0 then parse_era receiptWire receipt_of_v1 raw
  else if v =? 2 then parse_era receiptWireV2 receipt_of_v2 raw
  else if v =? 3 then parse_era receiptWireV3 receipt_of_v3 raw
  else Err (ErrorNew "action: parse canonical receipt: unknown schema version").

End Times.

(** ** Signatures *)

Definition ErrUnknownSignatureAlgorithm : error := ErrorNew "action: unknown signature algorithm".
Definition signingAlgorithm : string := "ed25519".

Definition DeriveSigningKeyID (pub : string) : string :=
  signingAlgorithm +:+ ":" +:+ str_take 16 (hex_encode (sha256 pub)).

(** [strings.Cut s] at the first colon. *)
Fixpoint cut_colon (s : string) : option (string * string) :=
  match s with
  | String c s' =>
      if code c =? 58 then Some (EmptyString, s')
      else match cut_colon s' with Some (a, b) => Some (String c a, b) | None => None end
  | EmptyString => None
  end.

Definition set_seal (hash key sig : string) (r : Receipt) : Receipt :=
  {| ReceiptID := r.(ReceiptID);
     SchemaVersion := r.(SchemaVersion);
     ActionID := r.(ActionID);
     IntentDigest := r.(IntentDigest);
     PrincipalID := r.(PrincipalID);
     AuthorityDigest := r.(AuthorityDigest);
     DecisionDigest := r.(DecisionDigest);
     ActionDigest := r.(ActionDigest);
     EffectClass := r.(EffectClass);
     Attempt := r.(Attempt);
     Outcome := r.(Outcome);
     ResultDigest := r.(ResultDigest);
     ApprovalDigest := r.(ApprovalDigest);
     IdentityStatus := r.(IdentityStatus);
     RequesterPrincipalID := r.(RequesterPrincipalID);
     ActorPrincipalID := r.(ActorPrincipalID);
     ResponsiblePrincipalID := r.(ResponsiblePrincipalID);
     IdentityEvidenceDigest := r.(IdentityEvidenceDigest);
     IdentitySnapshotDigest := r.(IdentitySnapshotDigest);
     StartedAt := r.(StartedAt);
     FinishedAt := r.(FinishedAt);
     Partition := r.(Partition);
     ChainSeq := r.(ChainSeq);
     PreviousReceiptHash := r.(PreviousReceiptHash);
     ReceiptHash := hash;
     SigningKeyID := key;
     Signature := sig |}.

Section Ed25519.
Context (PrivateKey : Type) (Public : PrivateKey -> string)
  (Sign : PrivateKey -> string -> string) (Verify : string -> string -> string -> bool).

Definition SignReceipt (priv : PrivateKey) (r : Receipt) : Receipt :=
  set_seal r.(ReceiptHash) (DeriveSigningKeyID (Public priv))
    (hex_encode (Sign priv (sha256 (CanonicalReceipt r)))) r.

Definition VerifyReceiptSignature (pub : string) (r : Receipt) : option error :=
  match cut_colon r.(SigningKeyID) with
  | Some (algorithm, _) =>
      if bool_decide (algorithm <> signingAlgorithm)
      then Some (ErrorWrap r.(SigningKeyID) ErrUnknownSignatureAlgorithm)
      else if bool_decide (r.(SigningKeyID) <> DeriveSigningKeyID pub)
      then Some (ErrorNew "action: signing key id does not match the verification key")
      else match hex_decode r.(Signature) with
      | None => Some (ErrorNew "action: decode signature")
      | Some signature =>
          if Verify pub (sha256 (CanonicalReceipt r)) signature then None
          else Some (ErrorNew "action: receipt signature does not verify")
      end
  | None => Some (ErrorWrap r.(SigningKeyID) ErrUnknownSignatureAlgorithm)
  end.

End Ed25519.

(** ** Lemmas: the wire forms *)

(** What the canonical bytes of a receipt say: the sealing fields are outside,
    and each era carries only its own fields. *)
Definition signable_v1 (r : Receipt) : Receipt :=
  {| ReceiptID := r.(ReceiptID); SchemaVersion := 0; ActionID := r.(ActionID); IntentDigest :=
     r.(IntentDigest); PrincipalID := r.(PrincipalID); AuthorityDigest := r.(AuthorityDigest);
     DecisionDigest := r.(DecisionDigest); ActionDigest := r.(ActionDigest); EffectClass :=
     r.(EffectClass); Attempt := r.(Attempt); Outcome := r.(Outcome); ResultDigest :=
     r.(ResultDigest); ApprovalDigest := ""; IdentityStatus := ""; RequesterPrincipalID := "";
     ActorPrincipalID := ""; ResponsiblePrincipalID := ""; IdentityEvidenceDigest := "";
     IdentitySnapshotDigest := ""; StartedAt := r.(StartedAt); FinishedAt := r.(FinishedAt);
     Partition := r.(Partition); ChainSeq := r.(ChainSeq); PreviousReceiptHash :=
     r.(PreviousReceiptHash); ReceiptHash := ""; SigningKeyID := ""; Signature := "" |}.

Definition signable_v2 (r : Receipt) : Receipt :=
  {| ReceiptID := r.(ReceiptID); SchemaVersion := r.(SchemaVersion); ActionID := r.(ActionID);
     IntentDigest := r.(IntentDigest); PrincipalID := r.(PrincipalID); AuthorityDigest :=
     r.(AuthorityDigest); DecisionDigest := r.(DecisionDigest); ActionDigest :=
     r.(ActionDigest); EffectClass := r.(EffectClass); Attempt := r.(Attempt); Outcome :=
     r.(Outcome); ResultDigest := r.(ResultDigest); ApprovalDigest := r.(ApprovalDigest);
     IdentityStatus := ""; RequesterPrincipalID := ""; ActorPrincipalID := "";
     ResponsiblePrincipalID := ""; IdentityEvidenceDigest := ""; IdentitySnapshotDigest := "";
     StartedAt := r.(StartedAt); FinishedAt := r.(FinishedAt); Partition := r.(Partition);
     ChainSeq := r.(ChainSeq); PreviousReceiptHash := r.(PreviousReceiptHash); ReceiptHash :=
     ""; SigningKeyID := ""; Signature := "" |}.

Definition signable_v3 (r : Receipt) : Receipt :=
  {| ReceiptID := r.(ReceiptID); SchemaVersion := r.(SchemaVersion); ActionID := r.(ActionID);
     IntentDigest := r.(IntentDigest); PrincipalID := r.(PrincipalID); AuthorityDigest :=
     r.(AuthorityDigest); DecisionDigest := r.(DecisionDigest); ActionDigest :=
     r.(ActionDigest); EffectClass := r.(EffectClass); Attempt := r.(Attempt); Outcome :=
     r.(Outcome); ResultDigest := r.(ResultDigest); ApprovalDigest := r.(ApprovalDigest);
     IdentityStatus := r.(IdentityStatus); RequesterPrincipalID := r.(RequesterPrincipalID);
     ActorPrincipalID := r.(ActorPrincipalID); ResponsiblePrincipalID :=
     r.(ResponsiblePrincipalID); IdentityEvidenceDigest := r.(IdentityEvidenceDigest);
     IdentitySnapshotDigest := r.(IdentitySnapshotDigest); StartedAt := r.(StartedAt);
     FinishedAt := r.(FinishedAt); Partition := r.(Partition); ChainSeq := r.(ChainSeq);
     PreviousReceiptHash := r.(PreviousReceiptHash); ReceiptHash := ""; SigningKeyID := "";
     Signature := "" |}.

Definition signable (r : Receipt) : Receipt :=
  if 3 <=? r.(SchemaVersion) then signable_v3 r
  else if 2 <=? r.(SchemaVersion) then signable_v2 r
  else signable_v1 r.

(** Receipts the wire form represents exactly. *)
Record receipt_text (r : Receipt) : Prop := {
  rt_strings : Forall utf8
    [r.(ReceiptID); r.(ActionID); r.(IntentDigest); r.(PrincipalID); r.(AuthorityDigest);
     r.(DecisionDigest); r.(ActionDigest); r.(EffectClass); r.(Outcome); r.(ResultDigest);
     r.(ApprovalDigest); r.(IdentityStatus); r.(RequesterPrincipalID); r.(ActorPrincipalID);
     r.(ResponsiblePrincipalID); r.(IdentityEvidenceDigest); r.(IdentitySnapshotDigest);
     r.(Partition); r.(PreviousReceiptHash)];
  rt_ints : Forall int64_range [r.(SchemaVersion); r.(Attempt); r.(ChainSeq)];
  rt_started : rfc3339_range r.(StartedAt);
  rt_finished : rfc3339_range r.(FinishedAt);
}.

Lemma schemas_ok : schema_ok receiptWire /\ schema_ok receiptWireV2 /\ schema_ok receiptWireV3.
Proof.
  assert (forall sch, bool_decide (NoDup sch.*1) = true ->
    forallb (fun f : string * kind => ascii_only f.1) sch = true -> schema_ok sch) as H.
  { intros sch H1 H2. split; [exact (bool_decide_eq_true_1 _ H1)|].
    apply Forall_forall. intros f Hf. eapply forallb_forall in H2; [done|by apply list_elem_of_In]. }
  split_and!; apply H; reflexivity.
Qed.

Lemma wire_typed r : receipt_text r ->
  typed receiptWire (wire_v1 r) /\ typed receiptWireV2 (wire_v2 r)
  /\ typed receiptWireV3 (wire_v3 r).
Proof.
  intros [Hs Hi _ _]. repeat (apply Forall_cons in Hs as [? Hs]).
  repeat (apply Forall_cons in Hi as [? Hi]).
  split_and!; unfold typed; repeat (constructor; [split; [reflexivity|]|]);
    simpl; try done; apply timeTerm_utf8.
Qed.

(** *** The version sniff *)

Lemma sniff_other p : find_field [("schema_version", KInt)] p.1 = None -> forall acc, sniff_member acc p = acc.
Proof. intros H acc. unfold sniff_member. by rewrite H. Qed.

Lemma sniff_others ms acc :
  Forall (fun p => find_field [("schema_version", KInt)] p.1 = None) ms ->
  fold_left sniff_member ms acc = acc.
Proof.
  intros H. revert acc. induction H as [|p ms Hp _ IH]; intros acc; [done|]. simpl.
  rewrite IH. by apply sniff_other.
Qed.

Lemma struct_names (P : string -> Prop) sch fs :
  typed sch fs -> Forall (fun f => P f.1) sch ->
  Forall (fun p => P p.1) (zip_with (fun f x => (f.1, slot_value x)) sch fs).
Proof.
  intros Ht Hs. induction Ht as [|f x sch fs _ _ IH]; [constructor|].
  apply Forall_cons in Hs as [Hf Hs]. constructor; [done|auto].
Qed.

Lemma sniff_v1 fs : typed receiptWire fs ->
  sniff_version (CanonicalParams (marshal receiptWire fs)) = 0.
Proof.
  intros Ht. destruct schemas_ok as [Hs _]. unfold sniff_version.
  destruct (CanonicalParams_parse (marshal receiptWire fs) (marshal_struct receiptWire fs))
    as [_ ->]; [by apply parse_print, marshal_struct_wf|].
  destruct (canon_marshal _ _ Hs Ht) as (ms & -> & Hp). apply sniff_others. rewrite Hp.
  apply (struct_names (fun n => find_field [("schema_version", KInt)] n = None)); [done|].
  repeat (constructor; [vm_compute; reflexivity|]). constructor.
Qed.

Lemma sniff_v23 sch z fs :
  schema_ok (("schema_version", KInt) :: sch) -> typed (("schema_version", KInt) :: sch) (SInt z :: fs) ->
  Forall (fun f => find_field [("schema_version", KInt)] f.1 = None) sch ->
  sniff_version (marshal (("schema_version", KInt) :: sch) (SInt z :: fs)) = z.
Proof.
  intros Hs Ht Hn. unfold sniff_version, marshal.
  rewrite parse_print by by apply marshal_struct_wf.
  inversion Ht as [|? ? ? ? [_ Hz] Ht']; subst. cbn [marshal_struct zip_with fold_left].
  rewrite sniff_others by by apply (struct_names (fun n => find_field _ n = None)).
  unfold sniff_member, slot_value, decode_slot, num. cbn [fst snd].
  rewrite parse_int64_Itoa by done. reflexivity.
Qed.

(** *** Times *)

Section RoundTrip.
Context (time_Parse : string -> option time).

(** What [time.Parse] promises about a formatted instant. *)
Definition parses_back (t : time) : Prop := time_Parse (rfc3339 t) = Some t.

Lemma parseTimeTerm_timeTerm t : parses_back t -> parseTimeTerm time_Parse (timeTerm t) = Some t.
Proof.
  intros Ht. unfold parseTimeTerm, timeTerm, time_is_zero.
  destruct (decide (t = 0)) as [->|Hne]; [done|].
  rewrite (bool_decide_eq_false_2 (t = 0)) by done.
  rewrite bool_decide_eq_false_2 by apply rfc3339_not_empty. apply Ht.
Qed.

Lemma receipt_of_wire r :
  parses_back r.(StartedAt) -> parses_back r.(FinishedAt) ->
  receipt_of_v1 time_Parse (wire_v1 r) = Ok (signable_v1 r)
  /\ receipt_of_v2 time_Parse (wire_v2 r) = Ok (signable_v2 r)
  /\ receipt_of_v3 time_Parse (wire_v3 r) = Ok (signable_v3 r).
Proof.
  intros Hs Hf.
  unfold receipt_of_v1, receipt_of_v2, receipt_of_v3, wire_v1, wire_v2, wire_v3, time_field.
  by rewrite !parseTimeTerm_timeTerm.
Qed.

Definition unknown_version : error :=
  ErrorNew "action: parse canonical receipt: unknown schema version".

Lemma parse_canonical r :
  receipt_text r -> parses_back r.(StartedAt) -> parses_back r.(FinishedAt) ->
  ParseCanonicalReceipt time_Parse (CanonicalReceipt r)
  = if r.(SchemaVersion) <=? 3 then Ok (signable r) else Err unknown_version.
Proof.
  intros Ht Hs Hf. destruct schemas_ok as (S1 & S2 & S3).
  destruct (wire_typed r Ht) as (T1 & T2 & T3).
  destruct (receipt_of_wire r Hs Hf) as (R1 & R2 & R3).
  assert (forall sch fs, schema_ok sch -> typed sch fs ->
    strictUnmarshal sch (marshal sch fs) = Some fs) as Hm.
  { intros sch fs H1 H2. rewrite <- (str_app_nil (marshal sch fs)).
    by apply strictUnmarshal_marshal. }
  unfold ParseCanonicalReceipt, CanonicalReceipt, signable, parse_era.
  destruct (3 <=? r.(SchemaVersion)) eqn:E3; [|destruct (2 <=? r.(SchemaVersion)) eqn:E2]; bools.
  - assert (sniff_version (marshal receiptWireV3 (wire_v3 r)) = r.(SchemaVersion)) as ->.
    { apply sniff_v23; [done|done|]. repeat (constructor; [vm_compute; reflexivity|]). constructor. }
    rewrite Hm, R3 by done. rewrite (proj2 (Z.eqb_neq _ 0)), (proj2 (Z.eqb_neq _ 2)) by lia.
    destruct (Z.eqb_spec r.(SchemaVersion) 3) as [->|]; [done|].
    by rewrite (proj2 (Z.leb_gt _ _)) by lia.
  - assert (sniff_version (marshal receiptWireV2 (wire_v2 r)) = r.(SchemaVersion)) as ->.
    { apply sniff_v23; [done|done|]. repeat (constructor; [vm_compute; reflexivity|]). constructor. }
    assert (r.(SchemaVersion) = 2) as -> by lia. by rewrite Hm, R2.
  - rewrite sniff_v1 by done. rewrite (proj2 (Z.leb_le _ 3)) by lia. simpl.
    rewrite <- (str_app_nil (CanonicalParams _)).
    by rewrite strictUnmarshal_canonical, R1.
Qed.

End RoundTrip.

(** ** The ledger *)

#[export] Instance receipt_eq_dec : EqDecision Receipt.
Proof. solve_decision. Defined.

Definition ledgerPartition : string := "main".

(** A row of the key registry: the public key in hexadecimal, and when the
    key was retired (empty while active). *)
Record SigningKey := { PublicKeyHex : string; RetiredAt : string }.

Definition PublicKeySize : nat := 32.

Definition place (seq : Z) (prev : string) (r : Receipt) : Receipt :=
  {| ReceiptID := r.(ReceiptID); SchemaVersion := r.(SchemaVersion); ActionID := r.(ActionID);
     IntentDigest := r.(IntentDigest); PrincipalID := r.(PrincipalID);
     AuthorityDigest := r.(AuthorityDigest); DecisionDigest := r.(DecisionDigest);
     ActionDigest := r.(ActionDigest); EffectClass := r.(EffectClass); Attempt := r.(Attempt);
     Outcome := r.(Outcome); ResultDigest := r.(ResultDigest); ApprovalDigest := r.(ApprovalDigest);
     IdentityStatus := r.(IdentityStatus); RequesterPrincipalID := r.(RequesterPrincipalID);
     ActorPrincipalID := r.(ActorPrincipalID); ResponsiblePrincipalID := r.(ResponsiblePrincipalID);
     IdentityEvidenceDigest := r.(IdentityEvidenceDigest);
     IdentitySnapshotDigest := r.(IdentitySnapshotDigest); StartedAt := r.(StartedAt);
     FinishedAt := r.(FinishedAt); Partition := ledgerPartition; ChainSeq := seq;
     PreviousReceiptHash := prev; ReceiptHash := r.(ReceiptHash);
     SigningKeyID := r.(SigningKeyID); Signature := r.(Signature) |}.

Definition refused (what : string) : error := ErrorNew ("action/sqlite: " +:+ what).

Section Ledger.
Context (Verify : string -> string -> string -> bool).

(** [appendReceiptTx] on the rows of the partition, newest first, and the key
    registry.  A store without a sealer writes no receipt. *)
Definition appendReceiptTx (sealer : option (Receipt -> Receipt)) (keys : gmap string SigningKey)
    (ledger : list Receipt) (r : Receipt) : result (list Receipt) :=
  match sealer with
  | None => Ok ledger
  | Some seal =>
      let placed := match ledger with
                    | [] => place 0 GenesisPreviousHash r
                    | head :: _ => place (wrap64 (head.(ChainSeq) + 1)) head.(ReceiptHash) r
                    end in
      let pre := set_seal (ComputeReceiptHash placed) placed.(SigningKeyID) placed.(Signature) placed in
      let sealed := seal pre in
      if bool_decide (set_seal pre.(ReceiptHash) pre.(SigningKeyID) pre.(Signature) sealed <> pre)
      then Err (refused "receipt_mutated_at_birth")
      else if bool_decide (ComputeReceiptHash sealed <> sealed.(ReceiptHash))
      then Err (refused "receipt_hash_invalid_at_birth")
      else if bool_decide (sealed.(SigningKeyID) = "")
      then Err (refused "receipt_unsigned")
      else match keys !! sealed.(SigningKeyID) with
      | None => Err (refused "signing_key_unregistered")
      | Some key =>
          if bool_decide (key.(RetiredAt) <> "") then Err (refused "signing_key_retired")
          else match hex_decode key.(PublicKeyHex) with
          | None => Err (refused "key_registry_unavailable")
          | Some pub =>
              if bool_decide (String.length pub <> PublicKeySize)
              then Err (refused "key_registry_unavailable")
              else if bool_decide (sealed.(Signature) = "")
              then Err (refused "signature_invalid_at_birth")
              else match VerifyReceiptSignature Verify pub sealed with
              | Some _ => Err (refused "signature_invalid_at_birth")
              | None => Ok (sealed :: ledger)
              end
          end
      end
  end.

End Ledger.

(** A verifiable chain, newest receipt first: every hash is recomputed, every
    link checked down to the genesis. *)
Inductive chain_ok : list Receipt -> Prop :=
| chain_empty : chain_ok []
| chain_first r :
    r.(Partition) = ledgerPartition -> r.(ChainSeq) = 0 ->
    r.(PreviousReceiptHash) = GenesisPreviousHash ->
    r.(ReceiptHash) = ComputeReceiptHash r -> chain_ok [r]
| chain_next r prev l :
    chain_ok (prev :: l) -> r.(Partition) = ledgerPartition ->
    r.(ChainSeq) = wrap64 (prev.(ChainSeq) + 1) ->
    r.(PreviousReceiptHash) = prev.(ReceiptHash) ->
    r.(ReceiptHash) = ComputeReceiptHash r -> chain_ok (r :: prev :: l).

(** ** Theorems *)

Lemma CanonicalReceipt_seal r h k sg : CanonicalReceipt (set_seal h k sg r) = CanonicalReceipt r.
Proof. done. Qed.

Lemma chain_head r l : chain_ok (r :: l) -> r.(ReceiptHash) = ComputeReceiptHash r.
Proof. by inversion 1. Qed.

Lemma set_seal_eq h k sg r p :
  set_seal h k sg r = p ->
  r.(Partition) = p.(Partition) /\ r.(ChainSeq) = p.(ChainSeq)
  /\ r.(PreviousReceiptHash) = p.(PreviousReceiptHash) /\ CanonicalReceipt r = CanonicalReceipt p.
Proof. intros <-. done. Qed.

Lemma appendReceiptTx_Ok Verify sealer keys ledger r ledger' :
  chain_ok ledger -> appendReceiptTx Verify sealer keys ledger r = Ok ledger' ->
  chain_ok ledger'
  /\ (ledger' = ledger /\ sealer = None
      \/ exists x key pub, ledger' = x :: ledger
         /\ keys !! x.(SigningKeyID) = Some key /\ key.(RetiredAt) = ""
         /\ hex_decode key.(PublicKeyHex) = Some pub
         /\ VerifyReceiptSignature Verify pub x = None
         /\ set_seal "" "" "" x
            = set_seal "" "" "" (place x.(ChainSeq) x.(PreviousReceiptHash) r)).
Proof.
  intros Hok. unfold appendReceiptTx. destruct sealer as [seal|]; [|intros [= <-]; auto].
  set (placed := match ledger with [] => _ | head :: _ => _ end).
  set (pre := set_seal (ComputeReceiptHash placed) _ _ placed). set (x := seal pre).
  case_bool_decide as E1; [done|]. case_bool_decide as E2; [done|].
  case_bool_decide as E3; [done|]. destruct (keys !! x.(SigningKeyID)) as [key|] eqn:Ek; [|done].
  case_bool_decide as E4; [done|]. destruct (hex_decode key.(PublicKeyHex)) as [pub|] eqn:Ep; [|done].
  case_bool_decide as E5; [done|]. case_bool_decide as E6; [done|].
  destruct (VerifyReceiptSignature Verify pub x) eqn:Ev; [done|]. intros [= <-].
  assert (set_seal pre.(ReceiptHash) pre.(SigningKeyID) pre.(Signature) x = pre) as Ex
    by (by destruct (decide (set_seal pre.(ReceiptHash) pre.(SigningKeyID) pre.(Signature) x = pre))).
  destruct (set_seal_eq _ _ _ _ _ Ex) as (X1 & X2 & X3 & X4).
  assert (x.(ReceiptHash) = ComputeReceiptHash x) as X5
    by (destruct (decide (ComputeReceiptHash x = x.(ReceiptHash))); [done|by destruct E2]).
  split.
  - destruct ledger as [|head l].
    + by apply chain_first.
    + by apply chain_next.
  - right. exists x, key, pub.
    assert (key.(RetiredAt) = "") by (by destruct (decide (key.(RetiredAt) = ""))).
    split_and!; try done.
    rewrite X2, X3.
    assert (set_seal "" "" "" x = set_seal "" "" "" pre) as -> by (by rewrite <- Ex).
    subst pre placed. by destruct ledger.
Qed.

(** C35.  Every receipt the ledger accepts extends a verifiable chain by
    exactly one link: it says what the transaction built (the sealer only adds
    the seal), its hash re-derives from the canonical bytes, it carries the
    hash of the previous head, and its signature verifies against the key
    registered, unretired, under the id it names.  A refusal changes nothing
    and a store without a sealer writes nothing. *)
Theorem ledger_appends_verified_links Verify sealer keys ledger r ledger' :
  chain_ok ledger -> appendReceiptTx Verify sealer keys ledger r = Ok ledger' ->
  chain_ok ledger'
  /\ (ledger' = ledger /\ sealer = None
      \/ exists x key pub, ledger' = x :: ledger
         /\ keys !! x.(SigningKeyID) = Some key /\ key.(RetiredAt) = ""
         /\ hex_decode key.(PublicKeyHex) = Some pub
         /\ VerifyReceiptSignature Verify pub x = None
         /\ set_seal "" "" "" x
            = set_seal "" "" "" (place x.(ChainSeq) x.(PreviousReceiptHash) r)).
Proof. apply appendReceiptTx_Ok. Qed.


(** A parser that knows the instants of two receipts. *)
Definition recall_times (ts : list time) (s : string) : option time :=
  snd <$> list_find (fun t => rfc3339 t = s) ts.

Lemma recall_times_back ts t :
  Forall rfc3339_range ts -> t ∈ ts -> parses_back (recall_times ts) t.
Proof.
  intros Hr Hin. unfold parses_back, recall_times.
  destruct (list_find (fun x => rfc3339 x = rfc3339 t) ts) as [[i x]|] eqn:E; simpl.
  - apply list_find_Some in E as (Hi & Hx & _). f_equal.
    rewrite Forall_forall in Hr. apply rfc3339_inj; [|by apply Hr|done].
    apply Hr. by eapply list_elem_of_lookup_2.
  - apply list_find_None in E. rewrite Forall_forall in E. by destruct (E t Hin).
Qed.

(** Receipts of the eras this code writes. *)
Definition known_era (r : Receipt) : Prop := r.(SchemaVersion) <= 3.

Lemma canonical_inj r r' :
  receipt_text r -> receipt_text r' -> known_era r -> known_era r' ->
  CanonicalReceipt r = CanonicalReceipt r' -> signable r = signable r'.
Proof.
  intros Ht Ht' He He' H.
  set (ts := [r.(StartedAt); r.(FinishedAt); r'.(StartedAt); r'.(FinishedAt)]).
  assert (Forall rfc3339_range ts) as Hr.
  { destruct Ht, Ht'. by repeat apply Forall_cons_2. }
  assert (forall t, t ∈ ts -> parses_back (recall_times ts) t) as Hb
    by (intros; by apply recall_times_back).
  assert (parses_back (recall_times ts) r.(StartedAt)
    /\ parses_back (recall_times ts) r.(FinishedAt)
    /\ parses_back (recall_times ts) r'.(StartedAt)
    /\ parses_back (recall_times ts) r'.(FinishedAt)) as (B1 & B2 & B3 & B4)
    by (split_and!; apply Hb; subst ts; set_solver).
  pose proof (parse_canonical (recall_times ts) r Ht B1 B2) as P.
  pose proof (parse_canonical (recall_times ts) r' Ht' B3 B4) as P'.
  rewrite H, P' in P. unfold known_era in *. rewrite !(proj2 (Z.leb_le _ 3)) in P by done.
  by injection P.
Qed.

Lemma canonical_not_empty r : receipt_text r -> CanonicalReceipt r <> "".
Proof.
  intros Ht H.
  destruct (wire_typed r Ht) as (T1 & T2 & T3). destruct schemas_ok as (S1 & S2 & S3).
  unfold CanonicalReceipt in H.
  assert (forall v, wf 0 v -> print v <> "") as Hp.
  { intros v Hv E. pose proof (parse_print v Hv) as X. by rewrite E in X. }
  repeat case_match; [by eapply (Hp (marshal_struct _ _)); [apply marshal_struct_wf|]..|].
  destruct (CanonicalParams_parse (marshal receiptWire (wire_v1 r))
    (marshal_struct receiptWire (wire_v1 r))) as [E _]; [by apply parse_print, marshal_struct_wf|].
  rewrite E in H. eapply (Hp (canon _)); [|exact H]. by apply canon_wf, marshal_struct_wf.
Qed.

Lemma genesis_is_empty : GenesisPreviousHash = pinned (sha256 "").
Proof. vm_compute. reflexivity. Qed.

(** The canonical forms a chain hashes, and the empty input of the genesis. *)
Definition preimages (l : list Receipt) : list string := "" :: map CanonicalReceipt l.

Lemma ComputeReceiptHash_eq r a : ComputeReceiptHash r = pinned (sha256 a) ->
  CanonicalReceipt r = a \/ sha256_collision (CanonicalReceipt r) a.
Proof. unfold ComputeReceiptHash. by rewrite pinned_inj, sha256_eq_iff. Qed.

Lemma preimages_cons r l s : s ∈ preimages l -> s ∈ preimages (r :: l).
Proof. unfold preimages. simpl. rewrite !elem_of_cons. tauto. Qed.

Lemma preimages_head r l : CanonicalReceipt r ∈ preimages (r :: l).
Proof. right. by left. Qed.

(** The hash a chain ends in. *)
Definition tip (l : list Receipt) : string :=
  match l with r :: _ => r.(ReceiptHash) | [] => GenesisPreviousHash end.

Lemma chain_inv r l :
  chain_ok (r :: l) ->
  chain_ok l /\ r.(PreviousReceiptHash) = tip l /\ r.(ReceiptHash) = ComputeReceiptHash r.
Proof. inversion 1; subst; split_and!; try done. constructor. Qed.

Lemma signable_previous r r' :
  signable r = signable r' -> r.(PreviousReceiptHash) = r'.(PreviousReceiptHash).
Proof.
  assert (forall x, (signable x).(PreviousReceiptHash) = x.(PreviousReceiptHash)) as H.
  { intros x. unfold signable. by repeat case_match. }
  intros E. by rewrite <- (H r), E.
Qed.

Lemma hash_collides r l a :
  r.(ReceiptHash) = ComputeReceiptHash r -> r.(ReceiptHash) = pinned (sha256 a) ->
  CanonicalReceipt r = a \/ exists x, x ∈ preimages (r :: l) /\ sha256_collision x a.
Proof.
  intros H E. rewrite H in E. apply ComputeReceiptHash_eq in E as [|Hc]; [by left|right].
  exists (CanonicalReceipt r). split; [apply preimages_head|done].
Qed.


(** A seal made with a key verifies under that key's public half, and
    verification accepts nothing else: the algorithm prefix must be the known
    one, the key id must be the one derived from the verification key, and the
    signature must verify over the digest recomputed from the receipt. *)
Theorem receipt_signature_is_checked_over_recomputed_bytes
    (PrivateKey : Type) (Public : PrivateKey -> string)
    (Sign : PrivateKey -> string -> string) (Verify : string -> string -> string -> bool) :
  (forall k m, Verify (Public k) m (Sign k m) = true) ->
  (forall priv r, VerifyReceiptSignature Verify (Public priv)
      (SignReceipt PrivateKey Public Sign priv r) = None)
  /\ forall pub r, VerifyReceiptSignature Verify pub r = None <->
      r.(SigningKeyID) = DeriveSigningKeyID pub
      /\ exists signature, hex_decode r.(Signature) = Some signature
         /\ Verify pub (sha256 (CanonicalReceipt r)) signature = true.
Proof.
  intros HV.
  assert (forall pub r, VerifyReceiptSignature Verify pub r = None <->
      r.(SigningKeyID) = DeriveSigningKeyID pub
      /\ exists signature, hex_decode r.(Signature) = Some signature
         /\ Verify pub (sha256 (CanonicalReceipt r)) signature = true) as Hiff.
  { intros pub r. unfold VerifyReceiptSignature. split.
    - destruct (cut_colon _) as [[alg rest]|] eqn:Ec; [|done].
      case_bool_decide; [done|]. case_bool_decide as Ek; [done|].
      destruct (hex_decode _) as [sg|]; [|done]. destruct (Verify _ _ sg) eqn:Ev; [|done].
      intros _. split; [|by exists sg].
      by destruct (decide (r.(SigningKeyID) = DeriveSigningKeyID pub)).
    - intros [Hk (sg & Hs & Hv)].
      assert (cut_colon (DeriveSigningKeyID pub)
        = Some (signingAlgorithm, str_take 16 (hex_encode (sha256 pub)))) as Hc by reflexivity.
      rewrite Hk, Hc. rewrite bool_decide_eq_false_2 by tauto.
      rewrite bool_decide_eq_false_2 by tauto. by rewrite Hs, Hv. }
  split; [|exact Hiff]. intros priv r. apply Hiff. split; [done|].
  eexists. split; [apply hex_decode_encode|]. apply HV.
Qed.

(** ** What the strict parser lets through *)

Definition empty_receipt : Receipt :=
  {| ReceiptID := ""; SchemaVersion := 0; ActionID := ""; IntentDigest := ""; PrincipalID := "";
     AuthorityDigest := ""; DecisionDigest := ""; ActionDigest := ""; EffectClass := "";
     Attempt := 0; Outcome := ""; ResultDigest := ""; ApprovalDigest := ""; IdentityStatus := "";
     RequesterPrincipalID := ""; ActorPrincipalID := ""; ResponsiblePrincipalID := "";
     IdentityEvidenceDigest := ""; IdentitySnapshotDigest := ""; StartedAt := 0; FinishedAt := 0;
     Partition := ""; ChainSeq := 0; PreviousReceiptHash := ""; ReceiptHash := "";
     SigningKeyID := ""; Signature := "" |}.

Lemma sniff_trailing v rest :
  wf 0 v -> ends_value rest -> skip_space rest <> "" -> sniff_version (print v +:+ rest) = 0.
Proof.
  intros Hv Hr Hn. pose proof (decode_prefix_print v rest Hv Hr) as E.
  unfold sniff_version, parse. unfold decode_prefix in E. rewrite E.
  by destruct (skip_space rest).
Qed.

(** The strict parser is not as strict as its comment: [Decoder.More]
    only answers for elements of an enclosing array or object, so any bytes
    after a version 1 receipt are accepted as long as they begin with a
    closing bracket, and neither [null] nor an empty object is refused. *)
Theorem strict_parse_accepts_trailing_brackets (time_Parse : string -> option time) (r : Receipt)
    (garbage : string) :
  receipt_text r -> r.(SchemaVersion) < 2 ->
  time_Parse (rfc3339 r.(StartedAt)) = Some r.(StartedAt) ->
  time_Parse (rfc3339 r.(FinishedAt)) = Some r.(FinishedAt) ->
  ParseCanonicalReceipt time_Parse (CanonicalReceipt r +:+ String "}" garbage) = Ok (signable r)
  /\ ParseCanonicalReceipt time_Parse "null" = Ok empty_receipt
  /\ ParseCanonicalReceipt time_Parse "{}" = Ok empty_receipt.
Proof.
  intros Ht Hv Hs Hf. split; [|split; reflexivity].
  destruct schemas_ok as (S1 & _). destruct (wire_typed r Ht) as (T1 & _).
  destruct (receipt_of_wire time_Parse r Hs Hf) as (R1 & _).
  unfold CanonicalReceipt, signable. rewrite !(proj2 (Z.leb_gt _ _)) by lia.
  assert (sniff_version (CanonicalParams (marshal receiptWire (wire_v1 r)) +:+ String "}" garbage)
    = 0) as Hsn.
  { destruct (CanonicalParams_parse (marshal receiptWire (wire_v1 r))
      (marshal_struct receiptWire (wire_v1 r))) as [-> _];
      [by apply parse_print, marshal_struct_wf|].
    by apply sniff_trailing; [apply canon_wf, marshal_struct_wf| |]. }
  unfold ParseCanonicalReceipt, parse_era. rewrite Hsn. simpl.
  by rewrite strictUnmarshal_canonical, R1.
Qed.

(** ** Concrete receipts *)

Definition example_receipt (outcome : string) : Receipt :=
  {| ReceiptID := "rcpt_1"; SchemaVersion := 1; ActionID := "act_1"; IntentDigest := "";
     PrincipalID := "principal_operator"; AuthorityDigest := ""; DecisionDigest := "";
     ActionDigest := ""; EffectClass := EffectPure; Attempt := 1; Outcome := outcome;
     ResultDigest := ""; ApprovalDigest := ""; IdentityStatus := ""; RequesterPrincipalID := "";
     ActorPrincipalID := ""; ResponsiblePrincipalID := ""; IdentityEvidenceDigest := "";
     IdentitySnapshotDigest := ""; StartedAt := 0; FinishedAt := 5 * Second;
     Partition := "main"; ChainSeq := 0; PreviousReceiptHash := GenesisPreviousHash;
     ReceiptHash := ""; SigningKeyID := ""; Signature := "" |}.

Lemma example_text o : ascii_only o = true -> receipt_text (example_receipt o).
Proof.
  intros Ho. split; simpl.
  - repeat (apply Forall_cons; split; [by apply ascii_only_utf8|]). constructor.
  - repeat (apply Forall_cons; split; [by split|]). constructor.
  - by split.
  - by split.
Qed.


Lemma strict_parse_accepts_trailing_brackets_witness :
  ParseCanonicalReceipt (recall_times [0; 5 * Second])
    (CanonicalReceipt (example_receipt "SUCCEEDED") +:+ "}garbage")
  = Ok (signable (example_receipt "SUCCEEDED")).
Proof.
  apply (strict_parse_accepts_trailing_brackets (recall_times [0; 5 * Second])
    (example_receipt "SUCCEEDED") "garbage").
  - by apply example_text.
  - reflexivity.
  - vm_compute. reflexivity.
  - vm_compute. reflexivity.
Defined.

(** A toy signature scheme: the signature of [m] is the key followed by [m]. *)
Definition toy_sign (k m : string) : string := k +:+ m.
Definition toy_verify (pub m sig : string) : bool := bool_decide (sig = pub +:+ m).

Lemma receipt_signature_is_checked_over_recomputed_bytes_witness :
  VerifyReceiptSignature toy_verify "key"
    (SignReceipt string id toy_sign "key" (example_receipt "FAILED")) = None.
Proof.
  assert (forall k m, toy_verify (id k) m (toy_sign k m) = true) as H
    by (intros k m; by apply bool_decide_eq_true_2).
  exact (proj1 (receipt_signature_is_checked_over_recomputed_bytes string id toy_sign toy_verify H)
    "key" (example_receipt "FAILED")).
Defined.

Lemma receipt_text_seal h k sg r : receipt_text r -> receipt_text (set_seal h k sg r).
Proof. by intros []; split. Qed.

Definition example_sealed : Receipt :=
  set_seal (ComputeReceiptHash (example_receipt "SUCCEEDED")) "" "" (example_receipt "SUCCEEDED").


Definition example_key : string := "0123456789abcdef0123456789abcdef".

Definition example_keys : gmap string SigningKey :=
  {[ DeriveSigningKeyID example_key :=
       {| PublicKeyHex := hex_encode example_key; RetiredAt := "" |} ]}.

Lemma ledger_appends_verified_links_witness :
  match appendReceiptTx toy_verify (Some (SignReceipt string id toy_sign example_key)) example_keys
          [] (example_receipt "SUCCEEDED") with
  | Ok l => chain_ok l
  | Err _ => False
  end.
Proof.
  pose proof (ledger_appends_verified_links toy_verify
    (Some (SignReceipt string id toy_sign example_key)) example_keys []
    (example_receipt "SUCCEEDED")
    [SignReceipt string id toy_sign example_key example_sealed] chain_empty) as H.
  assert (appendReceiptTx toy_verify (Some (SignReceipt string id toy_sign example_key))
    example_keys [] (example_receipt "SUCCEEDED")
    = Ok [SignReceipt string id toy_sign example_key example_sealed]) as E
    by (vm_compute; reflexivity).
  rewrite E. exact (proj1 (H E)).
Defined.
