(* ===== verification/Approvals.v ===== *)
(** * Approvals: requests, previews and the bundle born whole

    [internal/action/approval.go], [preview.go] and [bound.go].  [time.Parse]
    and the verb [%q] of [fmt] are parameters. *)

From S2P Require Import Prelude Kernel Grants Json Text Encoding Digests Wire.
From Stdlib Require Import Ascii String.
Import Effect.
Local Open Scope Z_scope.
Local Open Scope korvun_scope.
#[local] Arguments String.append !_ _ : simpl nomatch.

(** ** The vocabulary *)

Definition ApprovalStatus := string.
Definition ApprovalPending : ApprovalStatus := "PENDING".
Definition ApprovalApproved : ApprovalStatus := "APPROVED".
Definition ApprovalRejected : ApprovalStatus := "REJECTED".
Definition ApprovalExpired : ApprovalStatus := "EXPIRED".
Definition ApprovalCancelled : ApprovalStatus := "CANCELLED".

Definition DecisionApproved : string := "approved".
Definition DecisionRejected : string := "rejected".
Definition DecisionCancelled : string := "cancelled".
Definition DecisionClock : string := "clock".

Definition IsHumanDecision (decision : string) : bool :=
  contains [DecisionApproved; DecisionRejected; DecisionCancelled] decision.

Definition RuleApprovalInvalidated : string := "approval_invalidated".
Definition RuleApprovalExpired : string := "approval_expired".
Definition RuleApprovalAlreadyDecided : string := "approval_already_decided".

Module Approval.

Record t := {
  ApprovalID : string;
  SchemaVersion : Z;
  ActionID : string;
  ActionDigest : string;
  PreviewDigest : string;
  RequestedFrom : string;
  Reason : string;
  RiskSummary : string;
  PolicyVersion : Z;
  PolicyDigest : string;
  RequestedAt : time;
  ExpiresAt : time;
  Status : ApprovalStatus;
  DecisionPrincipalID : string;
  Decision : string;
  DecisionAt : time;
  Comment : string;
  DecisionReceiptID : string;
}.

End Approval.

Module ActionPreview.

Record t := {
  ActionID : string;
  SchemaVersion : Z;
  IntentPurpose : string;
  PrincipalID : string;
  GrantID : string;
  GrantDepth : Z;
  Operation : string;
  Resources : list string;
  DataEgress : string;
  ArgsDigest : string;
  CostLine : string;
  EffectClass : EffectClass;
  Reversibility : string;
  ToolCage : string;
  PolicyVersion : Z;
  PolicyDigest : string;
  RequiredRule : string;
}.

End ActionPreview.

(** ** Identities: [^(?:apr|apr3)_[0-9a-f]{32}$] *)

Definition strictApprovalPrefix : string := "apr3_".

Definition ValidApprovalID (id : string) : bool :=
  id_shape "apr_" id || id_shape strictApprovalPrefix id.

Definition NewApprovalID (rand16 : string) : string := "apr_" +:+ hex_encode rand16.
Definition NewStrictApprovalID (rand16 : string) : string :=
  strictApprovalPrefix +:+ hex_encode rand16.

Definition IsStrictApprovalID (id : string) : bool :=
  match strip_prefix strictApprovalPrefix id with Some _ => true | None => false end.

(** ** The preview *)

Section Preview.
Import ActionPreview.

Definition preview_terms (p : ActionPreview.t) : list (string * value) :=
  [("action_id", VString p.(ActionID)); ("schema_version", num p.(SchemaVersion));
   ("purpose", VString p.(IntentPurpose)); ("principal", VString p.(PrincipalID));
   ("grant", VString p.(GrantID)); ("depth", num p.(GrantDepth));
   ("operation", VString p.(Operation)); ("resources", string_set p.(Resources));
   ("egress", VString p.(DataEgress)); ("args_digest", VString p.(ArgsDigest));
   ("cost", VString p.(CostLine)); ("effect_class", VString p.(EffectClass));
   ("reversibility", VString p.(Reversibility)); ("cage", VString p.(ToolCage));
   ("policy_version", num p.(PolicyVersion)); ("policy_digest", VString p.(PolicyDigest));
   ("required_rule", VString p.(RequiredRule))].

Definition ActionPreview_Digest (p : ActionPreview.t) : string :=
  HashCanonical (contractTerms (preview_terms p)).

(** [CanonicalPreview]: the struct in declaration order. *)
Definition CanonicalPreview (p : ActionPreview.t) : string :=
  print (VObject
  [("action_id", VString p.(ActionID)); ("schema_version", num p.(SchemaVersion));
   ("intent_purpose", VString p.(IntentPurpose)); ("principal_id", VString p.(PrincipalID));
   ("grant_id", VString p.(GrantID)); ("grant_depth", num p.(GrantDepth));
   ("operation", VString p.(Operation)); ("resources", string_set p.(Resources));
   ("data_egress", VString p.(DataEgress)); ("args_digest", VString p.(ArgsDigest));
   ("cost_line", VString p.(CostLine)); ("effect_class", VString p.(EffectClass));
   ("reversibility", VString p.(Reversibility)); ("tool_cage", VString p.(ToolCage));
   ("policy_version", num p.(PolicyVersion)); ("policy_digest", VString p.(PolicyDigest));
   ("required_rule", VString p.(RequiredRule))]).

End Preview.

(** ** The approval *)

Section ApprovalWire.
Import Approval.

Definition approvalWire : schema :=
  [("approval_id", KString); ("schema_version", KInt); ("action_id", KString);
   ("action_digest", KString); ("preview_digest", KString); ("requested_from", KString);
   ("reason", KString); ("risk_summary", KString); ("policy_version", KInt);
   ("policy_digest", KString); ("requested_at", KString); ("expires_at", KString);
   ("status", KString); ("decision_principal_id", KString); ("decision", KString);
   ("decision_at", KString); ("comment", KString); ("decision_receipt_id", KString)].

Definition approval_wire (a : Approval.t) : list slot :=
  [SString a.(ApprovalID); SInt a.(SchemaVersion); SString a.(ActionID);
   SString a.(ActionDigest); SString a.(PreviewDigest); SString a.(RequestedFrom);
   SString a.(Reason); SString a.(RiskSummary); SInt a.(PolicyVersion);
   SString a.(PolicyDigest); SString (timeTerm a.(RequestedAt));
   SString (timeTerm a.(ExpiresAt)); SString a.(Status); SString a.(DecisionPrincipalID);
   SString a.(Decision); SString (timeTerm a.(DecisionAt)); SString a.(Comment);
   SString a.(DecisionReceiptID)].

Definition CanonicalApproval (a : Approval.t) : string := marshal approvalWire (approval_wire a).

Section Parse.
Context (time_Parse : string -> option time).

Definition parse_time_term (raw : string) : option time :=
  if bool_decide (raw = "") then Some 0 else time_Parse raw.

Definition approval_time (name raw : string) : result time :=
  match parse_time_term raw with
  | Some t => Ok t
  | None => Err (ErrorNew ("action: parse approval " +:+ name))
  end.

Definition approval_of_wire (fs : list slot) : result Approval.t :=
  match fs with
  | [SString approval_id; SInt schema_version; SString action_id; SString action_digest;
       SString preview_digest; SString requested_from; SString reason; SString risk_summary;
       SInt policy_version; SString policy_digest; SString requested_at_text; SString
       expires_at_text; SString status; SString decision_principal_id; SString decision;
       SString decision_at_text; SString comment; SString decision_receipt_id] =>
      let? requested_at := approval_time "requested_at" requested_at_text in
      let? expires_at := approval_time "expires_at" expires_at_text in
      let? decision_at := approval_time "decision_at" decision_at_text in
      Ok {| ApprovalID := approval_id; SchemaVersion := schema_version; ActionID := action_id;
            ActionDigest := action_digest; PreviewDigest := preview_digest; RequestedFrom :=
            requested_from; Reason := reason; RiskSummary := risk_summary; PolicyVersion :=
            policy_version; PolicyDigest := policy_digest; RequestedAt := requested_at;
            ExpiresAt := expires_at; Status := status; DecisionPrincipalID :=
            decision_principal_id; Decision := decision; DecisionAt := decision_at; Comment :=
            comment; DecisionReceiptID := decision_receipt_id |}
  | _ => Err (ErrorNew "action: parse canonical approval")
  end.

Definition ParseCanonicalApproval (raw : string) : result Approval.t :=
  match strictUnmarshal approvalWire raw with
  | Some fs => approval_of_wire fs
  | None => Err (ErrorNew "action: parse canonical approval")
  end.

End Parse.

(** [Approval.Digest]; [q] renders a string the way [%q] does. *)
Definition key (k : string) : string := quote k +:+ ":".

Definition decision_text (q : string -> string) (a : Approval.t) : string :=
  "{" +:+ key "action_digest" +:+ q a.(ActionDigest)
  +:+ "," +:+ key "approval_id" +:+ q a.(ApprovalID)
  +:+ "," +:+ key "decided_at" +:+ q (timeTerm a.(DecisionAt))
  +:+ "," +:+ key "decider" +:+ q a.(DecisionPrincipalID)
  +:+ "," +:+ key "decision" +:+ q a.(Decision)
  +:+ "," +:+ key "policy_digest" +:+ q a.(PolicyDigest)
  +:+ "," +:+ key "policy_version" +:+ Itoa a.(PolicyVersion)
  +:+ "," +:+ key "preview_digest" +:+ q a.(PreviewDigest) +:+ "}".

Definition Approval_Digest (q : string -> string) (a : Approval.t) : string :=
  HashCanonical (decision_text q a).

End ApprovalWire.

(** ** The laws of the consume touch *)

Definition ValidateApprovalBinding (a : Approval.t) (actionDigest : string) (policyVersion : Z)
    (policyDigest : string) : string * string :=
  if bool_decide (a.(Approval.ActionDigest) <> actionDigest)
  then (RuleApprovalInvalidated, "digest")
  else if bool_decide (a.(Approval.PolicyVersion) <> policyVersion)
          || bool_decide (a.(Approval.PolicyDigest) <> policyDigest)
  then (RuleApprovalInvalidated, "policy")
  else ("", "").

Definition ValidatePreviewBinding (a : Approval.t) (p : ActionPreview.t) : option error :=
  fail_if (bool_decide (ActionPreview_Digest p <> a.(Approval.PreviewDigest)))
    (ErrorNew "preview_digest_mismatch") ;;;
  fail_if (bool_decide (p.(ActionPreview.PolicyVersion) <> a.(Approval.PolicyVersion))
           || bool_decide (p.(ActionPreview.PolicyDigest) <> a.(Approval.PolicyDigest)))
    (ErrorNew "preview_policy_mismatch") ;;;
  fail_if (bool_decide (p.(ActionPreview.ArgsDigest) <> a.(Approval.ActionDigest)))
    (ErrorNew "preview_args_mismatch") ;;;
  fail_if (bool_decide (p.(ActionPreview.RequiredRule) <> a.(Approval.Reason)))
    (ErrorNew "preview_rule_mismatch").

Definition EffectiveStatusAt (a : Approval.t) (now : time) : ApprovalStatus :=
  if bool_decide (a.(Approval.Status) = ApprovalPending)
     && negb (time_is_zero a.(Approval.ExpiresAt))
     && negb (time_before now a.(Approval.ExpiresAt))
  then ApprovalExpired else a.(Approval.Status).

Definition ApprovalConsumableAt (a : Approval.t) (at_ : time) : string :=
  if bool_decide (a.(Approval.Status) <> ApprovalPending) then RuleApprovalAlreadyDecided
  else if negb (time_is_zero a.(Approval.ExpiresAt))
          && negb (time_before at_ a.(Approval.ExpiresAt))
  then RuleApprovalExpired
  else "".

(** ** The bundle *)

Module ApprovalContext.

Record t := {
  IntentPurpose : string;
  GrantID : string;
  GrantDepth : Z;
  CostLine : string;
  ToolCage : string;
  Descriptor : EffectDescriptor;
  HasDescriptor : bool;
  LawVersion : Z;
  LawDigest : string;
  Rule : string;
  Now : time;
  TTL : duration;
}.

End ApprovalContext.

Record BoundApprovalRequest := {
  env : ActionEnvelope.t;
  approval : Approval.t;
  preview : ActionPreview.t;
  params : string;
}.

Definition bound_error (what : string) : error := ErrorNew ("action: bound approval: " +:+ what).

(** The three lines of the story the descriptor decides. *)
Definition egress_line (c : ApprovalContext.t) : string :=
  if c.(ApprovalContext.HasDescriptor) && c.(ApprovalContext.Descriptor).(DataEgress)
  then "request/result content LEAVES the kernel boundary" else "no declared data egress".

Definition em_dash : string := encode_rune 8212.

Definition reversibility_line (class : EffectClass) (c : ApprovalContext.t) : string :=
  if c.(ApprovalContext.HasDescriptor) then
    let cl := c.(ApprovalContext.Descriptor).(Class) in
    if c.(ApprovalContext.Descriptor).(Reversible) then cl +:+ " " +:+ em_dash +:+ " reversible"
    else if c.(ApprovalContext.Descriptor).(Compensatable)
    then cl +:+ " " +:+ em_dash +:+ " compensatable, not reversible"
    else cl +:+ " " +:+ em_dash +:+ " irreversible, no documented undo"
  else if bool_decide (class <> "") then class else "unclassified consequence".

Definition derive_preview (e : ActionEnvelope.t) (c : ApprovalContext.t) : ActionPreview.t :=
  {| ActionPreview.ActionID := e.(ActionEnvelope.ActionID);
     ActionPreview.SchemaVersion := 1;
     ActionPreview.IntentPurpose := c.(ApprovalContext.IntentPurpose);
     ActionPreview.PrincipalID := e.(ActionEnvelope.Principal).(PrincipalRef.PrincipalID);
     ActionPreview.GrantID := c.(ApprovalContext.GrantID);
     ActionPreview.GrantDepth := c.(ApprovalContext.GrantDepth);
     ActionPreview.Operation := e.(ActionEnvelope.Operation).(Operation.Namespace) +:+ "/"
       +:+ e.(ActionEnvelope.Operation).(Operation.Name);
     ActionPreview.Resources := [TrimSpace e.(ActionEnvelope.Source).(Source.Channel)];
     ActionPreview.DataEgress := egress_line c;
     ActionPreview.ArgsDigest := e.(ActionEnvelope.ParametersDigest);
     ActionPreview.CostLine := c.(ApprovalContext.CostLine);
     ActionPreview.EffectClass := e.(ActionEnvelope.EffectClass);
     ActionPreview.Reversibility := reversibility_line e.(ActionEnvelope.EffectClass) c;
     ActionPreview.ToolCage := c.(ApprovalContext.ToolCage);
     ActionPreview.PolicyVersion := c.(ApprovalContext.LawVersion);
     ActionPreview.PolicyDigest := c.(ApprovalContext.LawDigest);
     ActionPreview.RequiredRule := c.(ApprovalContext.Rule) |}.

Definition derive_approval (id : string) (e : ActionEnvelope.t) (c : ApprovalContext.t)
    : Approval.t :=
  {| Approval.ApprovalID := id;
     Approval.SchemaVersion := 1;
     Approval.ActionID := e.(ActionEnvelope.ActionID);
     Approval.ActionDigest := e.(ActionEnvelope.ParametersDigest);
     Approval.PreviewDigest := ActionPreview_Digest (derive_preview e c);
     Approval.RequestedFrom := OperatorPrincipal.(Principal.PrincipalID);
     Approval.Reason := c.(ApprovalContext.Rule);
     Approval.RiskSummary := reversibility_line e.(ActionEnvelope.EffectClass) c;
     Approval.PolicyVersion := c.(ApprovalContext.LawVersion);
     Approval.PolicyDigest := c.(ApprovalContext.LawDigest);
     Approval.RequestedAt := c.(ApprovalContext.Now);
     Approval.ExpiresAt := c.(ApprovalContext.Now) + c.(ApprovalContext.TTL);
     Approval.Status := ApprovalPending;
     Approval.DecisionPrincipalID := "";
     Approval.Decision := "";
     Approval.DecisionAt := 0;
     Approval.Comment := "";
     Approval.DecisionReceiptID := "" |}.

(** Once the descriptor agrees with the envelope, both name one effect class,
    so the derivations take it from the envelope. *)
Definition NewBoundApprovalRequestWithID (e : ActionEnvelope.t) (rawParams : string)
    (c : ApprovalContext.t) (approvalID : string) : result BoundApprovalRequest :=
  if negb (ValidApprovalID approvalID) then Err (bound_error "malformed approval id")
  else if bool_decide (c.(ApprovalContext.Rule) = "") then Err (bound_error "an empty gate rule")
  else if bool_decide (c.(ApprovalContext.LawDigest) = "") then Err (bound_error "an empty law pin")
  else if bool_decide (Digest e.(ActionEnvelope.Operation) rawParams
                       <> e.(ActionEnvelope.ParametersDigest))
  then Err (bound_error "params re-derive another digest")
  else if c.(ApprovalContext.HasDescriptor)
          && bool_decide (c.(ApprovalContext.Descriptor).(Class) <> e.(ActionEnvelope.EffectClass))
  then Err (bound_error "preview_effect_mismatch")
  else
    let a := derive_approval approvalID e c in
    let p := derive_preview e c in
    match ValidatePreviewBinding a p with
    | Some err => Err (ErrorWrap "action: bound approval" err)
    | None => Ok {| env := e; approval := a; preview := p; params := rawParams |}
    end.

Definition NewBoundApprovalRequest (rand16 : string) (e : ActionEnvelope.t) (rawParams : string)
    (c : ApprovalContext.t) : result BoundApprovalRequest :=
  NewBoundApprovalRequestWithID e rawParams c (NewApprovalID rand16).

(** ** Theorems: the bundle *)

Lemma neq_iff {A} `{EqDecision A} (x y : A) : bool_decide (x <> y) = false <-> x = y.
Proof. rewrite bool_decide_eq_false. split; [apply dec_stable|tauto]. Qed.

Lemma neq_true {A} `{EqDecision A} (x y : A) : bool_decide (x <> y) = false -> x = y.
Proof. apply neq_iff. Qed.

Lemma preview_binding_None a p :
  ValidatePreviewBinding a p = None <->
  ActionPreview_Digest p = a.(Approval.PreviewDigest)
  /\ p.(ActionPreview.PolicyVersion) = a.(Approval.PolicyVersion)
  /\ p.(ActionPreview.PolicyDigest) = a.(Approval.PolicyDigest)
  /\ p.(ActionPreview.ArgsDigest) = a.(Approval.ActionDigest)
  /\ p.(ActionPreview.RequiredRule) = a.(Approval.Reason).
Proof.
  unfold ValidatePreviewBinding. rewrite !first_error_None, !fail_if_None, orb_false_iff, !neq_iff.
  tauto.
Qed.

Lemma derived_binding id e c : ValidatePreviewBinding (derive_approval id e c) (derive_preview e c) = None.
Proof. by apply preview_binding_None. Qed.

Lemma approval_binding_ok a d v pd :
  ValidateApprovalBinding a d v pd = ("", "") <->
  a.(Approval.ActionDigest) = d /\ a.(Approval.PolicyVersion) = v /\ a.(Approval.PolicyDigest) = pd.
Proof.
  unfold ValidateApprovalBinding.
  destruct (bool_decide (a.(Approval.ActionDigest) <> d)) eqn:E1; [|apply neq_true in E1].
  - apply bool_decide_eq_true in E1. split; [done|]. by intros [? _].
  - destruct (bool_decide (a.(Approval.PolicyVersion) <> v)
      || bool_decide (a.(Approval.PolicyDigest) <> pd)) eqn:E2.
    + split; [done|]. intros (_ & <- & <-).
      by rewrite !bool_decide_eq_false_2 in E2 by (intros Hn; by apply Hn).
    + apply orb_false_iff in E2 as [E2 E3]. apply neq_true in E2, E3. done.
Qed.

(** When a bundle can be born. *)
Record bindable (e : ActionEnvelope.t) (rawParams : string) (c : ApprovalContext.t) (id : string)
    : Prop := {
  bn_id : ValidApprovalID id = true;
  bn_rule : c.(ApprovalContext.Rule) <> "";
  bn_law : c.(ApprovalContext.LawDigest) <> "";
  bn_params : Digest e.(ActionEnvelope.Operation) rawParams = e.(ActionEnvelope.ParametersDigest);
  bn_effect : c.(ApprovalContext.HasDescriptor) = true ->
    c.(ApprovalContext.Descriptor).(Class) = e.(ActionEnvelope.EffectClass);
}.

Lemma bound_request_iff e rawParams c id b :
  NewBoundApprovalRequestWithID e rawParams c id = Ok b <->
  bindable e rawParams c id
  /\ b = {| env := e; approval := derive_approval id e c; preview := derive_preview e c;
            params := rawParams |}.
Proof.
  unfold NewBoundApprovalRequestWithID. rewrite derived_binding. split.
  - destruct (ValidApprovalID id) eqn:E1; [|done]. simpl.
    case_bool_decide as E2; [done|]. case_bool_decide as E3; [done|].
    destruct (bool_decide (Digest _ _ <> _)) eqn:E4; [done|]. apply neq_true in E4.
    destruct (_ && _) eqn:E5; [done|]. intros [= <-]. split; [|done]. split; try done.
    intros Hd. rewrite Hd in E5. simpl in E5. by apply neq_true in E5.
  - intros [[E1 E2 E3 E4 E5] ->]. rewrite E1. simpl.
    rewrite !bool_decide_eq_false_2 by (done || tauto).
    destruct (ApprovalContext.HasDescriptor c); [|done]. rewrite E5 by done.
    by rewrite bool_decide_eq_false_2 by tauto.
Qed.

Lemma consumable_iff a t :
  ApprovalConsumableAt a t = "" <->
  a.(Approval.Status) = ApprovalPending
  /\ (a.(Approval.ExpiresAt) = 0 \/ t < a.(Approval.ExpiresAt)).
Proof.
  unfold ApprovalConsumableAt, time_is_zero, time_before.
  destruct (bool_decide (a.(Approval.Status) <> ApprovalPending)) eqn:E.
  - apply bool_decide_eq_true in E. split; [done|]. by intros [? _].
  - apply neq_true in E. rewrite E. case_bool_decide; simpl; [tauto|].
    destruct (t <? a.(Approval.ExpiresAt)) eqn:El; bools; simpl; [tauto|].
    split; [done|]. intros [_ [|]]; lia.
Qed.

(** C37.  An approval request is born whole and is invalidated by any
    change.  A bundle exists exactly when the id has a minted shape, a rule and
    a law are named, the parameters re-derive the envelope's digest and the
    descriptor does not contradict the declared effect class; the factory's own
    belt never fires.  A born bundle is pending, its preview passes the cross
    checks, and it stays bound only to the same operation, the same canonical
    arguments and the same law: whatever else still binds is an explicit
    SHA-256 collision.  It can be consumed until the instant its window
    closes, exclusive. *)
Theorem approval_is_born_whole_and_binds_one_action
    (e : ActionEnvelope.t) (rawParams : string) (c : ApprovalContext.t) (id : string) :
  ((exists b, NewBoundApprovalRequestWithID e rawParams c id = Ok b) <-> bindable e rawParams c id)
  /\ forall b, NewBoundApprovalRequestWithID e rawParams c id = Ok b ->
     b.(env) = e /\ b.(params) = rawParams
     /\ ValidatePreviewBinding b.(approval) b.(preview) = None
     /\ b.(preview).(ActionPreview.EffectClass) = e.(ActionEnvelope.EffectClass)
     /\ ValidateApprovalBinding b.(approval) (Digest e.(ActionEnvelope.Operation) rawParams)
          c.(ApprovalContext.LawVersion) c.(ApprovalContext.LawDigest) = ("", "")
     /\ (forall op' raw' v d,
          ValidateApprovalBinding b.(approval) (Digest op' raw') v d = ("", "") ->
          v = c.(ApprovalContext.LawVersion) /\ d = c.(ApprovalContext.LawDigest)
          /\ (op' = e.(ActionEnvelope.Operation) /\ CanonicalParams raw' = CanonicalParams rawParams
              \/ sha256_collision (digest_preimage e.(ActionEnvelope.Operation) rawParams)
                   (digest_preimage op' raw')))
     /\ (forall t, ApprovalConsumableAt b.(approval) t = "" <->
          c.(ApprovalContext.Now) + c.(ApprovalContext.TTL) = 0
          \/ t < c.(ApprovalContext.Now) + c.(ApprovalContext.TTL)).
Proof.
  split.
  { split; [intros [b Hb]; by apply bound_request_iff in Hb as [? _]|].
    intros Hb. eexists. by apply bound_request_iff. }
  intros b Hb. apply bound_request_iff in Hb as [[_ _ _ Hp _] ->]. cbn [env params approval preview].
  split_and!; try done.
  - apply derived_binding.
  - by apply approval_binding_ok.
  - intros op' raw' v d Hbind. apply approval_binding_ok in Hbind as (Hd & <- & <-).
    simpl in Hd. rewrite <- Hp in Hd. split; [done|]. split; [done|].
    unfold Digest in Hd. rewrite pinned_inj, sha256_eq_iff, digest_preimage_inj in Hd.
    destruct Hd as [[-> ->]|]; auto.
  - intros t. rewrite consumable_iff. simpl. tauto.
Qed.

(** The clock and the one-shot law.  An approval can be consumed
    exactly while its effective status is pending, and once the window has
    closed it never reopens; any other stored status, unknown text included,
    is already decided whatever the clock says, and a human verb is one of
    exactly three. *)
Theorem approval_is_consumed_at_most_once_and_in_time (a : Approval.t) :
  (forall t, ApprovalConsumableAt a t = "" <-> EffectiveStatusAt a t = ApprovalPending)
  /\ (forall t, ApprovalConsumableAt a t = RuleApprovalExpired <->
        a.(Approval.Status) = ApprovalPending /\ EffectiveStatusAt a t = ApprovalExpired)
  /\ (forall t t', t <= t' -> ApprovalConsumableAt a t' = "" -> ApprovalConsumableAt a t = "")
  /\ (forall t, a.(Approval.Status) <> ApprovalPending ->
        ApprovalConsumableAt a t = RuleApprovalAlreadyDecided
        /\ EffectiveStatusAt a t = a.(Approval.Status))
  /\ (IsHumanDecision a.(Approval.Decision) = true <->
        a.(Approval.Decision) ∈ ["approved"; "rejected"; "cancelled"]).
Proof.
  split_and!.
  - intros t. rewrite consumable_iff. unfold EffectiveStatusAt, time_is_zero, time_before.
    case_bool_decide as E; simpl; [|tauto]. rewrite E. case_bool_decide; simpl; [tauto|].
    destruct (t <? _) eqn:El; bools; simpl; [tauto|]. split; [intros [_ [|]]; lia|done].
  - intros t. unfold ApprovalConsumableAt, EffectiveStatusAt, time_is_zero, time_before.
    case_bool_decide as E.
    + split; [done|]. by intros [? _].
    + destruct (decide (a.(Approval.Status) = ApprovalPending)) as [E'|]; [|tauto].
      rewrite E', (bool_decide_eq_true_2 (ApprovalPending = _)) by done. simpl.
      destruct (negb _ && negb _); split; try done. by intros [_ ?].
  - intros t t' Hle. rewrite !consumable_iff. intros [? [|]]; split; auto. right. lia.
  - intros t Hs. unfold ApprovalConsumableAt, EffectiveStatusAt.
    rewrite (bool_decide_eq_true_2 (_ <> _)), (bool_decide_eq_false_2 (_ = _)) by done. done.
  - unfold IsHumanDecision, contains. apply bool_decide_eq_true.
Qed.

(** ** Theorems: the preview *)

Section PreviewSeal.
Import ActionPreview.

(** Text the wire form can carry. *)
Record preview_text (p : ActionPreview.t) : Prop := {
  pt_strings : Forall utf8
    [p.(ActionID); p.(IntentPurpose); p.(PrincipalID); p.(GrantID); p.(Operation);
     p.(DataEgress); p.(ArgsDigest); p.(CostLine); p.(EffectClass); p.(Reversibility);
     p.(ToolCage); p.(PolicyDigest); p.(RequiredRule)];
  pt_resources : Forall utf8 p.(Resources);
}.

(** Equal but for the order of the resources. *)
Record same_preview (p p' : ActionPreview.t) : Prop := {
  sp_action : p.(ActionID) = p'.(ActionID);
  sp_schema : p.(SchemaVersion) = p'.(SchemaVersion);
  sp_purpose : p.(IntentPurpose) = p'.(IntentPurpose);
  sp_principal : p.(PrincipalID) = p'.(PrincipalID);
  sp_grant : p.(GrantID) = p'.(GrantID);
  sp_depth : p.(GrantDepth) = p'.(GrantDepth);
  sp_operation : p.(Operation) = p'.(Operation);
  sp_resources : p.(Resources) ≡ₚ p'.(Resources);
  sp_egress : p.(DataEgress) = p'.(DataEgress);
  sp_args : p.(ArgsDigest) = p'.(ArgsDigest);
  sp_cost : p.(CostLine) = p'.(CostLine);
  sp_class : p.(EffectClass) = p'.(EffectClass);
  sp_reversibility : p.(Reversibility) = p'.(Reversibility);
  sp_cage : p.(ToolCage) = p'.(ToolCage);
  sp_version : p.(PolicyVersion) = p'.(PolicyVersion);
  sp_policy : p.(PolicyDigest) = p'.(PolicyDigest);
  sp_rule : p.(RequiredRule) = p'.(RequiredRule);
}.

Lemma preview_terms_wf p : preview_text p -> wf 0 (VObject (preview_terms p)).
Proof.
  intros [Hs Hr]. constructor; [done|]. repeat (apply Forall_cons in Hs as [? Hs]).
  unfold preview_terms.
  repeat (apply Forall_cons; split;
    [split; [by apply ascii_only_utf8|cbn [snd]; auto with terms]|]). constructor.
Qed.

Lemma preview_terms_iff p p' :
  canon (VObject (preview_terms p)) = canon (VObject (preview_terms p')) <-> same_preview p p'.
Proof.
  split.
  - intros H.
    assert (forall k, canon <$> member k (preview_terms p) = canon <$> member k (preview_terms p'))
      as HM by (intros k; by apply canon_object_member).
    unfold preview_terms in HM. clear H.
    split; [specialize (HM "action_id")|specialize (HM "schema_version")|specialize (HM "purpose")
      |specialize (HM "principal")|specialize (HM "grant")|specialize (HM "depth")
      |specialize (HM "operation")|specialize (HM "resources")|specialize (HM "egress")
      |specialize (HM "args_digest")|specialize (HM "cost")|specialize (HM "effect_class")
      |specialize (HM "reversibility")|specialize (HM "cage")|specialize (HM "policy_version")
      |specialize (HM "policy_digest")|specialize (HM "required_rule")];
      find_member HM; apply (inj Some) in HM;
      first [by apply string_set_inj|by injection HM|by apply Itoa_inj; injection HM].
  - intros [E1 E2 E3 E4 E5 E6 E7 E8 E9 E10 E11 E12 E13 E14 E15 E16 E17]. unfold preview_terms.
    by rewrite E1, E2, E3, E4, E5, E6, E7, (string_set_perm _ _ E8), E9, E10, E11, E12, E13, E14,
      E15, E16, E17.
Qed.

End PreviewSeal.

(** The version shown is a checkable identity: if one approval
    passes the cross checks with two previews, the two show the same diff up to
    the order of the resources, or else their canonical bytes are an explicit
    SHA-256 collision. *)
Theorem approval_pins_the_preview_shown (a : Approval.t) (p p' : ActionPreview.t) :
  preview_text p -> preview_text p' ->
  ValidatePreviewBinding a p = None -> ValidatePreviewBinding a p' = None ->
  same_preview p p'
  \/ sha256_collision (contractTerms (preview_terms p)) (contractTerms (preview_terms p')).
Proof.
  intros Hp Hp' Hb Hb'. apply preview_binding_None in Hb as [Hb _], Hb' as [Hb' _].
  rewrite <- Hb' in Hb. unfold ActionPreview_Digest in Hb.
  rewrite terms_digest_eq, preview_terms_iff in Hb by (by apply preview_terms_wf). done.
Qed.

(** ** Theorems: the wire form of an approval *)

Section ApprovalText.
Import Approval.

Record approval_text (a : Approval.t) : Prop := {
  at_strings : Forall utf8
    [a.(ApprovalID); a.(ActionID); a.(ActionDigest); a.(PreviewDigest); a.(RequestedFrom);
     a.(Reason); a.(RiskSummary); a.(PolicyDigest); a.(Status); a.(DecisionPrincipalID);
     a.(Decision); a.(Comment); a.(DecisionReceiptID)];
  at_ints : Forall int64_range [a.(SchemaVersion); a.(PolicyVersion)];
}.

Lemma approval_schema_ok : schema_ok approvalWire.
Proof.
  split; [exact (bool_decide_eq_true_1 (NoDup approvalWire.*1) eq_refl)|].
  repeat (apply Forall_cons; split; [reflexivity|]). constructor.
Qed.

Lemma approval_typed a : approval_text a -> typed approvalWire (approval_wire a).
Proof.
  intros [Hs Hi]. repeat (apply Forall_cons in Hs as [? Hs]).
  repeat (apply Forall_cons in Hi as [? Hi]).
  unfold typed. repeat (constructor; [split; [reflexivity|]|]); simpl; try done;
    apply timeTerm_utf8.
Qed.

End ApprovalText.

(** What [time.Parse] must do with the instants of an approval. *)
Definition approval_times_parse (time_Parse : string -> option time) (a : Approval.t) : Prop :=
  Forall (fun t => time_Parse (rfc3339 t) = Some t)
    [a.(Approval.RequestedAt); a.(Approval.ExpiresAt); a.(Approval.DecisionAt)].

Lemma parse_time_term_back time_Parse t :
  time_Parse (rfc3339 t) = Some t -> parse_time_term time_Parse (timeTerm t) = Some t.
Proof.
  intros Ht. unfold parse_time_term, timeTerm, time_is_zero.
  destruct (decide (t = 0)) as [->|Hne]; [done|].
  rewrite (bool_decide_eq_false_2 (t = 0)) by done.
  by rewrite bool_decide_eq_false_2 by apply rfc3339_not_empty.
Qed.

(** An approval survives its wire form: the canonical bytes parse
    back to the same approval, every field included; equal bytes are equal
    approvals.  (And, as for receipts, bytes that start with a closing bracket
    may follow.) *)
Theorem approval_round_trip (time_Parse : string -> option time) (a : Approval.t)
    (garbage : string) :
  approval_text a -> approval_times_parse time_Parse a ->
  ParseCanonicalApproval time_Parse (CanonicalApproval a) = Ok a
  /\ ParseCanonicalApproval time_Parse (CanonicalApproval a +:+ String "}" garbage) = Ok a
  /\ (forall a', approval_text a' -> approval_times_parse time_Parse a' ->
        CanonicalApproval a = CanonicalApproval a' -> a = a').
Proof.
  assert (forall x rest, approval_text x -> approval_times_parse time_Parse x ->
    ends_value rest -> more rest = false ->
    ParseCanonicalApproval time_Parse (CanonicalApproval x +:+ rest) = Ok x) as Hall.
  { intros x rest Hx Ht Hr Hm. unfold ParseCanonicalApproval, CanonicalApproval.
    rewrite strictUnmarshal_marshal by (done || apply approval_schema_ok || by apply approval_typed).
    repeat (apply Forall_cons in Ht as [? Ht]).
    unfold approval_of_wire, approval_wire, approval_time.
    rewrite !parse_time_term_back by done. by destruct x. }
  assert (forall x, approval_text x -> approval_times_parse time_Parse x ->
    ParseCanonicalApproval time_Parse (CanonicalApproval x) = Ok x) as Hrt.
  { intros x Hx Ht. rewrite <- (str_app_nil (CanonicalApproval x)). by apply Hall. }
  intros Ha Ht. split_and!; [by apply Hrt|by apply Hall|].
  intros a' Ha' Ht' E. pose proof (Hrt a Ha Ht) as P. rewrite E, (Hrt a' Ha' Ht') in P.
  by injection P.
Qed.

(** ** Theorems: the decision digest *)

(** Characters that both [%q] and [encoding/json] leave as they are. *)
Definition plain_char (c : ascii) : bool :=
  in_range 32 126 (code c)
  && negb (contains [34; 92; 60; 62; 38] (code c)).

Fixpoint plain (s : string) : bool :=
  match s with String c s' => plain_char c && plain s' | EmptyString => true end.

Lemma plain_app a b : plain (a +:+ b) = plain a && plain b.
Proof. induction a as [|c a IH]; simpl; [done|]. by rewrite IH, andb_assoc. Qed.

Lemma plain_ascii s : plain s = true -> ascii_only s = true.
Proof.
  induction s as [|c s IH]; simpl; [done|]. intros [Hc Hs]%andb_true_iff.
  unfold plain_char in Hc. apply andb_true_iff in Hc as [Hc _]. apply in_range_iff in Hc.
  rewrite IH by done. rewrite (proj2 (Z.ltb_lt _ _)) by lia. done.
Qed.

Lemma plain_escape c s fuel :
  plain_char c = true -> escape (S fuel) (String c s) = String c (escape fuel s).
Proof.
  unfold plain_char, contains. intros [Hr Hn]%andb_true_iff. apply in_range_iff in Hr.
  apply negb_true_iff, bool_decide_eq_false in Hn. rewrite !not_elem_of_cons in Hn.
  destruct Hn as (N1 & N2 & N3 & N4 & N5 & _). cbn [escape].
  unfold rune_size, RuneSelf. rewrite (proj2 (Z.ltb_lt _ 128)) by lia.
  unfold escape_ascii.
  rewrite (proj2 (Z.eqb_neq _ 34)), (proj2 (Z.eqb_neq _ 92)), (proj2 (Z.eqb_neq _ 8)),
    (proj2 (Z.eqb_neq _ 12)), (proj2 (Z.eqb_neq _ 10)), (proj2 (Z.eqb_neq _ 13)),
    (proj2 (Z.eqb_neq _ 9)), (proj2 (Z.ltb_ge _ 32)), (proj2 (Z.eqb_neq _ 60)),
    (proj2 (Z.eqb_neq _ 62)), (proj2 (Z.eqb_neq _ 38)) by lia.
  done.
Qed.

Lemma plain_quote s : plain s = true -> quote s = String (byte 34) (s +:+ String (byte 34) "").
Proof.
  intros Hs. unfold quote. f_equal. f_equal. induction s as [|c s IH]; [done|].
  simpl in Hs. apply andb_true_iff in Hs as [Hc Hs]. cbn [String.length].
  rewrite plain_escape by done. by rewrite IH.
Qed.

Lemma digit_plain z : 0 <= z < 10 -> plain (String (digit z) "") = true.
Proof.
  intros Hz. simpl. unfold plain_char, contains. rewrite digit_code by done.
  rewrite in_range_true by lia. simpl. rewrite bool_decide_eq_false_2; [done|].
  rewrite !not_elem_of_cons. split_and!; try lia. apply not_elem_of_nil.
Qed.

Lemma fixed_plain n z : plain (fixed n z) = true.
Proof.
  revert z. induction n as [|n IH]; intros z; [done|]. cbn [fixed].
  rewrite plain_app, IH. apply digit_plain. by apply Z.mod_pos_bound.
Qed.

Lemma trim_zeros_plain n z : plain (trim_zeros n z) = true.
Proof.
  revert z. induction n as [|n IH]; intros z; [done|]. cbn [trim_zeros].
  case_match; [apply IH|apply fixed_plain].
Qed.

Lemma timeTerm_plain t : plain (timeTerm t) = true.
Proof.
  unfold timeTerm, rfc3339, fraction. case_match; [done|]. destruct (civil _) as [[y m] d].
  rewrite !plain_app, !fixed_plain. case_match; [done|]. cbn [plain]. by rewrite trim_zeros_plain.
Qed.

Section DecisionDigest.
Import Approval.

(** The terms of a decision and their instants, in the domain of both
    encoders. *)
Record decision_plain (a : Approval.t) : Prop := {
  dp_strings : Forall (fun s => plain s = true)
    [a.(ActionDigest); a.(ApprovalID); a.(DecisionPrincipalID); a.(Decision); a.(PolicyDigest);
     a.(PreviewDigest)];
  dp_at : rfc3339_range a.(DecisionAt);
}.

Record same_decision (a a' : Approval.t) : Prop := {
  sd_action : a.(ActionDigest) = a'.(ActionDigest);
  sd_id : a.(ApprovalID) = a'.(ApprovalID);
  sd_at : a.(DecisionAt) = a'.(DecisionAt);
  sd_decider : a.(DecisionPrincipalID) = a'.(DecisionPrincipalID);
  sd_decision : a.(Decision) = a'.(Decision);
  sd_policy : a.(PolicyDigest) = a'.(PolicyDigest);
  sd_version : a.(PolicyVersion) = a'.(PolicyVersion);
  sd_preview : a.(PreviewDigest) = a'.(PreviewDigest);
}.

Definition decision_terms (a : Approval.t) : list (string * value) :=
  [("action_digest", VString a.(ActionDigest)); ("approval_id", VString a.(ApprovalID));
   ("decided_at", VString (timeTerm a.(DecisionAt)));
   ("decider", VString a.(DecisionPrincipalID)); ("decision", VString a.(Decision));
   ("policy_digest", VString a.(PolicyDigest)); ("policy_version", num a.(PolicyVersion));
   ("preview_digest", VString a.(PreviewDigest))].

Context (q : string -> string)
  (q_plain : forall s, plain s = true -> q s = String (byte 34) (s +:+ String (byte 34) "")).

Lemma decision_text_print a : decision_plain a -> decision_text q a = print (VObject (decision_terms a)).
Proof using q_plain.
  intros [Hs _]. repeat (apply Forall_cons in Hs as [? Hs]).
  unfold decision_text, key. rewrite !q_plain by (done || apply timeTerm_plain).
  rewrite <- !plain_quote by (done || apply timeTerm_plain). unfold decision_terms.
  cbn [print map fst snd]. unfold join. cbn [String.concat].
  rewrite !str_app_assoc. done.
Qed.

Lemma decision_wf a : decision_plain a -> wf 0 (VObject (decision_terms a)).
Proof using.
  intros [Hs _]. constructor; [done|]. repeat (apply Forall_cons in Hs as [? Hs]).
  unfold decision_terms.
  repeat (apply Forall_cons; split; [split; [by apply ascii_only_utf8|cbn [snd]]|]);
    try apply Forall_nil_2; try apply num_wf;
    constructor; try apply timeTerm_utf8; by apply ascii_only_utf8, plain_ascii.
Qed.

Lemma decision_terms_iff a a' :
  decision_plain a -> decision_plain a' ->
  canon (VObject (decision_terms a)) = canon (VObject (decision_terms a')) <-> same_decision a a'.
Proof using.
  intros [_ Hr] [_ Hr']. split.
  - intros H.
    assert (forall k, canon <$> member k (decision_terms a) = canon <$> member k (decision_terms a'))
      as HM by (intros k; by apply canon_object_member).
    unfold decision_terms in HM. clear H.
    split; [specialize (HM "action_digest")|specialize (HM "approval_id")
      |specialize (HM "decided_at")|specialize (HM "decider")|specialize (HM "decision")
      |specialize (HM "policy_digest")|specialize (HM "policy_version")
      |specialize (HM "preview_digest")];
      find_member HM; apply (inj Some) in HM;
      first [by injection HM|by apply Itoa_inj; injection HM
            |by injection HM as HM; apply timeTerm_inj in HM].
  - intros [E1 E2 E3 E4 E5 E6 E7 E8]. unfold decision_terms.
    by rewrite E1, E2, E3, E4, E5, E6, E7, E8.
Qed.

(** The digest a receipt seals identifies the decision: for
    approvals whose terms are plain printable text, on which [%q] just puts
    quotes around, two digests agree exactly when the request, the action, the
    preview, the law, the decider, the verdict and the instant all agree, or
    else the canonical bytes are an explicit SHA-256 collision.  Comment and
    presentation do not count. *)
Theorem decision_digest_identifies_the_decision (a a' : Approval.t) :
  decision_plain a -> decision_plain a' ->
  Approval_Digest q a = Approval_Digest q a' <->
  same_decision a a'
  \/ sha256_collision (CanonicalParams (decision_text q a)) (CanonicalParams (decision_text q a')).
Proof using q_plain.
  intros Ha Ha'. unfold Approval_Digest, HashCanonical. rewrite pinned_inj, sha256_eq_iff.
  assert (forall x, decision_plain x ->
    CanonicalParams (decision_text q x) = print (canon (VObject (decision_terms x)))) as Hc.
  { intros x Hx. rewrite decision_text_print by done.
    by apply CanonicalParams_parse, parse_print, decision_wf. }
  rewrite <- decision_terms_iff, !Hc by done.
  split; (intros [E|]; [left|by right]); [|by rewrite E].
  apply print_inj; [apply canon_wf, decision_wf; done..|done].
Qed.

End DecisionDigest.

(** ** Minted identities *)

Lemma strip_prefix_app p s : strip_prefix p (p +:+ s) = Some s.
Proof. induction p as [|c p IH]; simpl; [done|]. by rewrite Ascii.eqb_refl. Qed.

Lemma hex_encode_shape s : String.length (hex_encode s) = (2 * String.length s)%nat
  /\ all_lower_hex (hex_encode s) = true.
Proof.
  induction s as [|c s [IH1 IH2]]; [done|]. pose proof (code_range c). simpl. split; [lia|].
  assert (forall z, 0 <= z < 16 -> lower_hex (hex_char z) = true) as Hh.
  { intros z Hz. unfold lower_hex, hex_char. apply orb_true_iff.
    destruct (z <? 10) eqn:E; bools; rewrite code_byte by lia; [left|right]; apply in_range_true; lia. }
  rewrite IH2, !Hh; [done|apply Z.mod_pos_bound; lia|].
  split; [apply Z.div_pos; lia|apply Z.div_lt_upper_bound; lia].
Qed.

Lemma id_shape_minted p rnd :
  String.length rnd = 16%nat -> id_shape p (p +:+ hex_encode rnd) = true.
Proof.
  intros Hl. unfold id_shape. rewrite strip_prefix_app. destruct (hex_encode_shape rnd) as [H1 H2].
  rewrite H1, H2, Hl. done.
Qed.

(** Both kinds of minted ids are valid, and the strict prefix tells them apart. *)
Lemma minted_approval_ids rnd :
  String.length rnd = 16%nat ->
  ValidApprovalID (NewApprovalID rnd) = true /\ ValidApprovalID (NewStrictApprovalID rnd) = true
  /\ IsStrictApprovalID (NewApprovalID rnd) = false
  /\ IsStrictApprovalID (NewStrictApprovalID rnd) = true
  /\ ValidReceiptID (NewReceiptID rnd) = true.
Proof.
  intros Hl. unfold ValidApprovalID, NewApprovalID, NewStrictApprovalID, ValidReceiptID, NewReceiptID.
  rewrite !id_shape_minted by done. rewrite orb_true_r.
  by split_and!.
Qed.

(** ** Concrete approvals *)

Definition example_approval (decision : string) : Approval.t :=
  {| Approval.ApprovalID := "apr_1"; Approval.SchemaVersion := 1; Approval.ActionID := "act_1";
     Approval.ActionDigest := "sha256:11"; Approval.PreviewDigest := "sha256:22";
     Approval.RequestedFrom := "principal_operator"; Approval.Reason := "r";
     Approval.RiskSummary := ""; Approval.PolicyVersion := 3; Approval.PolicyDigest := "sha256:00";
     Approval.RequestedAt := 5 * Second; Approval.ExpiresAt := 65 * Second;
     Approval.Status := ApprovalApproved; Approval.DecisionPrincipalID := "principal_operator";
     Approval.Decision := decision; Approval.DecisionAt := 9 * Second; Approval.Comment := "ok";
     Approval.DecisionReceiptID := "" |}.

(** A parser that knows the instants of [example_approval]. *)
Definition example_time_Parse (s : string) : option time :=
  snd <$> list_find (fun t => rfc3339 t = s) [5 * Second; 9 * Second; 65 * Second].

Lemma approval_round_trip_witness :
  ParseCanonicalApproval example_time_Parse (CanonicalApproval (example_approval "approved"))
  = Ok (example_approval "approved").
Proof.
  apply (approval_round_trip example_time_Parse (example_approval "approved") "").
  - split; simpl.
    + repeat (apply Forall_cons; split; [by apply ascii_only_utf8|]). constructor.
    + repeat (apply Forall_cons; split; [by split|]). constructor.
  - repeat (apply Forall_cons; split; [vm_compute; reflexivity|]). constructor.
Defined.

(** A quoting verb that agrees with [%q] on plain text. *)
Definition example_q (s : string) : string := String (byte 34) (s +:+ String (byte 34) "").

Lemma decision_digest_identifies_the_decision_witness :
  Approval_Digest example_q (example_approval "approved")
  = Approval_Digest example_q (example_approval "rejected") <->
  same_decision (example_approval "approved") (example_approval "rejected")
  \/ sha256_collision (CanonicalParams (decision_text example_q (example_approval "approved")))
       (CanonicalParams (decision_text example_q (example_approval "rejected"))).
Proof.
  apply (decision_digest_identifies_the_decision example_q (fun s _ => eq_refl)).
  - split; simpl; [|by split]. repeat (apply Forall_cons; split; [reflexivity|]). constructor.
  - split; simpl; [|by split]. repeat (apply Forall_cons; split; [reflexivity|]). constructor.
Defined.

Definition example_preview (resources : list string) : ActionPreview.t :=
  {| ActionPreview.ActionID := "act_1"; ActionPreview.SchemaVersion := 1;
     ActionPreview.IntentPurpose := "-"; ActionPreview.PrincipalID := "principal_brain_a";
     ActionPreview.GrantID := "grant_1"; ActionPreview.GrantDepth := 0;
     ActionPreview.Operation := "tool/pay"; ActionPreview.Resources := resources;
     ActionPreview.DataEgress := ""; ActionPreview.ArgsDigest := "sha256:11";
     ActionPreview.CostLine := ""; ActionPreview.EffectClass := EffectCritical;
     ActionPreview.Reversibility := ""; ActionPreview.ToolCage := "";
     ActionPreview.PolicyVersion := 3; ActionPreview.PolicyDigest := "sha256:00";
     ActionPreview.RequiredRule := "r" |}.

Definition example_request : Approval.t :=
  {| Approval.ApprovalID := "apr_1"; Approval.SchemaVersion := 1; Approval.ActionID := "act_1";
     Approval.ActionDigest := "sha256:11";
     Approval.PreviewDigest := ActionPreview_Digest (example_preview ["a"; "b"]);
     Approval.RequestedFrom := "principal_operator"; Approval.Reason := "r";
     Approval.RiskSummary := ""; Approval.PolicyVersion := 3; Approval.PolicyDigest := "sha256:00";
     Approval.RequestedAt := 5 * Second; Approval.ExpiresAt := 65 * Second;
     Approval.Status := ApprovalPending; Approval.DecisionPrincipalID := "";
     Approval.Decision := ""; Approval.DecisionAt := 0; Approval.Comment := "";
     Approval.DecisionReceiptID := "" |}.

Lemma example_preview_text l :
  Forall (fun s => ascii_only s = true) l -> preview_text (example_preview l).
Proof.
  intros Hl. split; simpl.
  - repeat (apply Forall_cons; split; [by apply ascii_only_utf8|]). constructor.
  - eapply Forall_impl; [exact Hl|]. apply ascii_only_utf8.
Qed.

Lemma approval_pins_the_preview_shown_witness :
  same_preview (example_preview ["a"; "b"]) (example_preview ["b"; "a"])
  \/ sha256_collision (contractTerms (preview_terms (example_preview ["a"; "b"])))
       (contractTerms (preview_terms (example_preview ["b"; "a"]))).
Proof.
  apply (approval_pins_the_preview_shown example_request).
  - apply example_preview_text. by repeat constructor.
  - apply example_preview_text. by repeat constructor.
  - vm_compute. reflexivity.
  - vm_compute. reflexivity.
Defined.
