(* ===== verification/Paths.v ===== *)
(** * Paths: the lexical path operations of the standard library

    [filepath.Clean], [filepath.Abs] and [filepath.Rel] on a Unix system,
    defined on the segments of a path, and what [internal/action]'s path
    matcher needs of them.  The working directory [Abs] consults is an
    argument: [None] when the system cannot name it. *)

From S2P Require Import Prelude Text.
From Stdlib Require Import Ascii String.
Local Open Scope korvun_scope.
#[local] Arguments String.append !_ _ : simpl nomatch.

Definition slash : ascii := "/"%char.

(** [strings.Split s] at every slash: one segment more than slashes. *)
Fixpoint segments (s : string) : list string :=
  match s with
  | EmptyString => [""]
  | String c s' =>
      if Ascii.eqb c slash then "" :: segments s'
      else match segments s' with
           | [] => [String c ""]
           | w :: ws => String c w :: ws
           end
  end.

Definition IsAbs (p : string) : bool :=
  match p with String c _ => Ascii.eqb c slash | EmptyString => false end.

(** One segment of the path, on the stack of the segments kept so far. *)
Definition clean_step (rooted : bool) (stack : list string) (seg : string) : list string :=
  if bool_decide (seg = "") || bool_decide (seg = ".") then stack
  else if bool_decide (seg = "..") then
    match stack with
    | top :: rest => if bool_decide (top = "..") then seg :: stack else rest
    | [] => if rooted then [] else [seg]
    end
  else seg :: stack.

Definition clean_segments (p : string) : list string :=
  rev (fold_left (clean_step (IsAbs p)) (segments p) []).

Definition render (rooted : bool) (l : list string) : string :=
  if rooted then "/" +:+ Join l "/"
  else match l with [] => "." | _ => Join l "/" end.

(** [filepath.Clean]. *)
Definition Clean (p : string) : string := render (IsAbs p) (clean_segments p).

(** [filepath.Abs]. *)
Definition Abs (cwd : option string) (p : string) : option string :=
  if IsAbs p then Some (Clean p)
  else match cwd with
       | Some wd => Some (if bool_decide (p = "") then Clean wd else Clean (wd +:+ "/" +:+ p))
       | None => None
       end.

Fixpoint strip_common (base targ : list string) : list string * list string :=
  match base, targ with
  | b :: base', t :: targ' => if bool_decide (b = t) then strip_common base' targ' else (base, targ)
  | _, _ => (base, targ)
  end.

(** [filepath.Rel], on the segments both cleaned paths are made of. *)
Definition Rel (base targ : string) : option string :=
  if bool_decide (Clean targ = Clean base) then Some "."
  else if negb (Bool.eqb (IsAbs base) (IsAbs targ)) then None
  else
    let '(b, t) := strip_common (clean_segments base) (clean_segments targ) in
    if bool_decide (head b = Some "..") then None
    else Some (Join (map (fun _ => "..") b ++ t) "/").

(** ** Lemmas *)

Definition plain_segment (s : string) : Prop :=
  s <> "" /\ s <> "." /\ s <> ".." /\ forallb (fun c => negb (Ascii.eqb c slash)) (list_ascii_of_string s) = true.

Lemma segments_no_slash p :
  Forall (fun s => forallb (fun c => negb (Ascii.eqb c slash)) (list_ascii_of_string s) = true)
    (segments p).
Proof.
  induction p as [|c p IH]; simpl; [by repeat constructor|].
  destruct (Ascii.eqb c slash) eqn:E; [by constructor|].
  destruct (segments p) as [|w ws]; [by repeat constructor; simpl; rewrite E|].
  apply Forall_cons in IH as [Hw Hws]. constructor; [|done]. simpl. by rewrite E.
Qed.

Lemma clean_step_rooted stack seg :
  forallb (fun c => negb (Ascii.eqb c slash)) (list_ascii_of_string seg) = true ->
  Forall plain_segment stack -> Forall plain_segment (clean_step true stack seg).
Proof.
  intros Hs Hst. unfold clean_step. case_bool_decide; [done|]. case_bool_decide; [done|]. simpl.
  case_bool_decide.
  - destruct stack as [|top rest]; [done|]. apply Forall_cons in Hst as [Ht Hr].
    rewrite bool_decide_eq_false_2; [done|apply Ht].
  - constructor; [|done]. done.
Qed.

(** A cleaned absolute path is made of plain segments: no ["..", "."] or
    empty segment is left in it. *)
Lemma clean_rooted p : IsAbs p = true -> Forall plain_segment (clean_segments p).
Proof.
  intros Ha. unfold clean_segments. rewrite Ha. apply Forall_rev.
  assert (forall l st, Forall (fun s => forallb (fun c => negb (Ascii.eqb c slash))
      (list_ascii_of_string s) = true) l -> Forall plain_segment st ->
    Forall plain_segment (fold_left (clean_step true) l st)) as H.
  { induction l as [|s l IH]; intros st Hl Hst; simpl; [done|].
    apply Forall_cons in Hl as [Hs Hl]. apply IH; [done|]. by apply clean_step_rooted. }
  apply H; [apply segments_no_slash|constructor].
Qed.

Lemma segments_app_slash w p :
  forallb (fun c => negb (Ascii.eqb c slash)) (list_ascii_of_string w) = true ->
  segments (w +:+ String slash p) = w :: segments p.
Proof.
  induction w as [|c w IH]; simpl; [done|]. intros [Hc Hw]%andb_true_iff.
  apply negb_true_iff in Hc. by rewrite Hc, IH.
Qed.

Lemma segments_plain w :
  forallb (fun c => negb (Ascii.eqb c slash)) (list_ascii_of_string w) = true -> segments w = [w].
Proof.
  induction w as [|c w IH]; simpl; [done|]. intros [Hc Hw]%andb_true_iff.
  apply negb_true_iff in Hc. by rewrite Hc, IH.
Qed.

Lemma segments_join l :
  l <> [] ->
  Forall (fun s => forallb (fun c => negb (Ascii.eqb c slash)) (list_ascii_of_string s) = true) l ->
  segments (Join l "/") = l.
Proof.
  unfold Join. induction l as [|w l IH]; [done|]. intros _ [Hw Hl]%Forall_cons.
  destruct l as [|v l]; [by apply segments_plain|].
  change (String.concat "/" (w :: v :: l)) with (w +:+ String slash (String.concat "/" (v :: l))).
  rewrite segments_app_slash by done. by rewrite IH.
Qed.

Lemma plain_no_slash l :
  Forall plain_segment l ->
  Forall (fun s => forallb (fun c => negb (Ascii.eqb c slash)) (list_ascii_of_string s) = true) l.
Proof. intros H. eapply Forall_impl; [exact H|]. by intros s (_ & _ & _ & ?). Qed.

Lemma Join_inj l k :
  Forall plain_segment l -> Forall plain_segment k -> Join l "/" = Join k "/" -> l = k.
Proof.
  intros Hl Hk H.
  assert (forall l, Forall plain_segment l -> Join l "/" = "" -> l = []) as Hnil.
  { intros [|w [|v r]] Hw; [done| |]; intros E; exfalso.
    - apply Forall_cons in Hw as [(Hw & _) _]. done.
    - apply Forall_cons in Hw as [(Hw & _) _]. destruct w; done. }
  destruct (decide (l = [])) as [->|Hne]; [symmetry in H; by rewrite (Hnil k Hk H)|].
  destruct (decide (k = [])) as [->|Hne']; [by rewrite (Hnil l Hl H) in Hne|].
  rewrite <- (segments_join l), <- (segments_join k) by (done || by apply plain_no_slash).
  by rewrite H.
Qed.

Lemma clean_plain_fold st l :
  Forall plain_segment l -> fold_left (clean_step true) l st = rev l ++ st.
Proof.
  revert st. induction l as [|w l IH]; intros st Hl; simpl; [done|].
  apply Forall_cons in Hl as [(H1 & H2 & H3 & _) Hl]. rewrite IH by done.
  unfold clean_step. rewrite !bool_decide_eq_false_2 by done. simpl. by rewrite <- app_assoc.
Qed.

(** Cleaning a cleaned absolute path changes nothing. *)
Lemma clean_segments_Clean p :
  IsAbs p = true -> IsAbs (Clean p) = true /\ clean_segments (Clean p) = clean_segments p.
Proof.
  intros Ha. pose proof (clean_rooted p Ha) as Hp.
  assert (Clean p = "/" +:+ Join (clean_segments p) "/") as E by (unfold Clean; by rewrite Ha).
  assert (IsAbs (Clean p) = true) as Hc by by rewrite E.
  split; [done|]. unfold clean_segments at 1. rewrite Hc, E.
  generalize dependent (clean_segments p). intros l Hp _.
  change (segments ("/" +:+ Join l "/")) with ("" :: segments (Join l "/")).
  cbn [fold_left]. change (clean_step true [] "") with (@nil string).
  destruct (decide (l = [])) as [->|Hne]; [done|].
  rewrite segments_join, clean_plain_fold, app_nil_r, rev_involutive
    by (done || by apply plain_no_slash). done.
Qed.

Lemma Abs_absolute cwd p q :
  (forall wd, cwd = Some wd -> IsAbs wd = true) -> Abs cwd p = Some q ->
  IsAbs q = true /\ Clean q = q.
Proof.
  assert (forall s, IsAbs s = true -> IsAbs (Clean s) = true /\ Clean (Clean s) = Clean s) as H.
  { intros s Hs. destruct (clean_segments_Clean s Hs) as [Ha Hc]. split; [done|].
    unfold Clean at 1. by rewrite Hc, Ha; unfold Clean; rewrite Hs. }
  intros Hwd. unfold Abs. destruct (IsAbs p) eqn:E; [intros [= <-]; auto|].
  destruct cwd as [wd|]; [|done]. specialize (Hwd wd eq_refl).
  intros [= <-]. case_bool_decide; [by apply H|]. apply H. destruct wd; done.
Qed.

(** [Rel] says where [targ] lies from [base]: under it, or up and down again. *)
Lemma strip_common_spec b t :
  exists c, b = c ++ (strip_common b t).1 /\ t = c ++ (strip_common b t).2
    /\ forall x y k r, (strip_common b t).1 = x :: k -> (strip_common b t).2 = y :: r -> x <> y.
Proof.
  revert t. induction b as [|x b IH]; intros [|y t]; simpl; try by exists [].
  case_bool_decide as E.
  - subst. destruct (IH t) as (c & H1 & H2 & H3). exists (y :: c). simpl.
    by rewrite <- H1, <- H2.
  - exists []. split_and!; [done..|]. intros ???? [= <- <-] [= <- <-]. done.
Qed.

Lemma Clean_eq_segments p q :
  IsAbs p = true -> IsAbs q = true -> Clean p = Clean q <-> clean_segments p = clean_segments q.
Proof.
  intros Hp Hq. unfold Clean. rewrite Hp, Hq. split; [|by intros ->]. intros [= H].
  apply Join_inj; [by apply clean_rooted..|done].
Qed.
