(* ===== verification/Intents.v ===== *)
(** * Intents of version 2: bounded, signed consent

    [internal/action/intent_v2.go]: the terms, their validation, the
    canonical bytes and their digest, signing, lifecycle events and the import
    of a version 1 contract.  The Ed25519 operations are parameters.  The
    strict JSON reader of operator input is in [Contracts]. *)

From S2P Require Import Prelude Kernel Grants Json Text Encoding Digests Wire Receipts.
From Stdlib Require Import Ascii String.
Import Effect Lifecycle.
Local Open Scope Z_scope.
Local Open Scope korvun_scope.
#[local] Arguments String.append !_ _ : simpl nomatch.

Definition intentContractDomain : string := "korvun.intent.v2".
Definition intentEventDomain : string := "korvun.intent-event.v1".
Definition maxIntentSetEntries : Z := 256.
Definition maxIntentPurpose : Z := 4096.

Definition ErrIntentSchemaVersion : error := ErrorNew "action: unsupported intent schema version".
Definition ErrIntentBudget : error := ErrorNew "action: invalid intent budget".
Definition ErrIntentEvidenceCorrupt : error := ErrorNew "action: intent evidence corrupt".
Definition ErrIntentInactive : error := ErrorNew "action: intent inactive".
Definition ErrIntentRevoked : error := ErrorNew "action: intent revoked".
Definition ErrIntentExpired : error := ErrorNew "action: intent expired".

(** ** Terms *)

(** A Go slice: [None] is nil, which [encoding/json] tells from an empty one. *)
Abbreviation slice A := (option (list A)) (only parsing).
Definition elems {A} (s : slice A) : list A := default [] s.
Definition over_cap {A} (l : list A) : bool := maxIntentSetEntries <? Z.of_nat (List.length l).

Module OperationRef.

Record t := { Namespace : string; Name : string; Version : Z }.

End OperationRef.

#[export] Instance OperationRef_eq : EqDecision OperationRef.t.
Proof. solve_decision. Defined.

Module ResourceRef.

Record t := { Kind : string; ID : string }.

End ResourceRef.

#[export] Instance ResourceRef_eq : EqDecision ResourceRef.t.
Proof. solve_decision. Defined.

Module IntentBudgetV2.

Record t := { Total : option Z; PerOperation : option (gmap string Z) }.

(** Reading a nil map is reading an empty one. *)
Definition per (b : t) : gmap string Z := default ∅ b.(PerOperation).

End IntentBudgetV2.

Module ApprovalRequirementV2.

Record t := { Required : bool }.

End ApprovalRequirementV2.

Module IntentContractV2.

Record t := {
  IntentID : string;
  SchemaVersion : Z;
  Version : Z;
  ProfileID : string;
  OwnerPrincipalID : string;
  Purpose : string;
  Operations : slice OperationRef.t;
  AllowedResources : slice ResourceRef.t;
  DeniedResources : slice ResourceRef.t;
  DataScope : slice string;
  OutputDestinations : slice string;
  EffectClasses : slice EffectClass;
  Budget : IntentBudgetV2.t;
  ValidFrom : time;
  ExpiresAt : time;
  Approval : ApprovalRequirementV2.t;
  MaxDelegationDepth : Z
}.

End IntentContractV2.

(** ** Validation *)

(** [fmt.Sprintf] of "namespace/name@version". *)
Definition operation_text (op : OperationRef.t) : string :=
  op.(OperationRef.Namespace) +:+ "/" +:+ op.(OperationRef.Name) +:+ "@"
  +:+ Itoa op.(OperationRef.Version).

Definition bad_operation (op : OperationRef.t) : bool :=
  bool_decide (op.(OperationRef.Namespace) = "") || bool_decide (op.(OperationRef.Name) = "")
  || (op.(OperationRef.Version) <=? 0).

Definition bad_resource (r : ResourceRef.t) : bool :=
  bool_decide (r.(ResourceRef.Kind) = "") || bool_decide (r.(ResourceRef.ID) = "").

Definition op_key (op : OperationRef.t) : string := "op:" +:+ operation_text op.
Definition res_key (r : ResourceRef.t) : string :=
  "res:" +:+ r.(ResourceRef.Kind) +:+ ":" +:+ r.(ResourceRef.ID).
Definition str_key (v : string) : string := "str:" +:+ v.
Definition effect_key (e : EffectClass) : string := "effect:" +:+ e.

Section Validate.
Import IntentContractV2.

Definition duplicate {A} (key : A -> string) (x : A) : error :=
  ErrorNew ("action: duplicate intent set member " +:+ key x).

Definition validateIntentSets (c : IntentContractV2.t) : option error :=
  if bool_decide (List.length (elems c.(Operations)) = 0%nat)
  then Some (ErrorNew "action: intent needs an operation")
  else if over_cap (elems c.(Operations)) || over_cap (elems c.(AllowedResources))
          || over_cap (elems c.(DeniedResources)) || over_cap (elems c.(DataScope))
          || over_cap (elems c.(OutputDestinations)) || over_cap (elems c.(EffectClasses))
  then Some (ErrorNew "action: intent set exceeds 256 entries")
  else
    let r :=
      let? s1 := each (unique_step bad_operation op_key
          (fun _ => ErrorNew "action: invalid operation reference") (duplicate op_key))
        (elems c.(Operations)) ∅ in
      let? s2 := each (unique_step bad_resource res_key
          (fun _ => ErrorNew "action: invalid resource reference") (duplicate res_key))
        (elems c.(AllowedResources) ++ elems c.(DeniedResources)) s1 in
      let? s3 := each (unique_step (fun v => bool_decide (v = "")) str_key
          (fun _ => ErrorNew "action: empty set member") (duplicate str_key))
        (elems c.(DataScope) ++ elems c.(OutputDestinations)) s2 in
      each (unique_step (fun e => negb (Known e)) effect_key
          (fun e => ErrorNew ("action: unknown effect class " +:+ e)) (duplicate effect_key))
        (elems c.(EffectClasses)) s3
    in match r with Ok _ => None | Err e => Some e end.

(** The per-operation loop refuses with one error, whatever the map's order. *)
Definition Validate (c : IntentContractV2.t) : option error :=
  fail_if (bool_decide (c.(SchemaVersion) <> 2))
    (ErrorWrap (Itoa c.(SchemaVersion)) ErrIntentSchemaVersion) ;;;
  fail_if (bool_decide (c.(IntentID) = "") || bool_decide (c.(ProfileID) = "")
           || bool_decide (c.(OwnerPrincipalID) = "") || (c.(Version) <=? 0))
    (ErrorNew "action: intent identity fields are required") ;;;
  fail_if (bool_decide (String.length c.(Purpose) = 0%nat)
           || (maxIntentPurpose <? Z.of_nat (String.length c.(Purpose))))
    (ErrorNew "action: intent purpose is empty or too long") ;;;
  fail_if (time_is_zero c.(ValidFrom) || time_is_zero c.(ExpiresAt)
           || negb (time_before c.(ValidFrom) c.(ExpiresAt)))
    (ErrorNew "action: intent window must be non-empty") ;;;
  fail_if (c.(MaxDelegationDepth) <? 0) (ErrorNew "action: negative delegation depth") ;;;
  fail_if (match c.(Budget).(IntentBudgetV2.Total) with Some n => n <? 0 | None => false end)
    ErrIntentBudget ;;;
  fail_if (maxIntentSetEntries <? Z.of_nat (size (IntentBudgetV2.per c.(Budget))))
    (ErrorNew "action: too many per-operation budgets") ;;;
  check_all (fun p => fail_if (p.2 <? 0) ErrIntentBudget)
    (map_to_list (IntentBudgetV2.per c.(Budget))) ;;;
  validateIntentSets c.

End Validate.

(** ** Canonical bytes *)

Definition op_le : OperationRef.t -> OperationRef.t -> Prop :=
  then_by OperationRef.Namespace String.le
    (then_by OperationRef.Name String.le (on OperationRef.Version Z.le)).

Definition res_le : ResourceRef.t -> ResourceRef.t -> Prop :=
  then_by ResourceRef.Kind String.le (on ResourceRef.ID String.le).

#[export] Instance op_le_dec : RelDecision op_le.
Proof. unfold op_le. apply _. Defined.
#[export] Instance op_le_total : Total op_le.
Proof. unfold op_le. apply _. Qed.
#[export] Instance op_le_trans : Transitive op_le.
Proof. unfold op_le. apply _. Qed.
#[export] Instance res_le_dec : RelDecision res_le.
Proof. unfold res_le. apply _. Defined.
#[export] Instance res_le_total : Total res_le.
Proof. unfold res_le. apply _. Qed.
#[export] Instance res_le_trans : Transitive res_le.
Proof. unfold res_le. apply _. Qed.

Definition op_value (op : OperationRef.t) : value :=
  VObject [("namespace", VString op.(OperationRef.Namespace));
           ("name", VString op.(OperationRef.Name)); ("version", num op.(OperationRef.Version))].

Definition res_value (r : ResourceRef.t) : value :=
  VObject [("kind", VString r.(ResourceRef.Kind)); ("id", VString r.(ResourceRef.ID))].

Definition slice_value {A} (f : A -> value) (s : slice A) : value :=
  match s with None => VNull | Some l => VArray (map f l) end.

(** [json.Marshal] of a budget: the map's keys come out sorted. *)
Definition budget_value (b : IntentBudgetV2.t) : value :=
  VObject
    [("total", match b.(IntentBudgetV2.Total) with None => VNull | Some n => num n end);
     ("per_operation",
       match b.(IntentBudgetV2.PerOperation) with
       | None => VNull
       | Some m => canon (VObject (map (fun p => (p.1, num p.2)) (map_to_list m)))
       end)].

Definition approval_value (a : ApprovalRequirementV2.t) : value :=
  VObject [("required", VBool a.(ApprovalRequirementV2.Required))].

Section Canonical.
Import IntentContractV2.

Definition intent_value (c : IntentContractV2.t) : value :=
  VObject
    [("intent_id", VString c.(IntentID)); ("schema_version", num 2);
     ("version", num c.(Version)); ("profile_id", VString c.(ProfileID));
     ("owner_principal_id", VString c.(OwnerPrincipalID)); ("purpose", VString c.(Purpose));
     ("operations", slice_value op_value (merge_sort op_le <$> c.(Operations)));
     ("allowed_resources", slice_value res_value (merge_sort res_le <$> c.(AllowedResources)));
     ("denied_resources", slice_value res_value (merge_sort res_le <$> c.(DeniedResources)));
     ("data_scope", slice_value VString (sort_strings <$> c.(DataScope)));
     ("output_destinations", slice_value VString (sort_strings <$> c.(OutputDestinations)));
     ("effect_classes", slice_value VString (sort_strings <$> c.(EffectClasses)));
     ("budget", budget_value c.(Budget)); ("valid_from", VString (timeTerm c.(ValidFrom)));
     ("expires_at", VString (timeTerm c.(ExpiresAt)));
     ("approval", approval_value c.(Approval));
     ("max_delegation_depth", num c.(MaxDelegationDepth))].

Definition CanonicalBytes (c : IntentContractV2.t) : string := print (intent_value c).

Definition IntentContractV2_Digest (c : IntentContractV2.t) : string :=
  pinned (sha256 (CanonicalBytes c)).

End Canonical.

(** ** Lifecycle events *)

Module IntentEventV1.

Record t := {
  EventID : string;
  IntentID : string;
  Version : Z;
  Revision : Z;
  From : LifecycleStatus;
  To : LifecycleStatus;
  ActorPrincipalID : string;
  EvidenceDigest : string;
  OccurredAt : time;
  PreviousEventDigest : string
}.

End IntentEventV1.

Definition event_schema : schema :=
  [("event_id", KString); ("intent_id", KString); ("version", KInt); ("revision", KInt);
   ("from", KString); ("to", KString); ("actor_principal_id", KString);
   ("evidence_digest", KString); ("occurred_at", KString); ("previous_event_digest", KString)].

Definition event_canonicalBytes (e : IntentEventV1.t) : string :=
  marshal event_schema
    [SString e.(IntentEventV1.EventID); SString e.(IntentEventV1.IntentID);
     SInt e.(IntentEventV1.Version); SInt e.(IntentEventV1.Revision);
     SString e.(IntentEventV1.From); SString e.(IntentEventV1.To);
     SString e.(IntentEventV1.ActorPrincipalID); SString e.(IntentEventV1.EvidenceDigest);
     SString (timeTerm e.(IntentEventV1.OccurredAt));
     SString e.(IntentEventV1.PreviousEventDigest)].

Definition IntentV2LifecycleTransition (from to : LifecycleStatus) : option error :=
  LifecycleTransition from to.

(** ** Signatures under a domain *)

(** The hash signed: a domain, a NUL byte, the canonical bytes. *)
Definition domain_message (domain canonical : string) : string :=
  sha256 (domain +:+ String (byte 0) canonical).

Definition intentSigningMessage (canonical : string) : string :=
  domain_message intentContractDomain canonical.
Definition eventSigningMessage (canonical : string) : string :=
  domain_message intentEventDomain canonical.

Record SignedIntentContractV2 := {
  sc_Contract : IntentContractV2.t;
  sc_Digest : string;
  sc_SigningKeyID : string;
  sc_Signature : string
}.

Record SignedIntentEventV1 := {
  se_Event : IntentEventV1.t;
  se_Digest : string;
  se_SigningKeyID : string;
  se_Signature : string
}.

(** [hex.DecodeString] with its error ignored: the bytes before the first
    malformed pair. *)
Fixpoint hex_decode_prefix (s : string) : string :=
  match s with
  | String a (String b s') =>
      match hex_digit a, hex_digit b with
      | Some x, Some y => String (byte (16 * x + y)) (hex_decode_prefix s')
      | _, _ => EmptyString
      end
  | _ => EmptyString
  end.

Definition signatureBytes (s : SignedIntentEventV1) : string := hex_decode_prefix s.(se_Signature).

Section Signing.
Context (PrivateKey : Type) (Public : PrivateKey -> string)
  (Sign : PrivateKey -> string -> string) (Verify : string -> string -> string -> bool).

Definition SignIntentContractV2 (priv : PrivateKey) (c : IntentContractV2.t)
    : SignedIntentContractV2 :=
  {| sc_Contract := c;
     sc_Digest := IntentContractV2_Digest c;
     sc_SigningKeyID := DeriveSigningKeyID (Public priv);
     sc_Signature := hex_encode (Sign priv (intentSigningMessage (CanonicalBytes c))) |}.

Definition VerifyIntentContractV2 (pub : string) (s : SignedIntentContractV2) : option error :=
  match Validate s.(sc_Contract) with
  | Some _ => Some (ErrorWrap "validate" ErrIntentEvidenceCorrupt)
  | None =>
      if bool_decide (s.(sc_Digest) <> IntentContractV2_Digest s.(sc_Contract))
         || bool_decide (s.(sc_SigningKeyID) <> DeriveSigningKeyID pub)
      then Some ErrIntentEvidenceCorrupt
      else match hex_decode s.(sc_Signature) with
           | None => Some ErrIntentEvidenceCorrupt
           | Some sig =>
               if Verify pub (intentSigningMessage (CanonicalBytes s.(sc_Contract))) sig
               then None else Some ErrIntentEvidenceCorrupt
           end
  end.

Definition SignIntentEventV1 (priv : PrivateKey) (e : IntentEventV1.t) : SignedIntentEventV1 :=
  let b := event_canonicalBytes e in
  {| se_Event := e;
     se_Digest := pinned (sha256 b);
     se_SigningKeyID := DeriveSigningKeyID (Public priv);
     se_Signature := hex_encode (Sign priv (eventSigningMessage b)) |}.

Definition VerifyIntentEventV1 (pub : string) (s : SignedIntentEventV1) : option error :=
  let b := event_canonicalBytes s.(se_Event) in
  if bool_decide (s.(se_Digest) <> pinned (sha256 b))
     || bool_decide (s.(se_SigningKeyID) <> DeriveSigningKeyID pub)
  then Some ErrIntentEvidenceCorrupt
  else if Verify pub (eventSigningMessage b) (signatureBytes s)
  then None else Some ErrIntentEvidenceCorrupt.

End Signing.

(** ** Bindings and versioned reads *)

Definition BindingStatus := string.
Definition BindingActive : BindingStatus := "ACTIVE".
Definition BindingRevoked : BindingStatus := "REVOKED".

Module ExecutionBinding.

Record t := {
  BindingID : string;
  ActorPrincipalID : string;
  Channel : string;
  ConversationID : string;
  IntentID : string;
  IntentVersion : Z;
  IntentDigest : string;
  GrantID : string;
  GrantVersion : Z;
  GrantDigest : string;
  Revision : Z;
  Status : BindingStatus
}.

End ExecutionBinding.

Definition IntentProvenance := string.
Definition IntentProvenanceSignedV2 : IntentProvenance := "signed_v2".
Definition IntentProvenanceUnsignedV2 : IntentProvenance := "unsigned_v2".
Definition IntentProvenanceLegacyUnsigned : IntentProvenance := "legacy_unsigned".

Record IntentAnyVersion := {
  av_Provenance : IntentProvenance;
  av_SignedV2 : option SignedIntentContractV2;
  av_Legacy : option IntentContract.t
}.

(** ** Importing a version 1 contract *)

(** [time.Date(9999, 12, 31, 23, 59, 59)] and [time.Unix(0, 0)]. *)
Definition end_of_time : time := (3652058 * 86400 + 86399) * Second.
Definition unix_epoch : time := 62135596800 * Second.

Example end_of_time_text : rfc3339 end_of_time = "9999-12-31T23:59:59Z".
Proof. vm_compute. reflexivity. Qed.

Example unix_epoch_text : rfc3339 unix_epoch = "1970-01-01T00:00:00Z".
Proof. vm_compute. reflexivity. Qed.

Definition legacy_operation (name : string) : OperationRef.t :=
  {| OperationRef.Namespace := "legacy"; OperationRef.Name := name; OperationRef.Version := 1 |}.
Definition legacy_resource (id : string) : ResourceRef.t :=
  {| ResourceRef.Kind := "legacy"; ResourceRef.ID := id |}.
Definition legacy_key (name : string) : string := "legacy/" +:+ name +:+ "@1".

Definition imported_terms (legacy : IntentContract.t) (profileID : string) : IntentContractV2.t :=
  {| IntentContractV2.IntentID := legacy.(IntentContract.IntentID);
     IntentContractV2.SchemaVersion := 2;
     IntentContractV2.Version := wrap64 (legacy.(IntentContract.Version) + 1);
     IntentContractV2.ProfileID := profileID;
     IntentContractV2.OwnerPrincipalID := legacy.(IntentContract.OwnerPrincipalID);
     IntentContractV2.Purpose := legacy.(IntentContract.Purpose);
     IntentContractV2.Operations :=
       Some (map legacy_operation legacy.(IntentContract.AllowedOperations));
     IntentContractV2.AllowedResources :=
       Some (map legacy_resource legacy.(IntentContract.AllowedResources));
     IntentContractV2.DeniedResources := None;
     IntentContractV2.DataScope := None;
     IntentContractV2.OutputDestinations := None;
     IntentContractV2.EffectClasses :=
       Some [EffectPure; EffectReadExternal; EffectWriteReversible; EffectWriteCompensatable;
             EffectWriteIrreversible; EffectCritical];
     IntentContractV2.Budget :=
       {| IntentBudgetV2.Total :=
            if 0 <? legacy.(IntentContract.Budgets).(MaxActions)
            then Some legacy.(IntentContract.Budgets).(MaxActions) else None;
          IntentBudgetV2.PerOperation :=
            Some (kmap legacy_key (MaxActionsPerOperation legacy.(IntentContract.Budgets))) |};
     IntentContractV2.ValidFrom :=
       if time_is_zero legacy.(IntentContract.ValidFrom)
       then unix_epoch else legacy.(IntentContract.ValidFrom);
     IntentContractV2.ExpiresAt :=
       if time_is_zero legacy.(IntentContract.ExpiresAt)
       then end_of_time else legacy.(IntentContract.ExpiresAt);
     IntentContractV2.Approval := {| ApprovalRequirementV2.Required := false |};
     IntentContractV2.MaxDelegationDepth := 0 |}.

Definition ImportLegacyIntentV2 (legacy : IntentContract.t) (profileID : string)
    : result IntentContractV2.t :=
  let status := legacy.(IntentContract.Status) in
  if bool_decide (legacy.(IntentContract.IntentID) = "") || bool_decide (profileID = "")
  then Err (ErrorNew "action: legacy intent and profile are required")
  else if bool_decide (status = LifecycleActive) then
    let c := imported_terms legacy profileID in
    match Validate c with Some e => Err e | None => Ok c end
  else if bool_decide (status = LifecycleRevoked)
  then Err (ErrorWrap ("legacy intent " +:+ legacy.(IntentContract.IntentID)) ErrIntentRevoked)
  else if bool_decide (status = LifecycleExpired)
  then Err (ErrorWrap ("legacy intent " +:+ legacy.(IntentContract.IntentID)) ErrIntentExpired)
  else Err (ErrorWrap ("legacy intent " +:+ legacy.(IntentContract.IntentID)) ErrIntentInactive).

(** ** Lemmas: validation *)

Lemma let_ok {A B} (a : result A) (f : A -> result B) (b : B) :
  match a with Ok x => f x | Err e => Err e end = Ok b <-> exists x, a = Ok x /\ f x = Ok b.
Proof. destruct a; naive_solver. Qed.

Lemma ok_None {A} (a : result A) :
  match a with Ok _ => None | Err e => Some e end = None <-> exists x, a = Ok x.
Proof. destruct a; naive_solver. Qed.

#[export] Instance str_key_inj : Inj (=) (=) str_key.
Proof. by intros x y [= ?]. Qed.
#[export] Instance effect_key_inj : Inj (=) (=) effect_key.
Proof. by intros x y [= ?]. Qed.

Definition small {A} (l : list A) : Prop := Z.of_nat (List.length l) <= maxIntentSetEntries.

Lemma over_cap_false {A} (l : list A) : over_cap l = false <-> small l.
Proof. apply Z.ltb_ge. Qed.

(** The sets a contract may carry: bounded, well-formed, without repetition
    inside a group; a datum and a destination share one name space, and so do
    allowed and denied resources. *)
Record sets_ok (c : IntentContractV2.t) : Prop := {
  so_some : elems c.(IntentContractV2.Operations) <> [];
  so_small : small (elems c.(IntentContractV2.Operations))
    /\ small (elems c.(IntentContractV2.AllowedResources))
    /\ small (elems c.(IntentContractV2.DeniedResources))
    /\ small (elems c.(IntentContractV2.DataScope))
    /\ small (elems c.(IntentContractV2.OutputDestinations))
    /\ small (elems c.(IntentContractV2.EffectClasses));
  so_operations :
    Forall (fun o => bad_operation o = false) (elems c.(IntentContractV2.Operations));
  so_operations_dup : NoDup (op_key <$> elems c.(IntentContractV2.Operations));
  so_resources : Forall (fun r => bad_resource r = false)
    (elems c.(IntentContractV2.AllowedResources) ++ elems c.(IntentContractV2.DeniedResources));
  so_resources_dup : NoDup (res_key <$>
    (elems c.(IntentContractV2.AllowedResources) ++ elems c.(IntentContractV2.DeniedResources)));
  so_strings : "" ∉ elems c.(IntentContractV2.DataScope)
                    ++ elems c.(IntentContractV2.OutputDestinations);
  so_strings_dup : NoDup (elems c.(IntentContractV2.DataScope)
                          ++ elems c.(IntentContractV2.OutputDestinations));
  so_effects : Forall (fun e => Known e = true) (elems c.(IntentContractV2.EffectClasses));
  so_effects_dup : NoDup (elems c.(IntentContractV2.EffectClasses));
}.

Lemma NoDup_key_iff {A} (f : A -> string) `{!Inj (=) (=) f} (l : list A) : NoDup (f <$> l) <-> NoDup l.
Proof. split; [apply NoDup_fmap_1|by apply NoDup_fmap_2]. Qed.

Lemma not_empty_iff (l : list string) :
  Forall (fun v => bool_decide (v = "") = false) l <-> "" ∉ l.
Proof.
  rewrite Forall_forall. split.
  - intros H Hin. specialize (H "" Hin). by apply bool_decide_eq_false in H.
  - intros H x Hx. apply bool_decide_eq_false. by intros ->.
Qed.

Lemma sets_None c : validateIntentSets c = None <-> sets_ok c.
Proof.
  assert (forall l : list EffectClass, Forall (fun e => negb (Known e) = false) l
    <-> Forall (fun e => Known e = true) l) as Hk.
  { intros l. apply Forall_iff. intros e. apply negb_false_iff. }
  unfold validateIntentSets. case_bool_decide as H0.
  { split; [done|]. intros [S _]. by destruct (elems c.(IntentContractV2.Operations)). }
  destruct (_ || _) eqn:H1.
  { split; [done|]. intros [_ (S1 & S2 & S3 & S4 & S5 & S6) _].
    apply over_cap_false in S1, S2, S3, S4, S5, S6. by rewrite S1, S2, S3, S4, S5, S6 in H1. }
  repeat apply orb_false_iff in H1 as [H1 ?]. rewrite ok_None. split.
  - intros (s4 & Hr). apply let_ok in Hr as (s1 & E1 & Hr). apply let_ok in Hr as (s2 & E2 & Hr).
    apply let_ok in Hr as (s3 & E3 & E4).
    apply each_unique in E1 as (A1 & B1 & _ & ->). apply each_unique in E2 as (A2 & B2 & _ & ->).
    apply each_unique in E3 as (A3 & B3 & _ & ->). apply each_unique in E4 as (A4 & B4 & _ & _).
    split; try done.
    + by intros E; rewrite E in H0.
    + rewrite <- !over_cap_false. by split_and!.
    + by apply not_empty_iff.
    + exact (proj1 (NoDup_key_iff str_key _) B3).
    + by apply Hk.
    + exact (proj1 (NoDup_key_iff effect_key _) B4).
  - intros [_ _ A1 B1 A2 B2 A3 B3 A4 B4]. eexists.
    apply let_ok. eexists. split; [apply each_unique; split_and!; [done|done|set_solver|done]|].
    apply let_ok. eexists. split; [apply each_unique; split_and!; [done|done| |done]|].
    { intros x Hx. rewrite elem_of_union, elem_of_list_to_set, list_elem_of_fmap.
      intros [(y & Hy & _)|Hin]; [done|set_solver]. }
    apply let_ok. eexists. split; [apply each_unique; split_and!; [by apply not_empty_iff
      |exact (proj2 (NoDup_key_iff str_key _) B3)| |done]|].
    { intros x Hx. rewrite !elem_of_union, !elem_of_list_to_set, !list_elem_of_fmap.
      intros [(y & Hy & _)|[(y & Hy & _)|Hin]]; [done|done|set_solver]. }
    apply each_unique. split_and!; [by apply Hk|exact (proj2 (NoDup_key_iff effect_key _) B4)| |done].
    intros x Hx. rewrite !elem_of_union, !elem_of_list_to_set, !list_elem_of_fmap.
    intros [(y & Hy & _)|[(y & Hy & _)|[(y & Hy & _)|Hin]]]; [done|done|done|set_solver].
Qed.

(** What a valid contract says. *)
Record intent_ok (c : IntentContractV2.t) : Prop := {
  io_schema : c.(IntentContractV2.SchemaVersion) = 2;
  io_ids : c.(IntentContractV2.IntentID) <> "" /\ c.(IntentContractV2.ProfileID) <> ""
    /\ c.(IntentContractV2.OwnerPrincipalID) <> "" /\ 0 < c.(IntentContractV2.Version);
  io_purpose : 0 < Z.of_nat (String.length c.(IntentContractV2.Purpose)) <= 4096;
  io_window : c.(IntentContractV2.ValidFrom) <> 0 /\ c.(IntentContractV2.ExpiresAt) <> 0
    /\ c.(IntentContractV2.ValidFrom) < c.(IntentContractV2.ExpiresAt);
  io_depth : 0 <= c.(IntentContractV2.MaxDelegationDepth);
  io_total : forall n, c.(IntentContractV2.Budget).(IntentBudgetV2.Total) = Some n -> 0 <= n;
  io_per_size : Z.of_nat (size (IntentBudgetV2.per c.(IntentContractV2.Budget))) <= 256;
  io_per : map_Forall (fun _ n => 0 <= n) (IntentBudgetV2.per c.(IntentContractV2.Budget));
  io_sets : sets_ok c;
}.

Lemma per_entries_None (m : gmap string Z) e :
  check_all (fun p : string * Z => fail_if (p.2 <? 0) e) (map_to_list m) = None
  <-> map_Forall (fun _ n => 0 <= n) m.
Proof.
  rewrite check_all_None, map_Forall_to_list. apply Forall_iff. intros [k n].
  rewrite fail_if_None. apply Z.ltb_ge.
Qed.

Lemma intent_validity_window c :
  Validate c = None -> c.(IntentContractV2.ValidFrom) < c.(IntentContractV2.ExpiresAt).
Proof.
  unfold Validate. rewrite !first_error_None, !fail_if_None. intros (_ & _ & _ & H & _).
  apply orb_false_iff in H as [_ H]. apply negb_false_iff in H. by apply Z.ltb_lt.
Qed.

(** C39.  [Validate] accepts exactly the contracts that satisfy every
    bound: the mutable set it threads through four loops decides that no
    operation key, no resource (allowed or denied), no data class or
    destination and no effect class is listed twice, and every refusal rests
    on one of the stated conditions.  In particular a data class that is also
    named as an output destination is refused, although the two are different
    dimensions. *)
Theorem intent_validation_is_exact (c : IntentContractV2.t) :
  (Validate c = None <-> intent_ok c)
  /\ forall v, v ∈ elems c.(IntentContractV2.DataScope) ->
       v ∈ elems c.(IntentContractV2.OutputDestinations) -> Validate c <> None.
Proof.
  assert (Validate c = None <-> intent_ok c) as H.
  { unfold Validate. rewrite !first_error_None, !fail_if_None, per_entries_None, sets_None.
    unfold time_is_zero, time_before, maxIntentPurpose, maxIntentSetEntries. split.
    - intros (H1 & H2 & H3 & H4 & H5 & H6 & H7 & H8 & H9). bools.
      split; try done; try lia.
      intros n Hn. rewrite Hn in H6. lia.
    - intros [H1 (A1 & A2 & A3 & A4) H3 (B1 & B2 & B3) H5 H6 H7 H8 H9].
      split_and!; try done; try (apply Z.ltb_ge; lia).
      + by rewrite bool_decide_eq_false_2 by tauto.
      + rewrite !bool_decide_eq_false_2 by done. simpl. apply Z.leb_gt. lia.
      + rewrite bool_decide_eq_false_2 by lia. simpl. apply Z.ltb_ge. lia.
      + rewrite !bool_decide_eq_false_2 by done. simpl. apply negb_false_iff, Z.ltb_lt. lia.
      + destruct (IntentBudgetV2.Total _) eqn:E; [|done]. apply Z.ltb_ge. by apply H6. }
  split; [exact H|]. intros v H1 H2 [_ _ _ _ _ _ _ _ [_ _ _ _ _ _ _ Hd _ _]]%H.
  apply NoDup_app in Hd as (_ & Hd & _). by apply (Hd v).
Qed.

(** ** Lemmas: canonical values *)

#[export] Instance VString_inj : Inj (=) (=) VString.
Proof. by intros x y [= ?]. Qed.

#[export] Instance op_value_inj : Inj (=) (=) op_value.
Proof.
  intros [a b n] [a' b' n'] [= -> -> H]. by apply Itoa_inj in H as ->.
Qed.

#[export] Instance res_value_inj : Inj (=) (=) res_value.
Proof. by intros [a b] [a' b'] [= -> ->]. Qed.

#[export] Instance op_le_anti_symm : AntiSymm (=) op_le.
Proof.
  intros [a b n] [a' b' n']. unfold op_le, then_by, on. simpl.
  intros [[N H]|[-> [[N H]|[-> H]]]] [[N' H']|[E' [[N'' H']|[E'' H']]]]; subst; try done.
  - destruct N. by apply (anti_symm String.le).
  - destruct N. by apply (anti_symm String.le).
  - f_equal. lia.
Qed.

#[export] Instance res_le_anti_symm : AntiSymm (=) res_le.
Proof.
  intros [a b] [a' b']. unfold res_le, then_by, on. simpl.
  intros [[N H]|[-> H]] [[N' H']|[E' H']]; subst; try done.
  - destruct N. by apply (anti_symm String.le).
  - f_equal. by apply (anti_symm String.le).
Qed.

(** Nil is not empty; two present slices agree up to order. *)
Definition same_slice {A} (s s' : slice A) : Prop :=
  match s, s' with
  | None, None => True
  | Some l, Some k => l ≡ₚ k
  | _, _ => False
  end.

Lemma map_value_inj {A} (f : A -> value) `{!Inj (=) (=) f} (l k : list A) :
  map f l = map f k <-> l = k.
Proof.
  split; [|by intros ->]. revert k. induction l as [|x l IH]; intros [|y k]; try done.
  simpl. intros [= H1%(inj f) H2%IH]. by subst.
Qed.

Lemma slice_value_sorted {A} (f : A -> value) `{!Inj (=) (=) f} (R : A -> A -> Prop)
    `{!RelDecision R, !Total R, !Transitive R, !AntiSymm (=) R} (s s' : slice A) :
  slice_value f (merge_sort R <$> s) = slice_value f (merge_sort R <$> s') <-> same_slice s s'.
Proof.
  destruct s as [l|], s' as [k|]; simpl; try done.
  split.
  - intros [= H]. apply map_value_inj in H; [|done].
    rewrite <- (merge_sort_Permutation R l), <- (merge_sort_Permutation R k). by rewrite H.
  - intros H. do 2 f_equal. apply (merge_sort_unique R l k); [|exact H]. intros x y _ _. apply (anti_symm R).
Qed.

Lemma slice_strings s s' :
  slice_value VString (sort_strings <$> s) = slice_value VString (sort_strings <$> s')
  <-> same_slice s s'.
Proof. exact (slice_value_sorted VString String.le s s'). Qed.

Lemma budget_value_inj b b' : budget_value b = budget_value b' <-> b = b'.
Proof.
  split; [|by intros ->]. destruct b as [n p], b' as [n' p'].
  unfold budget_value. cbn [IntentBudgetV2.Total IntentBudgetV2.PerOperation].
  intros H. injection H as H1 H2. f_equal.
  - destruct n as [n|], n' as [n'|]; try done. f_equal. by apply num_inj.
  - destruct p as [m|], p' as [m'|]; try done. f_equal. apply map_eq. intros k.
    assert (canon (VObject (map (fun p => (p.1, num p.2)) (map_to_list m)))
      = canon (VObject (map (fun p => (p.1, num p.2)) (map_to_list m')))) as Hc by (simpl; congruence).
    apply (canon_object_member _ _ k) in Hc. rewrite !member_map_to_list in Hc.
    destruct (m !! k), (m' !! k); simpl in Hc; try done. f_equal.
    apply (inj Some) in Hc. by apply num_inj.
Qed.

(** Equal but for the order of the sets. *)
Record same_intent (c c' : IntentContractV2.t) : Prop := {
  si_id : c.(IntentContractV2.IntentID) = c'.(IntentContractV2.IntentID);
  si_version : c.(IntentContractV2.Version) = c'.(IntentContractV2.Version);
  si_profile : c.(IntentContractV2.ProfileID) = c'.(IntentContractV2.ProfileID);
  si_owner : c.(IntentContractV2.OwnerPrincipalID) = c'.(IntentContractV2.OwnerPrincipalID);
  si_purpose : c.(IntentContractV2.Purpose) = c'.(IntentContractV2.Purpose);
  si_operations : same_slice c.(IntentContractV2.Operations) c'.(IntentContractV2.Operations);
  si_allowed : same_slice c.(IntentContractV2.AllowedResources) c'.(IntentContractV2.AllowedResources);
  si_denied : same_slice c.(IntentContractV2.DeniedResources) c'.(IntentContractV2.DeniedResources);
  si_data : same_slice c.(IntentContractV2.DataScope) c'.(IntentContractV2.DataScope);
  si_outputs :
    same_slice c.(IntentContractV2.OutputDestinations) c'.(IntentContractV2.OutputDestinations);
  si_effects : same_slice c.(IntentContractV2.EffectClasses) c'.(IntentContractV2.EffectClasses);
  si_budget : c.(IntentContractV2.Budget) = c'.(IntentContractV2.Budget);
  si_from : c.(IntentContractV2.ValidFrom) = c'.(IntentContractV2.ValidFrom);
  si_until : c.(IntentContractV2.ExpiresAt) = c'.(IntentContractV2.ExpiresAt);
  si_approval : c.(IntentContractV2.Approval) = c'.(IntentContractV2.Approval);
  si_depth : c.(IntentContractV2.MaxDelegationDepth) = c'.(IntentContractV2.MaxDelegationDepth);
}.

Definition op_text (o : OperationRef.t) : Prop :=
  utf8 o.(OperationRef.Namespace) /\ utf8 o.(OperationRef.Name).
Definition res_text (r : ResourceRef.t) : Prop :=
  utf8 r.(ResourceRef.Kind) /\ utf8 r.(ResourceRef.ID).
Definition budget_text (b : IntentBudgetV2.t) : Prop :=
  Forall (fun p => utf8 p.1) (map_to_list (IntentBudgetV2.per b)).

(** Text the wire can carry. *)
Record intent_text (c : IntentContractV2.t) : Prop := {
  it_strings : Forall utf8
    [c.(IntentContractV2.IntentID); c.(IntentContractV2.ProfileID);
     c.(IntentContractV2.OwnerPrincipalID); c.(IntentContractV2.Purpose)];
  it_operations : Forall op_text (elems c.(IntentContractV2.Operations));
  it_allowed : Forall res_text (elems c.(IntentContractV2.AllowedResources));
  it_denied : Forall res_text (elems c.(IntentContractV2.DeniedResources));
  it_data : Forall utf8 (elems c.(IntentContractV2.DataScope));
  it_outputs : Forall utf8 (elems c.(IntentContractV2.OutputDestinations));
  it_effects : Forall utf8 (elems c.(IntentContractV2.EffectClasses));
  it_budget : budget_text c.(IntentContractV2.Budget);
  it_from : rfc3339_range c.(IntentContractV2.ValidFrom);
  it_until : rfc3339_range c.(IntentContractV2.ExpiresAt);
}.

(** An object with literal ASCII member names is as well formed as its members. *)
Ltac wf_members :=
  repeat (apply Forall_cons; split; [split; [by apply ascii_only_utf8|cbn [snd]]|]);
  try match goal with |- Forall _ [] => constructor end.

Lemma op_value_wf d o : d + 1 <= maxNestingDepth -> op_text o -> wf d (op_value o).
Proof.
  intros Hd [H1 H2]. constructor; [done|]. wf_members; auto with terms.
Qed.

Lemma res_value_wf d r : d + 1 <= maxNestingDepth -> res_text r -> wf d (res_value r).
Proof.
  intros Hd [H1 H2]. constructor; [done|]. wf_members; auto with terms.
Qed.

Lemma slice_value_wf {A} (f : A -> value) (P : A -> Prop) (g : list A -> list A) d (s : slice A) :
  (forall l, g l ≡ₚ l) -> (forall x, P x -> wf (d + 1) (f x)) -> d + 1 <= maxNestingDepth ->
  Forall P (elems s) -> wf d (slice_value f (g <$> s)).
Proof.
  intros Hg Hf Hd Hs. destruct s as [l|]; simpl; constructor; [done|].
  apply Forall_map. eapply Forall_impl; [|exact Hf]. eapply Permutation_Forall; [|exact Hs].
  symmetry. apply Hg.
Qed.

Lemma budget_value_wf d b : d + 2 <= maxNestingDepth -> budget_text b -> wf d (budget_value b).
Proof.
  intros Hd Hb. unfold budget_value. constructor; [lia|]. wf_members.
  - destruct (IntentBudgetV2.Total b); [apply num_wf|constructor].
  - unfold budget_text, IntentBudgetV2.per in Hb.
    destruct (IntentBudgetV2.PerOperation b) as [m|]; [|constructor]. apply canon_wf.
    constructor; [lia|]. apply Forall_map. eapply Forall_impl; [exact Hb|].
    intros p Hp. split; [done|apply num_wf].
Qed.

Lemma intent_value_wf c : intent_text c -> wf 0 (intent_value c).
Proof.
  intros [H1 H2 H3 H4 H5 H6 H7 H8 H9 H10]. constructor; [done|].
  repeat (apply Forall_cons in H1 as [? H1]). wf_members; auto with terms.
  - eapply slice_value_wf; [apply (merge_sort_Permutation op_le)| |done|exact H2].
    intros x Hx. by apply op_value_wf.
  - eapply slice_value_wf; [apply (merge_sort_Permutation res_le)| |done|exact H3].
    intros x Hx. by apply res_value_wf.
  - eapply slice_value_wf; [apply (merge_sort_Permutation res_le)| |done|exact H4].
    intros x Hx. by apply res_value_wf.
  - eapply slice_value_wf; [apply sort_strings_perm| |done|exact H5]. auto with terms.
  - eapply slice_value_wf; [apply sort_strings_perm| |done|exact H6]. auto with terms.
  - eapply slice_value_wf; [apply sort_strings_perm| |done|exact H7]. auto with terms.
  - by apply budget_value_wf.
  - constructor; [done|]. wf_members. constructor.
Qed.

Lemma approval_value_inj a a' : approval_value a = approval_value a' -> a = a'.
Proof. destruct a, a'. intros H. injection H as H. by subst. Qed.

(** The [i]-th member of an object, to take an equality of objects apart. *)
Definition nth_member (i : nat) (v : value) : value :=
  match v with VObject ms => nth i (map snd ms) VNull | _ => VNull end.

Ltac member_eq i H E := pose proof (f_equal (nth_member i) H) as E; cbn [nth_member nth map snd] in E.

Lemma intent_value_inj c c' :
  intent_text c -> intent_text c' -> intent_value c = intent_value c' <-> same_intent c c'.
Proof.
  intros Ht Ht'. split.
  - intros H. unfold intent_value in H.
    member_eq 0%nat H E1. member_eq 2%nat H E2. member_eq 3%nat H E3. member_eq 4%nat H E4.
    member_eq 5%nat H E5. member_eq 6%nat H E6. member_eq 7%nat H E7. member_eq 8%nat H E8.
    member_eq 9%nat H E9. member_eq 10%nat H E10. member_eq 11%nat H E11.
    member_eq 12%nat H E12. member_eq 13%nat H E13. member_eq 14%nat H E14.
    member_eq 15%nat H E15. member_eq 16%nat H E16. clear H.
    split; try first [by apply (inj VString)|exact (num_inj _ _ E2)|exact (num_inj _ _ E16)].
    + by apply (slice_value_sorted op_value op_le).
    + by apply (slice_value_sorted res_value res_le).
    + by apply (slice_value_sorted res_value res_le).
    + by apply slice_strings.
    + by apply slice_strings.
    + by apply slice_strings.
    + by apply budget_value_inj.
    + apply (inj VString), timeTerm_inj in E13; [done|apply Ht|apply Ht'].
    + apply (inj VString), timeTerm_inj in E14; [done|apply Ht|apply Ht'].
    + by apply approval_value_inj.
  - intros [E1 E2 E3 E4 E5 E6 E7 E8 E9 E10 E11 E12 E13 E14 E15 E16].
    apply (slice_value_sorted op_value op_le) in E6.
    apply (slice_value_sorted res_value res_le) in E7, E8.
    apply slice_strings in E9, E10, E11.
    unfold intent_value.
    by rewrite E1, E2, E3, E4, E5, E6, E7, E8, E9, E10, E11, E12, E13, E14, E15, E16.
Qed.

(** An intent's digest pins the consent: two contracts the wire can
    carry have the same digest exactly when they have the same terms up to the
    order of their sets, or their canonical bytes are an explicit SHA-256
    collision.  A nil set and an empty one are different terms here. *)
Theorem intent_digest_pins_the_consent (c c' : IntentContractV2.t) :
  intent_text c -> intent_text c' ->
  IntentContractV2_Digest c = IntentContractV2_Digest c' <->
  same_intent c c' \/ sha256_collision (CanonicalBytes c) (CanonicalBytes c').
Proof.
  intros H H'. unfold IntentContractV2_Digest. rewrite pinned_inj, sha256_eq_iff.
  assert (CanonicalBytes c = CanonicalBytes c' <-> same_intent c c') as Hc.
  { rewrite <- intent_value_inj by done. unfold CanonicalBytes. split; [|by intros ->].
    apply print_inj; by apply intent_value_wf. }
  by rewrite Hc.
Qed.

(** ** Lemmas: signatures *)

Section Hex.
#[local] Ltac Zify.zify_post_hook ::= Z.to_euclidean_division_equations.

Lemma hex_decode_prefix_app b tail :
  hex_decode_prefix (hex_encode b +:+ tail) = b +:+ hex_decode_prefix tail.
Proof.
  induction b as [|c b IH]; [done|]. pose proof (code_range c). simpl.
  rewrite !hex_char_digit, IH by lia. f_equal. rewrite <- Z.div_mod by done. apply byte_code.
Qed.

End Hex.

(** The seal an event signature makes, with bytes written after it. *)
Definition append_signature (tail : string) (s : SignedIntentEventV1) : SignedIntentEventV1 :=
  {| se_Event := s.(se_Event); se_Digest := s.(se_Digest);
     se_SigningKeyID := s.(se_SigningKeyID); se_Signature := s.(se_Signature) +:+ tail |}.

(** Signed consent verifies exactly when the terms are valid, the
    digest and the key id are the recomputed ones and the signature covers the
    terms in the intent domain; what a key signs verifies under it.  Lifecycle
    events verify the same way but for one gap: their signature is decoded with
    the error ignored, so anything after the first malformed hexadecimal pair
    is accepted. *)
Theorem intent_evidence_is_recomputed
    (PrivateKey : Type) (Public : PrivateKey -> string)
    (Sign : PrivateKey -> string -> string) (Verify : string -> string -> string -> bool) :
  (forall k m, Verify (Public k) m (Sign k m) = true) ->
  (forall pub s, VerifyIntentContractV2 Verify pub s = None <->
     Validate s.(sc_Contract) = None
     /\ s.(sc_Digest) = IntentContractV2_Digest s.(sc_Contract)
     /\ s.(sc_SigningKeyID) = DeriveSigningKeyID pub
     /\ exists sig, hex_decode s.(sc_Signature) = Some sig
        /\ Verify pub (intentSigningMessage (CanonicalBytes s.(sc_Contract))) sig = true)
  /\ (forall k c, Validate c = None ->
        VerifyIntentContractV2 Verify (Public k) (SignIntentContractV2 PrivateKey Public Sign k c) = None)
  /\ forall k e tail, hex_decode_prefix tail = "" ->
       VerifyIntentEventV1 Verify (Public k)
         (append_signature tail (SignIntentEventV1 PrivateKey Public Sign k e)) = None.
Proof.
  intros HV.
  assert (forall pub s, VerifyIntentContractV2 Verify pub s = None <->
     Validate s.(sc_Contract) = None
     /\ s.(sc_Digest) = IntentContractV2_Digest s.(sc_Contract)
     /\ s.(sc_SigningKeyID) = DeriveSigningKeyID pub
     /\ exists sig, hex_decode s.(sc_Signature) = Some sig
        /\ Verify pub (intentSigningMessage (CanonicalBytes s.(sc_Contract))) sig = true) as Hc.
  { intros pub s. unfold VerifyIntentContractV2.
    destruct (Validate _); [split; [done|by intros [? _]]|]. rewrite orb_lazy_alt.
    case_bool_decide as H1; simpl; [split; [done|by intros (_ & ? & _)]|].
    case_bool_decide as H2; simpl; [split; [done|by intros (_ & _ & ? & _)]|].
    destruct (hex_decode _) as [sig|]; [|split; [done|by intros (_ & _ & _ & ? & ? & _)]].
    destruct (Verify _ _ sig) eqn:Ev; split; try done; eauto 10.
    intros (_ & _ & _ & sig' & [= <-] & ?). congruence. }
  split_and!; [exact Hc| |].
  - intros k c Hv. apply Hc. split_and!; [done|done|done|].
    eexists. split; [apply hex_decode_encode|]. apply HV.
  - intros k e tail Ht. unfold VerifyIntentEventV1, signatureBytes, append_signature.
    cbn [se_Event se_Digest se_SigningKeyID se_Signature SignIntentEventV1].
    rewrite !bool_decide_eq_false_2 by tauto. simpl.
    by rewrite hex_decode_prefix_app, Ht, str_app_nil, HV.
Qed.

(** ** Lemmas: the import *)

#[export] Instance legacy_key_inj : Inj (=) (=) legacy_key.
Proof.
  intros a b H. unfold legacy_key in H. injection H as H. by apply str_app_inj_r in H.
Qed.

(** A version 1 contract comes forward only while it is ACTIVE: a
    revoked or an expired one is refused by its own name, and every other
    status as inactive.  What is imported is valid, is one version later,
    carries every legacy operation and resource and nothing else, exactly the
    legacy caps, no delegation, and a window that always closes. *)
Theorem import_carries_only_active_consent (legacy : IntentContract.t) (profileID : string) :
  legacy.(IntentContract.IntentID) <> "" -> profileID <> "" ->
  (forall c, ImportLegacyIntentV2 legacy profileID = Ok c ->
     legacy.(IntentContract.Status) = LifecycleActive /\ Validate c = None
     /\ c.(IntentContractV2.Version) = wrap64 (legacy.(IntentContract.Version) + 1)
     /\ elems c.(IntentContractV2.Operations)
        = map legacy_operation legacy.(IntentContract.AllowedOperations)
     /\ elems c.(IntentContractV2.AllowedResources)
        = map legacy_resource legacy.(IntentContract.AllowedResources)
     /\ c.(IntentContractV2.MaxDelegationDepth) = 0
     /\ (c.(IntentContractV2.Budget).(IntentBudgetV2.Total) = None <->
           legacy.(IntentContract.Budgets).(MaxActions) <= 0)
     /\ (forall key n, IntentBudgetV2.per c.(IntentContractV2.Budget) !! key = Some n <->
           exists name, key = legacy_key name
             /\ MaxActionsPerOperation legacy.(IntentContract.Budgets) !! name = Some n)
     /\ c.(IntentContractV2.ValidFrom) < c.(IntentContractV2.ExpiresAt))
  /\ (legacy.(IntentContract.Status) <> LifecycleActive ->
      exists e, ImportLegacyIntentV2 legacy profileID = Err e
        /\ error_is (if bool_decide (legacy.(IntentContract.Status) = LifecycleRevoked)
                     then "action: intent revoked"
                     else if bool_decide (legacy.(IntentContract.Status) = LifecycleExpired)
                     then "action: intent expired" else "action: intent inactive") e = true).
Proof.
  intros H1 H2. unfold ImportLegacyIntentV2. rewrite !bool_decide_eq_false_2 by done. simpl. split.
  - intros c. case_bool_decide as Hs; [|by repeat case_bool_decide].
    destruct (Validate _) eqn:Ev; [done|]. intros [= <-]. split_and!; try done.
    + simpl. destruct (Z.ltb_spec 0 legacy.(IntentContract.Budgets).(MaxActions)); split; done || lia.
    + intros key n.
      change (IntentBudgetV2.per _) with
        (kmap legacy_key (MaxActionsPerOperation legacy.(IntentContract.Budgets)) : gmap string Z).
      exact (lookup_kmap_Some legacy_key _ key n).
    + by apply intent_validity_window.
  - intros Hs. rewrite bool_decide_eq_false_2 by done.
    repeat case_bool_decide; eexists; split; try done; by apply bool_decide_eq_true_2.
Qed.

(** ** Concrete contracts *)

Definition example_op (name : string) : OperationRef.t :=
  {| OperationRef.Namespace := "tool"; OperationRef.Name := name; OperationRef.Version := 1 |}.

Definition example_path (p : string) : ResourceRef.t :=
  {| ResourceRef.Kind := "path"; ResourceRef.ID := p |}.

Definition example_intent (ops : list OperationRef.t) : IntentContractV2.t :=
  {| IntentContractV2.IntentID := "int_1"; IntentContractV2.SchemaVersion := 2;
     IntentContractV2.Version := 1; IntentContractV2.ProfileID := "default";
     IntentContractV2.OwnerPrincipalID := "principal_operator";
     IntentContractV2.Purpose := "keep the notes"; IntentContractV2.Operations := Some ops;
     IntentContractV2.AllowedResources := Some [example_path "/srv"];
     IntentContractV2.DeniedResources := None; IntentContractV2.DataScope := Some ["*"];
     IntentContractV2.OutputDestinations := None;
     IntentContractV2.EffectClasses := Some [EffectPure; EffectReadExternal];
     IntentContractV2.Budget :=
       {| IntentBudgetV2.Total := Some 5; IntentBudgetV2.PerOperation := None |};
     IntentContractV2.ValidFrom := unix_epoch; IntentContractV2.ExpiresAt := end_of_time;
     IntentContractV2.Approval := {| ApprovalRequirementV2.Required := false |};
     IntentContractV2.MaxDelegationDepth := 16 |}.

Lemma example_intent_text ops :
  Forall op_text ops -> intent_text (example_intent ops).
Proof.
  intros Ho. split; try done; simpl.
  - repeat (apply Forall_cons; split; [by apply ascii_only_utf8|]). constructor.
  - apply Forall_cons; split; [split; by apply ascii_only_utf8|constructor].
  - apply Forall_cons; split; [by apply ascii_only_utf8|constructor].
  - repeat (apply Forall_cons; split; [by apply ascii_only_utf8|]). constructor.
  - unfold budget_text, IntentBudgetV2.per. simpl. rewrite map_to_list_empty. constructor.
Qed.

Lemma example_op_text name : ascii_only name = true -> op_text (example_op name).
Proof. intros H. split; by apply ascii_only_utf8. Qed.

Lemma intent_digest_pins_the_consent_witness :
  IntentContractV2_Digest (example_intent [example_op "read_file"; example_op "calc"])
  = IntentContractV2_Digest (example_intent [example_op "calc"; example_op "read_file"]).
Proof.
  apply (intent_digest_pins_the_consent (example_intent [example_op "read_file"; example_op "calc"])
    (example_intent [example_op "calc"; example_op "read_file"])).
  - apply example_intent_text. by repeat (apply Forall_cons; split; [by apply example_op_text|]).
  - apply example_intent_text. by repeat (apply Forall_cons; split; [by apply example_op_text|]).
  - left. split; try done; simpl; first [apply Permutation_swap|reflexivity].
Defined.

Definition example_legacy : IntentContract.t :=
  {| IntentContract.IntentID := "int_1"; IntentContract.SchemaVersion := 1;
     IntentContract.OwnerPrincipalID := "principal_operator"; IntentContract.Purpose := "notes";
     IntentContract.AllowedOperations := ["calc"]; IntentContract.AllowedResources := ["*"];
     IntentContract.Budgets := {| MaxActions := 3; PerOperation := Some {[ "calc" := 2 ]} |};
     IntentContract.ValidFrom := 0; IntentContract.ExpiresAt := 0;
     IntentContract.Status := LifecycleRevoked; IntentContract.Version := 1 |}.

Lemma import_carries_only_active_consent_witness :
  exists e, ImportLegacyIntentV2 example_legacy "default" = Err e
    /\ error_is "action: intent revoked" e = true.
Proof.
  apply (import_carries_only_active_consent example_legacy "default"); discriminate.
Defined.

Definition example_event : IntentEventV1.t :=
  {| IntentEventV1.EventID := "iev_1"; IntentEventV1.IntentID := "int_1";
     IntentEventV1.Version := 1; IntentEventV1.Revision := 2;
     IntentEventV1.From := LifecycleActive; IntentEventV1.To := LifecycleRevoked;
     IntentEventV1.ActorPrincipalID := "principal_operator"; IntentEventV1.EvidenceDigest := "";
     IntentEventV1.OccurredAt := unix_epoch; IntentEventV1.PreviousEventDigest := "" |}.

Lemma intent_evidence_is_recomputed_witness :
  VerifyIntentEventV1 toy_verify "key"
    (append_signature "zz" (SignIntentEventV1 string id toy_sign "key" example_event)) = None.
Proof.
  assert (forall k m, toy_verify (id k) m (toy_sign k m) = true) as H
    by (intros k m; by apply bool_decide_eq_true_2).
  exact (proj2 (proj2 (intent_evidence_is_recomputed string id toy_sign toy_verify H))
    "key" example_event "zz" eq_refl).
Defined.
