(* ===== verification/Authority.v ===== *)
(** * Authority of version 2: strict, signed delegation

    [internal/action/authority_v2.go]: grants and config clauses, their
    validation, canonical bytes and signatures; the normalisation of one
    delegation edge; the analysis of an operation's actual use and its check
    against a grant.  The URL reader of [net/url] and the Ed25519 operations
    are parameters. *)

From S2P Require Import Prelude Kernel Grants Json Text Encoding Digests Wire Receipts Paths Intents.
From Stdlib Require Import Ascii String.
Import Effect Lifecycle.
Local Open Scope Z_scope.
Local Open Scope korvun_scope.
#[local] Arguments String.append !_ _ : simpl nomatch.

Definition authorityGrantDomain : string := "korvun.authority-grant.v2".
Definition maxAuthorityDepth : Z := 16.

Definition ErrAuthorityMalformed : error := ErrorNew "action: authority grant malformed".
Definition ErrAuthorityEvidenceCorrupt : error := ErrorNew "action: authority evidence corrupt".
Definition ErrAuthorityUseUnresolved : error := ErrorNew "action: authority use unresolved".
Definition ErrResourceOutOfScope : error := ErrorNew "action: resource out of authority scope".
Definition ErrDataOutOfScope : error := ErrorNew "action: data outside authority scope".
Definition ErrDestinationOutOfScope : error :=
  ErrorNew "action: destination outside authority scope".

(** ** Grants *)

Module AuthorityGrantV2.

Record t := {
  GrantID : string;
  SchemaVersion : Z;
  Version : Z;
  ProfileID : string;
  IntentID : string;
  IntentVersion : Z;
  IntentDigest : string;
  IssuerPrincipalID : string;
  SubjectPrincipalID : string;
  ParentGrantID : string;
  ParentGrantVersion : Z;
  Operations : slice OperationRef.t;
  Channels : slice string;
  AllowedResources : slice ResourceRef.t;
  DeniedResources : slice ResourceRef.t;
  AllowedData : slice string;
  DeniedData : slice string;
  OutputDestinations : slice string;
  EffectClasses : slice EffectClass;
  EffectCeiling : EffectClass;
  Budget : IntentBudgetV2.t;
  ValidFrom : time;
  ExpiresAt : time;
  DelegationDepthRemaining : Z;
  Approval : ApprovalRequirementV2.t;
  Status : LifecycleStatus
}.

Definition set_budget (b : IntentBudgetV2.t) (g : t) : t :=
  {| GrantID := g.(GrantID); SchemaVersion := g.(SchemaVersion); Version := g.(Version);
     ProfileID := g.(ProfileID); IntentID := g.(IntentID); IntentVersion := g.(IntentVersion);
     IntentDigest := g.(IntentDigest); IssuerPrincipalID := g.(IssuerPrincipalID);
     SubjectPrincipalID := g.(SubjectPrincipalID); ParentGrantID := g.(ParentGrantID);
     ParentGrantVersion := g.(ParentGrantVersion); Operations := g.(Operations);
     Channels := g.(Channels); AllowedResources := g.(AllowedResources);
     DeniedResources := g.(DeniedResources); AllowedData := g.(AllowedData);
     DeniedData := g.(DeniedData); OutputDestinations := g.(OutputDestinations);
     EffectClasses := g.(EffectClasses); EffectCeiling := g.(EffectCeiling);
     Budget := b; ValidFrom := g.(ValidFrom); ExpiresAt := g.(ExpiresAt);
     DelegationDepthRemaining := g.(DelegationDepthRemaining); Approval := g.(Approval);
     Status := g.(Status) |}.

End AuthorityGrantV2.

Definition operationKey (op : OperationRef.t) : string := operation_text op.

Definition malformed (what : string) : error := ErrorWrap what ErrAuthorityMalformed.

(** [unique kind] of [Validate]: a member is named once in its kind. *)
Definition kind_key (kind value : string) : string := kind +:+ String (byte 0) value.

Definition unique {A} (kind : string) (bad : A -> bool) (e : error) (value : A -> string) :=
  unique_step bad (fun x => kind_key kind (value x)) (fun _ => e)
    (fun _ => malformed ("duplicate or empty " +:+ kind)).

Definition unique_string (kind : string) :=
  unique kind (fun v => bool_decide (v = "")) (malformed ("duplicate or empty " +:+ kind))
    (fun v : string => v).

Definition resource_member (r : ResourceRef.t) : string :=
  r.(ResourceRef.Kind) +:+ String (byte 0) r.(ResourceRef.ID).

Section GrantValidate.
Import AuthorityGrantV2.

(** The loops of [Validate] that fill [seen].  The three string sets are
    visited in an unspecified order in the source: the order only chooses
    which repeated member the error names. *)
Definition grant_members (g : AuthorityGrantV2.t) : result (gset string) :=
  let? s1 := each (unique "operation" bad_operation (malformed "operation") operationKey)
    (elems g.(Operations)) ∅ in
  let? s2 := each (unique_string "channel") (elems g.(Channels)) s1 in
  let? s3 := each (unique "resource" bad_resource (malformed "resource") resource_member)
    (elems g.(AllowedResources) ++ elems g.(DeniedResources)) s2 in
  let? s4 := each (unique_string "allowed_data") (elems g.(AllowedData)) s3 in
  let? s5 := each (unique_string "denied_data") (elems g.(DeniedData)) s4 in
  let? s6 := each (unique_string "destination") (elems g.(OutputDestinations)) s5 in
  each (unique "effect" (fun e => negb (Known e)) (malformed "effect class") (fun e => e))
    (elems g.(EffectClasses)) s6.

Definition Validate (g : AuthorityGrantV2.t) : option error :=
  fail_if (bool_decide (g.(SchemaVersion) <> 2) || (g.(Version) <=? 0)
           || bool_decide (g.(GrantID) = "") || bool_decide (g.(ProfileID) = "")
           || bool_decide (g.(IntentID) = "") || (g.(IntentVersion) <=? 0)
           || bool_decide (g.(IntentDigest) = "") || bool_decide (g.(IssuerPrincipalID) = "")
           || bool_decide (g.(SubjectPrincipalID) = ""))
    ErrAuthorityMalformed ;;;
  fail_if (bool_decide (g.(ParentGrantID) = "") && bool_decide (g.(ParentGrantVersion) <> 0)
           || bool_decide (g.(ParentGrantID) <> "") && (g.(ParentGrantVersion) <=? 0))
    (malformed "parent version") ;;;
  fail_if ((g.(DelegationDepthRemaining) <? 0)
           || (maxAuthorityDepth <? g.(DelegationDepthRemaining)))
    (malformed "delegation depth") ;;;
  fail_if (time_is_zero g.(ValidFrom) || time_is_zero g.(ExpiresAt)
           || negb (time_before g.(ValidFrom) g.(ExpiresAt)))
    (malformed "validity window") ;;;
  fail_if (bool_decide (List.length (elems g.(Operations)) = 0%nat)
           || bool_decide (List.length (elems g.(Channels)) = 0%nat)
           || bool_decide (List.length (elems g.(EffectClasses)) = 0%nat))
    (malformed "required authority set") ;;;
  fail_if (over_cap (elems g.(Operations)) || over_cap (elems g.(Channels))
           || over_cap (elems g.(AllowedResources)) || over_cap (elems g.(DeniedResources))
           || over_cap (elems g.(AllowedData)) || over_cap (elems g.(DeniedData))
           || over_cap (elems g.(OutputDestinations)) || over_cap (elems g.(EffectClasses))
           || (maxIntentSetEntries <? Z.of_nat (size (IntentBudgetV2.per g.(Budget)))))
    (malformed "authority set exceeds 256 entries") ;;;
  fail_if (match g.(Budget).(IntentBudgetV2.Total) with Some n => n <? 0 | None => false end)
    (malformed "total budget") ;;;
  match grant_members g with Ok _ => None | Err e => Some e end ;;;
  check_all (fun p => fail_if (bool_decide (p.1 = "") || (p.2 <? 0)) (malformed "per-operation budget"))
    (map_to_list (IntentBudgetV2.per g.(Budget))) ;;;
  fail_if (bool_decide (g.(EffectCeiling) <> "") && negb (Known g.(EffectCeiling)))
    (malformed "effect ceiling").

End GrantValidate.

(** ** Canonical bytes *)

(** An absent collection is written as an empty one. *)
Definition emptyIfNil {A} (s : slice A) : slice A := Some (elems s).

Definition sortedStrings (s : slice string) : slice string := sort_strings <$> s.
Definition sortedResources (s : slice ResourceRef.t) : slice ResourceRef.t :=
  merge_sort res_le <$> s.

(** [Validate] refuses two operations with one key, so the unstable sort of the
    source has a single result. *)
Definition op_key_le : OperationRef.t -> OperationRef.t -> Prop := on operationKey String.le.

#[export] Instance op_key_le_dec : RelDecision op_key_le.
Proof. unfold op_key_le. apply _. Defined.
#[export] Instance op_key_le_total : Total op_key_le.
Proof. unfold op_key_le. apply _. Qed.
#[export] Instance op_key_le_trans : Transitive op_key_le.
Proof. unfold op_key_le. apply _. Qed.

Definition present_budget (b : IntentBudgetV2.t) : IntentBudgetV2.t :=
  {| IntentBudgetV2.Total := b.(IntentBudgetV2.Total);
     IntentBudgetV2.PerOperation := Some (IntentBudgetV2.per b) |}.

Definition digestAuthorityBytes (raw : string) : string := pinned (sha256 raw).

Section GrantCanonical.
Import AuthorityGrantV2.

Definition grant_value (g : AuthorityGrantV2.t) : value :=
  VObject
    [("grant_id", VString g.(GrantID)); ("schema_version", num 2);
     ("version", num g.(Version)); ("profile_id", VString g.(ProfileID));
     ("intent_id", VString g.(IntentID)); ("intent_version", num g.(IntentVersion));
     ("intent_digest", VString g.(IntentDigest));
     ("issuer_principal_id", VString g.(IssuerPrincipalID));
     ("subject_principal_id", VString g.(SubjectPrincipalID));
     ("parent_grant_id", VString g.(ParentGrantID));
     ("parent_grant_version", num g.(ParentGrantVersion));
     ("operations", slice_value op_value (merge_sort op_key_le <$> emptyIfNil g.(Operations)));
     ("channels", slice_value VString (sortedStrings (emptyIfNil g.(Channels))));
     ("allowed_resources",
       slice_value res_value (sortedResources (emptyIfNil g.(AllowedResources))));
     ("denied_resources",
       slice_value res_value (sortedResources (emptyIfNil g.(DeniedResources))));
     ("allowed_data", slice_value VString (sortedStrings (emptyIfNil g.(AllowedData))));
     ("denied_data", slice_value VString (sortedStrings (emptyIfNil g.(DeniedData))));
     ("output_destinations",
       slice_value VString (sortedStrings (emptyIfNil g.(OutputDestinations))));
     ("effect_classes", slice_value VString (sortedStrings (emptyIfNil g.(EffectClasses))));
     ("effect_ceiling", VString g.(EffectCeiling));
     ("budget", budget_value (present_budget g.(Budget)));
     ("valid_from", VString (timeTerm g.(ValidFrom)));
     ("expires_at", VString (timeTerm g.(ExpiresAt)));
     ("delegation_depth_remaining", num g.(DelegationDepthRemaining));
     ("approval", approval_value g.(Approval))].

Definition GrantCanonicalBytes (g : AuthorityGrantV2.t) : string := print (grant_value g).

Definition AuthorityGrantV2_Digest (g : AuthorityGrantV2.t) : string :=
  digestAuthorityBytes (GrantCanonicalBytes g).

End GrantCanonical.

(** ** Config clauses *)

Module ConfigAuthorityClause.

Record t := {
  ClauseID : string;
  SchemaVersion : Z;
  ProfileID : string;
  BrainPrincipal : string;
  ToolName : string;
  Channels : slice string;
  CageDigest : string
}.

End ConfigAuthorityClause.

Section Clause.
Import ConfigAuthorityClause.

Definition clause_value (c : ConfigAuthorityClause.t) : value :=
  VObject
    [("schema_version", num c.(SchemaVersion)); ("profile_id", VString c.(ProfileID));
     ("brain_principal_id", VString c.(BrainPrincipal)); ("tool_name", VString c.(ToolName));
     ("channels", slice_value VString (sortedStrings c.(Channels)));
     ("cage_digest", VString c.(CageDigest))].

Definition ClauseCanonicalBytes (c : ConfigAuthorityClause.t) : string := print (clause_value c).

Definition ConfigAuthorityClause_Digest (c : ConfigAuthorityClause.t) : string :=
  digestAuthorityBytes (ClauseCanonicalBytes c).

(** The loop over the channels: no empty or repeated one, and the wildcard alone. *)
Definition channel_step (count : nat) (channel : string) (seen : gset string)
    : result (gset string) :=
  if bool_decide (channel = "") || bool_decide (channel ∈ seen)
     || bool_decide (channel = "*") && bool_decide (count <> 1%nat)
  then Err ErrAuthorityMalformed else Ok ({[channel]} ∪ seen).

Definition ClauseValidate (c : ConfigAuthorityClause.t) : option error :=
  let channels := elems c.(Channels) in
  fail_if (bool_decide (c.(SchemaVersion) <> 1) || bool_decide (c.(ProfileID) = "")
           || bool_decide (c.(BrainPrincipal) = "") || bool_decide (c.(ToolName) = "")
           || bool_decide (c.(CageDigest) = "") || bool_decide (List.length channels = 0%nat)
           || over_cap channels)
    ErrAuthorityMalformed ;;;
  match each (channel_step (List.length channels)) channels ∅ with
  | Ok _ => None | Err e => Some e
  end ;;;
  fail_if (bool_decide (c.(ClauseID) <>
      "cfg_" +:+ TrimPrefix (ConfigAuthorityClause_Digest c) "sha256:"))
    ErrAuthorityMalformed.

End Clause.

(** ** Signatures *)

Record AuthoritySignature := {
  as_Digest : string;
  as_SigningKeyID : string;
  as_Signature : string
}.

Definition authoritySigningMessage (domain raw : string) : string := domain_message domain raw.

Record SignedAuthorityGrantV2 := {
  sg_Grant : AuthorityGrantV2.t;
  sg_Seal : AuthoritySignature
}.

Section AuthoritySigning.
Context (PrivateKey : Type) (Public : PrivateKey -> string)
  (Sign : PrivateKey -> string -> string) (Verify : string -> string -> string -> bool).

Definition SignAuthorityBytes (priv : PrivateKey) (domain canonical : string) : AuthoritySignature :=
  {| as_Digest := digestAuthorityBytes canonical;
     as_SigningKeyID := DeriveSigningKeyID (Public priv);
     as_Signature := hex_encode (Sign priv (authoritySigningMessage domain canonical)) |}.

Definition VerifyAuthorityBytes (pub domain canonical : string) (signature : AuthoritySignature)
    : option error :=
  if bool_decide (signature.(as_Digest) <> digestAuthorityBytes canonical)
     || bool_decide (signature.(as_SigningKeyID) <> DeriveSigningKeyID pub)
  then Some ErrAuthorityEvidenceCorrupt
  else match hex_decode signature.(as_Signature) with
       | None => Some ErrAuthorityEvidenceCorrupt
       | Some sig => if Verify pub (authoritySigningMessage domain canonical) sig
                     then None else Some ErrAuthorityEvidenceCorrupt
       end.

Definition SignAuthorityGrantV2 (priv : PrivateKey) (grant : AuthorityGrantV2.t)
    : SignedAuthorityGrantV2 :=
  {| sg_Grant := grant;
     sg_Seal := SignAuthorityBytes priv authorityGrantDomain (GrantCanonicalBytes grant) |}.

Definition VerifyAuthorityGrantV2 (pub : string) (signed : SignedAuthorityGrantV2) : option error :=
  match Validate signed.(sg_Grant) with
  | Some _ => Some ErrAuthorityEvidenceCorrupt
  | None => VerifyAuthorityBytes pub authorityGrantDomain
              (GrantCanonicalBytes signed.(sg_Grant)) signed.(sg_Seal)
  end.

End AuthoritySigning.

(** ** Delegation *)

Record AuthorityBudgetRemaining := {
  br_Total : option Z;
  br_PerOperation : gmap string Z
}.

Definition ResourceMatcher := string -> string -> bool.
Definition ResourceMatchers := gmap string ResourceMatcher.

(** [AttenuationError]: its message begins with the dimension it names. *)
Definition authorityWidens (dimension detail : string) : error := widens dimension detail.

Definition operationSubset (child parent : list OperationRef.t) : bool :=
  forallb (fun c => existsb (fun p => bool_decide (c = p)) parent) child.

Definition stringSubset (child parent : list string) : bool :=
  forallb (fun c => contains parent c || contains parent "*") child.

Definition stringSuperset (child parent : list string) : bool := stringSubset parent child.

Definition effectSubset (child parent : list EffectClass) : bool :=
  forallb (fun c => contains parent c) child.

Definition resourceSuperset (child parent : list ResourceRef.t) : bool :=
  forallb (fun p => contains child p) parent.

(** A resource is inside another of its kind when the kind's matcher says so;
    a kind without a matcher matches nothing. *)
Definition resource_in (matchers : ResourceMatchers) (parent child : ResourceRef.t) : bool :=
  bool_decide (parent.(ResourceRef.Kind) = child.(ResourceRef.Kind))
  && match matchers !! child.(ResourceRef.Kind) with
     | Some matcher => matcher parent.(ResourceRef.ID) child.(ResourceRef.ID)
     | None => false
     end.

Definition resourcesIncluded (children parents : list ResourceRef.t) (matchers : ResourceMatchers)
    : bool :=
  forallb (fun child => existsb (fun parent => resource_in matchers parent child) parents) children.

(** The loop over the parent's remaining balance, in any order of its map. *)
Fixpoint materialize (remaining : list (string * Z)) (m : gmap string Z) : result (gmap string Z) :=
  match remaining with
  | [] => Ok m
  | (operation, maximum) :: rest =>
      match m !! operation with
      | None => materialize rest (<[operation := maximum]> m)
      | Some childMaximum =>
          if maximum <? childMaximum
          then Err (authorityWidens "budget_operation_remaining" "operation exceeds remaining")
          else materialize rest m
      end
  end.

Section Delegation.
Import AuthorityGrantV2.
Context (parent child : AuthorityGrantV2.t) (intent : IntentContractV2.t)
  (remaining : AuthorityBudgetRemaining) (matchers : ResourceMatchers).

Definition identity_checks : option error :=
  fail_if (bool_decide (child.(ProfileID) <> parent.(ProfileID))
           || bool_decide (child.(ProfileID) <> intent.(IntentContractV2.ProfileID)))
    (authorityWidens "profile" "profile differs") ;;;
  fail_if (bool_decide (child.(IntentID) <> parent.(IntentID))
           || bool_decide (child.(IntentID) <> intent.(IntentContractV2.IntentID)))
    (authorityWidens "intent" "intent differs") ;;;
  fail_if (bool_decide (child.(IntentVersion) <> parent.(IntentVersion))
           || bool_decide (child.(IntentVersion) <> intent.(IntentContractV2.Version)))
    (authorityWidens "intent_version" "intent version differs") ;;;
  fail_if (bool_decide (child.(IntentDigest) <> parent.(IntentDigest))
           || bool_decide (child.(IntentDigest) <> IntentContractV2_Digest intent))
    (authorityWidens "intent_digest" "intent digest differs") ;;;
  fail_if (bool_decide (child.(ParentGrantID) <> parent.(GrantID))
           || bool_decide (child.(ParentGrantVersion) <> parent.(Version)))
    (authorityWidens "parent" "parent link differs") ;;;
  fail_if (bool_decide (child.(IssuerPrincipalID) <> parent.(SubjectPrincipalID)))
    (authorityWidens "issuer" "issuer is not parent subject").

Definition set_checks : option error :=
  fail_if (negb (operationSubset (elems child.(Operations)) (elems parent.(Operations)))
           || negb (operationSubset (elems child.(Operations))
                      (elems intent.(IntentContractV2.Operations))))
    (authorityWidens "operations" "operation set widens") ;;;
  fail_if (negb (stringSubset (elems child.(Channels)) (elems parent.(Channels))))
    (authorityWidens "channels" "channel set widens") ;;;
  fail_if (negb (resourcesIncluded (elems child.(AllowedResources))
                   (elems parent.(AllowedResources)) matchers)
           || negb (resourcesIncluded (elems child.(AllowedResources))
                      (elems intent.(IntentContractV2.AllowedResources)) matchers))
    (authorityWidens "allowed_resources" "allowed resource widens") ;;;
  fail_if (negb (resourceSuperset (elems child.(DeniedResources))
                   (elems parent.(DeniedResources)
                    ++ elems intent.(IntentContractV2.DeniedResources))))
    (authorityWidens "denied_resources" "inherited denial disappeared") ;;;
  fail_if (negb (stringSubset (elems child.(AllowedData)) (elems parent.(AllowedData)))
           || negb (stringSubset (elems child.(AllowedData))
                      (elems intent.(IntentContractV2.DataScope))))
    (authorityWidens "allowed_data" "data set widens") ;;;
  fail_if (negb (stringSuperset (elems child.(DeniedData)) (elems parent.(DeniedData))))
    (authorityWidens "denied_data" "inherited denial disappeared") ;;;
  fail_if (negb (stringSubset (elems child.(OutputDestinations))
                   (elems parent.(OutputDestinations)))
           || negb (stringSubset (elems child.(OutputDestinations))
                      (elems intent.(IntentContractV2.OutputDestinations))))
    (authorityWidens "destinations" "destination set widens") ;;;
  fail_if (negb (effectSubset (elems child.(EffectClasses)) (elems parent.(EffectClasses)))
           || negb (effectSubset (elems child.(EffectClasses))
                      (elems intent.(IntentContractV2.EffectClasses))))
    (authorityWidens "effect_classes" "effect set widens") ;;;
  fail_if (bool_decide (parent.(EffectCeiling) <> "")
           && (bool_decide (child.(EffectCeiling) = "")
               || (Rank parent.(EffectCeiling) <? Rank child.(EffectCeiling))))
    (authorityWidens "effect_ceiling" "effect ceiling widens") ;;;
  fail_if (match remaining.(br_Total) with
           | None => false
           | Some r => match child.(Budget).(IntentBudgetV2.Total) with
                       | None => true
                       | Some n => r <? n
                       end
           end)
    (authorityWidens "budget_total_remaining" "total exceeds remaining").

Definition window_checks : option error :=
  fail_if (time_before child.(ValidFrom) parent.(ValidFrom)
           || time_before child.(ValidFrom) intent.(IntentContractV2.ValidFrom))
    (authorityWidens "valid_from" "window starts too early") ;;;
  fail_if (time_after child.(ExpiresAt) parent.(ExpiresAt)
           || time_after child.(ExpiresAt) intent.(IntentContractV2.ExpiresAt))
    (authorityWidens "expires_at" "window ends too late") ;;;
  fail_if ((parent.(DelegationDepthRemaining) <=? 0) || (child.(DelegationDepthRemaining) <? 0)
           || (parent.(DelegationDepthRemaining) <=? child.(DelegationDepthRemaining))
           || (intent.(IntentContractV2.MaxDelegationDepth) <? child.(DelegationDepthRemaining)))
    (authorityWidens "depth" "depth does not decrease") ;;;
  fail_if ((parent.(Approval).(ApprovalRequirementV2.Required)
            || intent.(IntentContractV2.Approval).(ApprovalRequirementV2.Required))
           && negb child.(Approval).(ApprovalRequirementV2.Required))
    (authorityWidens "approval" "required approval disappeared").

Definition NormalizeAuthorityDelegation : result AuthorityGrantV2.t :=
  match Validate parent ;;; Validate child ;;; identity_checks ;;; set_checks with
  | Some e => Err e
  | None =>
      let? per := materialize (map_to_list remaining.(br_PerOperation))
        (IntentBudgetV2.per child.(Budget)) in
      match window_checks with
      | Some e => Err e
      | None =>
          Ok (set_budget {| IntentBudgetV2.Total := child.(Budget).(IntentBudgetV2.Total);
                            IntentBudgetV2.PerOperation := Some per |} child)
      end
  end.

End Delegation.

(** ** Actual use *)

Record OperationUse := {
  use_Resources : list ResourceRef.t;
  use_Data : list string;
  use_Destinations : list string
}.

Definition no_use : OperationUse :=
  {| use_Resources := []; use_Data := []; use_Destinations := [] |}.

Definition OperationUseAnalyzer := string -> result OperationUse.

(** The registry; the source's nil receiver and nil analyzer are [None]. *)
Definition OperationUseRegistry := gmap string OperationUseAnalyzer.

Definition NewOperationUseRegistry : OperationUseRegistry := ∅.

Definition Register (r : option OperationUseRegistry) (operation : string)
    (analyzer : option OperationUseAnalyzer) : result OperationUseRegistry :=
  match r, analyzer with
  | Some r, Some analyzer =>
      if bool_decide (operation = "") || bool_decide (is_Some (r !! operation))
      then Err ErrAuthorityUseUnresolved else Ok (<[operation := analyzer]> r)
  | _, _ => Err ErrAuthorityUseUnresolved
  end.

(** A sentinel that wraps another one: it answers [errors.Is] for both. *)
Definition sentinel_no_analyzer : string := "no analyzer registered for the operation".
Definition ErrOperationUseNoAnalyzer : error :=
  ErrorJoin [ErrorNew sentinel_no_analyzer; ErrAuthorityUseUnresolved].

Definition Analyze (r : option OperationUseRegistry) (operation args : string)
    : result OperationUse :=
  match r with
  | Some r => match r !! operation with
              | Some analyzer => analyzer args
              | None => Err ErrOperationUseNoAnalyzer
              end
  | None => Err ErrOperationUseNoAnalyzer
  end.

Section ValidateUse.
Import AuthorityGrantV2.

Definition ValidateAuthorityUse (grant : AuthorityGrantV2.t) (use : OperationUse)
    (matchers : ResourceMatchers) : option error :=
  fail_if (negb (resourcesIncluded use.(use_Resources) (elems grant.(AllowedResources)) matchers))
    ErrResourceOutOfScope ;;;
  check_all (fun r => check_all (fun d => fail_if (resource_in matchers d r) ErrResourceOutOfScope)
      (elems grant.(DeniedResources))) use.(use_Resources) ;;;
  fail_if (negb (stringSubset use.(use_Data) (elems grant.(AllowedData)))) ErrDataOutOfScope ;;;
  check_all (fun v => fail_if (contains (elems grant.(DeniedData)) v) ErrDataOutOfScope)
    use.(use_Data) ;;;
  fail_if (negb (stringSubset use.(use_Destinations) (elems grant.(OutputDestinations))))
    ErrDestinationOutOfScope.

End ValidateUse.

(** ** Containment of resources *)

(** Paths compare by canonical segments. *)
Definition PathResourceIncludes (cwd : option string) (parent child : string) : bool :=
  match Abs cwd parent, Abs cwd child with
  | Some p, Some c =>
      match Rel (Clean p) (Clean c) with
      | Some rel => bool_decide (rel <> "..") && negb (String.prefix "../" rel)
      | None => false
      end
  | _, _ => false
  end.

(** [strings.TrimSuffix]. *)
Definition TrimSuffix (s suffix : string) : string :=
  let n := (String.length s - String.length suffix)%nat in
  if bool_decide (str_drop n s = suffix) then str_take n s else s.

(** [strings.Cut s] at the first space. *)
Fixpoint cut_space (s : string) : option (string * string) :=
  match s with
  | String c s' =>
      if code c =? 32 then Some (EmptyString, s')
      else match cut_space s' with Some (a, b) => Some (String c a, b) | None => None end
  | EmptyString => None
  end.

(** The fields of [url.URL] the source reads. *)
Record URL := {
  Scheme : string;
  Host : string;
  has_User : bool;
  RawPath : string;
  Path : string;
  RawQuery : string;
  Fragment : string
}.

Section URLs.
Context (url_Parse : string -> option URL) (url_String : URL -> string)
  (url_Hostname : URL -> string) (ToLower : string -> string) (EqualFold : string -> string -> bool).

Definition canonicalAuthorityURL (raw : string) : option string :=
  match url_Parse raw with
  | None => None
  | Some u =>
      if bool_decide (u.(Scheme) = "") || bool_decide (u.(Host) = "") || u.(has_User) then None
      else if bool_decide (u.(RawPath) <> "") then None
      else
        let written := "/" +:+ TrimPrefix u.(Path) "/" in
        let cleaned := Clean written in
        if bool_decide (written <> cleaned) && bool_decide (written <> cleaned +:+ "/") then None
        else Some (url_String
          {| Scheme := ToLower u.(Scheme); Host := ToLower u.(Host); has_User := false;
             RawPath := u.(RawPath); Path := cleaned; RawQuery := u.(RawQuery); Fragment := "" |})
  end.

Definition mustAuthorityHost (raw : string) : string :=
  match url_Parse raw with Some u => ToLower (url_Hostname u) | None => "" end.

(** A canonical URL reads back; the source dereferences the result. *)
Definition URLResourceIncludes (parent child : string) : bool :=
  match canonicalAuthorityURL parent, canonicalAuthorityURL child with
  | Some canonicalParent, Some canonicalChild =>
      match url_Parse canonicalParent, url_Parse canonicalChild with
      | Some p, Some c =>
          if negb (EqualFold p.(Scheme) c.(Scheme)) || negb (EqualFold p.(Host) c.(Host)) then false
          else if bool_decide (p.(RawQuery) <> "") && bool_decide (p.(RawQuery) <> c.(RawQuery))
          then false
          else let base := TrimSuffix p.(Path) "/" in
               bool_decide (c.(Path) = base) || String.prefix (base +:+ "/") c.(Path)
      | _, _ => false
      end
  | _, _ => false
  end.

(** ** The analyzers of the built-in tools *)

Definition path_resource (p : string) : ResourceRef.t :=
  {| ResourceRef.Kind := "path"; ResourceRef.ID := p |}.
Definition url_resource (u : string) : ResourceRef.t :=
  {| ResourceRef.Kind := "url"; ResourceRef.ID := u |}.

Definition pathAnalyzer (raw : string) : result OperationUse :=
  let p := TrimSpace raw in
  if bool_decide (p = "") || negb (IsAbs p) then Err ErrAuthorityUseUnresolved
  else Ok {| use_Resources := [path_resource (Clean p)]; use_Data := []; use_Destinations := [] |}.

Definition fetchAnalyzer (raw : string) : result OperationUse :=
  match canonicalAuthorityURL (TrimSpace raw) with
  | None => Err ErrAuthorityUseUnresolved
  | Some u => Ok {| use_Resources := [url_resource u]; use_Data := [];
                    use_Destinations := [mustAuthorityHost u] |}
  end.

Definition callAnalyzer (raw : string) : result OperationUse :=
  match cut_space (TrimSpace raw) with
  | None => Err ErrAuthorityUseUnresolved
  | Some (target, body) =>
      if bool_decide (parse (TrimSpace body) = None) then Err ErrAuthorityUseUnresolved
      else match canonicalAuthorityURL target with
           | None => Err ErrAuthorityUseUnresolved
           | Some u => Ok {| use_Resources := [url_resource u]; use_Data := ["payload"];
                             use_Destinations := [mustAuthorityHost u] |}
           end
  end.

Definition RegisterBuiltInOperationUse (r : OperationUseRegistry) : result OperationUseRegistry :=
  let? r1 := Register (Some r) "read_file" (Some pathAnalyzer) in
  let? r2 := Register (Some r1) "http_fetch" (Some fetchAnalyzer) in
  Register (Some r2) "webhook_call" (Some callAnalyzer).

End URLs.

(** ** Lemmas: paths *)

Lemma prefix_spec p s : String.prefix p s = true <-> exists r, s = p +:+ r.
Proof.
  revert s. induction p as [|c p IH]; intros s; simpl.
  - split; [by exists s|]. by destruct s.
  - destruct s as [|d s]; [split; [done|by intros [r ?]]|]. cbn [String.prefix].
    destruct (ascii_dec c d) as [->|N].
    + rewrite IH. split; intros [r Hr]; exists r; simplify_eq/=; done.
    + split; [done|]. intros [r Hr]. by simplify_eq/=.
Qed.

Lemma Join_head_up l : l <> [] -> Forall plain_segment l ->
  Join l "/" <> ".." /\ String.prefix "../" (Join l "/") = false.
Proof.
  intros Hne Hl. pose proof (segments_join l Hne (plain_no_slash l Hl)) as Hs.
  destruct l as [|w l]; [done|]. apply Forall_cons in Hl as [(_ & _ & Hw & _) _].
  split; [intros E; rewrite E in Hs; simpl in Hs; injection Hs as Hs _; by apply Hw|].
  apply not_true_iff_false. intros [r Hr]%prefix_spec. rewrite Hr in Hs.
  change ("../" +:+ r) with (".." +:+ String slash r) in Hs.
  rewrite segments_app_slash in Hs by done. injection Hs as Hs _. by apply Hw.
Qed.

Lemma Join_up b t : b <> [] ->
  bool_decide (Join (map (fun _ : string => "..") b ++ t) "/" <> "..")
  && negb (String.prefix "../" (Join (map (fun _ : string => "..") b ++ t) "/")) = false.
Proof.
  intros Hne. destruct b as [|x b]; [done|]. cbn [map app].
  destruct (map (fun _ : string => "..") b ++ t) as [|y r].
  - reflexivity.
  - apply andb_false_iff. right. apply negb_false_iff, prefix_spec.
    exists (String.concat "/" (y :: r)). reflexivity.
Qed.

Lemma path_includes_iff (cwd : option string) (p c : string) :
  (forall wd, cwd = Some wd -> IsAbs wd = true) ->
  PathResourceIncludes cwd p c = true <->
  exists a b, Abs cwd p = Some a /\ Abs cwd c = Some b
    /\ clean_segments a `prefix_of` clean_segments b.
Proof.
  intros Hwd. unfold PathResourceIncludes.
  destruct (Abs cwd p) as [a|] eqn:Ep; [|split; [done|by intros (? & ? & ? & _)]].
  destruct (Abs cwd c) as [b|] eqn:Ec; [|split; [done|by intros (? & ? & _ & ? & _)]].
  apply Abs_absolute in Ep as [Ha Hca]; [|done]. apply Abs_absolute in Ec as [Hb Hcb]; [|done].
  rewrite Hca, Hcb.
  assert (clean_segments a `prefix_of` clean_segments b <-> exists a0 b0,
    Some a = Some a0 /\ Some b = Some b0 /\ clean_segments a0 `prefix_of` clean_segments b0)
    as <- by naive_solver.
  unfold Rel. case_bool_decide as E.
  { apply Clean_eq_segments in E; [|done..]. rewrite E. split; [by exists []; rewrite app_nil_r|].
    intros _. reflexivity. }
  rewrite Ha, Hb. simpl.
  destruct (strip_common_spec (clean_segments a) (clean_segments b)) as (k & H1 & H2 & H3).
  destruct (strip_common _ _) as [x y]. cbn [fst snd] in *.
  pose proof (clean_rooted a Ha) as Pa. pose proof (clean_rooted b Hb) as Pb.
  destruct x as [|u x].
  - rewrite app_nil_r in H1. rewrite H1, H2. simpl. split; [intros _; by exists y|intros _].
    assert (y <> []) as Hy.
    { intros ->. apply E, Clean_eq_segments; [done..|]. by rewrite H2, app_nil_r, H1. }
    destruct (Join_head_up y Hy) as [J1 J2]; [rewrite H2 in Pb; by apply Forall_app in Pb as [_ ?]|].
    rewrite J2, bool_decide_eq_true_2; done.
  - rewrite bool_decide_eq_false_2.
    2:{ intros [= ->]. rewrite H1 in Pa. apply Forall_app in Pa as [_ Pa].
        apply Forall_cons in Pa as [(_ & _ & N & _) _]. by apply N. }
    rewrite Join_up by done. split; [done|]. intros [z Hz]. rewrite H1, H2 in Hz.
    rewrite <- app_assoc in Hz. apply app_inv_head in Hz. simpl in Hz.
    destruct y as [|v y]; [done|]. injection Hz as -> _. by destruct (H3 u u x y).
Qed.

(** Path containment composes, whatever the working directory. *)
Lemma path_matcher_trans cwd a b c :
  (forall wd, cwd = Some wd -> IsAbs wd = true) ->
  PathResourceIncludes cwd a b = true -> PathResourceIncludes cwd b c = true ->
  PathResourceIncludes cwd a c = true.
Proof.
  intros Hwd. rewrite !path_includes_iff by done. intros (x & y & Ex & Ey & Hxy) (y' & z & Ey' & Ez & Hyz).
  simplify_eq. exists x, z. split_and!; [done..|]. by etrans.
Qed.

(** A path resource contains another exactly when, both made absolute
    and cleaned, its segments are a prefix of the other's: no [..], no doubled
    slash and no shared text prefix inside one segment can widen it.  The
    relation is a preorder on the paths the system can resolve. *)
Theorem path_containment_is_segment_prefix (cwd : option string) :
  (forall wd, cwd = Some wd -> IsAbs wd = true) ->
  (forall p c, PathResourceIncludes cwd p c = true <->
     exists a b, Abs cwd p = Some a /\ Abs cwd c = Some b
       /\ clean_segments a `prefix_of` clean_segments b)
  /\ (forall p, is_Some (Abs cwd p) -> PathResourceIncludes cwd p p = true)
  /\ (forall p q r, PathResourceIncludes cwd p q = true -> PathResourceIncludes cwd q r = true ->
        PathResourceIncludes cwd p r = true).
Proof.
  intros Hwd.
  split_and!.
  - intros p c. by apply path_includes_iff.
  - intros p [a Ha]. apply path_includes_iff; [done|]. by exists a, a.
  - intros p q r. by apply path_matcher_trans.
Qed.

(** ** Lemmas: the set comparisons *)

Lemma operationSubset_true c p : operationSubset c p = true <-> forall x, x ∈ c -> x ∈ p.
Proof.
  unfold operationSubset. rewrite forallb_forall. setoid_rewrite existsb_exists.
  setoid_rewrite bool_decide_eq_true. setoid_rewrite <- list_elem_of_In. naive_solver.
Qed.

Lemma stringSubset_true c p : stringSubset c p = true <-> forall x, x ∈ c -> x ∈ p \/ "*" ∈ p.
Proof.
  unfold stringSubset. rewrite forallb_forall. setoid_rewrite orb_true_iff.
  setoid_rewrite contains_true. by setoid_rewrite <- list_elem_of_In.
Qed.

Lemma effectSubset_true c p : effectSubset c p = true <-> forall x, x ∈ c -> x ∈ p.
Proof.
  unfold effectSubset. rewrite forallb_forall. setoid_rewrite contains_true.
  by setoid_rewrite <- list_elem_of_In.
Qed.

Lemma resourceSuperset_true c p : resourceSuperset c p = true <-> forall x, x ∈ p -> x ∈ c.
Proof.
  unfold resourceSuperset. rewrite forallb_forall. setoid_rewrite contains_true.
  by setoid_rewrite <- list_elem_of_In.
Qed.

Lemma resourcesIncluded_true c p m :
  resourcesIncluded c p m = true <->
  forall x, x ∈ c -> exists y, y ∈ p /\ resource_in m y x = true.
Proof.
  unfold resourcesIncluded. rewrite forallb_forall. setoid_rewrite existsb_exists.
  by setoid_rewrite <- list_elem_of_In.
Qed.

#[export] Hint Rewrite operationSubset_true stringSubset_true effectSubset_true
  resourceSuperset_true resourcesIncluded_true : subsets.

(** What a registry of matchers promises to the delegation rules: containment
    composes. *)
Class ComposableMatchers (m : ResourceMatchers) := matcher_trans :
  forall k f, m !! k = Some f ->
  forall a b c, f a b = true -> f b c = true -> f a c = true.

Lemma resource_in_trans m `{!ComposableMatchers m} x y z :
  resource_in m x y = true -> resource_in m y z = true -> resource_in m x z = true.
Proof.
  unfold resource_in. intros [Hxy%bool_decide_eq_true H1]%andb_true_iff
    [Hyz%bool_decide_eq_true H2]%andb_true_iff. apply andb_true_iff.
  split; [apply bool_decide_eq_true; congruence|]. rewrite Hyz in H1.
  destruct (m !! ResourceRef.Kind z) as [f|] eqn:E; [|done]. by eapply matcher_trans.
Qed.

(** ** Lemmas: one edge *)

Lemma materialize_Ok l m m' :
  NoDup l.*1 ->
  materialize l m = Ok m' <->
  (forall op mx n, (op, mx) ∈ l -> m !! op = Some n -> n <= mx) /\ m' = m ∪ list_to_map l.
Proof.
  revert m. induction l as [|[op mx] l IH]; intros m Hnd; cbn [materialize].
  { change (list_to_map (@nil (string * Z))) with (∅ : gmap string Z). rewrite (right_id_L ∅ (∪)).
    split; [intros [= <-]; split; [by intros ??? ?%not_elem_of_nil|done]|by intros [_ ->]]. }
  rewrite fmap_cons in Hnd. apply NoDup_cons in Hnd as [Hop Hnd].
  rewrite list_to_map_cons. cbn [fst] in Hop. destruct (m !! op) as [n|] eqn:E.
  - destruct (Z.ltb_spec mx n) as [Hlt|Hle].
    + split; [done|]. intros [H _]. specialize (H op mx n ltac:(left) E). lia.
    + rewrite IH by done.
      assert (m ∪ <[op:=mx]> (list_to_map l) = m ∪ list_to_map l) as Hu.
      { apply map_eq. intros i. rewrite !lookup_union.
        destruct (decide (i = op)) as [->|]; [|by rewrite lookup_insert_ne].
        rewrite E. by destruct (<[op:=mx]> _ !! op), (list_to_map l !! op). }
      rewrite Hu.
      split; intros [H ->]; (split; [|done]).
      * intros op' mx' n' [[= -> ->]|Hin]%elem_of_cons Hm; [simplify_eq; lia|by eapply H].
      * intros op' mx' n' Hin. apply H. by right.
  - rewrite IH by done. rewrite <- insert_union_l, insert_union_r by done. split; intros [H ->]; (split; [|done]).
    + intros op' mx' n' [[= -> ->]|Hin]%elem_of_cons Hm; [congruence|].
      apply (H op' mx' n' Hin). rewrite lookup_insert_ne; [done|congruence].
    + intros op' mx' n' Hin Hm. apply (H op' mx'); [by right|].
      rewrite lookup_insert_ne in Hm; [done|]. intros <-.
      apply Hop, list_elem_of_fmap. by exists (op, mx').
Qed.

Section Edges.
Import AuthorityGrantV2.

(** What one accepted edge guarantees, dimension by dimension. *)
Record edge_ok (parent child : AuthorityGrantV2.t) (intent : IntentContractV2.t)
    (remaining : AuthorityBudgetRemaining) (m : ResourceMatchers) : Prop := {
  eo_valid : Validate parent = None /\ Validate child = None;
  eo_link : child.(ParentGrantID) = parent.(GrantID)
    /\ child.(ParentGrantVersion) = parent.(Version)
    /\ child.(IssuerPrincipalID) = parent.(SubjectPrincipalID);
  eo_parent_intent : child.(ProfileID) = parent.(ProfileID) /\ child.(IntentID) = parent.(IntentID)
    /\ child.(IntentVersion) = parent.(IntentVersion)
    /\ child.(IntentDigest) = parent.(IntentDigest);
  eo_intent : child.(ProfileID) = intent.(IntentContractV2.ProfileID)
    /\ child.(IntentID) = intent.(IntentContractV2.IntentID)
    /\ child.(IntentVersion) = intent.(IntentContractV2.Version)
    /\ child.(IntentDigest) = IntentContractV2_Digest intent;
  eo_operations : forall o, o ∈ elems child.(Operations) ->
    o ∈ elems parent.(Operations) /\ o ∈ elems intent.(IntentContractV2.Operations);
  eo_channels : forall c, c ∈ elems child.(Channels) ->
    c ∈ elems parent.(Channels) \/ "*" ∈ elems parent.(Channels);
  eo_allowed : forall r, r ∈ elems child.(AllowedResources) ->
    (exists p, p ∈ elems parent.(AllowedResources) /\ resource_in m p r = true)
    /\ (exists p, p ∈ elems intent.(IntentContractV2.AllowedResources) /\ resource_in m p r = true);
  eo_denied : forall r, r ∈ elems parent.(DeniedResources)
      \/ r ∈ elems intent.(IntentContractV2.DeniedResources) ->
    r ∈ elems child.(DeniedResources);
  eo_data : forall d, d ∈ elems child.(AllowedData) ->
    (d ∈ elems parent.(AllowedData) \/ "*" ∈ elems parent.(AllowedData))
    /\ (d ∈ elems intent.(IntentContractV2.DataScope)
        \/ "*" ∈ elems intent.(IntentContractV2.DataScope));
  eo_denied_data : forall d, d ∈ elems parent.(DeniedData) ->
    d ∈ elems child.(DeniedData) \/ "*" ∈ elems child.(DeniedData);
  eo_destinations : forall d, d ∈ elems child.(OutputDestinations) ->
    (d ∈ elems parent.(OutputDestinations) \/ "*" ∈ elems parent.(OutputDestinations))
    /\ (d ∈ elems intent.(IntentContractV2.OutputDestinations)
        \/ "*" ∈ elems intent.(IntentContractV2.OutputDestinations));
  eo_effects : forall e, e ∈ elems child.(EffectClasses) ->
    e ∈ elems parent.(EffectClasses) /\ e ∈ elems intent.(IntentContractV2.EffectClasses);
  eo_ceiling : parent.(EffectCeiling) <> "" ->
    child.(EffectCeiling) <> "" /\ Rank child.(EffectCeiling) <= Rank parent.(EffectCeiling);
  eo_total : forall r, remaining.(br_Total) = Some r ->
    exists n, child.(Budget).(IntentBudgetV2.Total) = Some n /\ n <= r;
  eo_per : forall op mx n, remaining.(br_PerOperation) !! op = Some mx ->
    IntentBudgetV2.per child.(Budget) !! op = Some n -> n <= mx;
  eo_window : parent.(ValidFrom) <= child.(ValidFrom) /\ child.(ExpiresAt) <= parent.(ExpiresAt)
    /\ intent.(IntentContractV2.ValidFrom) <= child.(ValidFrom)
    /\ child.(ExpiresAt) <= intent.(IntentContractV2.ExpiresAt);
  eo_depth : 0 <= child.(DelegationDepthRemaining) < parent.(DelegationDepthRemaining)
    /\ child.(DelegationDepthRemaining) <= intent.(IntentContractV2.MaxDelegationDepth);
  eo_approval : parent.(Approval).(ApprovalRequirementV2.Required) = true
      \/ intent.(IntentContractV2.Approval).(ApprovalRequirementV2.Required) = true ->
    child.(Approval).(ApprovalRequirementV2.Required) = true;
}.

(** The child as it is stored: with every cap it inherits written out. *)
Definition normalised (child : AuthorityGrantV2.t) (remaining : AuthorityBudgetRemaining)
    : AuthorityGrantV2.t :=
  set_budget {| IntentBudgetV2.Total := child.(Budget).(IntentBudgetV2.Total);
                IntentBudgetV2.PerOperation :=
                  Some (IntentBudgetV2.per child.(Budget) ∪ remaining.(br_PerOperation)) |} child.

Lemma neq_or_None {A B} `{EqDecision A, EqDecision B} (x y : A) (z w : B) :
  bool_decide (x <> y) || bool_decide (z <> w) = false <-> x = y /\ z = w.
Proof.
  rewrite orb_false_iff, !bool_decide_eq_false. split; [|tauto].
  intros [H1 H2]. by split; apply dec_stable.
Qed.

Lemma identity_checks_None parent child intent :
  identity_checks parent child intent = None <->
  (child.(ProfileID) = parent.(ProfileID)
    /\ child.(ProfileID) = intent.(IntentContractV2.ProfileID))
  /\ (child.(IntentID) = parent.(IntentID)
    /\ child.(IntentID) = intent.(IntentContractV2.IntentID))
  /\ (child.(IntentVersion) = parent.(IntentVersion)
    /\ child.(IntentVersion) = intent.(IntentContractV2.Version))
  /\ (child.(IntentDigest) = parent.(IntentDigest)
    /\ child.(IntentDigest) = IntentContractV2_Digest intent)
  /\ (child.(ParentGrantID) = parent.(GrantID) /\ child.(ParentGrantVersion) = parent.(Version))
  /\ child.(IssuerPrincipalID) = parent.(SubjectPrincipalID).
Proof.
  unfold identity_checks. rewrite !first_error_None, !fail_if_None, !neq_or_None.
  rewrite bool_decide_eq_false. split; [|tauto].
  intros (?&?&?&?&?&H). split_and!; try tauto. by apply dec_stable.
Qed.

Lemma negb_or_None a b : negb a || negb b = false <-> a = true /\ b = true.
Proof. destruct a, b; simpl; intuition congruence. Qed.

Lemma total_guard_None (r : option Z) (n : option Z) :
  match r with None => false | Some r => match n with None => true | Some n => r <? n end end = false
  <-> forall x, r = Some x -> exists y, n = Some y /\ y <= x.
Proof.
  destruct r as [r|], n as [n|]; rewrite ?Z.ltb_ge; split; try done.
  - intros H x [= <-]. by exists n.
  - intros H. destruct (H r eq_refl) as (? & [= <-] & ?). done.
  - intros H. by destruct (H r eq_refl) as (? & ? & _).
Qed.

Lemma ceiling_v2_None (p c : EffectClass) :
  bool_decide (p <> "") && (bool_decide (c = "") || (Rank p <? Rank c)) = false
  <-> (p <> "" -> c <> "" /\ Rank c <= Rank p).
Proof.
  case_bool_decide as H1; simpl; [|tauto]. rewrite orb_false_iff, bool_decide_eq_false, Z.ltb_ge.
  tauto.
Qed.

Lemma set_checks_None parent child intent remaining m :
  set_checks parent child intent remaining m = None <->
  (forall o, o ∈ elems child.(Operations) ->
     o ∈ elems parent.(Operations) /\ o ∈ elems intent.(IntentContractV2.Operations))
  /\ (forall c, c ∈ elems child.(Channels) ->
     c ∈ elems parent.(Channels) \/ "*" ∈ elems parent.(Channels))
  /\ (forall r, r ∈ elems child.(AllowedResources) ->
    (exists p, p ∈ elems parent.(AllowedResources) /\ resource_in m p r = true)
    /\ (exists p, p ∈ elems intent.(IntentContractV2.AllowedResources) /\ resource_in m p r = true))
  /\ (forall r, r ∈ elems parent.(DeniedResources)
      \/ r ∈ elems intent.(IntentContractV2.DeniedResources) -> r ∈ elems child.(DeniedResources))
  /\ (forall d, d ∈ elems child.(AllowedData) ->
    (d ∈ elems parent.(AllowedData) \/ "*" ∈ elems parent.(AllowedData))
    /\ (d ∈ elems intent.(IntentContractV2.DataScope)
        \/ "*" ∈ elems intent.(IntentContractV2.DataScope)))
  /\ (forall d, d ∈ elems parent.(DeniedData) ->
    d ∈ elems child.(DeniedData) \/ "*" ∈ elems child.(DeniedData))
  /\ (forall d, d ∈ elems child.(OutputDestinations) ->
    (d ∈ elems parent.(OutputDestinations) \/ "*" ∈ elems parent.(OutputDestinations))
    /\ (d ∈ elems intent.(IntentContractV2.OutputDestinations)
        \/ "*" ∈ elems intent.(IntentContractV2.OutputDestinations)))
  /\ (forall e, e ∈ elems child.(EffectClasses) ->
    e ∈ elems parent.(EffectClasses) /\ e ∈ elems intent.(IntentContractV2.EffectClasses))
  /\ (parent.(EffectCeiling) <> "" ->
    child.(EffectCeiling) <> "" /\ Rank child.(EffectCeiling) <= Rank parent.(EffectCeiling))
  /\ (forall r, remaining.(br_Total) = Some r ->
    exists n, child.(Budget).(IntentBudgetV2.Total) = Some n /\ n <= r).
Proof.
  unfold set_checks, stringSuperset.
  rewrite !first_error_None, !fail_if_None, !negb_or_None, !negb_false_iff,
    !operationSubset_true, !stringSubset_true, !effectSubset_true, !resourceSuperset_true,
    !resourcesIncluded_true, ceiling_v2_None, total_guard_None.
  split.
  - intros ((A & A') & B & (C & C') & D & (F & F') & G & (K & K') & (L & L') & M & N).
    split_and!; try done; try by (intros x Hx; split; auto).
    intros x Hx. apply D, elem_of_app. exact Hx.
  - intros (A & B & C & D & F & G & K & L & M & N).
    split_and!; try done; try (intros x Hx;
      first [apply A in Hx|apply C in Hx|apply F in Hx|apply K in Hx|apply L in Hx]; by destruct Hx).
    intros x Hx%elem_of_app. by apply D.
Qed.

Lemma window_checks_None parent child intent :
  window_checks parent child intent = None <->
  (parent.(ValidFrom) <= child.(ValidFrom) /\ child.(ExpiresAt) <= parent.(ExpiresAt)
    /\ intent.(IntentContractV2.ValidFrom) <= child.(ValidFrom)
    /\ child.(ExpiresAt) <= intent.(IntentContractV2.ExpiresAt))
  /\ (0 <= child.(DelegationDepthRemaining) < parent.(DelegationDepthRemaining)
    /\ child.(DelegationDepthRemaining) <= intent.(IntentContractV2.MaxDelegationDepth))
  /\ (parent.(Approval).(ApprovalRequirementV2.Required) = true
      \/ intent.(IntentContractV2.Approval).(ApprovalRequirementV2.Required) = true ->
    child.(Approval).(ApprovalRequirementV2.Required) = true).
Proof.
  unfold window_checks, time_before, time_after.
  rewrite !first_error_None, !fail_if_None, !orb_false_iff, !Z.ltb_ge, !Z.leb_gt.
  assert (forall a b c, (a || b) && negb c = false <-> (a = true \/ b = true -> c = true)) as ->.
  { intros [] [] []; simpl; intuition congruence. }
  split; [intros ((? & ?) & (? & ?) & (((? & ?) & ?) & ?) & ?)
         |intros ((? & ? & ? & ?) & ((? & ?) & ?) & ?)]; split_and!; try lia; done.
Qed.

Lemma NormalizeAuthorityDelegation_Ok parent child intent remaining m g :
  NormalizeAuthorityDelegation parent child intent remaining m = Ok g <->
  edge_ok parent child intent remaining m /\ g = normalised child remaining.
Proof.
  unfold NormalizeAuthorityDelegation, normalised.
  destruct (_ ;;; _) as [e|] eqn:E.
  { split; [done|]. intros [[[V1 V2] (L1 & L2 & L3) (P1 & P2 & P3 & P4) (I1 & I2 & I3 & I4)] _].
    assert (identity_checks parent child intent = None) as E1 by by apply identity_checks_None.
    assert (set_checks parent child intent remaining m = None) as E2 by by apply set_checks_None.
    by rewrite V1, V2, E1, E2 in E. }
  rewrite !first_error_None, identity_checks_None, set_checks_None in E.
  destruct E as (V1 & V2 & E1 & E2). rewrite let_ok.
  setoid_rewrite materialize_Ok; [|apply NoDup_fst_map_to_list].
  setoid_rewrite list_to_map_to_list. setoid_rewrite elem_of_map_to_list.
  split.
  - intros (per & [Hper ->] & H).
    destruct (window_checks parent child intent) eqn:W; [done|].
    apply window_checks_None in W. injection H as <-.
    split; [|done]. split; try tauto.
  - intros [H ->]. eexists. split; [split; [apply H|done]|].
    rewrite (proj2 (window_checks_None parent child intent)) by (split_and!; apply H). done.
Qed.

End Edges.

(** ** What a grant permits *)

Section Permits.
Import AuthorityGrantV2.

(** The resources, data classes and destinations a use may touch. *)
Record in_scope (m : ResourceMatchers) (g : AuthorityGrantV2.t) (use : OperationUse) : Prop := {
  is_allowed : forall r, r ∈ use.(use_Resources) ->
    exists p, p ∈ elems g.(AllowedResources) /\ resource_in m p r = true;
  is_not_denied : forall r d, r ∈ use.(use_Resources) -> d ∈ elems g.(DeniedResources) ->
    resource_in m d r = false;
  is_data : forall v, v ∈ use.(use_Data) ->
    v ∈ elems g.(AllowedData) \/ "*" ∈ elems g.(AllowedData);
  is_destination : forall v, v ∈ use.(use_Destinations) ->
    v ∈ elems g.(OutputDestinations) \/ "*" ∈ elems g.(OutputDestinations);
}.

Definition data_denied (g : AuthorityGrantV2.t) (use : OperationUse) : Prop :=
  exists v, v ∈ use.(use_Data) /\ v ∈ elems g.(DeniedData).

Lemma ValidateAuthorityUse_None g use m :
  ValidateAuthorityUse g use m = None <-> in_scope m g use /\ ~ data_denied g use.
Proof.
  unfold ValidateAuthorityUse, data_denied.
  rewrite !first_error_None, !fail_if_None, !check_all_None, !negb_false_iff,
    resourcesIncluded_true, !stringSubset_true, !Forall_forall.
  setoid_rewrite check_all_None. setoid_rewrite Forall_forall. setoid_rewrite fail_if_None.
  setoid_rewrite contains_false. split.
  - intros (A & B & C & D & E). split; [split; try done|naive_solver].
    intros r d Hr Hd. by apply (B r Hr d Hd).
  - intros [[A B C E] D]. split_and!; try done; [naive_solver|].
    intros v Hv Hd. apply D. by exists v.
Qed.

(** Everything else one attempt is judged by. *)
Record permits (m : ResourceMatchers) (g : AuthorityGrantV2.t) (op : OperationRef.t)
    (channel : string) (class : EffectClass) (use : OperationUse) (at_ : time) : Prop := {
  pm_operation : op ∈ elems g.(Operations);
  pm_channel : channel ∈ elems g.(Channels) \/ "*" ∈ elems g.(Channels);
  pm_effect : class ∈ elems g.(EffectClasses);
  pm_ceiling : g.(EffectCeiling) <> "" -> Rank class <= Rank g.(EffectCeiling);
  pm_scope : in_scope m g use;
  pm_window : g.(ValidFrom) <= at_ < g.(ExpiresAt);
}.

(** A delegation chain from [root], every edge accepted under some balance. *)
Inductive derived (intent : IntentContractV2.t) (m : ResourceMatchers) (root : AuthorityGrantV2.t)
    : nat -> AuthorityGrantV2.t -> Prop :=
| derived_root : derived intent m root 0 root
| derived_edge n parent child remaining g :
    derived intent m root n parent ->
    NormalizeAuthorityDelegation parent child intent remaining m = Ok g ->
    derived intent m root (S n) g.

(** The terms of the intent, as [validateAuthorityActualUse] reads them. *)
Definition intent_scope (intent : IntentContractV2.t) (g : AuthorityGrantV2.t) : AuthorityGrantV2.t :=
  {| GrantID := g.(GrantID); SchemaVersion := 2; Version := g.(Version);
     ProfileID := g.(ProfileID); IntentID := g.(IntentID); IntentVersion := g.(IntentVersion);
     IntentDigest := g.(IntentDigest); IssuerPrincipalID := g.(IssuerPrincipalID);
     SubjectPrincipalID := g.(SubjectPrincipalID); ParentGrantID := ""; ParentGrantVersion := 0;
     Operations := intent.(IntentContractV2.Operations); Channels := Some ["*"];
     AllowedResources := intent.(IntentContractV2.AllowedResources);
     DeniedResources := intent.(IntentContractV2.DeniedResources);
     AllowedData := intent.(IntentContractV2.DataScope); DeniedData := None;
     OutputDestinations := intent.(IntentContractV2.OutputDestinations);
     EffectClasses := intent.(IntentContractV2.EffectClasses); EffectCeiling := "";
     Budget := intent.(IntentContractV2.Budget);
     ValidFrom := intent.(IntentContractV2.ValidFrom);
     ExpiresAt := intent.(IntentContractV2.ExpiresAt);
     DelegationDepthRemaining := intent.(IntentContractV2.MaxDelegationDepth);
     Approval := intent.(IntentContractV2.Approval); Status := g.(Status) |}.

Lemma edge_scope parent child intent remaining m `{!ComposableMatchers m} use :
  edge_ok parent child intent remaining m -> in_scope m child use ->
  in_scope m parent use /\ in_scope m (intent_scope intent parent) use.
Proof.
  intros E [A B C D].
  assert (forall r, r ∈ use.(use_Resources) -> exists x,
    x ∈ elems child.(AllowedResources) /\ resource_in m x r = true) as A' by exact A.
  split; split; cbn [intent_scope AllowedResources DeniedResources AllowedData OutputDestinations].
  - intros r Hr. destruct (A' r Hr) as (x & Hx & Hin).
    destruct (eo_allowed _ _ _ _ _ E x Hx) as [(p & Hp & Hpx) _].
    exists p. split; [done|]. by eapply resource_in_trans.
  - intros r d Hr Hd. apply (B r d Hr). apply (eo_denied _ _ _ _ _ E). by left.
  - intros v Hv. destruct (C v Hv) as [Hc|Hc]; apply (eo_data _ _ _ _ _ E) in Hc as [Hp _];
      naive_solver.
  - intros v Hv. destruct (D v Hv) as [Hc|Hc]; apply (eo_destinations _ _ _ _ _ E) in Hc as [Hp _];
      naive_solver.
  - intros r Hr. destruct (A' r Hr) as (x & Hx & Hin).
    destruct (eo_allowed _ _ _ _ _ E x Hx) as [_ (p & Hp & Hpx)].
    exists p. split; [done|]. by eapply resource_in_trans.
  - intros r d Hr Hd. apply (B r d Hr). apply (eo_denied _ _ _ _ _ E). by right.
  - intros v Hv. destruct (C v Hv) as [Hc|Hc]; apply (eo_data _ _ _ _ _ E) in Hc as [_ Hp];
      naive_solver.
  - intros v Hv. destruct (D v Hv) as [Hc|Hc]; apply (eo_destinations _ _ _ _ _ E) in Hc as [_ Hp];
      naive_solver.
Qed.

Lemma edge_permits parent child intent remaining m `{!ComposableMatchers m} op channel class use at_ :
  edge_ok parent child intent remaining m -> permits m child op channel class use at_ ->
  permits m parent op channel class use at_
  /\ permits m (intent_scope intent parent) op channel class use at_.
Proof.
  intros E [P1 P2 P3 P4 P5 P6]. destruct (edge_scope _ _ _ _ _ _ E P5) as [S1 S2].
  destruct (eo_window _ _ _ _ _ E) as (W1 & W2 & W3 & W4).
  split; split; try done; cbn [intent_scope Operations Channels EffectClasses EffectCeiling
    ValidFrom ExpiresAt]; try lia.
  - by apply (eo_operations _ _ _ _ _ E).
  - destruct P2 as [Hc|Hc]; apply (eo_channels _ _ _ _ _ E) in Hc; naive_solver.
  - by apply (eo_effects _ _ _ _ _ E).
  - intros Hn. destruct (eo_ceiling _ _ _ _ _ E Hn) as [Hc Hr]. specialize (P4 Hc). lia.
  - by apply (eo_operations _ _ _ _ _ E).
  - right. by left.
  - by apply (eo_effects _ _ _ _ _ E).
Qed.

(** Writing out the inherited caps changes nothing a use is judged by. *)
Lemma permits_normalised m child remaining op channel class use at_ :
  permits m (normalised child remaining) op channel class use at_ ->
  permits m child op channel class use at_.
Proof. intros [P1 P2 P3 P4 [A B C D] P6]. by repeat split; try apply P6. Qed.

Lemma derived_permits intent m root `{!ComposableMatchers m} n leaf op channel class use at_ :
  derived intent m root n leaf -> permits m leaf op channel class use at_ ->
  permits m root op channel class use at_.
Proof.
  induction 1 as [|n parent child remaining g _ IH Hg]; [done|].
  apply NormalizeAuthorityDelegation_Ok in Hg as [E ->]. intros P%permits_normalised.
  apply IH. by eapply edge_permits.
Qed.

Lemma derived_scope intent m root `{!ComposableMatchers m} n leaf use :
  derived intent m root n leaf -> in_scope m leaf use -> in_scope m root use.
Proof.
  induction 1 as [|n parent child remaining g _ IH Hg]; [done|].
  apply NormalizeAuthorityDelegation_Ok in Hg as [E ->]. intros [A B C D].
  apply IH. eapply edge_scope; [done|exact E|]. by split.
Qed.

Lemma derived_depth intent m root n leaf :
  derived intent m root n leaf ->
  Z.of_nat n + leaf.(DelegationDepthRemaining) <= root.(DelegationDepthRemaining)
  /\ ((0 < n)%nat -> 0 <= leaf.(DelegationDepthRemaining)
        /\ root.(DelegationDepthRemaining) <= maxAuthorityDepth)
  /\ (root.(Approval).(ApprovalRequirementV2.Required) = true ->
      leaf.(Approval).(ApprovalRequirementV2.Required) = true).
Proof.
  induction 1 as [|n parent child remaining g Hd IH Hg]; [split_and!; [lia|lia|done]|].
  apply NormalizeAuthorityDelegation_Ok in Hg as [E ->].
  destruct (eo_depth _ _ _ _ _ E) as [D1 D2]. destruct (eo_valid _ _ _ _ _ E) as [V _].
  unfold Validate in V. rewrite !first_error_None, !fail_if_None in V.
  destruct V as (_ & _ & V & _). apply orb_false_iff in V as [_ V]. apply Z.ltb_ge in V.
  destruct IH as (I1 & I2 & I3). cbn [normalised set_budget DelegationDepthRemaining Approval].
  split_and!; [lia| |].
  - intros _. split; [lia|]. destruct n as [|n]; [|apply I2; lia].
    by inversion Hd; subst.
  - intros Hr. apply (eo_approval _ _ _ _ _ E). left. auto.
Qed.

(** A denial of data reaches the leaf unless the leaf denies the wildcard. *)
Lemma derived_denied_data intent m root n leaf :
  derived intent m root n leaf -> "*" ∉ elems leaf.(DeniedData) ->
  forall v, v ∈ elems root.(DeniedData) -> v ∈ elems leaf.(DeniedData).
Proof.
  induction 1 as [|n parent child remaining g _ IH Hg]; [done|].
  apply NormalizeAuthorityDelegation_Ok in Hg as [E ->].
  cbn [normalised set_budget DeniedData]. intros Hn v Hv.
  assert ("*" ∉ elems parent.(DeniedData)) as Hp.
  { intros H. apply Hn. by destruct (eo_denied_data _ _ _ _ _ E "*" H). }
  specialize (IH Hp v Hv). by destruct (eo_denied_data _ _ _ _ _ E v IH).
Qed.

End Permits.


(** ** Lemmas: signatures *)

Fixpoint no_nul (s : string) : bool :=
  match s with EmptyString => true | String c s' => negb (Ascii.eqb c (byte 0)) && no_nul s' end.

Lemma nul_separates d d' c c' :
  no_nul d = true -> no_nul d' = true ->
  d +:+ String (byte 0) c = d' +:+ String (byte 0) c' -> d = d' /\ c = c'.
Proof.
  revert d'. induction d as [|x d IH]; intros [|y d']; cbn [no_nul String.append].
  - by intros _ _ [= ->].
  - intros _ [Hy _]%andb_true_iff [= <- _]. by rewrite Ascii.eqb_refl in Hy.
  - intros [Hx _]%andb_true_iff _ [= -> _]. by rewrite Ascii.eqb_refl in Hx.
  - intros [_ Hd]%andb_true_iff [_ Hd']%andb_true_iff [= -> H].
    by destruct (IH d' Hd Hd' H) as [-> ->].
Qed.

(** A seal covers one domain and one byte string.  Verification
    accepts exactly the recomputed digest and key id with a signature over the
    domain's message; what a key seals verifies; and the message of another
    domain or of other bytes is different, unless the two preimages are an
    explicit SHA-256 collision, so evidence of one kind is never evidence of
    another. *)
Theorem authority_seal_binds_domain_and_bytes
    (PrivateKey : Type) (Public : PrivateKey -> string)
    (Sign : PrivateKey -> string -> string) (Verify : string -> string -> string -> bool) :
  (forall k m, Verify (Public k) m (Sign k m) = true) ->
  (forall pub domain canonical s, VerifyAuthorityBytes Verify pub domain canonical s = None <->
     s.(as_Digest) = digestAuthorityBytes canonical
     /\ s.(as_SigningKeyID) = DeriveSigningKeyID pub
     /\ exists sig, hex_decode s.(as_Signature) = Some sig
        /\ Verify pub (authoritySigningMessage domain canonical) sig = true)
  /\ (forall k domain canonical, VerifyAuthorityBytes Verify (Public k) domain canonical
        (SignAuthorityBytes PrivateKey Public Sign k domain canonical) = None)
  /\ forall d c d' c', no_nul d = true -> no_nul d' = true ->
       authoritySigningMessage d c = authoritySigningMessage d' c' <->
       (d = d' /\ c = c')
       \/ sha256_collision (d +:+ String (byte 0) c) (d' +:+ String (byte 0) c').
Proof.
  intros HV.
  assert (forall pub domain canonical s, VerifyAuthorityBytes Verify pub domain canonical s = None <->
     s.(as_Digest) = digestAuthorityBytes canonical
     /\ s.(as_SigningKeyID) = DeriveSigningKeyID pub
     /\ exists sig, hex_decode s.(as_Signature) = Some sig
        /\ Verify pub (authoritySigningMessage domain canonical) sig = true) as Hc.
  { intros pub domain canonical s. unfold VerifyAuthorityBytes. rewrite orb_lazy_alt.
    case_bool_decide as H1; simpl; [split; [done|by intros (? & _)]|].
    case_bool_decide as H2; simpl; [split; [done|by intros (_ & ? & _)]|].
    destruct (hex_decode _) as [sig|]; [|split; [done|by intros (_ & _ & ? & ? & _)]].
    destruct (Verify _ _ sig) eqn:Ev; split; try done; eauto 10.
    intros (_ & _ & sig' & [= <-] & ?). congruence. }
  split_and!; [exact Hc| |].
  - intros k domain canonical. apply Hc. split_and!; [done|done|].
    eexists. split; [apply hex_decode_encode|]. apply HV.
  - intros d c d' c' Hd Hd'. unfold authoritySigningMessage, domain_message.
    rewrite sha256_eq_iff. split; (intros [H|H]; [left|by right]).
    + by apply nul_separates.
    + by destruct H as [-> ->].
Qed.

(** ** Lemmas: canonical grants *)

Section GrantDigest.
Import AuthorityGrantV2.

Record grant_v2_text (g : AuthorityGrantV2.t) : Prop := {
  gv_strings : Forall utf8
    [g.(GrantID); g.(ProfileID); g.(IntentID); g.(IntentDigest); g.(IssuerPrincipalID);
     g.(SubjectPrincipalID); g.(ParentGrantID); g.(EffectCeiling)];
  gv_operations : Forall op_text (elems g.(Operations));
  gv_keys : NoDup (operationKey <$> elems g.(Operations));
  gv_allowed : Forall res_text (elems g.(AllowedResources));
  gv_denied : Forall res_text (elems g.(DeniedResources));
  gv_sets : Forall (Forall utf8)
    [elems g.(Channels); elems g.(AllowedData); elems g.(DeniedData);
     elems g.(OutputDestinations); elems g.(EffectClasses)];
  gv_budget : budget_text g.(Budget);
  gv_from : rfc3339_range g.(ValidFrom);
  gv_until : rfc3339_range g.(ExpiresAt);
}.

(** Equal but for the order of the sets, absent against empty, and status. *)
Record same_grant_v2 (g g' : AuthorityGrantV2.t) : Prop := {
  sv_ids : [g.(GrantID); g.(ProfileID); g.(IntentID); g.(IntentDigest); g.(IssuerPrincipalID);
      g.(SubjectPrincipalID); g.(ParentGrantID); g.(EffectCeiling)]
    = [g'.(GrantID); g'.(ProfileID); g'.(IntentID); g'.(IntentDigest); g'.(IssuerPrincipalID);
       g'.(SubjectPrincipalID); g'.(ParentGrantID); g'.(EffectCeiling)];
  sv_numbers : [g.(Version); g.(IntentVersion); g.(ParentGrantVersion); g.(DelegationDepthRemaining);
      g.(ValidFrom); g.(ExpiresAt)]
    = [g'.(Version); g'.(IntentVersion); g'.(ParentGrantVersion); g'.(DelegationDepthRemaining);
       g'.(ValidFrom); g'.(ExpiresAt)];
  sv_operations : elems g.(Operations) ≡ₚ elems g'.(Operations);
  sv_channels : elems g.(Channels) ≡ₚ elems g'.(Channels);
  sv_allowed : elems g.(AllowedResources) ≡ₚ elems g'.(AllowedResources);
  sv_denied : elems g.(DeniedResources) ≡ₚ elems g'.(DeniedResources);
  sv_allowed_data : elems g.(AllowedData) ≡ₚ elems g'.(AllowedData);
  sv_denied_data : elems g.(DeniedData) ≡ₚ elems g'.(DeniedData);
  sv_destinations : elems g.(OutputDestinations) ≡ₚ elems g'.(OutputDestinations);
  sv_effects : elems g.(EffectClasses) ≡ₚ elems g'.(EffectClasses);
  sv_budget : g.(Budget).(IntentBudgetV2.Total) = g'.(Budget).(IntentBudgetV2.Total)
    /\ IntentBudgetV2.per g.(Budget) = IntentBudgetV2.per g'.(Budget);
  sv_approval : g.(Approval) = g'.(Approval);
}.

Lemma grant_value_wf g : grant_v2_text g -> wf 0 (grant_value g).
Proof.
  intros [H1 H2 _ H4 H5 H6 H7 H8 H9]. constructor; [done|].
  repeat (apply Forall_cons in H1 as [? H1]). repeat (apply Forall_cons in H6 as [? H6]).
  unfold sortedStrings, sortedResources.
  wf_members; auto with terms;
    try (eapply slice_value_wf; [apply sort_strings_perm| |done|done]; auto with terms);
    try (eapply slice_value_wf; [apply (merge_sort_Permutation res_le)| |done|done];
         intros x Hx; by apply res_value_wf).
  - eapply slice_value_wf; [apply (merge_sort_Permutation op_key_le)| |done|exact H2].
    intros x Hx. by apply op_value_wf.
  - by apply budget_value_wf.
  - constructor; [done|]. wf_members. constructor.
Qed.

Lemma operations_value_inj l k :
  NoDup (operationKey <$> l) ->
  slice_value op_value (Some (merge_sort op_key_le l))
  = slice_value op_value (Some (merge_sort op_key_le k)) <-> l ≡ₚ k.
Proof.
  intros Hnd. split.
  - intros [= H]. apply map_value_inj in H; [|apply _].
    rewrite <- (merge_sort_Permutation op_key_le l), <- (merge_sort_Permutation op_key_le k).
    by rewrite H.
  - intros H. cbn [slice_value]. do 2 f_equal. apply (merge_sort_unique op_key_le l k); [|exact H].
    intros x y Hx Hy Hxy Hyx. apply (NoDup_fmap_inj operationKey l); try done.
    by apply (anti_symm String.le).
Qed.

Lemma present_budget_inj b b' :
  budget_value (present_budget b) = budget_value (present_budget b') <->
  b.(IntentBudgetV2.Total) = b'.(IntentBudgetV2.Total)
  /\ IntentBudgetV2.per b = IntentBudgetV2.per b'.
Proof.
  rewrite budget_value_inj. unfold present_budget. split; [by intros [= -> ->]|].
  by intros [-> ->].
Qed.

Lemma grant_value_inj g g' :
  grant_v2_text g -> grant_v2_text g' -> grant_value g = grant_value g' <-> same_grant_v2 g g'.
Proof.
  intros Ht Ht'. unfold grant_value, emptyIfNil. split.
  - intros H.
    member_eq 0%nat H E0. member_eq 2%nat H E2. member_eq 3%nat H E3. member_eq 4%nat H E4.
    member_eq 5%nat H E5. member_eq 6%nat H E6. member_eq 7%nat H E7. member_eq 8%nat H E8.
    member_eq 9%nat H E9. member_eq 10%nat H E10. member_eq 11%nat H E11.
    member_eq 12%nat H E12. member_eq 13%nat H E13. member_eq 14%nat H E14.
    member_eq 15%nat H E15. member_eq 16%nat H E16. member_eq 17%nat H E17.
    member_eq 18%nat H E18. member_eq 19%nat H E19. member_eq 20%nat H E20.
    member_eq 21%nat H E21. member_eq 22%nat H E22. member_eq 23%nat H E23.
    member_eq 24%nat H E24. clear H.
    apply (inj VString) in E0, E3, E4, E6, E7, E8, E9, E19.
    apply num_inj in E2, E5, E10, E23.
    apply (inj VString), timeTerm_inj in E21; [|apply Ht|apply Ht'].
    apply (inj VString), timeTerm_inj in E22; [|apply Ht|apply Ht'].
    apply operations_value_inj in E11; [|apply Ht].
    apply slice_strings in E12, E15, E16, E17, E18.
    apply (slice_value_sorted res_value res_le) in E13, E14.
    apply present_budget_inj in E20. apply approval_value_inj in E24.
    split; try done; congruence.
  - intros [E1 E2 E3 E4 E5 E6 E7 E8 E9 E10 E11 E12].
    injection E1 as -> -> -> -> -> -> -> ->. injection E2 as -> -> -> -> -> ->.
    apply operations_value_inj in E3; [|apply Ht].
    apply (slice_strings (Some _) (Some _)) in E4, E7, E8, E9, E10.
    apply (slice_value_sorted res_value res_le (Some _) (Some _)) in E5, E6.
    apply present_budget_inj in E11. unfold sortedStrings, sortedResources.
    change (merge_sort op_key_le <$> Some ?l) with (Some (merge_sort op_key_le l)).
    unfold EffectClass in E10 |- *.
    by rewrite E3, E4, E5, E6, E7, E8, E9, E10, E11, E12.
Qed.

End GrantDigest.

(** A grant's digest seals every delegation dimension and has one
    spelling of "none": two grants the wire can carry have the same digest
    exactly when their terms agree up to the order of the sets, with an absent
    collection equal to an empty one and the runtime status left out, or when
    their canonical bytes are an explicit SHA-256 collision. *)
Theorem grant_v2_digest_has_one_spelling (g g' : AuthorityGrantV2.t) :
  grant_v2_text g -> grant_v2_text g' ->
  AuthorityGrantV2_Digest g = AuthorityGrantV2_Digest g' <->
  same_grant_v2 g g'
  \/ sha256_collision (GrantCanonicalBytes g) (GrantCanonicalBytes g').
Proof.
  intros H H'. unfold AuthorityGrantV2_Digest, digestAuthorityBytes.
  rewrite pinned_inj, sha256_eq_iff.
  assert (GrantCanonicalBytes g = GrantCanonicalBytes g' <-> same_grant_v2 g g') as Hc.
  { rewrite <- grant_value_inj by done. unfold GrantCanonicalBytes. split; [|by intros ->].
    apply print_inj; by apply grant_value_wf. }
  by rewrite Hc.
Qed.

(** ** Config clauses *)

Lemma clause_channels_ok count l seen seen' :
  each (channel_step count) l seen = Ok seen' ->
  NoDup l /\ "" ∉ l /\ (forall c, c ∈ l -> c ∉ seen) /\ ("*" ∈ l -> count = 1%nat).
Proof.
  revert seen. induction l as [|c l IH]; intros seen; cbn [each].
  { intros _. split_and!; [constructor|set_solver|set_solver|by intros ?%not_elem_of_nil]. }
  unfold channel_step at 1. destruct (_ || _) eqn:E; [done|].
  apply orb_false_iff in E as [[E1 E2]%orb_false_iff E3].
  apply bool_decide_eq_false in E1, E2. intros Hrest. destruct (IH _ Hrest) as (I1 & I2 & I3 & I4).
  assert (c ∉ l) as Hc by (intros Hin; by specialize (I3 c Hin); set_solver).
  split_and!.
  - by constructor.
  - set_solver.
  - intros d [->|Hd]%elem_of_cons; [done|]. specialize (I3 d Hd). set_solver.
  - intros [<-|Hd]%elem_of_cons; [|auto].
    apply andb_false_iff in E3 as [E3|E3]; apply bool_decide_eq_false in E3; [done|].
    by apply dec_stable.
Qed.

Record same_clause (c c' : ConfigAuthorityClause.t) : Prop := {
  sc_terms : [c.(ConfigAuthorityClause.ProfileID); c.(ConfigAuthorityClause.BrainPrincipal);
      c.(ConfigAuthorityClause.ToolName); c.(ConfigAuthorityClause.CageDigest)]
    = [c'.(ConfigAuthorityClause.ProfileID); c'.(ConfigAuthorityClause.BrainPrincipal);
       c'.(ConfigAuthorityClause.ToolName); c'.(ConfigAuthorityClause.CageDigest)];
  sc_channels : elems c.(ConfigAuthorityClause.Channels) ≡ₚ elems c'.(ConfigAuthorityClause.Channels);
}.

Definition clause_text (c : ConfigAuthorityClause.t) : Prop :=
  Forall utf8 [c.(ConfigAuthorityClause.ProfileID); c.(ConfigAuthorityClause.BrainPrincipal);
    c.(ConfigAuthorityClause.ToolName); c.(ConfigAuthorityClause.CageDigest)]
  /\ Forall utf8 (elems c.(ConfigAuthorityClause.Channels)).

Lemma clause_value_wf c : clause_text c -> wf 0 (clause_value c).
Proof.
  intros [H1 H2]. constructor; [done|]. repeat (apply Forall_cons in H1 as [? H1]).
  unfold sortedStrings. wf_members; auto with terms.
  eapply slice_value_wf; [apply sort_strings_perm| |done|done]. auto with terms.
Qed.

(** A valid config clause names each channel once, none of them
    empty, the wildcard only alone, and its identifier is its digest: two valid
    clauses with one identifier are the same relation up to the order of the
    channels, or their canonical bytes are an explicit SHA-256 collision. *)
Theorem config_clause_id_is_its_terms (c c' : ConfigAuthorityClause.t) :
  ClauseValidate c = None ->
  (NoDup (elems c.(ConfigAuthorityClause.Channels))
   /\ "" ∉ elems c.(ConfigAuthorityClause.Channels)
   /\ ("*" ∈ elems c.(ConfigAuthorityClause.Channels) ->
         elems c.(ConfigAuthorityClause.Channels) = ["*"]))
  /\ (ClauseValidate c' = None -> clause_text c -> clause_text c' ->
      c.(ConfigAuthorityClause.ClauseID) = c'.(ConfigAuthorityClause.ClauseID) ->
      same_clause c c' \/ sha256_collision (ClauseCanonicalBytes c) (ClauseCanonicalBytes c')).
Proof.
  assert (forall x, ClauseValidate x = None ->
    (exists s, each (channel_step (List.length (elems x.(ConfigAuthorityClause.Channels))))
      (elems x.(ConfigAuthorityClause.Channels)) ∅ = Ok s)
    /\ x.(ConfigAuthorityClause.SchemaVersion) = 1
    /\ x.(ConfigAuthorityClause.ClauseID) = "cfg_" +:+ hex_encode (sha256 (ClauseCanonicalBytes x)))
    as Hv.
  { intros x. unfold ClauseValidate. rewrite !first_error_None, !fail_if_None, ok_None.
    intros (H1 & H2 & H3). split_and!; [done| |].
    - repeat apply orb_false_iff in H1 as [H1 _]. apply bool_decide_eq_false in H1.
      by apply dec_stable.
    - apply bool_decide_eq_false in H3. by apply dec_stable in H3. }
  intros [[s Hs] [V1 V2]]%Hv. apply clause_channels_ok in Hs as (H1 & H2 & _ & H4). split.
  - split_and!; [done|done|]. intros Hin. specialize (H4 Hin).
    destruct (elems _) as [|x [|y l]]; try done. by apply list_elem_of_singleton in Hin as ->.
  - intros [_ [V1' V2']]%Hv Ht Ht' Hid. rewrite V2, V2' in Hid. injection Hid as Hid.
    apply hex_encode_inj, sha256_eq_iff in Hid as [Hb|]; [left|by right].
    unfold ClauseCanonicalBytes in Hb.
    apply print_inj in Hb; [|by apply clause_value_wf..]. unfold clause_value in Hb.
    member_eq 1%nat Hb E1. member_eq 2%nat Hb E2. member_eq 3%nat Hb E3. member_eq 4%nat Hb E4.
    member_eq 5%nat Hb E5. apply (inj VString) in E1, E2, E3, E5. split; [congruence|].
    apply slice_strings in E4.
    destruct c.(ConfigAuthorityClause.Channels), c'.(ConfigAuthorityClause.Channels); done.
Qed.

(** ** The registry of analyzers *)

Lemma Register_Ok r op a r' :
  Register (Some r) op (Some a) = Ok r' <->
  op <> "" /\ r !! op = None /\ r' = <[op := a]> r.
Proof.
  unfold Register. destruct (_ || _) eqn:E.
  - split; [done|]. intros (H1 & H2 & _). apply orb_true_iff in E as [E|E];
      apply bool_decide_eq_true in E; [done|]. rewrite H2 in E. by destruct E.
  - apply orb_false_iff in E as [E1 E2]. apply bool_decide_eq_false in E1, E2.
    apply eq_None_not_Some in E2. split; [intros [= <-]; done|by intros (_ & _ & ->)].
Qed.

(** ** Concrete grants *)

Definition example_matchers : ResourceMatchers := {[ "path" := PathResourceIncludes None ]}.

#[export] Instance example_matchers_compose : ComposableMatchers example_matchers.
Proof.
  intros k f Hk a b c. unfold example_matchers in Hk. apply lookup_singleton_Some in Hk as [_ <-]. by apply path_matcher_trans.
Qed.

Definition example_terms : IntentContractV2.t :=
  example_intent [example_op "calc"; example_op "read_file"].

Definition example_grant_v2 (id parent issuer subject path : string) (parentVersion depth : Z)
    (denied : list string) : AuthorityGrantV2.t :=
  {| AuthorityGrantV2.GrantID := id; AuthorityGrantV2.SchemaVersion := 2;
     AuthorityGrantV2.Version := 1; AuthorityGrantV2.ProfileID := "default";
     AuthorityGrantV2.IntentID := "int_1"; AuthorityGrantV2.IntentVersion := 1;
     AuthorityGrantV2.IntentDigest := IntentContractV2_Digest example_terms;
     AuthorityGrantV2.IssuerPrincipalID := issuer; AuthorityGrantV2.SubjectPrincipalID := subject;
     AuthorityGrantV2.ParentGrantID := parent; AuthorityGrantV2.ParentGrantVersion := parentVersion;
     AuthorityGrantV2.Operations := Some [example_op "read_file"];
     AuthorityGrantV2.Channels := Some ["telegram"];
     AuthorityGrantV2.AllowedResources := Some [path_resource path];
     AuthorityGrantV2.DeniedResources := None; AuthorityGrantV2.AllowedData := Some ["*"];
     AuthorityGrantV2.DeniedData := Some denied; AuthorityGrantV2.OutputDestinations := None;
     AuthorityGrantV2.EffectClasses := Some [EffectReadExternal];
     AuthorityGrantV2.EffectCeiling := EffectReadExternal;
     AuthorityGrantV2.Budget :=
       {| IntentBudgetV2.Total := Some 5; IntentBudgetV2.PerOperation := None |};
     AuthorityGrantV2.ValidFrom := unix_epoch; AuthorityGrantV2.ExpiresAt := end_of_time;
     AuthorityGrantV2.DelegationDepthRemaining := depth;
     AuthorityGrantV2.Approval := {| ApprovalRequirementV2.Required := false |};
     AuthorityGrantV2.Status := LifecycleActive |}.

Definition example_parent : AuthorityGrantV2.t :=
  example_grant_v2 "grant_1" "" "principal_operator" "principal_brain_a" "/srv" 0 3 ["secret"].

Definition example_balance : AuthorityBudgetRemaining :=
  {| br_Total := Some 5; br_PerOperation := {[ "tool/read_file@1" := 2 ]} |}.

Definition example_child_v2 (denied : list string) : AuthorityGrantV2.t :=
  example_grant_v2 "grant_2" "grant_1" "principal_brain_a" "principal_brain_b" "/srv/notes" 1 2 denied.

Definition example_use (data : list string) : OperationUse :=
  {| use_Resources := [path_resource "/srv/notes/today"]; use_Data := data; use_Destinations := [] |}.

Lemma example_edge denied :
  match NormalizeAuthorityDelegation example_parent (example_child_v2 denied) example_terms
          example_balance example_matchers with
  | Ok g => derived example_terms example_matchers example_parent 1 g
  | Err _ => True
  end.
Proof.
  destruct (NormalizeAuthorityDelegation _ _ _ _ _) as [g|] eqn:E; [|done].
  eapply derived_edge; [apply derived_root|exact E].
Qed.

Definition example_leaf : AuthorityGrantV2.t := normalised (example_child_v2 ["secret"]) example_balance.

Lemma example_leaf_Ok :
  NormalizeAuthorityDelegation example_parent (example_child_v2 ["secret"]) example_terms
    example_balance example_matchers = Ok example_leaf.
Proof. vm_compute. reflexivity. Qed.


(** An inherited denial of data can disappear.  The delegation check
    takes a child that denies the wildcard as denying everything its parent
    denies, but the check of an actual use compares the denied data literally:
    a leaf can be accepted under a parent that denies a data class and then
    validate a use of exactly that class. *)
Theorem wildcard_denial_drops_inherited_denials :
  exists parent child intent remaining m g use,
    NormalizeAuthorityDelegation parent child intent remaining m = Ok g
    /\ elems child.(AuthorityGrantV2.DeniedData) = ["*"]
    /\ ValidateAuthorityUse parent use m = Some ErrDataOutOfScope
    /\ ValidateAuthorityUse g use m = None.
Proof.
  exists example_parent, (example_child_v2 ["*"]), example_terms, example_balance, example_matchers,
    (normalised (example_child_v2 ["*"]) example_balance), (example_use ["secret"]).
  vm_compute. repeat split.
Qed.

Lemma path_containment_is_segment_prefix_witness :
  PathResourceIncludes (Some "/home/korvun") "notes/../notes/" "/home/korvun/notes/2026/today.md" = true
  /\ PathResourceIncludes (Some "/home/korvun") "notes" "notes-old/x" = false.
Proof.
  assert (forall wd, Some "/home/korvun" = Some wd -> IsAbs wd = true) as H by (by intros wd [= <-]).
  split; [|vm_compute; reflexivity].
  apply (proj1 (path_containment_is_segment_prefix (Some "/home/korvun") H)).
  exists "/home/korvun/notes", "/home/korvun/notes/2026/today.md".
  split; [vm_compute; reflexivity|]. split; [vm_compute; reflexivity|].
  exists ["2026"; "today.md"]. vm_compute. reflexivity.
Defined.

Lemma authority_seal_binds_domain_and_bytes_witness :
  VerifyAuthorityBytes toy_verify "key" authorityGrantDomain "{}"
    (SignAuthorityBytes string id toy_sign "key" authorityGrantDomain "{}") = None.
Proof.
  assert (forall k m, toy_verify (id k) m (toy_sign k m) = true) as H
    by (intros k m; by apply bool_decide_eq_true_2).
  exact (proj1 (proj2 (authority_seal_binds_domain_and_bytes string id toy_sign toy_verify H))
    "key" authorityGrantDomain "{}").
Defined.

(** The example with its absent collections spelled as empty ones. *)
Definition example_spelled : AuthorityGrantV2.t :=
  AuthorityGrantV2.set_budget
    {| IntentBudgetV2.Total := Some 5; IntentBudgetV2.PerOperation := Some ∅ |} example_parent.

Lemma example_grant_text2 b :
  b.(IntentBudgetV2.PerOperation) = None \/ b.(IntentBudgetV2.PerOperation) = Some ∅ ->
  grant_v2_text (AuthorityGrantV2.set_budget b example_parent).
Proof.
  intros Hb. assert (budget_text b) as Ht.
  { unfold budget_text, IntentBudgetV2.per. destruct Hb as [-> | ->]; simpl;
      rewrite map_to_list_empty; constructor. }
  split; try done; cbn [AuthorityGrantV2.set_budget example_parent example_grant_v2
    AuthorityGrantV2.Operations AuthorityGrantV2.AllowedResources AuthorityGrantV2.DeniedResources
    AuthorityGrantV2.Channels AuthorityGrantV2.AllowedData AuthorityGrantV2.DeniedData
    AuthorityGrantV2.OutputDestinations AuthorityGrantV2.EffectClasses elems default].
  - repeat (apply Forall_cons; split; [apply ascii_only_utf8; vm_compute; reflexivity|]).
    constructor.
  - apply Forall_cons; split; [by apply example_op_text|constructor].
  - apply NoDup_singleton.
  - apply Forall_cons; split; [split; by apply ascii_only_utf8|constructor].
  - repeat (apply Forall_cons; split; [repeat (apply Forall_cons; split;
      [apply ascii_only_utf8; vm_compute; reflexivity|]); constructor|]). constructor.
Qed.

Lemma grant_v2_digest_has_one_spelling_witness :
  AuthorityGrantV2_Digest example_parent = AuthorityGrantV2_Digest example_spelled.
Proof.
  apply (grant_v2_digest_has_one_spelling example_parent example_spelled).
  - apply (example_grant_text2 {| IntentBudgetV2.Total := Some 5;
      IntentBudgetV2.PerOperation := None |}). by left.
  - apply example_grant_text2. by right.
  - left. split; reflexivity || (split; reflexivity).
Defined.

Definition example_clause : ConfigAuthorityClause.t :=
  let c id := {| ConfigAuthorityClause.ClauseID := id; ConfigAuthorityClause.SchemaVersion := 1;
       ConfigAuthorityClause.ProfileID := "default";
       ConfigAuthorityClause.BrainPrincipal := "principal_brain_a";
       ConfigAuthorityClause.ToolName := "read_file";
       ConfigAuthorityClause.Channels := Some ["telegram"; "console"];
       ConfigAuthorityClause.CageDigest := "sha256:00" |} in
  c ("cfg_" +:+ TrimPrefix (ConfigAuthorityClause_Digest (c "")) "sha256:").

Lemma config_clause_id_is_its_terms_witness :
  ClauseValidate example_clause = None
  /\ NoDup (elems example_clause.(ConfigAuthorityClause.Channels)).
Proof.
  assert (ClauseValidate example_clause = None) as H by (vm_compute; reflexivity).
  split; [exact H|].
  exact (proj1 (proj1 (config_clause_id_is_its_terms example_clause example_clause H))).
Defined.
