(* ===== verification/Contracts.v ===== *)
(** * Strict readers of the version 2 contracts

    [internal/action/intent_v2.go] and [authority_v2.go]: the wire types of an
    intent and of a grant, [ParseIntentContractV2] and [ParseAuthorityGrantV2],
    and that each reads back what [CanonicalBytes] writes.  The text after an
    error's sentinel is not modelled, and the intent reader's errors are not
    told apart. *)

From S2P Require Import Prelude Kernel Grants Json Text Encoding Digests Wire Struct Receipts Intents Authority.
From Stdlib Require Import Ascii String.
Import Effect Lifecycle.
Local Open Scope Z_scope.
Local Open Scope korvun_scope.
#[local] Arguments String.append !_ _ : simpl nomatch.

Definition maxIntentBytes : Z := 65536.
Definition maxIntentDepth : Z := 8.

(** ** The scanner *)

Fixpoint nesting (v : value) : Z :=
  match v with
  | VArray es => 1 + foldr (fun e acc => Z.max (nesting e) acc) 0 es
  | VObject ms => 1 + foldr (fun p acc => Z.max (nesting p.2) acc) 0 ms
  | _ => 0
  end.

Fixpoint no_repeats (v : value) : bool :=
  match v with
  | VArray es => forallb no_repeats es
  | VObject ms => bool_decide (NoDup ms.*1) && forallb (fun p => no_repeats p.2) ms
  | _ => true
  end.

(** What passes [rejectDuplicateJSONKeys]; the decoder and [ensureJSONEOF]
    refuse what is not one JSON value. *)
Definition strict_value (raw : string) : option value :=
  match parse raw with
  | Some v => if (nesting v <=? maxIntentDepth) && no_repeats v then Some v else None
  | None => None
  end.

(** ** Wire types *)

Definition operation_type : gotype :=
  TStruct [("namespace", TString); ("name", TString); ("version", TInt)].
Definition resource_type : gotype := TStruct [("kind", TString); ("id", TString)].
Definition budget_type : gotype := TStruct [("total", TOptInt); ("per_operation", TCounts)].
Definition approval_type : gotype := TStruct [("required", TBool)].

Definition intent_type : gotype := TStruct
  [("intent_id", TString); ("schema_version", TInt); ("version", TInt); ("profile_id", TString);
   ("owner_principal_id", TString); ("purpose", TString); ("operations", TSlice operation_type);
   ("allowed_resources", TSlice resource_type); ("denied_resources", TSlice resource_type);
   ("data_scope", TSlice TString); ("output_destinations", TSlice TString);
   ("effect_classes", TSlice TString); ("budget", budget_type); ("valid_from", TString);
   ("expires_at", TString); ("approval", approval_type); ("max_delegation_depth", TInt)].

Definition grant_type : gotype := TStruct
  [("grant_id", TString); ("schema_version", TInt); ("version", TInt); ("profile_id", TString);
   ("intent_id", TString); ("intent_version", TInt); ("intent_digest", TString);
   ("issuer_principal_id", TString); ("subject_principal_id", TString);
   ("parent_grant_id", TString); ("parent_grant_version", TInt);
   ("operations", TSlice operation_type); ("channels", TSlice TString);
   ("allowed_resources", TSlice resource_type); ("denied_resources", TSlice resource_type);
   ("allowed_data", TSlice TString); ("denied_data", TSlice TString);
   ("output_destinations", TSlice TString); ("effect_classes", TSlice TString);
   ("effect_ceiling", TString); ("budget", budget_type); ("valid_from", TString);
   ("expires_at", TString); ("delegation_depth_remaining", TInt); ("approval", approval_type)].

(** ** Values of the wire types *)

Definition string_of (g : goval) : option string := match g with GString s => Some s | _ => None end.

Definition operation_of (g : goval) : option OperationRef.t :=
  match g with
  | GStruct [GString a; GString b; GInt c] =>
      Some {| OperationRef.Namespace := a; OperationRef.Name := b; OperationRef.Version := c |}
  | _ => None
  end.

Definition resource_of (g : goval) : option ResourceRef.t :=
  match g with
  | GStruct [GString a; GString b] => Some {| ResourceRef.Kind := a; ResourceRef.ID := b |}
  | _ => None
  end.

Definition slice_of {A} (f : goval -> option A) (g : goval) : option (slice A) :=
  match g with
  | GSlice None => Some None
  | GSlice (Some l) => Some <$> mapM f l
  | _ => None
  end.

Definition budget_of (g : goval) : option IntentBudgetV2.t :=
  match g with
  | GStruct [GOptInt t; GCounts m] =>
      Some {| IntentBudgetV2.Total := t; IntentBudgetV2.PerOperation := m |}
  | _ => None
  end.

Definition approval_of (g : goval) : option ApprovalRequirementV2.t :=
  match g with
  | GStruct [GBool b] => Some {| ApprovalRequirementV2.Required := b |}
  | _ => None
  end.

Section Readers.
Context (time_Parse : string -> option time).

Definition intent_of (g : goval) : option IntentContractV2.t :=
  match g with
  | GStruct [GString id; GInt schema; GInt version; GString profile; GString owner; GString purpose;
             ops; allowed; denied; data; outputs; effects; budget; GString from; GString until;
             approval; GInt depth] =>
      ops ← slice_of operation_of ops; allowed ← slice_of resource_of allowed;
      denied ← slice_of resource_of denied; data ← slice_of string_of data;
      outputs ← slice_of string_of outputs; effects ← slice_of string_of effects;
      budget ← budget_of budget; from ← time_Parse from; until ← time_Parse until;
      approval ← approval_of approval;
      Some {| IntentContractV2.IntentID := id; IntentContractV2.SchemaVersion := schema;
              IntentContractV2.Version := version; IntentContractV2.ProfileID := profile;
              IntentContractV2.OwnerPrincipalID := owner; IntentContractV2.Purpose := purpose;
              IntentContractV2.Operations := ops; IntentContractV2.AllowedResources := allowed;
              IntentContractV2.DeniedResources := denied; IntentContractV2.DataScope := data;
              IntentContractV2.OutputDestinations := outputs;
              IntentContractV2.EffectClasses := effects; IntentContractV2.Budget := budget;
              IntentContractV2.ValidFrom := from; IntentContractV2.ExpiresAt := until;
              IntentContractV2.Approval := approval; IntentContractV2.MaxDelegationDepth := depth |}
  | _ => None
  end.

Definition grant_of (g : goval) : option AuthorityGrantV2.t :=
  match g with
  | GStruct [GString id; GInt schema; GInt version; GString profile; GString intent;
             GInt intentVersion; GString intentDigest; GString issuer; GString subject;
             GString parent; GInt parentVersion; ops; channels; allowed; denied; data; deniedData;
             outputs; effects; GString ceiling; budget; GString from; GString until; GInt depth;
             approval] =>
      ops ← slice_of operation_of ops; channels ← slice_of string_of channels;
      allowed ← slice_of resource_of allowed; denied ← slice_of resource_of denied;
      data ← slice_of string_of data; deniedData ← slice_of string_of deniedData;
      outputs ← slice_of string_of outputs; effects ← slice_of string_of effects;
      budget ← budget_of budget; from ← time_Parse from; until ← time_Parse until;
      approval ← approval_of approval;
      Some {| AuthorityGrantV2.GrantID := id; AuthorityGrantV2.SchemaVersion := schema;
              AuthorityGrantV2.Version := version; AuthorityGrantV2.ProfileID := profile;
              AuthorityGrantV2.IntentID := intent; AuthorityGrantV2.IntentVersion := intentVersion;
              AuthorityGrantV2.IntentDigest := intentDigest;
              AuthorityGrantV2.IssuerPrincipalID := issuer;
              AuthorityGrantV2.SubjectPrincipalID := subject;
              AuthorityGrantV2.ParentGrantID := parent;
              AuthorityGrantV2.ParentGrantVersion := parentVersion;
              AuthorityGrantV2.Operations := ops; AuthorityGrantV2.Channels := channels;
              AuthorityGrantV2.AllowedResources := allowed; AuthorityGrantV2.DeniedResources := denied;
              AuthorityGrantV2.AllowedData := data; AuthorityGrantV2.DeniedData := deniedData;
              AuthorityGrantV2.OutputDestinations := outputs;
              AuthorityGrantV2.EffectClasses := effects; AuthorityGrantV2.EffectCeiling := ceiling;
              AuthorityGrantV2.Budget := budget; AuthorityGrantV2.ValidFrom := from;
              AuthorityGrantV2.ExpiresAt := until;
              AuthorityGrantV2.DelegationDepthRemaining := depth;
              AuthorityGrantV2.Approval := approval; AuthorityGrantV2.Status := "" |}
  | _ => None
  end.

Definition too_long (raw : string) : bool := maxIntentBytes <? Z.of_nat (String.length raw).

Definition ParseIntentContractV2 (raw : string) : option IntentContractV2.t :=
  if too_long raw then None
  else
    v ← strict_value raw;
    g ← decode_go intent_type v (zero_go intent_type);
    c ← intent_of g;
    match Intents.Validate c with None => Some c | Some _ => None end.

Definition ParseAuthorityGrantV2 (raw : string) : result AuthorityGrantV2.t :=
  if too_long raw then Err (malformed "grant exceeds 65536 bytes")
  else match (v ← strict_value raw; decode_go grant_type v (zero_go grant_type)) with
       | None => Err (malformed "wire")
       | Some w =>
           match grant_of w with
           | None => Err ErrAuthorityMalformed
           | Some g => match Authority.Validate g with None => Ok g | Some e => Err e end
           end
       end.

End Readers.

(** ** Canonical values *)

Definition operation_go (o : OperationRef.t) : goval :=
  GStruct [GString o.(OperationRef.Namespace); GString o.(OperationRef.Name); GInt o.(OperationRef.Version)].
Definition resource_go (r : ResourceRef.t) : goval :=
  GStruct [GString r.(ResourceRef.Kind); GString r.(ResourceRef.ID)].
Definition slice_go {A} (f : A -> goval) (s : slice A) : goval := GSlice (map f <$> s).
Definition budget_go (b : IntentBudgetV2.t) : goval :=
  GStruct [GOptInt b.(IntentBudgetV2.Total); GCounts b.(IntentBudgetV2.PerOperation)].
Definition approval_go (a : ApprovalRequirementV2.t) : goval := GStruct [GBool a.(ApprovalRequirementV2.Required)].

(** The terms with every collection present and in order: what the canonical
    bytes say. *)
Definition grant_normal (g : AuthorityGrantV2.t) : AuthorityGrantV2.t :=
  {| AuthorityGrantV2.GrantID := g.(AuthorityGrantV2.GrantID);
     AuthorityGrantV2.SchemaVersion := 2;
     AuthorityGrantV2.Version := g.(AuthorityGrantV2.Version);
     AuthorityGrantV2.ProfileID := g.(AuthorityGrantV2.ProfileID);
     AuthorityGrantV2.IntentID := g.(AuthorityGrantV2.IntentID);
     AuthorityGrantV2.IntentVersion := g.(AuthorityGrantV2.IntentVersion);
     AuthorityGrantV2.IntentDigest := g.(AuthorityGrantV2.IntentDigest);
     AuthorityGrantV2.IssuerPrincipalID := g.(AuthorityGrantV2.IssuerPrincipalID);
     AuthorityGrantV2.SubjectPrincipalID := g.(AuthorityGrantV2.SubjectPrincipalID);
     AuthorityGrantV2.ParentGrantID := g.(AuthorityGrantV2.ParentGrantID);
     AuthorityGrantV2.ParentGrantVersion := g.(AuthorityGrantV2.ParentGrantVersion);
     AuthorityGrantV2.Operations := merge_sort op_key_le <$> emptyIfNil g.(AuthorityGrantV2.Operations);
     AuthorityGrantV2.Channels := sortedStrings (emptyIfNil g.(AuthorityGrantV2.Channels));
     AuthorityGrantV2.AllowedResources := sortedResources (emptyIfNil g.(AuthorityGrantV2.AllowedResources));
     AuthorityGrantV2.DeniedResources := sortedResources (emptyIfNil g.(AuthorityGrantV2.DeniedResources));
     AuthorityGrantV2.AllowedData := sortedStrings (emptyIfNil g.(AuthorityGrantV2.AllowedData));
     AuthorityGrantV2.DeniedData := sortedStrings (emptyIfNil g.(AuthorityGrantV2.DeniedData));
     AuthorityGrantV2.OutputDestinations := sortedStrings (emptyIfNil g.(AuthorityGrantV2.OutputDestinations));
     AuthorityGrantV2.EffectClasses := sortedStrings (emptyIfNil g.(AuthorityGrantV2.EffectClasses));
     AuthorityGrantV2.EffectCeiling := g.(AuthorityGrantV2.EffectCeiling);
     AuthorityGrantV2.Budget := present_budget g.(AuthorityGrantV2.Budget);
     AuthorityGrantV2.ValidFrom := g.(AuthorityGrantV2.ValidFrom);
     AuthorityGrantV2.ExpiresAt := g.(AuthorityGrantV2.ExpiresAt);
     AuthorityGrantV2.DelegationDepthRemaining := g.(AuthorityGrantV2.DelegationDepthRemaining);
     AuthorityGrantV2.Approval := g.(AuthorityGrantV2.Approval);
     AuthorityGrantV2.Status := "" |}.

Definition intent_normal (c : IntentContractV2.t) : IntentContractV2.t :=
  {| IntentContractV2.IntentID := c.(IntentContractV2.IntentID);
     IntentContractV2.SchemaVersion := 2;
     IntentContractV2.Version := c.(IntentContractV2.Version);
     IntentContractV2.ProfileID := c.(IntentContractV2.ProfileID);
     IntentContractV2.OwnerPrincipalID := c.(IntentContractV2.OwnerPrincipalID);
     IntentContractV2.Purpose := c.(IntentContractV2.Purpose);
     IntentContractV2.Operations := merge_sort op_le <$> c.(IntentContractV2.Operations);
     IntentContractV2.AllowedResources := merge_sort res_le <$> c.(IntentContractV2.AllowedResources);
     IntentContractV2.DeniedResources := merge_sort res_le <$> c.(IntentContractV2.DeniedResources);
     IntentContractV2.DataScope := sort_strings <$> c.(IntentContractV2.DataScope);
     IntentContractV2.OutputDestinations := sort_strings <$> c.(IntentContractV2.OutputDestinations);
     IntentContractV2.EffectClasses := sort_strings <$> c.(IntentContractV2.EffectClasses);
     IntentContractV2.Budget := c.(IntentContractV2.Budget);
     IntentContractV2.ValidFrom := c.(IntentContractV2.ValidFrom);
     IntentContractV2.ExpiresAt := c.(IntentContractV2.ExpiresAt);
     IntentContractV2.Approval := c.(IntentContractV2.Approval);
     IntentContractV2.MaxDelegationDepth := c.(IntentContractV2.MaxDelegationDepth) |}.

Definition grant_go (g : AuthorityGrantV2.t) : goval :=
  GStruct
    [GString g.(AuthorityGrantV2.GrantID); GInt g.(AuthorityGrantV2.SchemaVersion);
     GInt g.(AuthorityGrantV2.Version); GString g.(AuthorityGrantV2.ProfileID);
     GString g.(AuthorityGrantV2.IntentID); GInt g.(AuthorityGrantV2.IntentVersion);
     GString g.(AuthorityGrantV2.IntentDigest); GString g.(AuthorityGrantV2.IssuerPrincipalID);
     GString g.(AuthorityGrantV2.SubjectPrincipalID); GString g.(AuthorityGrantV2.ParentGrantID);
     GInt g.(AuthorityGrantV2.ParentGrantVersion);
     slice_go operation_go g.(AuthorityGrantV2.Operations);
     slice_go GString g.(AuthorityGrantV2.Channels);
     slice_go resource_go g.(AuthorityGrantV2.AllowedResources);
     slice_go resource_go g.(AuthorityGrantV2.DeniedResources);
     slice_go GString g.(AuthorityGrantV2.AllowedData);
     slice_go GString g.(AuthorityGrantV2.DeniedData);
     slice_go GString g.(AuthorityGrantV2.OutputDestinations);
     slice_go GString g.(AuthorityGrantV2.EffectClasses);
     GString g.(AuthorityGrantV2.EffectCeiling); budget_go g.(AuthorityGrantV2.Budget);
     GString (timeTerm g.(AuthorityGrantV2.ValidFrom));
     GString (timeTerm g.(AuthorityGrantV2.ExpiresAt));
     GInt g.(AuthorityGrantV2.DelegationDepthRemaining); approval_go g.(AuthorityGrantV2.Approval)].

Definition intent_go (c : IntentContractV2.t) : goval :=
  GStruct
    [GString c.(IntentContractV2.IntentID); GInt c.(IntentContractV2.SchemaVersion);
     GInt c.(IntentContractV2.Version); GString c.(IntentContractV2.ProfileID);
     GString c.(IntentContractV2.OwnerPrincipalID); GString c.(IntentContractV2.Purpose);
     slice_go operation_go c.(IntentContractV2.Operations);
     slice_go resource_go c.(IntentContractV2.AllowedResources);
     slice_go resource_go c.(IntentContractV2.DeniedResources);
     slice_go GString c.(IntentContractV2.DataScope);
     slice_go GString c.(IntentContractV2.OutputDestinations);
     slice_go GString c.(IntentContractV2.EffectClasses); budget_go c.(IntentContractV2.Budget);
     GString (timeTerm c.(IntentContractV2.ValidFrom));
     GString (timeTerm c.(IntentContractV2.ExpiresAt)); approval_go c.(IntentContractV2.Approval);
     GInt c.(IntentContractV2.MaxDelegationDepth)].

(** ** Lemmas: the scanner on what a typed value marshals to *)

Lemma counts_scan m : nesting (counts_value m) <= 1 /\ no_repeats (counts_value m) = true.
Proof.
  destruct (counts_members m) as (l & Hl & ->). cbn [nesting no_repeats]. split.
  - assert (foldr (fun p acc => Z.max (nesting p.2) acc) 0 (map (fun p => (p.1, num p.2)) l) = 0) as ->; [|lia].
    clear Hl. induction l as [|p l IH]; [done|]. cbn [map foldr]. rewrite IH. done.
  - apply andb_true_intro. split.
    + apply bool_decide_eq_true_2.
      assert ((map (fun p : string * Z => (p.1, num p.2)) l).*1 = l.*1) as ->
        by (clear Hl; induction l as [|p l IH]; [done|]; cbn; by f_equal).
      rewrite Hl. apply NoDup_fst_map_to_list.
    + clear Hl. induction l as [|p l IH]; [done|]. cbn [map forallb]. by rewrite IH.
Qed.

Lemma nesting_depth t g : nesting (marshal_go t g) <= depth t.
Proof.
  revert g. induction t as [| | | |u|t IH| | | |fs IH] using gotype_nested_ind; intros g;
    try (by destruct g).
  - destruct g as [| | | |[l|]| | |]; try (pose proof (depth_nonneg (TSlice t)); cbn in *; lia).
    cbn [marshal_go nesting depth]. pose proof (depth_nonneg t).
    induction l as [|g l IHl]; cbn [map foldr]; [lia|]. specialize (IH g). lia.
  - by destruct g as [| | | | |[z|]| |].
  - by destruct g as [| | | | |[z|]| |].
  - destruct g as [| | | | | |[m|]|]; try (cbn; lia). apply (counts_scan m).
  - pose proof (depth_nonneg (TStruct fs)). destruct g as [| | | | | | |gs]; try (cbn in *; lia).
    rewrite marshal_struct_members. cbn [nesting depth] in *. clear H. revert gs.
    induction IH as [|f fs Hf _ IHf]; intros [|g gs]; cbn [members foldr]; try lia.
    + pose proof (depth_nonneg (TStruct fs)). pose proof (depth_nonneg f.2). cbn [depth] in *. lia.
    + specialize (IHf gs). specialize (Hf g). destruct (omitted f.2 g); cbn [foldr snd]; lia.
Qed.

Lemma members_names fs gs : sublist (members fs gs).*1 fs.*1.
Proof.
  revert gs. induction fs as [|f fs IH]; intros [|g gs]; cbn [members]; try apply sublist_nil_l.
  destruct (omitted f.2 g); [by apply sublist_cons|]. by apply sublist_skip.
Qed.

Lemma no_repeats_marshal t : type_ok t -> forall g, typed_go t g -> no_repeats (marshal_go t g) = true.
Proof.
  induction t as [| | | |u|t IH| | | |fs IH] using gotype_nested_ind; intros Hok g Hg; try (by destruct g).
  - destruct g as [| | | |[l|]| | |]; try done. cbn [typed_go marshal_go no_repeats] in *.
    induction Hg as [|g l Hg _ IHl]; [done|]. cbn [map forallb]. by rewrite (IH Hok g Hg).
  - by destruct g as [| | | | |[z|]| |].
  - by destruct g as [| | | | |[z|]| |].
  - destruct g as [| | | | | |[m|]|]; try done. apply (counts_scan m).
  - destruct g as [| | | | | | |gs]; try done. apply typed_struct in Hg.
    apply type_ok_struct in Hok as (Hnd & _ & Hok). rewrite marshal_struct_members.
    cbn [no_repeats]. apply andb_true_intro. split.
    + apply bool_decide_eq_true_2. by eapply sublist_NoDup, members_names.
    + clear Hnd. induction Hg as [|f g fs gs Hg _ IHg]; [done|].
      apply Forall_cons in IH as [IHf IH], Hok as [Hf Hok]. cbn [members].
      destruct (omitted f.2 g); [by apply IHg|]. cbn [forallb snd]. rewrite IHf by done. by apply IHg.
Qed.

(** What a well-typed value marshals to passes the scanner and decodes to it. *)
Lemma strict_round_trip t g : type_ok t -> depth t <= maxIntentDepth -> typed_go t g ->
  strict_value (print (marshal_go t g)) = Some (marshal_go t g)
  /\ decode_go t (marshal_go t g) (zero_go t) = Some g.
Proof.
  intros Hok Hd Hg. split; [|by apply decode_marshal_go].
  unfold strict_value. rewrite parse_print.
  - pose proof (nesting_depth t g). rewrite (proj2 (Z.leb_le _ _)) by lia.
    by rewrite (no_repeats_marshal t).
  - apply marshal_go_wf; [done|done|]. unfold maxNestingDepth, maxIntentDepth in *. lia.
Qed.

(** ** Lemmas: contracts as typed values *)

Lemma slice_of_go {A} (f : A -> goval) (f' : goval -> option A) (s : slice A) :
  (forall x, f' (f x) = Some x) -> slice_of f' (slice_go f s) = Some s.
Proof.
  intros Hf. destruct s as [l|]; [|done]. cbn [slice_go slice_of fmap option_fmap option_map].
  induction l as [|x l IH]; [done|]. cbn [map mapM]. rewrite Hf. cbn [mbind option_bind].
  destruct (mapM f' (map f l)); [|done]. by injection IH as ->.
Qed.

Lemma slice_value_go {A} (f : A -> goval) (v : A -> value) t (s : slice A) :
  (forall x, v x = marshal_go t (f x)) -> slice_value v s = marshal_go (TSlice t) (slice_go f s).
Proof.
  intros Hv. destruct s as [l|]; [|done]. cbn [slice_value slice_go marshal_go fmap option_fmap option_map].
  f_equal. rewrite map_map. by apply map_ext.
Qed.

Lemma slice_typed {A} (f : A -> goval) t (P : A -> Prop) (s : slice A) :
  (forall x, P x -> typed_go t (f x)) -> Forall P (elems s) -> typed_go (TSlice t) (slice_go f s).
Proof.
  intros Hf Hs. destruct s as [l|]; [|done]. cbn. apply Forall_map. by eapply Forall_impl.
Qed.

Lemma grant_value_go g : grant_value g = marshal_go grant_type (grant_go (grant_normal g)).
Proof.
  unfold grant_value, grant_type, grant_go. rewrite marshal_struct_members.
  cbn [members omitted fst snd]. unfold grant_normal.
  cbn [AuthorityGrantV2.Operations AuthorityGrantV2.Channels AuthorityGrantV2.AllowedResources
    AuthorityGrantV2.DeniedResources AuthorityGrantV2.AllowedData AuthorityGrantV2.DeniedData
    AuthorityGrantV2.OutputDestinations AuthorityGrantV2.EffectClasses].
  by rewrite <- !(slice_value_go operation_go op_value operation_type),
    <- !(slice_value_go resource_go res_value resource_type),
    <- !(slice_value_go GString VString TString).
Qed.

Lemma intent_value_go c : intent_value c = marshal_go intent_type (intent_go (intent_normal c)).
Proof.
  unfold intent_value, intent_type, intent_go. rewrite marshal_struct_members.
  cbn [members omitted fst snd]. unfold intent_normal.
  cbn [IntentContractV2.Operations IntentContractV2.AllowedResources
    IntentContractV2.DeniedResources IntentContractV2.DataScope
    IntentContractV2.OutputDestinations IntentContractV2.EffectClasses].
  rewrite <- !(slice_value_go operation_go op_value operation_type),
    <- !(slice_value_go resource_go res_value resource_type),
    <- !(slice_value_go GString VString TString) by done.
  unfold budget_value, budget_type, budget_go. by destruct (IntentContractV2.Budget c) as [[n|] [m|]].
Qed.

Lemma operation_of_go o : operation_of (operation_go o) = Some o.
Proof. by destruct o. Qed.
Lemma resource_of_go r : resource_of (resource_go r) = Some r.
Proof. by destruct r. Qed.
Lemma budget_of_go b : budget_of (budget_go b) = Some b.
Proof. by destruct b. Qed.
Lemma approval_of_go a : approval_of (approval_go a) = Some a.
Proof. by destruct a. Qed.

(** What [time.Parse] promises about the text of an instant. *)
Definition reads_time (time_Parse : string -> option time) (t : time) : Prop :=
  time_Parse (timeTerm t) = Some t.

Lemma grant_of_go time_Parse g :
  reads_time time_Parse g.(AuthorityGrantV2.ValidFrom) ->
  reads_time time_Parse g.(AuthorityGrantV2.ExpiresAt) ->
  g.(AuthorityGrantV2.Status) = "" -> grant_of time_Parse (grant_go g) = Some g.
Proof.
  intros Hf Hu Hs. unfold grant_go, grant_of.
  rewrite (slice_of_go _ _ _ operation_of_go), !(slice_of_go _ _ _ resource_of_go),
    !(slice_of_go GString string_of) by done.
  cbn [mbind option_bind]. rewrite budget_of_go. cbn [mbind option_bind].
  unfold reads_time in Hf, Hu. rewrite Hf, Hu. cbn [mbind option_bind].
  rewrite approval_of_go. cbn [mbind option_bind]. destruct g. cbn in Hs. by subst.
Qed.

Lemma intent_of_go time_Parse c :
  reads_time time_Parse c.(IntentContractV2.ValidFrom) ->
  reads_time time_Parse c.(IntentContractV2.ExpiresAt) ->
  intent_of time_Parse (intent_go c) = Some c.
Proof.
  intros Hf Hu. unfold intent_go, intent_of.
  rewrite (slice_of_go _ _ _ operation_of_go), !(slice_of_go _ _ _ resource_of_go),
    !(slice_of_go GString string_of) by done.
  cbn [mbind option_bind]. rewrite budget_of_go. cbn [mbind option_bind].
  unfold reads_time in Hf, Hu. rewrite Hf, Hu. cbn [mbind option_bind].
  rewrite approval_of_go. cbn [mbind option_bind]. by destruct c.
Qed.

(** Integers of a contract fit their Go types. *)
Definition ops_range (s : slice OperationRef.t) : Prop :=
  Forall (fun o => int64_range o.(OperationRef.Version)) (elems s).
Definition budget_range (b : IntentBudgetV2.t) : Prop :=
  (forall n, b.(IntentBudgetV2.Total) = Some n -> int64_range n)
  /\ map_Forall (fun _ z => int64_range z) (IntentBudgetV2.per b).

Record grant_range (g : AuthorityGrantV2.t) : Prop := {
  gr_numbers : Forall int64_range
    [g.(AuthorityGrantV2.Version); g.(AuthorityGrantV2.IntentVersion);
     g.(AuthorityGrantV2.ParentGrantVersion); g.(AuthorityGrantV2.DelegationDepthRemaining)];
  gr_operations : ops_range g.(AuthorityGrantV2.Operations);
  gr_budget : budget_range g.(AuthorityGrantV2.Budget);
}.

Record intent_range (c : IntentContractV2.t) : Prop := {
  ir_numbers : Forall int64_range
    [c.(IntentContractV2.Version); c.(IntentContractV2.MaxDelegationDepth)];
  ir_operations : ops_range c.(IntentContractV2.Operations);
  ir_budget : budget_range c.(IntentContractV2.Budget);
}.

Lemma budget_typed b : budget_text b -> budget_range b -> typed_go budget_type (budget_go b).
Proof.
  intros Ht [Hn Hm]. unfold budget_type, budget_go. apply typed_struct.
  constructor; [|constructor; [|constructor]]; cbn [snd typed_go].
  - destruct (IntentBudgetV2.Total b); [by apply Hn|done].
  - destruct (IntentBudgetV2.PerOperation b) as [m|] eqn:E; [|done].
    unfold budget_text, IntentBudgetV2.per in *. rewrite E in *. cbn [default] in *.
    intros k z Hk. split; [|by apply (Hm k z)].
    rewrite Forall_forall in Ht. apply (Ht (k, z)). by apply elem_of_map_to_list.
Qed.

Lemma operations_typed (s : slice OperationRef.t) : Forall op_text (elems s) -> ops_range s ->
  typed_go (TSlice operation_type) (slice_go operation_go s).
Proof.
  intros Ht Hr. apply (slice_typed _ _ (fun o => op_text o /\ int64_range o.(OperationRef.Version))).
  - intros o [[H1 H2] H3]. done.
  - by apply Forall_and.
Qed.

Lemma resources_typed (s : slice ResourceRef.t) : Forall res_text (elems s) ->
  typed_go (TSlice resource_type) (slice_go resource_go s).
Proof. apply slice_typed. intros r [H1 H2]. done. Qed.

Lemma strings_typed (s : slice string) : Forall utf8 (elems s) ->
  typed_go (TSlice TString) (slice_go GString s).
Proof. by apply slice_typed. Qed.

Lemma elems_sorted {A} (f : list A -> list A) (s : slice A) : (forall l, f l ≡ₚ l) ->
  elems (f <$> s) ≡ₚ elems s.
Proof. intros Hf. destruct s; [apply Hf|done]. Qed.

Lemma Forall_sorted {A} (P : A -> Prop) (f : list A -> list A) (s : slice A) : (forall l, f l ≡ₚ l) ->
  Forall P (elems s) -> Forall P (elems (f <$> s)).
Proof. intros Hf. by rewrite (elems_sorted f s Hf). Qed.

#[local] Hint Resolve budget_typed operations_typed resources_typed strings_typed timeTerm_utf8 : typed.
#[local] Hint Resolve sort_strings_perm : typed.

(** The fields of a struct one by one. *)
Ltac typed_fields :=
  repeat (apply Forall2_cons; split); [..|by apply Forall2_nil]; cbn [snd];
  try exact I; try assumption; try apply timeTerm_utf8;
  try (apply strings_typed, Forall_sorted; [apply sort_strings_perm|assumption]);
  try (apply resources_typed, Forall_sorted; [apply (merge_sort_Permutation res_le)|assumption]).

Lemma grant_typed g : grant_v2_text g -> grant_range g ->
  typed_go grant_type (grant_go (grant_normal g)).
Proof.
  intros [H1 H2 _ H4 H5 H6 H7 _ _] [R1 R2 R3].
  repeat (apply Forall_cons in H1 as [? H1]). repeat (apply Forall_cons in H6 as [? H6]).
  repeat (apply Forall_cons in R1 as [? R1]).
  unfold grant_type, grant_go. apply typed_struct.
  unfold grant_normal, sortedStrings, sortedResources.
  cbn [AuthorityGrantV2.Operations AuthorityGrantV2.Channels AuthorityGrantV2.AllowedResources
    AuthorityGrantV2.DeniedResources AuthorityGrantV2.AllowedData AuthorityGrantV2.DeniedData
    AuthorityGrantV2.OutputDestinations AuthorityGrantV2.EffectClasses AuthorityGrantV2.Budget
    AuthorityGrantV2.ValidFrom AuthorityGrantV2.ExpiresAt].
  typed_fields.
  - done.
  - apply operations_typed; (apply Forall_sorted; [apply (merge_sort_Permutation op_key_le)|assumption]).
  - by apply budget_typed.
  - unfold approval_type, approval_go. apply typed_struct. typed_fields.
Qed.

Lemma intent_typed c : intent_text c -> intent_range c ->
  typed_go intent_type (intent_go (intent_normal c)).
Proof.
  intros [H1 H2 H3 H4 H5 H6 H7 H8 _ _] [R1 R2 R3].
  repeat (apply Forall_cons in H1 as [? H1]). repeat (apply Forall_cons in R1 as [? R1]).
  unfold intent_type, intent_go. apply typed_struct. unfold intent_normal.
  cbn [IntentContractV2.Operations IntentContractV2.AllowedResources
    IntentContractV2.DeniedResources IntentContractV2.DataScope
    IntentContractV2.OutputDestinations IntentContractV2.EffectClasses IntentContractV2.Budget
    IntentContractV2.ValidFrom IntentContractV2.ExpiresAt].
  typed_fields.
  - done.
  - apply operations_typed; (apply Forall_sorted; [apply (merge_sort_Permutation op_le)|assumption]).
  - by apply budget_typed.
  - unfold approval_type, approval_go. apply typed_struct. typed_fields.
Qed.

(** ** Lemmas: a contract in order is as valid as the contract *)

Lemma each_unique_perm {A} bad key (e1 e2 : A -> error) (l k : list A) seen s : l ≡ₚ k ->
  each (unique_step bad key e1 e2) l seen = Ok s -> each (unique_step bad key e1 e2) k seen = Ok s.
Proof.
  intros Hp (H1 & H2 & H3 & ->)%each_unique. apply each_unique. split_and!.
  - by rewrite <- Hp.
  - by rewrite <- Hp.
  - intros x Hx. apply H3. by rewrite Hp.
  - f_equal. apply list_to_set_perm_L. by rewrite Hp.
Qed.

Lemma over_cap_perm {A} (l k : list A) : l ≡ₚ k -> over_cap l = over_cap k.
Proof. intros Hp. unfold over_cap. by rewrite (Permutation_length Hp). Qed.

Record grant_sets (g g' : AuthorityGrantV2.t) : Prop := {
  gs_operations : elems g.(AuthorityGrantV2.Operations) ≡ₚ elems g'.(AuthorityGrantV2.Operations);
  gs_channels : elems g.(AuthorityGrantV2.Channels) ≡ₚ elems g'.(AuthorityGrantV2.Channels);
  gs_allowed : elems g.(AuthorityGrantV2.AllowedResources) ≡ₚ elems g'.(AuthorityGrantV2.AllowedResources);
  gs_denied : elems g.(AuthorityGrantV2.DeniedResources) ≡ₚ elems g'.(AuthorityGrantV2.DeniedResources);
  gs_allowed_data : elems g.(AuthorityGrantV2.AllowedData) ≡ₚ elems g'.(AuthorityGrantV2.AllowedData);
  gs_denied_data : elems g.(AuthorityGrantV2.DeniedData) ≡ₚ elems g'.(AuthorityGrantV2.DeniedData);
  gs_destinations :
    elems g.(AuthorityGrantV2.OutputDestinations) ≡ₚ elems g'.(AuthorityGrantV2.OutputDestinations);
  gs_effects : elems g.(AuthorityGrantV2.EffectClasses) ≡ₚ elems g'.(AuthorityGrantV2.EffectClasses);
}.

Lemma grant_members_perm g g' s : grant_sets g g' -> grant_members g = Ok s -> grant_members g' = Ok s.
Proof.
  intros [P1 P2 P3 P4 P5 P6 P7 P8] H. unfold grant_members, unique_string, unique in *.
  apply let_ok in H as (s1 & E1 & H). apply let_ok. exists s1. split; [by eapply each_unique_perm|].
  apply let_ok in H as (s2 & E2 & H). apply let_ok. exists s2. split; [by eapply each_unique_perm|].
  apply let_ok in H as (s3 & E3 & H). apply let_ok. exists s3.
  split; [eapply each_unique_perm; [|exact E3]; by rewrite P3, P4|].
  apply let_ok in H as (s4 & E4 & H). apply let_ok. exists s4. split; [by eapply each_unique_perm|].
  apply let_ok in H as (s5 & E5 & H). apply let_ok. exists s5. split; [by eapply each_unique_perm|].
  apply let_ok in H as (s6 & E6 & H). apply let_ok. exists s6. split; [by eapply each_unique_perm|].
  by eapply each_unique_perm.
Qed.

Lemma emptyIfNil_sorted {A} (f : list A -> list A) (s : slice A) : (forall l, f l ≡ₚ l) ->
  elems s ≡ₚ elems (f <$> emptyIfNil s).
Proof. intros Hf. symmetry. apply Hf. Qed.

Lemma grant_normal_sets g : grant_sets g (grant_normal g).
Proof.
  split; apply emptyIfNil_sorted; first [exact sort_strings_perm|apply merge_sort_Permutation].
Qed.

Lemma grant_normal_valid g : Authority.Validate g = None -> Authority.Validate (grant_normal g) = None.
Proof.
  pose proof (grant_normal_sets g) as P. unfold Authority.Validate.
  rewrite !first_error_None, !fail_if_None.
  intros (H1 & H2 & H3 & H4 & H5 & H6 & H7 & H8 & H9 & H10).
  apply ok_None in H8 as (s & H8).
  split_and!; try assumption.
  - repeat (apply orb_false_iff in H1 as [H1 ?]). cbn -[Z.leb].
    repeat (apply orb_false_iff; split); try assumption; reflexivity.
  - destruct P as [P1 P2 _ _ _ _ _ P8].
    by rewrite <- (Permutation_length P1), <- (Permutation_length P2), <- (Permutation_length P8).
  - destruct P as [P1 P2 P3 P4 P5 P6 P7 P8].
    by rewrite <- (over_cap_perm _ _ P1), <- (over_cap_perm _ _ P2), <- (over_cap_perm _ _ P3),
      <- (over_cap_perm _ _ P4), <- (over_cap_perm _ _ P5), <- (over_cap_perm _ _ P6),
      <- (over_cap_perm _ _ P7), <- (over_cap_perm _ _ P8).
  - apply ok_None. exists s. by eapply grant_members_perm.
Qed.

Lemma intent_normal_sets c : sets_ok c -> sets_ok (intent_normal c).
Proof.
  assert (P1 := elems_sorted (merge_sort op_le) c.(IntentContractV2.Operations)
    (merge_sort_Permutation op_le)).
  assert (P2 := elems_sorted (merge_sort res_le) c.(IntentContractV2.AllowedResources)
    (merge_sort_Permutation res_le)).
  assert (P3 := elems_sorted (merge_sort res_le) c.(IntentContractV2.DeniedResources)
    (merge_sort_Permutation res_le)).
  assert (P4 := elems_sorted sort_strings c.(IntentContractV2.DataScope) sort_strings_perm).
  assert (P5 := elems_sorted sort_strings c.(IntentContractV2.OutputDestinations) sort_strings_perm).
  assert (P6 := elems_sorted sort_strings c.(IntentContractV2.EffectClasses) sort_strings_perm).
  intros [S1 (A1 & A2 & A3 & A4 & A5 & A6) S3 S4 S5 S6 S7 S8 S9 S10]. unfold small in *.
  split; cbn [intent_normal IntentContractV2.Operations IntentContractV2.AllowedResources
    IntentContractV2.DeniedResources IntentContractV2.DataScope
    IntentContractV2.OutputDestinations IntentContractV2.EffectClasses] in *.
  - intros E. apply S1. apply Permutation_nil. by rewrite <- P1, E.
  - unfold small. by rewrite P1, P2, P3, P4, P5, P6.
  - by rewrite P1.
  - by rewrite P1.
  - by rewrite P2, P3.
  - by rewrite P2, P3.
  - by rewrite P4, P5.
  - by rewrite P4, P5.
  - by rewrite P6.
  - by rewrite P6.
Qed.

Lemma intent_normal_valid c : Intents.Validate c = None -> Intents.Validate (intent_normal c) = None.
Proof.
  unfold Intents.Validate. rewrite !first_error_None, !fail_if_None, !sets_None.
  intros (H1 & H2 & H3 & H4 & H5 & H6 & H7 & H8 & H9).
  split_and!; try assumption; [done|by apply intent_normal_sets].
Qed.

Lemma valid_grant_times g : Authority.Validate g = None ->
  g.(AuthorityGrantV2.ValidFrom) <> 0 /\ g.(AuthorityGrantV2.ExpiresAt) <> 0.
Proof.
  unfold Authority.Validate. rewrite !first_error_None, !fail_if_None.
  intros (_ & _ & _ & H4 & _). unfold time_is_zero in H4. bools. done.
Qed.

Lemma valid_intent_times c : Intents.Validate c = None ->
  c.(IntentContractV2.ValidFrom) <> 0 /\ c.(IntentContractV2.ExpiresAt) <> 0.
Proof.
  unfold Intents.Validate. rewrite !first_error_None, !fail_if_None.
  intros (_ & _ & _ & H4 & _). unfold time_is_zero in H4. bools. done.
Qed.

Lemma reads_time_back time_Parse t : t <> 0 -> parses_back time_Parse t -> reads_time time_Parse t.
Proof.
  intros Ht Hp. unfold reads_time, timeTerm, time_is_zero. by rewrite bool_decide_eq_false_2.
Qed.

(** ** The readers *)

Lemma parts_ok : type_ok (TSlice operation_type) /\ type_ok (TSlice resource_type)
  /\ type_ok budget_type /\ type_ok approval_type.
Proof. split_and!; cbn [type_ok]; types_ok. Qed.

Lemma grant_type_ok : type_ok grant_type.
Proof. destruct parts_ok as (H1 & H2 & H3 & H4). types_ok; assumption. Qed.

Lemma intent_type_ok : type_ok intent_type.
Proof. destruct parts_ok as (H1 & H2 & H3 & H4). types_ok; assumption. Qed.

Lemma too_long_false raw : too_long raw = false <-> Z.of_nat (String.length raw) <= maxIntentBytes.
Proof. apply Z.ltb_ge. Qed.

Lemma grant_normal_text g : grant_v2_text g -> grant_v2_text (grant_normal g).
Proof.
  destruct (grant_normal_sets g) as [P1 P2 P3 P4 P5 P6 P7 P8].
  intros [T1 T2 T3 T4 T5 T6 T7 T8 T9]. split; try assumption.
  - by rewrite <- P1.
  - by rewrite <- P1.
  - by rewrite <- P3.
  - by rewrite <- P4.
  - repeat (apply Forall_cons in T6 as [? T6]).
    repeat (apply Forall_cons; split); [by rewrite <- P2|by rewrite <- P5|by rewrite <- P6
      |by rewrite <- P7|by rewrite <- P8|constructor].
Qed.

(** Canonical bytes do not depend on the order of what they are taken from. *)
Lemma grant_normal_bytes g : grant_v2_text g ->
  GrantCanonicalBytes (grant_normal g) = GrantCanonicalBytes g.
Proof.
  intros Ht. destruct (grant_normal_sets g) as [P1 P2 P3 P4 P5 P6 P7 P8].
  unfold GrantCanonicalBytes. f_equal. apply grant_value_inj; [by apply grant_normal_text|done|].
  split; done.
Qed.

Lemma intent_normal_bytes c : CanonicalBytes (intent_normal c) = CanonicalBytes c.
Proof.
  assert (forall l, sort_strings (sort_strings l) = sort_strings l) as Hs.
  { intros l. apply sort_strings_proper, sort_strings_perm. }
  assert (forall l, merge_sort op_le (merge_sort op_le l) = merge_sort op_le l) as Ho.
  { intros l. apply (merge_sort_unique op_le); [|apply merge_sort_Permutation].
    intros x y _ _. apply (anti_symm op_le). }
  assert (forall l, merge_sort res_le (merge_sort res_le l) = merge_sort res_le l) as Hr.
  { intros l. apply (merge_sort_unique res_le); [|apply merge_sort_Permutation].
    intros x y _ _. apply (anti_symm res_le). }
  unfold CanonicalBytes, intent_value. f_equal. unfold intent_normal.
  cbn [IntentContractV2.Operations IntentContractV2.AllowedResources
    IntentContractV2.DeniedResources IntentContractV2.DataScope
    IntentContractV2.OutputDestinations IntentContractV2.EffectClasses].
  destruct (IntentContractV2.Operations c), (IntentContractV2.AllowedResources c),
    (IntentContractV2.DeniedResources c), (IntentContractV2.DataScope c),
    (IntentContractV2.OutputDestinations c), (IntentContractV2.EffectClasses c);
    cbn [fmap option_fmap option_map]; by rewrite ?Ho, ?Hr, ?Hs.
Qed.

(** A grant is read back from its canonical bytes: of a valid grant
    whose bytes fit the 64 KiB the reader takes, [ParseAuthorityGrantV2] gives
    the same terms, every set present and in canonical order, and the result
    is valid and carries the digest of the original.  A valid grant whose
    bytes are longer is refused by the reader. *)
Theorem grant_is_read_back (time_Parse : string -> option time) (g : AuthorityGrantV2.t) :
  Authority.Validate g = None -> grant_v2_text g -> grant_range g ->
  parses_back time_Parse g.(AuthorityGrantV2.ValidFrom) ->
  parses_back time_Parse g.(AuthorityGrantV2.ExpiresAt) ->
  ParseAuthorityGrantV2 time_Parse (GrantCanonicalBytes g)
    = (if too_long (GrantCanonicalBytes g) then Err (malformed "grant exceeds 65536 bytes")
       else Ok (grant_normal g))
  /\ Authority.Validate (grant_normal g) = None
  /\ AuthorityGrantV2_Digest (grant_normal g) = AuthorityGrantV2_Digest g
  /\ same_grant_v2 g (grant_normal g).
Proof.
  intros Hv Ht Hr Hf Hu. pose proof (grant_normal_valid g Hv) as Hn.
  pose proof (valid_grant_times g Hv) as [Zf Zu].
  split_and!; [|done|unfold AuthorityGrantV2_Digest; by rewrite grant_normal_bytes|].
  - unfold ParseAuthorityGrantV2. destruct (too_long _); [done|].
    unfold GrantCanonicalBytes. rewrite grant_value_go.
    destruct (strict_round_trip grant_type _ grant_type_ok ltac:(by vm_compute) (grant_typed g Ht Hr))
      as [E1 E2].
    rewrite E1. cbn [mbind option_bind]. rewrite E2, grant_of_go; [by rewrite Hn| | |done].
    + by apply reads_time_back.
    + by apply reads_time_back.
  - apply grant_value_inj; [done|by apply grant_normal_text|].
    symmetry. apply print_inj; [by apply grant_value_wf, grant_normal_text|by apply grant_value_wf|].
    by apply grant_normal_bytes.
Qed.

(** An intent is read back from its canonical bytes: of a valid
    contract whose bytes fit the reader, [ParseIntentContractV2] gives the same
    terms with each present set in canonical order, absent sets still absent,
    and the result is valid with the same bytes.  What does not fit is
    refused. *)
Theorem intent_is_read_back (time_Parse : string -> option time) (c : IntentContractV2.t) :
  Intents.Validate c = None -> intent_text c -> intent_range c ->
  parses_back time_Parse c.(IntentContractV2.ValidFrom) ->
  parses_back time_Parse c.(IntentContractV2.ExpiresAt) ->
  ParseIntentContractV2 time_Parse (CanonicalBytes c)
    = (if too_long (CanonicalBytes c) then None else Some (intent_normal c))
  /\ Intents.Validate (intent_normal c) = None
  /\ CanonicalBytes (intent_normal c) = CanonicalBytes c.
Proof.
  intros Hv Ht Hr Hf Hu. pose proof (intent_normal_valid c Hv) as Hn.
  pose proof (valid_intent_times c Hv) as [Zf Zu].
  split_and!; [|done|by apply intent_normal_bytes].
  unfold ParseIntentContractV2. destruct (too_long _); [done|].
  unfold CanonicalBytes. rewrite intent_value_go.
  destruct (strict_round_trip intent_type _ intent_type_ok ltac:(by vm_compute) (intent_typed c Ht Hr))
    as [E1 E2].
  rewrite E1. cbn [mbind option_bind]. rewrite E2. cbn [mbind option_bind].
  rewrite intent_of_go; [cbn [mbind option_bind]; by rewrite Hn| |].
  - by apply reads_time_back.
  - by apply reads_time_back.
Qed.

(** ** Concrete contracts *)

Definition contract_clock : string -> option time := recall_times [unix_epoch; end_of_time].

Lemma contract_clock_back t : t ∈ [unix_epoch; end_of_time] -> parses_back contract_clock t.
Proof.
  apply recall_times_back. repeat (apply Forall_cons; split); [by vm_compute..|by apply Forall_nil].
Qed.

Lemma grant_is_read_back_witness :
  ParseAuthorityGrantV2 contract_clock (GrantCanonicalBytes example_spelled)
    = Ok (grant_normal example_spelled).
Proof.
  assert (grant_range example_spelled) as Hr.
  { split.
    - repeat (apply Forall_cons; split); try apply Forall_nil; by vm_compute.
    - repeat (apply Forall_cons; split); try apply Forall_nil; by vm_compute.
    - split; [intros n [= <-]; by vm_compute|intros k z Hk; change ((∅ : gmap string Z) !! k = Some z) in Hk; by apply lookup_empty_Some in Hk]. }
  rewrite (proj1 (grant_is_read_back contract_clock example_spelled ltac:(vm_compute; reflexivity)
    (example_grant_text2
    {| IntentBudgetV2.Total := Some 5; IntentBudgetV2.PerOperation := Some ∅ |} (or_intror eq_refl)) Hr
    (contract_clock_back _ ltac:(left)) (contract_clock_back _ ltac:(right; left)))).
  vm_compute. reflexivity.
Defined.

Lemma intent_is_read_back_witness :
  ParseIntentContractV2 contract_clock (CanonicalBytes (example_intent [example_op "calc"]))
    = Some (intent_normal (example_intent [example_op "calc"])).
Proof.
  assert (intent_range (example_intent [example_op "calc"])) as Hr.
  { split.
    - repeat (apply Forall_cons; split); try apply Forall_nil; by vm_compute.
    - repeat (apply Forall_cons; split); try apply Forall_nil; by vm_compute.
    - split; [intros n [= <-]; by vm_compute|intros k z Hk; change ((∅ : gmap string Z) !! k = Some z) in Hk; by apply lookup_empty_Some in Hk]. }
  assert (intent_text (example_intent [example_op "calc"])) as Ht.
  { apply example_intent_text. apply Forall_cons; split; [by apply example_op_text|by apply Forall_nil]. }
  rewrite (proj1 (intent_is_read_back contract_clock (example_intent [example_op "calc"])
    ltac:(vm_compute; reflexivity) Ht Hr
    (contract_clock_back _ ltac:(left)) (contract_clock_back _ ltac:(right; left)))).
  vm_compute. reflexivity.
Defined.
