(* ===== verification/Identity.v ===== *)
(** * Identity: authenticated ingress, evidence and its seals

    [internal/identity/identity.go]: the configured registry, the resolver with
    its live adapter issuers, ingress capabilities and the evidence one action
    is born with.  [internal/identity/signing.go]: canonical bytes of evidence
    and of principal events, their seals, and the birth snapshot's digest.
    Random bytes, the clock, Ed25519 and the text reader of [time.Time] are
    arguments.  The mutex serialises the resolver's calls, so its state is
    threaded through them; [CanonicalEvidence] panics on an instant outside the
    years 0 to 9999, where this model prints one. *)

From S2P Require Import Prelude Kernel Grants Json Text Encoding Digests Wire Struct Receipts Intents.
From Stdlib Require Import Ascii String.
Local Open Scope Z_scope.
Local Open Scope korvun_scope.
#[local] Arguments String.append !_ _ : simpl nomatch.

Definition ErrIdentityEvidenceMissing : error := ErrorNew "identity: authenticated ingress missing".
Definition ErrIdentityEvidenceExpired : error := ErrorNew "identity: authenticated ingress expired".
Definition ErrIdentityBindingMismatch : error := ErrorNew "identity: ingress binding mismatch".
Definition ErrIdentityEvidenceCorrupt : error := ErrorNew "identity: evidence corrupt".
Definition ErrIdentityEvidenceUnreadable : error := ErrorNew "identity: evidence unreadable".
Definition ErrPrincipalDisabled : error := ErrorNew "identity: principal disabled".
Definition ErrPrincipalEvidenceCorrupt : error := ErrorNew "identity: principal evidence corrupt".
Definition ErrSignedObjectMutated : error := ErrorNew "identity: signer mutated protected fields".
Definition ErrIdentityKeyRetired : error := ErrorNew "identity: signing key retired".

(** ** The registry *)

Definition PrincipalKind := string.
Definition PrincipalHuman : PrincipalKind := "human".
Definition PrincipalAgent : PrincipalKind := "agent".
Definition PrincipalWorkload : PrincipalKind := "workload".
Definition PrincipalExternalSystem : PrincipalKind := "external_system".

Definition validPrincipalKind (kind : PrincipalKind) : bool :=
  bool_decide (kind ∈ [PrincipalHuman; PrincipalAgent; PrincipalWorkload; PrincipalExternalSystem]).

Module Registered.

Record t := {
  ID : string;
  Kind : PrincipalKind;
  DisplayName : string;
  CreatedAt : time;
  DisabledAt : time;
  Revision : Z
}.

#[global] Instance t_eq_dec : EqDecision t.
Proof. solve_decision. Defined.

End Registered.

Definition AuthBindingActive : string := "active".
Definition AuthBindingRevoked : string := "revoked".

Module Binding.

Record t := {
  ID : string;
  Provider : string;
  Channel : string;
  CredentialRef : string;
  SubjectNamespace : string;
  VerifiedSubject : string;
  PrincipalID : string;
  Generation : Z;
  Status : string
}.

#[global] Instance t_eq_dec : EqDecision t.
Proof. solve_decision. Defined.

End Binding.

Module Workload.

Record t := { Brain : string; PrincipalID : string; ResponsiblePrincipalID : string }.

End Workload.

Record Registry := {
  Principals : list Registered.t;
  Bindings : list Binding.t;
  Workloads : list Workload.t
}.

(** ** The resolver *)

(** A seal is known by its address: the resolver's, and the number of the
    allocation. *)
Record ingressSeal := {
  sl_resolver : nat;
  sl_number : nat;
  sl_binding : string;
  sl_instance : string
}.

Definition same_seal (a b : ingressSeal) : bool :=
  bool_decide (a.(sl_resolver) = b.(sl_resolver) /\ a.(sl_number) = b.(sl_number)).

Record Resolver := {
  rs_self : nat;
  rs_principals : gmap string Registered.t;
  rs_bindings : gmap string Binding.t;
  rs_workloads : gmap string Workload.t;
  rs_issuers : gmap string ingressSeal;
  rs_allocated : nat
}.

Record IssuerConfig := {
  ic_BindingID : string;
  ic_Method : string;
  ic_CredentialClass : string;
  ic_TTL : duration
}.

Record AuthenticatedIngress := {
  in_seal : option ingressSeal;
  in_requestID : string;
  in_subjectClaim : string;
  in_observedAt : time;
  in_expiresAt : time;
  in_method : string;
  in_credential : string
}.

Record Issuer := {
  is_seal : option ingressSeal;
  is_binding : Binding.t;
  is_method : string;
  is_credential : string;
  is_ttl : duration;
  is_issued : Z
}.

Record ResolveRequest := {
  rq_ActionID : string;
  rq_RequestID : string;
  rq_Channel : string;
  rq_Brain : string
}.

Module Evidence.

Record t := {
  EvidenceID : string;
  ActionID : string;
  RequestID : string;
  RequesterPrincipalID : string;
  ActorPrincipalID : string;
  ResponsiblePrincipalID : string;
  BindingID : string;
  BindingGeneration : Z;
  AdapterInstanceID : string;
  Provider : string;
  Method : string;
  CredentialClass : string;
  Issuer : string;
  SubjectNamespace : string;
  VerifiedSubject : string;
  SubjectClaim : string;
  ObservedAt : time;
  ExpiresAt : time;
  ClaimsDigest : string
}.

#[global] Instance t_eq_dec : EqDecision t.
Proof. solve_decision. Defined.

End Evidence.

Definition invalid (what id : string) : error := ErrorNew ("identity: invalid " +:+ what +:+ " " +:+ id).
Definition repeated (what id : string) : error := ErrorNew ("identity: duplicate " +:+ what +:+ " " +:+ id).

Definition add_principal (p : Registered.t) (m : gmap string Registered.t)
    : result (gmap string Registered.t) :=
  if bool_decide (p.(Registered.ID) = "") || negb (validPrincipalKind p.(Registered.Kind))
  then Err (invalid "principal" p.(Registered.ID))
  else if bool_decide (is_Some (m !! p.(Registered.ID)))
  then Err (repeated "principal" p.(Registered.ID))
  else Ok (<[p.(Registered.ID) := p]> m).

Definition bad_binding (b : Binding.t) : bool :=
  bool_decide (b.(Binding.ID) = "") || bool_decide (b.(Binding.Provider) = "")
  || bool_decide (b.(Binding.Channel) = "") || bool_decide (b.(Binding.CredentialRef) = "")
  || bool_decide (b.(Binding.SubjectNamespace) = "") || bool_decide (b.(Binding.VerifiedSubject) = "")
  || (b.(Binding.Generation) <=? 0)
  || (bool_decide (b.(Binding.Status) <> AuthBindingActive)
      && bool_decide (b.(Binding.Status) <> AuthBindingRevoked)).

Definition add_binding (ps : gmap string Registered.t) (b : Binding.t) (m : gmap string Binding.t)
    : result (gmap string Binding.t) :=
  if bad_binding b then Err (invalid "binding" b.(Binding.ID))
  else if negb (bool_decide (is_Some (ps !! b.(Binding.PrincipalID))))
  then Err (ErrorNew ("identity: binding references unknown principal " +:+ b.(Binding.ID)))
  else if bool_decide (is_Some (m !! b.(Binding.ID))) then Err (repeated "binding" b.(Binding.ID))
  else Ok (<[b.(Binding.ID) := b]> m).

Definition add_workload (ps : gmap string Registered.t) (w : Workload.t) (m : gmap string Workload.t)
    : result (gmap string Workload.t) :=
  let actor_ok := match ps !! w.(Workload.PrincipalID) with
                  | Some actor => bool_decide (actor.(Registered.Kind) = PrincipalWorkload)
                  | None => false
                  end in
  if bool_decide (w.(Workload.Brain) = "") || negb actor_ok
  then Err (invalid "workload" w.(Workload.Brain))
  else if bool_decide (w.(Workload.ResponsiblePrincipalID) <> "")
          && negb (bool_decide (is_Some (ps !! w.(Workload.ResponsiblePrincipalID))))
  then Err (ErrorNew ("identity: workload references unknown responsible principal " +:+ w.(Workload.Brain)))
  else if bool_decide (is_Some (m !! w.(Workload.Brain))) then Err (repeated "workload" w.(Workload.Brain))
  else Ok (<[w.(Workload.Brain) := w]> m).

(** [self] is the address of the new resolver. *)
Definition NewResolver (self : nat) (reg : Registry) : result Resolver :=
  let? ps := each add_principal reg.(Principals) ∅ in
  let? bs := each (add_binding ps) reg.(Bindings) ∅ in
  let? ws := each (add_workload ps) reg.(Workloads) ∅ in
  Ok {| rs_self := self; rs_principals := ps; rs_bindings := bs; rs_workloads := ws;
        rs_issuers := ∅; rs_allocated := 0 |}.

Definition newID (prefix rand16 : string) : string := prefix +:+ hex_encode rand16.

Definition NewIssuer (r : Resolver) (cfg : IssuerConfig) (rand16 : string)
    : result (Issuer * Resolver) :=
  match r.(rs_bindings) !! cfg.(ic_BindingID) with
  | None => Err (ErrorWrap "issuer configuration" ErrIdentityBindingMismatch)
  | Some b =>
      if bool_decide (cfg.(ic_Method) = "") || bool_decide (cfg.(ic_CredentialClass) = "")
         || (cfg.(ic_TTL) <? 0)
      then Err (ErrorWrap "issuer configuration" ErrIdentityBindingMismatch)
      else
        let seal := {| sl_resolver := r.(rs_self); sl_number := r.(rs_allocated);
                       sl_binding := b.(Binding.ID); sl_instance := newID "adapter_" rand16 |} in
        Ok ({| is_seal := Some seal; is_binding := b; is_method := cfg.(ic_Method);
               is_credential := cfg.(ic_CredentialClass); is_ttl := cfg.(ic_TTL); is_issued := 0 |},
            {| rs_self := r.(rs_self); rs_principals := r.(rs_principals);
               rs_bindings := r.(rs_bindings); rs_workloads := r.(rs_workloads);
               rs_issuers := <[b.(Binding.ID) := seal]> r.(rs_issuers);
               rs_allocated := S r.(rs_allocated) |})
  end.

(** [None] is the nil issuer. *)
Definition Issue (i : option Issuer) (now : time) (requestID subjectClaim : string)
    : result (AuthenticatedIngress * Issuer) :=
  match i with
  | None => Err ErrIdentityEvidenceMissing
  | Some i =>
      if bool_decide (i.(is_seal) = None :> option ingressSeal) || bool_decide (requestID = "")
         || bool_decide (subjectClaim = "")
      then Err ErrIdentityEvidenceMissing
      else Ok ({| in_seal := i.(is_seal); in_requestID := requestID; in_subjectClaim := subjectClaim;
                  in_observedAt := now;
                  in_expiresAt := if 0 <? i.(is_ttl) then now + i.(is_ttl) else 0;
                  in_method := i.(is_method); in_credential := i.(is_credential) |},
               {| is_seal := i.(is_seal); is_binding := i.(is_binding); is_method := i.(is_method);
                  is_credential := i.(is_credential); is_ttl := i.(is_ttl);
                  is_issued := (i.(is_issued) + 1) mod 2 ^ 64 |})
  end.

Definition IssuedCount (i : option Issuer) : Z :=
  match i with None => 0 | Some i => i.(is_issued) end.

(** [hash]. *)
Definition identity_hash (raw : string) : string := pinned (sha256 raw).

Definition claims_schema : schema :=
  [("binding_id", KString); ("generation", KInt); ("provider", KString); ("method", KString);
   ("subject_namespace", KString); ("verified_subject", KString); ("subject_claim", KString)].

Definition claims_json (b : Binding.t) (method claim : string) : string :=
  marshal claims_schema
    [SString b.(Binding.ID); SInt b.(Binding.Generation); SString b.(Binding.Provider);
     SString method; SString b.(Binding.SubjectNamespace); SString b.(Binding.VerifiedSubject);
     SString claim].

(** Disabled at or before an instant. *)
Definition disabled_by (p : Registered.t) (now : time) : bool :=
  negb (time_is_zero p.(Registered.DisabledAt)) && negb (time_after p.(Registered.DisabledAt) now).

Definition principal_check (ps : gmap string Registered.t) (now : time) (id : string) : option error :=
  if bool_decide (id = "") then None
  else match ps !! id with
       | None => Some ErrIdentityBindingMismatch
       | Some p => fail_if (disabled_by p now) ErrPrincipalDisabled
       end.

Definition Resolve (r : Resolver) (ing : AuthenticatedIngress) (req : ResolveRequest) (now : time)
    (rand16 : string) : result Evidence.t :=
  match ing.(in_seal) with
  | None => Err ErrIdentityEvidenceMissing
  | Some seal =>
      if bool_decide (seal.(sl_resolver) <> r.(rs_self))
         || negb (match r.(rs_issuers) !! seal.(sl_binding) with
                  | Some live => same_seal live seal
                  | None => false
                  end)
         || bool_decide (ing.(in_requestID) <> req.(rq_RequestID))
         || bool_decide (req.(rq_ActionID) = "") || bool_decide (req.(rq_RequestID) = "")
      then Err ErrIdentityBindingMismatch
      else match r.(rs_bindings) !! seal.(sl_binding) with
      | None => Err ErrIdentityBindingMismatch
      | Some binding =>
          if bool_decide (binding.(Binding.Channel) <> req.(rq_Channel))
             || bool_decide (binding.(Binding.Status) <> AuthBindingActive)
          then Err ErrIdentityBindingMismatch
          else if negb (time_is_zero ing.(in_expiresAt)) && negb (time_before now ing.(in_expiresAt))
          then Err ErrIdentityEvidenceExpired
          else match r.(rs_workloads) !! req.(rq_Brain) with
          | None => Err ErrIdentityBindingMismatch
          | Some workload =>
              match check_all (principal_check r.(rs_principals) now)
                      [binding.(Binding.PrincipalID); workload.(Workload.PrincipalID);
                       workload.(Workload.ResponsiblePrincipalID)] with
              | Some e => Err e
              | None =>
                  Ok {| Evidence.EvidenceID := newID "evd_" rand16;
                        Evidence.ActionID := req.(rq_ActionID);
                        Evidence.RequestID := req.(rq_RequestID);
                        Evidence.RequesterPrincipalID := binding.(Binding.PrincipalID);
                        Evidence.ActorPrincipalID := workload.(Workload.PrincipalID);
                        Evidence.ResponsiblePrincipalID := workload.(Workload.ResponsiblePrincipalID);
                        Evidence.BindingID := binding.(Binding.ID);
                        Evidence.BindingGeneration := binding.(Binding.Generation);
                        Evidence.AdapterInstanceID := seal.(sl_instance);
                        Evidence.Provider := binding.(Binding.Provider);
                        Evidence.Method := ing.(in_method);
                        Evidence.CredentialClass := ing.(in_credential);
                        Evidence.Issuer := binding.(Binding.Channel);
                        Evidence.SubjectNamespace := binding.(Binding.SubjectNamespace);
                        Evidence.VerifiedSubject := binding.(Binding.VerifiedSubject);
                        Evidence.SubjectClaim := ing.(in_subjectClaim);
                        Evidence.ObservedAt := ing.(in_observedAt);
                        Evidence.ExpiresAt := ing.(in_expiresAt);
                        Evidence.ClaimsDigest :=
                          identity_hash (claims_json binding ing.(in_method) ing.(in_subjectClaim)) |}
              end
          end
      end
  end.

(** ** Canonical bytes *)

Definition evidenceDomain : string := "korvun.identity-evidence.v2".
Definition principalEventDomain : string := "korvun.principal-event.v1".
Definition snapshotDomain : string := "korvun.identity-birth-snapshot.v1".

Module PrincipalEvent.

Record t := {
  EventID : string;
  Principal : Registered.t;
  Revision : Z;
  Kind : string;
  OccurredAt : time
}.

#[global] Instance t_eq_dec : EqDecision t.
Proof. solve_decision. Defined.

End PrincipalEvent.

Record SignedEvidence := {
  sv_Evidence : Evidence.t;
  sv_Canonical : string;
  sv_Digest : string;
  sv_SigningKeyID : string;
  sv_Signature : string
}.

Record SignedPrincipalEvent := {
  sp_Event : PrincipalEvent.t;
  sp_Canonical : string;
  sp_Digest : string;
  sp_SigningKeyID : string;
  sp_Signature : string
}.

Record BirthSnapshot := {
  bs_Version : Z;
  bs_Digest : string;
  bs_Canonical : string;
  bs_SigningKeyID : string;
  bs_Signature : string
}.

Section Wire.
Context (time_Unmarshal : string -> option time).

Definition evidence_type : gotype := TStruct
  [("evidence_id", TString); ("action_id", TString); ("request_id", TString);
   ("requester_principal_id", TString); ("actor_principal_id", TString);
   ("responsible_principal_id", TOmitString); ("binding_id", TString);
   ("binding_generation", TInt); ("adapter_instance_id", TString); ("provider", TString);
   ("method", TString); ("credential_class", TString); ("issuer", TString);
   ("subject_namespace", TString); ("verified_subject", TString); ("subject_claim", TString);
   ("observed_at", TTime time_Unmarshal); ("expires_at", TTime time_Unmarshal);
   ("claims_digest", TString)].

Definition principal_type : gotype := TStruct
  [("ID", TString); ("Kind", TString); ("DisplayName", TString); ("CreatedAt", TTime time_Unmarshal);
   ("DisabledAt", TTime time_Unmarshal); ("Revision", TInt)].

Definition event_type : gotype := TStruct
  [("event_id", TString); ("principal", principal_type); ("revision", TInt); ("kind", TString);
   ("occurred_at", TTime time_Unmarshal)].

Definition evidence_go (e : Evidence.t) : goval :=
  GStruct
    [GString e.(Evidence.EvidenceID); GString e.(Evidence.ActionID); GString e.(Evidence.RequestID);
     GString e.(Evidence.RequesterPrincipalID); GString e.(Evidence.ActorPrincipalID);
     GString e.(Evidence.ResponsiblePrincipalID); GString e.(Evidence.BindingID);
     GInt e.(Evidence.BindingGeneration); GString e.(Evidence.AdapterInstanceID);
     GString e.(Evidence.Provider); GString e.(Evidence.Method);
     GString e.(Evidence.CredentialClass); GString e.(Evidence.Issuer);
     GString e.(Evidence.SubjectNamespace); GString e.(Evidence.VerifiedSubject);
     GString e.(Evidence.SubjectClaim); GTime e.(Evidence.ObservedAt);
     GTime e.(Evidence.ExpiresAt); GString e.(Evidence.ClaimsDigest)].

Definition evidence_of (g : goval) : option Evidence.t :=
  match g with
  | GStruct [GString a; GString b; GString c; GString d; GString e; GString f; GString g; GInt h;
             GString i; GString j; GString k; GString l; GString m; GString n; GString o; GString p;
             GTime q; GTime r; GString s] =>
      Some {| Evidence.EvidenceID := a; Evidence.ActionID := b; Evidence.RequestID := c;
              Evidence.RequesterPrincipalID := d; Evidence.ActorPrincipalID := e;
              Evidence.ResponsiblePrincipalID := f; Evidence.BindingID := g;
              Evidence.BindingGeneration := h; Evidence.AdapterInstanceID := i;
              Evidence.Provider := j; Evidence.Method := k; Evidence.CredentialClass := l;
              Evidence.Issuer := m; Evidence.SubjectNamespace := n; Evidence.VerifiedSubject := o;
              Evidence.SubjectClaim := p; Evidence.ObservedAt := q; Evidence.ExpiresAt := r;
              Evidence.ClaimsDigest := s |}
  | _ => None
  end.

Definition principal_go (p : Registered.t) : goval :=
  GStruct [GString p.(Registered.ID); GString p.(Registered.Kind); GString p.(Registered.DisplayName);
           GTime p.(Registered.CreatedAt); GTime p.(Registered.DisabledAt);
           GInt p.(Registered.Revision)].

Definition event_go (e : PrincipalEvent.t) : goval :=
  GStruct [GString e.(PrincipalEvent.EventID); principal_go e.(PrincipalEvent.Principal);
           GInt e.(PrincipalEvent.Revision); GString e.(PrincipalEvent.Kind);
           GTime e.(PrincipalEvent.OccurredAt)].

Definition event_of (g : goval) : option PrincipalEvent.t :=
  match g with
  | GStruct [GString id; GStruct [GString a; GString b; GString c; GTime d; GTime e; GInt f]; GInt rev;
             GString kind; GTime at_] =>
      Some {| PrincipalEvent.EventID := id;
              PrincipalEvent.Principal :=
                {| Registered.ID := a; Registered.Kind := b; Registered.DisplayName := c;
                   Registered.CreatedAt := d; Registered.DisabledAt := e; Registered.Revision := f |};
              PrincipalEvent.Revision := rev; PrincipalEvent.Kind := kind;
              PrincipalEvent.OccurredAt := at_ |}
  | _ => None
  end.

(** [strictJSON]: one value and nothing after it, no unknown member. *)
Definition strictJSON (t : gotype) (raw : string) : option goval :=
  match parse raw with Some v => decode_go t v (zero_go t) | None => None end.

Definition CanonicalEvidence (e : Evidence.t) : string :=
  print (marshal_go evidence_type (evidence_go e)).

Definition ParseCanonicalEvidence (raw : string) : option Evidence.t :=
  match strictJSON evidence_type raw with Some g => evidence_of g | None => None end.

Definition CanonicalPrincipalEvent (e : PrincipalEvent.t) : string :=
  print (marshal_go event_type (event_go e)).

Definition ParseCanonicalPrincipalEvent (raw : string) : option PrincipalEvent.t :=
  match strictJSON event_type raw with Some g => event_of g | None => None end.

(** ** Seals *)

Section Seals.
Context (PrivateKey : Type) (Public : PrivateKey -> string)
  (Sign : PrivateKey -> string -> string) (Verify : string -> string -> string -> bool).

Definition signingKeyID (pub : string) : string :=
  "ed25519:" +:+ str_take 16 (hex_encode (sha256 pub)).

Definition signDomain (priv : PrivateKey) (domain canonical : string) : string :=
  hex_encode (Sign priv (domain_message domain canonical)).

Definition verifyDomain (pub domain canonical signatureHex : string) : bool :=
  match hex_decode signatureHex with
  | Some signature => Verify pub (domain_message domain canonical) signature
  | None => false
  end.

Definition SignEvidence (priv : PrivateKey) (e : Evidence.t) : SignedEvidence :=
  let canonical := CanonicalEvidence e in
  {| sv_Evidence := e; sv_Canonical := canonical; sv_Digest := identity_hash canonical;
     sv_SigningKeyID := signingKeyID (Public priv);
     sv_Signature := signDomain priv evidenceDomain canonical |}.

Definition VerifyEvidence (pub : string) (signed : SignedEvidence) : option error :=
  fail_if (bool_decide (ParseCanonicalEvidence signed.(sv_Canonical) <> Some signed.(sv_Evidence))
           || bool_decide (signed.(sv_Digest) <> identity_hash signed.(sv_Canonical))
           || bool_decide (signed.(sv_SigningKeyID) <> signingKeyID pub)
           || negb (verifyDomain pub evidenceDomain signed.(sv_Canonical) signed.(sv_Signature)))
    ErrIdentityEvidenceCorrupt.

Definition SignPrincipalEvent (priv : PrivateKey) (e : PrincipalEvent.t) : SignedPrincipalEvent :=
  let canonical := CanonicalPrincipalEvent e in
  {| sp_Event := e; sp_Canonical := canonical; sp_Digest := identity_hash canonical;
     sp_SigningKeyID := signingKeyID (Public priv);
     sp_Signature := signDomain priv principalEventDomain canonical |}.

Definition VerifyPrincipalEvent (pub : string) (signed : SignedPrincipalEvent) : option error :=
  fail_if (bool_decide (ParseCanonicalPrincipalEvent signed.(sp_Canonical) <> Some signed.(sp_Event))
           || bool_decide (signed.(sp_Digest) <> identity_hash signed.(sp_Canonical))
           || bool_decide (signed.(sp_SigningKeyID) <> signingKeyID pub)
           || negb (verifyDomain pub principalEventDomain signed.(sp_Canonical)
                      signed.(sp_Signature)))
    ErrIdentityEvidenceCorrupt.

End Seals.

End Wire.

(** ** Birth snapshots *)

(** [binary.BigEndian.PutUint64] of the length, then the term. *)
Definition writeTerm (term : string) : string :=
  string_of_bytes (be_bytes 8 (Z.of_nat (String.length term))) +:+ term.

Definition snapshot_bytes (s : BirthSnapshot) : string :=
  writeTerm snapshotDomain +:+ writeTerm (Itoa s.(bs_Version)) +:+ writeTerm s.(bs_Digest)
  +:+ writeTerm s.(bs_Canonical) +:+ writeTerm s.(bs_SigningKeyID) +:+ writeTerm s.(bs_Signature).

Definition SnapshotDigest (s : BirthSnapshot) : string := identity_hash (snapshot_bytes s).

Definition SnapshotIsLegacy (s : BirthSnapshot) : bool :=
  bool_decide (s.(bs_Version) = 0) && bool_decide (s.(bs_Digest) = "")
  && bool_decide (s.(bs_Canonical) = "") && bool_decide (s.(bs_SigningKeyID) = "")
  && bool_decide (s.(bs_Signature) = "").

Definition RegisteredKeyID (pub : string) : result string :=
  let id := signingKeyID pub in
  if String.prefix "ed25519:" id then Ok id else Err ErrIdentityEvidenceCorrupt.

(** ** Lemmas: the registry behind a resolver *)

(** What the configuration says, as the resolver holds it. *)
Record registry_ok (reg : Registry) (r : Resolver) : Prop := {
  ro_principals : forall id p, r.(rs_principals) !! id = Some p ->
    p ∈ reg.(Principals) /\ p.(Registered.ID) = id /\ validPrincipalKind p.(Registered.Kind) = true;
  ro_bindings : forall id b, r.(rs_bindings) !! id = Some b ->
    b ∈ reg.(Bindings) /\ b.(Binding.ID) = id /\ bad_binding b = false
    /\ is_Some (r.(rs_principals) !! b.(Binding.PrincipalID));
  ro_workloads : forall brain w, r.(rs_workloads) !! brain = Some w ->
    w ∈ reg.(Workloads) /\ w.(Workload.Brain) = brain
    /\ (exists p, r.(rs_principals) !! w.(Workload.PrincipalID) = Some p
        /\ p.(Registered.Kind) = PrincipalWorkload)
    /\ (w.(Workload.ResponsiblePrincipalID) = ""
        \/ is_Some (r.(rs_principals) !! w.(Workload.ResponsiblePrincipalID)));
}.

Lemma NewResolver_Ok self reg r : NewResolver self reg = Ok r ->
  registry_ok reg r /\ r.(rs_self) = self /\ r.(rs_issuers) = ∅ /\ r.(rs_allocated) = 0%nat.
Proof.
  unfold NewResolver. intros H. apply let_ok in H as (ps & Hps & H).
  apply let_ok in H as (bs & Hbs & H). apply let_ok in H as (ws & Hws & H). injection H as <-.
  split; [|done]. split; cbn [rs_principals rs_bindings rs_workloads].
  - revert Hps. apply (each_ind _ (fun m => forall id p, m !! id = Some p -> p ∈ reg.(Principals)
      /\ p.(Registered.ID) = id /\ validPrincipalKind p.(Registered.Kind) = true)); [|done].
    intros x m m' Hx Hm E id p. unfold add_principal in E. destruct (_ || _) eqn:Eb; [done|].
    case_bool_decide; [done|]. injection E as <-. bools.
    intros [[<- <-]|[_ Hp]]%lookup_insert_Some; [done|by apply Hm].
  - revert Hbs. apply (each_ind _ (fun m => forall id b, m !! id = Some b -> b ∈ reg.(Bindings)
      /\ b.(Binding.ID) = id /\ bad_binding b = false /\ is_Some (ps !! b.(Binding.PrincipalID)))); [|done].
    intros x m m' Hx Hm E id b. unfold add_binding in E. destruct (bad_binding x) eqn:Eb; [done|].
    destruct (negb _) eqn:Ep; [done|]. case_bool_decide; [done|]. injection E as <-. bools.
    intros [[<- <-]|[_ Hb]]%lookup_insert_Some; [done|by apply Hm].
  - revert Hws. apply (each_ind _ (fun m => forall brain w, m !! brain = Some w -> w ∈ reg.(Workloads)
      /\ w.(Workload.Brain) = brain
      /\ (exists p, ps !! w.(Workload.PrincipalID) = Some p /\ p.(Registered.Kind) = PrincipalWorkload)
      /\ (w.(Workload.ResponsiblePrincipalID) = "" \/ is_Some (ps !! w.(Workload.ResponsiblePrincipalID)))));
      [|done].
    intros x m m' Hx Hm E brain w. unfold add_workload in E. destruct (_ || _) eqn:Eb; [done|].
    destruct (_ && _) eqn:Er; [done|]. case_bool_decide; [done|]. injection E as <-.
    intros [[<- <-]|[_ Hw]]%lookup_insert_Some; [|by apply Hm].
    apply orb_false_iff in Eb as [_ Ea%negb_false_iff]. split_and!; [done|done| |].
    + destruct (ps !! x.(Workload.PrincipalID)) as [p|]; [|done]. exists p. split; [done|]. by bools.
    + apply andb_false_iff in Er as [Er|Er]; bools; [left|by right]. by apply dec_stable.
Qed.

(** ** Histories of a resolver *)

(** A resolver and the issuers made from it, newest first. *)
Inductive made (reg : Registry) : Resolver -> list Issuer -> Prop :=
| made_new self r : NewResolver self reg = Ok r -> made reg r []
| made_issuer r issuers cfg rand16 i r' :
    made reg r issuers -> NewIssuer r cfg rand16 = Ok (i, r') -> made reg r' (i :: issuers).

Definition of_binding (b : string) (i : Issuer) : bool :=
  bool_decide (i.(is_binding).(Binding.ID) = b).

Definition live_seal (issuers : list Issuer) (b : string) : option ingressSeal :=
  match List.find (of_binding b) issuers with Some i => i.(is_seal) | None => None end.

Record issuer_ok (r : Resolver) (i : Issuer) : Prop := {
  io_seal : exists s, i.(is_seal) = Some s /\ s.(sl_resolver) = r.(rs_self)
    /\ (s.(sl_number) < r.(rs_allocated))%nat /\ s.(sl_binding) = i.(is_binding).(Binding.ID);
  io_binding : r.(rs_bindings) !! i.(is_binding).(Binding.ID) = Some i.(is_binding);
}.

Definition number (i : Issuer) : nat := match i.(is_seal) with Some s => s.(sl_number) | None => 0 end.

Lemma NewIssuer_Ok r cfg rand16 i r' : NewIssuer r cfg rand16 = Ok (i, r') ->
  exists b, r.(rs_bindings) !! cfg.(ic_BindingID) = Some b /\ i.(is_binding) = b
  /\ i.(is_seal) = Some {| sl_resolver := r.(rs_self); sl_number := r.(rs_allocated);
                           sl_binding := b.(Binding.ID); sl_instance := newID "adapter_" rand16 |}
  /\ r' = {| rs_self := r.(rs_self); rs_principals := r.(rs_principals); rs_bindings := r.(rs_bindings);
             rs_workloads := r.(rs_workloads);
             rs_issuers := <[b.(Binding.ID) := {| sl_resolver := r.(rs_self);
               sl_number := r.(rs_allocated); sl_binding := b.(Binding.ID);
               sl_instance := newID "adapter_" rand16 |}]> r.(rs_issuers);
             rs_allocated := S r.(rs_allocated) |}.
Proof.
  unfold NewIssuer. destruct (r.(rs_bindings) !! _) as [b|]; [|done]. destruct (_ || _); [done|].
  intros [= <- <-]. by exists b.
Qed.

Lemma made_inv reg r issuers : made reg r issuers ->
  registry_ok reg r /\ (forall b, r.(rs_issuers) !! b = live_seal issuers b)
  /\ Forall (issuer_ok r) issuers /\ NoDup (number <$> issuers).
Proof.
  induction 1 as [self r H|r issuers cfg rand16 i r' _ (IHr & IHl & IHo & IHn) H].
  - apply NewResolver_Ok in H as (Hr & _ & Hi & _). split_and!; [done| |constructor|constructor].
    intros b. by rewrite Hi, lookup_empty.
  - apply NewIssuer_Ok in H as (b & Hb & Hib & His & ->).
    pose proof (proj1 (proj2 (ro_bindings _ _ IHr _ _ Hb))) as Hid.
    split_and!.
    + destruct IHr as [R1 R2 R3]. by split.
    + intros b'. cbn [rs_issuers]. unfold live_seal. cbn [List.find]. unfold of_binding at 1.
      rewrite Hib. case_bool_decide as E.
      * subst b'. by rewrite lookup_insert_eq.
      * rewrite lookup_insert_ne by done. apply IHl.
    + constructor.
      * split; cbn [rs_self rs_allocated rs_bindings].
        -- rewrite His. eexists. split; [done|]. cbn [sl_resolver sl_number sl_binding].
           rewrite Hib. split_and!; [done|lia|done].
        -- rewrite Hib. by rewrite Hid in *.
      * eapply Forall_impl; [exact IHo|]. intros j [(s & A1 & A2 & A3 & A4) B]. split; [|done].
        exists s. cbn [rs_self rs_allocated]. split_and!; [done|done|lia|done].
    + rewrite fmap_cons. apply NoDup_cons. split; [|done]. intros (j & Hj & Hin)%list_elem_of_fmap.
      rewrite Forall_forall in IHo. destruct (IHo j Hin) as [(s & A1 & _ & A3 & _) _].
      unfold number in Hj. rewrite His, A1 in Hj. cbn [sl_number] in Hj. lia.
Qed.

(** Evidence with another word from the sender. *)
Definition claimed (claim digest : string) (e : Evidence.t) : Evidence.t :=
  {| Evidence.EvidenceID := e.(Evidence.EvidenceID); Evidence.ActionID := e.(Evidence.ActionID);
     Evidence.RequestID := e.(Evidence.RequestID);
     Evidence.RequesterPrincipalID := e.(Evidence.RequesterPrincipalID);
     Evidence.ActorPrincipalID := e.(Evidence.ActorPrincipalID);
     Evidence.ResponsiblePrincipalID := e.(Evidence.ResponsiblePrincipalID);
     Evidence.BindingID := e.(Evidence.BindingID);
     Evidence.BindingGeneration := e.(Evidence.BindingGeneration);
     Evidence.AdapterInstanceID := e.(Evidence.AdapterInstanceID);
     Evidence.Provider := e.(Evidence.Provider); Evidence.Method := e.(Evidence.Method);
     Evidence.CredentialClass := e.(Evidence.CredentialClass); Evidence.Issuer := e.(Evidence.Issuer);
     Evidence.SubjectNamespace := e.(Evidence.SubjectNamespace);
     Evidence.VerifiedSubject := e.(Evidence.VerifiedSubject); Evidence.SubjectClaim := claim;
     Evidence.ObservedAt := e.(Evidence.ObservedAt); Evidence.ExpiresAt := e.(Evidence.ExpiresAt);
     Evidence.ClaimsDigest := digest |}.

Lemma principal_check_None ps now id : principal_check ps now id = None <->
  id = "" \/ exists p, ps !! id = Some p /\ disabled_by p now = false.
Proof.
  unfold principal_check. case_bool_decide as E; [naive_solver|].
  destruct (ps !! id) as [p|]; [|naive_solver]. rewrite fail_if_None. naive_solver.
Qed.

(** What a resolved ingress says. *)
Record attested (reg : Registry) (i : Issuer) (req : ResolveRequest) (now : time) (ev : Evidence.t)
    (w : Workload.t) : Prop := {
  at_binding : i.(is_binding) ∈ reg.(Bindings)
    /\ i.(is_binding).(Binding.Status) = AuthBindingActive
    /\ i.(is_binding).(Binding.Channel) = req.(rq_Channel);
  at_workload : w ∈ reg.(Workloads) /\ w.(Workload.Brain) = req.(rq_Brain);
  at_names : ev.(Evidence.RequesterPrincipalID) = i.(is_binding).(Binding.PrincipalID)
    /\ ev.(Evidence.ActorPrincipalID) = w.(Workload.PrincipalID)
    /\ ev.(Evidence.ResponsiblePrincipalID) = w.(Workload.ResponsiblePrincipalID)
    /\ ev.(Evidence.ActionID) = req.(rq_ActionID) /\ ev.(Evidence.RequestID) = req.(rq_RequestID)
    /\ ev.(Evidence.BindingGeneration) = i.(is_binding).(Binding.Generation);
  at_registered : forall id,
    id ∈ [ev.(Evidence.RequesterPrincipalID); ev.(Evidence.ActorPrincipalID);
          ev.(Evidence.ResponsiblePrincipalID)] ->
    id = "" \/ exists p, p ∈ reg.(Principals) /\ p.(Registered.ID) = id
      /\ disabled_by p now = false;
  at_actor : exists p, p ∈ reg.(Principals) /\ p.(Registered.ID) = ev.(Evidence.ActorPrincipalID)
    /\ p.(Registered.Kind) = PrincipalWorkload;
}.

Lemma find_app_none (f : Issuer -> bool) newer i older : existsb f newer = false -> f i = true ->
  List.find f (newer ++ i :: older) = Some i.
Proof.
  induction newer as [|j newer IH]; cbn [existsb app List.find]; intros Hn Hi; [by rewrite Hi|].
  apply orb_false_iff in Hn as [-> Hn]. by apply IH.
Qed.

Lemma find_newer (f : Issuer -> bool) newer rest : existsb f newer = true ->
  exists j, j ∈ newer /\ f j = true /\ List.find f (newer ++ rest) = Some j.
Proof.
  induction newer as [|j newer IH]; cbn [existsb app List.find]; [done|].
  destruct (f j) eqn:E; [exists j; by repeat split; [left|..]|].
  intros Hn. destruct (IH Hn) as (k & Hk & Hf & He). exists k. by repeat split; [right|..].
Qed.

(** The test the goal starts with. *)
Ltac test E := match goal with
  | |- (if ?b then _ else _) = _ -> _ => destruct b eqn:E
  | |- match (if ?b then _ else _) with _ => _ end => destruct b eqn:E
  end.

(** The seal of an issuer is live exactly until its binding has a newer one. *)
Lemma live_issuer reg r newer i older s : made reg r (newer ++ i :: older) -> i.(is_seal) = Some s ->
  match r.(rs_issuers) !! s.(sl_binding) with Some live => same_seal live s | None => false end
  = negb (existsb (of_binding i.(is_binding).(Binding.ID)) newer).
Proof.
  intros H Hs. apply made_inv in H as (_ & Hl & Ho & Hn). rewrite Hl. unfold live_seal.
  rewrite Forall_forall in Ho.
  destruct (Ho i) as [(s' & A1 & A2 & A3 & A4) _]; [set_solver|]. rewrite Hs in A1. injection A1 as <-.
  rewrite A4. destruct (existsb _ newer) eqn:E; cbn [negb].
  - destruct (find_newer _ _ (i :: older) E) as (j & Hj & _ & ->).
    destruct (Ho j) as [(t & B1 & _ & B3 & _) _]; [set_solver|]. rewrite B1.
    apply bool_decide_eq_false_2. intros [_ Heq].
    rewrite fmap_app, fmap_cons in Hn. apply NoDup_app in Hn as (_ & Hn & _).
    apply (Hn (number j)); [by apply list_elem_of_fmap_2|].
    assert (number j = number i) as -> by (unfold number; by rewrite B1, Hs). by left.
  - rewrite find_app_none; [|done|by apply bool_decide_eq_true_2]. rewrite Hs.
    by apply bool_decide_eq_true_2.
Qed.

Lemma Issue_Ok i now rid claim ing i' : Issue (Some i) now rid claim = Ok (ing, i') ->
  ing = {| in_seal := i.(is_seal); in_requestID := rid; in_subjectClaim := claim; in_observedAt := now;
           in_expiresAt := if 0 <? i.(is_ttl) then now + i.(is_ttl) else 0;
           in_method := i.(is_method); in_credential := i.(is_credential) |}
  /\ i.(is_seal) <> None /\ i'.(is_issued) = (i.(is_issued) + 1) mod 2 ^ 64 /\ rid <> "".
Proof.
  unfold Issue. destruct (_ || _) eqn:E; [done|]. intros [= <- <-]. bools. split_and!; done.
Qed.

(** C40.  Identity comes from the registry and from the newest issuer of
    a binding, never from the sender.  Whatever issuers were made, an ingress
    of one that a newer issuer of its binding has superseded resolves to the
    binding mismatch; an ingress that resolves names as requester, actor and
    responsible party the principals the configuration binds, all registered
    and none disabled by then, the actor a workload, before the ingress
    expires; and what the sender claims about itself changes neither the
    verdict nor any term but the recorded claim and its digest.  An ingress of
    the newest issuer does resolve when the request is its own, the binding is
    active on the channel, the ingress has not expired and the three principals
    are known and enabled. *)
Theorem ingress_attests_only_the_registry (reg : Registry) (r : Resolver) (newer older : list Issuer)
    (i j j' : Issuer) (at_ now : time) (rid claim rand16 : string) (ing : AuthenticatedIngress)
    (req : ResolveRequest) :
  made reg r (newer ++ i :: older) -> j.(is_seal) = i.(is_seal) ->
  Issue (Some j) at_ rid claim = Ok (ing, j') ->
  (existsb (of_binding i.(is_binding).(Binding.ID)) newer = true ->
     Resolve r ing req now rand16 = Err ErrIdentityBindingMismatch)
  /\ (forall ev, Resolve r ing req now rand16 = Ok ev ->
        existsb (of_binding i.(is_binding).(Binding.ID)) newer = false /\ rid = req.(rq_RequestID)
        /\ (0 < j.(is_ttl) -> at_ + j.(is_ttl) = 0 \/ now < at_ + j.(is_ttl))
        /\ exists w, attested reg i req now ev w)
  /\ (forall claim' ing' j2, Issue (Some j) at_ rid claim' = Ok (ing', j2) ->
        match Resolve r ing req now rand16, Resolve r ing' req now rand16 with
        | Ok ev, Ok ev' => claimed "" "" ev = claimed "" "" ev'
        | Err e, Err e' => e = e'
        | _, _ => False
        end)
  /\ (forall w, existsb (of_binding i.(is_binding).(Binding.ID)) newer = false ->
        rid = req.(rq_RequestID) -> req.(rq_ActionID) <> "" ->
        i.(is_binding).(Binding.Status) = AuthBindingActive ->
        i.(is_binding).(Binding.Channel) = req.(rq_Channel) ->
        (0 < j.(is_ttl) -> now < at_ + j.(is_ttl)) ->
        r.(rs_workloads) !! req.(rq_Brain) = Some w ->
        Forall (fun id => id = "" \/ exists p, r.(rs_principals) !! id = Some p /\ disabled_by p now = false)
          [i.(is_binding).(Binding.PrincipalID); w.(Workload.PrincipalID);
           w.(Workload.ResponsiblePrincipalID)] ->
        exists ev, Resolve r ing req now rand16 = Ok ev).
Proof.
  intros Hm Hj Hi. pose proof (made_inv _ _ _ Hm) as ([R1 R2 R3] & _ & Ho & _).
  apply Issue_Ok in Hi as (-> & Hs & _ & Hrid). rewrite Hj in *.
  destruct (i.(is_seal)) as [s|] eqn:Es; [|done].
  pose proof (live_issuer _ _ _ _ _ _ Hm Es) as Hlive.
  rewrite Forall_forall in Ho. destruct (Ho i) as [(s' & A1 & A2 & _ & A4) B]; [set_solver|].
  rewrite Es in A1. injection A1 as <-.
  unfold Resolve. cbn [in_seal in_requestID in_expiresAt in_method in_subjectClaim in_observedAt
    in_credential]. rewrite Hlive, A4, B. split_and!.
  - intros ->. cbn [negb]. by rewrite orb_true_r.
  - intros ev. destruct (existsb _ newer); cbn [negb]; [by rewrite orb_true_r|].
    test E1; [done|]. test E2; [done|]. test E3; [done|].
    destruct (r.(rs_workloads) !! _) as [w|] eqn:Ew; [|done].
    destruct (check_all _ _) eqn:E4; [done|]. intros [= <-]. bools.
    apply check_all_None in E4. rewrite Forall_forall in E4.
    destruct (R2 _ _ B) as (Hb & _ & _ & _). destruct (R3 _ _ Ew) as (Hw & Hbr & (p & Hp & Hk) & _).
    split_and!; [done|by destruct (decide (rid = rq_RequestID req))| |].
    + intros Ht. rewrite (proj2 (Z.ltb_lt _ _) Ht) in E3. unfold time_is_zero, time_before in E3.
      destruct E3 as [E3|E3]; bools; [by left|by right].
    + exists w. split; cbn.
      * split_and!; [done| |]; apply dec_stable; tauto.
      * done.
      * done.
      * intros id Hid. destruct (proj1 (principal_check_None _ _ _) (E4 id Hid)) as [->|(q & Hq & Hd)];
          [by left|right]. exists q. destruct (R1 _ _ Hq) as (? & ? & _). done.
      * exists p. destruct (R1 _ _ Hp) as (? & ? & _). done.
  - intros claim' ing' j2 (-> & _)%Issue_Ok.
    cbn [in_seal in_requestID in_expiresAt in_method in_subjectClaim in_observedAt in_credential].
    rewrite Hj, A2, Hlive, A4, B.
    test E1; [done|]. test E2; [done|]. test E3; [done|].
    destruct (r.(rs_workloads) !! _) as [w|]; [|done]. by destruct (check_all _ _).
  - intros w -> -> Ha Hact Hch Httl Hw Hps. rewrite A2, Hact, Hch, Hw. cbn [negb].
    rewrite !bool_decide_eq_false_2 by tauto. cbn [orb].
    assert (check_all (principal_check r.(rs_principals) now)
      [i.(is_binding).(Binding.PrincipalID); w.(Workload.PrincipalID);
       w.(Workload.ResponsiblePrincipalID)] = None) as ->.
    { apply check_all_None. eapply Forall_impl; [exact Hps|]. intros id. apply principal_check_None. }
    destruct (_ && _) eqn:E; [|by eexists]. exfalso. unfold time_is_zero, time_before in E.
    destruct (Z.ltb_spec 0 j.(is_ttl)) as [Ht|Ht]; bools; [specialize (Httl Ht); lia|done].
Qed.

(** ** Lemmas: canonical bytes *)

Section RoundTrip.
Context (u : string -> option time).

(** Terms the wire carries: text, 64-bit numbers, instants that read back. *)
Definition evidence_text (e : Evidence.t) : Prop := typed_go (evidence_type u) (evidence_go e).
Definition event_text (e : PrincipalEvent.t) : Prop := typed_go (event_type u) (event_go e).

Lemma identity_types_ok : type_ok (evidence_type u) /\ type_ok (event_type u).
Proof.
  assert (type_ok (principal_type u)) by types_ok. split; [by types_ok|]. types_ok. assumption.
Qed.

Lemma evidence_read_back e : evidence_text e ->
  ParseCanonicalEvidence u (CanonicalEvidence u e) = Some e.
Proof.
  intros He. unfold ParseCanonicalEvidence, CanonicalEvidence, strictJSON.
  destruct (marshal_go_back (evidence_type u) _ (proj1 identity_types_ok) ltac:(by vm_compute) He)
    as [-> ->]. by destruct e.
Qed.

Lemma event_read_back e : event_text e ->
  ParseCanonicalPrincipalEvent u (CanonicalPrincipalEvent u e) = Some e.
Proof.
  intros He. unfold ParseCanonicalPrincipalEvent, CanonicalPrincipalEvent, strictJSON.
  destruct (marshal_go_back (event_type u) _ (proj2 identity_types_ok) ltac:(by vm_compute) He)
    as [-> ->]. by destruct e as [? [] ? ? ?].
Qed.

Lemma event_text_intro e :
  Forall utf8 [e.(PrincipalEvent.EventID); e.(PrincipalEvent.Kind);
               e.(PrincipalEvent.Principal).(Registered.ID);
               e.(PrincipalEvent.Principal).(Registered.Kind);
               e.(PrincipalEvent.Principal).(Registered.DisplayName)] ->
  Forall int64_range [e.(PrincipalEvent.Revision); e.(PrincipalEvent.Principal).(Registered.Revision)] ->
  u (rfc3339 e.(PrincipalEvent.Principal).(Registered.CreatedAt))
    = Some e.(PrincipalEvent.Principal).(Registered.CreatedAt) ->
  u (rfc3339 e.(PrincipalEvent.Principal).(Registered.DisabledAt))
    = Some e.(PrincipalEvent.Principal).(Registered.DisabledAt) ->
  u (rfc3339 e.(PrincipalEvent.OccurredAt)) = Some e.(PrincipalEvent.OccurredAt) -> event_text e.
Proof.
  destruct e as [id [a b c d f g] rev kind at_]. cbn. intros Hs Hn H1 H2 H3.
  repeat (apply Forall_cons in Hs as [? Hs]). repeat (apply Forall_cons in Hn as [? Hn]). done.
Qed.

Section Seals.
Context (PrivateKey : Type) (Public : PrivateKey -> string)
  (Sign : PrivateKey -> string -> string) (Verify : string -> string -> string -> bool)
  (Hverify : forall k m, Verify (Public k) m (Sign k m) = true).

Lemma signed_domain k domain m :
  verifyDomain Verify (Public k) domain m (signDomain PrivateKey Sign k domain m) = true.
Proof. unfold verifyDomain, signDomain. by rewrite hex_decode_encode, Hverify. Qed.

Lemma VerifyEvidence_None pub s : VerifyEvidence u Verify pub s = None <->
  ParseCanonicalEvidence u s.(sv_Canonical) = Some s.(sv_Evidence)
  /\ s.(sv_Digest) = identity_hash s.(sv_Canonical) /\ s.(sv_SigningKeyID) = signingKeyID pub
  /\ verifyDomain Verify pub evidenceDomain s.(sv_Canonical) s.(sv_Signature) = true.
Proof.
  unfold VerifyEvidence. rewrite fail_if_None, !orb_false_iff, !bool_decide_eq_false, negb_false_iff.
  split; [intros (((H1 & H2) & H3) & H4)|intros (H1 & H2 & H3 & H4)]; split_and!; try done;
    try (by apply dec_stable); tauto.
Qed.

Lemma VerifyPrincipalEvent_None pub s : VerifyPrincipalEvent u Verify pub s = None <->
  ParseCanonicalPrincipalEvent u s.(sp_Canonical) = Some s.(sp_Event)
  /\ s.(sp_Digest) = identity_hash s.(sp_Canonical) /\ s.(sp_SigningKeyID) = signingKeyID pub
  /\ verifyDomain Verify pub principalEventDomain s.(sp_Canonical) s.(sp_Signature) = true.
Proof.
  unfold VerifyPrincipalEvent.
  rewrite fail_if_None, !orb_false_iff, !bool_decide_eq_false, negb_false_iff.
  split; [intros (((H1 & H2) & H3) & H4)|intros (H1 & H2 & H3 & H4)]; split_and!; try done;
    try (by apply dec_stable); tauto.
Qed.

End Seals.

End RoundTrip.

(** ** Lemmas: framing *)

Lemma string_of_bytes_length l : String.length (string_of_bytes l) = List.length l.
Proof. unfold string_of_bytes. induction l as [|x l IH]; [done|]. simpl. by rewrite IH. Qed.

Lemma be_bytes_length n z : List.length (be_bytes n z) = n.
Proof. revert z. induction n as [|n IH]; intros z; [done|]. cbn. rewrite length_app, IH. simpl. lia. Qed.

Lemma be_bytes_range n z : Forall (fun b => 0 <= b < 256) (be_bytes n z).
Proof.
  revert z. induction n as [|n IH]; intros z; [constructor|]. cbn. apply Forall_app. split; [done|].
  constructor; [|constructor]. change 255 with (Z.ones 8). rewrite Z.land_ones by lia.
  apply Z.mod_pos_bound. lia.
Qed.

Lemma be_bytes_inj n a b : 0 <= a < 256 ^ Z.of_nat n -> 0 <= b < 256 ^ Z.of_nat n ->
  be_bytes n a = be_bytes n b -> a = b.
Proof.
  revert a b. induction n as [|n IH]; intros a b Ha Hb; [simpl in *; lia|].
  rewrite Nat2Z.inj_succ, Z.pow_succ_r in Ha, Hb by lia. cbn [be_bytes]. intros H.
  apply app_inj_tail in H as [H1 H2].
  change 255 with (Z.ones 8) in H2. rewrite !Z.land_ones in H2 by lia.
  rewrite !Z.shiftr_div_pow2 in H1 by lia. change (2 ^ 8) with 256 in *.
  assert (a / 256 = b / 256) as Hq.
  { apply IH; [split; [apply Z.div_pos; lia|apply Z.div_lt_upper_bound; lia]..|done]. }
  rewrite (Z.div_mod a 256), (Z.div_mod b 256) by lia. lia.
Qed.

Lemma string_of_bytes_inj l k : Forall (fun b => 0 <= b < 256) l -> Forall (fun b => 0 <= b < 256) k ->
  string_of_bytes l = string_of_bytes k -> l = k.
Proof.
  unfold string_of_bytes. intros Hl. revert k.
  induction Hl as [|x l Hx _ IH]; intros [|y k] Hk; [done|done|done|].
  apply Forall_cons in Hk as [Hy Hk]. cbn. intros [= E H]. f_equal; [|by apply IH].
  rewrite <- (code_byte x Hx), <- (code_byte y Hy). by rewrite E.
Qed.


Definition framed (s : string) : Prop := Z.of_nat (String.length s) < 2 ^ 64.

Lemma writeTerm_inj a b x y : framed a -> framed b ->
  writeTerm a +:+ x = writeTerm b +:+ y -> a = b /\ x = y.
Proof.
  unfold writeTerm, framed. rewrite !str_app_assoc. intros Ha Hb H.
  apply str_app_inj in H as [H1 H2]; [|by rewrite !string_of_bytes_length, !be_bytes_length].
  apply string_of_bytes_inj in H1; [|apply be_bytes_range..].
  apply be_bytes_inj in H1; [|split; [lia|done]..]. apply Nat2Z.inj in H1.
  by apply str_app_inj in H2.
Qed.

(** The birth snapshot's digest seals the whole tuple an action was
    born with: two snapshots have one digest exactly when era, digest,
    canonical bytes, key id and signature all agree, or their framed bytes are
    an explicit SHA-256 collision; no term can move into its neighbour.  The
    legacy test accepts one tuple only. *)
Theorem snapshot_digest_seals_every_term (s s' : BirthSnapshot) :
  Forall framed [s.(bs_Digest); s.(bs_Canonical); s.(bs_SigningKeyID); s.(bs_Signature);
                 Itoa s.(bs_Version)] ->
  Forall framed [s'.(bs_Digest); s'.(bs_Canonical); s'.(bs_SigningKeyID); s'.(bs_Signature);
                 Itoa s'.(bs_Version)] ->
  (SnapshotDigest s = SnapshotDigest s' <->
     s = s' \/ sha256_collision (snapshot_bytes s) (snapshot_bytes s'))
  /\ (SnapshotIsLegacy s = true <->
      s = {| bs_Version := 0; bs_Digest := ""; bs_Canonical := ""; bs_SigningKeyID := "";
             bs_Signature := "" |}).
Proof.
  intros Hs Hs'. split.
  - unfold SnapshotDigest, identity_hash. rewrite pinned_inj, sha256_eq_iff.
    split; (intros [H|H]; [left|by right]); [|by subst].
    repeat (apply Forall_cons in Hs as [? Hs]). repeat (apply Forall_cons in Hs' as [? Hs']).
    unfold snapshot_bytes in H. rewrite <- (str_app_nil (writeTerm (bs_Signature s))),
      <- (str_app_nil (writeTerm (bs_Signature s'))) in H.
    apply writeTerm_inj in H as [_ H]; [|by vm_compute..].
    do 5 (apply writeTerm_inj in H as [? H]; [|done..]).
    destruct s, s'. cbn in *. f_equal; [by apply Itoa_inj|done..].
  - unfold SnapshotIsLegacy. rewrite !andb_true_iff, !bool_decide_eq_true.
    destruct s; cbn. split; [intros ((((-> & ->) & ->) & ->) & ->); done|].
    intros [= -> -> -> -> ->]. done.
Qed.

(** Evidence is judged over its own bytes.  Verification accepts
    exactly a stored statement whose canonical bytes decode to it, under the
    recomputed digest, the key's id and a signature in the evidence domain;
    what a key signs verifies and is read back term by term, for evidence and
    for principal events; evidence with the digest of another verified
    statement is that statement, or the bytes are a SHA-256 collision; and an
    event's seal is never evidence's. *)
Theorem identity_seals_their_bytes (u : string -> option time) (PrivateKey : Type)
    (Public : PrivateKey -> string) (Sign : PrivateKey -> string -> string)
    (Verify : string -> string -> string -> bool) :
  (forall k m, Verify (Public k) m (Sign k m) = true) ->
  (forall pub s, VerifyEvidence u Verify pub s = None <->
     ParseCanonicalEvidence u s.(sv_Canonical) = Some s.(sv_Evidence)
     /\ s.(sv_Digest) = identity_hash s.(sv_Canonical) /\ s.(sv_SigningKeyID) = signingKeyID pub
     /\ verifyDomain Verify pub evidenceDomain s.(sv_Canonical) s.(sv_Signature) = true)
  /\ (forall k e, evidence_text u e ->
        VerifyEvidence u Verify (Public k) (SignEvidence u PrivateKey Public Sign k e) = None)
  /\ (forall k e, event_text u e ->
        VerifyPrincipalEvent u Verify (Public k) (SignPrincipalEvent u PrivateKey Public Sign k e) = None)
  /\ (forall pub pub' s s', VerifyEvidence u Verify pub s = None -> VerifyEvidence u Verify pub' s' = None ->
        s.(sv_Digest) = s'.(sv_Digest) ->
        s.(sv_Evidence) = s'.(sv_Evidence) \/ sha256_collision s.(sv_Canonical) s'.(sv_Canonical))
  /\ (forall c c', domain_message evidenceDomain c = domain_message principalEventDomain c' ->
        sha256_collision (evidenceDomain +:+ String (byte 0) c)
          (principalEventDomain +:+ String (byte 0) c')).
Proof.
  intros HV. split_and!.
  - apply VerifyEvidence_None.
  - intros k e He. apply VerifyEvidence_None. unfold SignEvidence.
    cbn [sv_Evidence sv_Canonical sv_Digest sv_SigningKeyID sv_Signature].
    split_and!; [by apply evidence_read_back|reflexivity|reflexivity|by apply signed_domain].
  - intros k e He. apply VerifyPrincipalEvent_None. unfold SignPrincipalEvent.
    cbn [sp_Event sp_Canonical sp_Digest sp_SigningKeyID sp_Signature].
    split_and!; [by apply event_read_back|reflexivity|reflexivity|by apply signed_domain].
  - intros pub pub' s s' (H1 & H2 & _)%VerifyEvidence_None (H1' & H2' & _)%VerifyEvidence_None Hd.
    rewrite H2, H2' in Hd. unfold identity_hash in Hd. apply pinned_inj, sha256_eq_iff in Hd as [E|E].
    + left. rewrite E, H1' in H1. by injection H1.
    + by right.
  - intros c c' H. apply sha256_eq_iff in H as [H|H]; [|exact H]. exfalso. discriminate H.
Qed.

(** ** A concrete registry *)

Definition example_registered (id kind : string) : Registered.t :=
  {| Registered.ID := id; Registered.Kind := kind; Registered.DisplayName := "";
     Registered.CreatedAt := 0; Registered.DisabledAt := 0; Registered.Revision := 0 |}.

Definition example_binding : Binding.t :=
  {| Binding.ID := "tg"; Binding.Provider := "telegram"; Binding.Channel := "telegram";
     Binding.CredentialRef := "TG_TOKEN"; Binding.SubjectNamespace := "telegram";
     Binding.VerifiedSubject := "bot"; Binding.PrincipalID := "principal_channel_tg";
     Binding.Generation := 1; Binding.Status := AuthBindingActive |}.

Definition example_registry : Registry :=
  {| Principals := [example_registered "principal_operator" PrincipalHuman;
                    example_registered "principal_channel_tg" PrincipalExternalSystem;
                    example_registered "principal_brain_a" PrincipalWorkload];
     Bindings := [example_binding];
     Workloads := [{| Workload.Brain := "a"; Workload.PrincipalID := "principal_brain_a";
                      Workload.ResponsiblePrincipalID := "principal_operator" |}] |}.

Definition example_config : IssuerConfig :=
  {| ic_BindingID := "tg"; ic_Method := "bot_api"; ic_CredentialClass := "bot_token_session";
     ic_TTL := 300 * Second |}.

Definition example_resolver : Resolver :=
  match NewResolver 0 example_registry with
  | Ok r => match NewIssuer r example_config "0123456789abcdef" with Ok (_, r') => r' | Err _ => r end
  | Err _ => {| rs_self := 0; rs_principals := ∅; rs_bindings := ∅; rs_workloads := ∅; rs_issuers := ∅;
                rs_allocated := 0 |}
  end.

Definition example_issuer : Issuer :=
  {| is_seal := Some {| sl_resolver := 0; sl_number := 0; sl_binding := "tg";
                        sl_instance := newID "adapter_" "0123456789abcdef" |};
     is_binding := example_binding; is_method := "bot_api"; is_credential := "bot_token_session";
     is_ttl := 300 * Second; is_issued := 0 |}.

Definition example_request : ResolveRequest :=
  {| rq_ActionID := "act_1"; rq_RequestID := "req_1"; rq_Channel := "telegram"; rq_Brain := "a" |}.

Lemma example_made : made example_registry example_resolver [example_issuer].
Proof.
  eapply (made_issuer example_registry
    match NewResolver 0 example_registry with Ok r => r | Err _ => example_resolver end
    [] example_config "0123456789abcdef").
  - eapply (made_new example_registry 0). vm_compute. reflexivity.
  - vm_compute. reflexivity.
Qed.

Definition example_ingress (claim : string) : AuthenticatedIngress :=
  {| in_seal := example_issuer.(is_seal); in_requestID := "req_1"; in_subjectClaim := claim;
     in_observedAt := 1000 * Second; in_expiresAt := 1300 * Second; in_method := "bot_api";
     in_credential := "bot_token_session" |}.

(** The resolver's verdict does not move with the sender's claim. *)
Lemma ingress_attests_only_the_registry_witness :
  exists ev, Resolve example_resolver (example_ingress "user:42") example_request (1100 * Second) "r"
    = Ok ev /\ ev.(Evidence.RequesterPrincipalID) = "principal_channel_tg".
Proof.
  destruct (ingress_attests_only_the_registry example_registry example_resolver [] [] example_issuer
    example_issuer
    {| is_seal := example_issuer.(is_seal); is_binding := example_binding; is_method := "bot_api";
       is_credential := "bot_token_session"; is_ttl := 300 * Second; is_issued := 1 |}
    (1000 * Second) (1100 * Second) "req_1" "user:42" "r" (example_ingress "user:42") example_request
    example_made eq_refl ltac:(vm_compute; reflexivity)) as (_ & Hok & _ & Hlive).
  destruct (Hlive {| Workload.Brain := "a"; Workload.PrincipalID := "principal_brain_a";
                     Workload.ResponsiblePrincipalID := "principal_operator" |}) as [ev Hev];
    [reflexivity|reflexivity|discriminate|reflexivity|reflexivity|intros _; vm_compute; reflexivity
    |vm_compute; reflexivity| |].
  - repeat (apply Forall_cons; split; [right; eexists; split; vm_compute; reflexivity|]).
    apply Forall_nil_2.
  - exists ev. split; [exact Hev|]. destruct (Hok ev Hev) as (_ & _ & _ & w & [_ _ (Hr & _) _ _]).
    exact Hr.
Defined.

Definition example_snapshot (digest canonical : string) : BirthSnapshot :=
  {| bs_Version := 2; bs_Digest := digest; bs_Canonical := canonical; bs_SigningKeyID := "k";
     bs_Signature := "00" |}.

Lemma snapshot_digest_seals_every_term_witness :
  SnapshotDigest (example_snapshot "a" "bc") <> SnapshotDigest (example_snapshot "ab" "c").
Proof.
  intros H.
  destruct (proj1 (proj1 (snapshot_digest_seals_every_term (example_snapshot "a" "bc")
    (example_snapshot "ab" "c")
    ltac:(repeat (apply Forall_cons; split; [vm_compute; reflexivity|]); apply Forall_nil_2)
    ltac:(repeat (apply Forall_cons; split; [vm_compute; reflexivity|]); apply Forall_nil_2))) H)
    as [E|[_ E]].
  - discriminate E.
  - vm_compute in E. discriminate E.
Defined.

Definition example_event : PrincipalEvent.t :=
  {| PrincipalEvent.EventID := "pev_1";
     PrincipalEvent.Principal :=
       {| Registered.ID := "principal_operator"; Registered.Kind := PrincipalHuman;
          Registered.DisplayName := "op"; Registered.CreatedAt := 1000 * Second;
          Registered.DisabledAt := 0; Registered.Revision := 1 |};
     PrincipalEvent.Revision := 1; PrincipalEvent.Kind := "created";
     PrincipalEvent.OccurredAt := 1000 * Second |}.

Definition example_clock : string -> option time := recall_times [0; 1000 * Second].

Lemma example_clock_back t : t ∈ [0; 1000 * Second] -> example_clock (rfc3339 t) = Some t.
Proof.
  intros Ht. apply (recall_times_back [0; 1000 * Second] t); [|exact Ht].
  repeat (apply Forall_cons; split; [by vm_compute|]). apply Forall_nil_2.
Qed.

Lemma example_event_text : event_text example_clock example_event.
Proof.
  apply event_text_intro.
  - repeat (apply Forall_cons; split; [by apply ascii_only_utf8|]). apply Forall_nil_2.
  - repeat (apply Forall_cons; split; [by vm_compute|]). apply Forall_nil_2.
  - apply (example_clock_back (1000 * Second)). right. left.
  - apply (example_clock_back 0). left.
  - apply (example_clock_back (1000 * Second)). right. left.
Qed.

Lemma identity_seals_their_bytes_witness :
  VerifyPrincipalEvent example_clock toy_verify (id "key")
    (SignPrincipalEvent example_clock string id toy_sign "key" example_event) = None.
Proof.
  assert (forall k m, toy_verify (id k) m (toy_sign k m) = true) as H
    by (intros k m; by apply bool_decide_eq_true_2).
  destruct (identity_seals_their_bytes example_clock string id toy_sign toy_verify H) as (_ & _ & W & _).
  apply W, example_event_text.
Defined.
