(* ===== verification/Snapshots.v ===== *)
(** * Authorization snapshots

    [internal/action/authorization_snapshot.go]: the evidence captured while
    authority is checked, its validity, its signed bytes and their reader.  The
    text after an error's sentinel is not modelled. *)

From S2P Require Import Prelude Kernel Grants Json Text Encoding Digests Wire Struct Receipts Intents Authority Contracts Identity.
From Stdlib Require Import Ascii String.
Local Open Scope Z_scope.
Local Open Scope korvun_scope.
#[local] Arguments String.append !_ _ : simpl nomatch.

Definition AuthorizationSnapshotV1Domain : string := "korvun.authorization-snapshot.v1".

(** [AuthorizationSnapshotKind] and [AuthorizationBudgetKind] are strings. *)
Definition AuthorizationSnapshotPending : string := "pending".
Definition AuthorizationSnapshotStart : string := "start".
Definition AuthorizationBudgetFinite : string := "finite".
Definition AuthorizationBudgetUnlimited : string := "unlimited".

Definition ErrAuthorizationSnapshotMalformed : error :=
  ErrorNew "action: authorization snapshot malformed".

Module AuthorizationSnapshotV1.

Record t := {
  Kind : string;
  ActionID : string;
  ApprovalID : string;
  ConversationID : string;
  RequesterPrincipalID : string;
  ActorPrincipalID : string;
  IdentityEvidenceDigest : string;
  IntentID : string;
  IntentVersion : Z;
  IntentDigest : string;
  IntentPurpose : string;
  PrincipalChain : slice string;
  BudgetKind : string;
  BudgetRemaining : option Z;
  RecordedAt : time
}.

#[export] Instance t_eq_dec : EqDecision t.
Proof. solve_decision. Defined.

End AuthorizationSnapshotV1.

Import AuthorizationSnapshotV1.

Definition snapshot_wire : gotype := TStruct
  [("schema_version", TInt); ("snapshot_kind", TString); ("action_id", TString);
   ("approval_id", TOmitString); ("conversation_id", TOmitString);
   ("requester_principal_id", TString); ("actor_principal_id", TString);
   ("identity_evidence_digest", TString); ("intent_id", TString); ("intent_version", TInt);
   ("intent_digest", TString); ("intent_purpose", TString); ("principal_chain", TSlice TString);
   ("budget_kind", TString); ("budget_remaining", TOmitOptInt); ("recorded_at", TString)].

Definition ValidateSnapshot (s : t) : option error :=
  fail_if (bool_decide (s.(ActionID) = "") || bool_decide (s.(RequesterPrincipalID) = "")
           || bool_decide (s.(ActorPrincipalID) = "") || bool_decide (s.(IntentID) = "")
           || (s.(IntentVersion) <=? 0) || bool_decide (s.(IntentDigest) = "")
           || bool_decide (s.(IntentPurpose) = "") || time_is_zero s.(RecordedAt)
           || bool_decide (elems s.(PrincipalChain) = [])) ErrAuthorizationSnapshotMalformed ;;;
  check_all (fun principal => fail_if (bool_decide (principal = "")) ErrAuthorizationSnapshotMalformed)
    (elems s.(PrincipalChain)) ;;;
  (if bool_decide (s.(Kind) = AuthorizationSnapshotPending)
   then fail_if (bool_decide (s.(ApprovalID) = "")) ErrAuthorizationSnapshotMalformed
   else fail_if (bool_decide (s.(Kind) <> AuthorizationSnapshotStart)) ErrAuthorizationSnapshotMalformed) ;;;
  (if bool_decide (s.(BudgetKind) = AuthorizationBudgetFinite)
   then fail_if (match s.(BudgetRemaining) with Some n => n <? 0 | None => true end)
          ErrAuthorizationSnapshotMalformed
   else if bool_decide (s.(BudgetKind) = AuthorizationBudgetUnlimited)
   then fail_if (bool_decide (s.(BudgetRemaining) <> None)) ErrAuthorizationSnapshotMalformed
   else Some ErrAuthorizationSnapshotMalformed).

Definition snapshot_go (s : t) : goval :=
  GStruct
    [GInt 1; GString s.(Kind); GString s.(ActionID); GString s.(ApprovalID);
     GString s.(ConversationID); GString s.(RequesterPrincipalID); GString s.(ActorPrincipalID);
     GString s.(IdentityEvidenceDigest); GString s.(IntentID); GInt s.(IntentVersion);
     GString s.(IntentDigest); GString s.(IntentPurpose); slice_go GString s.(PrincipalChain);
     GString s.(BudgetKind); GOptInt s.(BudgetRemaining); GString (rfc3339 s.(RecordedAt))].

Definition SnapshotCanonicalBytes (s : t) : string := print (marshal_go snapshot_wire (snapshot_go s)).

Section Reader.
Context (time_Parse : string -> option time).

(** The wire value as a snapshot: schema 1, an instant that parses. *)
Definition snapshot_of (g : goval) : option t :=
  match g with
  | GStruct [GInt schema; GString kind; GString act; GString approval; GString conversation;
             GString requester; GString actor; GString evidence; GString intent; GInt version;
             GString digest; GString purpose; chain; GString budget; GOptInt remaining;
             GString recorded] =>
      if bool_decide (schema <> 1) then None
      else
        chain ← slice_of string_of chain; recorded ← time_Parse recorded;
        Some {| Kind := kind; ActionID := act; ApprovalID := approval;
                ConversationID := conversation; RequesterPrincipalID := requester;
                ActorPrincipalID := actor; IdentityEvidenceDigest := evidence;
                IntentID := intent; IntentVersion := version; IntentDigest := digest;
                IntentPurpose := purpose; PrincipalChain := chain; BudgetKind := budget;
                BudgetRemaining := remaining; RecordedAt := recorded |}
  | _ => None
  end.

Definition ParseAuthorizationSnapshotV1 (raw : string) : result t :=
  match (w ← strictJSON snapshot_wire raw; snapshot_of w) with
  | None => Err ErrAuthorizationSnapshotMalformed
  | Some snapshot =>
      match ValidateSnapshot snapshot with
      | Some e => Err e
      | None =>
          if bool_decide (snapshot.(IdentityEvidenceDigest) = "")
          then Err (ErrorWrap "identity evidence digest is empty" ErrAuthorizationSnapshotMalformed)
          else if bool_decide (raw <> SnapshotCanonicalBytes snapshot)
          then Err (ErrorWrap "non-canonical bytes" ErrAuthorizationSnapshotMalformed)
          else Ok snapshot
      end
  end.

Section Seals.
Context (PrivateKey : Type) (Public : PrivateKey -> string)
  (Sign : PrivateKey -> string -> string) (Verify : string -> string -> string -> bool).

Definition SignAuthorizationSnapshotV1 (priv : PrivateKey) (snapshot : t) : AuthoritySignature :=
  SignAuthorityBytes PrivateKey Public Sign priv AuthorizationSnapshotV1Domain (SnapshotCanonicalBytes snapshot).

Definition VerifyAuthorizationSnapshotV1 (pub : string) (snapshot : t) (signature : AuthoritySignature)
    : option error :=
  match ValidateSnapshot snapshot with
  | Some _ => Some ErrAuthorityEvidenceCorrupt
  | None => VerifyAuthorityBytes Verify pub AuthorizationSnapshotV1Domain (SnapshotCanonicalBytes snapshot)
              signature
  end.

Definition VerifyAuthorizationSnapshotBytesV1 (pub raw : string) (signature : AuthoritySignature)
    : result t :=
  match ParseAuthorizationSnapshotV1 raw with
  | Err _ => Err ErrAuthorityEvidenceCorrupt
  | Ok snapshot =>
      match VerifyAuthorizationSnapshotV1 pub snapshot signature with
      | Some e => Err e
      | None => Ok snapshot
      end
  end.

End Seals.

End Reader.

(** ** Lemmas *)

(** Text that is UTF-8, integers that fit their Go types. *)
Record snapshot_text (s : t) : Prop := {
  sn_strings : Forall utf8
    [s.(Kind); s.(ActionID); s.(ApprovalID); s.(ConversationID); s.(RequesterPrincipalID);
     s.(ActorPrincipalID); s.(IdentityEvidenceDigest); s.(IntentID); s.(IntentDigest);
     s.(IntentPurpose); s.(BudgetKind)];
  sn_chain : Forall utf8 (elems s.(PrincipalChain));
  sn_version : int64_range s.(IntentVersion);
  sn_remaining : forall n, s.(BudgetRemaining) = Some n -> int64_range n
}.

Lemma snapshot_wire_ok : type_ok snapshot_wire.
Proof. unfold snapshot_wire. types_ok. Qed.

Lemma snapshot_typed s : snapshot_text s -> typed_go snapshot_wire (snapshot_go s).
Proof.
  intros [H1 H2 H3 H4]. repeat (apply Forall_cons in H1 as [? H1]).
  unfold snapshot_wire, snapshot_go. apply typed_struct.
  repeat (apply Forall2_cons; split); [..|by apply Forall2_nil]; cbn [snd]; try assumption.
  - done.
  - by apply strings_typed.
  - cbn [typed_go]. destruct (BudgetRemaining s); [by apply H4|done].
  - apply ascii_only_utf8, rfc3339_ascii.
Qed.

Lemma snapshot_of_go time_Parse s : parses_back time_Parse s.(RecordedAt) ->
  snapshot_of time_Parse (snapshot_go s) = Some s.
Proof.
  intros Hp. unfold snapshot_of, snapshot_go. rewrite bool_decide_eq_false_2 by (intros H; by apply H).
  rewrite (slice_of_go GString string_of) by done. cbn [mbind option_bind].
  unfold parses_back in Hp. rewrite Hp. cbn [mbind option_bind]. by destruct s.
Qed.

Lemma snapshot_wire_back time_Parse s : snapshot_text s -> parses_back time_Parse s.(RecordedAt) ->
  (w ← strictJSON snapshot_wire (SnapshotCanonicalBytes s); snapshot_of time_Parse w) = Some s.
Proof.
  intros Ht Hp.
  destruct (marshal_go_back snapshot_wire (snapshot_go s) snapshot_wire_ok ltac:(by vm_compute)
    (snapshot_typed s Ht)) as [E1 E2].
  unfold strictJSON, SnapshotCanonicalBytes. rewrite E1, E2. cbn [mbind option_bind].
  by apply snapshot_of_go.
Qed.

(** What a valid snapshot says. *)
Record snapshot_valid (s : t) : Prop := {
  sv_ids : Forall (fun v => v <> "")
    [s.(ActionID); s.(RequesterPrincipalID); s.(ActorPrincipalID); s.(IntentID); s.(IntentDigest);
     s.(IntentPurpose)];
  sv_version : 0 < s.(IntentVersion);
  sv_recorded : s.(RecordedAt) <> 0;
  sv_chain : elems s.(PrincipalChain) <> [] /\ Forall (fun v => v <> "") (elems s.(PrincipalChain));
  sv_kind : s.(Kind) = AuthorizationSnapshotPending /\ s.(ApprovalID) <> ""
    \/ s.(Kind) = AuthorizationSnapshotStart;
  sv_budget : s.(BudgetKind) = AuthorizationBudgetFinite
      /\ (exists n, s.(BudgetRemaining) = Some n /\ 0 <= n)
    \/ s.(BudgetKind) = AuthorizationBudgetUnlimited /\ s.(BudgetRemaining) = None
}.

Lemma ValidateSnapshot_None s : ValidateSnapshot s = None <-> snapshot_valid s.
Proof.
  unfold ValidateSnapshot. rewrite !first_error_None, fail_if_None, check_all_None, !orb_false_iff.
  rewrite !bool_decide_eq_false, Z.leb_gt. unfold time_is_zero. rewrite bool_decide_eq_false.
  assert (Forall (fun x => fail_if (bool_decide (x = "")) ErrAuthorizationSnapshotMalformed = None)
            (elems (PrincipalChain s)) <-> Forall (fun v => v <> "") (elems (PrincipalChain s))) as ->.
  { apply Forall_iff. intros x. by rewrite fail_if_None, bool_decide_eq_false. }
  assert ((if bool_decide (Kind s = AuthorizationSnapshotPending)
           then fail_if (bool_decide (ApprovalID s = "")) ErrAuthorizationSnapshotMalformed
           else fail_if (bool_decide (Kind s <> AuthorizationSnapshotStart))
                  ErrAuthorizationSnapshotMalformed) = None
          <-> Kind s = AuthorizationSnapshotPending /\ ApprovalID s <> ""
              \/ Kind s = AuthorizationSnapshotStart) as ->.
  { case_bool_decide as E; rewrite fail_if_None, bool_decide_eq_false.
    - rewrite E. naive_solver discriminate.
    - split; [intros H%dec_stable; by right|naive_solver]. }
  split.
  - intros [((((((((H1 & H2) & H3) & H4) & H5) & H6) & H7) & H8) & H9) (Hc & Hk & Hb)].
    split; try done; [by repeat (apply Forall_cons; split)|].
    case_bool_decide as E; [|case_bool_decide as E'; [|done]].
    + left. split; [done|]. destruct (BudgetRemaining s) as [n|]; [|done].
      apply fail_if_None, Z.ltb_ge in Hb. by exists n.
    + right. apply fail_if_None, bool_decide_eq_false, dec_stable in Hb. done.
  - intros [H1 H2 H3 [H4 H5] H6 H7].
    repeat (apply Forall_cons in H1 as [? H1]). split_and!; try done.
    destruct H7 as [(E & n & En & Hn)|[E En]]; rewrite E, En; cbn; [|done].
    by rewrite (proj2 (Z.ltb_ge _ _)).
Qed.

Lemma sealed_verifies (PrivateKey : Type) Public Sign Verify (k : PrivateKey) domain canonical :
  Verify (Public k) (authoritySigningMessage domain canonical)
    (Sign k (authoritySigningMessage domain canonical)) = true ->
  VerifyAuthorityBytes Verify (Public k) domain canonical
    (SignAuthorityBytes PrivateKey Public Sign k domain canonical) = None.
Proof.
  intros Hv. unfold VerifyAuthorityBytes, SignAuthorityBytes. cbn [as_Digest as_SigningKeyID as_Signature].
  rewrite !bool_decide_eq_false_2 by (intros H; by apply H). cbn [orb].
  rewrite hex_decode_encode. by rewrite Hv.
Qed.

(** The bytes of an authorization snapshot are its only spelling.
    [ParseAuthorizationSnapshotV1] reads a well-typed snapshot from a text
    exactly when the text is its canonical bytes, it is complete (its shape
    closed: a pending one names its approval, a finite budget what remains of
    it) and it names its identity evidence; whatever is read at all is so; and
    a snapshot sealed under a key is read back and verifies under that key. *)
Theorem snapshot_is_read_back (time_Parse : string -> option time) (s : t)
    (PrivateKey : Type) (Public : PrivateKey -> string) (Sign : PrivateKey -> string -> string)
    (Verify : string -> string -> string -> bool) (k : PrivateKey) :
  snapshot_text s -> parses_back time_Parse s.(RecordedAt) ->
  (forall m, Verify (Public k) m (Sign k m) = true) ->
  (forall raw, ParseAuthorizationSnapshotV1 time_Parse raw = Ok s <->
     raw = SnapshotCanonicalBytes s /\ snapshot_valid s /\ s.(IdentityEvidenceDigest) <> "")
  /\ (forall raw s', ParseAuthorizationSnapshotV1 time_Parse raw = Ok s' ->
     raw = SnapshotCanonicalBytes s' /\ snapshot_valid s' /\ s'.(IdentityEvidenceDigest) <> "")
  /\ (VerifyAuthorizationSnapshotBytesV1 time_Parse Verify (Public k) (SnapshotCanonicalBytes s)
        (SignAuthorizationSnapshotV1 PrivateKey Public Sign k s) = Ok s <->
      snapshot_valid s /\ s.(IdentityEvidenceDigest) <> "").
Proof.
  intros Ht Hp Hv.
  assert (forall raw s', ParseAuthorizationSnapshotV1 time_Parse raw = Ok s' ->
     raw = SnapshotCanonicalBytes s' /\ snapshot_valid s' /\ s'.(IdentityEvidenceDigest) <> "") as Hsound.
  { intros raw s'. unfold ParseAuthorizationSnapshotV1.
    destruct (_ ≫= _) as [w|]; [|done]. destruct (ValidateSnapshot w) eqn:Ev; [done|].
    apply ValidateSnapshot_None in Ev. case_bool_decide as Ee; [done|].
    case_bool_decide as Er; [done|]. intros [= <-]. split_and!; done. }
  assert (snapshot_valid s -> s.(IdentityEvidenceDigest) <> "" ->
     ParseAuthorizationSnapshotV1 time_Parse (SnapshotCanonicalBytes s) = Ok s) as Hback.
  { intros Hs He. unfold ParseAuthorizationSnapshotV1. rewrite snapshot_wire_back by done.
    rewrite (proj2 (ValidateSnapshot_None s) Hs), bool_decide_eq_false_2 by done.
    by rewrite bool_decide_eq_false_2 by (intros H; by apply H). }
  split_and!; [|exact Hsound|].
  - intros raw. split; [apply Hsound|]. intros (-> & H1 & H2). by apply Hback.
  - unfold VerifyAuthorizationSnapshotBytesV1. split.
    + destruct (ParseAuthorizationSnapshotV1 _ _) as [s'|] eqn:E; [|done].
      destruct (VerifyAuthorizationSnapshotV1 _ _ _ _); [done|]. intros [= ->].
      by apply Hsound in E as (_ & ? & ?).
    + intros [H1 H2]. rewrite Hback by done. unfold VerifyAuthorizationSnapshotV1.
      rewrite (proj2 (ValidateSnapshot_None s) H1). unfold SignAuthorizationSnapshotV1.
      by rewrite sealed_verifies.
Qed.

(** ** A concrete snapshot *)

Definition example_start_snapshot : t :=
  {| Kind := AuthorizationSnapshotStart; ActionID := "act3_1_a"; ApprovalID := "";
     ConversationID := "c-1"; RequesterPrincipalID := "principal_channel_tg";
     ActorPrincipalID := "principal_brain_a"; IdentityEvidenceDigest := "sha256:e";
     IntentID := "intent-1"; IntentVersion := 1; IntentDigest := "sha256:i";
     IntentPurpose := "sums"; PrincipalChain := Some ["principal_operator"; "principal_brain_a"];
     BudgetKind := AuthorizationBudgetFinite; BudgetRemaining := Some 3; RecordedAt := 1000 * Second |}.

Lemma snapshot_is_read_back_witness :
  ParseAuthorizationSnapshotV1 example_clock (SnapshotCanonicalBytes example_start_snapshot)
    = Ok example_start_snapshot.
Proof.
  assert (snapshot_text example_start_snapshot) as Ht.
  { split; [| |by vm_compute|intros n [= <-]; by vm_compute].
    - repeat (apply Forall_cons; split; [by apply ascii_only_utf8|]). apply Forall_nil_2.
    - cbn. repeat (apply Forall_cons; split; [by apply ascii_only_utf8|]). apply Forall_nil_2. }
  assert (forall m, toy_verify (id "key") m (toy_sign "key" m) = true) as H
    by (intros m; by apply bool_decide_eq_true_2).
  apply (proj1 (snapshot_is_read_back example_clock example_start_snapshot string id toy_sign
    toy_verify "key" Ht (example_clock_back (1000 * Second) ltac:(right; left)) H)).
  split_and!; [done|apply ValidateSnapshot_None; by vm_compute|done].
Defined.
