(* ===== verification/Tables.v ===== *)
(** * The authority store: tables and transactions

    [internal/action/sqlite]: the tables of the migrations in [store.go] that
    the authority kernel reads and writes, as maps and lists with the keys,
    unique indexes and checks their [CREATE TABLE] statements declare; the
    transactions, as a state monad that keeps the tables of a failed
    transaction; the signing-key lookup and the sealing of canonical bytes.
    A database that does not answer (I/O, busy, a cancelled context) is not
    modelled: every statement here answers. *)

From S2P Require Import Prelude Kernel Grants Json Text Encoding Digests Wire Struct Receipts Intents Authority Contracts Identity.
From Stdlib Require Import Ascii String.
Import Lifecycle.
Local Open Scope Z_scope.
Local Open Scope korvun_scope.
#[local] Arguments String.append !_ _ : simpl nomatch.

(** ** Rows *)

(** [budget_accounts], under its [account_id]. *)
Record account_row := {
  ac_profile : string;
  ac_kind : string;
  ac_scope : string;
  ac_max_total : option Z;
  ac_per_operation : string;
  ac_created : string
}.

(** [budget_counters], under [(account_id, operation_key)]. *)
Record counter_row := {
  ct_spent : Z;
  ct_sequence : Z;
  ct_tail : string;
  ct_canonical : string;
  ct_seal : AuthoritySignature
}.

(** [budget_debits]. *)
Record debit_row := {
  db_action : string;
  db_account : string;
  db_operation : string;
  db_sequence : Z;
  db_previous : string;
  db_cumulative : Z;
  db_canonical : string;
  db_seal : AuthoritySignature
}.

Record budget_tables := {
  accounts : gmap string account_row;
  counters : gmap (string * string) counter_row;
  debits : list debit_row
}.

(** [grant_versions], under [(grant_id, version)]; [grant_events];
    [grant_heads], under [grant_id]. *)
Record grant_row := {
  gv_schema : Z;
  gv_profile : string;
  gv_intent : string;
  gv_intent_version : Z;
  gv_intent_digest : string;
  gv_parent : string;
  gv_parent_version : Z;
  gv_issuer : string;
  gv_subject : string;
  gv_canonical : string;
  gv_seal : AuthoritySignature;
  gv_created : string
}.

Record grant_event_row := {
  ge_id : string;
  ge_grant : string;
  ge_version : Z;
  ge_revision : Z;
  ge_from : LifecycleStatus;
  ge_to : LifecycleStatus;
  ge_actor_action : string;
  ge_actor : string;
  ge_admin : bool;
  ge_reason : string;
  ge_occurred : string;
  ge_previous : string;
  ge_canonical : string;
  ge_seal : AuthoritySignature
}.

Record grant_head_row := {
  gh_version : Z;
  gh_revision : Z;
  gh_last : string;
  gh_status : LifecycleStatus
}.

Record grant_tables := {
  grant_versions : gmap (string * Z) grant_row;
  grant_events : list grant_event_row;
  grant_heads : gmap string grant_head_row
}.

(** [intent_versions], under [(intent_id, version)]; a key and a signature
    that are [NULL] read as empty text.  [intent_events] and [intent_heads]. *)
Record intent_row := {
  iv_profile : string;
  iv_owner : string;
  iv_canonical : string;
  iv_digest : string;
  iv_key : string;
  iv_signature : string;
  iv_created : string
}.

Record intent_event_row := {
  ie_id : string;
  ie_intent : string;
  ie_version : Z;
  ie_revision : Z;
  ie_from : LifecycleStatus;
  ie_to : LifecycleStatus;
  ie_actor : string;
  ie_evidence : string;
  ie_occurred : string;
  ie_previous : string;
  ie_canonical : string;
  ie_digest : string;
  ie_key : string;
  ie_signature : string
}.

(** [IntentHead] without its key. *)
Record intent_head_row := {
  ih_version : Z;
  ih_revision : Z;
  ih_last : string;
  ih_status : LifecycleStatus
}.

(** [execution_bindings]: [None] is the [NULL] the writer stores for an empty
    conversation, grant or version. *)
Record binding_row := {
  eb_id : string;
  eb_actor : string;
  eb_channel : string;
  eb_conversation : option string;
  eb_intent : string;
  eb_intent_version : Z;
  eb_intent_digest : string;
  eb_grant : option string;
  eb_grant_version : option Z;
  eb_grant_digest : option string;
  eb_revision : Z;
  eb_status : BindingStatus
}.

Record intent_tables := {
  intent_versions : gmap (string * Z) intent_row;
  intent_events : list intent_event_row;
  intent_heads : gmap string intent_head_row;
  bindings : list binding_row
}.

(** [principals], under [principal_id]; [principal_events]. *)
Record principal_row := {
  pr_kind : string;
  pr_display : string;
  pr_created : string;
  pr_disabled : option string;
  pr_revision : Z
}.

Record principal_event_row := {
  pe_id : string;
  pe_principal : string;
  pe_revision : Z;
  pe_kind : string;
  pe_occurred : string;
  pe_canonical : string;
  pe_digest : string;
  pe_key : string;
  pe_signature : string
}.

(** [identity_evidence_v2], under its unique [action_id]. *)
Record evidence_row := {
  er_id : string;
  er_request : string;
  er_requester : string;
  er_actor : string;
  er_responsible : option string;
  er_binding : string;
  er_generation : Z;
  er_adapter : string;
  er_provider : string;
  er_method : string;
  er_class : string;
  er_issuer : string;
  er_namespace : string;
  er_subject : string;
  er_claim : string;
  er_observed : string;
  er_expires : option string;
  er_claims_digest : string;
  er_canonical : string;
  er_digest : string;
  er_key : string;
  er_signature : string
}.

(** [principal_bindings] has the columns of [Binding.t], under [binding_id]. *)
Record identity_tables := {
  principals : gmap string principal_row;
  principal_events : list principal_event_row;
  principal_bindings : gmap string Binding.t;
  identity_evidence : gmap string evidence_row
}.

(** [actions], under [action_id], and [action_decisions]. *)
Record action_row := {
  aw_schema : Z;
  aw_correlation : string;
  aw_source : Source.t;
  aw_operation : Operation.t;
  aw_parameters : string;
  aw_effect : string;
  aw_state : string;
  aw_recovery : string;
  aw_requested : string;
  aw_finished : option string;
  aw_principal : option string;
  aw_intent : option string;
  aw_refs : option string;
  aw_snapshot : BirthSnapshot
}.

Record decision_row := {
  de_outcome : string;
  de_rule : string;
  de_decided : string;
  de_policy_version : Z;
  de_policy_digest : string
}.

(** [evidence] has the columns of [IdentityEvidence], under [evidence_id], with
    the action it is of. *)
Record action_tables := {
  actions : gmap string action_row;
  decisions : gmap string decision_row;
  legacy_evidence : gmap string (string * IdentityEvidence.t)
}.

(** [grants] and [budget_spent] of version 1, [legacy_authority_imports] and,
    of [intents], the [digest] under [intent_id]. *)
Record legacy_grant_row := {
  lg_intent : string;
  lg_issuer : string;
  lg_subject : string;
  lg_parent : string;
  lg_operations : string;
  lg_resources : string;
  lg_max_actions : Z;
  lg_per_operation : string;
  lg_from : string;
  lg_expires : option string;
  lg_status : string;
  lg_depth : Z;
  lg_ceiling : string
}.

Record import_row := {
  im_version : Z;
  im_actor_action : string;
  im_baseline : Z;
  im_at : string
}.

Record legacy_tables := {
  legacy_grants : gmap string legacy_grant_row;
  budget_spent : gmap (string * string) Z;
  legacy_imports : gmap string import_row;
  intent_digests : gmap string string
}.

(** [approval_birth_heads], under [profile_id]; [approval_birth_events]. *)
Record birth_head_row := {
  bh_activation : string;
  bh_sequence : Z;
  bh_last : string;
  bh_actor_action : string;
  bh_canonical : string;
  bh_seal : AuthoritySignature
}.

Record birth_event_row := {
  be_profile : string;
  be_sequence : Z;
  be_approval : string;
  be_action : string;
  be_action_digest : string;
  be_strict : Z;
  be_snapshot : string;
  be_previous : string;
  be_canonical : string;
  be_seal : AuthoritySignature
}.

Record birth_tables := {
  birth_heads : gmap string birth_head_row;
  birth_events : list birth_event_row
}.

(** [receipts] has the columns of [Receipt]; the rows are kept newest first.
    [authorization_starts], under [action_id]. *)
Record start_row := {
  st_generation : Z;
  st_intent : string;
  st_intent_version : Z;
  st_intent_digest : string;
  st_chain : string;
  st_debits : string;
  st_time : string;
  st_canonical : string;
  st_seal : AuthoritySignature
}.

(** [authorization_snapshots], under [action_id]. *)
Record snapshot_row := {
  ss_requester : string;
  ss_actor : string;
  ss_evidence : string;
  ss_intent : string;
  ss_intent_version : Z;
  ss_intent_digest : string;
  ss_canonical : string;
  ss_digest : string;
  ss_kind : string;
  ss_approval : string;
  ss_purpose : string;
  ss_chain : string;
  ss_budget_kind : string;
  ss_remaining : option Z;
  ss_recorded : string;
  ss_key : string;
  ss_signature : string
}.

Record authz_tables := {
  starts : gmap string start_row;
  snapshots : gmap string snapshot_row
}.

(** [config_authority_snapshots], under profile, brain, generation and clause;
    [config_authority_heads], under profile and brain. *)
Record clause_row := {
  cs_canonical : string;
  cs_seal : AuthoritySignature
}.

Record config_head_row := {
  ch_generation : Z;
  ch_clauses : string;
  ch_canonical : string;
  ch_seal : AuthoritySignature
}.

Record config_tables := {
  clause_rows : gmap (string * string * Z * string) clause_row;
  config_heads : gmap (string * string) config_head_row
}.

(** [approvals], under [approval_id]. *)
Record approval_row := {
  ar_schema : Z;
  ar_action : string;
  ar_action_digest : string;
  ar_preview_digest : string;
  ar_preview : string;
  ar_params : string;
  ar_requested_from : string;
  ar_reason : string;
  ar_risk : string;
  ar_policy_version : Z;
  ar_policy_digest : string;
  ar_requested : string;
  ar_expires : option string;
  ar_status : string;
  ar_decider : string;
  ar_decision : string;
  ar_decided : option string;
  ar_comment : string;
  ar_receipt : string;
  ar_strict : Z
}.

(** [approval_tombstones], under [approval_id]; [approval_digest] is unique. *)
Record tombstone_row := {
  tb_digest : string;
  tb_action : string;
  tb_action_digest : string;
  tb_preview_digest : string;
  tb_policy_version : Z;
  tb_policy_digest : string;
  tb_decider : string;
  tb_decision : string;
  tb_decided : option string
}.

Record approval_tables := {
  approvals : gmap string approval_row;
  tombstones : gmap string tombstone_row
}.

Record db := {
  signing_keys : gmap string SigningKey;
  t_budget : budget_tables;
  t_grants : grant_tables;
  t_intents : intent_tables;
  t_identity : identity_tables;
  t_actions : action_tables;
  t_legacy : legacy_tables;
  t_births : birth_tables;
  t_receipts : list Receipt;
  t_authz : authz_tables;
  t_config : config_tables;
  t_approvals : approval_tables
}.

Definition with_budget (b : budget_tables) (s : db) : db :=
  {| signing_keys := s.(signing_keys); t_budget := b; t_grants := s.(t_grants);
     t_intents := s.(t_intents); t_identity := s.(t_identity); t_actions := s.(t_actions);
     t_legacy := s.(t_legacy); t_births := s.(t_births); t_receipts := s.(t_receipts);
     t_authz := s.(t_authz); t_config := s.(t_config); t_approvals := s.(t_approvals) |}.
Definition with_grants (g : grant_tables) (s : db) : db :=
  {| signing_keys := s.(signing_keys); t_budget := s.(t_budget); t_grants := g;
     t_intents := s.(t_intents); t_identity := s.(t_identity); t_actions := s.(t_actions);
     t_legacy := s.(t_legacy); t_births := s.(t_births); t_receipts := s.(t_receipts);
     t_authz := s.(t_authz); t_config := s.(t_config); t_approvals := s.(t_approvals) |}.
Definition with_intents (i : intent_tables) (s : db) : db :=
  {| signing_keys := s.(signing_keys); t_budget := s.(t_budget); t_grants := s.(t_grants);
     t_intents := i; t_identity := s.(t_identity); t_actions := s.(t_actions);
     t_legacy := s.(t_legacy); t_births := s.(t_births); t_receipts := s.(t_receipts);
     t_authz := s.(t_authz); t_config := s.(t_config); t_approvals := s.(t_approvals) |}.
Definition with_identity (i : identity_tables) (s : db) : db :=
  {| signing_keys := s.(signing_keys); t_budget := s.(t_budget); t_grants := s.(t_grants);
     t_intents := s.(t_intents); t_identity := i; t_actions := s.(t_actions);
     t_legacy := s.(t_legacy); t_births := s.(t_births); t_receipts := s.(t_receipts);
     t_authz := s.(t_authz); t_config := s.(t_config); t_approvals := s.(t_approvals) |}.
Definition with_actions (a : action_tables) (s : db) : db :=
  {| signing_keys := s.(signing_keys); t_budget := s.(t_budget); t_grants := s.(t_grants);
     t_intents := s.(t_intents); t_identity := s.(t_identity); t_actions := a;
     t_legacy := s.(t_legacy); t_births := s.(t_births); t_receipts := s.(t_receipts);
     t_authz := s.(t_authz); t_config := s.(t_config); t_approvals := s.(t_approvals) |}.
Definition with_legacy (l : legacy_tables) (s : db) : db :=
  {| signing_keys := s.(signing_keys); t_budget := s.(t_budget); t_grants := s.(t_grants);
     t_intents := s.(t_intents); t_identity := s.(t_identity); t_actions := s.(t_actions);
     t_legacy := l; t_births := s.(t_births); t_receipts := s.(t_receipts);
     t_authz := s.(t_authz); t_config := s.(t_config); t_approvals := s.(t_approvals) |}.
Definition with_births (b : birth_tables) (s : db) : db :=
  {| signing_keys := s.(signing_keys); t_budget := s.(t_budget); t_grants := s.(t_grants);
     t_intents := s.(t_intents); t_identity := s.(t_identity); t_actions := s.(t_actions);
     t_legacy := s.(t_legacy); t_births := b; t_receipts := s.(t_receipts);
     t_authz := s.(t_authz); t_config := s.(t_config); t_approvals := s.(t_approvals) |}.
Definition with_receipts (l : list Receipt) (s : db) : db :=
  {| signing_keys := s.(signing_keys); t_budget := s.(t_budget); t_grants := s.(t_grants);
     t_intents := s.(t_intents); t_identity := s.(t_identity); t_actions := s.(t_actions);
     t_legacy := s.(t_legacy); t_births := s.(t_births); t_receipts := l; t_authz := s.(t_authz);
     t_config := s.(t_config); t_approvals := s.(t_approvals) |}.
Definition with_authz (a : authz_tables) (s : db) : db :=
  {| signing_keys := s.(signing_keys); t_budget := s.(t_budget); t_grants := s.(t_grants);
     t_intents := s.(t_intents); t_identity := s.(t_identity); t_actions := s.(t_actions);
     t_legacy := s.(t_legacy); t_births := s.(t_births); t_receipts := s.(t_receipts);
     t_authz := a; t_config := s.(t_config); t_approvals := s.(t_approvals) |}.
Definition with_config (c : config_tables) (s : db) : db :=
  {| signing_keys := s.(signing_keys); t_budget := s.(t_budget); t_grants := s.(t_grants);
     t_intents := s.(t_intents); t_identity := s.(t_identity); t_actions := s.(t_actions);
     t_legacy := s.(t_legacy); t_births := s.(t_births); t_receipts := s.(t_receipts);
     t_authz := s.(t_authz); t_config := c; t_approvals := s.(t_approvals) |}.
Definition with_approvals (a : approval_tables) (s : db) : db :=
  {| signing_keys := s.(signing_keys); t_budget := s.(t_budget); t_grants := s.(t_grants);
     t_intents := s.(t_intents); t_identity := s.(t_identity); t_actions := s.(t_actions);
     t_legacy := s.(t_legacy); t_births := s.(t_births); t_receipts := s.(t_receipts);
     t_authz := s.(t_authz); t_config := s.(t_config); t_approvals := a |}.

(** ** Transactions *)

Definition Tx (A : Type) : Type := db -> result (A * db).

#[export] Instance tx_ret : MRet Tx := fun A a s => Ok (a, s).
#[export] Instance tx_bind : MBind Tx := fun A B k m s =>
  match m s with Ok (a, s') => k a s' | Err e => Err e end.

Definition raise {A} (e : error) : Tx A := fun _ => Err e.
Definition ask {A} (f : db -> A) : Tx A := fun s => Ok (f s, s).
Definition change (f : db -> db) : Tx unit := fun s => Ok (tt, f s).
Definition require (o : option error) : Tx unit :=
  match o with None => mret tt | Some e => raise e end.
Definition lift {A} (r : result A) : Tx A := match r with Ok a => mret a | Err e => raise e end.

(** A read that must find its row. *)
Definition found {A} (e : error) (o : option A) : Tx A :=
  match o with Some a => mret a | None => raise e end.

(** A whole door: the transaction commits, or the tables stay as they were. *)
Definition commit {A} (m : Tx A) (s : db) : result A * db :=
  match m s with Ok (a, s') => (Ok a, s') | Err e => (Err e, s) end.

Definition ErrNoRows : error := ErrorNew "sql: no rows in result set".
Definition ErrConstraint : error := ErrorNew "constraint failed".
Definition ErrNotFound : error := ErrorNew "action/sqlite: action not found".
Definition ErrSigningKeyRetired : error := ErrorNew "action: signing key retired".
Definition ErrAuthoritySignerUnavailable : error :=
  ErrorNew "action/sqlite: authority signer unavailable".

(** ** The store handle *)

(** The fields of [Store] the authority doors read, and the library functions
    they call: [ed25519.Verify], [time.Parse] with the layout RFC3339Nano, the
    text reader of [time.Time], the working directory, [net/url], the case
    mappings of [strings] and the quoting of [%q].
    [authority] is the profile and the digest an armed store requires. *)
Record Handle := {
  Ed25519_Verify : string -> string -> string -> bool;
  time_Parse : string -> option time;
  time_Unmarshal : string -> option time;
  working_dir : option string;
  url_Parse : string -> option URL;
  url_String : URL -> string;
  url_Hostname : URL -> string;
  strings_ToLower : string -> string;
  strings_EqualFold : string -> string -> bool;
  strconv_Quote : string -> string;
  sealer : option (Receipt -> Receipt);
  authoritySigner : option (string -> string -> AuthoritySignature);
  intentContractSigner : option (IntentContractV2.t -> SignedIntentContractV2);
  intentEventSigner : option (IntentEventV1.t -> SignedIntentEventV1);
  identityEvidenceSigner : option (Evidence.t -> SignedEvidence);
  principalEventSigner : option (PrincipalEvent.t -> SignedPrincipalEvent);
  authorityProfileID : string;
  authorityActivationDigest : string
}.

Section Sealing.
Context (h : Handle).

(** The key as bytes, and whether it is retired. *)
Definition publicKeyTx (id : string) : Tx (string * bool) :=
  keys ← ask signing_keys;
  key ← found ErrNotFound (keys !! id);
  match hex_decode key.(PublicKeyHex) with
  | Some b => if bool_decide (String.length b = PublicKeySize)
              then mret (b, bool_decide (key.(RetiredAt) <> ""))
              else raise ErrIntentEvidenceCorrupt
  | None => raise ErrIntentEvidenceCorrupt
  end.

Definition signAuthorityTx (domain canonical : string) : Tx AuthoritySignature :=
  signer ← found ErrAuthoritySignerUnavailable h.(authoritySigner);
  let seal := signer domain canonical in
  '(pub, retired) ← publicKeyTx seal.(as_SigningKeyID);
  if (retired : bool) then raise ErrSigningKeyRetired
  else require (VerifyAuthorityBytes h.(Ed25519_Verify) pub domain canonical seal);;
  mret seal.

(** A stored row's seal over its canonical bytes, under any failure's name. *)
Definition seal_checks (corrupt : error) (domain canonical : string) (seal : AuthoritySignature)
    : Tx unit :=
  fun s => match publicKeyTx seal.(as_SigningKeyID) s with
           | Ok ((pub, _), _) =>
               match VerifyAuthorityBytes h.(Ed25519_Verify) pub domain canonical seal with
               | None => Ok (tt, s)
               | Some _ => Err corrupt
               end
           | Err _ => Err corrupt
           end.

End Sealing.

(** ** Reasoning about transactions *)

Lemma tx_bind_Ok {A B} (m : Tx A) (k : A -> Tx B) s r :
  (m ≫= k) s = Ok r <-> exists a s', m s = Ok (a, s') /\ k a s' = Ok r.
Proof. unfold mbind, tx_bind. destruct (m s) as [[a s']|e]; naive_solver. Qed.

Lemma tx_ret_Ok {A} (a : A) s r : (mret a : Tx A) s = Ok r <-> r = (a, s).
Proof. unfold mret, tx_ret. naive_solver. Qed.

Lemma raise_Ok {A} e s (r : A * db) : raise e s = Ok r <-> False.
Proof. unfold raise. naive_solver. Qed.

Lemma ask_Ok {A} (f : db -> A) s r : ask f s = Ok r <-> r = (f s, s).
Proof. unfold ask. naive_solver. Qed.

Lemma change_Ok f s r : change f s = Ok r <-> r = (tt, f s).
Proof. unfold change. naive_solver. Qed.

Lemma require_Ok o s r : require o s = Ok r <-> o = None /\ r = (tt, s).
Proof. destruct o; simpl; rewrite ?raise_Ok, ?tx_ret_Ok; naive_solver. Qed.

Lemma require_fail_Ok b e s r : require (fail_if b e) s = Ok r <-> b = false /\ r = (tt, s).
Proof. by rewrite require_Ok, fail_if_None. Qed.

Lemma lift_Ok {A} (x : result A) s r : lift x s = Ok r <-> exists a, x = Ok a /\ r = (a, s).
Proof. destruct x; simpl; rewrite ?raise_Ok, ?tx_ret_Ok; naive_solver. Qed.

Lemma found_Ok {A} e (o : option A) s r : found e o s = Ok r <-> exists a, o = Some a /\ r = (a, s).
Proof. destruct o; simpl; rewrite ?raise_Ok, ?tx_ret_Ok; naive_solver. Qed.

#[export] Hint Rewrite @tx_bind_Ok @tx_ret_Ok @raise_Ok @ask_Ok change_Ok require_Ok @lift_Ok @found_Ok
  : tx.

(** One step of the inversion of a successful transaction. *)
Ltac tx_step :=
  match goal with
  | H : (_ ≫= _) _ = Ok _ |- _ =>
      let a := fresh "a" in let s := fresh "s" in let E := fresh "E" in
      apply tx_bind_Ok in H as (a & s & E & H); cbn beta in H
  | H : (mret _ : Tx _) _ = Ok _ |- _ => apply tx_ret_Ok in H; simplify_eq
  | H : mret _ _ = Ok _ |- _ => apply tx_ret_Ok in H; simplify_eq
  | H : raise _ _ = Ok _ |- _ => apply raise_Ok in H; destruct H
  | H : ask _ _ = Ok _ |- _ => apply ask_Ok in H; simplify_eq
  | H : change _ _ = Ok _ |- _ => apply change_Ok in H; simplify_eq
  | H : require (fail_if _ _) _ = Ok _ |- _ => apply require_fail_Ok in H as [? ?]; simplify_eq
  | H : require _ _ = Ok _ |- _ => apply require_Ok in H as [? ?]; simplify_eq
  | H : lift _ _ = Ok _ |- _ => apply lift_Ok in H as (? & ? & ?); simplify_eq
  | H : found _ _ _ = Ok _ |- _ => apply found_Ok in H as (? & ? & ?); simplify_eq
  end.

(** The passed guards of a door, as propositions. *)
Ltac passed :=
  bools; repeat match goal with H : ~ (_ <> _) |- _ => apply dec_stable in H end.

(** A transaction that only reads. *)
Class Reads {A} (m : Tx A) := reads : forall s a s', m s = Ok (a, s') -> s' = s.
#[export] Hint Mode Reads ! ! : typeclass_instances.

Ltac reads_tac :=
  intros s0 a0 s0'; intros;
  repeat (tx_step || case_match || (simplify_eq/=)); try done.

#[export] Instance reads_ret {A} (a : A) : Reads (mret a : Tx A).
Proof. reads_tac. Qed.
#[export] Instance reads_raise {A} e : Reads (raise e : Tx A).
Proof. reads_tac. Qed.
#[export] Instance reads_ask {A} (f : db -> A) : Reads (ask f).
Proof. reads_tac. Qed.
#[export] Instance reads_require o : Reads (require o).
Proof. reads_tac. Qed.
#[export] Instance reads_lift {A} (r : result A) : Reads (lift r).
Proof. reads_tac. Qed.
#[export] Instance reads_found {A} e (o : option A) : Reads (found e o).
Proof. reads_tac. Qed.
#[export] Instance reads_bind {A B} (m : Tx A) (k : A -> Tx B) :
  Reads m -> (forall a, Reads (k a)) -> Reads (m ≫= k).
Proof.
  intros Hm Hk s b s' (a & s1 & E1 & E2)%tx_bind_Ok.
  apply Hm in E1 as ->. by apply Hk in E2.
Qed.
#[export] Instance reads_if {A} (b : bool) (m n : Tx A) : Reads m -> Reads n -> Reads (if b then m else n).
Proof. by destruct b. Qed.

Ltac solve_reads :=
  repeat first
    [ apply _
    | match goal with |- forall _, _ => intros ? end
    | apply reads_bind
    | case_match ].

#[export] Instance publicKeyTx_reads id : Reads (publicKeyTx id).
Proof. unfold publicKeyTx. solve_reads. Qed.

#[export] Instance signAuthorityTx_reads h domain canonical : Reads (signAuthorityTx h domain canonical).
Proof. unfold signAuthorityTx. solve_reads. Qed.

#[export] Instance seal_checks_reads h corrupt domain canonical seal :
  Reads (seal_checks h corrupt domain canonical seal).
Proof. intros s a s' H. unfold seal_checks in H. repeat case_match; naive_solver. Qed.

Lemma VerifyAuthorityBytes_digest verify pub domain canonical seal :
  VerifyAuthorityBytes verify pub domain canonical seal = None ->
  seal.(as_Digest) = digestAuthorityBytes canonical.
Proof.
  unfold VerifyAuthorityBytes. case_match eqn:E; [done|]. intros _.
  apply orb_false_iff in E as [E _]. apply bool_decide_eq_false in E. by apply dec_stable.
Qed.

(** A sealed object's digest is recomputed before it is written. *)
Lemma signAuthorityTx_digest h domain canonical s seal s' :
  signAuthorityTx h domain canonical s = Ok (seal, s') ->
  seal.(as_Digest) = digestAuthorityBytes canonical
  /\ is_Some (s.(signing_keys) !! seal.(as_SigningKeyID)) /\ s' = s.
Proof.
  intros H. pose proof (reads _ _ _ H) as ->. unfold signAuthorityTx in H.
  apply tx_bind_Ok in H as (signer & s1 & E1 & H). apply found_Ok in E1 as (? & _ & [= <- <-]).
  apply tx_bind_Ok in H as ([pub retired] & s2 & E2 & H).
  pose proof (reads _ _ _ E2) as ->. unfold publicKeyTx in E2.
  destruct retired; repeat tx_step. cbn beta in *.
  split_and!; [|by eexists|done].
  by match goal with V : VerifyAuthorityBytes _ _ _ _ _ = None |- _ =>
    apply VerifyAuthorityBytes_digest in V end.
Qed.

Lemma wrap64_succ z : int64_range z -> 0 <= z -> 0 <= wrap64 (z + 1) -> wrap64 (z + 1) = z + 1.
Proof.
  intros Hz H0 Hw. destruct (decide (z = 9223372036854775807)) as [->|N].
  - exfalso. vm_compute in Hw. by destruct Hw.
  - apply wrap64_small. unfold int64_range in *. lia.
Qed.

(** The fields of a flat struct, one by one. *)
Ltac typed_slots :=
  unfold typed;
  repeat first
    [ apply Forall2_nil_2
    | apply Forall2_cons_2; [split; [reflexivity|cbn [slot_ok]; assumption]|] ].

(** ** Seals that check *)

(** The seal verifies under a registered key of the right size. *)
Definition sealed (h : Handle) (keys : gmap string SigningKey) (domain canonical : string)
    (seal : AuthoritySignature) : Prop :=
  exists key b, keys !! seal.(as_SigningKeyID) = Some key /\ hex_decode key.(PublicKeyHex) = Some b
    /\ String.length b = PublicKeySize
    /\ VerifyAuthorityBytes h.(Ed25519_Verify) b domain canonical seal = None.

(** The wired signer signs with an active registered key. *)
Definition signer_works (h : Handle) (keys : gmap string SigningKey) : Prop :=
  exists signer, h.(authoritySigner) = Some signer
    /\ forall domain canonical, sealed h keys domain canonical (signer domain canonical)
         /\ forall key, keys !! (signer domain canonical).(as_SigningKeyID) = Some key ->
              key.(RetiredAt) = "".

Lemma publicKeyTx_at keys id key b s : s.(signing_keys) = keys -> keys !! id = Some key ->
  hex_decode key.(PublicKeyHex) = Some b -> String.length b = PublicKeySize ->
  publicKeyTx id s = Ok ((b, bool_decide (key.(RetiredAt) <> "")), s).
Proof.
  intros <- Hk Hb Hl. unfold publicKeyTx, ask, mbind, tx_bind. rewrite Hk. simpl. rewrite Hb.
  by rewrite bool_decide_true.
Qed.

Lemma seal_checks_sealed h s e domain canonical seal :
  sealed h s.(signing_keys) domain canonical seal -> seal_checks h e domain canonical seal s = Ok (tt, s).
Proof.
  intros (key & b & Hk & Hb & Hl & Hv). unfold seal_checks.
  rewrite (publicKeyTx_at _ _ _ _ s eq_refl Hk Hb Hl). by rewrite Hv.
Qed.

Lemma signAuthorityTx_works h s domain canonical : signer_works h s.(signing_keys) ->
  exists seal, signAuthorityTx h domain canonical s = Ok (seal, s)
    /\ sealed h s.(signing_keys) domain canonical seal.
Proof.
  intros (signer & Hs & Hw). destruct (Hw domain canonical) as [Hv Ha].
  exists (signer domain canonical). split; [|done].
  destruct Hv as (key & b & Hk & Hb & Hl & Hv). unfold signAuthorityTx. rewrite Hs.
  unfold found, mbind, tx_bind. simpl. unfold mret, tx_ret.
  rewrite (publicKeyTx_at _ _ _ _ s eq_refl Hk Hb Hl).
  rewrite bool_decide_false by (rewrite (Ha _ Hk); tauto). by rewrite Hv.
Qed.

Lemma signAuthorityTx_sealed h s domain canonical seal s' :
  signAuthorityTx h domain canonical s = Ok (seal, s') -> sealed h s.(signing_keys) domain canonical seal.
Proof.
  intros H. unfold signAuthorityTx in H.
  apply tx_bind_Ok in H as (signer & s1 & E1 & H). apply found_Ok in E1 as (? & _ & [= <- <-]).
  apply tx_bind_Ok in H as ([pub retired] & s2 & E2 & H). unfold publicKeyTx in E2.
  destruct retired; [by apply raise_Ok in H|].
  apply tx_bind_Ok in H as ([] & s3 & E3 & H). apply require_Ok in E3 as [Hv _].
  apply tx_ret_Ok in H as [= -> ->].
  apply tx_bind_Ok in E2 as (keys & s4 & E4 & E2). apply ask_Ok in E4 as [= -> ->].
  apply tx_bind_Ok in E2 as (key & s4 & E4 & E2). apply found_Ok in E4 as (key' & Hk & [= -> ->]).
  destruct (hex_decode _) as [b|] eqn:Hb; [|by apply raise_Ok in E2].
  case_bool_decide as Hl; [|by apply raise_Ok in E2]. apply tx_ret_Ok in E2 as [= -> _ _].
  by exists key', b.
Qed.

Lemma digestAuthorityBytes_utf8 raw : utf8 (digestAuthorityBytes raw).
Proof.
  apply ascii_only_utf8. unfold digestAuthorityBytes, pinned.
  rewrite ascii_only_app, hex_encode_ascii. done.
Qed.

(** ** A handle to run the doors with *)

Definition toy_signer (key domain canonical : string) : AuthoritySignature :=
  SignAuthorityBytes string (fun k => k) toy_sign key domain canonical.

Definition toy_handle (ts : list time) : Handle :=
  {| Ed25519_Verify := toy_verify; time_Parse := recall_times ts; time_Unmarshal := recall_times ts;
     working_dir := None; url_Parse := fun _ => None; url_String := fun _ => EmptyString;
     url_Hostname := fun _ => EmptyString; strings_ToLower := fun s => s;
     strings_EqualFold := fun a b => bool_decide (a = b);
     strconv_Quote := fun s => String (Ascii.ascii_of_nat 34) (s +:+ String (Ascii.ascii_of_nat 34) "");
     sealer := None;
     authoritySigner := Some (toy_signer example_key);
     intentContractSigner :=
       Some (SignIntentContractV2 string (fun k => k) toy_sign example_key);
     intentEventSigner := Some (SignIntentEventV1 string (fun k => k) toy_sign example_key);
     identityEvidenceSigner :=
       Some (SignEvidence (recall_times ts) string (fun k => k) toy_sign example_key);
     principalEventSigner :=
       Some (SignPrincipalEvent (recall_times ts) string (fun k => k) toy_sign example_key);
     authorityProfileID := EmptyString; authorityActivationDigest := EmptyString |}.

Definition toy_keys : gmap string SigningKey :=
  {[ DeriveSigningKeyID example_key :=
       {| PublicKeyHex := hex_encode example_key; RetiredAt := "" |} ]}.

Lemma toy_signer_works ts : signer_works (toy_handle ts) toy_keys.
Proof.
  exists (toy_signer example_key). split; [done|]. intros domain canonical. split.
  - exists {| PublicKeyHex := hex_encode example_key; RetiredAt := "" |}, example_key.
    unfold toy_signer, toy_keys. cbn [SignAuthorityBytes as_SigningKeyID PublicKeyHex].
    rewrite lookup_singleton_eq. split_and!; [done|apply hex_decode_encode|done|].
    unfold VerifyAuthorityBytes. cbn [SignAuthorityBytes as_SigningKeyID as_Digest as_Signature].
    rewrite !bool_decide_false by tauto. cbn [orb]. rewrite hex_decode_encode.
    cbn [toy_handle Ed25519_Verify]. unfold toy_verify, toy_sign. by rewrite bool_decide_true.
  - intros key. unfold toy_signer, toy_keys. cbn [SignAuthorityBytes as_SigningKeyID].
    rewrite lookup_singleton_eq. by intros [= <-].
Qed.

Definition empty_budget : budget_tables := {| accounts := ∅; counters := ∅; debits := [] |}.

Definition empty_db : db :=
  {| signing_keys := toy_keys; t_budget := empty_budget;
     t_grants := {| grant_versions := ∅; grant_events := []; grant_heads := ∅ |};
     t_intents := {| intent_versions := ∅; intent_events := []; intent_heads := ∅; bindings := [] |};
     t_identity := {| principals := ∅; principal_events := []; principal_bindings := ∅;
                      identity_evidence := ∅ |};
     t_actions := {| actions := ∅; decisions := ∅; legacy_evidence := ∅ |};
     t_legacy := {| legacy_grants := ∅; budget_spent := ∅; legacy_imports := ∅;
                 intent_digests := ∅ |};
     t_births := {| birth_heads := ∅; birth_events := [] |}; t_receipts := [];
     t_authz := {| starts := ∅; snapshots := ∅ |};
     t_config := {| clause_rows := ∅; config_heads := ∅ |};
     t_approvals := {| approvals := ∅; tombstones := ∅ |} |}.
