(* ===== verification/StoreBudget.v ===== *)
(** * Budget accounts: signed debits under one counter per operation

    [internal/action/sqlite/authority_v2.go]: the accounts of intents, grants
    and config clauses, the counters, and the chain of signed debit rows each
    counter is the head of. *)

From S2P Require Import Prelude Kernel Grants Json Text Encoding Digests Wire Struct Receipts Intents Authority Tables.
From Stdlib Require Import Ascii String.
Local Open Scope Z_scope.
Local Open Scope korvun_scope.
#[local] Arguments String.append !_ _ : simpl nomatch.

Definition authorityDebitDomain : string := "korvun.authority-debit.v1".
Definition authorityBudgetHeadDomain : string := "korvun.authority-budget-head.v1".

Definition ErrBudgetExhausted : error := ErrorNew "action/sqlite: authority budget exhausted".
Definition ErrBudgetEvidenceCorrupt : error := ErrorNew "action/sqlite: budget evidence corrupt".

(** [json.Unmarshal] into a flat struct. *)
Definition unmarshal (sch : schema) (raw : string) : option (list slot) :=
  match parse raw with Some v => decode_struct false sch v | None => None end.

(** ** Canonical records *)

Record authorityDebitRecord := {
  dr_ActionID : string;
  dr_AccountID : string;
  dr_Operation : string;
  dr_Sequence : Z;
  dr_Cumulative : Z;
  dr_Previous : string;
  dr_At : string
}.

Definition debit_schema : schema :=
  [("ActionID", KString); ("AccountID", KString); ("Operation", KString); ("Sequence", KInt);
   ("Cumulative", KInt); ("Previous", KString); ("At", KString)].

Definition debit_json (r : authorityDebitRecord) : string :=
  marshal debit_schema
    [SString r.(dr_ActionID); SString r.(dr_AccountID); SString r.(dr_Operation);
     SInt r.(dr_Sequence); SInt r.(dr_Cumulative); SString r.(dr_Previous); SString r.(dr_At)].

Definition debit_of_json (raw : string) : option authorityDebitRecord :=
  match unmarshal debit_schema raw with
  | Some [SString a; SString b; SString c; SInt d; SInt e; SString f; SString g] =>
      Some {| dr_ActionID := a; dr_AccountID := b; dr_Operation := c; dr_Sequence := d;
              dr_Cumulative := e; dr_Previous := f; dr_At := g |}
  | _ => None
  end.

Definition canonicalAuthorityDebit (actionID accountID operation : string) (sequence cumulative : Z)
    (previous : string) (at_ : time) : string :=
  debit_json {| dr_ActionID := actionID; dr_AccountID := accountID; dr_Operation := operation;
                dr_Sequence := sequence; dr_Cumulative := cumulative; dr_Previous := previous;
                dr_At := rfc3339 at_ |}.

Record authorityBudgetHead := {
  bh_AccountID : string;
  bh_OperationKey : string;
  bh_Spent : Z;
  bh_Sequence : Z;
  bh_TailDigest : string
}.

Definition head_json (r : authorityBudgetHead) : string :=
  marshal [("account_id", KString); ("operation_key", KString); ("spent", KInt);
           ("sequence", KInt); ("tail_digest", KString)]
    [SString r.(bh_AccountID); SString r.(bh_OperationKey); SInt r.(bh_Spent);
     SInt r.(bh_Sequence); SString r.(bh_TailDigest)].

(** ** Accounts *)

Definition budgetAccountID (profile kind scope : string) : string :=
  HashCanonical (profile +:+ String (byte 0) (kind +:+ String (byte 0) scope)).

(** A [map[string]int64], nil included, with its keys in order. *)
Definition perOperationJSON (m : option (gmap string Z)) : string :=
  print match m with
        | None => VNull
        | Some m => canon (VObject (map (fun p => (p.1, num p.2)) (map_to_list m)))
        end.

Definition per_operation (raw : string) : option (gmap string Z) :=
  match parse raw with
  | Some VNull => Some ∅
  | Some (VObject ms) => int64_members ms ∅
  | _ => None
  end.

Definition same_scope (a b : account_row) : bool :=
  bool_decide (a.(ac_profile) = b.(ac_profile) /\ a.(ac_kind) = b.(ac_kind)
               /\ a.(ac_scope) = b.(ac_scope)).

(** [INSERT OR IGNORE]: the key and the unique scope. *)
Definition insert_account (id : string) (row : account_row) (t : budget_tables) : budget_tables :=
  if bool_decide (is_Some (t.(accounts) !! id))
     || existsb (fun p => same_scope p.2 row) (map_to_list t.(accounts))
  then t
  else {| accounts := <[id := row]> t.(accounts); counters := t.(counters); debits := t.(debits) |}.

Definition ensureBudgetAccountTx (profile kind scope : string) (budget : IntentBudgetV2.t) (at_ : time)
    : Tx unit :=
  let accountID := budgetAccountID profile kind scope in
  let row := {| ac_profile := profile; ac_kind := kind; ac_scope := scope;
                ac_max_total := budget.(IntentBudgetV2.Total);
                ac_per_operation := perOperationJSON budget.(IntentBudgetV2.PerOperation);
                ac_created := rfc3339 at_ |} in
  change (fun s => with_budget (insert_account accountID row s.(t_budget)) s);;
  t ← ask t_budget;
  stored ← found ErrNoRows (t.(accounts) !! accountID);
  require (fail_if (negb (same_scope stored row)
                    || bool_decide (stored.(ac_max_total) <> budget.(IntentBudgetV2.Total))
                    || bool_decide (stored.(ac_per_operation) <> row.(ac_per_operation)))
             ErrBudgetEvidenceCorrupt).

(** ** Counters and debits *)

Definition counterTx (account operation : string) : Tx (Z * Z * string) :=
  t ← ask t_budget;
  mret match t.(counters) !! (account, operation) with
       | Some c => (c.(ct_spent), c.(ct_sequence), c.(ct_tail))
       | None => (0, 0, "")
       end.

Definition on_account (account operation : string) (r : debit_row) : bool :=
  bool_decide (r.(db_account) = account /\ r.(db_operation) = operation).

Definition rows_of (account operation : string) (l : list debit_row) : list debit_row :=
  filter (fun r => on_account account operation r = true) l.

(** [ORDER BY sequence DESC LIMIT 1]. *)
Fixpoint last_debit (l : list debit_row) : option debit_row :=
  match l with
  | [] => None
  | r :: l' => match last_debit l' with
               | Some b => if b.(db_sequence) <? r.(db_sequence) then Some r else Some b
               | None => Some r
               end
  end.

Section Doors.
Context (h : Handle).

Definition verifyDebitTailTx (account operation : string) (spent sequence : Z) (tail : string)
    : Tx unit :=
  t ← ask t_budget;
  let rows := rows_of account operation t.(debits) in
  if bool_decide (sequence = 0) then
    require (fail_if (bool_decide (spent <> 0) || bool_decide (tail <> "")) ErrBudgetEvidenceCorrupt);;
    require (fail_if (bool_decide (List.length rows <> 0%nat)) ErrBudgetEvidenceCorrupt)
  else
    row ← found ErrBudgetEvidenceCorrupt (last_debit rows);
    record ← found ErrBudgetEvidenceCorrupt (debit_of_json row.(db_canonical));
    require (fail_if (bool_decide (record.(dr_ActionID) <> row.(db_action))
                      || bool_decide (record.(dr_AccountID) <> account)
                      || bool_decide (record.(dr_Operation) <> operation)
                      || bool_decide (record.(dr_Sequence) <> row.(db_sequence))
                      || bool_decide (record.(dr_Cumulative) <> row.(db_cumulative))
                      || bool_decide (record.(dr_Previous) <> row.(db_previous))
                      || bool_decide (row.(db_sequence) <> sequence)
                      || bool_decide (row.(db_cumulative) <> spent)
                      || bool_decide (row.(db_seal).(as_Digest) <> tail)
                      || bool_decide (row.(db_canonical) <> debit_json record))
               ErrBudgetEvidenceCorrupt);;
    require (fail_if (bool_decide (h.(time_Parse) record.(dr_At) = None)) ErrBudgetEvidenceCorrupt);;
    seal_checks h ErrBudgetEvidenceCorrupt authorityDebitDomain row.(db_canonical) row.(db_seal);;
    counter ← found ErrBudgetEvidenceCorrupt (t.(counters) !! (account, operation));
    let head := {| bh_AccountID := account; bh_OperationKey := operation; bh_Spent := spent;
                   bh_Sequence := sequence; bh_TailDigest := tail |} in
    _ ← seal_checks h ErrBudgetEvidenceCorrupt authorityBudgetHeadDomain counter.(ct_canonical)
          counter.(ct_seal);
    require (fail_if (bool_decide (counter.(ct_canonical) <> head_json head)) ErrBudgetEvidenceCorrupt).

(** The table's primary key, its unique sequence index and its references. *)
Definition debit_conflict (a b : debit_row) : bool :=
  bool_decide (a.(db_account) = b.(db_account) /\ a.(db_operation) = b.(db_operation)
               /\ (a.(db_action) = b.(db_action) \/ a.(db_sequence) = b.(db_sequence))).

Definition insert_debit (row : debit_row) : Tx unit :=
  t ← ask t_budget;
  keys ← ask signing_keys;
  require (fail_if (existsb (debit_conflict row) t.(debits)
                    || bool_decide (t.(accounts) !! row.(db_account) = None)
                    || bool_decide (keys !! row.(db_seal).(as_SigningKeyID) = None)) ErrConstraint);;
  change (with_budget {| accounts := t.(accounts); counters := t.(counters);
                         debits := row :: t.(debits) |}).

Definition upsertBudgetCounterTx (account operation : string) (spent sequence : Z) (tail : string)
    : Tx unit :=
  let canonical := head_json {| bh_AccountID := account; bh_OperationKey := operation;
                                bh_Spent := spent; bh_Sequence := sequence; bh_TailDigest := tail |} in
  seal ← signAuthorityTx h authorityBudgetHeadDomain canonical;
  t ← ask t_budget;
  require (fail_if ((spent <? 0) || (sequence <? 0)
                    || bool_decide (t.(accounts) !! account = None)) ErrConstraint);;
  change (with_budget
    {| accounts := t.(accounts);
       counters := <[(account, operation) :=
                     {| ct_spent := spent; ct_sequence := sequence; ct_tail := tail;
                        ct_canonical := canonical; ct_seal := seal |}]> t.(counters);
       debits := t.(debits) |}).

Definition debitRowTx (actionID account operation : string) (sequence cumulative : Z)
    (previous : string) (at_ : time) : Tx unit :=
  let canonical := canonicalAuthorityDebit actionID account operation sequence cumulative previous at_ in
  seal ← signAuthorityTx h authorityDebitDomain canonical;
  insert_debit {| db_action := actionID; db_account := account; db_operation := operation;
                  db_sequence := sequence; db_previous := previous; db_cumulative := cumulative;
                  db_canonical := canonical; db_seal := seal |};;
  upsertBudgetCounterTx account operation cumulative sequence seal.(as_Digest).

Definition appendDebitTx (actionID account operation : string) (spent sequence : Z) (tail : string)
    (at_ : time) : Tx unit :=
  debitRowTx actionID account operation (wrap64 (sequence + 1)) (wrap64 (spent + 1)) tail at_.

Definition account_terms (account : string) : Tx (option Z * gmap string Z) :=
  t ← ask t_budget;
  row ← found ErrNoRows (t.(accounts) !! account);
  per ← found ErrBudgetEvidenceCorrupt (per_operation row.(ac_per_operation));
  mret (row.(ac_max_total), per).

(** The smaller of two limits, where [None] is no limit. *)
Definition min_remaining (a b : option Z) : option Z :=
  match a, b with
  | Some x, Some y => if y <? x then Some y else Some x
  | None, _ => b
  | _, None => a
  end.

Definition debitAccountTx (actionID account opKey : string) (at_ : time) : Tx (option Z) :=
  '(maxTotal, per) ← account_terms account;
  '(totalSpent, totalSeq, totalTail) ← counterTx account "*";
  verifyDebitTailTx account "*" totalSpent totalSeq totalTail;;
  let remaining := (fun m => wrap64 (m - totalSpent)) <$> maxTotal in
  require (fail_if (match remaining with Some v => v <=? 0 | None => false end) ErrBudgetExhausted);;
  appendDebitTx actionID account "*" totalSpent totalSeq totalTail at_;;
  match per !! opKey with
  | None => mret remaining
  | Some maximum =>
      '(spent, seq, tail) ← counterTx account opKey;
      verifyDebitTailTx account opKey spent seq tail;;
      require (fail_if (maximum <=? spent) ErrBudgetExhausted);;
      appendDebitTx actionID account opKey spent seq tail at_;;
      mret (min_remaining remaining (Some (wrap64 (maximum - spent))))
  end.

(** One limit against its verified counter. *)
Definition left_of (account operation : string) (maximum : Z) : Tx Z :=
  '(spent, sequence, tail) ← counterTx account operation;
  verifyDebitTailTx account operation spent sequence tail;;
  let value := wrap64 (maximum - spent) in
  require (fail_if (value <? 0) ErrBudgetEvidenceCorrupt);;
  mret value.

Definition left_total (account : string) (maxTotal : option Z) : Tx (option Z) :=
  match maxTotal with
  | None => mret None
  | Some m => v ← left_of account "*" m; mret (Some v)
  end.

Definition remainingBeforeAccountTx (account operation : string) : Tx (option Z) :=
  '(maxTotal, per) ← account_terms account;
  total ← left_total account maxTotal;
  match per !! operation with
  | None => mret total
  | Some maximum => value ← left_of account operation maximum;
                    mret (min_remaining total (Some value))
  end.

(** The loop over a grant's own limits, in any order of its map. *)
Fixpoint left_per_operation (account : string) (ops : list (string * Z)) : Tx (gmap string Z) :=
  match ops with
  | [] => mret ∅
  | (op, maximum) :: rest =>
      value ← left_of account op maximum;
      others ← left_per_operation account rest;
      mret (<[op := value]> others)
  end.

Definition remainingForGrantTx (grant : AuthorityGrantV2.t) : Tx AuthorityBudgetRemaining :=
  let account := budgetAccountID grant.(AuthorityGrantV2.ProfileID) "grant" grant.(AuthorityGrantV2.GrantID) in
  '(spent, sequence, tail) ← counterTx account "*";
  verifyDebitTailTx account "*" spent sequence tail;;
  total ← match grant.(AuthorityGrantV2.Budget).(IntentBudgetV2.Total) with
          | None => mret None
          | Some m => let v := wrap64 (m - spent) in
                      require (fail_if (v <? 0) ErrBudgetEvidenceCorrupt);; mret (Some v)
          end;
  per ← left_per_operation account
    (map_to_list (IntentBudgetV2.per grant.(AuthorityGrantV2.Budget)));
  mret {| br_Total := total; br_PerOperation := per |}.

(** The consumption an imported grant starts with, as its first debit. *)
Definition insertLegacyBaselineTx (actorActionID account operation : string) (spent : Z) (at_ : time)
    : Tx unit :=
  if spent <=? 0 then mret tt
  else
    remaining ← remainingBeforeAccountTx account operation;
    require (fail_if (match remaining with Some v => v <? spent | None => false end) ErrBudgetExhausted);;
    debitRowTx actorActionID account operation 1 spent "" at_.

(** The debits of one start: every account in order. *)
Fixpoint debit_accounts (actionID opKey : string) (at_ : time) (ids : list string)
    : Tx (list (option Z)) :=
  match ids with
  | [] => mret []
  | account :: rest =>
      before ← debitAccountTx actionID account opKey at_;
      others ← debit_accounts actionID opKey at_ rest;
      mret (before :: others)
  end.

End Doors.

(** ** The ledger behind the counters *)

Definition spent_of (l : list debit_row) : Z := match l with [] => 0 | r :: _ => r.(db_cumulative) end.
Definition tail_of (l : list debit_row) : string :=
  match l with [] => "" | r :: _ => r.(db_seal).(as_Digest) end.
Definition length_of (l : list debit_row) : Z := Z.of_nat (List.length l).

(** One account and operation, newest first: numbered from 1, growing, each
    row naming the digest of the one before it. *)
Inductive chained : list debit_row -> Prop :=
| chained_nil : chained []
| chained_cons r l :
    chained l -> r.(db_sequence) = length_of (r :: l) -> r.(db_previous) = tail_of l ->
    spent_of l < r.(db_cumulative) -> int64_range r.(db_sequence) -> int64_range r.(db_cumulative) ->
    chained (r :: l).

Definition cap_of (row : account_row) (operation : string) : option Z :=
  if bool_decide (operation = "*") then row.(ac_max_total)
  else match per_operation row.(ac_per_operation) with Some m => m !! operation | None => None end.

Definition rows (t : budget_tables) (k : string * string) : list debit_row :=
  rows_of k.1 k.2 t.(debits).

Definition spent (t : budget_tables) (account operation : string) : Z :=
  spent_of (rows t (account, operation)).

Definition counter_values (c : counter_row) : Z * Z * string :=
  (c.(ct_spent), c.(ct_sequence), c.(ct_tail)).

Record ledger_sound (t : budget_tables) : Prop := {
  ls_chain : forall k, chained (rows t k);
  ls_head : forall k, counter_values <$> (t.(counters) !! k) =
    match rows t k with
    | [] => None
    | l => Some (spent_of l, length_of l, tail_of l)
    end;
  ls_account : forall k, rows t k <> [] -> is_Some (t.(accounts) !! k.1);
  ls_typed : forall id row m, t.(accounts) !! id = Some row -> row.(ac_max_total) = Some m -> int64_range m;
  ls_cap : forall id row o m, t.(accounts) !! id = Some row -> cap_of row o = Some m ->
    spent t id o <= Z.max 0 m
}.

Lemma spent_nonneg l : chained l -> 0 <= spent_of l.
Proof. induction 1; simpl; lia. Qed.

Lemma chained_range l : chained l -> int64_range (spent_of l) /\ int64_range (length_of l).
Proof.
  destruct 1 as [|r l Hl Hs Hp Hc Hr1 Hr2]; [unfold length_of, int64_range; simpl; lia|].
  rewrite <- Hs. done.
Qed.

Lemma chained_first l : chained l -> l <> [] -> exists r, r ∈ l /\ r.(db_sequence) = 1.
Proof.
  induction 1 as [|r l Hl IH Hs _ _ _ _]; [done|intros _].
  destruct l as [|r' l]; [exists r; split; [by left|done]|].
  destruct IH as (x & Hx & E); [done|]. exists x. split; [by right|done].
Qed.

Lemma int64_members_range ms m m' :
  int64_members ms m = Some m' ->
  (forall k z, m !! k = Some z -> int64_range z) -> forall k z, m' !! k = Some z -> int64_range z.
Proof.
  revert m. induction ms as [|[k v] ms IH]; intros m; [simpl; intros [= <-]; done|].
  destruct v as [|b|lit|s|l|l]; cbn [int64_members]; try done.
  - intros H Hm. apply (IH _ H). intros k' z [[<- <-]|[_ Hk]]%lookup_insert_Some; [done|by eapply Hm].
  - destruct (parse_int64 lit) as [z0|] eqn:El; [|done]. intros H Hm.
    apply (IH _ H). intros k' z [[<- <-]|[_ Hk]]%lookup_insert_Some; [|by eapply Hm].
    unfold parse_int64 in El. repeat case_match; simplify_eq; by bools.
Qed.

Lemma per_operation_range raw m k z :
  per_operation raw = Some m -> m !! k = Some z -> int64_range z.
Proof.
  unfold per_operation. destruct (parse raw) as [[]|]; try done.
  - intros [= <-]. by rewrite lookup_empty.
  - intros H. eapply (int64_members_range _ _ _ H). intros k' z'. by rewrite lookup_empty.
Qed.

Lemma cap_range t id row o m : ledger_sound t -> t.(accounts) !! id = Some row ->
  cap_of row o = Some m -> int64_range m.
Proof.
  intros Ht Hid. unfold cap_of. case_bool_decide; [by eapply ls_typed|].
  destruct (per_operation _) eqn:E; [|done]. intros Ho. by eapply per_operation_range.
Qed.

(** A new row in front of its own chain, and its counter. *)
Definition push (row : debit_row) (c : counter_row) (t : budget_tables) : budget_tables :=
  {| accounts := t.(accounts); counters := <[(row.(db_account), row.(db_operation)) := c]> t.(counters);
     debits := row :: t.(debits) |}.

Lemma rows_push row c t k :
  rows (push row c t) k =
  if bool_decide (k = (row.(db_account), row.(db_operation))) then row :: rows t k else rows t k.
Proof.
  unfold rows, rows_of, push. cbn [debits]. rewrite filter_cons. unfold on_account.
  destruct k as [a o]. cbn [fst snd]. repeat case_decide; repeat case_bool_decide; naive_solver.
Qed.

Lemma rows_push_same row c t a o : row.(db_account) = a -> row.(db_operation) = o ->
  rows (push row c t) (a, o) = row :: rows t (a, o).
Proof. intros <- <-. by rewrite rows_push, bool_decide_true. Qed.

Lemma rows_push_other row c t k : k <> (row.(db_account), row.(db_operation)) ->
  rows (push row c t) k = rows t k.
Proof. intros. by rewrite rows_push, bool_decide_false. Qed.

Lemma push_sound row c t :
  let k := (row.(db_account), row.(db_operation)) in
  ledger_sound t -> chained (row :: rows t k) ->
  counter_values c = (row.(db_cumulative), row.(db_sequence), row.(db_seal).(as_Digest)) ->
  (exists r, t.(accounts) !! row.(db_account) = Some r
     /\ forall m, cap_of r row.(db_operation) = Some m -> row.(db_cumulative) <= Z.max 0 m) ->
  ledger_sound (push row c t).
Proof.
  intros k Ht Hc Hv (ar & Har & Hcap). split.
  - intros k'. rewrite rows_push. case_bool_decide as E; [by subst k'|]. apply Ht.
  - intros k'. rewrite rows_push. unfold push. cbn [counters]. case_bool_decide as E.
    + subst k'. rewrite lookup_insert_eq. simpl. rewrite Hv. inversion Hc; subst.
      by match goal with E : db_sequence _ = _ |- _ => rewrite E end.
    + rewrite lookup_insert_ne by done. apply Ht.
  - intros k'. rewrite rows_push. cbn [push accounts]. case_bool_decide as E; [|apply Ht].
    subst k'. cbn [fst]. by eexists.
  - apply Ht.
  - intros id r o m Hid Ho. cbn [push accounts] in Hid. unfold spent. rewrite rows_push.
    case_bool_decide as E; [|by eapply ls_cap]. injection E as -> ->. simplify_eq. by apply Hcap.
Qed.

(** ** What the doors do to a sound ledger *)

#[export] Instance counterTx_reads a o : Reads (counterTx a o).
Proof. unfold counterTx. solve_reads. Qed.
#[export] Instance verifyDebitTailTx_reads h a o sp sq tl : Reads (verifyDebitTailTx h a o sp sq tl).
Proof. unfold verifyDebitTailTx. solve_reads. Qed.
#[export] Instance account_terms_reads a : Reads (account_terms a).
Proof. unfold account_terms. solve_reads. Qed.
#[export] Instance left_of_reads h a o m : Reads (left_of h a o m).
Proof. unfold left_of. solve_reads. Qed.
#[export] Instance left_total_reads h a m : Reads (left_total h a m).
Proof. unfold left_total. solve_reads. Qed.
#[export] Instance remainingBeforeAccountTx_reads h a o : Reads (remainingBeforeAccountTx h a o).
Proof. unfold remainingBeforeAccountTx. solve_reads. Qed.
#[export] Instance left_per_operation_reads h a l : Reads (left_per_operation h a l).
Proof. induction l as [|[op m] l IH]; simpl; solve_reads. Qed.
#[export] Instance remainingForGrantTx_reads h g : Reads (remainingForGrantTx h g).
Proof. unfold remainingForGrantTx. solve_reads. Qed.

Lemma counterTx_sound a o s : ledger_sound s.(t_budget) ->
  counterTx a o s = Ok ((spent s.(t_budget) a o, length_of (rows s.(t_budget) (a, o)),
                         tail_of (rows s.(t_budget) (a, o))), s).
Proof.
  intros Hs. unfold counterTx, spent. pose proof (ls_head _ Hs (a, o)) as Hh.
  change ((ask t_budget ≫= _) s) with
    (@Ok (Z * Z * string * db)
       (match s.(t_budget).(counters) !! (a, o) with
        | Some c => (c.(ct_spent), c.(ct_sequence), c.(ct_tail)) | None => (0, 0, "") end, s)).
  do 2 f_equal. destruct (rows _ _) as [|r l]; destruct (counters _ !! _) as [c|]; try done.
  by injection Hh as -> -> ->.
Qed.

Lemma account_terms_Ok a s p s' : account_terms a s = Ok (p, s') ->
  exists row per, s.(t_budget).(accounts) !! a = Some row
    /\ per_operation row.(ac_per_operation) = Some per /\ p = (row.(ac_max_total), per) /\ s' = s.
Proof. unfold account_terms. intros. repeat tx_step. eauto 10. Qed.

Lemma cap_of_op row per o : per_operation row.(ac_per_operation) = Some per -> o <> "*" ->
  cap_of row o = per !! o.
Proof. intros E N. unfold cap_of. by rewrite bool_decide_false, E. Qed.

Lemma cap_of_total row : cap_of row "*" = row.(ac_max_total).
Proof. done. Qed.

Ltac budget_cbn :=
  cbn [t_budget t_grants t_intents signing_keys with_budget accounts counters debits push
       db_action db_account db_operation db_sequence db_previous db_cumulative db_canonical db_seal
       ct_spent ct_sequence ct_tail ct_canonical ct_seal counter_values] in *.

(** The effect of one signed debit row. *)
Lemma debitRowTx_Ok h act a o sq cum prev at_ s s' :
  debitRowTx h act a o sq cum prev at_ s = Ok (tt, s') ->
  exists row c,
    row.(db_action) = act /\ row.(db_account) = a /\ row.(db_operation) = o
    /\ row.(db_sequence) = sq /\ row.(db_cumulative) = cum /\ row.(db_previous) = prev
    /\ row.(db_canonical) = canonicalAuthorityDebit act a o sq cum prev at_
    /\ row.(db_seal).(as_Digest) = digestAuthorityBytes row.(db_canonical)
    /\ counter_values c = (cum, sq, row.(db_seal).(as_Digest))
    /\ existsb (debit_conflict row) s.(t_budget).(debits) = false
    /\ is_Some (s.(t_budget).(accounts) !! a) /\ 0 <= sq /\ 0 <= cum
    /\ s' = with_budget (push row c s.(t_budget)) s.
Proof.
  unfold debitRowTx. intros H.
  apply tx_bind_Ok in H as (seal & s1 & E1 & H). apply signAuthorityTx_digest in E1 as (Ed & _ & ->).
  apply tx_bind_Ok in H as ([] & s2 & E2 & H). unfold insert_debit in E2. repeat tx_step.
  unfold upsertBudgetCounterTx in H.
  apply tx_bind_Ok in H as (seal2 & s3 & E3 & H). apply signAuthorityTx_digest in E3 as (_ & _ & ->).
  repeat tx_step. bools. budget_cbn.
  eexists (Build_debit_row _ _ _ _ _ _ _ _), (Build_counter_row _ _ _ _ _).
  budget_cbn. split_and!; try reflexivity; try done.
  by apply not_eq_None_Some.
Qed.

(** A row that continues its chain under its cap keeps the ledger sound. *)
Lemma debitRowTx_sound h act a o cum at_ s s' :
  ledger_sound s.(t_budget) ->
  debitRowTx h act a o (length_of (rows s.(t_budget) (a, o)) + 1) cum
    (tail_of (rows s.(t_budget) (a, o))) at_ s = Ok (tt, s') ->
  spent s.(t_budget) a o < cum -> int64_range cum ->
  int64_range (length_of (rows s.(t_budget) (a, o)) + 1) ->
  (forall r m, s.(t_budget).(accounts) !! a = Some r -> cap_of r o = Some m -> cum <= Z.max 0 m) ->
  ledger_sound s'.(t_budget)
  /\ (forall k, k <> (a, o) -> rows s'.(t_budget) k = rows s.(t_budget) k)
  /\ spent s'.(t_budget) a o = cum
  /\ s'.(t_budget).(accounts) = s.(t_budget).(accounts)
  /\ s' = with_budget s'.(t_budget) s.
Proof.
  intros Hs H Hlt Hc Hl Hcap.
  apply debitRowTx_Ok in H as (row & c & Ea & Eb & Ec & Ed & Ee & Ef & Eg & Eh & Ei & Ej & [r Ek] & _ & _ & ->).
  cbn [t_budget with_budget]. split_and!; try done.
  - apply push_sound; rewrite ?Eb, ?Ec, ?Ed, ?Ee; try done.
    + constructor; try done; try lia; rewrite ?Ed, ?Ee; try done.
      * by apply Hs.
      * unfold length_of. simpl. lia.
    + exists r. split; [done|]. intros m. by apply Hcap.
  - intros k Hk. apply rows_push_other. by rewrite Eb, Ec.
  - unfold spent. by rewrite (rows_push_same _ _ _ a o).
Qed.

Lemma appendDebitTx_sound h act a o at_ s s' :
  ledger_sound s.(t_budget) ->
  appendDebitTx h act a o (spent s.(t_budget) a o) (length_of (rows s.(t_budget) (a, o)))
    (tail_of (rows s.(t_budget) (a, o))) at_ s = Ok (tt, s') ->
  (forall r m, s.(t_budget).(accounts) !! a = Some r -> cap_of r o = Some m ->
     spent s.(t_budget) a o < m) ->
  ledger_sound s'.(t_budget)
  /\ (forall k, k <> (a, o) -> rows s'.(t_budget) k = rows s.(t_budget) k)
  /\ spent s'.(t_budget) a o = spent s.(t_budget) a o + 1
  /\ s'.(t_budget).(accounts) = s.(t_budget).(accounts)
  /\ s' = with_budget s'.(t_budget) s.
Proof.
  intros Hs H Hcap. unfold appendDebitTx in H.
  pose proof (ls_chain _ Hs (a, o)) as Hch. destruct (chained_range _ Hch) as [R1 R2].
  pose proof (spent_nonneg _ Hch) as N1.
  assert (N2 : 0 <= length_of (rows s.(t_budget) (a, o))) by (unfold length_of; lia).
  pose proof (debitRowTx_Ok _ _ _ _ _ _ _ _ _ _ H) as (_ & _ & _ & _ & _ & _ & _ & _ & _ & _ & _ & _ & _ & Wl & Wc & _).
  unfold spent in *. apply wrap64_succ in Wl; [|done|done]. apply wrap64_succ in Wc; [|done|done].
  assert (R3 := wrap64_range (spent_of (rows s.(t_budget) (a, o)) + 1)).
  assert (R4 := wrap64_range (length_of (rows s.(t_budget) (a, o)) + 1)).
  rewrite Wl, Wc in *. apply debitRowTx_sound in H; try done; [unfold spent; lia|].
  intros r m Hr Hm. specialize (Hcap r m Hr Hm). lia.
Qed.

Lemma wrap_left t a o row m : ledger_sound t -> t.(accounts) !! a = Some row ->
  cap_of row o = Some m -> wrap64 (m - spent t a o) = m - spent t a o.
Proof.
  intros Ht Hr Hm. pose proof (cap_range _ _ _ _ _ Ht Hr Hm) as Hi.
  pose proof (ls_cap _ Ht _ _ _ _ Hr Hm) as Hle.
  pose proof (spent_nonneg _ (ls_chain _ Ht (a, o))) as Hn. fold (spent t a o) in Hn.
  apply wrap64_small. unfold int64_range in *. lia.
Qed.

(** The limits on one operation of an account, as amounts still free. *)
Definition free (t : budget_tables) (a : string) (row : account_row) (o : string) : option Z :=
  min_remaining ((fun m => m - spent t a "*") <$> cap_of row "*")
    ((fun m => m - spent t a o) <$> cap_of row o).

(** The counters a start moves: the total, and the operation's own when it is capped. *)
Definition moved (row : account_row) (a o : string) (k : string * string) : bool :=
  bool_decide (k = (a, "*")) || bool_decide (k = (a, o) /\ is_Some (cap_of row o)).

Record debited (a o : string) (row : account_row) (t t' : budget_tables) : Prop := {
  de_sound : ledger_sound t';
  de_accounts : t'.(accounts) = t.(accounts);
  de_spent : forall k, spent t' k.1 k.2 = spent t k.1 k.2 + (if moved row a o k then 1 else 0);
  de_rows : forall k, moved row a o k = false -> rows t' k = rows t k
}.

Lemma debited_one a o row t t' : o <> "*" -> ledger_sound t' -> t'.(accounts) = t.(accounts) ->
  (forall k, k <> (a, "*") -> rows t' k = rows t k) ->
  spent t' a "*" = spent t a "*" + 1 -> cap_of row o = None -> debited a o row t t'.
Proof.
  intros No Hs Ha Hr H1 Hc. unfold moved. split; [done|done| |].
  - intros [a' o']. unfold moved. cbn [fst snd]. destruct (decide ((a', o') = (a, "*"))) as [E|N].
    + injection E as -> ->. rewrite (bool_decide_true (_ = _)) by done. done.
    + rewrite (bool_decide_false (_ = _)) by done.
      rewrite (bool_decide_false (_ /\ _)) by (rewrite Hc; by intros [_ []%is_Some_None]).
      unfold spent. rewrite Hr by done. simpl. lia.
  - intros k [N _]%orb_false_iff. bools. by apply Hr.
Qed.

Lemma debited_two a o row t t1 t' : o <> "*" -> ledger_sound t' -> t'.(accounts) = t.(accounts) ->
  (forall k, k <> (a, "*") -> rows t1 k = rows t k) -> spent t1 a "*" = spent t a "*" + 1 ->
  (forall k, k <> (a, o) -> rows t' k = rows t1 k) -> spent t' a o = spent t1 a o + 1 ->
  is_Some (cap_of row o) -> debited a o row t t'.
Proof.
  intros No Hs Ha Hr H1 Hr' H2 Hc. split; [done|done| |].
  - intros [a' o']. unfold moved. cbn [fst snd].
    destruct (decide ((a', o') = (a, "*"))) as [E|N]; [|destruct (decide ((a', o') = (a, o))) as [E|N']].
    + injection E as -> ->. rewrite (bool_decide_true (_ = _)) by done. simpl. rewrite <- H1.
      unfold spent. rewrite Hr'; [done|]. congruence.
    + injection E as -> ->. rewrite (bool_decide_false (_ = _)) by done.
      rewrite (bool_decide_true (_ /\ _)) by done. simpl. rewrite H2. f_equal.
      unfold spent. by rewrite Hr.
    + rewrite (bool_decide_false (_ = _)) by done.
      rewrite (bool_decide_false (_ /\ _)) by tauto. simpl. unfold spent.
      rewrite Hr', Hr by done. lia.
  - intros k [N1 N2]%orb_false_iff. bools. rewrite Hr', Hr; [done|done|]. tauto.
Qed.

Lemma debitAccountTx_Ok h act a o at_ s before s' :
  o <> "*" -> ledger_sound s.(t_budget) -> debitAccountTx h act a o at_ s = Ok (before, s') ->
  exists row, s.(t_budget).(accounts) !! a = Some row
    /\ debited a o row s.(t_budget) s'.(t_budget) /\ s' = with_budget s'.(t_budget) s
    /\ before = free s.(t_budget) a row o /\ (forall v, before = Some v -> 0 < v).
Proof.
  intros No Hs H. unfold debitAccountTx in H.
  apply tx_bind_Ok in H as ([mt per] & s0 & E & H).
  apply account_terms_Ok in E as (row & per' & Hrow & Hper & [= -> ->] & ->).
  apply tx_bind_Ok in H as ([[p q] r] & s0 & E & H). rewrite counterTx_sound in E by done.
  injection E as <- <- <- <-.
  apply tx_bind_Ok in H as ([] & s0 & E & H). apply reads in E as ->.
  apply tx_bind_Ok in H as ([] & s0 & E & H). apply require_Ok in E as [Hguard [= ->]].
  apply fail_if_None in Hguard.
  apply tx_bind_Ok in H as ([] & s1 & E1 & H).
  assert (Htot : forall m, cap_of row "*" = Some m ->
    wrap64 (m - spent s.(t_budget) a "*") = m - spent s.(t_budget) a "*"
    /\ spent s.(t_budget) a "*" < m).
  { intros m Hm. pose proof (wrap_left _ _ _ _ _ Hs Hrow Hm) as W. split; [done|].
    rewrite cap_of_total in Hm. rewrite Hm in Hguard. simpl in Hguard. bools. lia. }
  apply appendDebitTx_sound in E1 as (Hs1 & Hr1 & H1 & Ha1 & Hw1); [|done|].
  2:{ intros r0 m Hr0 Hm. simplify_eq. by apply Htot. }
  assert (Hrem : (fun m => wrap64 (m - spent s.(t_budget) a "*")) <$> ac_max_total row
                 = (fun m => m - spent s.(t_budget) a "*") <$> cap_of row "*").
  { rewrite cap_of_total in *. destruct (ac_max_total row) as [m|]; [|done]. simpl.
    by destruct (Htot m eq_refl) as [-> _]. }
  rewrite Hrem in H.
  assert (Htot' : forall v, (fun m => m - spent s.(t_budget) a "*") <$> cap_of row "*" = Some v -> 0 < v).
  { intros v Hv. destruct (cap_of row "*") as [m|]; [|done]. injection Hv as <-.
    destruct (Htot m eq_refl). lia. }
  rewrite <- (cap_of_op row per' o Hper No) in H.
  exists row. split; [done|]. unfold free. destruct (cap_of row o) as [m|] eqn:Hop.
  - apply tx_bind_Ok in H as ([[p q] r] & s0 & E & H). rewrite counterTx_sound in E by done.
    injection E as <- <- <- <-.
    apply tx_bind_Ok in H as ([] & s0 & E & H). apply reads in E as ->.
    apply tx_bind_Ok in H as ([] & s0 & E & H). apply require_Ok in E as [Hg [= ->]].
    apply fail_if_None in Hg. bools.
    apply tx_bind_Ok in H as ([] & s2 & E2 & H). apply tx_ret_Ok in H as [= -> ->].
    assert (Hrow1 : s1.(t_budget).(accounts) !! a = Some row) by by rewrite Ha1.
    rewrite (wrap_left _ _ _ _ _ Hs1 Hrow1 Hop).
    apply appendDebitTx_sound in E2 as (Hs2 & Hr2 & H2 & Ha2 & Hw2); [|done|].
    2:{ intros r0 m' Hr0 Hm. simplify_eq. done. }
    assert (Eo : spent s1.(t_budget) a o = spent s.(t_budget) a o).
    { unfold spent. rewrite Hr1; [done|]. congruence. }
    split_and!.
    + eapply (debited_two a o row _ s1.(t_budget)); try done. by rewrite Ha2.
    + rewrite Hw2 at 1. by rewrite Hw1.
    + by rewrite Eo.
    + intros v. unfold min_remaining. rewrite Eo in *.
      destruct ((fun m0 => m0 - spent s.(t_budget) a "*") <$> cap_of row "*") as [x|] eqn:Ex.
      * specialize (Htot' x eq_refl). destruct (_ <? _); intros [= <-]; lia.
      * intros [= <-]. lia.
  - apply tx_ret_Ok in H as [= -> ->]. split_and!; [by apply debited_one|done| |].
    + by destruct (cap_of row "*").
    + intros v Hv. by apply Htot'.
Qed.

(** ** New accounts and imported consumption *)

Definition typed_budget (b : IntentBudgetV2.t) : Prop :=
  forall m, b.(IntentBudgetV2.Total) = Some m -> int64_range m.

Lemma insert_account_sound id row t : ledger_sound t ->
  (forall m, row.(ac_max_total) = Some m -> int64_range m) -> ledger_sound (insert_account id row t).
Proof.
  intros Ht Hm. unfold insert_account. destruct (_ || _) eqn:E; [done|]. bools.
  assert (Hid : t.(accounts) !! id = None) by (apply eq_None_not_Some; tauto).
  assert (Hnew : forall o, rows t (id, o) = []).
  { intros o. destruct (rows t (id, o)) eqn:Er; [done|]. destruct (ls_account _ Ht (id, o)).
    - by rewrite Er.
    - simpl in *. congruence. }
  split; cbn [accounts counters debits].
  - apply Ht.
  - apply Ht.
  - intros k Hk. destruct (decide (k.1 = id)) as [E'|N]; [rewrite E', lookup_insert_eq; by eexists|].
    rewrite lookup_insert_ne by done. by apply Ht.
  - intros id' row' m [[<- <-]|[_ Hr]]%lookup_insert_Some; [by apply Hm|]. by eapply ls_typed.
  - intros id' row' o m [[<- <-]|[_ Hr]]%lookup_insert_Some; [|by apply (ls_cap t)].
    intros _. unfold spent. change (rows _ _) with (rows t (id, o)). rewrite Hnew. simpl. lia.
Qed.

(** The account of a scope, with the terms its first opening gave it. *)
Definition account_opened (t : budget_tables) (profile kind scope : string) (b : IntentBudgetV2.t) : Prop :=
  exists row, t.(accounts) !! budgetAccountID profile kind scope = Some row
    /\ row.(ac_max_total) = b.(IntentBudgetV2.Total)
    /\ row.(ac_per_operation) = perOperationJSON b.(IntentBudgetV2.PerOperation).

Lemma insert_account_rows id row t k : rows (insert_account id row t) k = rows t k.
Proof. unfold insert_account. by case_match. Qed.

Lemma insert_account_kept id row t id' r :
  t.(accounts) !! id' = Some r -> (insert_account id row t).(accounts) !! id' = Some r.
Proof.
  intros H. unfold insert_account. destruct (_ || _) eqn:E; [done|]. bools. cbn [accounts].
  rewrite lookup_insert_ne; [done|]. intros ->. destruct H0. by eexists.
Qed.

Record accounts_grow (t t' : budget_tables) : Prop := {
  ag_sound : ledger_sound t';
  ag_rows : forall k, rows t' k = rows t k;
  ag_kept : forall id r, t.(accounts) !! id = Some r -> t'.(accounts) !! id = Some r
}.

Lemma ensureBudgetAccountTx_Ok profile kind scope b at_ s s' :
  ledger_sound s.(t_budget) -> typed_budget b ->
  ensureBudgetAccountTx profile kind scope b at_ s = Ok (tt, s') ->
  accounts_grow s.(t_budget) s'.(t_budget) /\ account_opened s'.(t_budget) profile kind scope b
  /\ s' = with_budget s'.(t_budget) s.
Proof.
  intros Hs Hb H. unfold ensureBudgetAccountTx in H.
  apply tx_bind_Ok in H as ([] & s1 & E1 & H). apply change_Ok in E1 as [= ->]. repeat tx_step.
  passed. budget_cbn. split_and!; [|by eexists|done].
  split.
  - by apply insert_account_sound.
  - intros k. apply insert_account_rows.
  - intros id r. apply insert_account_kept.
Qed.

Lemma left_of_Ok h a o m s v s' row : ledger_sound s.(t_budget) ->
  s.(t_budget).(accounts) !! a = Some row -> cap_of row o = Some m ->
  left_of h a o m s = Ok (v, s') -> v = m - spent s.(t_budget) a o /\ 0 <= v.
Proof.
  intros Hs Hrow Hm H. unfold left_of in H.
  apply tx_bind_Ok in H as ([[p q] r] & s0 & E & H). rewrite counterTx_sound in E by done.
  injection E as <- <- <- <-. repeat tx_step. bools.
  erewrite wrap_left by done. rewrite (wrap_left _ _ _ _ _ Hs Hrow Hm) in *. done.
Qed.

Lemma min_remaining_le a b v : min_remaining a b = Some v ->
  (forall x, a = Some x -> v <= x) /\ (forall y, b = Some y -> v <= y).
Proof.
  destruct a as [x|], b as [y|]; simpl; try (naive_solver lia).
  destruct (Z.ltb_spec y x); intros [= <-]; naive_solver lia.
Qed.

Lemma left_total_Ok h a s total s' row : ledger_sound s.(t_budget) ->
  s.(t_budget).(accounts) !! a = Some row -> left_total h a row.(ac_max_total) s = Ok (total, s') ->
  total = (fun m => m - spent s.(t_budget) a "*") <$> cap_of row "*".
Proof.
  intros Hs Hrow H. rewrite cap_of_total. unfold left_total in H.
  destruct (ac_max_total row) as [m|] eqn:Em; [|by apply tx_ret_Ok in H as [= ->]].
  apply tx_bind_Ok in H as (v & s2 & E & H). apply tx_ret_Ok in H as [= -> ->].
  eapply left_of_Ok in E as [-> _]; [done|done|done|]. by rewrite cap_of_total.
Qed.

(** What is left of an account under both limits. *)
Lemma remainingBeforeAccountTx_Ok h a o s rem s' : o <> "*" -> ledger_sound s.(t_budget) ->
  remainingBeforeAccountTx h a o s = Ok (rem, s') ->
  exists row, s.(t_budget).(accounts) !! a = Some row /\ rem = free s.(t_budget) a row o.
Proof.
  intros No Hs H. unfold remainingBeforeAccountTx in H.
  apply tx_bind_Ok in H as ([mt per] & s0 & E & H).
  apply account_terms_Ok in E as (row & per' & Hrow & Hper & [= -> ->] & ->).
  apply tx_bind_Ok in H as (total & s0 & E & H). pose proof (reads _ _ _ E) as ->.
  eapply left_total_Ok in E as ->; [|done|done]. exists row. split; [done|]. unfold free.
  rewrite (cap_of_op row per' o Hper No). destruct (per' !! o) as [m|] eqn:Ho.
  - apply tx_bind_Ok in H as (v & s2 & Ev & H). apply tx_ret_Ok in H as [= -> ->].
    eapply left_of_Ok in Ev as [-> _]; [done|done|done|]. by rewrite (cap_of_op row per' o Hper No).
  - apply tx_ret_Ok in H as [= -> ->]. by destruct (cap_of row "*").
Qed.

Lemma remainingBefore_total h a s rem s' row m : ledger_sound s.(t_budget) ->
  remainingBeforeAccountTx h a "*" s = Ok (rem, s') ->
  s.(t_budget).(accounts) !! a = Some row -> cap_of row "*" = Some m ->
  exists v, rem = Some v /\ v <= m - spent s.(t_budget) a "*".
Proof.
  intros Hs H Hrow Hm. unfold remainingBeforeAccountTx in H.
  apply tx_bind_Ok in H as ([mt per] & s0 & E & H).
  apply account_terms_Ok in E as (row' & per' & Hrow' & Hper & [= -> ->] & ->). simplify_eq.
  apply tx_bind_Ok in H as (total & s0 & E & H). pose proof (reads _ _ _ E) as ->.
  eapply left_total_Ok in E as ->; [|done|done]. rewrite Hm in H. simpl in H.
  destruct (per' !! "*") as [y|].
  - apply tx_bind_Ok in H as (v & s2 & Ev & H). apply tx_ret_Ok in H as [= -> ->].
    unfold min_remaining. case_match; bools; eexists; (split; [done|lia]).
  - apply tx_ret_Ok in H as [= -> ->]. by eexists.
Qed.

Lemma insertLegacyBaselineTx_Ok h act a o sp at_ s s' :
  ledger_sound s.(t_budget) -> int64_range sp ->
  insertLegacyBaselineTx h act a o sp at_ s = Ok (tt, s') ->
  ledger_sound s'.(t_budget) /\ s'.(t_budget).(accounts) = s.(t_budget).(accounts)
  /\ s' = with_budget s'.(t_budget) s
  /\ (forall k, k <> (a, o) -> rows s'.(t_budget) k = rows s.(t_budget) k)
  /\ (0 < sp -> spent s.(t_budget) a o = 0 /\ spent s'.(t_budget) a o = sp).
Proof.
  intros Hs Hi H. unfold insertLegacyBaselineTx in H. case_match; bools.
  { apply tx_ret_Ok in H as [= ->]. split_and!; try done; [by destruct s|lia]. }
  apply tx_bind_Ok in H as (rem & s1 & E1 & H). pose proof (reads _ _ _ E1) as ->.
  apply tx_bind_Ok in H as ([] & s1 & E & H). apply require_Ok in E as [Hg [= ->]].
  apply fail_if_None in Hg.
  assert (Hnil : rows s.(t_budget) (a, o) = []).
  { pose proof (ls_chain _ Hs (a, o)) as Hc. destruct (rows s.(t_budget) (a, o)) eqn:Er; [done|].
    destruct (chained_first _ Hc) as (x & Hx & Hx1); [done|]. rewrite <- Er in Hx.
    apply debitRowTx_Ok in H as (row & c & _ & Eb & Ec & Ed & _ & _ & _ & _ & _ & Ej & _).
    apply list_elem_of_filter in Hx as [Ho Hx]. unfold on_account in Ho. bools. destruct Ho as [Ho1 Ho2].
    exfalso. apply not_true_iff_false in Ej. apply Ej, existsb_exists. exists x.
    split; [by apply list_elem_of_In|]. unfold debit_conflict. apply bool_decide_eq_true.
    simpl in *. rewrite Eb, Ec, Ed. naive_solver. }
  pose proof (eq_refl (spent s.(t_budget) a o)) as E0. unfold spent in E0 at 2. rewrite Hnil in E0. simpl in E0.
  pose proof H as H'. change 1 with (length_of [] + 1) in H'. change "" with (tail_of []) in H'.
  rewrite <- Hnil in H'. apply debitRowTx_sound in H' as (S1 & S2 & S3 & S4 & S5); try done; try lia.
  - rewrite Hnil. unfold length_of, int64_range. simpl. lia.
  - intros row m Hrow Hm. destruct (decide (o = "*")) as [->|No].
    + eapply remainingBefore_total in E1 as (v & -> & Hv); [|done..]. bools. lia.
    + apply remainingBeforeAccountTx_Ok in E1 as (row' & Hrow' & ->); [|done|done]. simplify_eq.
      unfold free in Hg. rewrite Hm in Hg. destruct (min_remaining _ _) as [v|] eqn:Ev.
      * apply min_remaining_le in Ev as [_ Ev]. specialize (Ev _ eq_refl). bools. lia.
      * unfold min_remaining in Ev. by repeat case_match.
Qed.

(** ** A ledger these doors wrote reads back as sound evidence *)

Definition slots_of (r : authorityDebitRecord) : list slot :=
  [SString r.(dr_ActionID); SString r.(dr_AccountID); SString r.(dr_Operation);
   SInt r.(dr_Sequence); SInt r.(dr_Cumulative); SString r.(dr_Previous); SString r.(dr_At)].

Record record_text (r : authorityDebitRecord) : Prop := {
  rt_action : utf8 r.(dr_ActionID);
  rt_account : utf8 r.(dr_AccountID);
  rt_operation : utf8 r.(dr_Operation);
  rt_sequence : int64_range r.(dr_Sequence);
  rt_cumulative : int64_range r.(dr_Cumulative);
  rt_previous : utf8 r.(dr_Previous);
  rt_at : utf8 r.(dr_At)
}.

Lemma debit_schema_ok : schema_ok debit_schema.
Proof.
  split; [by apply (bool_decide_unpack _); vm_compute|].
  by apply (bool_decide_unpack _); vm_compute.
Qed.

Lemma debit_of_json_back r : record_text r -> debit_of_json (debit_json r) = Some r.
Proof.
  intros [H1 H2 H3 H4 H5 H6 H7]. unfold debit_of_json, debit_json, unmarshal, marshal.
  fold (slots_of r). assert (Ht : typed debit_schema (slots_of r)).
  { typed_slots. }
  rewrite parse_print by (apply marshal_struct_wf; [apply debit_schema_ok|done]).
  rewrite decode_struct_marshal by (apply debit_schema_ok || done). by destruct r.
Qed.

Definition row_record (r : debit_row) (at_ : time) : authorityDebitRecord :=
  {| dr_ActionID := r.(db_action); dr_AccountID := r.(db_account); dr_Operation := r.(db_operation);
     dr_Sequence := r.(db_sequence); dr_Cumulative := r.(db_cumulative);
     dr_Previous := r.(db_previous); dr_At := rfc3339 at_ |}.

Record row_evidence (h : Handle) (keys : gmap string SigningKey) (r : debit_row) : Prop := {
  re_canonical : exists at_, r.(db_canonical) = debit_json (row_record r at_)
    /\ record_text (row_record r at_) /\ h.(time_Parse) (rfc3339 at_) <> None;
  re_seal : sealed h keys authorityDebitDomain r.(db_canonical) r.(db_seal)
}.

Record counter_evidence (h : Handle) (keys : gmap string SigningKey) (k : string * string)
    (c : counter_row) : Prop := {
  ce_canonical : c.(ct_canonical) =
    head_json {| bh_AccountID := k.1; bh_OperationKey := k.2; bh_Spent := c.(ct_spent);
                 bh_Sequence := c.(ct_sequence); bh_TailDigest := c.(ct_tail) |};
  ce_seal : sealed h keys authorityBudgetHeadDomain c.(ct_canonical) c.(ct_seal)
}.

Record ledger_sealed (h : Handle) (s : db) : Prop := {
  le_rows : forall r, r ∈ s.(t_budget).(debits) -> row_evidence h s.(signing_keys) r;
  le_counters : forall k c, s.(t_budget).(counters) !! k = Some c ->
    counter_evidence h s.(signing_keys) k c
}.

Lemma chained_bound l r : chained l -> r ∈ l -> r.(db_sequence) <= length_of l.
Proof.
  induction 1 as [|r' l Hl IH Hs _ _ _ _]; [set_solver|].
  intros [->|Hr]%elem_of_cons; [lia|]. specialize (IH Hr). unfold length_of in *. simpl in *. lia.
Qed.

Lemma last_debit_chained r l : chained (r :: l) -> last_debit (r :: l) = Some r.
Proof.
  revert r. induction l as [|r' l IH]; intros r H; [done|]. inversion H as [|? ? Hl Hs]; subst.
  change (match last_debit (r' :: l) with
          | Some b => if b.(db_sequence) <? r.(db_sequence) then Some r else Some b
          | None => Some r end = Some r).
  rewrite IH by done. inversion Hl as [|? ? ? Hs']; subst.
  rewrite Hs, Hs'. unfold length_of. simpl List.length.
  by rewrite (proj2 (Z.ltb_lt _ _)) by lia.
Qed.

Lemma last_debit_sound t k r l : ledger_sound t -> rows t k = r :: l ->
  last_debit (rows t k) = Some r /\ r.(db_account) = k.1 /\ r.(db_operation) = k.2
  /\ r ∈ t.(debits) /\ r.(db_sequence) = length_of (rows t k).
Proof.
  intros Ht E. pose proof (ls_chain _ Ht k) as Hc. rewrite E in *.
  split; [by apply last_debit_chained|].
  assert (Hin : r ∈ rows t k) by (rewrite E; by left).
  apply list_elem_of_filter in Hin as [Ho Hin]. unfold on_account in Ho. bools.
  inversion Hc; subst. naive_solver.
Qed.

Lemma found_Some {A} e (o : option A) a s : o = Some a -> found e o s = Ok (a, s).
Proof. by intros ->. Qed.

Lemma bind_at {A B} (m : Tx A) (k : A -> Tx B) s a s' : m s = Ok (a, s') -> (m ≫= k) s = k a s'.
Proof. unfold mbind, tx_bind. by intros ->. Qed.

Lemma require_pass b e s : b = false -> require (fail_if b e) s = Ok (tt, s).
Proof. by intros ->. Qed.

Lemma verifyDebitTailTx_sealed h a o s : ledger_sound s.(t_budget) -> ledger_sealed h s ->
  verifyDebitTailTx h a o (spent s.(t_budget) a o) (length_of (rows s.(t_budget) (a, o)))
    (tail_of (rows s.(t_budget) (a, o))) s = Ok (tt, s).
Proof.
  intros Hs He. unfold verifyDebitTailTx, spent.
  rewrite (bind_at _ _ _ _ _ (eq_refl : ask t_budget s = Ok (s.(t_budget), s))).
  fold (rows s.(t_budget) (a, o)). change (rows_of a o s.(t_budget).(debits)) with (rows s.(t_budget) (a, o)).
  destruct (rows s.(t_budget) (a, o)) as [|r l] eqn:Er; [done|].
  destruct (last_debit_sound _ _ _ _ Hs Er) as (Hlast & Ha & Ho & Hin & Hsq). rewrite Er in *.
  destruct (le_rows _ _ He r Hin) as [(at_ & Hcan & Htext & Htime) Hseal].
  pose proof (ls_head _ Hs (a, o)) as Hc. rewrite Er in Hc.
  destruct (s.(t_budget).(counters) !! (a, o)) as [c|] eqn:Ec; [|done]. injection Hc as C1 C2 C3.
  destruct (le_counters _ _ He _ _ Ec) as [Ccan Cseal].
  assert (Hsqn : db_sequence r <> 0) by (rewrite Hsq; unfold length_of; simpl; lia).
  rewrite bool_decide_false by (rewrite <- Hsq; done).
  rewrite (bind_at _ _ _ _ _ (found_Some _ _ _ s Hlast)).
  rewrite (bind_at _ _ _ _ _ (found_Some _ _ (row_record r at_) s
             (eq_trans (f_equal debit_of_json Hcan) (debit_of_json_back _ Htext)))).
  cbn [fst snd] in *. rewrite (bind_at _ _ _ tt s); [|apply require_pass].
  2:{ rewrite (bool_decide_false (db_canonical r <> _)) by (rewrite Hcan; tauto).
      unfold row_record. cbn [dr_ActionID dr_AccountID dr_Operation dr_Sequence dr_Cumulative dr_Previous].
      rewrite Ha, Ho, Hsq. unfold spent_of, tail_of.
      repeat (rewrite bool_decide_false; [|tauto]). done. }
  rewrite (bind_at _ _ _ tt s); [|apply require_pass; by apply bool_decide_false].
  rewrite (bind_at _ _ _ tt s); [|by apply seal_checks_sealed].
  rewrite (bind_at _ _ _ _ _ (found_Some _ (Some c) c s eq_refl)).
  cbv zeta. rewrite (bind_at _ _ _ tt s); [|by apply seal_checks_sealed].
  apply require_pass, bool_decide_false. rewrite Ccan. cbn [fst snd]. rewrite C1, C2, C3. tauto.
Qed.

(** Debits keep the evidence, whoever signs them. *)
Lemma push_sealed h s act a o sq cum prev at_ s' :
  ledger_sealed h s -> record_text {| dr_ActionID := act; dr_AccountID := a; dr_Operation := o;
    dr_Sequence := sq; dr_Cumulative := cum; dr_Previous := prev; dr_At := rfc3339 at_ |} ->
  h.(time_Parse) (rfc3339 at_) <> None ->
  debitRowTx h act a o sq cum prev at_ s = Ok (tt, s') -> ledger_sealed h s'.
Proof.
  intros [He1 He2] Ht Hp H. unfold debitRowTx in H.
  apply tx_bind_Ok in H as (seal & s1 & E1 & H). pose proof (signAuthorityTx_sealed _ _ _ _ _ _ E1) as V1.
  apply reads in E1 as ->.
  apply tx_bind_Ok in H as ([] & s2 & E2 & H). unfold insert_debit in E2. repeat tx_step.
  unfold upsertBudgetCounterTx in H.
  apply tx_bind_Ok in H as (seal2 & s3 & E3 & H). pose proof (signAuthorityTx_sealed _ _ _ _ _ _ E3) as V2.
  apply reads in E3 as ->. repeat tx_step. budget_cbn. split; cbn [with_budget t_budget signing_keys].
  - intros r. cbn [debits]. intros [->|Hr]%elem_of_cons; [|by apply He1].
    split; [|done]. exists at_. done.
  - intros k c. cbn [counters]. intros [[<- <-]|[_ Hk]]%lookup_insert_Some; [done|by apply He2].
Qed.

Definition fresh_debit (t : budget_tables) (act a o : string) : Prop :=
  forall r, r ∈ rows t (a, o) -> r.(db_action) <> act.

Lemma no_conflict t act a o sq row : ledger_sound t -> fresh_debit t act a o ->
  sq = length_of (rows t (a, o)) + 1 ->
  row.(db_action) = act -> row.(db_account) = a -> row.(db_operation) = o -> row.(db_sequence) = sq ->
  existsb (debit_conflict row) t.(debits) = false.
Proof.
  intros Ht Hf Hsq E1 E2 E3 E4. apply not_true_iff_false. intros (x & Hx & Hc)%existsb_exists.
  apply list_elem_of_In in Hx. unfold debit_conflict in Hc. bools. destruct Hc as (F1 & F2 & F3).
  assert (Hin : x ∈ rows t (a, o)).
  { apply list_elem_of_filter. split; [|done]. apply bool_decide_eq_true. simpl. naive_solver. }
  destruct F3 as [F3|F3].
  - apply (Hf x Hin). congruence.
  - pose proof (chained_bound _ _ (ls_chain _ Ht (a, o)) Hin). lia.
Qed.

Lemma insert_debit_works row s ar key : existsb (debit_conflict row) s.(t_budget).(debits) = false ->
  s.(t_budget).(accounts) !! row.(db_account) = Some ar ->
  s.(signing_keys) !! row.(db_seal).(as_SigningKeyID) = Some key ->
  insert_debit row s =
    Ok (tt, with_budget {| accounts := s.(t_budget).(accounts); counters := s.(t_budget).(counters);
                           debits := row :: s.(t_budget).(debits) |} s).
Proof.
  intros Hc Ha Hk. unfold insert_debit, ask, mbind, tx_bind. by rewrite Hc, Ha, Hk.
Qed.

Lemma debitRowTx_works h s act a o cum at_ :
  ledger_sound s.(t_budget) -> signer_works h s.(signing_keys) ->
  is_Some (s.(t_budget).(accounts) !! a) -> fresh_debit s.(t_budget) act a o -> 0 <= cum ->
  exists s', debitRowTx h act a o (length_of (rows s.(t_budget) (a, o)) + 1) cum
               (tail_of (rows s.(t_budget) (a, o))) at_ s = Ok (tt, s').
Proof.
  intros Hs Hw [ar Ha] Hf Hc. unfold debitRowTx.
  set (sq := length_of (rows s.(t_budget) (a, o)) + 1).
  set (canonical := canonicalAuthorityDebit _ _ _ _ _ _ _).
  destruct (signAuthorityTx_works h s authorityDebitDomain canonical Hw) as (seal & E & key & b & Hk & _).
  cbv zeta. rewrite (bind_at _ _ _ _ _ E).
  match goal with |- context [insert_debit ?r ≫= _] => set (row := r) end.
  rewrite (bind_at _ _ s _ _ (insert_debit_works row s ar key
    (no_conflict s.(t_budget) act a o sq row Hs Hf eq_refl eq_refl eq_refl eq_refl eq_refl) Ha Hk)).
  unfold upsertBudgetCounterTx. cbv zeta. cbn [with_budget].
  match goal with |- context [signAuthorityTx h ?d ?c ≫= _] => set (canonical2 := c) end.
  match goal with |- exists s', (_ ≫= _) ?st = _ => set (s1 := st) end.
  destruct (signAuthorityTx_works h s1 authorityBudgetHeadDomain canonical2 Hw) as (seal2 & E2 & _).
  rewrite (bind_at _ _ _ _ _ E2).
  rewrite (bind_at _ _ _ _ _ (eq_refl : ask t_budget s1 = Ok (s1.(t_budget), s1))).
  rewrite (bind_at _ _ _ tt s1); [by eexists|]. apply require_pass.
  unfold s1, row. cbn [t_budget accounts with_budget]. rewrite Ha.
  rewrite (proj2 (Z.ltb_ge _ _)) by done.
  rewrite (proj2 (Z.ltb_ge _ _)) by (unfold sq, length_of; lia). done.
Qed.

(** The evidence a start brings: readable text and an instant that parses back. *)
Record debit_text (h : Handle) (act a o : string) (at_ : time) : Prop := {
  dt_action : utf8 act;
  dt_account : utf8 a;
  dt_operation : utf8 o;
  dt_at : h.(time_Parse) (rfc3339 at_) <> None
}.

Definition countable (t : budget_tables) (a o : string) : Prop :=
  int64_range (spent t a o + 1) /\ int64_range (length_of (rows t (a, o)) + 1).

Lemma tail_utf8 h s k : ledger_sealed h s -> utf8 (tail_of (rows s.(t_budget) k)).
Proof.
  intros He. destruct (rows s.(t_budget) k) as [|r l] eqn:E; [constructor|]. simpl.
  assert (Hin : r ∈ rows s.(t_budget) k) by (rewrite E; by left).
  apply list_elem_of_filter in Hin as [_ Hin].
  destruct (re_seal _ _ _ (le_rows _ _ He r Hin)) as (key & b & _ & _ & _ & Hv).
  rewrite (VerifyAuthorityBytes_digest _ _ _ _ _ Hv). apply digestAuthorityBytes_utf8.
Qed.

Lemma appendDebitTx_works h s act a o at_ :
  ledger_sound s.(t_budget) -> ledger_sealed h s -> signer_works h s.(signing_keys) ->
  debit_text h act a o at_ -> countable s.(t_budget) a o ->
  is_Some (s.(t_budget).(accounts) !! a) -> fresh_debit s.(t_budget) act a o ->
  exists s', appendDebitTx h act a o (spent s.(t_budget) a o) (length_of (rows s.(t_budget) (a, o)))
               (tail_of (rows s.(t_budget) (a, o))) at_ s = Ok (tt, s') /\ ledger_sealed h s'.
Proof.
  intros Hs He Hw Ht [C1 C2] Ha Hf. unfold appendDebitTx.
  rewrite (wrap64_small _ C1), (wrap64_small _ C2).
  pose proof (spent_nonneg _ (ls_chain _ Hs (a, o))) as Hn. fold (spent s.(t_budget) a o) in Hn.
  destruct (debitRowTx_works h s act a o (spent s.(t_budget) a o + 1) at_ Hs Hw Ha Hf) as (s' & E); [lia|].
  exists s'. split; [done|]. apply push_sealed in E; [done|done| |by apply Ht].
  destruct Ht. split; try done.
  - by apply (tail_utf8 h).
  - apply ascii_only_utf8, rfc3339_ascii.
Qed.

(** A limit with nothing left. *)
Definition used_up (t : budget_tables) (a : string) (row : account_row) (o : string) : bool :=
  match cap_of row o with Some m => m <=? spent t a o | None => false end.

(** The second half of a debit: the operation's own counter. *)
Definition debit_operation (h : Handle) (act a o : string) (at_ : time) (per : gmap string Z)
    (remaining : option Z) : Tx (option Z) :=
  match per !! o with
  | None => mret remaining
  | Some maximum =>
      '(spent, seq, tail) ← counterTx a o;
      verifyDebitTailTx h a o spent seq tail;;
      require (fail_if (maximum <=? spent) ErrBudgetExhausted);;
      appendDebitTx h act a o spent seq tail at_;;
      mret (min_remaining remaining (Some (wrap64 (maximum - spent))))
  end.

Lemma account_terms_at a s row per : s.(t_budget).(accounts) !! a = Some row ->
  per_operation row.(ac_per_operation) = Some per ->
  account_terms a s = Ok ((row.(ac_max_total), per), s).
Proof. intros Ha Hp. unfold account_terms, ask, mbind, tx_bind. rewrite Ha. simpl. by rewrite Hp. Qed.

Lemma debitAccountTx_at h act a o at_ s row per :
  ledger_sound s.(t_budget) -> ledger_sealed h s ->
  s.(t_budget).(accounts) !! a = Some row -> per_operation row.(ac_per_operation) = Some per ->
  debitAccountTx h act a o at_ s =
    (require (fail_if (used_up s.(t_budget) a row "*") ErrBudgetExhausted);;
     appendDebitTx h act a "*" (spent s.(t_budget) a "*") (length_of (rows s.(t_budget) (a, "*")))
       (tail_of (rows s.(t_budget) (a, "*"))) at_;;
     debit_operation h act a o at_ per
       ((fun m => m - spent s.(t_budget) a "*") <$> cap_of row "*")) s.
Proof.
  intros Hs He Ha Hp. unfold debitAccountTx, debit_operation.
  rewrite (bind_at _ _ _ _ _ (account_terms_at _ _ _ _ Ha Hp)).
  rewrite (bind_at _ _ _ _ _ (counterTx_sound a "*" s Hs)).
  rewrite (bind_at _ _ _ _ _ (verifyDebitTailTx_sealed h a "*" s Hs He)). cbv zeta.
  assert (((fun m => wrap64 (m - spent s.(t_budget) a "*")) <$> ac_max_total row)
    = ((fun m => m - spent s.(t_budget) a "*") <$> cap_of row "*")) as ->.
  { rewrite cap_of_total. destruct (ac_max_total row) as [m|] eqn:Em; [|done]. simpl. f_equal.
    by apply (wrap_left _ _ _ row). }
  assert (match (fun m => m - spent s.(t_budget) a "*") <$> cap_of row "*" with
          | Some v => v <=? 0 | None => false end = used_up s.(t_budget) a row "*") as ->; [|done].
  unfold used_up. destruct (cap_of row "*") as [m|]; [|done]. simpl.
  apply eq_true_iff_eq. rewrite !Z.leb_le. lia.
Qed.

Lemma debit_operation_decided h s act a o at_ row per rem :
  o <> "*" -> ledger_sound s.(t_budget) -> ledger_sealed h s -> signer_works h s.(signing_keys) ->
  s.(t_budget).(accounts) !! a = Some row -> per_operation row.(ac_per_operation) = Some per ->
  debit_text h act a o at_ -> countable s.(t_budget) a o -> fresh_debit s.(t_budget) act a o ->
  if used_up s.(t_budget) a row o then debit_operation h act a o at_ per rem s = Err ErrBudgetExhausted
  else exists v s', debit_operation h act a o at_ per rem s = Ok (v, s') /\ ledger_sealed h s'.
Proof.
  intros No Hs He Hw Ha Hp Ht Hc Hf. unfold debit_operation, used_up.
  rewrite <- (cap_of_op row per o Hp No). destruct (cap_of row o) as [m|] eqn:Em.
  - rewrite (bind_at _ _ _ _ _ (counterTx_sound a o s Hs)).
    rewrite (bind_at _ _ _ _ _ (verifyDebitTailTx_sealed h a o s Hs He)).
    destruct (m <=? spent s.(t_budget) a o) eqn:D; [done|].
    rewrite (bind_at _ _ _ tt s) by done.
    destruct (appendDebitTx_works h s act a o at_) as (s' & E & He'); try done.
    rewrite (bind_at _ _ _ _ _ E). by eexists _, s'.
  - by eexists _, s.
Qed.

(** C23. Over a sound, sealed ledger with a working signer, a start's debit of one account is
    decided by the budget and nothing else: when a limit that applies to the operation is used
    up the door answers "budget exhausted"; otherwise it returns what was left before, moves the
    total by one and the operation's own counter by one when it is capped, leaves every other
    counter alone, and the ledger is sound and sealed again - so the next start can read it. *)
Theorem debit_is_decided_by_the_budget (h : Handle) (s : db) (act a o : string) (at_ : time) row per :
  o <> "*" -> ledger_sound s.(t_budget) -> ledger_sealed h s -> signer_works h s.(signing_keys) ->
  s.(t_budget).(accounts) !! a = Some row -> per_operation row.(ac_per_operation) = Some per ->
  (forall k, k = "*" \/ k = o -> debit_text h act a k at_ /\ countable s.(t_budget) a k
     /\ fresh_debit s.(t_budget) act a k) ->
  if used_up s.(t_budget) a row "*" || used_up s.(t_budget) a row o
  then debitAccountTx h act a o at_ s = Err ErrBudgetExhausted
  else exists s', debitAccountTx h act a o at_ s = Ok (free s.(t_budget) a row o, s')
       /\ debited a o row s.(t_budget) s'.(t_budget) /\ s' = with_budget s'.(t_budget) s
       /\ ledger_sealed h s'.
Proof.
  intros No Hs He Hw Ha Hp Hk.
  destruct (Hk "*" (or_introl eq_refl)) as (T1 & T2 & T3).
  destruct (Hk o (or_intror eq_refl)) as (O1 & O2 & O3).
  pose proof (debitAccountTx_at h act a o at_ s row per Hs He Ha Hp) as Heq.
  destruct (used_up s.(t_budget) a row "*") eqn:Et; [by rewrite Heq|]. simpl.
  destruct (appendDebitTx_works h s act a "*" at_) as (s1 & E1 & He1); try done.
  rewrite (bind_at _ _ _ tt s) in Heq by done. rewrite (bind_at _ _ _ _ _ E1) in Heq.
  apply appendDebitTx_sound in E1 as (Hs1 & Hr1 & _ & Ha1 & Hw1); [|done|].
  2:{ intros r m Hr Hm. simplify_eq. unfold used_up in Et. rewrite Hm in Et. by bools. }
  assert (Hro : rows s1.(t_budget) (a, o) = rows s.(t_budget) (a, o)) by (apply Hr1; congruence).
  assert (Hkeys : s1.(signing_keys) = s.(signing_keys)) by by rewrite Hw1.
  pose proof (debit_operation_decided h s1 act a o at_ row per
    ((fun m => m - spent s.(t_budget) a "*") <$> cap_of row "*")) as D.
  unfold used_up, countable, fresh_debit, spent in *. rewrite Hkeys, Hro, Ha1 in D.
  specialize (D No Hs1 He1 Hw Ha Hp O1 O2 O3).
  destruct (match cap_of row o with Some m => _ | None => false end).
  - by rewrite Heq.
  - destruct D as (v & s' & D & He'). exists s'. rewrite D in Heq.
    destruct (debitAccountTx_Ok _ _ _ _ _ _ _ _ No Hs Heq) as (row' & Hrow' & Hd & Hw' & -> & _).
    by simplify_eq.
Qed.

(** ** Worked example *)

Lemma empty_budget_sound : ledger_sound empty_budget.
Proof. by split; [constructor| | | |]. Qed.

Definition example_account (total : option Z) (per : option (gmap string Z)) : account_row :=
  {| ac_profile := "home"; ac_kind := "grant"; ac_scope := "g1"; ac_max_total := total;
     ac_per_operation := perOperationJSON per; ac_created := rfc3339 1 |}.

Definition example_budget (total : option Z) (per : option (gmap string Z)) : db :=
  with_budget (insert_account "acct" (example_account total per) empty_budget) empty_db.

Lemma example_budget_sound total per : (forall m, total = Some m -> int64_range m) ->
  ledger_sound (example_budget total per).(t_budget).
Proof. intros H. by apply insert_account_sound; [apply empty_budget_sound|]. Qed.

Lemma example_debit_text act k : ascii_only act = true -> ascii_only k = true ->
  debit_text (toy_handle [1]) act "acct" k 1.
Proof.
  intros Ha Hk. split; [by apply ascii_only_utf8| |by apply ascii_only_utf8|].
  - by apply ascii_only_utf8.
  - cbn [toy_handle time_Parse]. rewrite (recall_times_back [1] 1); [done| |by left].
    repeat constructor; unfold rfc3339_range; vm_compute; done.
Qed.

Lemma debit_is_decided_by_the_budget_witness :
  (exists s', debitAccountTx (toy_handle [1]) "act" "acct" "tool/x@1" 1 (example_budget (Some 1) None)
              = Ok (Some 1, s') /\ ledger_sealed (toy_handle [1]) s')
  /\ debitAccountTx (toy_handle [1]) "act" "acct" "tool/x@1" 1 (example_budget (Some 0) None)
     = Err ErrBudgetExhausted.
Proof.
  assert (Hk : forall m k, k = "*" \/ k = "tool/x@1" ->
    debit_text (toy_handle [1]) "act" "acct" k 1
    /\ countable (example_budget (Some m) None).(t_budget) "acct" k
    /\ fresh_debit (example_budget (Some m) None).(t_budget) "act" "acct" k).
  { intros m k Hk. split_and!.
    - apply example_debit_text; destruct Hk as [->| ->]; reflexivity.
    - split; unfold int64_range; vm_compute; split; discriminate || reflexivity.
    - intros r Hr. by apply elem_of_nil in Hr. }
  assert (He : forall m, ledger_sealed (toy_handle [1]) (example_budget (Some m) None)).
  { intros m. split; [intros r Hr; by apply elem_of_nil in Hr|]. intros k c Hc.
    change ((∅ : gmap (string * string) counter_row) !! k = Some c) in Hc.
    by rewrite lookup_empty in Hc. }
  assert (Hs : forall m, int64_range m -> ledger_sound (example_budget (Some m) None).(t_budget)).
  { intros m Hm. apply example_budget_sound. by intros m' [= <-]. }
  split.
  - pose proof (debit_is_decided_by_the_budget (toy_handle [1]) (example_budget (Some 1) None) "act" "acct"
      "tool/x@1" 1 (example_account (Some 1) None) ∅ ltac:(discriminate)
      (Hs 1 ltac:(by vm_compute)) (He 1) (toy_signer_works [1]) eq_refl eq_refl (Hk 1))
      as (s' & E & _ & _ & Hs').
    exists s'. split; [exact E|exact Hs'].
  - exact (debit_is_decided_by_the_budget (toy_handle [1]) (example_budget (Some 0) None) "act" "acct"
      "tool/x@1" 1 (example_account (Some 0) None) ∅ ltac:(discriminate)
      (Hs 0 ltac:(by vm_compute)) (He 0) (toy_signer_works [1]) eq_refl eq_refl (Hk 0)).
Defined.
