(* ===== verification/StoreIdentity.v ===== *)
(** * Identity in the store: principals, bindings, evidence

    [internal/action/sqlite/identity_v2.go]: the registration of the configured
    identity, the signed lifecycle of principals, the evidence an action is
    born with and the check every mutation and start goes through.  The
    identities drawn for new events are arguments. *)

From S2P Require Import Prelude Kernel Grants Json Text Encoding Digests Wire Struct Receipts Intents Authority Contracts Identity Tables.
From Stdlib Require Import Ascii String.
Local Open Scope Z_scope.
Local Open Scope korvun_scope.
#[local] Arguments String.append !_ _ : simpl nomatch.

Definition ErrBadTime : error := ErrorNew "parsing time".
Definition conflicts (what id : string) : error :=
  ErrorNew ("action/sqlite: " +:+ what +:+ " " +:+ id +:+ " conflicts with configured identity").

(** [ORDER BY revision DESC LIMIT 1]. *)
Fixpoint latest {A} (rev : A -> Z) (l : list A) : option A :=
  match l with
  | [] => None
  | r :: l' => match latest rev l' with
               | Some b => if rev b <? rev r then Some r else Some b
               | None => Some r
               end
  end.

Definition events_of (id : string) (l : list principal_event_row) : list principal_event_row :=
  filter (fun r => r.(pe_principal) = id) l.

Definition set_principals (ps : gmap string principal_row) (t : identity_tables) : identity_tables :=
  {| principals := ps; principal_events := t.(principal_events);
     principal_bindings := t.(principal_bindings); identity_evidence := t.(identity_evidence) |}.
Definition set_events (es : list principal_event_row) (t : identity_tables) : identity_tables :=
  {| principals := t.(principals); principal_events := es;
     principal_bindings := t.(principal_bindings); identity_evidence := t.(identity_evidence) |}.
Definition set_bindings (bs : gmap string Binding.t) (t : identity_tables) : identity_tables :=
  {| principals := t.(principals); principal_events := t.(principal_events);
     principal_bindings := bs; identity_evidence := t.(identity_evidence) |}.
Definition set_evidence (es : gmap string evidence_row) (t : identity_tables) : identity_tables :=
  {| principals := t.(principals); principal_events := t.(principal_events);
     principal_bindings := t.(principal_bindings); identity_evidence := es |}.

Definition change_identity (f : identity_tables -> identity_tables) : Tx unit :=
  change (fun s => with_identity (f s.(t_identity)) s).

(** What the [actions] row says about one action's birth. *)
Record storedAction := {
  sa_Snapshot : BirthSnapshot;
  sa_PrincipalID : string;
  sa_CorrelationID : string;
  sa_SourceChannel : string
}.

(** A failure of the transaction under another name. *)
Definition rename {A} (e : error) (m : Tx A) : Tx A :=
  fun s => match m s with Ok r => Ok r | Err _ => Err e end.

Section Doors.
Context (h : Handle).

Definition actionSnapshotTx (actionID : string) : Tx storedAction :=
  t ← ask t_actions;
  row ← found ErrNotFound (t.(actions) !! actionID);
  mret {| sa_Snapshot := row.(aw_snapshot); sa_PrincipalID := default "" row.(aw_principal);
          sa_CorrelationID := row.(aw_correlation);
          sa_SourceChannel := row.(aw_source).(Source.Channel) |}.

Definition null_time (column : option string) : Tx time :=
  match column with
  | None => mret 0
  | Some text => found ErrBadTime (h.(time_Parse) text)
  end.

Definition principalTx (id : string) : Tx Registered.t :=
  t ← ask t_identity;
  row ← found ErrNoRows (t.(principals) !! id);
  created ← found ErrBadTime (h.(time_Parse) row.(pr_created));
  disabled ← null_time row.(pr_disabled);
  mret {| Registered.ID := id; Registered.Kind := row.(pr_kind);
          Registered.DisplayName := row.(pr_display); Registered.CreatedAt := created;
          Registered.DisabledAt := disabled; Registered.Revision := row.(pr_revision) |}.

Definition verifyPrincipalProjectionTx (p : Registered.t) : Tx unit :=
  t ← ask t_identity;
  row ← found ErrPrincipalEvidenceCorrupt
    (latest pe_revision (events_of p.(Registered.ID) t.(principal_events)));
  event ← found ErrPrincipalEvidenceCorrupt
    (ParseCanonicalPrincipalEvent h.(time_Unmarshal) row.(pe_canonical));
  require (fail_if (bool_decide (row.(pe_revision) <> p.(Registered.Revision))
                    || bool_decide (event.(PrincipalEvent.Revision) <> p.(Registered.Revision))
                    || bool_decide (event.(PrincipalEvent.Principal) <> p)) ErrPrincipalEvidenceCorrupt);;
  '(pub, _) ← rename ErrPrincipalEvidenceCorrupt (publicKeyTx row.(pe_key));
  rename ErrPrincipalEvidenceCorrupt
    (require (VerifyPrincipalEvent h.(time_Unmarshal) h.(Ed25519_Verify) pub
      {| sp_Event := event; sp_Canonical := row.(pe_canonical); sp_Digest := row.(pe_digest);
         sp_SigningKeyID := row.(pe_key); sp_Signature := row.(pe_signature) |})).

(** The row as evidence: the three identities, the times read back. *)
Definition readEvidenceTx (actionID : string) : Tx SignedEvidence :=
  t ← ask t_identity;
  row ← found ErrIdentityEvidenceCorrupt (t.(identity_evidence) !! actionID);
  observed ← found ErrIdentityEvidenceCorrupt (h.(time_Parse) row.(er_observed));
  expires ← rename ErrIdentityEvidenceCorrupt (null_time row.(er_expires));
  mret {| sv_Evidence :=
            {| Evidence.EvidenceID := row.(er_id); Evidence.ActionID := actionID;
               Evidence.RequestID := row.(er_request);
               Evidence.RequesterPrincipalID := row.(er_requester);
               Evidence.ActorPrincipalID := row.(er_actor);
               Evidence.ResponsiblePrincipalID := default "" row.(er_responsible);
               Evidence.BindingID := row.(er_binding);
               Evidence.BindingGeneration := row.(er_generation);
               Evidence.AdapterInstanceID := row.(er_adapter);
               Evidence.Provider := row.(er_provider); Evidence.Method := row.(er_method);
               Evidence.CredentialClass := row.(er_class); Evidence.Issuer := row.(er_issuer);
               Evidence.SubjectNamespace := row.(er_namespace);
               Evidence.VerifiedSubject := row.(er_subject);
               Evidence.SubjectClaim := row.(er_claim); Evidence.ObservedAt := observed;
               Evidence.ExpiresAt := expires; Evidence.ClaimsDigest := row.(er_claims_digest) |};
          sv_Canonical := row.(er_canonical); sv_Digest := row.(er_digest);
          sv_SigningKeyID := row.(er_key); sv_Signature := row.(er_signature) |}.

Definition nullable (v : string) : option string := if bool_decide (v = "") then None else Some v.
Definition timeCol (t : time) : option string := if time_is_zero t then None else Some (rfc3339 t).

Definition known (t : identity_tables) (id : string) : bool :=
  bool_decide (is_Some (t.(principals) !! id)).

Definition insertEvidenceTx (signed : SignedEvidence) : Tx unit :=
  let e := signed.(sv_Evidence) in
  t ← ask t_identity;
  a ← ask t_actions;
  keys ← ask signing_keys;
  require (fail_if
    (existsb (fun p => bool_decide (p.2.(er_id) = e.(Evidence.EvidenceID)))
       (map_to_list t.(identity_evidence))
     || bool_decide (is_Some (t.(identity_evidence) !! e.(Evidence.ActionID)))
     || bool_decide (a.(actions) !! e.(Evidence.ActionID) = None :> option action_row)
     || negb (known t e.(Evidence.RequesterPrincipalID)) || negb (known t e.(Evidence.ActorPrincipalID))
     || match nullable e.(Evidence.ResponsiblePrincipalID) with
        | Some id => negb (known t id) | None => false end
     || negb (bool_decide (is_Some (t.(principal_bindings) !! e.(Evidence.BindingID))))
     || (e.(Evidence.BindingGeneration) <=? 0)
     || negb (bool_decide (is_Some (keys !! signed.(sv_SigningKeyID))))) ErrConstraint);;
  change_identity (fun t => set_evidence (<[e.(Evidence.ActionID) :=
    {| er_id := e.(Evidence.EvidenceID); er_request := e.(Evidence.RequestID);
       er_requester := e.(Evidence.RequesterPrincipalID); er_actor := e.(Evidence.ActorPrincipalID);
       er_responsible := nullable e.(Evidence.ResponsiblePrincipalID);
       er_binding := e.(Evidence.BindingID); er_generation := e.(Evidence.BindingGeneration);
       er_adapter := e.(Evidence.AdapterInstanceID); er_provider := e.(Evidence.Provider);
       er_method := e.(Evidence.Method); er_class := e.(Evidence.CredentialClass);
       er_issuer := e.(Evidence.Issuer); er_namespace := e.(Evidence.SubjectNamespace);
       er_subject := e.(Evidence.VerifiedSubject); er_claim := e.(Evidence.SubjectClaim);
       er_observed := rfc3339 e.(Evidence.ObservedAt); er_expires := timeCol e.(Evidence.ExpiresAt);
       er_claims_digest := e.(Evidence.ClaimsDigest); er_canonical := signed.(sv_Canonical);
       er_digest := signed.(sv_Digest); er_key := signed.(sv_SigningKeyID);
       er_signature := signed.(sv_Signature) |}]> t.(identity_evidence)) t).

(** The key a new seal is under: known and in use. *)
Definition inkTx (keyID : string) : Tx string :=
  '(pub, retired) ← rename ErrIdentityEvidenceCorrupt (publicKeyTx keyID);
  if (retired : bool) then raise ErrIdentityKeyRetired else mret pub.

Definition signEvidenceTx (evidence : Evidence.t) : Tx SignedEvidence :=
  signer ← found ErrIdentityEvidenceMissing h.(identityEvidenceSigner);
  let signed := signer evidence in
  require (fail_if (bool_decide (signed.(sv_Evidence) <> evidence)
                    || bool_decide (signed.(sv_Canonical)
                                    <> CanonicalEvidence h.(time_Unmarshal) evidence))
             ErrSignedObjectMutated);;
  pub ← inkTx signed.(sv_SigningKeyID);
  require (VerifyEvidence h.(time_Unmarshal) h.(Ed25519_Verify) pub signed);;
  mret signed.

Definition insertPrincipalEventTx (event : PrincipalEvent.t) : Tx unit :=
  signer ← found ErrIdentityEvidenceMissing h.(principalEventSigner);
  let signed := signer event in
  let id := event.(PrincipalEvent.Principal).(Registered.ID) in
  require (fail_if (bool_decide (signed.(sp_Event) <> event)
                    || bool_decide (signed.(sp_Canonical)
                                    <> CanonicalPrincipalEvent h.(time_Unmarshal) event))
             ErrSignedObjectMutated);;
  pub ← inkTx signed.(sp_SigningKeyID);
  require (VerifyPrincipalEvent h.(time_Unmarshal) h.(Ed25519_Verify) pub signed);;
  t ← ask t_identity;
  require (fail_if
    (existsb (fun r => bool_decide (r.(pe_id) = event.(PrincipalEvent.EventID))
        || bool_decide (r.(pe_principal) = id /\ r.(pe_revision) = event.(PrincipalEvent.Revision)))
       t.(principal_events)
     || negb (known t id) || (event.(PrincipalEvent.Revision) <=? 0)
     || bool_decide (event.(PrincipalEvent.Kind) ∉ ["created"; "disabled"])) ErrConstraint);;
  change_identity (fun t => set_events
    ({| pe_id := event.(PrincipalEvent.EventID); pe_principal := id;
        pe_revision := event.(PrincipalEvent.Revision); pe_kind := event.(PrincipalEvent.Kind);
        pe_occurred := rfc3339 event.(PrincipalEvent.OccurredAt);
        pe_canonical := signed.(sp_Canonical); pe_digest := signed.(sp_Digest);
        pe_key := signed.(sp_SigningKeyID); pe_signature := signed.(sp_Signature) |}
     :: t.(principal_events)) t).

(** ** Registration and lifecycle *)

(** [event_id] draws the identity of the event a new principal is born with. *)
Definition register_principal (event_id : string -> string) (at_ : time) (c : Registered.t) : Tx unit :=
  let id := c.(Registered.ID) in
  t ← ask t_identity;
  match t.(principals) !! id with
  | None =>
      let created := {| Registered.ID := id; Registered.Kind := c.(Registered.Kind);
                        Registered.DisplayName := c.(Registered.DisplayName);
                        Registered.CreatedAt := at_; Registered.DisabledAt := 0;
                        Registered.Revision := 1 |} in
      require (fail_if (negb (validPrincipalKind c.(Registered.Kind))) ErrConstraint);;
      change_identity (fun t => set_principals (<[id :=
        {| pr_kind := c.(Registered.Kind); pr_display := c.(Registered.DisplayName);
           pr_created := rfc3339 at_; pr_disabled := None; pr_revision := 1 |}]> t.(principals)) t);;
      insertPrincipalEventTx
        {| PrincipalEvent.EventID := event_id id; PrincipalEvent.Principal := created;
           PrincipalEvent.Revision := 1; PrincipalEvent.Kind := "created";
           PrincipalEvent.OccurredAt := at_ |}
  | Some _ =>
      stored ← principalTx id;
      require (fail_if (bool_decide (stored.(Registered.Kind) <> c.(Registered.Kind)))
                 (conflicts "principal" id));;
      verifyPrincipalProjectionTx stored
  end.

(** The unique index over equivalent active bindings. *)
Definition equivalent_active (a b : Binding.t) : bool :=
  bool_decide (a.(Binding.Status) = AuthBindingActive /\ b.(Binding.Status) = AuthBindingActive
    /\ a.(Binding.Provider) = b.(Binding.Provider) /\ a.(Binding.Channel) = b.(Binding.Channel)
    /\ a.(Binding.CredentialRef) = b.(Binding.CredentialRef)
    /\ a.(Binding.SubjectNamespace) = b.(Binding.SubjectNamespace)
    /\ a.(Binding.VerifiedSubject) = b.(Binding.VerifiedSubject)
    /\ a.(Binding.PrincipalID) = b.(Binding.PrincipalID)).

(** Equal but for the reference to the credential. *)
Definition same_binding (stored c : Binding.t) : bool :=
  bool_decide ({| Binding.ID := stored.(Binding.ID); Binding.Provider := stored.(Binding.Provider);
                  Binding.Channel := stored.(Binding.Channel);
                  Binding.CredentialRef := c.(Binding.CredentialRef);
                  Binding.SubjectNamespace := stored.(Binding.SubjectNamespace);
                  Binding.VerifiedSubject := stored.(Binding.VerifiedSubject);
                  Binding.PrincipalID := stored.(Binding.PrincipalID);
                  Binding.Generation := stored.(Binding.Generation);
                  Binding.Status := stored.(Binding.Status) |} = c).

Definition register_binding (c : Binding.t) : Tx unit :=
  t ← ask t_identity;
  match t.(principal_bindings) !! c.(Binding.ID) with
  | None =>
      require (fail_if
        (negb (known t c.(Binding.PrincipalID)) || (c.(Binding.Generation) <=? 0)
         || bool_decide (c.(Binding.Status) ∉ [AuthBindingActive; AuthBindingRevoked])
         || existsb (fun p => equivalent_active p.2 c) (map_to_list t.(principal_bindings)))
        ErrConstraint);;
      change_identity (fun t => set_bindings (<[c.(Binding.ID) := c]> t.(principal_bindings)) t)
  | Some stored =>
      require (fail_if (negb (same_binding stored c)) (conflicts "binding" c.(Binding.ID)))
  end.

Fixpoint for_all {A} (f : A -> Tx unit) (l : list A) : Tx unit :=
  match l with [] => mret tt | x :: l' => f x;; for_all f l' end.

Definition RegisterIdentity (event_id : string -> string) (registry : Registry) (at_ : time) : Tx unit :=
  for_all (register_principal event_id at_) registry.(Principals);;
  for_all register_binding registry.(Bindings).

Definition DisablePrincipal (event_id principalID : string) (at_ : time) : Tx unit :=
  t ← ask t_identity;
  require (fail_if (bool_decide (t.(principals) !! principalID = None)) ErrNotFound);;
  p ← principalTx principalID;
  verifyPrincipalProjectionTx p;;
  if negb (time_is_zero p.(Registered.DisabledAt)) then mret tt
  else
    let q := {| Registered.ID := p.(Registered.ID); Registered.Kind := p.(Registered.Kind);
                Registered.DisplayName := p.(Registered.DisplayName);
                Registered.CreatedAt := p.(Registered.CreatedAt); Registered.DisabledAt := at_;
                Registered.Revision := wrap64 (p.(Registered.Revision) + 1) |} in
    require (fail_if (q.(Registered.Revision) <=? 0) ErrConstraint);;
    change_identity (fun t => set_principals
      (alter (fun row => {| pr_kind := row.(pr_kind); pr_display := row.(pr_display);
                            pr_created := row.(pr_created); pr_disabled := Some (rfc3339 at_);
                            pr_revision := q.(Registered.Revision) |}) principalID t.(principals)) t);;
    insertPrincipalEventTx
      {| PrincipalEvent.EventID := event_id; PrincipalEvent.Principal := q;
         PrincipalEvent.Revision := q.(Registered.Revision); PrincipalEvent.Kind := "disabled";
         PrincipalEvent.OccurredAt := at_ |}.

(** ** The identity check of a mutation or a start *)

(** One of the three principals of an evidence. *)
Definition principal_enabledTx (now : time) (id : string) : Tx unit :=
  if bool_decide (id = "") then mret tt
  else
    p ← rename ErrIdentityEvidenceUnreadable (principalTx id);
    verifyPrincipalProjectionTx p;;
    require (fail_if (disabled_by p now) ErrPrincipalDisabled).

Definition validateResolvedEvidenceAtTx (e : Evidence.t) (env : ActionEnvelope.t) (asked now : time)
    : Tx unit :=
  require (fail_if
    (bool_decide (e.(Evidence.ActionID) <> env.(ActionEnvelope.ActionID))
     || bool_decide (e.(Evidence.RequestID) <> env.(ActionEnvelope.CorrelationID))
     || bool_decide (e.(Evidence.ActorPrincipalID)
                     <> env.(ActionEnvelope.Principal).(PrincipalRef.PrincipalID))
     || bool_decide (e.(Evidence.ResponsiblePrincipalID)
                     <> env.(ActionEnvelope.Principal).(PrincipalRef.ResponsibleHumanID))
     || bool_decide (e.(Evidence.Provider) <> env.(ActionEnvelope.Source).(Source.Channel)))
    ErrIdentityBindingMismatch);;
  require (fail_if (negb (time_is_zero e.(Evidence.ExpiresAt))
                    && negb (time_before asked e.(Evidence.ExpiresAt))) ErrIdentityEvidenceExpired);;
  for_all (principal_enabledTx now)
    [e.(Evidence.RequesterPrincipalID); e.(Evidence.ActorPrincipalID);
     e.(Evidence.ResponsiblePrincipalID)];;
  t ← ask t_identity;
  b ← found ErrIdentityEvidenceUnreadable (t.(principal_bindings) !! e.(Evidence.BindingID));
  require (fail_if
    (bool_decide (b.(Binding.Status) <> AuthBindingActive)
     || bool_decide (b.(Binding.Generation) <> e.(Evidence.BindingGeneration))
     || bool_decide (b.(Binding.PrincipalID) <> e.(Evidence.RequesterPrincipalID))
     || bool_decide (b.(Binding.Provider) <> e.(Evidence.Provider))
     || bool_decide (b.(Binding.Channel) <> e.(Evidence.Issuer))
     || bool_decide (b.(Binding.SubjectNamespace) <> e.(Evidence.SubjectNamespace))
     || bool_decide (b.(Binding.VerifiedSubject) <> e.(Evidence.VerifiedSubject)))
    ErrIdentityBindingMismatch).

(** The envelope the check is handed: only the stored row's terms matter. *)
Definition stored_envelope (actionID : string) (stored : storedAction) (responsible : string)
    : ActionEnvelope.t :=
  {| ActionEnvelope.SchemaVersion := 0; ActionEnvelope.ActionID := actionID;
     ActionEnvelope.CorrelationID := stored.(sa_CorrelationID);
     ActionEnvelope.Source := {| Source.Kind := ""; Source.Protocol := "";
                                 Source.Channel := stored.(sa_SourceChannel) |};
     ActionEnvelope.Operation := {| Operation.Namespace := ""; Operation.Name := "";
                                    Operation.Version := 0 |};
     ActionEnvelope.ParametersDigest := ""; ActionEnvelope.EffectClass := "";
     ActionEnvelope.RequestedAt := 0;
     ActionEnvelope.Principal := {| PrincipalRef.PrincipalID := stored.(sa_PrincipalID);
                                    PrincipalRef.EvidenceID := "";
                                    PrincipalRef.ResponsibleHumanID := responsible |};
     ActionEnvelope.IntentID := ""; ActionEnvelope.AuthorityRefs := [] |}.

Definition snapshot_incomplete (s : BirthSnapshot) : bool :=
  bool_decide (s.(bs_Version) <> 2) || bool_decide (s.(bs_Digest) = "")
  || bool_decide (s.(bs_Canonical) = "") || bool_decide (s.(bs_SigningKeyID) = "")
  || bool_decide (s.(bs_Signature) = "").

(** The evidence a snapshot carries, once its seal holds; [None] when it does
    not. *)
Definition sealed_evidence (actionID : string) (stored : storedAction) (s : db) : option SignedEvidence :=
  let snapshot := stored.(sa_Snapshot) in
  if snapshot_incomplete snapshot then None
  else match ParseCanonicalEvidence h.(time_Unmarshal) snapshot.(bs_Canonical) with
  | None => None
  | Some evidence =>
      if bool_decide (evidence.(Evidence.ActionID) <> actionID)
         || bool_decide (evidence.(Evidence.ActorPrincipalID) <> stored.(sa_PrincipalID))
      then None
      else
        let signed := {| sv_Evidence := evidence; sv_Canonical := snapshot.(bs_Canonical);
                         sv_Digest := snapshot.(bs_Digest);
                         sv_SigningKeyID := snapshot.(bs_SigningKeyID);
                         sv_Signature := snapshot.(bs_Signature) |} in
        match publicKeyTx snapshot.(bs_SigningKeyID) s with
        | Ok ((pub, _), _) =>
            match VerifyEvidence h.(time_Unmarshal) h.(Ed25519_Verify) pub signed with
            | None => Some signed
            | Some _ => None
            end
        | Err _ => None
        end
  end.

Definition validateActionIdentityAtTx (actionID : string) (asked now : time) : Tx unit :=
  stored ← actionSnapshotTx actionID;
  if SnapshotIsLegacy stored.(sa_Snapshot) then mret tt
  else
    s ← ask (fun s => s);
    signed ← found ErrIdentityEvidenceCorrupt (sealed_evidence actionID stored s);
    full ← readEvidenceTx actionID;
    let e := signed.(sv_Evidence) in
    require (fail_if
      (bool_decide (full.(sv_Evidence) <> e) || bool_decide (full.(sv_Digest) <> signed.(sv_Digest))
       || bool_decide (full.(sv_SigningKeyID) <> signed.(sv_SigningKeyID))
       || bool_decide (full.(sv_Signature) <> signed.(sv_Signature))
       || bool_decide (full.(sv_Canonical) <> signed.(sv_Canonical))) ErrIdentityEvidenceCorrupt);;
    require (fail_if (negb (time_is_zero e.(Evidence.ExpiresAt))
                      && negb (time_before asked e.(Evidence.ExpiresAt))) ErrIdentityEvidenceExpired);;
    validateResolvedEvidenceAtTx e
      (stored_envelope actionID stored e.(Evidence.ResponsiblePrincipalID)) asked now.

Definition validateActionIdentityV2AtTx (actionID : string) (asked now : time) : Tx Evidence.t :=
  stored ← actionSnapshotTx actionID;
  if SnapshotIsLegacy stored.(sa_Snapshot) then raise ErrIdentityEvidenceMissing
  else
    validateActionIdentityAtTx actionID asked now;;
    e ← rename ErrIdentityEvidenceCorrupt (readEvidenceTx actionID);
    mret e.(sv_Evidence).

Definition validateActionIdentityV2Tx (actionID : string) (at_ : time) : Tx Evidence.t :=
  validateActionIdentityV2AtTx actionID at_ at_.

(** ** Identity terms of a receipt *)

Record receiptIdentityTerms := {
  rt_present : bool;
  rt_status : string;
  rt_requester : string;
  rt_actor : string;
  rt_responsible : string;
  rt_evidenceHash : string;
  rt_snapshotHash : string
}.

Definition no_terms : receiptIdentityTerms :=
  {| rt_present := false; rt_status := ""; rt_requester := ""; rt_actor := ""; rt_responsible := "";
     rt_evidenceHash := ""; rt_snapshotHash := "" |}.

Definition identityReceiptTermsTx (actionID : string) (allowCorrupt : bool) : Tx receiptIdentityTerms :=
  stored ← actionSnapshotTx actionID;
  let snapshot := stored.(sa_Snapshot) in
  if SnapshotIsLegacy snapshot then mret no_terms
  else
    s ← ask (fun s => s);
    match sealed_evidence actionID stored s with
    | None =>
        if allowCorrupt
        then mret {| rt_present := true; rt_status := "corrupt"; rt_requester := ""; rt_actor := "";
                     rt_responsible := ""; rt_evidenceHash := "";
                     rt_snapshotHash := SnapshotDigest snapshot |}
        else raise ErrIdentityEvidenceCorrupt
    | Some signed =>
        let e := signed.(sv_Evidence) in
        mret {| rt_present := true; rt_status := "verified";
                rt_requester := e.(Evidence.RequesterPrincipalID);
                rt_actor := e.(Evidence.ActorPrincipalID);
                rt_responsible := e.(Evidence.ResponsiblePrincipalID);
                rt_evidenceHash := snapshot.(bs_Digest); rt_snapshotHash := SnapshotDigest snapshot |}
    end.

Definition GetIdentityEvidence (actionID : string) : Tx SignedEvidence :=
  signed ← readEvidenceTx actionID;
  '(pub, _) ← rename ErrIdentityEvidenceCorrupt (publicKeyTx signed.(sv_SigningKeyID));
  rename ErrIdentityEvidenceCorrupt
    (require (VerifyEvidence h.(time_Unmarshal) h.(Ed25519_Verify) pub signed));;
  mret signed.

End Doors.

(** ** Lemmas: reads *)

Lemma latest_max {A} (rev : A -> Z) l b : latest rev l = Some b -> b ∈ l /\ forall r, r ∈ l -> rev r <= rev b.
Proof.
  revert b. induction l as [|x l IH]; intros b; cbn [latest]; [done|].
  destruct (latest rev l) as [c|] eqn:E.
  - destruct (IH c eq_refl) as [Hc Hm]. destruct (Z.ltb_spec (rev c) (rev x)); intros [= <-].
    + split; [by left|]. intros r [->|Hr]%elem_of_cons; [lia|]. specialize (Hm r Hr). lia.
    + split; [by right|]. intros r [->|Hr]%elem_of_cons; [lia|]. by apply Hm.
  - intros [= <-]. split; [by left|]. intros r [->|Hr]%elem_of_cons; [lia|].
    destruct l as [|y l]; [by apply not_elem_of_nil in Hr|]. cbn [latest] in E.
    by repeat case_match.
Qed.

Lemma latest_new {A} (rev : A -> Z) x l : (forall r, r ∈ l -> rev r < rev x) -> latest rev (x :: l) = Some x.
Proof.
  intros H. cbn [latest]. destruct (latest rev l) as [c|] eqn:E; [|done].
  apply latest_max in E as [Hc _]. specialize (H c Hc). by rewrite (proj2 (Z.ltb_lt _ _) H).
Qed.

Lemma publicKeyTx_keys id s s1 x s' : s1.(signing_keys) = s.(signing_keys) ->
  publicKeyTx id s = Ok (x, s') -> publicKeyTx id s1 = Ok (x, s1).
Proof.
  intros Hk. unfold publicKeyTx, ask, mbind, tx_bind. rewrite Hk.
  destruct (signing_keys s !! id) as [key|]; [|done]. cbn.
  destruct (hex_decode _) as [b|]; [|done]. by case_bool_decide; [intros [= <- _]|].
Qed.

Lemma rename_Ok {A} e (m : Tx A) s r : rename e m s = Ok r <-> m s = Ok r.
Proof. unfold rename. destruct (m s); naive_solver. Qed.

#[export] Instance rename_reads {A} e (m : Tx A) : Reads m -> Reads (rename e m).
Proof. intros Hm s a s' H%rename_Ok. by apply Hm in H. Qed.

#[export] Instance null_time_reads h c : Reads (null_time h c).
Proof. unfold null_time. solve_reads. Qed.
#[export] Instance principalTx_reads h id : Reads (principalTx h id).
Proof. unfold principalTx. solve_reads. Qed.
#[export] Instance readEvidenceTx_reads h id : Reads (readEvidenceTx h id).
Proof. unfold readEvidenceTx. solve_reads. Qed.
#[export] Instance actionSnapshotTx_reads id : Reads (actionSnapshotTx id).
Proof. unfold actionSnapshotTx. solve_reads. Qed.
#[export] Instance verifyPrincipalProjectionTx_reads h p : Reads (verifyPrincipalProjectionTx h p).
Proof. unfold verifyPrincipalProjectionTx. solve_reads. Qed.
#[export] Instance principal_enabledTx_reads h now id : Reads (principal_enabledTx h now id).
Proof. unfold principal_enabledTx. solve_reads. Qed.
#[export] Instance for_all_reads {A} (f : A -> Tx unit) l : (forall x, Reads (f x)) -> Reads (for_all f l).
Proof. intros Hf. induction l as [|x l IH]; cbn [for_all]; solve_reads. Qed.
#[export] Instance validateResolvedEvidenceAtTx_reads h e env asked now :
  Reads (validateResolvedEvidenceAtTx h e env asked now).
Proof. unfold validateResolvedEvidenceAtTx. solve_reads. Qed.
#[export] Instance validateActionIdentityAtTx_reads h id asked now :
  Reads (validateActionIdentityAtTx h id asked now).
Proof. unfold validateActionIdentityAtTx. solve_reads. Qed.
#[export] Instance validateActionIdentityV2AtTx_reads h id asked now :
  Reads (validateActionIdentityV2AtTx h id asked now).
Proof. unfold validateActionIdentityV2AtTx. solve_reads. Qed.
#[export] Instance inkTx_reads key : Reads (inkTx key).
Proof. unfold inkTx. solve_reads. Qed.

(** A principal as its row says, when the row reads. *)
Definition stored_principal (h : Handle) (id : string) (row : principal_row) : option Registered.t :=
  created ← h.(time_Parse) row.(pr_created);
  disabled ← match row.(pr_disabled) with None => Some 0 | Some text => h.(time_Parse) text end;
  Some {| Registered.ID := id; Registered.Kind := row.(pr_kind);
          Registered.DisplayName := row.(pr_display); Registered.CreatedAt := created;
          Registered.DisabledAt := disabled; Registered.Revision := row.(pr_revision) |}.

Definition principal_in (h : Handle) (s : db) (id : string) (p : Registered.t) : Prop :=
  exists row, s.(t_identity).(principals) !! id = Some row /\ stored_principal h id row = Some p.

Lemma principalTx_Ok h id s p s' : principalTx h id s = Ok (p, s') <-> s' = s /\ principal_in h s id p.
Proof.
  unfold principalTx, principal_in, stored_principal, ask, mbind at 1 2 3 4, tx_bind, null_time.
  destruct (principals (t_identity s) !! id) as [row|]; [|split; [done|by intros (_ & row & ? & _)]].
  cbn [found mret tx_ret]. destruct (h.(time_Parse) row.(pr_created)) as [c|] eqn:Ec;
    cbn [found mret tx_ret raise];
    [|split; [done|intros (_ & row' & [= <-] & H); by rewrite Ec in H]].
  destruct (pr_disabled row) as [text|] eqn:Ed; cbn [found mret tx_ret raise].
  - destruct (h.(time_Parse) text) as [d|] eqn:Et; cbn [found mret tx_ret raise].
    + split.
      * intros [= <- <-]. split; [done|]. exists row. split; [done|]. rewrite Ec. cbn. by rewrite Ed, Et.
      * intros (-> & row' & [= <-] & H). rewrite Ec in H. cbn in H. rewrite Ed, Et in H. cbn in H.
        by injection H as <-.
    + split; [done|]. intros (_ & row' & [= <-] & H). rewrite Ec in H. cbn in H. by rewrite Ed, Et in H.
  - split.
    + intros [= <- <-]. split; [done|]. exists row. split; [done|]. rewrite Ec. cbn. by rewrite Ed.
    + intros (-> & row' & [= <-] & H). rewrite Ec in H. cbn in H. rewrite Ed in H. cbn in H.
      by injection H as <-.
Qed.

(** The newest signed event of a principal says what the row says. *)
Definition projected (h : Handle) (s : db) (p : Registered.t) : Prop :=
  exists row event pub retired,
    latest pe_revision (events_of p.(Registered.ID) s.(t_identity).(principal_events)) = Some row
    /\ ParseCanonicalPrincipalEvent h.(time_Unmarshal) row.(pe_canonical) = Some event
    /\ row.(pe_revision) = p.(Registered.Revision)
    /\ event.(PrincipalEvent.Revision) = p.(Registered.Revision)
    /\ event.(PrincipalEvent.Principal) = p
    /\ publicKeyTx row.(pe_key) s = Ok ((pub, retired), s)
    /\ VerifyPrincipalEvent h.(time_Unmarshal) h.(Ed25519_Verify) pub
         {| sp_Event := event; sp_Canonical := row.(pe_canonical); sp_Digest := row.(pe_digest);
            sp_SigningKeyID := row.(pe_key); sp_Signature := row.(pe_signature) |} = None.

Lemma verifyPrincipalProjectionTx_Ok h p s s' :
  verifyPrincipalProjectionTx h p s = Ok (tt, s') <-> s' = s /\ projected h s p.
Proof.
  split.
  - intros H. pose proof (reads _ _ _ H) as ->. split; [done|]. unfold verifyPrincipalProjectionTx in H.
    apply tx_bind_Ok in H as (t & s1 & E & H). apply ask_Ok in E as [= -> ->].
    apply tx_bind_Ok in H as (row & s1 & E & H). apply found_Ok in E as (row' & Hrow & [= -> ->]).
    apply tx_bind_Ok in H as (event & s1 & E & H). apply found_Ok in E as (event' & Hev & [= -> ->]).
    apply tx_bind_Ok in H as ([] & s1 & E & H). apply require_fail_Ok in E as [E [= ->]].
    apply tx_bind_Ok in H as ([pub retired] & s1 & E' & H). apply rename_Ok in E'.
    pose proof (reads _ _ _ E') as ->. apply rename_Ok, require_Ok in H as [Hv _].
    passed. exists row', event', pub, retired. done.
  - intros (-> & row & event & pub & retired & H1 & H2 & H3 & H4 & H5 & H6 & H7).
    unfold verifyPrincipalProjectionTx, ask, mbind, tx_bind. rewrite H1. cbn [found mret tx_ret].
    rewrite H2. cbn [found mret tx_ret]. rewrite H3, H4, H5, !bool_decide_eq_false_2 by tauto.
    cbn [orb fail_if require mret tx_ret]. unfold rename at 1. rewrite H6. unfold rename. by rewrite H7.
Qed.

(** ** The invariant of the identity tables *)

(** Every principal reads, and is what its newest signed event says; events
    belong to principals that exist. *)
Record identity_sound (h : Handle) (s : db) : Prop := {
  is_projected : forall id row, s.(t_identity).(principals) !! id = Some row ->
    exists p, stored_principal h id row = Some p /\ projected h s p;
  is_known : forall r, r ∈ s.(t_identity).(principal_events) ->
    is_Some (s.(t_identity).(principals) !! r.(pe_principal));
  is_range : forall id row, s.(t_identity).(principals) !! id = Some row ->
    0 < row.(pr_revision) /\ int64_range row.(pr_revision);
}.

(** The signed row of an event. *)
Definition event_row (e : PrincipalEvent.t) (signed : SignedPrincipalEvent) : principal_event_row :=
  {| pe_id := e.(PrincipalEvent.EventID); pe_principal := e.(PrincipalEvent.Principal).(Registered.ID);
     pe_revision := e.(PrincipalEvent.Revision); pe_kind := e.(PrincipalEvent.Kind);
     pe_occurred := rfc3339 e.(PrincipalEvent.OccurredAt); pe_canonical := signed.(sp_Canonical);
     pe_digest := signed.(sp_Digest); pe_key := signed.(sp_SigningKeyID);
     pe_signature := signed.(sp_Signature) |}.

Lemma insertPrincipalEventTx_Ok h e s s' : insertPrincipalEventTx h e s = Ok (tt, s') ->
  exists signed pub retired, signed.(sp_Event) = e
    /\ publicKeyTx signed.(sp_SigningKeyID) s = Ok ((pub, retired), s)
    /\ VerifyPrincipalEvent h.(time_Unmarshal) h.(Ed25519_Verify) pub signed = None
    /\ is_Some (s.(t_identity).(principals) !! e.(PrincipalEvent.Principal).(Registered.ID))
    /\ 0 < e.(PrincipalEvent.Revision)
    /\ s' = with_identity
         (set_events (event_row e signed :: s.(t_identity).(principal_events)) s.(t_identity)) s.
Proof.
  unfold insertPrincipalEventTx. intros H.
  apply tx_bind_Ok in H as (signer & s1 & E & H). apply found_Ok in E as (signer' & _ & [= -> ->]).
  apply tx_bind_Ok in H as ([] & s1 & E & H). apply require_fail_Ok in E as [E [= ->]].
  apply tx_bind_Ok in H as (pub & s1 & Ek & H). pose proof (reads _ _ _ Ek) as ->.
  apply tx_bind_Ok in H as ([] & s1 & Ev & H). apply require_Ok in Ev as [Ev [= ->]].
  apply tx_bind_Ok in H as (t & s1 & Et & H). apply ask_Ok in Et as [= -> ->].
  apply tx_bind_Ok in H as ([] & s1 & Ec & H). apply require_fail_Ok in Ec as [Ec [= ->]].
  apply change_Ok in H as [= ->]. unfold known in Ec. passed.
  unfold inkTx in Ek. apply tx_bind_Ok in Ek as ([pub' retired] & s1 & Ek & H').
  apply rename_Ok in Ek. pose proof (reads _ _ _ Ek) as ->.
  destruct retired; [by apply raise_Ok in H'|]. apply tx_ret_Ok in H' as [= ->].
  exists (signer' e), pub', false. done.
Qed.

(** A row written together with its signed event keeps the tables sound. *)
Lemma event_sound h s id row p e signed pub retired :
  identity_sound h s -> stored_principal h id row = Some p -> e.(PrincipalEvent.Principal) = p ->
  e.(PrincipalEvent.Revision) = p.(Registered.Revision) -> signed.(sp_Event) = e ->
  publicKeyTx signed.(sp_SigningKeyID) s = Ok ((pub, retired), s) ->
  VerifyPrincipalEvent h.(time_Unmarshal) h.(Ed25519_Verify) pub signed = None ->
  (forall r, r ∈ events_of id s.(t_identity).(principal_events) ->
     r.(pe_revision) < p.(Registered.Revision)) ->
  0 < row.(pr_revision) /\ int64_range row.(pr_revision) ->
  identity_sound h (with_identity (set_events (event_row e signed :: s.(t_identity).(principal_events))
    (set_principals (<[id := row]> s.(t_identity).(principals)) s.(t_identity))) s).
Proof.
  intros [Hp Hk Hg] Hrow He Hrev Hse Hpub Hver Hnew Hrange.
  assert (p.(Registered.ID) = id) as Hid.
  { unfold stored_principal in Hrow. destruct (h.(time_Parse) _); [|done]. cbn in Hrow.
    by destruct (match pr_disabled row with Some _ => _ | _ => _ end); [injection Hrow as <-|]. }
  split; cbn [t_identity with_identity set_events set_principals principals principal_events].
  - intros id' row' Hrow'. apply lookup_insert_Some in Hrow' as [[<- <-]|[Hne Hrow']].
    + exists p. split; [done|]. exists (event_row e signed), e, pub, retired.
      apply VerifyPrincipalEvent_None in Hver as (V1 & V2 & V3 & V4). rewrite Hse in V1.
      split_and!; try done; cbn [event_row pe_canonical pe_revision pe_key].
      * rewrite Hid. unfold events_of. cbn [t_identity with_identity set_events principal_events].
        rewrite filter_cons_True by (cbn; by rewrite He). by apply latest_new; cbn; rewrite Hrev.
      * by eapply (publicKeyTx_keys _ s).
      * apply VerifyPrincipalEvent_None. cbn. done.
    + destruct (Hp _ _ Hrow') as (p' & Hp' & r & ev & pk & rt & H1 & H2 & H3 & H4 & H5 & H6 & H7).
      exists p'. split; [done|]. exists r, ev, pk, rt. split_and!; try done.
      * unfold events_of. cbn [t_identity with_identity set_events principal_events].
        assert (p'.(Registered.ID) = id') as Hid'.
        { unfold stored_principal in Hp'. destruct (h.(time_Parse) _); [|done]. cbn in Hp'.
          by destruct (match pr_disabled row' with Some _ => _ | _ => _ end); [injection Hp' as <-|]. }
        rewrite filter_cons_False by (cbn; rewrite He, Hid, Hid'; done). exact H1.
      * by eapply (publicKeyTx_keys _ s).
  - intros r [->|Hr]%elem_of_cons.
    + cbn [event_row pe_principal]. rewrite He, Hid, lookup_insert_eq. by eexists.
    + destruct (decide (id = r.(pe_principal))) as [->|Hne]; [rewrite lookup_insert_eq; by eexists|].
      rewrite lookup_insert_ne by done. by apply Hk.
  - intros id' row' [[<- <-]|[_ Hrow']]%lookup_insert_Some; [done|by eapply Hg].
Qed.

(** What the doors never undo: a principal's kind and birth, that it is
    disabled and since when (the zero instant is no instant), a binding. *)
Record identity_grows (h : Handle) (s s' : db) : Prop := {
  ig_principals : forall id row, s.(t_identity).(principals) !! id = Some row ->
    exists row', s'.(t_identity).(principals) !! id = Some row' /\ row'.(pr_kind) = row.(pr_kind)
      /\ row'.(pr_created) = row.(pr_created)
      /\ forall d, row.(pr_disabled) = Some d -> h.(time_Parse) d <> Some 0 ->
           row'.(pr_disabled) = Some d;
  ig_bindings : forall id b, s.(t_identity).(principal_bindings) !! id = Some b ->
    s'.(t_identity).(principal_bindings) !! id = Some b;
  ig_rest : signing_keys s' = signing_keys s /\ identity_evidence (t_identity s') = identity_evidence (t_identity s)
    /\ t_actions s' = t_actions s /\ t_budget s' = t_budget s /\ t_grants s' = t_grants s
    /\ t_intents s' = t_intents s;
}.

#[export] Instance identity_grows_refl h : Reflexive (identity_grows h).
Proof. intros s. split; [intros id row ->; by exists row|done|done]. Qed.

#[export] Instance identity_grows_trans h : Transitive (identity_grows h).
Proof.
  intros a b c [P1 B1 (R1 & R2 & R3 & R4 & R5 & R6)] [P2 B2 (Q1 & Q2 & Q3 & Q4 & Q5 & Q6)]. split.
  - intros id row (row' & H1 & K1 & C1 & D1)%P1. apply P2 in H1 as (row2 & H2 & K2 & C2 & D2).
    exists row2. split_and!; [done|congruence|congruence|]. intros d Hd Hz. by apply D2; [apply D1|].
  - intros id x Hx. by apply B2, B1.
  - split_and!; congruence.
Qed.

Definition door (h : Handle) (s s' : db) : Prop := identity_sound h s' /\ identity_grows h s s'.

Lemma door_refl h s : identity_sound h s -> door h s s.
Proof. by split. Qed.

Lemma no_events h s id : identity_sound h s -> s.(t_identity).(principals) !! id = None ->
  events_of id s.(t_identity).(principal_events) = [].
Proof.
  intros [_ Hk _] Hn. unfold events_of. apply elem_of_nil_inv. intros r [Hr1 Hr2]%list_elem_of_filter.
  destruct (Hk r Hr2) as [row Hrow]. congruence.
Qed.

Lemma register_principal_Ok h event_id at_ c s s' :
  h.(time_Parse) (rfc3339 at_) = Some at_ -> identity_sound h s ->
  register_principal h event_id at_ c s = Ok (tt, s') -> door h s s'.
Proof.
  intros Ht Hs. unfold register_principal. intros H.
  apply tx_bind_Ok in H as (t & s1 & E & H). apply ask_Ok in E as [= -> ->].
  destruct (principals (t_identity s) !! c.(Registered.ID)) as [row|] eqn:Erow.
  - apply reads in H as ->. by apply door_refl.
  - apply tx_bind_Ok in H as ([] & s1 & E & H). apply require_fail_Ok in E as [_ [= ->]].
    apply tx_bind_Ok in H as ([] & s1 & E & H). apply change_Ok in E as [= ->].
    apply insertPrincipalEventTx_Ok in H as (signed & pub & retired & H1 & H2 & H3 & _ & _ & ->).
    split.
    + eapply (event_sound h s c.(Registered.ID) {| pr_kind := c.(Registered.Kind);
        pr_display := c.(Registered.DisplayName); pr_created := rfc3339 at_; pr_disabled := None;
        pr_revision := 1 |} _ _ signed pub retired Hs); [|reflexivity|reflexivity|exact H1| |exact H3| |done].
      * unfold stored_principal. cbn [pr_created pr_disabled]. by rewrite Ht.
      * by refine (publicKeyTx_keys _ _ s _ _ _ H2).
      * rewrite (no_events h s) by done. intros r Hr. by apply not_elem_of_nil in Hr.
    + split; cbn.
      * intros id row Hrow. exists row. split_and!; [|done..].
        rewrite lookup_insert_ne; [done|]. intros <-. congruence.
      * done.
      * done.
Qed.

Lemma register_binding_Ok h c s s' : identity_sound h s ->
  register_binding c s = Ok (tt, s') -> door h s s'.
Proof.
  intros Hs. unfold register_binding. intros H.
  apply tx_bind_Ok in H as (t & s1 & E & H). apply ask_Ok in E as [= -> ->].
  destruct (principal_bindings (t_identity s) !! c.(Binding.ID)) as [b|] eqn:Eb.
  - apply reads in H as ->. by apply door_refl.
  - apply tx_bind_Ok in H as ([] & s1 & E & H). apply require_fail_Ok in E as [_ [= ->]].
    apply change_Ok in H as [= ->]. split.
    + destruct Hs as [Hp Hk Hg]. split; cbn; [|done|done]. intros id row Hrow.
      destruct (Hp id row Hrow) as (p & Hp1 & r & ev & pk & rt & V1 & V2 & V3 & V4 & V5 & V6 & V7).
      exists p. split; [done|]. exists r, ev, pk, rt. split_and!; try done. by refine (publicKeyTx_keys _ _ _ _ _ _ V6).
    + split; cbn; [intros id row ->; by exists row| |done].
      intros id x Hx. rewrite lookup_insert_ne; [done|]. intros <-. congruence.
Qed.

Lemma for_all_doors {A} h (f : A -> Tx unit) l s s' :
  (forall x t t', identity_sound h t -> f x t = Ok (tt, t') -> door h t t') ->
  identity_sound h s -> for_all f l s = Ok (tt, s') -> door h s s'.
Proof.
  intros Hf. revert s. induction l as [|x l IH]; intros s Hs H; cbn [for_all] in H.
  - apply tx_ret_Ok in H as [= ->]. by apply door_refl.
  - apply tx_bind_Ok in H as ([] & s1 & E & H). apply Hf in E as [Hs1 G1]; [|done].
    destruct (IH s1 Hs1 H) as [Hs2 G2]. split; [done|]. by etrans.
Qed.

Lemma RegisterIdentity_Ok h event_id registry at_ s s' :
  h.(time_Parse) (rfc3339 at_) = Some at_ -> identity_sound h s ->
  RegisterIdentity h event_id registry at_ s = Ok (tt, s') -> door h s s'.
Proof.
  intros Ht Hs H. unfold RegisterIdentity in H. apply tx_bind_Ok in H as ([] & s1 & E & H).
  apply (for_all_doors h) in E as [Hs1 G1];
    [|intros x t t' Hx; by apply register_principal_Ok|done].
  apply (for_all_doors h) in H as [Hs2 G2]; [|intros x t t' Hx; by apply register_binding_Ok|done].
  split; [done|]. by etrans.
Qed.

Lemma stored_principal_parts h id row p : stored_principal h id row = Some p ->
  p.(Registered.ID) = id /\ p.(Registered.Kind) = row.(pr_kind)
  /\ p.(Registered.Revision) = row.(pr_revision)
  /\ h.(time_Parse) row.(pr_created) = Some p.(Registered.CreatedAt)
  /\ match row.(pr_disabled) with
     | None => p.(Registered.DisabledAt) = 0
     | Some text => h.(time_Parse) text = Some p.(Registered.DisabledAt)
     end.
Proof.
  unfold stored_principal. destruct (h.(time_Parse) row.(pr_created)); [|done]. cbn.
  destruct (pr_disabled row) as [text|]; [destruct (h.(time_Parse) text); [|done]|];
    cbn; intros [= <-]; done.
Qed.

(** A disable that commits: the row was known, and is disabled from then on. *)
Lemma DisablePrincipal_Ok h event_id id at_ s s' :
  h.(time_Parse) (rfc3339 at_) = Some at_ -> identity_sound h s ->
  DisablePrincipal h event_id id at_ s = Ok (tt, s') ->
  door h s s' /\ exists row, s.(t_identity).(principals) !! id = Some row
    /\ (row.(pr_disabled) = None -> exists row', s'.(t_identity).(principals) !! id = Some row'
          /\ row'.(pr_disabled) = Some (rfc3339 at_)).
Proof.
  intros Ht Hs H. unfold DisablePrincipal in H.
  apply tx_bind_Ok in H as (t & s1 & E & H). apply ask_Ok in E as [= -> ->].
  apply tx_bind_Ok in H as ([] & s1 & E & H). apply require_fail_Ok in E as [Hknown [= ->]].
  apply tx_bind_Ok in H as (p & s1 & E & H). apply principalTx_Ok in E as (-> & row & Hrow & Hst).
  apply tx_bind_Ok in H as ([] & s1 & E & H). apply verifyPrincipalProjectionTx_Ok in E as (-> & Hpr).
  pose proof (stored_principal_parts _ _ _ _ Hst) as (P1 & P2 & P3 & P4 & P5).
  destruct (negb (time_is_zero _)) eqn:Ez.
  { apply tx_ret_Ok in H as [= ->]. split; [by apply door_refl|]. exists row. split; [done|].
    intros Hd. rewrite Hd in P5. rewrite P5 in Ez. done. }
  apply tx_bind_Ok in H as ([] & s1 & E & H). apply require_fail_Ok in E as [Hrev [= ->]].
  apply tx_bind_Ok in H as ([] & s1 & E & H). apply change_Ok in E as [= ->].
  cbn [Registered.Revision] in *. set (rev := wrap64 (p.(Registered.Revision) + 1)) in *.
  set (row' := {| pr_kind := row.(pr_kind); pr_display := row.(pr_display);
                  pr_created := row.(pr_created); pr_disabled := Some (rfc3339 at_);
                  pr_revision := rev |}).
  assert (alter (fun row => {| pr_kind := row.(pr_kind); pr_display := row.(pr_display);
            pr_created := row.(pr_created); pr_disabled := Some (rfc3339 at_); pr_revision := rev |})
          id s.(t_identity).(principals) = <[id := row']> s.(t_identity).(principals)) as Halter.
  { apply map_eq. intros k. destruct (decide (id = k)) as [->|Hne].
    - by rewrite lookup_alter_eq, lookup_insert_eq, Hrow.
    - by rewrite lookup_alter_ne, lookup_insert_ne. }
  rewrite Halter in H. clear Halter.
  apply insertPrincipalEventTx_Ok in H as (signed & pub & retired & H1 & H2 & H3 & _ & Hpos & ->).
  cbn [PrincipalEvent.Revision] in Hpos. split; [split|].
  - pose proof (wrap64_range (p.(Registered.Revision) + 1)) as Hwr. fold rev in Hwr.
    eapply (event_sound h s id row' _ _ signed pub retired Hs);
      [|reflexivity|reflexivity|exact H1| |exact H3| |done].
    + unfold stored_principal, row'. cbn [pr_created pr_disabled pr_kind pr_display pr_revision].
      rewrite P4, P1, P2. cbn [mbind option_bind]. rewrite Ht. cbn [mbind option_bind].
      unfold stored_principal in Hst. rewrite P4 in Hst. cbn [mbind option_bind] in Hst.
      destruct (match pr_disabled row with Some _ => _ | _ => _ end); [|done].
      cbn [mbind option_bind] in Hst. by injection Hst as <-.
    + by refine (publicKeyTx_keys _ _ s _ _ _ H2).
    + intros r Hr. cbn [PrincipalEvent.Principal Registered.Revision].
      destruct Hpr as (top & _ & _ & _ & Htop & _ & Hrevp & _). rewrite P1 in Htop.
      apply latest_max in Htop as [_ Hmax]. specialize (Hmax r Hr). rewrite Hrevp in Hmax.
      destruct (is_range _ _ Hs _ _ Hrow) as [R1 R2]. rewrite <- P3 in R1, R2.
      assert (Hsucc : rev = p.(Registered.Revision) + 1); [|rewrite Hsucc; lia].
      apply wrap64_succ; [exact R2|lia|]. change (0 <= rev). apply Z.leb_gt in Hrev. lia.
  - split; cbn; [|done|done]. intros id' r Hr. destruct (decide (id = id')) as [<-|Hne].
    + rewrite Hrow in Hr. injection Hr as <-. exists row'. rewrite lookup_insert_eq.
      split_and!; [done..|]. intros d Hd Hz. rewrite Hd in P5. exfalso. apply Hz.
      apply negb_false_iff, bool_decide_eq_true in Ez. by rewrite P5, Ez.
    + exists r. by rewrite lookup_insert_ne.
  - exists row. split; [done|]. intros _. exists row'. split; [|done]. cbn. by rewrite lookup_insert_eq.
Qed.

(** ** What the gate admits *)

Definition enabled (h : Handle) (s : db) (now : time) (id : string) : Prop :=
  id = "" \/ exists p, principal_in h s id p /\ disabled_by p now = false.

(** Evidence of the action at hand, alive when asked, of principals enabled
    now, under a binding that is still the one it names. *)
Record admitted (h : Handle) (s : db) (e : Evidence.t) (env : ActionEnvelope.t) (asked now : time)
    : Prop := {
  ad_terms : e.(Evidence.ActionID) = env.(ActionEnvelope.ActionID)
    /\ e.(Evidence.RequestID) = env.(ActionEnvelope.CorrelationID)
    /\ e.(Evidence.ActorPrincipalID) = env.(ActionEnvelope.Principal).(PrincipalRef.PrincipalID)
    /\ e.(Evidence.ResponsiblePrincipalID)
       = env.(ActionEnvelope.Principal).(PrincipalRef.ResponsibleHumanID)
    /\ e.(Evidence.Provider) = env.(ActionEnvelope.Source).(Source.Channel);
  ad_alive : e.(Evidence.ExpiresAt) = 0 \/ asked < e.(Evidence.ExpiresAt);
  ad_enabled : Forall (enabled h s now)
    [e.(Evidence.RequesterPrincipalID); e.(Evidence.ActorPrincipalID);
     e.(Evidence.ResponsiblePrincipalID)];
  ad_binding : exists b, s.(t_identity).(principal_bindings) !! e.(Evidence.BindingID) = Some b
    /\ b.(Binding.Status) = AuthBindingActive /\ b.(Binding.Generation) = e.(Evidence.BindingGeneration)
    /\ b.(Binding.PrincipalID) = e.(Evidence.RequesterPrincipalID)
    /\ b.(Binding.Provider) = e.(Evidence.Provider) /\ b.(Binding.Channel) = e.(Evidence.Issuer)
    /\ b.(Binding.SubjectNamespace) = e.(Evidence.SubjectNamespace)
    /\ b.(Binding.VerifiedSubject) = e.(Evidence.VerifiedSubject);
}.

Lemma for_all_reads_Ok {A} (f : A -> Tx unit) l s s' : (forall x, Reads (f x)) ->
  for_all f l s = Ok (tt, s') <-> s' = s /\ Forall (fun x => f x s = Ok (tt, s)) l.
Proof.
  intros Hf. revert s'. induction l as [|x l IH]; intros s'; cbn [for_all].
  - rewrite tx_ret_Ok. split; [by intros [= ->]|by intros [-> _]].
  - rewrite tx_bind_Ok, Forall_cons. split.
    + intros ([] & s1 & E & H). pose proof (Hf x _ _ _ E) as ->. apply IH in H as [-> H]. done.
    + intros (-> & E & H). exists tt, s. split; [exact E|]. by apply IH.
Qed.

Lemma principal_enabledTx_Ok h now id s : identity_sound h s ->
  principal_enabledTx h now id s = Ok (tt, s) <-> enabled h s now id.
Proof.
  intros Hs. unfold principal_enabledTx, enabled. case_bool_decide as Eid; [by split; [left|]|].
  rewrite tx_bind_Ok. split.
  - intros (p & s1 & E & H). apply rename_Ok, principalTx_Ok in E as (-> & Hp).
    apply tx_bind_Ok in H as ([] & s1 & E & H). apply verifyPrincipalProjectionTx_Ok in E as (-> & _).
    apply require_fail_Ok in H as [Hd _]. right. by exists p.
  - intros [->|(p & Hp & Hd)]; [done|]. exists p, s. split; [by apply rename_Ok, principalTx_Ok|].
    apply tx_bind_Ok. exists tt, s. split; [|by apply require_fail_Ok].
    apply verifyPrincipalProjectionTx_Ok. split; [done|]. destruct Hp as (row & Hrow & Hst).
    destruct (is_projected _ _ Hs _ _ Hrow) as (p' & Hst' & Hpr). by simplify_eq.
Qed.

Lemma gate_Ok h s e env asked now : identity_sound h s ->
  validateResolvedEvidenceAtTx h e env asked now s = Ok (tt, s) <-> admitted h s e env asked now.
Proof.
  intros Hs. unfold validateResolvedEvidenceAtTx. split.
  - intros H. apply tx_bind_Ok in H as ([] & s1 & E1 & H). apply require_fail_Ok in E1 as [E1 [= ->]].
    apply tx_bind_Ok in H as ([] & s1 & E2 & H). apply require_fail_Ok in E2 as [E2 [= ->]].
    apply tx_bind_Ok in H as ([] & s1 & E3 & H). apply for_all_reads_Ok in E3 as [-> E3]; [|apply _].
    apply tx_bind_Ok in H as (t & s1 & E4 & H). apply ask_Ok in E4 as [= -> ->].
    apply tx_bind_Ok in H as (b & s1 & E4 & H). apply found_Ok in E4 as (b' & Hb & [= -> ->]).
    apply require_fail_Ok in H as [E5 _]. unfold time_is_zero, time_before in E2. passed. split.
    + done.
    + destruct E2 as [E2|E2]; bools; [by left|by right].
    + eapply Forall_impl; [exact E3|]. intros id. by apply principal_enabledTx_Ok.
    + by exists b'.
  - intros [(A1 & A2 & A3 & A4 & A5) Hal Hen (b & Hb & B1 & B2 & B3 & B4 & B5 & B6 & B7)].
    apply tx_bind_Ok. exists tt, s. split.
    { apply require_fail_Ok. split; [|done]. rewrite A1, A2, A3, A4, A5.
      by rewrite !bool_decide_eq_false_2 by tauto. }
    apply tx_bind_Ok. exists tt, s. split.
    { apply require_fail_Ok. split; [|done]. unfold time_is_zero, time_before.
      destruct Hal as [->|Hlt]; [done|]. by rewrite (proj2 (Z.ltb_lt _ _) Hlt), andb_false_r. }
    apply tx_bind_Ok. exists tt, s. split.
    { apply for_all_reads_Ok; [apply _|]. split; [done|]. eapply Forall_impl; [exact Hen|].
      intros id. by apply principal_enabledTx_Ok. }
    apply tx_bind_Ok. exists s.(t_identity), s. split; [done|].
    apply tx_bind_Ok. exists b, s. split; [apply found_Ok; by exists b|].
    apply require_fail_Ok. split; [|done]. rewrite B1, B2, B3, B4, B5, B6, B7.
    by rewrite !bool_decide_eq_false_2 by tauto.
Qed.

(** The doors that write identity, at instants the store reads back. *)
Inductive identity_step (h : Handle) (s s' : db) : Prop :=
| step_register event_id registry at_ : h.(time_Parse) (rfc3339 at_) = Some at_ ->
    RegisterIdentity h event_id registry at_ s = Ok (tt, s') -> identity_step h s s'
| step_disable event_id id at_ : h.(time_Parse) (rfc3339 at_) = Some at_ ->
    DisablePrincipal h event_id id at_ s = Ok (tt, s') -> identity_step h s s'.

Lemma identity_steps_door h s s' : identity_sound h s -> rtc (identity_step h) s s' -> door h s s'.
Proof.
  intros Hs H. induction H as [s|s s1 s' H _ IH]; [by apply door_refl|].
  assert (door h s s1) as [Hs1 G1].
  { destruct H as [? ? ? Ht H|? ? ? Ht H]; [by eapply RegisterIdentity_Ok|].
    apply DisablePrincipal_Ok in H as [H _]; done. }
  destruct (IH Hs1) as [Hs2 G2]. split; [done|]. by etrans.
Qed.


(** ** A concrete store *)

Definition identity_clock : Handle := toy_handle [0; 1000 * Second; 2000 * Second].

Lemma identity_clock_back t : t ∈ [0; 1000 * Second; 2000 * Second] ->
  identity_clock.(time_Parse) (rfc3339 t) = Some t.
Proof.
  apply recall_times_back. repeat (apply Forall_cons; split; [by vm_compute|]). apply Forall_nil_2.
Qed.

Lemma empty_identity_sound : identity_sound identity_clock empty_db.
Proof.
  split.
  - intros id row H. change ((∅ : gmap string principal_row) !! id = Some row) in H.
    by apply lookup_empty_Some in H.
  - intros r Hr. by apply not_elem_of_nil in Hr.
  - intros id row H. change ((∅ : gmap string principal_row) !! id = Some row) in H.
    by apply lookup_empty_Some in H.
Qed.

Definition registered_db : db := Eval vm_compute in
  match RegisterIdentity identity_clock (fun id => "pev_" +:+ id) example_registry (1000 * Second) empty_db with
  | Ok (_, s) => s
  | Err _ => empty_db
  end.

Lemma registered : RegisterIdentity identity_clock (fun id => "pev_" +:+ id) example_registry
  (1000 * Second) empty_db = Ok (tt, registered_db).
Proof. vm_compute. reflexivity. Qed.

Lemma registered_sound : identity_sound identity_clock registered_db.
Proof.
  refine (proj1 (RegisterIdentity_Ok _ _ _ _ _ _ _ empty_identity_sound registered)).
  apply identity_clock_back. right. left.
Qed.

Definition disabled_db : db := Eval vm_compute in
  match DisablePrincipal identity_clock "pev_off" "principal_brain_a" (2000 * Second) registered_db with
  | Ok (_, s) => s
  | Err _ => empty_db
  end.

Definition row_of (o : option principal_row) : principal_row :=
  default {| pr_kind := ""; pr_display := ""; pr_created := ""; pr_disabled := None; pr_revision := 0 |} o.

