(* ===== verification/StoreIntents.v ===== *)
(** * Intents in the store: signed terms, lifecycle and bindings

    [internal/action/sqlite/intent_v2.go]: the doors that create, activate,
    revoke and expire an intent of version 2, the walk over its signed
    lifecycle, the resolution of an intent at use time and the bindings that
    select one; [activeIntentTx] of [authority_v2.go]; and the receipt every
    such door appends ([ledger.go]).  The identities drawn for new events and
    receipts are arguments.  A door that reads in several statements reads one
    state here. *)

From S2P Require Import Prelude Kernel Grants Json Text Encoding Digests Wire Struct Receipts Intents Authority Contracts Identity Tables StoreBudget StoreIdentity.
From Stdlib Require Import Ascii String.
Import Lifecycle.
Local Open Scope Z_scope.
Local Open Scope korvun_scope.
#[local] Arguments String.append !_ _ : simpl nomatch.

#[export] Instance intent_event_eq : EqDecision IntentEventV1.t.
Proof. solve_decision. Defined.

Definition ErrIntentSignedObjectMutated : error := ErrorNew "action: signed object mutated".
Definition ErrAmbiguousIntentBinding : error := ErrorNew "action: ambiguous intent binding".
Definition ErrIntentTerms : error := ErrorNew "action: intent terms do not parse".
Definition ErrNullColumn : error := ErrorNew "sql: Scan error".
Definition signer_unavailable (what : string) : error :=
  ErrorNew ("action/sqlite: " +:+ what +:+ " signer unavailable").

Definition change_intents (f : intent_tables -> intent_tables) : Tx unit :=
  change (fun s => with_intents (f s.(t_intents)) s).

Definition set_versions (m : gmap (string * Z) intent_row) (t : intent_tables) : intent_tables :=
  {| intent_versions := m; intent_events := t.(intent_events); intent_heads := t.(intent_heads);
     bindings := t.(bindings) |}.
Definition set_intent_events (l : list intent_event_row) (t : intent_tables) : intent_tables :=
  {| intent_versions := t.(intent_versions); intent_events := l; intent_heads := t.(intent_heads);
     bindings := t.(bindings) |}.
Definition set_heads (m : gmap string intent_head_row) (t : intent_tables) : intent_tables :=
  {| intent_versions := t.(intent_versions); intent_events := t.(intent_events); intent_heads := m;
     bindings := t.(bindings) |}.
Definition put_bindings (l : list binding_row) (t : intent_tables) : intent_tables :=
  {| intent_versions := t.(intent_versions); intent_events := t.(intent_events);
     intent_heads := t.(intent_heads); bindings := l |}.

Definition events_of_intent (id : string) (l : list intent_event_row) : list intent_event_row :=
  filter (fun r => r.(ie_intent) = id) l.

(** [ORDER BY revision]. *)
Definition by_revision : intent_event_row -> intent_event_row -> Prop := on ie_revision Z.le.
#[export] Instance by_revision_dec : RelDecision by_revision.
Proof. intros x y. unfold by_revision, on. apply _. Defined.

(** The receipt an operator's act leaves; unset columns are empty. *)
Definition act_receipt (receiptID actionID intentDigest principalID decisionDigest actionDigest : string)
    (at_ : time) : Receipt :=
  {| ReceiptID := receiptID; SchemaVersion := 2; ActionID := actionID; IntentDigest := intentDigest;
     PrincipalID := principalID; AuthorityDigest := ""; DecisionDigest := decisionDigest;
     ActionDigest := actionDigest; EffectClass := Effect.EffectPure; Attempt := 1;
     Outcome := ActionState.StateSucceeded; ResultDigest := ""; ApprovalDigest := "";
     IdentityStatus := ""; RequesterPrincipalID := ""; ActorPrincipalID := "";
     ResponsiblePrincipalID := ""; IdentityEvidenceDigest := ""; IdentitySnapshotDigest := "";
     StartedAt := at_; FinishedAt := at_; Partition := ""; ChainSeq := 0; PreviousReceiptHash := "";
     ReceiptHash := ""; SigningKeyID := ""; Signature := "" |}.

Section Doors.
Context (h : Handle).

(** [appendReceiptTx] on the tables: [receipt_id] is the primary key. *)
Definition receiptTx (r : Receipt) : Tx unit :=
  fun s =>
    match appendReceiptTx h.(Ed25519_Verify) h.(sealer) s.(signing_keys) s.(t_receipts) r with
    | Err e => Err e
    | Ok l =>
        if match h.(sealer) with
           | Some _ => existsb (fun q => bool_decide (q.(ReceiptID) = r.(ReceiptID))) s.(t_receipts)
           | None => false
           end
        then Err ErrConstraint else Ok (tt, with_receipts l s)
    end.

Definition intentHeadTx (id : string) : Tx intent_head_row :=
  t ← ask t_intents; found ErrNotFound (t.(intent_heads) !! id).

Definition readIntentTermsTx (id : string) (version : Z) : Tx IntentContractV2.t :=
  t ← ask t_intents;
  row ← found ErrNotFound (t.(intent_versions) !! (id, version));
  found ErrIntentTerms (ParseIntentContractV2 h.(time_Parse) row.(iv_canonical)).

Definition verifyNewContractTx (signed : SignedIntentContractV2) : Tx unit :=
  '(pub, retired) ← publicKeyTx signed.(sc_SigningKeyID);
  if (retired : bool) then raise ErrSigningKeyRetired
  else require (VerifyIntentContractV2 h.(Ed25519_Verify) pub signed).

Definition verifyNewEventTx (signed : SignedIntentEventV1) : Tx unit :=
  '(pub, retired) ← publicKeyTx signed.(se_SigningKeyID);
  if (retired : bool) then raise ErrSigningKeyRetired
  else require (VerifyIntentEventV1 h.(Ed25519_Verify) pub signed).

(** The insert, with the keys, checks and references of [intent_events]. *)
Definition insertIntentEventTx (signed : SignedIntentEventV1) : Tx unit :=
  let e := signed.(se_Event) in
  t ← ask t_intents;
  keys ← ask signing_keys;
  require (fail_if
    (existsb (fun r => bool_decide (r.(ie_id) = e.(IntentEventV1.EventID))
        || bool_decide (r.(ie_intent) = e.(IntentEventV1.IntentID)
                        /\ r.(ie_revision) = e.(IntentEventV1.Revision))) t.(intent_events)
     || (e.(IntentEventV1.Revision) <=? 0)
     || bool_decide (t.(intent_versions) !! (e.(IntentEventV1.IntentID), e.(IntentEventV1.Version))
                     = None :> option intent_row)
     || bool_decide (keys !! signed.(se_SigningKeyID) = None :> option SigningKey)) ErrConstraint);;
  change_intents (fun t => set_intent_events
    ({| ie_id := e.(IntentEventV1.EventID); ie_intent := e.(IntentEventV1.IntentID);
        ie_version := e.(IntentEventV1.Version); ie_revision := e.(IntentEventV1.Revision);
        ie_from := e.(IntentEventV1.From); ie_to := e.(IntentEventV1.To);
        ie_actor := e.(IntentEventV1.ActorPrincipalID);
        ie_evidence := e.(IntentEventV1.EvidenceDigest);
        ie_occurred := rfc3339 e.(IntentEventV1.OccurredAt);
        ie_previous := e.(IntentEventV1.PreviousEventDigest);
        ie_canonical := event_canonicalBytes e; ie_digest := signed.(se_Digest);
        ie_key := signed.(se_SigningKeyID); ie_signature := signed.(se_Signature) |}
     :: t.(intent_events)) t).

Definition appendIntentMutationReceiptTx (receiptID : string) (signed : SignedIntentEventV1)
    (intentDigest : string) : Tx unit :=
  let e := signed.(se_Event) in
  receiptTx (act_receipt receiptID e.(IntentEventV1.EventID) intentDigest
    e.(IntentEventV1.ActorPrincipalID) (HashCanonical signed.(se_Digest)) signed.(se_Digest)
    e.(IntentEventV1.OccurredAt)).

(** A new event, signed and judged. *)
Definition signEventTx (e : IntentEventV1.t) : Tx SignedIntentEventV1 :=
  signer ← found (signer_unavailable "intent event") h.(intentEventSigner);
  let signed := signer e in
  require (fail_if (bool_decide (signed.(se_Event) <> e)) ErrIntentSignedObjectMutated);;
  verifyNewEventTx signed;;
  mret signed.

(** ** The doors that write *)

(** The insert into [intent_versions]. *)
Definition insertVersionTx (c : IntentContractV2.t) (at_ : time) : Tx unit :=
  let id := c.(IntentContractV2.IntentID) in
  let v := c.(IntentContractV2.Version) in
  t ← ask t_intents;
  require (fail_if
    ((v <=? 0) || bool_decide (is_Some (t.(intent_versions) !! (id, v)))
     || existsb (fun p => bool_decide (p.1.1 = id /\ p.2.(iv_digest) = IntentContractV2_Digest c))
          (map_to_list t.(intent_versions))) ErrConstraint);;
  change_intents (fun t => set_versions (<[(id, v) :=
    {| iv_profile := c.(IntentContractV2.ProfileID); iv_owner := c.(IntentContractV2.OwnerPrincipalID);
       iv_canonical := CanonicalBytes c; iv_digest := IntentContractV2_Digest c; iv_key := "";
       iv_signature := ""; iv_created := rfc3339 at_ |}]> t.(intent_versions)) t).

Definition insertHeadTx (id : string) (row : intent_head_row) : Tx unit :=
  t ← ask t_intents;
  require (fail_if (bool_decide (is_Some (t.(intent_heads) !! id))) ErrConstraint);;
  change_intents (fun t => set_heads (<[id := row]> t.(intent_heads)) t).

(** [UPDATE intent_heads]: an absent row is not an error. *)
Definition updateHeadTx (id : string) (f : intent_head_row -> intent_head_row) : Tx unit :=
  change_intents (fun t => set_heads (alter f id t.(intent_heads)) t).

Definition CreateIntentV2 (eventID receiptID : string) (c : IntentContractV2.t) (actor : string)
    (at_ : time) : Tx unit :=
  require (Intents.Validate c);;
  let e := {| IntentEventV1.EventID := eventID; IntentEventV1.IntentID := c.(IntentContractV2.IntentID);
              IntentEventV1.Version := c.(IntentContractV2.Version); IntentEventV1.Revision := 1;
              IntentEventV1.From := ""; IntentEventV1.To := LifecycleDraft;
              IntentEventV1.ActorPrincipalID := actor; IntentEventV1.EvidenceDigest := "";
              IntentEventV1.OccurredAt := at_; IntentEventV1.PreviousEventDigest := "" |} in
  signed ← signEventTx e;
  insertVersionTx c at_;;
  insertIntentEventTx signed;;
  appendIntentMutationReceiptTx receiptID signed (IntentContractV2_Digest c);;
  insertHeadTx c.(IntentContractV2.IntentID)
    {| ih_version := c.(IntentContractV2.Version); ih_revision := 1; ih_last := signed.(se_Digest);
       ih_status := LifecycleDraft |}.

(** A value passed to the signer cannot change here: the second comparison of
    the code, with the caller's own copy, is the first. *)
Definition ActivateIntentV2 (eventID receiptID : string) (id : string) (version : Z) (actor : string)
    (at_ : time) : Tx unit :=
  contractSigner ← found (signer_unavailable "intent") h.(intentContractSigner);
  found (signer_unavailable "intent") h.(intentEventSigner);;
  c ← readIntentTermsTx id version;
  require (Intents.Validate c);;
  head ← intentHeadTx id;
  require (IntentV2LifecycleTransition head.(ih_status) LifecycleActive);;
  let signedC := contractSigner c in
  require (fail_if (bool_decide (CanonicalBytes signedC.(sc_Contract) <> CanonicalBytes c))
             ErrIntentSignedObjectMutated);;
  verifyNewContractTx signedC;;
  let e := {| IntentEventV1.EventID := eventID; IntentEventV1.IntentID := id;
              IntentEventV1.Version := version;
              IntentEventV1.Revision := wrap64 (head.(ih_revision) + 1);
              IntentEventV1.From := head.(ih_status); IntentEventV1.To := LifecycleActive;
              IntentEventV1.ActorPrincipalID := actor; IntentEventV1.EvidenceDigest := "";
              IntentEventV1.OccurredAt := at_; IntentEventV1.PreviousEventDigest := head.(ih_last) |} in
  signedE ← signEventTx e;
  change_intents (fun t => set_versions (alter (fun row =>
    {| iv_profile := row.(iv_profile); iv_owner := row.(iv_owner); iv_canonical := row.(iv_canonical);
       iv_digest := row.(iv_digest); iv_key := signedC.(sc_SigningKeyID);
       iv_signature := signedC.(sc_Signature); iv_created := row.(iv_created) |})
    (id, version) t.(intent_versions)) t);;
  insertIntentEventTx signedE;;
  appendIntentMutationReceiptTx receiptID signedE (IntentContractV2_Digest c);;
  updateHeadTx id (fun _ => {| ih_version := version; ih_revision := e.(IntentEventV1.Revision);
                               ih_last := signedE.(se_Digest); ih_status := LifecycleActive |}).

Definition transitionIntentV2 (eventID receiptID : string) (id actor : string) (to : LifecycleStatus)
    (at_ : time) : Tx unit :=
  found (signer_unavailable "intent event") h.(intentEventSigner);;
  head ← intentHeadTx id;
  require (IntentV2LifecycleTransition head.(ih_status) to);;
  let e := {| IntentEventV1.EventID := eventID; IntentEventV1.IntentID := id;
              IntentEventV1.Version := head.(ih_version);
              IntentEventV1.Revision := wrap64 (head.(ih_revision) + 1);
              IntentEventV1.From := head.(ih_status); IntentEventV1.To := to;
              IntentEventV1.ActorPrincipalID := actor; IntentEventV1.EvidenceDigest := "";
              IntentEventV1.OccurredAt := at_; IntentEventV1.PreviousEventDigest := head.(ih_last) |} in
  signed ← signEventTx e;
  insertIntentEventTx signed;;
  t ← ask t_intents;
  row ← found ErrNoRows (t.(intent_versions) !! (id, head.(ih_version)));
  appendIntentMutationReceiptTx receiptID signed row.(iv_digest);;
  updateHeadTx id (fun row => {| ih_version := row.(ih_version);
                                 ih_revision := e.(IntentEventV1.Revision);
                                 ih_last := signed.(se_Digest); ih_status := to |}).

Definition RevokeIntentV2 (eventID receiptID id actor : string) (at_ : time) : Tx unit :=
  transitionIntentV2 eventID receiptID id actor LifecycleRevoked at_.
Definition ExpireIntentV2 (eventID receiptID id actor : string) (at_ : time) : Tx unit :=
  transitionIntentV2 eventID receiptID id actor LifecycleExpired at_.

(** ** The walk over an intent's history *)

(** What the walk has seen: the previous digest, revision and status. *)
Definition walk : Type := string * Z * LifecycleStatus.

(** A row as the event it records; [occurred] is its time read back. *)
Definition event_of (id : string) (row : intent_event_row) (occurred : time) : SignedIntentEventV1 :=
  {| se_Event :=
       {| IntentEventV1.EventID := row.(ie_id); IntentEventV1.IntentID := id;
          IntentEventV1.Version := row.(ie_version); IntentEventV1.Revision := row.(ie_revision);
          IntentEventV1.From := row.(ie_from); IntentEventV1.To := row.(ie_to);
          IntentEventV1.ActorPrincipalID := row.(ie_actor);
          IntentEventV1.EvidenceDigest := row.(ie_evidence); IntentEventV1.OccurredAt := occurred;
          IntentEventV1.PreviousEventDigest := row.(ie_previous) |};
     se_Digest := row.(ie_digest); se_SigningKeyID := row.(ie_key);
     se_Signature := row.(ie_signature) |}.

(** One row of the walk, joined with the registered key it is signed under. *)
Definition history_row (id : string) (w : walk) (row : intent_event_row) (key : SigningKey)
    : result walk :=
  let '(previous, revision, status) := w in
  match h.(time_Parse) row.(ie_occurred) with
  | None => Err ErrIntentEvidenceCorrupt
  | Some occurred =>
      if bool_decide (row.(ie_revision) <> wrap64 (revision + 1))
         || bool_decide (row.(ie_previous) <> previous)
      then Err ErrIntentEvidenceCorrupt
      else if (if bool_decide (row.(ie_revision) = 1)
               then bool_decide (row.(ie_from) <> "") || bool_decide (row.(ie_to) <> LifecycleDraft)
               else bool_decide (row.(ie_from) <> status)
                    || bool_decide (IntentV2LifecycleTransition row.(ie_from) row.(ie_to) <> None))
      then Err ErrIntentEvidenceCorrupt
      else match hex_decode key.(PublicKeyHex) with
      | None => Err ErrIntentEvidenceCorrupt
      | Some pub =>
          if bool_decide (String.length pub <> PublicKeySize) then Err ErrIntentEvidenceCorrupt
          else match VerifyIntentEventV1 h.(Ed25519_Verify) pub (event_of id row occurred) with
          | Some _ => Err ErrIntentEvidenceCorrupt
          | None => Ok (row.(ie_digest), row.(ie_revision), row.(ie_to))
          end
      end
  end.

(** The rows in order; a row whose key is not registered is not joined. *)
Fixpoint history (id : string) (keys : gmap string SigningKey) (w : walk) (l : list intent_event_row)
    : result walk :=
  match l with
  | [] => Ok w
  | row :: l' =>
      match keys !! row.(ie_key) with
      | None => history id keys w l'
      | Some key => let? w' := history_row id w row key in history id keys w' l'
      end
  end.

Definition verifyIntentHistoryOn (id : string) (head : intent_head_row) : Tx unit :=
  t ← ask t_intents;
  keys ← ask signing_keys;
  '(previous, revision, status) ← lift (history id keys ("", 0, "")
     (merge_sort by_revision (events_of_intent id t.(intent_events))));
  require (fail_if (bool_decide (revision <> head.(ih_revision))
                    || bool_decide (previous <> head.(ih_last))
                    || bool_decide (status <> head.(ih_status))) ErrIntentEvidenceCorrupt).

Definition headAndHistory (id : string) : Tx intent_head_row :=
  head ← intentHeadTx id; verifyIntentHistoryOn id head;; mret head.

(** ** The doors that read *)

Definition signed_of (c : IntentContractV2.t) (row : intent_row) : SignedIntentContractV2 :=
  {| sc_Contract := c; sc_Digest := row.(iv_digest); sc_SigningKeyID := row.(iv_key);
     sc_Signature := row.(iv_signature) |}.

(** The terms' own window. *)
Definition out_of_window (c : IntentContractV2.t) (at_ : time) : bool :=
  time_before at_ c.(IntentContractV2.ValidFrom)
  || negb (time_before at_ c.(IntentContractV2.ExpiresAt)).

Definition ResolveIntentV2 (id : string) (version : Z) (digest : string) (at_ : time)
    : Tx SignedIntentContractV2 :=
  t ← ask t_intents;
  row ← found ErrNotFound (t.(intent_versions) !! (id, version));
  c ← found (ErrorWrap "terms" ErrIntentEvidenceCorrupt)
        (ParseIntentContractV2 h.(time_Parse) row.(iv_canonical));
  require (fail_if (bool_decide (digest <> IntentContractV2_Digest c)
                    || bool_decide (row.(iv_digest) <> IntentContractV2_Digest c))
             ErrIntentEvidenceCorrupt);;
  head ← headAndHistory id;
  require (fail_if (bool_decide (head.(ih_status) = LifecycleDraft)) ErrIntentInactive);;
  require (fail_if (bool_decide (head.(ih_status) = LifecycleRevoked)) ErrIntentRevoked);;
  require (fail_if (bool_decide (head.(ih_status) = LifecycleExpired)) ErrIntentExpired);;
  '(pub, _) ← publicKeyTx row.(iv_key);
  require (VerifyIntentContractV2 h.(Ed25519_Verify) pub (signed_of c row));;
  require (fail_if (out_of_window c at_) ErrIntentExpired);;
  mret (signed_of c row).

Definition activeIntentTx (id : string) (version : Z) (digest : string) (at_ : time)
    : Tx IntentContractV2.t :=
  c ← readIntentTermsTx id version;
  require (fail_if (bool_decide (IntentContractV2_Digest c <> digest)) ErrIntentEvidenceCorrupt);;
  head ← intentHeadTx id;
  verifyIntentHistoryOn id head;;
  require (fail_if (bool_decide (head.(ih_status) = LifecycleRevoked)) ErrIntentRevoked);;
  require (fail_if (bool_decide (head.(ih_status) = LifecycleExpired)) ErrIntentExpired);;
  require (fail_if (bool_decide (head.(ih_status) <> LifecycleActive)) ErrIntentInactive);;
  t ← ask t_intents;
  row ← found ErrNoRows (t.(intent_versions) !! (id, version));
  require (fail_if (bool_decide (row.(iv_key) = "")) ErrNullColumn);;
  '(pub, _) ← publicKeyTx row.(iv_key);
  require (VerifyIntentContractV2 h.(Ed25519_Verify) pub
    {| sc_Contract := c; sc_Digest := digest; sc_SigningKeyID := row.(iv_key);
       sc_Signature := row.(iv_signature) |});;
  require (fail_if (out_of_window c at_) ErrIntentExpired);;
  mret c.

(** A stored row judged for integrity alone: an unsigned draft is not corrupt. *)
Definition verifyStoredTerms (signed : SignedIntentContractV2) : Tx unit :=
  require (fail_if (bool_decide (signed.(sc_Digest) <> IntentContractV2_Digest signed.(sc_Contract)))
             ErrIntentEvidenceCorrupt);;
  if bool_decide (signed.(sc_SigningKeyID) = "") && bool_decide (signed.(sc_Signature) = "")
  then mret tt
  else '(pub, _) ← publicKeyTx signed.(sc_SigningKeyID);
       require (VerifyIntentContractV2 h.(Ed25519_Verify) pub signed).

Definition GetIntentV2 (id : string) (version : Z) : Tx SignedIntentContractV2 :=
  t ← ask t_intents;
  row ← found ErrNotFound (t.(intent_versions) !! (id, version));
  c ← found (ErrorWrap "terms" ErrIntentEvidenceCorrupt)
        (ParseIntentContractV2 h.(time_Parse) row.(iv_canonical));
  verifyStoredTerms (signed_of c row);;
  mret (signed_of c row).

(** ** Bindings *)

Definition nullableInt (value : Z) : option Z := if bool_decide (value = 0) then None else Some value.

(** The unique index over the active selectors. *)
Definition same_selector (a b : binding_row) : bool :=
  bool_decide (a.(eb_status) = BindingActive /\ b.(eb_status) = BindingActive
    /\ a.(eb_actor) = b.(eb_actor) /\ a.(eb_channel) = b.(eb_channel)
    /\ default "" a.(eb_conversation) = default "" b.(eb_conversation)).

Definition insertBindingTx (row : binding_row) : Tx unit :=
  t ← ask t_intents;
  require (fail_if
    (existsb (fun r => bool_decide (r.(eb_id) = row.(eb_id)) || same_selector r row) t.(bindings)
     || (row.(eb_revision) <=? 0)
     || bool_decide (row.(eb_status) ∉ [BindingActive; BindingRevoked])
     || bool_decide (t.(intent_versions) !! (row.(eb_intent), row.(eb_intent_version))
                     = None :> option intent_row)) ErrConstraint);;
  change_intents (fun t => put_bindings (row :: t.(bindings)) t).

Definition binding_row_of (b : ExecutionBinding.t) (grant : option string) (version : option Z)
    (digest : option string) : binding_row :=
  {| eb_id := b.(ExecutionBinding.BindingID); eb_actor := b.(ExecutionBinding.ActorPrincipalID);
     eb_channel := b.(ExecutionBinding.Channel);
     eb_conversation := nullable b.(ExecutionBinding.ConversationID);
     eb_intent := b.(ExecutionBinding.IntentID);
     eb_intent_version := b.(ExecutionBinding.IntentVersion);
     eb_intent_digest := b.(ExecutionBinding.IntentDigest);
     eb_grant := grant; eb_grant_version := version; eb_grant_digest := digest;
     eb_revision := b.(ExecutionBinding.Revision); eb_status := b.(ExecutionBinding.Status) |}.

Definition nul : string := String (byte 0) "".

Definition binding_text (b : ExecutionBinding.t) : string :=
  b.(ExecutionBinding.ActorPrincipalID) +:+ nul +:+ b.(ExecutionBinding.Channel) +:+ nul
  +:+ b.(ExecutionBinding.ConversationID) +:+ nul +:+ Itoa b.(ExecutionBinding.Revision).

Definition PutExecutionBinding (receiptID : string) (b : ExecutionBinding.t) (now : time) : Tx unit :=
  require (fail_if (bool_decide (b.(ExecutionBinding.Status) <> BindingActive)
                    && bool_decide (b.(ExecutionBinding.Status) <> BindingRevoked))
             (ErrorNew "action/sqlite: invalid binding status"));;
  insertBindingTx (binding_row_of b (nullable b.(ExecutionBinding.GrantID))
    (nullableInt b.(ExecutionBinding.GrantVersion)) (nullable b.(ExecutionBinding.GrantDigest)));;
  receiptTx (act_receipt receiptID b.(ExecutionBinding.BindingID) b.(ExecutionBinding.IntentDigest)
    b.(ExecutionBinding.ActorPrincipalID) (HashCanonical "execution_binding")
    (HashCanonical (binding_text b)) now).

(** The active bindings of an actor on a channel that cover a conversation,
    the one that names it first. *)
Definition selects (actor channel conversation : string) (r : binding_row) : bool :=
  bool_decide (r.(eb_actor) = actor /\ r.(eb_channel) = channel /\ r.(eb_status) = BindingActive)
  && match r.(eb_conversation) with
     | None => true
     | Some c => bool_decide (c = conversation)
     end.

Definition is_specific (r : binding_row) : bool :=
  match r.(eb_conversation) with Some _ => true | None => false end.

Definition selected (actor channel conversation : string) (l : list binding_row) : list binding_row :=
  let hits := filter (fun r => selects actor channel conversation r = true) l in
  filter (fun r => is_specific r = true) hits ++ filter (fun r => is_specific r = false) hits.

Definition ResolveExecutionBinding (actor channel conversation : string) (at_ : time)
    : Tx SignedIntentContractV2 :=
  t ← ask t_intents;
  match selected actor channel conversation t.(bindings) with
  | [] => raise ErrNotFound
  | first :: rest =>
      require (fail_if match rest with
                       | [] => false
                       | second :: _ => Bool.eqb (is_specific first) (is_specific second)
                       end ErrAmbiguousIntentBinding);;
      ResolveIntentV2 first.(eb_intent) first.(eb_intent_version) first.(eb_intent_digest) at_
  end.

End Doors.

(** ** Inverting the doors *)

(** One named step of the inversion of a successful transaction. *)
Ltac tx_next H E :=
  let a := fresh "a" in let s1 := fresh "s1" in
  apply tx_bind_Ok in H as (a & s1 & E & H); cbn beta in H;
  first [ apply ask_Ok in E as [= -> ->]
        | apply require_fail_Ok in E as [E [= -> ->]]
        | apply require_Ok in E as [E [= -> ->]]
        | let x := fresh "x" in apply found_Ok in E as (x & E & [= -> ->])
        | let x := fresh "x" in apply lift_Ok in E as (x & E & [= -> ->])
        | apply change_Ok in E as [= -> ->]
        | pose proof (reads _ _ _ E) as ->
        | idtac ].

(** The same for a statement that answers nothing and is left as it is. *)
Ltac tx_door H E := let s1 := fresh "s1" in apply tx_bind_Ok in H as ([] & s1 & E & H); cbn beta in H.

(** The key's bytes are registered. *)
Definition registered (keys : gmap string SigningKey) (id pub : string) : Prop :=
  exists key, keys !! id = Some key /\ hex_decode key.(PublicKeyHex) = Some pub
    /\ String.length pub = PublicKeySize.

Lemma publicKeyTx_Ok id s pub retired s' : publicKeyTx id s = Ok ((pub, retired), s') ->
  s' = s /\ registered s.(signing_keys) id pub.
Proof.
  intros H. pose proof (reads _ _ _ H) as ->. split; [done|]. unfold publicKeyTx in H.
  tx_next H E. tx_next H E'. destruct (hex_decode _) as [b|] eqn:Hb; [|by apply raise_Ok in H].
  case_bool_decide; [|by apply raise_Ok in H]. apply tx_ret_Ok in H as [= -> _]. by exists x.
Qed.

Lemma publicKeyTx_registered id s pub : registered s.(signing_keys) id pub ->
  exists retired, publicKeyTx id s = Ok ((pub, retired), s).
Proof. intros (key & Hk & Hb & Hl). eexists. by eapply publicKeyTx_at. Qed.

(** Keys are retired, never replaced or dropped. *)
Definition keys_kept (k k' : gmap string SigningKey) : Prop :=
  forall id pub, registered k id pub -> registered k' id pub.

#[export] Instance keys_kept_preorder : PreOrder keys_kept.
Proof. split; [by intros k id pub|]. intros a b c H K id pub Hr. by apply K, H. Qed.

#[export] Instance intentHeadTx_reads id : Reads (intentHeadTx id).
Proof. unfold intentHeadTx. solve_reads. Qed.
#[export] Instance readIntentTermsTx_reads h id v : Reads (readIntentTermsTx h id v).
Proof. unfold readIntentTermsTx. solve_reads. Qed.
#[export] Instance verifyNewContractTx_reads h x : Reads (verifyNewContractTx h x).
Proof. unfold verifyNewContractTx. solve_reads. Qed.
#[export] Instance verifyNewEventTx_reads h x : Reads (verifyNewEventTx h x).
Proof. unfold verifyNewEventTx. solve_reads. Qed.
#[export] Instance signEventTx_reads h e : Reads (signEventTx h e).
Proof. unfold signEventTx. solve_reads. Qed.
#[export] Instance verifyIntentHistoryOn_reads h id hd : Reads (verifyIntentHistoryOn h id hd).
Proof. unfold verifyIntentHistoryOn. solve_reads. Qed.
#[export] Instance headAndHistory_reads h id : Reads (headAndHistory h id).
Proof. unfold headAndHistory. solve_reads. Qed.
#[export] Instance ResolveIntentV2_reads h id v d at_ : Reads (ResolveIntentV2 h id v d at_).
Proof. unfold ResolveIntentV2. solve_reads. Qed.
#[export] Instance activeIntentTx_reads h id v d at_ : Reads (activeIntentTx h id v d at_).
Proof. unfold activeIntentTx. solve_reads. Qed.

Lemma receiptTx_Ok h r s s' : receiptTx h r s = Ok (tt, s') -> exists l, s' = with_receipts l s.
Proof. unfold receiptTx. repeat case_match; try done; intros [= <-]; by eexists. Qed.

Lemma intentHeadTx_Ok id s hd s' : intentHeadTx id s = Ok (hd, s') ->
  s' = s /\ s.(t_intents).(intent_heads) !! id = Some hd.
Proof.
  intros H. pose proof (reads _ _ _ H) as ->. unfold intentHeadTx in H. tx_next H E.
  apply found_Ok in H as (x & Hx & [= ->]). done.
Qed.

Lemma readIntentTermsTx_Ok h id v s c s' : readIntentTermsTx h id v s = Ok (c, s') ->
  s' = s /\ exists row, s.(t_intents).(intent_versions) !! (id, v) = Some row
    /\ ParseIntentContractV2 h.(time_Parse) row.(iv_canonical) = Some c.
Proof.
  intros H. pose proof (reads _ _ _ H) as ->. unfold readIntentTermsTx in H. tx_next H E. tx_next H E1.
  apply found_Ok in H as (y & Hy & [= ->]). split; [done|]. by exists x.
Qed.

(** A signed event is the event asked for, under a registered key. *)
Lemma signEventTx_Ok h e s signed s' : signEventTx h e s = Ok (signed, s') ->
  s' = s /\ signed.(se_Event) = e
  /\ exists pub, registered s.(signing_keys) signed.(se_SigningKeyID) pub
       /\ VerifyIntentEventV1 h.(Ed25519_Verify) pub signed = None.
Proof.
  intros H. pose proof (reads _ _ _ H) as ->. unfold signEventTx in H.
  tx_next H E. tx_next H E1. tx_next H E2. apply tx_ret_Ok in H as [= ->]. passed.
  unfold verifyNewEventTx in E2. tx_next E2 E3. destruct a0 as [pub retired].
  apply publicKeyTx_Ok in E3 as [_ Hr]. destruct retired; [by apply raise_Ok in E2|].
  apply require_Ok in E2 as [E2 _]. split_and!; [done..|]. by exists pub.
Qed.

(** The row an event is stored as. *)
Definition intent_event (signed : SignedIntentEventV1) : intent_event_row :=
  let e := signed.(se_Event) in
  {| ie_id := e.(IntentEventV1.EventID); ie_intent := e.(IntentEventV1.IntentID);
     ie_version := e.(IntentEventV1.Version); ie_revision := e.(IntentEventV1.Revision);
     ie_from := e.(IntentEventV1.From); ie_to := e.(IntentEventV1.To);
     ie_actor := e.(IntentEventV1.ActorPrincipalID);
     ie_evidence := e.(IntentEventV1.EvidenceDigest);
     ie_occurred := rfc3339 e.(IntentEventV1.OccurredAt);
     ie_previous := e.(IntentEventV1.PreviousEventDigest);
     ie_canonical := event_canonicalBytes e; ie_digest := signed.(se_Digest);
     ie_key := signed.(se_SigningKeyID); ie_signature := signed.(se_Signature) |}.

Lemma insertIntentEventTx_Ok signed s s' : insertIntentEventTx signed s = Ok (tt, s') ->
  s' = with_intents (set_intent_events (intent_event signed :: s.(t_intents).(intent_events))
         s.(t_intents)) s
  /\ is_Some (s.(t_intents).(intent_versions)
              !! (signed.(se_Event).(IntentEventV1.IntentID), signed.(se_Event).(IntentEventV1.Version))).
Proof.
  unfold insertIntentEventTx. intros H. tx_next H E. tx_next H E1. tx_next H E2.
  apply change_Ok in H as [= ->]. passed. split; [done|].
  by apply not_eq_None_Some.
Qed.

(** ** The invariant of the intent tables *)

(** The row verifies as the event it records. *)
Definition event_verified (h : Handle) (keys : gmap string SigningKey) (id : string)
    (row : intent_event_row) : Prop :=
  exists occurred pub, h.(time_Parse) row.(ie_occurred) = Some occurred
    /\ registered keys row.(ie_key) pub
    /\ VerifyIntentEventV1 h.(Ed25519_Verify) pub (event_of id row occurred) = None.

(** The events of one intent, newest first, and what a walk over them ends in:
    born a draft, then only moved along the lifecycle, each event naming the
    digest of the one before. *)
Inductive story (h : Handle) (keys : gmap string SigningKey) (id : string)
    : list intent_event_row -> walk -> Prop :=
| story_born row : event_verified h keys id row -> row.(ie_revision) = 1 -> row.(ie_previous) = "" ->
    row.(ie_from) = "" -> row.(ie_to) = LifecycleDraft ->
    story h keys id [row] (row.(ie_digest), 1, LifecycleDraft)
| story_moved row l previous revision status : story h keys id l (previous, revision, status) ->
    event_verified h keys id row -> row.(ie_revision) = revision + 1 ->
    row.(ie_previous) = previous -> row.(ie_from) = status ->
    IntentV2LifecycleTransition status row.(ie_to) = None ->
    story h keys id (row :: l) (row.(ie_digest), revision + 1, row.(ie_to)).

(** A draft has one event, an active intent two, a closed one three. *)
Definition revision_of (status : LifecycleStatus) : Z :=
  if bool_decide (status = LifecycleDraft) then 1
  else if bool_decide (status = LifecycleActive) then 2 else 3.

Lemma transition_revision from to : IntentV2LifecycleTransition from to = None ->
  revision_of to = revision_of from + 1 /\ (from = LifecycleDraft \/ from = LifecycleActive)
  /\ to <> LifecycleDraft.
Proof.
  intros H%LifecycleTransition_None. destruct H as [[-> ->]|[-> [-> | ->]]]; (split_and!; [done|naive_solver|done]).
Qed.

Lemma story_revision h keys id l previous revision status :
  story h keys id l (previous, revision, status) ->
  revision = revision_of status /\ Z.of_nat (List.length l) = revision
  /\ (status = LifecycleDraft \/ status = LifecycleActive \/ status = LifecycleExpired
      \/ status = LifecycleRevoked).
Proof.
  remember (previous, revision, status) as w eqn:Hw. intros H. revert previous revision status Hw.
  induction H as [row|row l p r st Hl IH Hv Hr Hp Hf Ht]; intros previous revision status [= <- <- <-].
  - split_and!; [done..|tauto].
  - destruct (IH _ _ _ eq_refl) as (-> & Hlen & _). pose proof (transition_revision _ _ Ht) as (-> & _ & _).
    split_and!; [done|cbn [List.length]; lia|].
    apply LifecycleTransition_None in Ht. naive_solver.
Qed.

Lemma revision_of_range status : 1 <= revision_of status <= 3.
Proof. unfold revision_of. repeat case_bool_decide; lia. Qed.

Lemma revision_of_next status : wrap64 (revision_of status + 1) = revision_of status + 1.
Proof. apply wrap64_small. pose proof (revision_of_range status). unfold int64_range. lia. Qed.

Lemma event_verified_kept h k k' id row : keys_kept k k' ->
  event_verified h k id row -> event_verified h k' id row.
Proof. intros Hk (o & pub & H1 & H2 & H3). exists o, pub. split_and!; [done|by apply Hk|done]. Qed.

Lemma story_kept h k k' id l w : keys_kept k k' -> story h k id l w -> story h k' id l w.
Proof.
  intros Hk H. induction H as [row|row l p r st Hl IH Hv Hr Hp Hf Ht].
  - apply story_born; [|done..]. by eapply event_verified_kept.
  - eapply story_moved; [done| |done..]. by eapply event_verified_kept.
Qed.

(** The code's walk accepts a verified row exactly when it continues the story. *)
Lemma history_row_Ok h keys id (previous : string) (revision : Z) (status : LifecycleStatus) row :
  event_verified h keys id row -> row.(ie_revision) = wrap64 (revision + 1) ->
  row.(ie_previous) = previous ->
  (if bool_decide (row.(ie_revision) = 1) then row.(ie_from) = "" /\ row.(ie_to) = LifecycleDraft
   else row.(ie_from) = status /\ IntentV2LifecycleTransition status row.(ie_to) = None) ->
  exists key, keys !! row.(ie_key) = Some key
    /\ history_row h id (previous, revision, status) row key
       = Ok (row.(ie_digest), row.(ie_revision), row.(ie_to)).
Proof.
  intros (o & pub & Ho & (key & Hk & Hb & Hl) & Hv) Hr Hp Hs. exists key. split; [done|].
  unfold history_row. rewrite Ho, Hb, Hv.
  rewrite (bool_decide_eq_false_2 (row.(ie_revision) <> _)) by (rewrite Hr; tauto).
  rewrite (bool_decide_eq_false_2 (row.(ie_previous) <> _)) by (rewrite Hp; tauto). cbn [orb].
  rewrite (bool_decide_eq_false_2 (String.length pub <> _)) by (rewrite Hl; tauto).
  destruct (bool_decide (ie_revision row = 1)); destruct Hs as [Hs1 Hs2].
  - rewrite (bool_decide_eq_false_2 (row.(ie_from) <> _)) by (rewrite Hs1; tauto).
    rewrite (bool_decide_eq_false_2 (row.(ie_to) <> _)) by (rewrite Hs2; tauto). done.
  - rewrite (bool_decide_eq_false_2 (row.(ie_from) <> _)) by (rewrite Hs1; tauto).
    rewrite Hs1, (bool_decide_eq_false_2 (IntentV2LifecycleTransition _ _ <> _)) by (rewrite Hs2; tauto). done.
Qed.

Lemma history_cons h id keys w w' row l key : keys !! row.(ie_key) = Some key ->
  history_row h id w row key = Ok w' -> history h id keys w (row :: l) = history h id keys w' l.
Proof. intros Hk Hh. cbn [history]. by rewrite Hk, Hh. Qed.

Lemma history_app h id keys w l k : history h id keys w (l ++ k) =
  let? w' := history h id keys w l in history h id keys w' k.
Proof.
  revert w. induction l as [|row l IH]; intros w; cbn [history app]; [done|].
  destruct (keys !! row.(ie_key)) as [key|]; [|apply IH]. destruct (history_row _ _ _ _ _); [|done]. apply IH.
Qed.

Lemma history_story h keys id l w : story h keys id l w -> history h id keys ("", 0, "") (reverse l) = Ok w.
Proof.
  induction 1 as [row Hv Hr Hp Hf Ht|row l p r st Hl IH Hv Hr Hp Hf Ht].
  - change (reverse [row]) with [row].
    destruct (history_row_Ok h keys id "" 0 "" row) as (key & Hk & Hh); [done..| |].
    + by rewrite bool_decide_eq_true_2.
    + erewrite history_cons; [|exact Hk|exact Hh]. cbn. by rewrite Hr, Ht.
  - rewrite reverse_cons, history_app, IH.
    pose proof (story_revision _ _ _ _ _ _ _ Hl) as (-> & _ & _).
    pose proof (revision_of_range st) as Hrange.
    destruct (history_row_Ok h keys id p (revision_of st) st row) as (key & Hk & Hh); [done| |done| |].
    + by rewrite revision_of_next.
    + by rewrite bool_decide_eq_false_2 by lia.
    + erewrite history_cons; [|exact Hk|exact Hh]. cbn. by rewrite Hr.
Qed.

(** Rows kept newest first come out of [ORDER BY] in reverse. *)
Lemma merge_sort_reverse {A} (f : A -> Z) `{!RelDecision (on f Z.le)} (l : list A) :
  StronglySorted (fun x y => f y < f x) l -> merge_sort (on f Z.le) l = reverse l.
Proof.
  intros Hl.
  assert (Total (on f Z.le)) by (intros x y; unfold on; lia).
  assert (Transitive (on f Z.le)) by (intros x y z; unfold on; lia).
  assert (StronglySorted (on f Z.le) (reverse l)) as Hr.
  { clear -Hl. induction Hl as [|x l Hl IH Hx]; [constructor|]. rewrite reverse_cons.
    apply StronglySorted_app_2; [|done|repeat constructor].
    intros a b Ha Hb. rewrite elem_of_reverse in Ha. apply list_elem_of_singleton in Hb as ->.
    rewrite Forall_forall in Hx. specialize (Hx a Ha). unfold on. lia. }
  assert (forall x y, x ∈ l -> y ∈ l -> f x = f y -> x = y) as Hinj.
  { clear -Hl. induction Hl as [|x l Hl IH Hx]; [intros ?? H; by apply not_elem_of_nil in H|].
    rewrite Forall_forall in Hx. intros a b Ha Hb E.
    apply elem_of_cons in Ha as [->|Ha], Hb as [->|Hb]; [done| | |by apply IH].
    - specialize (Hx b Hb). lia.
    - specialize (Hx a Ha). lia. }
  apply (StronglySorted_unique_strong (on f Z.le)); [|by apply StronglySorted_merge_sort|done|].
  - intros x y Hx Hy H1 H2. rewrite merge_sort_Permutation in Hx. rewrite elem_of_reverse in Hy.
    apply Hinj; [done|done|]. unfold on in *. lia.
  - by rewrite merge_sort_Permutation, reverse_Permutation.
Qed.

Lemma story_sorted h keys id l w : story h keys id l w ->
  StronglySorted (fun x y => y.(ie_revision) < x.(ie_revision)) l
  /\ Forall (fun r => r.(ie_revision) <= w.1.2) l.
Proof.
  induction 1 as [row Hv Hr Hp Hf Ht|row l p r st Hl [IH1 IH2] Hv Hr Hp Hf Ht]; cbn in *.
  - split; [repeat constructor|]. constructor; [lia|constructor].
  - split; constructor; [done| |lia|].
    + eapply Forall_impl; [done|]. cbn. lia.
    + eapply Forall_impl; [done|]. cbn. lia.
Qed.

Lemma history_of_story h keys id l w : story h keys id l w ->
  history h id keys ("", 0, "") (merge_sort by_revision l) = Ok w.
Proof.
  intros H. unfold by_revision. rewrite merge_sort_reverse by (by apply (story_sorted _ _ _ _ _ H)).
  by apply history_story.
Qed.

(** The terms of an active intent, under their signature. *)
Definition terms_sealed (h : Handle) (keys : gmap string SigningKey) (row : intent_row) : Prop :=
  exists c pub, ParseIntentContractV2 h.(time_Parse) row.(iv_canonical) = Some c
    /\ registered keys row.(iv_key) pub
    /\ VerifyIntentContractV2 h.(Ed25519_Verify) pub
         {| sc_Contract := c; sc_Digest := IntentContractV2_Digest c; sc_SigningKeyID := row.(iv_key);
            sc_Signature := row.(iv_signature) |} = None.

(** Every intent has one version, the one its head and its events name; its
    head ends its story; and terms past the draft are signed. *)
Record intents_sound (h : Handle) (s : db) : Prop := {
  in_story : forall id hd, s.(t_intents).(intent_heads) !! id = Some hd ->
    story h s.(signing_keys) id (events_of_intent id s.(t_intents).(intent_events))
      (hd.(ih_last), hd.(ih_revision), hd.(ih_status));
  in_version : forall id v row, s.(t_intents).(intent_versions) !! (id, v) = Some row ->
    exists hd, s.(t_intents).(intent_heads) !! id = Some hd /\ hd.(ih_version) = v
      /\ (hd.(ih_status) <> LifecycleDraft -> terms_sealed h s.(signing_keys) row);
  in_orphan : forall id, s.(t_intents).(intent_heads) !! id = None ->
    events_of_intent id s.(t_intents).(intent_events) = [];
}.

Lemma verifyIntentHistoryOn_sound h s id hd : intents_sound h s ->
  s.(t_intents).(intent_heads) !! id = Some hd -> verifyIntentHistoryOn h id hd s = Ok (tt, s).
Proof.
  intros Hs Hd. pose proof (in_story _ _ Hs _ _ Hd) as H. apply history_of_story in H.
  unfold verifyIntentHistoryOn, ask, mbind, tx_bind. rewrite H. cbn [lift mret tx_ret].
  rewrite !bool_decide_eq_false_2 by tauto. done.
Qed.

(** An intent closed for good. *)
Definition closed (status : LifecycleStatus) : Prop :=
  status = LifecycleRevoked \/ status = LifecycleExpired.

(** What an intent must be to authorise anything at an instant. *)
Record authorises (h : Handle) (s : db) (id : string) (v : Z) (digest : string) (at_ : time)
    (c : IntentContractV2.t) : Prop := {
  au_terms : exists row, s.(t_intents).(intent_versions) !! (id, v) = Some row
    /\ ParseIntentContractV2 h.(time_Parse) row.(iv_canonical) = Some c;
  au_digest : IntentContractV2_Digest c = digest;
  au_active : exists hd, s.(t_intents).(intent_heads) !! id = Some hd
    /\ hd.(ih_status) = LifecycleActive;
  au_window : c.(IntentContractV2.ValidFrom) <= at_ < c.(IntentContractV2.ExpiresAt)
}.

Lemma in_window c at_ : out_of_window c at_ = false <->
  c.(IntentContractV2.ValidFrom) <= at_ < c.(IntentContractV2.ExpiresAt).
Proof. unfold out_of_window, time_before. rewrite orb_false_iff, negb_false_iff, Z.ltb_ge, Z.ltb_lt. done. Qed.

Lemma activeIntentTx_sound h s id v digest at_ c s' : activeIntentTx h id v digest at_ s = Ok (c, s') ->
  s' = s /\ authorises h s id v digest at_ c.
Proof.
  intros H. pose proof (reads _ _ _ H) as ->. split; [done|]. unfold activeIntentTx in H.
  tx_next H E. apply readIntentTermsTx_Ok in E as [_ (row & Hrow & Hc)]. tx_next H E1. tx_next H E2.
  tx_next H E3. tx_next H E4. tx_next H E5. tx_next H E6.
  tx_next H E7. tx_next H E8. tx_next H E9.
  apply tx_bind_Ok in H as ([pub retired] & s1 & E10 & H). pose proof (reads _ _ _ E10) as ->.
  tx_next H E11. tx_next H E12. apply tx_ret_Ok in H as [= ->]. passed.
  split; [by exists row|done|by eexists|by apply in_window].
Qed.

Lemma require_None o s : o = None -> require o s = Ok (tt, s).
Proof. by intros ->. Qed.

Lemma ask_at {A} (f : db -> A) s : ask f s = Ok (f s, s).
Proof. done. Qed.

(** Running a transaction forward, one statement at a time. *)
Ltac tx_run :=
  match goal with
  | |- (ask _ ≫= _) _ = _ => rewrite (bind_at _ _ _ _ _ (ask_at _ _)); cbn beta
  | |- (require (fail_if _ _) ≫= _) _ = _ => erewrite bind_at; [|apply require_pass]; cbn beta
  | |- (require _ ≫= _) _ = _ => erewrite bind_at; [|apply require_None]; cbn beta
  | |- (found _ _ ≫= _) _ = _ => erewrite bind_at; [|apply found_Some]; cbn beta
  end.

Lemma VerifyIntentContractV2_key verify pub signed : VerifyIntentContractV2 verify pub signed = None ->
  signed.(sc_SigningKeyID) = DeriveSigningKeyID pub.
Proof.
  unfold VerifyIntentContractV2. case_match; [done|]. case_match eqn:E; [done|]. intros _. passed. done.
Qed.

Lemma key_id_not_empty pub : DeriveSigningKeyID pub <> "".
Proof. unfold DeriveSigningKeyID. done. Qed.

Lemma readIntentTermsTx_at h id v s row c : s.(t_intents).(intent_versions) !! (id, v) = Some row ->
  ParseIntentContractV2 h.(time_Parse) row.(iv_canonical) = Some c ->
  readIntentTermsTx h id v s = Ok (c, s).
Proof. intros Hr Hc. unfold readIntentTermsTx. tx_run. tx_run; [|done]. by apply found_Some. Qed.

Lemma intentHeadTx_at id s hd : s.(t_intents).(intent_heads) !! id = Some hd ->
  intentHeadTx id s = Ok (hd, s).
Proof. intros Hd. unfold intentHeadTx. tx_run. by apply found_Some. Qed.

(** In a sound store the code's gate is the specification. *)
Lemma activeIntentTx_Ok h s id v digest at_ c : intents_sound h s ->
  activeIntentTx h id v digest at_ s = Ok (c, s) <-> authorises h s id v digest at_ c.
Proof.
  intros Hs. split; [by intros [_ H]%activeIntentTx_sound|].
  intros [(row & Hrow & Hc) Hdig (hd & Hd & Hact) Hw].
  destruct (in_version _ _ Hs _ _ _ Hrow) as (hd' & Hd' & _ & Hseal).
  rewrite Hd in Hd'. injection Hd' as <-.
  destruct Hseal as (c' & pub & Hc' & Hreg & Hver); [by rewrite Hact|].
  rewrite Hc in Hc'. injection Hc' as <-.
  destruct (publicKeyTx_registered _ _ _ Hreg) as (retired & Hpub).
  unfold activeIntentTx. rewrite (bind_at _ _ _ _ _ (readIntentTermsTx_at _ _ _ _ _ _ Hrow Hc)).
  tx_run; [|by rewrite bool_decide_eq_false_2 by (rewrite Hdig; tauto)].
  rewrite (bind_at _ _ _ _ _ (intentHeadTx_at _ _ _ Hd)).
  rewrite (bind_at _ _ _ _ _ (verifyIntentHistoryOn_sound _ _ _ _ Hs Hd)).
  do 3 (tx_run; [|by rewrite Hact]). tx_run. tx_run; [|done].
  tx_run; [|rewrite bool_decide_eq_false_2; [done|]; intros E;
            apply VerifyIntentContractV2_key in Hver; cbn [sc_SigningKeyID] in Hver; rewrite E in Hver;
            by apply (key_id_not_empty pub)].
  rewrite (bind_at _ _ _ _ _ Hpub). tx_run; [|by rewrite <- Hdig]. tx_run; [done|by apply in_window].
Qed.

(** The refusals a closed intent answers, by name. *)
Lemma activeIntentTx_closed h s id v digest at_ row c hd : intents_sound h s ->
  s.(t_intents).(intent_versions) !! (id, v) = Some row ->
  ParseIntentContractV2 h.(time_Parse) row.(iv_canonical) = Some c ->
  IntentContractV2_Digest c = digest ->
  s.(t_intents).(intent_heads) !! id = Some hd ->
  (hd.(ih_status) = LifecycleRevoked -> activeIntentTx h id v digest at_ s = Err ErrIntentRevoked)
  /\ (hd.(ih_status) = LifecycleExpired -> activeIntentTx h id v digest at_ s = Err ErrIntentExpired)
  /\ (hd.(ih_status) = LifecycleDraft -> activeIntentTx h id v digest at_ s = Err ErrIntentInactive).
Proof.
  intros Hs Hrow Hc Hdig Hd. unfold activeIntentTx.
  rewrite (bind_at _ _ _ _ _ (readIntentTermsTx_at _ _ _ _ _ _ Hrow Hc)).
  rewrite bind_at with (a := tt) (s' := s) by (by apply require_pass, bool_decide_eq_false_2; intros ?).
  rewrite (bind_at _ _ _ _ _ (intentHeadTx_at _ _ _ Hd)).
  rewrite (bind_at _ _ _ _ _ (verifyIntentHistoryOn_sound _ _ _ _ Hs Hd)).
  split_and!; intros ->; done.
Qed.

(** ** The doors keep the invariant *)

Definition moves : LifecycleStatus -> LifecycleStatus -> Prop :=
  rtc (fun a b => IntentV2LifecycleTransition a b = None).

Lemma closed_moves a b : closed a -> moves a b -> b = a.
Proof.
  intros Hc H. inversion H as [|? x ? Ht]; [done|].
  apply LifecycleTransition_None in Ht. destruct Hc as [-> | ->]; naive_solver.
Qed.

(** Terms are never rewritten, and heads only move along the lifecycle. *)
Record intents_follow (s s' : db) : Prop := {
  if_keys : keys_kept s.(signing_keys) s'.(signing_keys);
  if_heads : forall id hd, s.(t_intents).(intent_heads) !! id = Some hd ->
    exists hd', s'.(t_intents).(intent_heads) !! id = Some hd' /\ hd'.(ih_version) = hd.(ih_version)
      /\ moves hd.(ih_status) hd'.(ih_status);
  if_terms : forall id v row, s.(t_intents).(intent_versions) !! (id, v) = Some row ->
    exists row', s'.(t_intents).(intent_versions) !! (id, v) = Some row'
      /\ row'.(iv_canonical) = row.(iv_canonical) /\ row'.(iv_digest) = row.(iv_digest);
}.

#[export] Instance intents_follow_preorder : PreOrder intents_follow.
Proof.
  split.
  - intros s. split; [done| |].
    + intros id hd Hd. exists hd. split_and!; [done..|apply rtc_refl].
    + intros id v row Hr. by exists row.
  - intros a b c [K1 H1 T1] [K2 H2 T2]. split; [by etrans| |].
    + intros id hd Hd. destruct (H1 _ _ Hd) as (hd1 & Hd1 & V1 & M1).
      destruct (H2 _ _ Hd1) as (hd2 & Hd2 & V2 & M2). exists hd2.
      split_and!; [done|congruence|]. unfold moves in *. by etrans.
    + intros id v row Hr. destruct (T1 _ _ _ Hr) as (r1 & R1 & C1 & D1).
      destruct (T2 _ _ _ R1) as (r2 & R2 & C2 & D2). exists r2. split_and!; congruence.
Qed.

(** What a door leaves of one intent: one more event of its story, its head at
    the end of it, every other intent untouched. *)
Record intent_advanced (h : Handle) (id : string) (signed : SignedIntentEventV1) (hd : intent_head_row)
    (s s' : db) : Prop := {
  ia_keys : s'.(signing_keys) = s.(signing_keys);
  ia_events : s'.(t_intents).(intent_events) = intent_event signed :: s.(t_intents).(intent_events);
  ia_intent : signed.(se_Event).(IntentEventV1.IntentID) = id;
  ia_head : s'.(t_intents).(intent_heads) !! id = Some hd;
  ia_others : forall id', id' <> id ->
    s'.(t_intents).(intent_heads) !! id' = s.(t_intents).(intent_heads) !! id'
    /\ forall v, s'.(t_intents).(intent_versions) !! (id', v) = s.(t_intents).(intent_versions) !! (id', v);
  ia_story : story h s.(signing_keys) id
    (intent_event signed :: events_of_intent id s.(t_intents).(intent_events))
    (hd.(ih_last), hd.(ih_revision), hd.(ih_status));
  ia_versions : forall v row, s'.(t_intents).(intent_versions) !! (id, v) = Some row ->
    v = hd.(ih_version) /\ (hd.(ih_status) <> LifecycleDraft -> terms_sealed h s.(signing_keys) row);
}.

Lemma advanced_sound h id signed hd s s' : intents_sound h s -> intent_advanced h id signed hd s s' ->
  intents_sound h s'.
Proof.
  intros [Hst Hv Ho] [Hk He Hid Hh Hoth Hstory Hver].
  assert (forall id', events_of_intent id' s'.(t_intents).(intent_events)
    = if decide (id' = id) then intent_event signed :: events_of_intent id s.(t_intents).(intent_events)
      else events_of_intent id' s.(t_intents).(intent_events)) as Hev.
  { intros id'. rewrite He. unfold events_of_intent. destruct (decide (id' = id)) as [->|N].
    - by rewrite filter_cons_True by (cbn; done).
    - by rewrite filter_cons_False by (cbn; congruence). }
  split.
  - intros id' hd' Hd. rewrite Hk, Hev. destruct (decide (id' = id)) as [->|N].
    + rewrite Hh in Hd. by injection Hd as <-.
    + destruct (Hoth _ N) as [E _]. rewrite E in Hd. by apply Hst.
  - intros id' v row Hrow. rewrite Hk. destruct (decide (id' = id)) as [->|N].
    + destruct (Hver _ _ Hrow) as [-> Hs]. by exists hd.
    + destruct (Hoth _ N) as [E Ev]. rewrite Ev in Hrow. rewrite E. by apply Hv.
  - intros id' Hd. rewrite Hev. destruct (decide (id' = id)) as [->|N]; [congruence|].
    destruct (Hoth _ N) as [E _]. rewrite E in Hd. by apply Ho.
Qed.

(** The signed event as the row the store keeps. *)
Lemma event_verified_new h s signed e pub : signed.(se_Event) = e ->
  h.(time_Parse) (rfc3339 e.(IntentEventV1.OccurredAt)) = Some e.(IntentEventV1.OccurredAt) ->
  registered s.(signing_keys) signed.(se_SigningKeyID) pub ->
  VerifyIntentEventV1 h.(Ed25519_Verify) pub signed = None ->
  event_verified h s.(signing_keys) e.(IntentEventV1.IntentID) (intent_event signed).
Proof.
  intros <- Ht Hr Hv. exists (signed.(se_Event).(IntentEventV1.OccurredAt)), pub. split_and!; [done..|].
  by destruct signed as [[] ? ? ?].
Qed.

Lemma insertVersionTx_Ok c at_ s s' : insertVersionTx c at_ s = Ok (tt, s') ->
  s' = with_intents (set_versions (<[(c.(IntentContractV2.IntentID), c.(IntentContractV2.Version)) :=
    {| iv_profile := c.(IntentContractV2.ProfileID); iv_owner := c.(IntentContractV2.OwnerPrincipalID);
       iv_canonical := CanonicalBytes c; iv_digest := IntentContractV2_Digest c; iv_key := "";
       iv_signature := ""; iv_created := rfc3339 at_ |}]> s.(t_intents).(intent_versions))
    s.(t_intents)) s
  /\ s.(t_intents).(intent_versions) !! (c.(IntentContractV2.IntentID), c.(IntentContractV2.Version)) = None.
Proof.
  unfold insertVersionTx. intros H. tx_next H E. tx_next H E1. apply change_Ok in H as [= ->].
  passed. split; [done|]. by apply eq_None_not_Some.
Qed.

Lemma insertHeadTx_Ok id row s s' : insertHeadTx id row s = Ok (tt, s') ->
  s' = with_intents (set_heads (<[id := row]> s.(t_intents).(intent_heads)) s.(t_intents)) s
  /\ s.(t_intents).(intent_heads) !! id = None.
Proof.
  unfold insertHeadTx. intros H. tx_next H E. tx_next H E1. apply change_Ok in H as [= ->].
  passed. split; [done|]. by apply eq_None_not_Some.
Qed.

Ltac tables := cbn [signing_keys t_intents with_intents with_receipts set_versions set_intent_events
  set_heads intent_versions intent_events intent_heads bindings] in *.

(** A door that advances one intent is a sound step. *)
Lemma advanced_step h id signed hd s s' : intents_sound h s -> intent_advanced h id signed hd s s' ->
  match s.(t_intents).(intent_heads) !! id with
  | None => True
  | Some hd0 => hd.(ih_version) = hd0.(ih_version)
                /\ IntentV2LifecycleTransition hd0.(ih_status) hd.(ih_status) = None
  end ->
  (forall v row, s.(t_intents).(intent_versions) !! (id, v) = Some row ->
     exists row', s'.(t_intents).(intent_versions) !! (id, v) = Some row'
       /\ row'.(iv_canonical) = row.(iv_canonical) /\ row'.(iv_digest) = row.(iv_digest)) ->
  intents_sound h s' /\ intents_follow s s'.
Proof.
  intros Hs Ha Hm Ht. split; [by eapply advanced_sound|]. destruct Ha as [Hk He Hid Hh Hoth _ _].
  split; [by rewrite Hk| |].
  - intros id' hd0 Hd. destruct (decide (id' = id)) as [->|N].
    + rewrite Hd in Hm. destruct Hm as [V T]. exists hd. split_and!; [done..|by apply rtc_once].
    + exists hd0. rewrite (proj1 (Hoth _ N)). split_and!; [done..|apply rtc_refl].
  - intros id' v row Hr. destruct (decide (id' = id)) as [->|N]; [by apply Ht|].
    exists row. by rewrite (proj2 (Hoth _ N)).
Qed.

Lemma CreateIntentV2_Ok h ev rc c actor at_ s s' : intents_sound h s ->
  h.(time_Parse) (rfc3339 at_) = Some at_ -> CreateIntentV2 h ev rc c actor at_ s = Ok (tt, s') ->
  intents_sound h s' /\ intents_follow s s'.
Proof.
  intros Hs Ht H. unfold CreateIntentV2 in H. tx_next H E.
  apply tx_bind_Ok in H as (signed & s1 & E1 & H). apply signEventTx_Ok in E1 as (-> & He & pub & Hr & Hv).
  tx_door H E2. apply insertVersionTx_Ok in E2 as [-> Hfresh].
  tx_door H E3. apply insertIntentEventTx_Ok in E3 as [-> _].
  tx_door H E4. apply receiptTx_Ok in E4 as [l ->].
  apply insertHeadTx_Ok in H as [-> Hnone]. tables.
  set (id := c.(IntentContractV2.IntentID)) in *.
  assert (forall v, s.(t_intents).(intent_versions) !! (id, v) = None) as Hnov.
  { intros v. destruct (_ !! (id, v)) as [row|] eqn:Ev; [|done].
    apply (in_version _ _ Hs) in Ev as (hd & Hd & _). congruence. }
  eapply (advanced_step h id signed); [done| | |].
  - split; tables; [done|done|by rewrite He|by rewrite lookup_insert_eq| | |].
    + intros id' N. split; [by rewrite lookup_insert_ne|]. intros v. by rewrite lookup_insert_ne by congruence.
    + rewrite (in_orphan _ _ Hs _ Hnone). apply story_born; [|by rewrite ?He; cbn; rewrite He..].
      pose proof (event_verified_new h s signed _ pub He Ht Hr Hv) as Hev. by cbn in Hev.
    + intros v row Hrow. apply lookup_insert_Some in Hrow as [[[= <-] <-]|[_ Hrow]]; [done|].
      by rewrite Hnov in Hrow.
  - by rewrite Hnone.
  - intros v row Hrow. by rewrite Hnov in Hrow.
Qed.

(** A signed event that continues a head's story. *)
Lemma story_advanced h s id hd signed e pub : intents_sound h s ->
  s.(t_intents).(intent_heads) !! id = Some hd ->
  signed.(se_Event) = e -> e.(IntentEventV1.IntentID) = id ->
  e.(IntentEventV1.Revision) = wrap64 (hd.(ih_revision) + 1) ->
  e.(IntentEventV1.From) = hd.(ih_status) -> e.(IntentEventV1.PreviousEventDigest) = hd.(ih_last) ->
  IntentV2LifecycleTransition hd.(ih_status) e.(IntentEventV1.To) = None ->
  h.(time_Parse) (rfc3339 e.(IntentEventV1.OccurredAt)) = Some e.(IntentEventV1.OccurredAt) ->
  registered s.(signing_keys) signed.(se_SigningKeyID) pub ->
  VerifyIntentEventV1 h.(Ed25519_Verify) pub signed = None ->
  story h s.(signing_keys) id
    (intent_event signed :: events_of_intent id s.(t_intents).(intent_events))
    (signed.(se_Digest), e.(IntentEventV1.Revision), e.(IntentEventV1.To)).
Proof.
  intros Hs Hd He Hid Hrev Hf Hp Htr Ht Hr Hv. pose proof (in_story _ _ Hs _ _ Hd) as Hst.
  pose proof (story_revision _ _ _ _ _ _ _ Hst) as (Hrv & _ & _).
  rewrite Hrv, revision_of_next, <- Hrv in Hrev. rewrite Hrev.
  pose proof (event_verified_new h s signed e pub He Ht Hr Hv) as Hev. rewrite Hid in Hev.
  subst e. exact (story_moved h _ id (intent_event signed) _ _ _ _ Hst Hev Hrev Hp Hf Htr).
Qed.

Lemma alter_heads f id (m : gmap string intent_head_row) id' :
  id' <> id -> alter f id m !! id' = m !! id'.
Proof. intros N. by apply lookup_alter_ne. Qed.

Lemma transitionIntentV2_Ok h ev rc id actor to at_ s s' : intents_sound h s ->
  h.(time_Parse) (rfc3339 at_) = Some at_ -> to <> LifecycleActive ->
  transitionIntentV2 h ev rc id actor to at_ s = Ok (tt, s') ->
  intents_sound h s' /\ intents_follow s s'
  /\ exists hd, s'.(t_intents).(intent_heads) !! id = Some hd /\ hd.(ih_status) = to.
Proof.
  intros Hs Ht Hto H. unfold transitionIntentV2 in H. tx_next H E0.
  apply tx_bind_Ok in H as (hd & s1 & E1 & H). apply intentHeadTx_Ok in E1 as [-> Hd]. tx_next H Htr.
  apply tx_bind_Ok in H as (signed & s1 & E2 & H). apply signEventTx_Ok in E2 as (-> & He & pub & Hr & Hv).
  tx_door H E3. apply insertIntentEventTx_Ok in E3 as [-> _].
  tx_next H E4. tx_next H E5. tx_door H E6. apply receiptTx_Ok in E6 as [l ->].
  apply change_Ok in H as [= ->]. tables.
  assert (exists hd', alter (fun row => {| ih_version := row.(ih_version);
      ih_revision := wrap64 (hd.(ih_revision) + 1); ih_last := signed.(se_Digest); ih_status := to |}) id
      s.(t_intents).(intent_heads) !! id = Some hd'
      /\ hd' = {| ih_version := hd.(ih_version); ih_revision := wrap64 (hd.(ih_revision) + 1);
                  ih_last := signed.(se_Digest); ih_status := to |}) as (hd' & Hh & Ehd).
  { eexists. by rewrite lookup_alter_eq, Hd. }
  assert (status_closed : hd.(ih_status) = LifecycleActive).
  { apply LifecycleTransition_None in Htr. destruct Htr as [[_ ?]|[? _]]; done. }
  apply and_assoc. split; [|exists hd'; split; [done|by rewrite Ehd]].
  eapply (advanced_step h id signed hd'); [done| | |].
  - split; tables; [done|done|by rewrite He|done| | |].
    + intros id' N. by rewrite alter_heads.
    + rewrite Ehd. tables. by apply (story_advanced h s id hd signed _ pub Hs Hd He).
    + intros v row Hrow. destruct (in_version _ _ Hs _ _ _ Hrow) as (hd0 & Hd0 & V & Hseal).
      rewrite Hd in Hd0. injection Hd0 as <-. rewrite Ehd. split; [done|]. intros _. apply Hseal.
      by rewrite status_closed.
  - rewrite Hd, Ehd. done.
  - intros v row Hrow. by exists row.
Qed.

(** A seal covers the canonical bytes: terms with the same bytes are under it. *)
Lemma VerifyIntentContractV2_bytes verify pub signed c : Intents.Validate c = None ->
  CanonicalBytes signed.(sc_Contract) = CanonicalBytes c ->
  VerifyIntentContractV2 verify pub signed = None ->
  VerifyIntentContractV2 verify pub
    {| sc_Contract := c; sc_Digest := IntentContractV2_Digest c;
       sc_SigningKeyID := signed.(sc_SigningKeyID); sc_Signature := signed.(sc_Signature) |} = None.
Proof.
  intros Hc Hb. unfold VerifyIntentContractV2.
  cbn [sc_Contract sc_Digest sc_SigningKeyID sc_Signature].
  case_match; [done|]. rewrite Hc. case_match eqn:E; [done|]. rewrite Hb. apply orb_false_iff in E as [_ E].
  by rewrite E, bool_decide_eq_false_2 by tauto.
Qed.

Lemma ActivateIntentV2_Ok h ev rc id v actor at_ s s' : intents_sound h s ->
  h.(time_Parse) (rfc3339 at_) = Some at_ -> ActivateIntentV2 h ev rc id v actor at_ s = Ok (tt, s') ->
  intents_sound h s' /\ intents_follow s s'
  /\ exists hd, s'.(t_intents).(intent_heads) !! id = Some hd /\ hd.(ih_status) = LifecycleActive.
Proof.
  intros Hs Ht H. unfold ActivateIntentV2 in H. tx_next H Ec. tx_next H E0.
  apply tx_bind_Ok in H as (c & s1 & E1 & H). apply readIntentTermsTx_Ok in E1 as (-> & row0 & Hrow0 & Hc).
  tx_next H Hval.
  apply tx_bind_Ok in H as (hd & s1 & E1 & H). apply intentHeadTx_Ok in E1 as [-> Hd]. tx_next H Htr.
  tx_next H Hsame. apply tx_bind_Ok in H as ([] & s1 & Ev & H). pose proof (reads _ _ _ Ev) as ->.
  apply tx_bind_Ok in H as (signed & s1 & E2 & H). apply signEventTx_Ok in E2 as (-> & He & pub & Hr & Hv).
  tx_next H E3. tx_door H E4. apply insertIntentEventTx_Ok in E4 as [-> _].
  tx_door H E6. apply receiptTx_Ok in E6 as [l ->]. apply change_Ok in H as [= ->]. tables. passed.
  unfold verifyNewContractTx in Ev. apply tx_bind_Ok in Ev as ([pubc retired] & s1 & Ek & Ev).
  apply publicKeyTx_Ok in Ek as [-> Hrc]. destruct retired; [by apply raise_Ok in Ev|].
  apply require_Ok in Ev as [Hvc _].
  destruct (in_version _ _ Hs _ _ _ Hrow0) as (hd0 & Hd0 & Hv0 & _). rewrite Hd in Hd0. injection Hd0 as <-.
  set (hd' := {| ih_version := v; ih_revision := wrap64 (hd.(ih_revision) + 1);
                 ih_last := signed.(se_Digest); ih_status := LifecycleActive |}) in *.
  apply and_assoc. split; [|exists hd'; split; [by rewrite lookup_alter_eq, Hd|done]].
  eapply (advanced_step h id signed hd'); [done| | |].
  - split; tables; [done|done|by rewrite He|by rewrite lookup_alter_eq, Hd| | |].
    + intros id' N. split; [by rewrite alter_heads|]. intros v'. by rewrite lookup_alter_ne by congruence.
    + by apply (story_advanced h s id hd signed _ pub Hs Hd He).
    + intros v' row Hrow. destruct (decide (v' = v)) as [->|N].
      * split; [done|]. intros _. rewrite lookup_alter_eq, Hrow0 in Hrow. injection Hrow as <-.
        exists c, pubc. split_and!; [done..|]. tables. by apply VerifyIntentContractV2_bytes.
      * rewrite lookup_alter_ne in Hrow by congruence.
        destruct (in_version _ _ Hs _ _ _ Hrow) as (hd1 & Hd1 & V1 & _).
        rewrite Hd in Hd1. injection Hd1 as <-. congruence.
  - rewrite Hd. done.
  - intros v' row Hrow. tables. destruct (decide (v' = v)) as [->|N].
    + rewrite lookup_alter_eq, Hrow. by eexists.
    + rewrite lookup_alter_ne by congruence. by exists row.
Qed.

(** One step of the store: an intent door that committed, or anything that
    leaves the intent terms, events and heads alone and keeps the keys. *)
Inductive intent_step (h : Handle) (s s' : db) : Prop :=
| step_create ev rc c actor at_ : h.(time_Parse) (rfc3339 at_) = Some at_ ->
    CreateIntentV2 h ev rc c actor at_ s = Ok (tt, s') -> intent_step h s s'
| step_activate ev rc id v actor at_ : h.(time_Parse) (rfc3339 at_) = Some at_ ->
    ActivateIntentV2 h ev rc id v actor at_ s = Ok (tt, s') -> intent_step h s s'
| step_revoke ev rc id actor at_ : h.(time_Parse) (rfc3339 at_) = Some at_ ->
    RevokeIntentV2 h ev rc id actor at_ s = Ok (tt, s') -> intent_step h s s'
| step_expire ev rc id actor at_ : h.(time_Parse) (rfc3339 at_) = Some at_ ->
    ExpireIntentV2 h ev rc id actor at_ s = Ok (tt, s') -> intent_step h s s'
| step_elsewhere : keys_kept s.(signing_keys) s'.(signing_keys) ->
    s'.(t_intents).(intent_versions) = s.(t_intents).(intent_versions) ->
    s'.(t_intents).(intent_events) = s.(t_intents).(intent_events) ->
    s'.(t_intents).(intent_heads) = s.(t_intents).(intent_heads) -> intent_step h s s'.

Lemma elsewhere_sound h s s' : intents_sound h s -> keys_kept s.(signing_keys) s'.(signing_keys) ->
  s'.(t_intents).(intent_versions) = s.(t_intents).(intent_versions) ->
  s'.(t_intents).(intent_events) = s.(t_intents).(intent_events) ->
  s'.(t_intents).(intent_heads) = s.(t_intents).(intent_heads) ->
  intents_sound h s' /\ intents_follow s s'.
Proof.
  intros [Hst Hv Ho] Hk Ev Ee Eh. split; split; rewrite ?Ev, ?Ee, ?Eh.
  - intros id hd Hd. eapply story_kept; [done|by apply Hst].
  - intros id v row Hrow. destruct (Hv _ _ _ Hrow) as (hd & Hd & V & Hs). exists hd.
    split_and!; [done..|]. intros N. destruct (Hs N) as (c & pub & H1 & H2 & H3). exists c, pub.
    split_and!; [done|by apply Hk|done].
  - done.
  - done.
  - intros id hd Hd. exists hd. split_and!; [done..|apply rtc_refl].
  - intros id v row Hr. by exists row.
Qed.

Lemma intent_step_sound h s s' : intents_sound h s -> intent_step h s s' ->
  intents_sound h s' /\ intents_follow s s'.
Proof.
  intros Hs [ev rc c actor at_ Ht H|ev rc id v actor at_ Ht H|ev rc id actor at_ Ht H
            |ev rc id actor at_ Ht H|Hk Ev Ee Eh].
  - by eapply CreateIntentV2_Ok.
  - by apply ActivateIntentV2_Ok in H as (H1 & H2 & _).
  - by apply transitionIntentV2_Ok in H as (H1 & H2 & _).
  - by apply transitionIntentV2_Ok in H as (H1 & H2 & _).
  - by apply elsewhere_sound.
Qed.

Lemma intent_steps_sound h s s' : intents_sound h s -> rtc (intent_step h) s s' ->
  intents_sound h s' /\ intents_follow s s'.
Proof.
  intros Hs H. revert Hs. induction H as [s|s s1 s2 H _ IH]; intros Hs; [done|].
  destruct (intent_step_sound _ _ _ Hs H) as [Hs1 F1]. destruct (IH Hs1) as [Hs2 F2].
  split; [done|by etrans].
Qed.

(** The other gate lets nothing through that is not active. *)
Lemma ResolveIntentV2_active h s id v digest at_ x s' : intents_sound h s ->
  ResolveIntentV2 h id v digest at_ s = Ok (x, s') ->
  exists hd, s.(t_intents).(intent_heads) !! id = Some hd /\ hd.(ih_status) = LifecycleActive.
Proof.
  intros Hs H. unfold ResolveIntentV2 in H. tx_next H E. tx_next H E1. tx_next H E2. tx_next H E3.
  apply tx_bind_Ok in H as (hd & s1 & E4 & H). unfold headAndHistory in E4.
  apply tx_bind_Ok in E4 as (hd0 & s2 & E5 & E4). apply intentHeadTx_Ok in E5 as [-> Hd].
  apply tx_bind_Ok in E4 as ([] & s2 & E5 & E4). pose proof (reads _ _ _ E5) as ->.
  apply tx_ret_Ok in E4 as [= -> ->]. tx_next H E6. tx_next H E7. tx_next H E8. passed.
  exists hd0. split; [done|].
  pose proof (story_revision _ _ _ _ _ _ _ (in_story _ _ Hs _ _ Hd)) as (_ & _ & C). naive_solver.
Qed.

(** C21.  A revoked intent authorises nothing, for ever.  Once
    [RevokeIntentV2] has committed, whatever the store does next (creating,
    activating, revoking and expiring intents, retiring keys, any door that
    leaves the intent tables alone), the tables stay sound: the signed events
    of every intent are one story from its birth as a draft, its head the end
    of that story.  There the gate of a start passes exactly the intents that
    are active, with the digest asked for and within their window; the revoked
    one keeps its status, both gates refuse it at every version, digest and
    instant, and the gate of a start says revoked where its terms are asked
    for by their digest. *)
Theorem revoked_intents_authorise_nothing (h : Handle) (s s1 s2 : db) ev rc id actor at_ :
  intents_sound h s -> h.(time_Parse) (rfc3339 at_) = Some at_ ->
  RevokeIntentV2 h ev rc id actor at_ s = Ok (tt, s1) -> rtc (intent_step h) s1 s2 ->
  intents_sound h s2
  /\ (forall id' v digest t c,
        activeIntentTx h id' v digest t s2 = Ok (c, s2) <-> authorises h s2 id' v digest t c)
  /\ (exists hd, s2.(t_intents).(intent_heads) !! id = Some hd /\ hd.(ih_status) = LifecycleRevoked)
  /\ (forall v digest t r, activeIntentTx h id v digest t s2 <> Ok r)
  /\ (forall v digest t r, ResolveIntentV2 h id v digest t s2 <> Ok r)
  /\ (forall v digest t row c, s2.(t_intents).(intent_versions) !! (id, v) = Some row ->
        ParseIntentContractV2 h.(time_Parse) row.(iv_canonical) = Some c ->
        IntentContractV2_Digest c = digest ->
        activeIntentTx h id v digest t s2 = Err ErrIntentRevoked).
Proof.
  intros Hs Ht H Hsteps. apply transitionIntentV2_Ok in H as (Hs1 & _ & hd & Hd & Hst); [|done..].
  destruct (intent_steps_sound _ _ _ Hs1 Hsteps) as [Hs2 F].
  destruct (if_heads _ _ F _ _ Hd) as (hd2 & Hd2 & _ & Hm).
  apply closed_moves in Hm; [|by left]. rewrite Hst in Hm.
  split_and!; [done|intros; by apply activeIntentTx_Ok|by exists hd2| | |].
  - intros v digest t [c s'] [_ A]%activeIntentTx_sound. destruct (au_active _ _ _ _ _ _ _ A) as (hd3 & Hd3 & E).
    rewrite Hd2 in Hd3. injection Hd3 as <-. by rewrite Hm in E.
  - intros v digest t [x s'] (hd3 & Hd3 & E)%ResolveIntentV2_active; [|done].
    rewrite Hd2 in Hd3. injection Hd3 as <-. by rewrite Hm in E.
  - intros v digest t row c Hrow Hc Hdig.
    by apply (proj1 (activeIntentTx_closed h s2 id v digest t row c hd2 Hs2 Hrow Hc Hdig Hd2)).
Qed.

(** ** Witness *)

Definition intent_clock : Handle := toy_handle [unix_epoch; end_of_time; 1000 * Second].

Definition committed (r : result (unit * db)) : db := match r with Ok (_, s) => s | Err _ => empty_db end.

Definition draft_db : db := Eval vm_compute in
  committed (CreateIntentV2 intent_clock "iev_1" "rcp_1" (example_intent [example_op "calc"])
    "principal_operator" (1000 * Second) empty_db).

Definition active_db : db := Eval vm_compute in
  committed (ActivateIntentV2 intent_clock "iev_2" "rcp_2" "int_1" 1 "principal_operator" (1000 * Second)
    draft_db).

Definition revoked_db : db := Eval vm_compute in
  committed (RevokeIntentV2 intent_clock "iev_3" "rcp_3" "int_1" "principal_operator" (1000 * Second)
    active_db).

Lemma intent_clock_back : intent_clock.(time_Parse) (rfc3339 (1000 * Second)) = Some (1000 * Second).
Proof. by vm_compute. Qed.

Lemma empty_intents_sound : intents_sound intent_clock empty_db.
Proof.
  split.
  - intros id hd H. change ((∅ : gmap string intent_head_row) !! id = Some hd) in H.
    by apply lookup_empty_Some in H.
  - intros id v row H. change ((∅ : gmap (string * Z) intent_row) !! (id, v) = Some row) in H.
    by apply lookup_empty_Some in H.
  - done.
Qed.

Lemma drafted : CreateIntentV2 intent_clock "iev_1" "rcp_1" (example_intent [example_op "calc"])
  "principal_operator" (1000 * Second) empty_db = Ok (tt, draft_db).
Proof. vm_compute. reflexivity. Qed.

Lemma activated : ActivateIntentV2 intent_clock "iev_2" "rcp_2" "int_1" 1 "principal_operator"
  (1000 * Second) draft_db = Ok (tt, active_db).
Proof. vm_compute. reflexivity. Qed.

Lemma active_sound : intents_sound intent_clock active_db.
Proof.
  eapply ActivateIntentV2_Ok; [|exact intent_clock_back|exact activated].
  eapply CreateIntentV2_Ok; [exact empty_intents_sound|exact intent_clock_back|exact drafted].
Qed.

(** The active intent is let through, and no longer once it is revoked. *)
Lemma revoked_intents_authorise_nothing_witness :
  (exists c, activeIntentTx intent_clock "int_1" 1
     (IntentContractV2_Digest (example_intent [example_op "calc"])) (unix_epoch + 5) active_db
     = Ok (c, active_db))
  /\ forall v digest t r, activeIntentTx intent_clock "int_1" v digest t revoked_db <> Ok r.
Proof.
  split; [eexists; vm_compute; reflexivity|].
  refine (proj1 (proj2 (proj2 (proj2 (revoked_intents_authorise_nothing intent_clock active_db revoked_db
    revoked_db "iev_3" "rcp_3" "int_1" "principal_operator" (1000 * Second) active_sound
    intent_clock_back _ _))))).
  - vm_compute. reflexivity.
  - apply rtc_refl.
Defined.
