(* ===== verification/StoreGrants.v ===== *)
(** * Grants in the store: issue, delegate, revoke, import

    [internal/action/sqlite/authority_v2.go]: the signed versions, events and
    heads of grants, the walk over one grant's history and up its chain of
    parents, the operator an act is attributed to, and the doors that issue,
    delegate, revoke and import a grant; [BindExecutionWithGrant] of
    [intent_v2.go].  The identities drawn for new events are arguments.  The
    row of [authority_write_lock] orders the doors, and here a door is one
    step. *)

From S2P Require Import Prelude Kernel Grants Json Text Encoding Digests Wire Struct Receipts Intents Authority Contracts Identity Tables StoreBudget StoreIdentity StoreIntents.
From Stdlib Require Import Ascii String.
Import Effect Lifecycle.
Local Open Scope Z_scope.
Local Open Scope korvun_scope.
#[local] Arguments String.append !_ _ : simpl nomatch.

Definition authorityEventDomain : string := "korvun.authority-event.v1".

Definition ErrAuthorityRevoked : error := ErrorNew "action/sqlite: authority revoked".
Definition ErrAuthorityInactive : error := ErrorNew "action/sqlite: authority inactive".
Definition ErrAuthorityExpired : error := ErrorNew "action/sqlite: authority expired".
Definition ErrAuthorityMissing : error := ErrorNew "action/sqlite: authority missing".
Definition ErrGrantIDRequired : error := ErrorNew "action/sqlite: no grant id".
Definition ErrBindingNotActive : error := ErrorNew "action/sqlite: a bind writes an ACTIVE row".
Definition ErrIssuerMismatch : error := ErrorNew "action/sqlite: authority issuer mismatch".
Definition ErrAuthorizationSnapshotCorrupt : error :=
  ErrorNew "action/sqlite: authorization snapshot corrupt".

Record storedGrantV2 := {
  sgr_signed : SignedAuthorityGrantV2;
  sgr_status : LifecycleStatus;
  sgr_revision : Z;
  sgr_last : string
}.

Definition grant_of_stored (g : storedGrantV2) : AuthorityGrantV2.t := g.(sgr_signed).(sg_Grant).

(** ** Sets *)

Definition containsAuthorityString (values : list string) (want : string) : bool :=
  existsb (fun v => bool_decide (v = want) || bool_decide (v = "*")) values.

Definition containsAuthorityEffect (values : list EffectClass) (want : EffectClass) : bool :=
  existsb (fun v => bool_decide (v = want)) values.

Definition resourcesIncludedSQLite (children parents : list ResourceRef.t) (m : ResourceMatchers) : bool :=
  forallb (fun child => existsb (fun parent =>
    bool_decide (child.(ResourceRef.Kind) = parent.(ResourceRef.Kind))
    && match m !! child.(ResourceRef.Kind) with
       | Some matcher => matcher parent.(ResourceRef.ID) child.(ResourceRef.ID)
       | None => false
       end) parents) children.

Definition resourceSupersetSQLite (child parent : list ResourceRef.t) : bool :=
  forallb (fun required => existsb (fun c => bool_decide (c = required)) child) parent.

Definition stringSubsetSQLite (child parent : list string) : bool :=
  forallb (fun value => containsAuthorityString parent value) child.

Definition operationSubsetSQLite (child parent : list OperationRef.t) : bool :=
  forallb (fun c => existsb (fun p => bool_decide (c = p)) parent) child.

Definition effectSubsetSQLite (child parent : list EffectClass) : bool :=
  forallb (fun c => existsb (fun p => bool_decide (c = p)) parent) child.

Definition literal_matcher (p c : string) : bool := bool_decide (p = c) || bool_decide (p = "*").

Definition defaultAuthorityMatchers (h : Handle) : ResourceMatchers :=
  list_to_map [("path", PathResourceIncludes h.(working_dir));
               ("url", URLResourceIncludes h.(url_Parse) h.(url_String) h.(strings_ToLower)
                         h.(strings_EqualFold));
               ("cage", literal_matcher); ("legacy", literal_matcher)].

(** ** A root grant against its intent *)

Section Root.
Import AuthorityGrantV2.
Context (h : Handle) (grant : AuthorityGrantV2.t) (intent : IntentContractV2.t).

(** The loop over the intent's per-operation limits, in any order of its map. *)
Definition root_operation_check (p : string * Z) : option error :=
  if negb (bool_decide (p.1 ∈ map operationKey (elems grant.(Operations)))) then None
  else match IntentBudgetV2.per grant.(Budget) !! p.1 with
       | None => Some (authorityWidens "budget_operation_remaining" "root operation limit disappeared")
       | Some childMaximum =>
           fail_if (p.2 <? childMaximum)
             (authorityWidens "budget_operation_remaining" "root operation exceeds intent")
       end.

Definition root_checks : option error :=
  fail_if (bool_decide (grant.(ParentGrantID) <> "") || bool_decide (grant.(ParentGrantVersion) <> 0))
    (authorityWidens "parent" "root grant has a parent") ;;;
  fail_if (bool_decide (grant.(ProfileID) <> intent.(IntentContractV2.ProfileID))
           || bool_decide (grant.(IntentID) <> intent.(IntentContractV2.IntentID))
           || bool_decide (grant.(IntentVersion) <> intent.(IntentContractV2.Version))
           || bool_decide (grant.(IntentDigest) <> IntentContractV2_Digest intent))
    (authorityWidens "intent" "root intent differs") ;;;
  fail_if (negb (operationSubsetSQLite (elems grant.(Operations)) (elems intent.(IntentContractV2.Operations)))
           || negb (effectSubsetSQLite (elems grant.(EffectClasses))
                      (elems intent.(IntentContractV2.EffectClasses))))
    (authorityWidens "operations" "operation or effect set widens") ;;;
  fail_if (negb (resourcesIncludedSQLite (elems grant.(AllowedResources))
                   (elems intent.(IntentContractV2.AllowedResources)) (defaultAuthorityMatchers h)))
    (authorityWidens "allowed_resources" "allowed resource widens") ;;;
  fail_if (negb (resourceSupersetSQLite (elems grant.(DeniedResources))
                   (elems intent.(IntentContractV2.DeniedResources))))
    (authorityWidens "denied_resources" "intent denial disappeared") ;;;
  fail_if (negb (stringSubsetSQLite (elems grant.(AllowedData)) (elems intent.(IntentContractV2.DataScope))))
    (authorityWidens "allowed_data" "data set widens") ;;;
  fail_if (negb (stringSubsetSQLite (elems grant.(OutputDestinations))
                   (elems intent.(IntentContractV2.OutputDestinations))))
    (authorityWidens "destinations" "destination set widens") ;;;
  fail_if (time_before grant.(ValidFrom) intent.(IntentContractV2.ValidFrom)
           || time_after grant.(ExpiresAt) intent.(IntentContractV2.ExpiresAt)
           || (intent.(IntentContractV2.MaxDelegationDepth) <? grant.(DelegationDepthRemaining)))
    (authorityWidens "validity" "root window or depth widens") ;;;
  fail_if match intent.(IntentContractV2.Budget).(IntentBudgetV2.Total) with
          | None => false
          | Some m => match grant.(Budget).(IntentBudgetV2.Total) with
                      | None => true
                      | Some n => m <? n
                      end
          end (authorityWidens "budget_total_remaining" "root total exceeds intent") ;;;
  check_all root_operation_check (map_to_list (IntentBudgetV2.per intent.(IntentContractV2.Budget))) ;;;
  fail_if (intent.(IntentContractV2.Approval).(ApprovalRequirementV2.Required)
           && negb grant.(Approval).(ApprovalRequirementV2.Required))
    (authorityWidens "approval" "required approval disappeared").

Definition normalizeRootAuthority : result AuthorityGrantV2.t :=
  match root_checks with
  | Some e => Err e
  | None => Ok (set_budget (present_budget grant.(Budget)) grant)
  end.

End Root.

(** ** Canonical bytes of events and acts *)

Definition canonicalGrantEvent (grantID : string) (version revision : Z) (from to : LifecycleStatus)
    (actorActionID actor : string) (administrative : bool) (reason : string) (at_ : time)
    (previous : string) : string :=
  print (VObject
    [("grant_id", VString grantID); ("version", num version); ("revision", num revision);
     ("from", VString from); ("to", VString to); ("actor_action_id", VString actorActionID);
     ("actor_principal_id", VString actor); ("administrative", VBool administrative);
     ("reason", VString reason); ("occurred_at", VString (rfc3339 at_));
     ("previous_event_digest", VString previous)]).

Definition CanonicalAuthorityRevoke (grantID reason : string) : string :=
  print (VObject [("grant_id", VString grantID); ("reason", VString reason)]).

(** A [json.RawMessage] of canonical bytes is written as it is. *)
Definition CanonicalAdminAuthorityGrant (grant : AuthorityGrantV2.t) (reason : string) : string :=
  print (VObject [("terms", grant_value grant); ("reason", VString reason)]).

Definition CanonicalLegacyAuthorityImport (legacyGrantID : string) (grant : AuthorityGrantV2.t)
    (reason : string) : string :=
  print (VObject [("legacy_grant_id", VString legacyGrantID); ("terms", grant_value grant);
                  ("reason", VString reason)]).

(** ** Tables *)

Definition change_grants (f : grant_tables -> grant_tables) : Tx unit :=
  change (fun s => with_grants (f s.(t_grants)) s).

Definition set_grant_versions (m : gmap (string * Z) grant_row) (t : grant_tables) : grant_tables :=
  {| grant_versions := m; grant_events := t.(grant_events); grant_heads := t.(grant_heads) |}.
Definition set_grant_events (l : list grant_event_row) (t : grant_tables) : grant_tables :=
  {| grant_versions := t.(grant_versions); grant_events := l; grant_heads := t.(grant_heads) |}.
Definition set_grant_heads (m : gmap string grant_head_row) (t : grant_tables) : grant_tables :=
  {| grant_versions := t.(grant_versions); grant_events := t.(grant_events); grant_heads := m |}.

Definition events_of_grant (id : string) (l : list grant_event_row) : list grant_event_row :=
  filter (fun r => r.(ge_grant) = id) l.

(** [ORDER BY revision]. *)
Definition by_grant_revision : grant_event_row -> grant_event_row -> Prop := on ge_revision Z.le.
#[export] Instance by_grant_revision_dec : RelDecision by_grant_revision.
Proof. intros x y. unfold by_grant_revision, on. apply _. Defined.

Section Doors.
Context (h : Handle).

(** ** Reading one grant *)

(** What a walk over a grant's events has seen. *)
Definition grant_walk : Type := Z * string * LifecycleStatus.

Definition grant_event_text (grantID : string) (row : grant_event_row) (occurred : time) : string :=
  canonicalGrantEvent grantID row.(ge_version) row.(ge_revision) row.(ge_from) row.(ge_to)
    row.(ge_actor_action) row.(ge_actor) row.(ge_admin) row.(ge_reason) occurred row.(ge_previous).

(** One row of [verifyGrantHistoryTx]. *)
Definition grant_history_row (grantID : string) (version : Z) (w : grant_walk) (row : grant_event_row)
    : Tx grant_walk :=
  let '(revision, previous, status) := w in
  occurred ← found ErrAuthorityEvidenceCorrupt (h.(time_Parse) row.(ge_occurred));
  require (fail_if (bool_decide (row.(ge_version) <> version)
                    || bool_decide (row.(ge_revision) <> wrap64 (revision + 1))
                    || bool_decide (row.(ge_previous) <> previous)
                    || bool_decide (row.(ge_from) <> status)) ErrAuthorityEvidenceCorrupt);;
  require (fail_if (if bool_decide (row.(ge_revision) = 1)
                    then bool_decide (row.(ge_from) <> "") || bool_decide (row.(ge_to) <> LifecycleActive)
                    else bool_decide (row.(ge_to) <> LifecycleRevoked)
                         || bool_decide (status <> LifecycleActive)) ErrAuthorityEvidenceCorrupt);;
  require (fail_if (bool_decide (row.(ge_canonical) <> grant_event_text grantID row occurred))
             ErrAuthorityEvidenceCorrupt);;
  seal_checks h ErrAuthorityEvidenceCorrupt authorityEventDomain row.(ge_canonical) row.(ge_seal);;
  mret (row.(ge_revision), row.(ge_seal).(as_Digest), row.(ge_to)).

Fixpoint grant_history (grantID : string) (version : Z) (w : grant_walk) (l : list grant_event_row)
    : Tx grant_walk :=
  match l with
  | [] => mret w
  | row :: l' => w' ← grant_history_row grantID version w row; grant_history grantID version w' l'
  end.

Definition verifyGrantHistoryTx (grantID : string) (version headRevision : Z)
    (headStatus : LifecycleStatus) (headDigest : string) : Tx unit :=
  t ← ask t_grants;
  '(revision, previous, status) ← grant_history grantID version (0, "", "")
     (merge_sort by_grant_revision (events_of_grant grantID t.(grant_events)));
  require (fail_if (bool_decide (revision <> headRevision) || bool_decide (previous <> headDigest)
                    || bool_decide (status <> headStatus)) ErrAuthorityEvidenceCorrupt).

(** The version joined with its head, when the head names it. *)
Definition joined_grant (t : grant_tables) (id : string) (version : Z)
    : option (grant_row * grant_head_row) :=
  v ← t.(grant_versions) !! (id, version);
  hd ← t.(grant_heads) !! id;
  if bool_decide (hd.(gh_version) = version) then Some (v, hd) else None.

Definition readGrantTx (id : string) (version : Z) : Tx storedGrantV2 :=
  t ← ask t_grants;
  '(v, hd) ← found ErrNoRows (joined_grant t id version);
  grant ← match ParseAuthorityGrantV2 h.(time_Parse) v.(gv_canonical) with
          | Ok g => mret g
          | Err _ => raise ErrAuthorityEvidenceCorrupt
          end;
  '(pub, _) ← publicKeyTx v.(gv_seal).(as_SigningKeyID);
  let signed := {| sg_Grant := grant; sg_Seal := v.(gv_seal) |} in
  require (VerifyAuthorityGrantV2 h.(Ed25519_Verify) pub signed);;
  verifyGrantHistoryTx id version hd.(gh_revision) hd.(gh_status) hd.(gh_last);;
  mret {| sgr_signed := signed; sgr_status := hd.(gh_status); sgr_revision := hd.(gh_revision);
          sgr_last := hd.(gh_last) |}.

Definition readGrantHeadTx (id : string) : Tx storedGrantV2 :=
  t ← ask t_grants;
  hd ← found ErrNoRows (t.(grant_heads) !! id);
  readGrantTx id hd.(gh_version).

(** ** The chain of parents *)

(** An ancestor that is not there is broken evidence; the grant asked for is
    only missing. *)
Definition read_link (first : bool) (id : string) (version : Z) : Tx storedGrantV2 :=
  fun s => match readGrantTx id version s with
           | Ok r => Ok r
           | Err e => Err (if error_is "sql: no rows in result set" e && negb first
                           then ErrAuthorityEvidenceCorrupt else e)
           end.

(** [room] is what is left of the sixteen links a chain may have; [above] is
    the chain read so far, nearest the root first. *)
Fixpoint chain_walk (room : nat) (id : string) (version : Z) (at_ : time) (seen : list string)
    (above : list storedGrantV2) : Tx (list storedGrantV2) :=
  if bool_decide (id = "") then mret above
  else match room with
  | O => raise ErrAuthorityEvidenceCorrupt
  | S room' =>
      require (fail_if (contains seen id) ErrAuthorityEvidenceCorrupt);;
      g ← read_link (bool_decide (above = [] :> list storedGrantV2)) id version;
      require (fail_if (bool_decide (g.(sgr_status) = LifecycleRevoked)) ErrAuthorityRevoked);;
      require (fail_if (bool_decide (g.(sgr_status) <> LifecycleActive)) ErrAuthorityInactive);;
      let grant := grant_of_stored g in
      require (fail_if (time_before at_ grant.(AuthorityGrantV2.ValidFrom)
                        || negb (time_before at_ grant.(AuthorityGrantV2.ExpiresAt)))
                 ErrAuthorityExpired);;
      chain_walk room' grant.(AuthorityGrantV2.ParentGrantID) grant.(AuthorityGrantV2.ParentGrantVersion)
        at_ (id :: seen) (g :: above)
  end.

Definition maxChain : nat := 16.

Definition authorityChainTx (id : string) (version : Z) (at_ : time) : Tx (list storedGrantV2) :=
  require (fail_if (bool_decide (id = "")) ErrAuthorityEvidenceCorrupt);;
  chain_walk maxChain id version at_ [] [].

(** The balance a stored edge is judged against: the parent's own limits. *)
Definition whole_budget (g : AuthorityGrantV2.t) : AuthorityBudgetRemaining :=
  {| br_Total := g.(AuthorityGrantV2.Budget).(IntentBudgetV2.Total);
     br_PerOperation := IntentBudgetV2.per g.(AuthorityGrantV2.Budget) |}.

Fixpoint stored_edges (intent : IntentContractV2.t) (parent : AuthorityGrantV2.t)
    (l : list AuthorityGrantV2.t) : option error :=
  match l with
  | [] => None
  | child :: l' =>
      match NormalizeAuthorityDelegation parent child intent (whole_budget parent)
              (defaultAuthorityMatchers h) with
      | Err e => Some e
      | Ok normalized =>
          fail_if (bool_decide (GrantCanonicalBytes normalized <> GrantCanonicalBytes child))
            ErrAuthorityEvidenceCorrupt ;;;
          stored_edges intent child l'
      end
  end.

Definition validateStoredAuthorityChain (chain : list AuthorityGrantV2.t) (intent : IntentContractV2.t)
    : option error :=
  match chain with
  | [] => Some ErrAuthorityEvidenceCorrupt
  | first :: rest =>
      match normalizeRootAuthority h first intent with
      | Err e => Some e
      | Ok root =>
          fail_if (bool_decide (GrantCanonicalBytes root <> GrantCanonicalBytes first))
            ErrAuthorityEvidenceCorrupt ;;;
          stored_edges intent first rest
      end
  end.

(** [None]: the registry of the three built-in analyzers does not fail to build. *)
Definition built_in_registry : option OperationUseRegistry :=
  match RegisterBuiltInOperationUse h.(url_Parse) h.(url_String) h.(url_Hostname)
          h.(strings_ToLower) NewOperationUseRegistry with
  | Ok r => Some r
  | Err _ => None
  end.

(** ** The use an operation makes *)

Definition restricted_intent (intent : IntentContractV2.t) : bool :=
  bool_decide (elems intent.(IntentContractV2.AllowedResources) <> [])
  || bool_decide (elems intent.(IntentContractV2.DeniedResources) <> [])
  || bool_decide (elems intent.(IntentContractV2.DataScope) <> [])
  || bool_decide (elems intent.(IntentContractV2.OutputDestinations) <> []).

Definition restricted_grant (g : AuthorityGrantV2.t) : bool :=
  bool_decide (elems g.(AuthorityGrantV2.AllowedResources) <> [])
  || bool_decide (elems g.(AuthorityGrantV2.DeniedResources) <> [])
  || bool_decide (elems g.(AuthorityGrantV2.AllowedData) <> [])
  || bool_decide (elems g.(AuthorityGrantV2.DeniedData) <> [])
  || bool_decide (elems g.(AuthorityGrantV2.OutputDestinations) <> []).

(** The intent's sets as a grant; every other field is its zero value. *)
Definition intent_terms (intent : IntentContractV2.t) : AuthorityGrantV2.t :=
  {| AuthorityGrantV2.GrantID := ""; AuthorityGrantV2.SchemaVersion := 0;
     AuthorityGrantV2.Version := 0; AuthorityGrantV2.ProfileID := ""; AuthorityGrantV2.IntentID := "";
     AuthorityGrantV2.IntentVersion := 0; AuthorityGrantV2.IntentDigest := "";
     AuthorityGrantV2.IssuerPrincipalID := ""; AuthorityGrantV2.SubjectPrincipalID := "";
     AuthorityGrantV2.ParentGrantID := ""; AuthorityGrantV2.ParentGrantVersion := 0;
     AuthorityGrantV2.Operations := None; AuthorityGrantV2.Channels := None;
     AuthorityGrantV2.AllowedResources := intent.(IntentContractV2.AllowedResources);
     AuthorityGrantV2.DeniedResources := intent.(IntentContractV2.DeniedResources);
     AuthorityGrantV2.AllowedData := intent.(IntentContractV2.DataScope);
     AuthorityGrantV2.DeniedData := None;
     AuthorityGrantV2.OutputDestinations := intent.(IntentContractV2.OutputDestinations);
     AuthorityGrantV2.EffectClasses := None; AuthorityGrantV2.EffectCeiling := "";
     AuthorityGrantV2.Budget := {| IntentBudgetV2.Total := None; IntentBudgetV2.PerOperation := None |};
     AuthorityGrantV2.ValidFrom := 0; AuthorityGrantV2.ExpiresAt := 0;
     AuthorityGrantV2.DelegationDepthRemaining := 0;
     AuthorityGrantV2.Approval := {| ApprovalRequirementV2.Required := false |};
     AuthorityGrantV2.Status := "" |}.

Definition validateAuthorityActualUse (intent : IntentContractV2.t) (chain : list AuthorityGrantV2.t)
    (operation arguments : string) : option error :=
  match built_in_registry with
  | None => Some ErrAuthorityUseUnresolved
  | Some registry =>
      let judge use :=
        ValidateAuthorityUse (intent_terms intent) use (defaultAuthorityMatchers h) ;;;
        check_all (fun g => ValidateAuthorityUse g use (defaultAuthorityMatchers h)) chain in
      match Analyze (Some registry) operation arguments with
      | Ok use => judge use
      | Err e =>
          if negb (error_is sentinel_no_analyzer e) then Some ErrAuthorityUseUnresolved
          else if restricted_intent intent || existsb restricted_grant chain
          then Some ErrAuthorityUseUnresolved
          else judge no_use
      end
  end.

(** ** Who acts *)

(** The three places an acting action can already have been spent on. *)
Definition act_used (s : db) (actionID : string) : bool :=
  existsb (fun r => bool_decide (r.(ge_actor_action) = actionID)) s.(t_grants).(grant_events)
  || existsb (fun p => bool_decide (p.2.(bh_actor_action) = actionID))
       (map_to_list s.(t_births).(birth_heads))
  || existsb (fun p => bool_decide (p.2.(im_actor_action) = actionID))
       (map_to_list s.(t_legacy).(legacy_imports)).

Definition validateAuthorityActorTx (actionID operation parameters : string) (administrative : bool)
    (at_ : time) : Tx string :=
  require (fail_if (bool_decide (actionID = "")) ErrIdentityEvidenceMissing);;
  evidence ← validateActionIdentityV2Tx h actionID at_;
  t ← ask t_actions;
  row ← found ErrNoRows (t.(actions) !! actionID);
  principal ← found ErrNullColumn row.(aw_principal);
  let op := {| Operation.Namespace := "authority"; Operation.Name := operation; Operation.Version := 1 |} in
  require (fail_if (bool_decide (row.(aw_operation).(Operation.Namespace) <> "authority")
                    || bool_decide (row.(aw_operation).(Operation.Name) <> operation)
                    || bool_decide (row.(aw_parameters) <> Digest op parameters))
             ErrIdentityBindingMismatch);;
  require (fail_if (bool_decide (principal <> evidence.(Evidence.ActorPrincipalID)))
             ErrIdentityEvidenceCorrupt);;
  used ← ask (fun s => act_used s actionID);
  require (fail_if used ErrIdentityBindingMismatch);;
  if administrative then
    operator ← rename ErrIssuerMismatch (principalTx h evidence.(Evidence.ResponsiblePrincipalID));
    require (fail_if (bool_decide (operator.(Registered.Kind) <> PrincipalHuman)) ErrIssuerMismatch);;
    mret operator.(Registered.ID)
  else mret principal.

(** ** Writing a grant *)

Definition insertGrantVersionTx (grant : AuthorityGrantV2.t) (seal : AuthoritySignature) (at_ : time)
    : Tx unit :=
  let id := grant.(AuthorityGrantV2.GrantID) in
  let v := grant.(AuthorityGrantV2.Version) in
  t ← ask t_grants;
  require (fail_if (bool_decide (is_Some (t.(grant_versions) !! (id, v)))) ErrConstraint);;
  change_grants (fun t => set_grant_versions (<[(id, v) :=
    {| gv_schema := 2; gv_profile := grant.(AuthorityGrantV2.ProfileID);
       gv_intent := grant.(AuthorityGrantV2.IntentID);
       gv_intent_version := grant.(AuthorityGrantV2.IntentVersion);
       gv_intent_digest := grant.(AuthorityGrantV2.IntentDigest);
       gv_parent := grant.(AuthorityGrantV2.ParentGrantID);
       gv_parent_version := grant.(AuthorityGrantV2.ParentGrantVersion);
       gv_issuer := grant.(AuthorityGrantV2.IssuerPrincipalID);
       gv_subject := grant.(AuthorityGrantV2.SubjectPrincipalID);
       gv_canonical := GrantCanonicalBytes grant; gv_seal := seal; gv_created := rfc3339 at_ |}]>
    t.(grant_versions)) t).

(** [event_id] is the primary key, [actor_action_id] unique. *)
Definition insertGrantEventTx (row : grant_event_row) : Tx unit :=
  t ← ask t_grants;
  require (fail_if (existsb (fun r => bool_decide (r.(ge_id) = row.(ge_id))
                      || bool_decide (r.(ge_actor_action) = row.(ge_actor_action))) t.(grant_events))
             ErrConstraint);;
  change_grants (fun t => set_grant_events (row :: t.(grant_events)) t).

(** A lifecycle event, signed and stored; it answers the event's digest. *)
Definition grantEventTx (eventID grantID : string) (version revision : Z) (from to : LifecycleStatus)
    (actorActionID actor : string) (administrative : bool) (reason : string) (at_ : time)
    (previous : string) : Tx string :=
  let canonical := canonicalGrantEvent grantID version revision from to actorActionID actor
                     administrative reason at_ previous in
  seal ← signAuthorityTx h authorityEventDomain canonical;
  insertGrantEventTx
    {| ge_id := eventID; ge_grant := grantID; ge_version := version; ge_revision := revision;
       ge_from := from; ge_to := to; ge_actor_action := actorActionID; ge_actor := actor;
       ge_admin := administrative; ge_reason := reason; ge_occurred := rfc3339 at_;
       ge_previous := previous; ge_canonical := canonical; ge_seal := seal |};;
  mret seal.(as_Digest).

Definition insertGrantTx (eventID : string) (grant : AuthorityGrantV2.t) (actorActionID actor : string)
    (administrative : bool) (reason : string) (at_ : time) : Tx unit :=
  let id := grant.(AuthorityGrantV2.GrantID) in
  let v := grant.(AuthorityGrantV2.Version) in
  seal ← signAuthorityTx h authorityGrantDomain (GrantCanonicalBytes grant);
  insertGrantVersionTx grant seal at_;;
  digest ← grantEventTx eventID id v 1 "" LifecycleActive actorActionID actor administrative reason at_ "";
  t ← ask t_grants;
  require (fail_if (bool_decide (is_Some (t.(grant_heads) !! id))) ErrConstraint);;
  change_grants (fun t => set_grant_heads (<[id :=
    {| gh_version := v; gh_revision := 1; gh_last := digest; gh_status := LifecycleActive |}]>
    t.(grant_heads)) t).

(** ** The doors *)

Definition issueAuthority (eventID : string) (grant : AuthorityGrantV2.t) (actorActionID reason : string)
    (administrative : bool) (at_ : time) : Tx unit :=
  require (Authority.Validate grant);;
  let parameters := if administrative then CanonicalAdminAuthorityGrant grant reason
                    else GrantCanonicalBytes grant in
  actor ← validateAuthorityActorTx actorActionID "issue" parameters administrative at_;
  intent ← activeIntentTx h grant.(AuthorityGrantV2.IntentID) grant.(AuthorityGrantV2.IntentVersion)
             grant.(AuthorityGrantV2.IntentDigest) at_;
  require (fail_if (negb administrative
      && (bool_decide (actor <> intent.(IntentContractV2.OwnerPrincipalID))
          || bool_decide (grant.(AuthorityGrantV2.IssuerPrincipalID) <> actor))) ErrIssuerMismatch);;
  grant ← lift (normalizeRootAuthority h grant intent);
  insertGrantTx eventID grant actorActionID actor administrative reason at_;;
  ensureBudgetAccountTx intent.(IntentContractV2.ProfileID) "intent" intent.(IntentContractV2.IntentID)
    intent.(IntentContractV2.Budget) at_;;
  ensureBudgetAccountTx grant.(AuthorityGrantV2.ProfileID) "grant" grant.(AuthorityGrantV2.GrantID)
    grant.(AuthorityGrantV2.Budget) at_.

Definition IssueAuthority (eventID : string) (grant : AuthorityGrantV2.t) (actorActionID : string)
    (at_ : time) : Tx unit := issueAuthority eventID grant actorActionID "" false at_.

Definition blank (reason : string) : bool := bool_decide (TrimSpace reason = "").

Definition AdminIssueAuthority (eventID : string) (grant : AuthorityGrantV2.t)
    (actorActionID reason : string) (at_ : time) : Tx unit :=
  require (fail_if (blank reason) ErrAuthorityMalformed);;
  issueAuthority eventID grant actorActionID reason true at_.

(** [authorityAbsent]. *)
Definition authorityAbsent {A} (m : Tx A) : Tx A :=
  fun s => match m s with
           | Ok r => Ok r
           | Err e => Err (if error_is "sql: no rows in result set" e
                           then ErrorJoin [ErrAuthorityMissing; e] else e)
           end.

(** The last grant of a chain; the walk answers at least one. *)
Definition leaf_of (chain : list storedGrantV2) : Tx storedGrantV2 :=
  found ErrAuthorityEvidenceCorrupt (last chain).

(** A widening of a budget is reported as a lack of balance. *)
Definition budget_widening (e : error) : bool :=
  match e with
  | ErrorWrap m c => error_is "action: delegation widens authority" c && String.prefix "budget_" m
  | _ => false
  end.

Definition exhausted (r : result AuthorityGrantV2.t) : result AuthorityGrantV2.t :=
  match r with
  | Ok g => Ok g
  | Err e => Err (if budget_widening e then ErrorWrap "widens" ErrBudgetExhausted else e)
  end.

Definition delegateAuthority (eventID : string) (child : AuthorityGrantV2.t)
    (actorActionID reason : string) (administrative : bool) (at_ : time) : Tx unit :=
  require (Authority.Validate child);;
  let parameters := if administrative then CanonicalAdminAuthorityGrant child reason
                    else GrantCanonicalBytes child in
  actor ← validateAuthorityActorTx actorActionID "delegate" parameters administrative at_;
  parents ← authorityAbsent (authorityChainTx child.(AuthorityGrantV2.ParentGrantID)
              child.(AuthorityGrantV2.ParentGrantVersion) at_);
  parent ← leaf_of parents;
  require (fail_if (negb administrative
      && (bool_decide (actor <> (grant_of_stored parent).(AuthorityGrantV2.SubjectPrincipalID))
          || bool_decide (child.(AuthorityGrantV2.IssuerPrincipalID) <> actor))) ErrIssuerMismatch);;
  intent ← activeIntentTx h child.(AuthorityGrantV2.IntentID) child.(AuthorityGrantV2.IntentVersion)
             child.(AuthorityGrantV2.IntentDigest) at_;
  require (validateStoredAuthorityChain (map grant_of_stored parents) intent);;
  remaining ← remainingForGrantTx h (grant_of_stored parent);
  normalized ← lift (exhausted (NormalizeAuthorityDelegation (grant_of_stored parent) child intent
                       remaining (defaultAuthorityMatchers h)));
  insertGrantTx eventID normalized actorActionID actor administrative reason at_;;
  ensureBudgetAccountTx normalized.(AuthorityGrantV2.ProfileID) "grant"
    normalized.(AuthorityGrantV2.GrantID) normalized.(AuthorityGrantV2.Budget) at_.

Definition DelegateAuthority (eventID : string) (child : AuthorityGrantV2.t) (actorActionID : string)
    (at_ : time) : Tx unit := delegateAuthority eventID child actorActionID "" false at_.

Definition AdminDelegateAuthority (eventID : string) (child : AuthorityGrantV2.t)
    (actorActionID reason : string) (at_ : time) : Tx unit :=
  require (fail_if (blank reason) ErrAuthorityMalformed);;
  delegateAuthority eventID child actorActionID reason true at_.

Definition revokeAuthority (eventID grantID actorActionID reason : string) (administrative : bool)
    (at_ : time) : Tx unit :=
  stored ← authorityAbsent (readGrantHeadTx grantID);
  let grant := grant_of_stored stored in
  actor ← validateAuthorityActorTx actorActionID "revoke" (CanonicalAuthorityRevoke grantID reason)
            administrative at_;
  require (fail_if (negb administrative
      && bool_decide (actor <> grant.(AuthorityGrantV2.SubjectPrincipalID))
      && bool_decide (actor <> grant.(AuthorityGrantV2.IssuerPrincipalID))) ErrIssuerMismatch);;
  require (fail_if (bool_decide (stored.(sgr_status) = LifecycleRevoked)) ErrAuthorityRevoked);;
  let revision := wrap64 (stored.(sgr_revision) + 1) in
  digest ← grantEventTx eventID grantID grant.(AuthorityGrantV2.Version) revision stored.(sgr_status)
             LifecycleRevoked actorActionID actor administrative reason at_ stored.(sgr_last);
  change_grants (fun t => set_grant_heads (alter (fun hd =>
    {| gh_version := hd.(gh_version); gh_revision := revision; gh_last := digest;
       gh_status := LifecycleRevoked |}) grantID t.(grant_heads)) t).

Definition RevokeAuthority (eventID grantID actorActionID reason : string) (at_ : time) : Tx unit :=
  revokeAuthority eventID grantID actorActionID reason false at_.

Definition AdminRevokeAuthority (eventID grantID actorActionID reason : string) (at_ : time) : Tx unit :=
  require (fail_if (blank reason) ErrAuthorityMalformed);;
  revokeAuthority eventID grantID actorActionID reason true at_.

(** Who issued the root, and whether as an operator. *)
Definition grantOriginActorTx (grantID : string) (version : Z) : Tx (string * bool) :=
  t ← ask t_grants;
  row ← found ErrAuthorityEvidenceCorrupt
    (find (fun r => bool_decide (r.(ge_grant) = grantID /\ r.(ge_version) = version
                                 /\ r.(ge_revision) = 1)) t.(grant_events));
  mret (row.(ge_actor), row.(ge_admin)).

(** ** Importing a grant of version 1 *)

Definition parseSet (raw : string) : option (list string) :=
  if bool_decide (raw = "") || bool_decide (raw = "null") then Some []
  else v ← parse raw; g ← decode_go (TSlice TString) v (zero_go (TSlice TString));
       elems <$> slice_of string_of g.

Definition parsePerOp (raw : string) : option (option (gmap string Z)) :=
  if bool_decide (raw = "") then Some None else Some <$> per_operation raw.

Definition ErrLegacyColumn : error := ErrorNew "action/sqlite: parse legacy column".

Definition parseNullTime (raw : option string) : Tx time :=
  match raw with
  | None => mret 0
  | Some text => if bool_decide (text = "") then mret 0 else found ErrBadTime (h.(time_Parse) text)
  end.

Definition legacyGrantTx (grantID : string) : Tx AuthorityGrant.t :=
  t ← ask t_legacy;
  row ← found ErrNoRows (t.(legacy_grants) !! grantID);
  operations ← found ErrLegacyColumn (parseSet row.(lg_operations));
  resources ← found ErrLegacyColumn (parseSet row.(lg_resources));
  per ← found ErrLegacyColumn (parsePerOp row.(lg_per_operation));
  from ← found ErrBadTime (h.(time_Parse) row.(lg_from));
  until ← parseNullTime row.(lg_expires);
  mret {| AuthorityGrant.GrantID := grantID; AuthorityGrant.IntentID := row.(lg_intent);
          AuthorityGrant.IssuerPrincipalID := row.(lg_issuer);
          AuthorityGrant.SubjectPrincipalID := row.(lg_subject);
          AuthorityGrant.ParentGrantID := row.(lg_parent); AuthorityGrant.Operations := operations;
          AuthorityGrant.ResourceScope := resources;
          AuthorityGrant.Budgets := {| MaxActions := row.(lg_max_actions); PerOperation := per |};
          AuthorityGrant.ValidFrom := from; AuthorityGrant.ExpiresAt := until;
          AuthorityGrant.DelegationDepthRemaining := row.(lg_depth);
          AuthorityGrant.EffectCeiling := row.(lg_ceiling); AuthorityGrant.Status := row.(lg_status) |}.

Definition sameResourceSet (left right : list ResourceRef.t) : bool :=
  bool_decide (List.length left = List.length right)
  && forallb (fun item => existsb (fun c => bool_decide (item = c)) right) left.

Definition validateLegacyImport (legacy : AuthorityGrant.t) (grant : AuthorityGrantV2.t)
    (intent : IntentContractV2.t) : option error :=
  let operations := map legacy_operation legacy.(AuthorityGrant.Operations) in
  let resources := map legacy_resource legacy.(AuthorityGrant.ResourceScope) in
  let maximum := legacy.(AuthorityGrant.Budgets).(MaxActions) in
  let per := MaxActionsPerOperation legacy.(AuthorityGrant.Budgets) in
  let granted := IntentBudgetV2.per grant.(AuthorityGrantV2.Budget) in
  let until := if time_is_zero legacy.(AuthorityGrant.ExpiresAt) then end_of_time
               else legacy.(AuthorityGrant.ExpiresAt) in
  fail_if (bool_decide (grant.(AuthorityGrantV2.IntentID) <> legacy.(AuthorityGrant.IntentID))
           || bool_decide (grant.(AuthorityGrantV2.SubjectPrincipalID)
                           <> legacy.(AuthorityGrant.SubjectPrincipalID))
           || bool_decide (grant.(AuthorityGrantV2.IssuerPrincipalID)
                           <> legacy.(AuthorityGrant.IssuerPrincipalID))
           || bool_decide (grant.(AuthorityGrantV2.ProfileID) <> intent.(IntentContractV2.ProfileID)))
    ErrAttenuationViolated ;;;
  fail_if (negb (operationSubsetSQLite operations (elems grant.(AuthorityGrantV2.Operations)))
           || negb (operationSubsetSQLite (elems grant.(AuthorityGrantV2.Operations)) operations))
    ErrAttenuationViolated ;;;
  fail_if (negb (sameResourceSet (elems grant.(AuthorityGrantV2.AllowedResources)) resources)
           || bool_decide (elems grant.(AuthorityGrantV2.DeniedResources) <> [])
           || bool_decide (elems grant.(AuthorityGrantV2.Channels) = [])
           || bool_decide (elems grant.(AuthorityGrantV2.EffectClasses) = []))
    ErrAttenuationViolated ;;;
  fail_if (bool_decide (grant.(AuthorityGrantV2.Budget).(IntentBudgetV2.Total)
                        <> if bool_decide (maximum = 0) then None else Some maximum))
    ErrAttenuationViolated ;;;
  fail_if (bool_decide (size granted <> size per)) ErrAttenuationViolated ;;;
  check_all (fun p => fail_if (bool_decide (default 0 (granted !! legacy_key p.1) <> p.2))
                        ErrAttenuationViolated) (map_to_list per) ;;;
  fail_if (bool_decide (grant.(AuthorityGrantV2.ValidFrom) <> legacy.(AuthorityGrant.ValidFrom))
           || bool_decide (grant.(AuthorityGrantV2.ExpiresAt) <> until)
           || bool_decide (grant.(AuthorityGrantV2.DelegationDepthRemaining)
                           <> legacy.(AuthorityGrant.DelegationDepthRemaining))
           || bool_decide (grant.(AuthorityGrantV2.EffectCeiling) <> legacy.(AuthorityGrant.EffectCeiling)))
    ErrAttenuationViolated.

(** The consumption of version 1, by operation. *)
Definition by_operation : string * Z -> string * Z -> Prop := on fst String.le.
#[local] Instance by_operation_dec : RelDecision by_operation.
Proof. unfold by_operation. apply _. Defined.

Definition spent_of_scope (legacyGrantID : string) (m : gmap (string * string) Z) : list (string * Z) :=
  merge_sort by_operation
    (omap (fun p => if bool_decide (p.1.1 = legacyGrantID) && (0 <? p.2) then Some (p.1.2, p.2) else None)
       (map_to_list m)).

Definition baseline_key (operation : string) : string :=
  if bool_decide (operation = "") then "*" else legacy_key operation.

Fixpoint baselines (actorActionID account : string) (at_ : time) (l : list (string * Z)) : Tx unit :=
  match l with
  | [] => mret tt
  | (operation, spent) :: l' =>
      insertLegacyBaselineTx h actorActionID account (baseline_key operation) spent at_;;
      baselines actorActionID account at_ l'
  end.

(** The terms the imported grant is stored with: a root's are normalised, and
    a child's are stored as they came (the normal form is checked, then
    dropped). *)
Definition imported_grant (grant : AuthorityGrantV2.t) (intent : IntentContractV2.t) (at_ : time)
    : Tx AuthorityGrantV2.t :=
  if bool_decide (grant.(AuthorityGrantV2.ParentGrantID) = "")
  then lift (normalizeRootAuthority h grant intent)
  else
    parents ← authorityChainTx grant.(AuthorityGrantV2.ParentGrantID)
                grant.(AuthorityGrantV2.ParentGrantVersion) at_;
    require (validateStoredAuthorityChain (map grant_of_stored parents) intent);;
    parent ← leaf_of parents;
    remaining ← remainingForGrantTx h (grant_of_stored parent);
    lift (NormalizeAuthorityDelegation (grant_of_stored parent) grant intent remaining
            (defaultAuthorityMatchers h));;
    mret grant.

Definition ImportLegacyAuthority (eventID legacyGrantID : string) (grant : AuthorityGrantV2.t)
    (actorActionID reason : string) (at_ : time) : Tx unit :=
  require (Authority.Validate grant);;
  require (fail_if (bool_decide (legacyGrantID = "") || blank reason) ErrAuthorityMalformed);;
  actor ← validateAuthorityActorTx actorActionID "import"
            (CanonicalLegacyAuthorityImport legacyGrantID grant reason) true at_;
  legacy ← authorityAbsent (legacyGrantTx legacyGrantID);
  require (fail_if (bool_decide (legacy.(AuthorityGrant.Status) <> LifecycleActive)) ErrAuthorityInactive);;
  intent ← activeIntentTx h grant.(AuthorityGrantV2.IntentID) grant.(AuthorityGrantV2.IntentVersion)
             grant.(AuthorityGrantV2.IntentDigest) at_;
  require (validateLegacyImport legacy grant intent);;
  grant ← imported_grant grant intent at_;
  insertGrantTx eventID grant actorActionID actor true reason at_;;
  ensureBudgetAccountTx intent.(IntentContractV2.ProfileID) "intent" intent.(IntentContractV2.IntentID)
    intent.(IntentContractV2.Budget) at_;;
  ensureBudgetAccountTx grant.(AuthorityGrantV2.ProfileID) "grant" grant.(AuthorityGrantV2.GrantID)
    grant.(AuthorityGrantV2.Budget) at_;;
  t ← ask t_legacy;
  let spent := spent_of_scope legacyGrantID t.(budget_spent) in
  baselines actorActionID
    (budgetAccountID grant.(AuthorityGrantV2.ProfileID) "grant" grant.(AuthorityGrantV2.GrantID)) at_ spent;;
  t ← ask t_legacy;
  require (fail_if (bool_decide (is_Some (t.(legacy_imports) !! legacyGrantID))
                    || existsb (fun p => bool_decide (p.2.(im_actor_action) = actorActionID))
                         (map_to_list t.(legacy_imports))) ErrConstraint);;
  change (fun s => with_legacy
    {| legacy_grants := t.(legacy_grants); budget_spent := t.(budget_spent);
       legacy_imports := <[legacyGrantID :=
         {| im_version := grant.(AuthorityGrantV2.Version); im_actor_action := actorActionID;
            im_baseline := default 0 (snd <$> find (fun p => bool_decide (p.1 = "")) spent);
            im_at := rfc3339 at_ |}]> t.(legacy_imports);
       intent_digests := t.(intent_digests) |} s).

(** ** Binding a selector to a grant *)

Definition verifies_activation (verify : Tx unit) (profile : string) : Tx unit :=
  if bool_decide (h.(authorityActivationDigest) = "") then mret tt
  else require (fail_if (bool_decide (profile <> h.(authorityProfileID)))
                  ErrAuthorizationSnapshotCorrupt);;
       verify.

(** The selector's active row. *)
Definition holder (b : ExecutionBinding.t) (l : list binding_row) : option binding_row :=
  find (fun r => bool_decide (r.(eb_actor) = b.(ExecutionBinding.ActorPrincipalID)
                   /\ r.(eb_channel) = b.(ExecutionBinding.Channel)
                   /\ default "" r.(eb_conversation) = b.(ExecutionBinding.ConversationID)
                   /\ r.(eb_status) = BindingActive)) l.

Definition revoke_binding (id : string) (l : list binding_row) : list binding_row :=
  map (fun r => if bool_decide (r.(eb_id) = id /\ r.(eb_status) = BindingActive)
    then {| eb_id := r.(eb_id); eb_actor := r.(eb_actor); eb_channel := r.(eb_channel);
            eb_conversation := r.(eb_conversation); eb_intent := r.(eb_intent);
            eb_intent_version := r.(eb_intent_version); eb_intent_digest := r.(eb_intent_digest);
            eb_grant := r.(eb_grant); eb_grant_version := r.(eb_grant_version);
            eb_grant_digest := r.(eb_grant_digest); eb_revision := r.(eb_revision);
            eb_status := BindingRevoked |}
    else r) l.

Definition with_revision (revision : Z) (b : ExecutionBinding.t) : ExecutionBinding.t :=
  {| ExecutionBinding.BindingID := b.(ExecutionBinding.BindingID);
     ExecutionBinding.ActorPrincipalID := b.(ExecutionBinding.ActorPrincipalID);
     ExecutionBinding.Channel := b.(ExecutionBinding.Channel);
     ExecutionBinding.ConversationID := b.(ExecutionBinding.ConversationID);
     ExecutionBinding.IntentID := b.(ExecutionBinding.IntentID);
     ExecutionBinding.IntentVersion := b.(ExecutionBinding.IntentVersion);
     ExecutionBinding.IntentDigest := b.(ExecutionBinding.IntentDigest);
     ExecutionBinding.GrantID := b.(ExecutionBinding.GrantID);
     ExecutionBinding.GrantVersion := b.(ExecutionBinding.GrantVersion);
     ExecutionBinding.GrantDigest := b.(ExecutionBinding.GrantDigest);
     ExecutionBinding.Revision := revision; ExecutionBinding.Status := b.(ExecutionBinding.Status) |}.

(** An absent version under a head that names it is broken evidence. *)
Definition bound_chain (grantID : string) (version : Z) (at_ : time) : Tx (list storedGrantV2) :=
  fun s => match authorityChainTx grantID version at_ s with
           | Ok r => Ok r
           | Err e => Err (if error_is "sql: no rows in result set" e
                           then ErrorWrap "active version" ErrAuthorityEvidenceCorrupt else e)
           end.

(** [verify] is the check of the strict activation. *)
Definition BindExecutionWithGrant (verify : Tx unit) (b : ExecutionBinding.t) (grantID : string)
    (at_ : time) : Tx string :=
  require (fail_if (bool_decide (b.(ExecutionBinding.Status) <> BindingActive)) ErrBindingNotActive);;
  require (fail_if (bool_decide (grantID = "")) ErrGrantIDRequired);;
  intent ← activeIntentTx h b.(ExecutionBinding.IntentID) b.(ExecutionBinding.IntentVersion)
             b.(ExecutionBinding.IntentDigest) at_;
  t ← ask t_grants;
  hd ← found (ErrorWrap "no grant" ErrAuthorityMissing) (t.(grant_heads) !! grantID);
  chain ← bound_chain grantID hd.(gh_version) at_;
  require (validateStoredAuthorityChain (map grant_of_stored chain) intent);;
  stored ← leaf_of chain;
  let leaf := grant_of_stored stored in
  require (fail_if (bool_decide (leaf.(AuthorityGrantV2.SubjectPrincipalID)
                                 <> b.(ExecutionBinding.ActorPrincipalID)))
             (ErrorWrap "holder" ErrIssuerMismatch));;
  require (fail_if (bool_decide (b.(ExecutionBinding.Channel) = "*"))
             (ErrorWrap "wildcard" ErrAttenuationViolated));;
  require (check_all (fun g => fail_if (negb (containsAuthorityString
                                  (elems (grant_of_stored g).(AuthorityGrantV2.Channels))
                                  b.(ExecutionBinding.Channel)))
                        (ErrorWrap "channel" ErrAttenuationViolated)) chain);;
  verifies_activation verify intent.(IntentContractV2.ProfileID);;
  i ← ask t_intents;
  let prior := holder b i.(bindings) in
  match prior with
  | None => mret tt
  | Some r => change_intents (fun t => put_bindings (revoke_binding r.(eb_id) t.(bindings)) t)
  end;;
  let revision := match prior with None => 1 | Some r => wrap64 (r.(eb_revision) + 1) end in
  insertBindingTx (binding_row_of (with_revision revision b) (Some leaf.(AuthorityGrantV2.GrantID))
    (Some leaf.(AuthorityGrantV2.Version)) (Some (AuthorityGrantV2_Digest leaf)));;
  mret match prior with None => "" | Some r => r.(eb_id) end.

End Doors.

(** ** The story of a grant *)

(** The row is one of the grant's signed events. *)
Definition grant_event_sound (h : Handle) (keys : gmap string SigningKey) (id : string) (v : Z)
    (row : grant_event_row) : Prop :=
  exists occurred, h.(time_Parse) row.(ge_occurred) = Some occurred
    /\ row.(ge_version) = v /\ row.(ge_canonical) = grant_event_text id row occurred
    /\ sealed h keys authorityEventDomain row.(ge_canonical) row.(ge_seal).

(** The events of one grant, newest first, and what a walk over them ends in:
    born active, and perhaps revoked. *)
Inductive grant_story (h : Handle) (keys : gmap string SigningKey) (id : string) (v : Z)
    : list grant_event_row -> grant_walk -> Prop :=
| story_granted row : grant_event_sound h keys id v row -> row.(ge_revision) = 1 ->
    row.(ge_previous) = "" -> row.(ge_from) = "" -> row.(ge_to) = LifecycleActive ->
    grant_story h keys id v [row] (1, row.(ge_seal).(as_Digest), LifecycleActive)
| story_withdrawn row l previous : grant_story h keys id v l (1, previous, LifecycleActive) ->
    grant_event_sound h keys id v row -> row.(ge_revision) = 2 -> row.(ge_previous) = previous ->
    row.(ge_from) = LifecycleActive -> row.(ge_to) = LifecycleRevoked ->
    grant_story h keys id v (row :: l) (2, row.(ge_seal).(as_Digest), LifecycleRevoked).

Lemma sealed_kept h k k' domain canonical seal : keys_kept k k' ->
  sealed h k domain canonical seal -> sealed h k' domain canonical seal.
Proof.
  intros Hk (key & b & H1 & H2 & H3 & H4). destruct (Hk seal.(as_SigningKeyID) b) as (key' & K1 & K2 & K3);
    [by exists key|]. by exists key', b.
Qed.

Lemma grant_event_kept h k k' id v row : keys_kept k k' ->
  grant_event_sound h k id v row -> grant_event_sound h k' id v row.
Proof.
  intros Hk (o & H1 & H2 & H3 & H4). exists o. split_and!; [done..|by eapply sealed_kept].
Qed.

Lemma grant_story_kept h k k' id v l w : keys_kept k k' -> grant_story h k id v l w ->
  grant_story h k' id v l w.
Proof.
  intros Hk H. induction H as [row|row l p Hl IH Hv Hr Hp Hf Ht].
  - apply story_granted; [|done..]. by eapply grant_event_kept.
  - eapply story_withdrawn; [done| |done..]. by eapply grant_event_kept.
Qed.

Lemma grant_story_status h keys id v l revision last status :
  grant_story h keys id v l (revision, last, status) ->
  (revision = 1 /\ status = LifecycleActive) \/ (revision = 2 /\ status = LifecycleRevoked).
Proof. intros H. inversion H; tauto. Qed.

Lemma grant_story_revisions h keys id v l w : grant_story h keys id v l w ->
  StronglySorted (fun x y => y.(ge_revision) < x.(ge_revision)) l
  /\ Forall (fun r => r.(ge_revision) <= w.1.1) l.
Proof.
  induction 1 as [row Hv Hr Hp Hf Ht|row l p Hl [IH1 IH2] Hv Hr Hp Hf Ht]; cbn in *.
  - split; [repeat constructor|]. constructor; [lia|constructor].
  - split; constructor; [done| |lia|]; (eapply Forall_impl; [done|]; cbn; lia).
Qed.

(** The code's walk takes an event that continues the story. *)
Lemma grant_history_row_Ok h s id v revision previous status row :
  grant_event_sound h s.(signing_keys) id v row -> row.(ge_revision) = wrap64 (revision + 1) ->
  row.(ge_previous) = previous -> row.(ge_from) = status ->
  (if bool_decide (row.(ge_revision) = 1) then row.(ge_from) = "" /\ row.(ge_to) = LifecycleActive
   else row.(ge_to) = LifecycleRevoked /\ status = LifecycleActive) ->
  grant_history_row h id v (revision, previous, status) row s
  = Ok ((row.(ge_revision), row.(ge_seal).(as_Digest), row.(ge_to)), s).
Proof.
  intros (o & Ho & Hv & Hc & Hs) Hr Hp Hf Hk. unfold grant_history_row.
  tx_run; [|exact Ho].
  tx_run; [|by rewrite !bool_decide_eq_false_2 by (rewrite ?Hv, ?Hr, ?Hp, ?Hf; tauto)].
  tx_run.
  2:{ destruct (bool_decide (ge_revision row = 1)); destruct Hk as [K1 K2];
        by rewrite !bool_decide_eq_false_2 by (rewrite ?K1, ?K2; tauto). }
  tx_run; [|by rewrite bool_decide_eq_false_2 by tauto].
  by rewrite (bind_at _ _ _ _ _ (seal_checks_sealed _ _ _ _ _ _ Hs)).
Qed.

Lemma grant_history_app h id v w l k s w1 s1 : grant_history h id v w l s = Ok (w1, s1) ->
  grant_history h id v w (l ++ k) s = grant_history h id v w1 k s1.
Proof.
  revert w s. induction l as [|row l IH]; intros w s H; cbn [grant_history app] in *.
  - by apply tx_ret_Ok in H as [= -> ->].
  - apply tx_bind_Ok in H as (w2 & s2 & E & H). rewrite (bind_at _ _ _ _ _ E). by apply IH.
Qed.

Lemma grant_history_story h s id v l w : grant_story h s.(signing_keys) id v l w ->
  grant_history h id v (0, "", "") (reverse l) s = Ok (w, s).
Proof.
  induction 1 as [row Hv Hr Hp Hf Ht|row l p Hl IH Hv Hr Hp Hf Ht].
  - change (reverse [row]) with [row]. cbn [grant_history].
    erewrite bind_at; [|apply grant_history_row_Ok; try done; by rewrite bool_decide_eq_true_2].
    by rewrite Hr, Ht.
  - rewrite reverse_cons, (grant_history_app _ _ _ _ _ _ _ _ _ IH). cbn [grant_history].
    erewrite bind_at; [|apply grant_history_row_Ok; try done; by rewrite Hr].
    by rewrite Hr, Ht.
Qed.

Lemma grant_history_of_story h s id v l w : grant_story h s.(signing_keys) id v l w ->
  grant_history h id v (0, "", "") (merge_sort by_grant_revision l) s = Ok (w, s).
Proof.
  intros H. unfold by_grant_revision.
  rewrite merge_sort_reverse by (by apply (grant_story_revisions _ _ _ _ _ _ H)).
  by apply grant_history_story.
Qed.

(** Terms the wire carries: its text, ranges and instants. *)
Record grant_carried (h : Handle) (g : AuthorityGrantV2.t) : Prop := {
  gc_text : grant_v2_text g;
  gc_range : grant_range g;
  gc_from : reads_time h.(time_Parse) g.(AuthorityGrantV2.ValidFrom);
  gc_until : reads_time h.(time_Parse) g.(AuthorityGrantV2.ExpiresAt)
}.

(** The stored bytes are those of terms that name their own row. *)
Definition grant_row_of (h : Handle) (id : string) (v : Z) (row : grant_row) (g : AuthorityGrantV2.t) : Prop :=
  row.(gv_canonical) = GrantCanonicalBytes g /\ g.(AuthorityGrantV2.GrantID) = id
  /\ g.(AuthorityGrantV2.Version) = v /\ grant_carried h g.

(** A head ends its grant's story, which names the version the head names; a
    grant has one version, whose bytes name it and are under its seal. *)
Record grants_sound (h : Handle) (s : db) : Prop := {
  gs_story : forall id hd, s.(t_grants).(grant_heads) !! id = Some hd ->
    grant_story h s.(signing_keys) id hd.(gh_version)
      (events_of_grant id s.(t_grants).(grant_events))
      (hd.(gh_revision), hd.(gh_last), hd.(gh_status));
  gs_version : forall id v row, s.(t_grants).(grant_versions) !! (id, v) = Some row ->
    (exists hd, s.(t_grants).(grant_heads) !! id = Some hd /\ hd.(gh_version) = v)
    /\ (exists g, grant_row_of h id v row g)
    /\ sealed h s.(signing_keys) authorityGrantDomain row.(gv_canonical) row.(gv_seal);
  gs_orphan : forall id, s.(t_grants).(grant_heads) !! id = None ->
    events_of_grant id s.(t_grants).(grant_events) = [];
}.

Lemma carried_parse h g g' : grant_carried h g ->
  ParseAuthorityGrantV2 h.(time_Parse) (GrantCanonicalBytes g) = Ok g' -> g' = grant_normal g.
Proof.
  intros [Ht Hr Hf Hu]. unfold ParseAuthorityGrantV2. destruct (too_long _); [done|].
  unfold GrantCanonicalBytes. rewrite grant_value_go.
  destruct (strict_round_trip grant_type _ grant_type_ok ltac:(by vm_compute) (grant_typed g Ht Hr))
    as [E1 E2].
  rewrite E1. cbn [mbind option_bind]. rewrite E2, grant_of_go by done.
  case_match; [done|]. by intros [= <-].
Qed.

Lemma carried_budget h g b : grant_carried h g -> budget_text b -> budget_range b ->
  grant_carried h (AuthorityGrantV2.set_budget b g).
Proof. intros [[] [] Hf Hu] Hb Hr. by split. Qed.

Lemma verifyGrantHistoryTx_sound h s id hd : grants_sound h s ->
  s.(t_grants).(grant_heads) !! id = Some hd ->
  verifyGrantHistoryTx h id hd.(gh_version) hd.(gh_revision) hd.(gh_status) hd.(gh_last) s = Ok (tt, s).
Proof.
  intros Hs Hd. pose proof (grant_history_of_story _ s _ _ _ _ (gs_story _ _ Hs _ _ Hd)) as H.
  unfold verifyGrantHistoryTx. tx_run. rewrite (bind_at _ _ _ _ _ H). cbn beta iota.
  by rewrite !bool_decide_eq_false_2 by tauto.
Qed.

(** ** What the reads answer *)

#[export] Instance grant_history_row_reads h id v w row : Reads (grant_history_row h id v w row).
Proof. unfold grant_history_row. solve_reads. Qed.
#[export] Instance grant_history_reads h id v w l : Reads (grant_history h id v w l).
Proof. revert w. induction l as [|row l IH]; intros w; cbn [grant_history]; solve_reads. Qed.
#[export] Instance verifyGrantHistoryTx_reads h id v r st d : Reads (verifyGrantHistoryTx h id v r st d).
Proof. unfold verifyGrantHistoryTx. solve_reads. Qed.
#[export] Instance readGrantTx_reads h id v : Reads (readGrantTx h id v).
Proof. unfold readGrantTx. solve_reads. Qed.
#[export] Instance readGrantHeadTx_reads h id : Reads (readGrantHeadTx h id).
Proof. unfold readGrantHeadTx. solve_reads. Qed.
#[export] Instance read_link_reads h first id v : Reads (read_link h first id v).
Proof.
  intros s a s' H. unfold read_link in H. destruct (readGrantTx _ _ _ _) as [[g s1]|] eqn:E; [|done].
  injection H as <- <-. by apply reads in E.
Qed.
#[export] Instance chain_walk_reads h room id v at_ seen above :
  Reads (chain_walk h room id v at_ seen above).
Proof.
  revert id v seen above. induction room as [|room IH]; intros id v seen above; cbn [chain_walk]; solve_reads.
Qed.
#[export] Instance authorityChainTx_reads h id v at_ : Reads (authorityChainTx h id v at_).
Proof. unfold authorityChainTx. solve_reads. Qed.

(** A grant's row with its terms: parsed from the stored bytes, valid, and
    under the registered key's signature. *)
Record grant_stored (h : Handle) (s : db) (id : string) (v : Z) (g : storedGrantV2) : Prop := {
  st_row : exists row hd, joined_grant s.(t_grants) id v = Some (row, hd)
    /\ ParseAuthorityGrantV2 h.(time_Parse) row.(gv_canonical) = Ok (grant_of_stored g)
    /\ g.(sgr_signed).(sg_Seal) = row.(gv_seal) /\ g.(sgr_status) = hd.(gh_status)
    /\ g.(sgr_revision) = hd.(gh_revision) /\ g.(sgr_last) = hd.(gh_last);
  st_signed : exists pub, registered s.(signing_keys) g.(sgr_signed).(sg_Seal).(as_SigningKeyID) pub
    /\ VerifyAuthorityGrantV2 h.(Ed25519_Verify) pub g.(sgr_signed) = None
}.

Lemma joined_Some t id v row hd : joined_grant t id v = Some (row, hd) <->
  t.(grant_versions) !! (id, v) = Some row /\ t.(grant_heads) !! id = Some hd /\ hd.(gh_version) = v.
Proof.
  unfold joined_grant. destruct (_ !! (id, v)) as [r|]; [|naive_solver]. cbn.
  destruct (_ !! id) as [d|]; [|naive_solver]. cbn. case_bool_decide; naive_solver.
Qed.

(** In a sound store the read answers exactly the stored grants. *)
Lemma readGrantTx_Ok h s id v g : grants_sound h s ->
  readGrantTx h id v s = Ok (g, s) <-> grant_stored h s id v g.
Proof.
  intros Hs. split.
  - intros H. unfold readGrantTx in H. tx_next H E. tx_next H E1. destruct x as [row hd].
    apply tx_bind_Ok in H as (grant & s1 & E2 & H).
    destruct (ParseAuthorityGrantV2 _ _) as [g0|] eqn:Hg; [|by apply raise_Ok in E2].
    apply tx_ret_Ok in E2 as [= -> ->].
    apply tx_bind_Ok in H as ([pub retired] & s1 & E3 & H). apply publicKeyTx_Ok in E3 as [-> Hr].
    tx_next H E4. apply tx_bind_Ok in H as ([] & s1 & E5 & H). pose proof (reads _ _ _ E5) as ->.
    apply tx_ret_Ok in H as [= ->]. split; [by exists row, hd|by exists pub].
  - intros [(row & hd & Hj & Hg & Hseal & Hst & Hrev & Hl) (pub & Hr & Hv)].
    pose proof (proj1 (joined_Some _ _ _ _ _) Hj) as (_ & Hd & Hver).
    destruct (publicKeyTx_registered _ _ _ Hr) as (retired & Hpub). rewrite Hseal in Hpub.
    assert (Eg : {| sg_Grant := grant_of_stored g; sg_Seal := row.(gv_seal) |} = g.(sgr_signed)).
    { rewrite <- Hseal. by destruct g as [[] ? ? ?]. }
    unfold readGrantTx. tx_run. tx_run; [|exact Hj]. cbn beta iota. rewrite Hg.
    rewrite (bind_at _ _ _ _ _ (eq_refl : (mret _ : Tx _) s = Ok (_, s))).
    rewrite (bind_at _ _ _ _ _ Hpub). cbn beta iota. tx_run; [|by rewrite Eg].
    rewrite <- Hver, (bind_at _ _ _ _ _ (verifyGrantHistoryTx_sound _ _ _ _ Hs Hd)), Eg, <- Hst, <- Hrev, <- Hl.
    by destruct g.
Qed.

(** ** Lineages *)

(** A grant that can be used at an instant. *)
Record grant_live (h : Handle) (s : db) (id : string) (v : Z) (at_ : time) (g : storedGrantV2) : Prop := {
  lv_stored : grant_stored h s id v g;
  lv_active : g.(sgr_status) = LifecycleActive;
  lv_window : (grant_of_stored g).(AuthorityGrantV2.ValidFrom) <= at_
                < (grant_of_stored g).(AuthorityGrantV2.ExpiresAt)
}.

(** A grant and its parents up to a root, every one live. *)
Inductive lineage (h : Handle) (s : db) (at_ : time)
    : string -> Z -> list (string * storedGrantV2) -> Prop :=
| lineage_root v : lineage h s at_ "" v []
| lineage_link id v g l : id <> "" -> grant_live h s id v at_ g ->
    lineage h s at_ (grant_of_stored g).(AuthorityGrantV2.ParentGrantID)
      (grant_of_stored g).(AuthorityGrantV2.ParentGrantVersion) l ->
    lineage h s at_ id v ((id, g) :: l).

Lemma read_link_Ok h first id v s g s' :
  read_link h first id v s = Ok (g, s') <-> readGrantTx h id v s = Ok (g, s').
Proof. unfold read_link. destruct (readGrantTx _ _ _ _) as [[? ?]|]; naive_solver. Qed.

Lemma chain_walk_Ok h s room id v at_ seen above chain : grants_sound h s ->
  chain_walk h room id v at_ seen above s = Ok (chain, s) <->
  exists l, lineage h s at_ id v l /\ (List.length l <= room)%nat /\ NoDup l.*1
    /\ (forall x, x ∈ l.*1 -> x ∉ seen) /\ chain = reverse l.*2 ++ above.
Proof.
  intros Hs. revert id v seen above. induction room as [|room IH]; intros id v seen above; cbn [chain_walk].
  - case_bool_decide as Eid.
    + rewrite tx_ret_Ok. split.
      * intros [= ->]. exists []. subst id. split_and!; [constructor|done|constructor| |done].
        intros x Hx. by apply not_elem_of_nil in Hx.
      * intros (l & Hl & Hlen & _ & _ & ->). destruct l; [done|cbn in Hlen; lia].
    + split; [by intros ?%raise_Ok|]. intros (l & Hl & Hlen & _). destruct l; [inversion Hl; congruence|].
      cbn in Hlen. lia.
  - case_bool_decide as Eid.
    + rewrite tx_ret_Ok. split.
      * intros [= ->]. exists []. subst id. split_and!; [constructor|cbn; lia|constructor| |done].
        intros x Hx. by apply not_elem_of_nil in Hx.
      * intros (l & Hl & _ & _ & _ & ->). by inversion Hl; subst.
    + split.
      * intros H. tx_next H E. apply tx_bind_Ok in H as (g & s1 & E1 & H). pose proof (reads _ _ _ E1) as ->.
        apply read_link_Ok, readGrantTx_Ok in E1; [|done]. tx_next H E2. tx_next H E3. tx_next H E4.
        apply IH in H as (l & Hl & Hlen & Hnd & Hseen & ->). unfold time_before in E4. passed.
        exists ((id, g) :: l). rewrite !fmap_cons. cbn [fst snd List.length]. split_and!.
        -- by constructor.
        -- lia.
        -- constructor; [|done]. intros Hin. apply (Hseen _ Hin). by apply list_elem_of_here.
        -- intros x [->|Hx]%elem_of_cons.
           ++ intros Hin%contains_true. congruence.
           ++ intros Hin. apply (Hseen _ Hx). by apply list_elem_of_further.
        -- by rewrite reverse_cons, <- app_assoc.
      * intros (l & Hl & Hlen & Hnd & Hseen & ->). inversion Hl as [|? ? g l' Hid Hlive Hrest]; subst; [done|].
        cbn in Hlen, Hnd, Hseen. apply NoDup_cons in Hnd as [Hnin Hnd].
        tx_run. 2:{ apply not_true_iff_false. rewrite contains_true. apply Hseen, list_elem_of_here. }
        erewrite bind_at; [|by apply read_link_Ok, readGrantTx_Ok, Hlive].
        destruct Hlive as [_ Hact Hwin].
        tx_run; [|by rewrite Hact]. tx_run; [|by rewrite Hact].
        tx_run. 2:{ unfold time_before. rewrite orb_false_iff, negb_false_iff, Z.ltb_ge, Z.ltb_lt. lia. }
        apply IH. exists l'. rewrite fmap_cons. cbn [snd].
        split_and!; [done|lia|done| |by rewrite reverse_cons, <- app_assoc].
        intros x Hx [->|Hin]%elem_of_cons; [done|]. apply (Hseen x); [by apply list_elem_of_further|done].
Qed.

(** The walk answers exactly the lineages of at most sixteen grants, no grant
    twice, the root first. *)
Lemma authorityChainTx_Ok h s id v at_ chain : grants_sound h s ->
  authorityChainTx h id v at_ s = Ok (chain, s) <->
  exists l, lineage h s at_ id v l /\ (1 <= List.length l <= maxChain)%nat /\ NoDup l.*1
    /\ chain = reverse l.*2.
Proof.
  intros Hs. unfold authorityChainTx. rewrite tx_bind_Ok. split.
  - intros ([] & s1 & E & H). apply require_fail_Ok in E as [E [= ->]].
    apply (chain_walk_Ok _ _ _ _ _ _ _ _ _ Hs) in H as (l & Hl & Hlen & Hnd & _ & ->).
    exists l. rewrite app_nil_r. split_and!; try done. passed. destruct l; [inversion Hl; congruence|cbn; lia].
  - intros (l & Hl & Hlen & Hnd & ->). exists tt, s. split.
    + apply require_fail_Ok. split; [|done]. apply bool_decide_eq_false_2.
      inversion Hl; subst; [cbn in Hlen; lia|done].
    + apply (chain_walk_Ok _ _ _ _ _ _ _ _ _ Hs). exists l. rewrite app_nil_r.
      split_and!; [done|lia|done| |done]. intros x _ Hin. by apply not_elem_of_nil in Hin.
Qed.

(** ** What the doors write *)

(** A transaction that only moves the budget tables. *)
Definition budget_only (s s' : db) : Prop := exists b, s' = with_budget b s.

#[export] Instance budget_only_preorder : PreOrder budget_only.
Proof.
  split.
  - intros s. exists s.(t_budget). by destruct s.
  - intros s1 s2 s3 [b ->] [c ->]. by exists c.
Qed.

Class Moves {A} (R : db -> db -> Prop) (m : Tx A) := moves_by : forall s a s', m s = Ok (a, s') -> R s s'.

#[export] Instance moves_reads {A} R (m : Tx A) `{!PreOrder R} : Reads m -> Moves R m | 10.
Proof. intros Hm s a s' ->%Hm. done. Qed.
#[export] Instance moves_bind {A B} R (m : Tx A) (k : A -> Tx B) `{!PreOrder R} :
  Moves R m -> (forall a, Moves R (k a)) -> Moves R (m ≫= k).
Proof. intros Hm Hk s b s' (a & s1 & E1 & E2)%tx_bind_Ok. apply Hm in E1. apply Hk in E2. by etrans. Qed.
#[export] Instance moves_if {A} R (b : bool) (m n : Tx A) : Moves R m -> Moves R n -> Moves R (if b then m else n).
Proof. by destruct b. Qed.
Lemma moves_change (R : db -> db -> Prop) f : (forall s, R s (f s)) -> Moves R (change f).
Proof. intros Hf s a s' [= -> ->]%change_Ok. apply Hf. Qed.

Ltac solve_moves :=
  repeat first
    [ apply moves_change; intros ?; by eexists
    | apply _
    | match goal with |- forall _, _ => intros ? end
    | apply moves_bind
    | case_match ].

#[export] Instance ensureBudgetAccountTx_moves profile kind scope b at_ :
  Moves budget_only (ensureBudgetAccountTx profile kind scope b at_).
Proof. unfold ensureBudgetAccountTx. solve_moves. Qed.
#[export] Instance insertLegacyBaselineTx_moves h act a o sp at_ :
  Moves budget_only (insertLegacyBaselineTx h act a o sp at_).
Proof.
  unfold insertLegacyBaselineTx, debitRowTx, insert_debit, upsertBudgetCounterTx. solve_moves.
Qed.
#[export] Instance baselines_moves h act a at_ l : Moves budget_only (baselines h act a at_ l).
Proof. induction l as [|[o sp] l IH]; cbn [baselines]; solve_moves. Qed.

Definition grant_event_of (eventID grantID : string) (version revision : Z) (from to : LifecycleStatus)
    (actorActionID actor : string) (administrative : bool) (reason : string) (at_ : time)
    (previous : string) (seal : AuthoritySignature) : grant_event_row :=
  {| ge_id := eventID; ge_grant := grantID; ge_version := version; ge_revision := revision;
     ge_from := from; ge_to := to; ge_actor_action := actorActionID; ge_actor := actor;
     ge_admin := administrative; ge_reason := reason; ge_occurred := rfc3339 at_;
     ge_previous := previous;
     ge_canonical := canonicalGrantEvent grantID version revision from to actorActionID actor
                       administrative reason at_ previous; ge_seal := seal |}.

Lemma grantEventTx_Ok h ev id v rev from to act actor adm reason at_ prev s digest s' :
  h.(time_Parse) (rfc3339 at_) = Some at_ ->
  grantEventTx h ev id v rev from to act actor adm reason at_ prev s = Ok (digest, s') ->
  exists seal, let row := grant_event_of ev id v rev from to act actor adm reason at_ prev seal in
    s' = with_grants (set_grant_events (row :: s.(t_grants).(grant_events)) s.(t_grants)) s
    /\ digest = seal.(as_Digest) /\ grant_event_sound h s.(signing_keys) id v row.
Proof.
  intros Ht H. unfold grantEventTx in H.
  apply tx_bind_Ok in H as (seal & s1 & E & H). pose proof (reads _ _ _ E) as ->.
  apply signAuthorityTx_sealed in E.
  apply tx_bind_Ok in H as ([] & s1 & E1 & H). apply tx_ret_Ok in H as [= -> ->].
  unfold insertGrantEventTx in E1. tx_next E1 E2. tx_next E1 E3. apply change_Ok in E1 as [= ->].
  exists seal. split_and!; [done..|]. by exists at_.
Qed.

(** What a door leaves of one grant: one more event of its story, its head at
    the end of it, every other grant untouched. *)
Record grant_advanced (h : Handle) (id : string) (row : grant_event_row) (hd : grant_head_row)
    (s s' : db) : Prop := {
  ga_keys : s'.(signing_keys) = s.(signing_keys);
  ga_events : s'.(t_grants).(grant_events) = row :: s.(t_grants).(grant_events);
  ga_grant : row.(ge_grant) = id;
  ga_head : s'.(t_grants).(grant_heads) !! id = Some hd;
  ga_others : forall id', id' <> id ->
    s'.(t_grants).(grant_heads) !! id' = s.(t_grants).(grant_heads) !! id'
    /\ forall v, s'.(t_grants).(grant_versions) !! (id', v) = s.(t_grants).(grant_versions) !! (id', v);
  ga_story : grant_story h s.(signing_keys) id hd.(gh_version)
    (row :: events_of_grant id s.(t_grants).(grant_events)) (hd.(gh_revision), hd.(gh_last), hd.(gh_status));
  ga_versions : forall v r, s'.(t_grants).(grant_versions) !! (id, v) = Some r ->
    v = hd.(gh_version) /\ (exists g, grant_row_of h id v r g)
    /\ sealed h s.(signing_keys) authorityGrantDomain r.(gv_canonical) r.(gv_seal);
}.

Lemma grant_advanced_sound h id row hd s s' : grants_sound h s -> grant_advanced h id row hd s s' ->
  grants_sound h s'.
Proof.
  intros [Hst Hv Ho] [Hk He Hid Hh Hoth Hstory Hver].
  assert (forall id', events_of_grant id' s'.(t_grants).(grant_events)
    = if decide (id' = id) then row :: events_of_grant id s.(t_grants).(grant_events)
      else events_of_grant id' s.(t_grants).(grant_events)) as Hev.
  { intros id'. rewrite He. unfold events_of_grant. destruct (decide (id' = id)) as [->|N].
    - by rewrite filter_cons_True by (cbn; done).
    - by rewrite filter_cons_False by (cbn; congruence). }
  split.
  - intros id' hd' Hd. rewrite Hk, Hev. destruct (decide (id' = id)) as [->|N].
    + rewrite Hh in Hd. by injection Hd as <-.
    + destruct (Hoth _ N) as [E _]. rewrite E in Hd. by apply Hst.
  - intros id' v r Hrow. rewrite Hk. destruct (decide (id' = id)) as [->|N].
    + destruct (Hver _ _ Hrow) as (-> & Hg & Hs). split_and!; [by exists hd|done..].
    + destruct (Hoth _ N) as [E Ev]. rewrite Ev in Hrow. rewrite E. by apply Hv.
  - intros id' Hd. rewrite Hev. destruct (decide (id' = id)) as [->|N]; [congruence|].
    destruct (Hoth _ N) as [E _]. rewrite E in Hd. by apply Ho.
Qed.

(** Terms are never rewritten; a revoked grant stays revoked. *)
Record grants_follow (s s' : db) : Prop := {
  gf_keys : keys_kept s.(signing_keys) s'.(signing_keys);
  gf_versions : s.(t_grants).(grant_versions) ⊆ s'.(t_grants).(grant_versions);
  gf_events : s.(t_grants).(grant_events) `suffix_of` s'.(t_grants).(grant_events);
  gf_heads : forall id hd, s.(t_grants).(grant_heads) !! id = Some hd ->
    exists hd', s'.(t_grants).(grant_heads) !! id = Some hd' /\ hd'.(gh_version) = hd.(gh_version)
      /\ (hd.(gh_status) = LifecycleRevoked -> hd' = hd)
}.

#[export] Instance grants_follow_preorder : PreOrder grants_follow.
Proof.
  split.
  - intros s. split; [done..|]. intros id hd Hd. by exists hd.
  - intros a b c [K1 V1 E1 H1] [K2 V2 E2 H2]. split; [by etrans..|].
    intros id hd Hd. destruct (H1 _ _ Hd) as (hd1 & Hd1 & G1 & R1).
    destruct (H2 _ _ Hd1) as (hd2 & Hd2 & G2 & R2). exists hd2. split_and!; [done|congruence|].
    intros Hr. specialize (R1 Hr) as ->. by apply R2.
Qed.

(** A step that leaves the grant tables alone and keeps the keys. *)
Lemma grants_untouched h s s' : grants_sound h s -> keys_kept s.(signing_keys) s'.(signing_keys) ->
  s'.(t_grants) = s.(t_grants) -> grants_sound h s' /\ grants_follow s s'.
Proof.
  intros [Hst Hv Ho] Hk E. split; split; rewrite ?E; try done.
  - intros id hd Hd. eapply grant_story_kept; [done|by apply Hst].
  - intros id v row Hrow. destruct (Hv _ _ _ Hrow) as (H1 & H2 & H3).
    split_and!; [done..|by eapply sealed_kept].
  - intros id hd Hd. by exists hd.
Qed.

Lemma then_untouched h s s1 s2 : grants_sound h s1 /\ grants_follow s s1 ->
  keys_kept s1.(signing_keys) s2.(signing_keys) -> s2.(t_grants) = s1.(t_grants) ->
  grants_sound h s2 /\ grants_follow s s2.
Proof.
  intros [Hs1 F1] Hk E. destruct (grants_untouched h _ _ Hs1 Hk E) as [Hs2 F2]. split; [done|by etrans].
Qed.

Ltac grant_tables := cbn [signing_keys t_grants t_budget with_grants set_grant_versions set_grant_events
  set_grant_heads grant_versions grant_events grant_heads grant_event_of ge_grant ge_revision ge_seal
  ge_to ge_from ge_previous ge_version gh_version gh_revision gh_last gh_status] in *.

(** The grant is stored for the first time: its sealed terms, its first event
    and an active head. *)
Record grant_born (h : Handle) (ev act actor : string) (adm : bool) (g : AuthorityGrantV2.t)
    (s s' : db) : Prop := {
  gb_fresh : s.(t_grants).(grant_heads) !! g.(AuthorityGrantV2.GrantID) = None;
  gb_row : exists row, s'.(t_grants).(grant_versions)
      !! (g.(AuthorityGrantV2.GrantID), g.(AuthorityGrantV2.Version)) = Some row
    /\ row.(gv_canonical) = GrantCanonicalBytes g;
  gb_head : exists hd, s'.(t_grants).(grant_heads) !! g.(AuthorityGrantV2.GrantID) = Some hd
    /\ hd.(gh_version) = g.(AuthorityGrantV2.Version) /\ hd.(gh_status) = LifecycleActive;
  gb_event : exists e, s'.(t_grants).(grant_events) = e :: s.(t_grants).(grant_events)
    /\ e.(ge_id) = ev /\ e.(ge_actor_action) = act /\ e.(ge_actor) = actor /\ e.(ge_admin) = adm
}.

Lemma insertGrantTx_Ok h ev g act actor adm reason at_ s s' : grants_sound h s -> grant_carried h g ->
  h.(time_Parse) (rfc3339 at_) = Some at_ ->
  insertGrantTx h ev g act actor adm reason at_ s = Ok (tt, s') ->
  grants_sound h s' /\ grants_follow s s' /\ grant_born h ev act actor adm g s s'
  /\ exists t, s' = with_grants t s.
Proof.
  intros Hs Hc Ht H. unfold insertGrantTx in H.
  apply tx_bind_Ok in H as (seal & s1 & E & H). pose proof (reads _ _ _ E) as ->.
  apply signAuthorityTx_sealed in E.
  tx_door H E1. unfold insertGrantVersionTx in E1. tx_next E1 E2. tx_next E1 E3.
  apply change_Ok in E1 as [= ->].
  apply tx_bind_Ok in H as (digest & s1 & E1 & H). apply grantEventTx_Ok in E1; [|done].
  destruct E1 as (eseal & -> & -> & Hev). tx_next H E4. tx_next H E5. apply change_Ok in H as [= ->].
  passed. grant_tables.
  set (id := g.(AuthorityGrantV2.GrantID)) in *. set (v := g.(AuthorityGrantV2.Version)) in *.
  assert (s.(t_grants).(grant_heads) !! id = None) as Hnone by by apply eq_None_not_Some.
  assert (Hnov : forall v, s.(t_grants).(grant_versions) !! (id, v) = None).
  { intros v0. destruct (_ !! (id, v0)) as [row|] eqn:Ev; [|done].
    apply (gs_version _ _ Hs) in Ev as ((hd & Hd & _) & _). congruence. }
  split_and!.
  - eapply (grant_advanced_sound h id); [exact Hs|].
    eapply Build_grant_advanced with (hd := {| gh_version := v; gh_revision := 1;
      gh_last := eseal.(as_Digest); gh_status := LifecycleActive |}); grant_tables;
      [done|done|done|by rewrite lookup_insert_eq| | |].
    + intros id' N. split; [by rewrite lookup_insert_ne|]. intros v'. by rewrite lookup_insert_ne by congruence.
    + rewrite (gs_orphan _ _ Hs _ Hnone). by apply story_granted.
    + intros v' row Hrow. apply lookup_insert_Some in Hrow as [[[= <-] <-]|[_ Hrow]];
        [|by rewrite Hnov in Hrow]. split_and!; [done|by exists g|done].
  - split; grant_tables; [done|by apply insert_subseteq|by eexists [_]|].
    intros id' hd' Hd. exists hd'. rewrite lookup_insert_ne by congruence. done.
  - split; grant_tables; [done|rewrite lookup_insert_eq; by eexists..|by eexists].
  - by eexists.
Qed.

(** What is read names the row it was read from. *)
Lemma stored_terms h s id v g : grants_sound h s -> grant_stored h s id v g ->
  exists g0, grant_of_stored g = grant_normal g0 /\ grant_carried h g0
    /\ g0.(AuthorityGrantV2.GrantID) = id /\ g0.(AuthorityGrantV2.Version) = v.
Proof.
  intros Hs [(row & hd & Hj & Hg & _) _]. apply joined_Some in Hj as (Hv & _).
  destruct (gs_version _ _ Hs _ _ _ Hv) as (_ & (g0 & Hc & Hid & Hver & Hcar) & _).
  exists g0. rewrite Hc in Hg. split_and!; [by apply (carried_parse h)|done..].
Qed.

Lemma stored_names h s id v g : grants_sound h s -> grant_stored h s id v g ->
  (grant_of_stored g).(AuthorityGrantV2.GrantID) = id
  /\ (grant_of_stored g).(AuthorityGrantV2.Version) = v.
Proof. intros Hs Hg. by destruct (stored_terms _ _ _ _ _ Hs Hg) as (g0 & -> & _ & <- & <-). Qed.

Lemma stored_head h s id v g : grant_stored h s id v g ->
  exists hd, s.(t_grants).(grant_heads) !! id = Some hd /\ hd.(gh_version) = v
    /\ g.(sgr_status) = hd.(gh_status) /\ g.(sgr_revision) = hd.(gh_revision)
    /\ g.(sgr_last) = hd.(gh_last).
Proof. intros [(row & hd & (_ & Hd & Hv)%joined_Some & _ & _ & H) _]. by exists hd. Qed.

Lemma readGrantHeadTx_Ok h s id g s' : grants_sound h s -> readGrantHeadTx h id s = Ok (g, s') ->
  s' = s /\ exists v, grant_stored h s id v g.
Proof.
  intros Hs H. pose proof (reads _ _ _ H) as ->. split; [done|]. unfold readGrantHeadTx in H.
  tx_next H E. tx_next H E1. eexists. by apply readGrantTx_Ok in H.
Qed.

Lemma authorityAbsent_Ok {A} (m : Tx A) s r : authorityAbsent m s = Ok r <-> m s = Ok r.
Proof. unfold authorityAbsent. destruct (m s); naive_solver. Qed.

#[export] Instance authorityAbsent_reads {A} (m : Tx A) : Reads m -> Reads (authorityAbsent m).
Proof. intros Hm s a s' H. by apply (proj1 (authorityAbsent_Ok _ _ _)), Hm in H. Qed.
#[export] Instance validateAuthorityActorTx_reads h act op p adm at_ :
  Reads (validateAuthorityActorTx h act op p adm at_).
Proof. unfold validateAuthorityActorTx, validateActionIdentityV2Tx. solve_reads. Qed.
#[export] Instance leaf_of_reads chain : Reads (leaf_of chain).
Proof. unfold leaf_of. solve_reads. Qed.
#[export] Instance legacyGrantTx_reads h id : Reads (legacyGrantTx h id).
Proof. unfold legacyGrantTx, parseNullTime. solve_reads. Qed.

Lemma revokeAuthority_Ok h ev id act reason adm at_ s s' : grants_sound h s ->
  h.(time_Parse) (rfc3339 at_) = Some at_ ->
  revokeAuthority h ev id act reason adm at_ s = Ok (tt, s') ->
  grants_sound h s' /\ grants_follow s s'
  /\ exists hd, s'.(t_grants).(grant_heads) !! id = Some hd /\ hd.(gh_status) = LifecycleRevoked.
Proof.
  intros Hs Ht H. unfold revokeAuthority in H.
  apply tx_bind_Ok in H as (g & s1 & E & H). apply authorityAbsent_Ok, readGrantHeadTx_Ok in E; [|done].
  destruct E as [-> (v & Hg)]. pose proof (stored_names _ _ _ _ _ Hs Hg) as [_ Hv].
  apply stored_head in Hg as (hd & Hd & Hhv & Hst & Hrev & Hl).
  apply tx_bind_Ok in H as (actor & s1 & E & H). pose proof (reads _ _ _ E) as ->.
  tx_next H E1. tx_next H E2.
  apply tx_bind_Ok in H as (digest & s1 & E3 & H). apply grantEventTx_Ok in E3; [|done].
  destruct E3 as (seal & -> & -> & Hev). apply change_Ok in H as [= ->]. passed. grant_tables.
  pose proof (gs_story _ _ Hs _ _ Hd) as Hstory.
  destruct (grant_story_status _ _ _ _ _ _ _ _ Hstory) as [[R S]|[R S]]; [|congruence].
  rewrite R, S in Hstory. rewrite Hrev, R, Hst, S, Hl, Hv, <- Hhv in Hev |- *.
  change (wrap64 (1 + 1)) with 2 in *.
  set (hd' := {| gh_version := hd.(gh_version); gh_revision := 2; gh_last := seal.(as_Digest);
                 gh_status := LifecycleRevoked |}).
  split_and!.
  - eapply (grant_advanced_sound h id); [exact Hs|].
    eapply Build_grant_advanced with (hd := hd'); grant_tables;
      [done|done|done|by rewrite lookup_alter_eq, Hd| | |].
    + intros id' N. by rewrite lookup_alter_ne by done.
    + exact (story_withdrawn h _ id _ _ _ _ Hstory Hev eq_refl eq_refl eq_refl eq_refl).
    + intros v' r Hr. destruct (gs_version _ _ Hs _ _ _ Hr) as ((hd1 & Hd1 & V) & Hg & Hseal).
      rewrite Hd in Hd1. by injection Hd1 as <-.
  - split; grant_tables; [done..|by eexists [_]|].
    intros id' hd1 Hd1. destruct (decide (id' = id)) as [->|N].
    + rewrite Hd in Hd1. injection Hd1 as <-. exists hd'. rewrite lookup_alter_eq, Hd.
      split_and!; [done..|congruence].
    + exists hd1. by rewrite lookup_alter_ne by done.
  - exists hd'. by rewrite lookup_alter_eq, Hd.
Qed.

(** ** A root within its intent *)

Lemma existsb_eq {A} `{EqDecision A} (l : list A) x : existsb (fun p => bool_decide (x = p)) l = true <-> x ∈ l.
Proof.
  rewrite existsb_exists. setoid_rewrite bool_decide_eq_true. setoid_rewrite <- list_elem_of_In. naive_solver.
Qed.

Lemma forallb_elem {A} (f : A -> bool) l : forallb f l = true <-> forall x, x ∈ l -> f x = true.
Proof. rewrite forallb_forall. by setoid_rewrite <- list_elem_of_In. Qed.

Lemma containsAuthorityString_true l x : containsAuthorityString l x = true <-> x ∈ l \/ "*" ∈ l.
Proof.
  unfold containsAuthorityString. rewrite existsb_exists. setoid_rewrite orb_true_iff.
  setoid_rewrite bool_decide_eq_true. setoid_rewrite <- list_elem_of_In. naive_solver.
Qed.

Lemma sqlite_subsets :
  (forall c p, operationSubsetSQLite c p = true <-> forall x, x ∈ c -> x ∈ p)
  /\ (forall c p, effectSubsetSQLite c p = true <-> forall x, x ∈ c -> x ∈ p)
  /\ (forall c p, stringSubsetSQLite c p = true <-> forall x, x ∈ c -> x ∈ p \/ "*" ∈ p)
  /\ (forall c p, resourceSupersetSQLite c p = true <-> forall x, x ∈ p -> x ∈ c)
  /\ (forall c p m, resourcesIncludedSQLite c p m = true <->
        forall x, x ∈ c -> exists y, y ∈ p /\ resource_in m y x = true).
Proof.
  unfold operationSubsetSQLite, effectSubsetSQLite, stringSubsetSQLite, resourceSupersetSQLite,
    resourcesIncludedSQLite.
  split_and!; intros; rewrite forallb_elem.
  - by setoid_rewrite existsb_eq.
  - by setoid_rewrite existsb_eq.
  - by setoid_rewrite containsAuthorityString_true.
  - setoid_rewrite existsb_exists. setoid_rewrite bool_decide_eq_true.
    setoid_rewrite <- list_elem_of_In. naive_solver.
  - setoid_rewrite existsb_exists. unfold resource_in. setoid_rewrite <- list_elem_of_In.
    split; intros H x Hx; destruct (H x Hx) as (y & Hy & E); exists y; (split; [done|]).
    all: rewrite <- E; f_equal; by apply bool_decide_ext.
Qed.

Section RootOk.
Import AuthorityGrantV2.

(** What a root grant must be under its intent. *)
Record root_ok (h : Handle) (g : AuthorityGrantV2.t) (intent : IntentContractV2.t) : Prop := {
  ro_root : g.(ParentGrantID) = "" /\ g.(ParentGrantVersion) = 0;
  ro_intent : g.(ProfileID) = intent.(IntentContractV2.ProfileID)
    /\ g.(IntentID) = intent.(IntentContractV2.IntentID)
    /\ g.(IntentVersion) = intent.(IntentContractV2.Version)
    /\ g.(IntentDigest) = IntentContractV2_Digest intent;
  ro_operations : forall o, o ∈ elems g.(Operations) -> o ∈ elems intent.(IntentContractV2.Operations);
  ro_effects : forall e, e ∈ elems g.(EffectClasses) -> e ∈ elems intent.(IntentContractV2.EffectClasses);
  ro_allowed : forall r, r ∈ elems g.(AllowedResources) ->
    exists p, p ∈ elems intent.(IntentContractV2.AllowedResources)
      /\ resource_in (defaultAuthorityMatchers h) p r = true;
  ro_denied : forall r, r ∈ elems intent.(IntentContractV2.DeniedResources) -> r ∈ elems g.(DeniedResources);
  ro_data : forall d, d ∈ elems g.(AllowedData) ->
    d ∈ elems intent.(IntentContractV2.DataScope) \/ "*" ∈ elems intent.(IntentContractV2.DataScope);
  ro_destinations : forall d, d ∈ elems g.(OutputDestinations) ->
    d ∈ elems intent.(IntentContractV2.OutputDestinations)
    \/ "*" ∈ elems intent.(IntentContractV2.OutputDestinations);
  ro_window : intent.(IntentContractV2.ValidFrom) <= g.(ValidFrom)
    /\ g.(ExpiresAt) <= intent.(IntentContractV2.ExpiresAt)
    /\ g.(DelegationDepthRemaining) <= intent.(IntentContractV2.MaxDelegationDepth);
  ro_total : forall m, intent.(IntentContractV2.Budget).(IntentBudgetV2.Total) = Some m ->
    exists n, g.(Budget).(IntentBudgetV2.Total) = Some n /\ n <= m;
  ro_per : forall op m, IntentBudgetV2.per intent.(IntentContractV2.Budget) !! op = Some m ->
    op ∈ map operationKey (elems g.(Operations)) ->
    exists n, IntentBudgetV2.per g.(Budget) !! op = Some n /\ n <= m;
  ro_approval : intent.(IntentContractV2.Approval).(ApprovalRequirementV2.Required) = true ->
    g.(Approval).(ApprovalRequirementV2.Required) = true
}.

Lemma root_operation_check_None g p : root_operation_check g p = None <->
  (p.1 ∈ map operationKey (elems g.(Operations)) ->
   exists n, IntentBudgetV2.per g.(Budget) !! p.1 = Some n /\ n <= p.2).
Proof.
  unfold root_operation_check. case_bool_decide as Ein; cbn [negb]; [|tauto].
  destruct (_ !! _) as [n|]; [rewrite fail_if_None, Z.ltb_ge|]; naive_solver.
Qed.

Lemma root_checks_None h g intent : root_checks h g intent = None <-> root_ok h g intent.
Proof.
  destruct sqlite_subsets as (S1 & S2 & S3 & S4 & S5).
  unfold root_checks, time_before, time_after.
  rewrite !first_error_None, !fail_if_None, !orb_false_iff, !negb_false_iff, !Z.ltb_ge,
    S1, S2, !S3, S4, S5, check_all_None, total_guard_None.
  setoid_rewrite root_operation_check_None. rewrite andb_false_iff, negb_false_iff.
  split.
  - intros ((A1 & A2) & (((B1 & B2) & B3) & B4) & (C1 & C2) & D & E & F & G & ((W1 & W2) & W3) & T & P & Q).
    passed. split; try done.
    + intros op m Hop Hin. rewrite Forall_forall in P.
      by apply (P (op, m)); [apply elem_of_map_to_list|].
    + intros R. destruct Q as [Q|Q]; congruence.
  - intros [[A1 A2] (B1 & B2 & B3 & B4) C1 C2 D E F G (W1 & W2 & W3) T P Q].
    rewrite A1, A2, B1, B2, B3, B4, !bool_decide_eq_false_2 by tauto. split_and!; try done.
    + apply Forall_forall. intros [op m] Hin%elem_of_map_to_list. by apply P.
    + destruct (ApprovalRequirementV2.Required (IntentContractV2.Approval intent)); [right; by apply Q|by left].
Qed.

End RootOk.

Lemma normalizeRootAuthority_Ok h g intent g' : normalizeRootAuthority h g intent = Ok g' <->
  root_ok h g intent /\ g' = AuthorityGrantV2.set_budget (present_budget g.(AuthorityGrantV2.Budget)) g.
Proof.
  unfold normalizeRootAuthority. rewrite <- root_checks_None. destruct (root_checks h g intent); naive_solver.
Qed.

(** ** Who acted *)

(** The acting action: an unspent one of the operation and terms at hand, whose
    evidence the gate admits; an operator's act is a registered human's. *)
Record acted (h : Handle) (s : db) (act operation parameters : string) (adm : bool) (at_ : time)
    (actor : string) : Prop := {
  at_evidence : exists e row, validateActionIdentityV2Tx h act at_ s = Ok (e, s)
    /\ s.(t_actions).(actions) !! act = Some row
    /\ row.(aw_operation).(Operation.Namespace) = "authority"
    /\ row.(aw_operation).(Operation.Name) = operation
    /\ row.(aw_parameters) = Digest {| Operation.Namespace := "authority"; Operation.Name := operation;
                                       Operation.Version := 1 |} parameters
    /\ row.(aw_principal) = Some e.(Evidence.ActorPrincipalID)
    /\ if adm then exists p, principal_in h s e.(Evidence.ResponsiblePrincipalID) p
                     /\ p.(Registered.Kind) = PrincipalHuman /\ actor = p.(Registered.ID)
       else actor = e.(Evidence.ActorPrincipalID);
  at_unspent : act_used s act = false
}.

Lemma validateAuthorityActorTx_Ok h act op p adm at_ s actor s' :
  validateAuthorityActorTx h act op p adm at_ s = Ok (actor, s') -> s' = s /\ acted h s act op p adm at_ actor.
Proof.
  intros H. pose proof (reads _ _ _ H) as ->. split; [done|]. unfold validateAuthorityActorTx in H.
  tx_next H E. apply tx_bind_Ok in H as (e & s1 & E1 & H).
  assert (s1 = s) as -> by (unfold validateActionIdentityV2Tx in E1; by apply reads in E1).
  tx_next H E2. tx_next H E3. tx_next H E4. tx_next H E5. tx_next H E6. tx_next H E7. tx_next H E8.
  passed. split; [|done]. exists e, x. rewrite E4. split_and!; try done; [by subst|].
  destruct adm.
  - apply tx_bind_Ok in H as (o & s1 & E9 & H). apply rename_Ok, principalTx_Ok in E9 as [-> Ho].
    tx_next H E10. apply tx_ret_Ok in H as [= ->]. passed. by exists o.
  - by apply tx_ret_Ok in H as [= ->].
Qed.

(** ** The chain under its intent, and what is left of it *)

(** Each stored grant within the one above, its limits written out. *)
Inductive edges_ok (h : Handle) (intent : IntentContractV2.t)
    : AuthorityGrantV2.t -> list AuthorityGrantV2.t -> Prop :=
| edges_leaf g : edges_ok h intent g []
| edges_down g child l :
    edge_ok g child intent (whole_budget g) (defaultAuthorityMatchers h) ->
    GrantCanonicalBytes (normalised child (whole_budget g)) = GrantCanonicalBytes child ->
    edges_ok h intent child l -> edges_ok h intent g (child :: l).

Definition chain_within (h : Handle) (intent : IntentContractV2.t) (chain : list AuthorityGrantV2.t) : Prop :=
  exists root l, chain = root :: l /\ root_ok h root intent
    /\ GrantCanonicalBytes (AuthorityGrantV2.set_budget (present_budget root.(AuthorityGrantV2.Budget)) root)
       = GrantCanonicalBytes root
    /\ edges_ok h intent root l.

Lemma stored_edges_None h intent g l : stored_edges h intent g l = None <-> edges_ok h intent g l.
Proof.
  revert g. induction l as [|child l IH]; intros g; cbn [stored_edges].
  - split; [constructor|done].
  - destruct (NormalizeAuthorityDelegation _ _ _ _ _) as [n|e] eqn:E.
    + apply NormalizeAuthorityDelegation_Ok in E as [E ->].
      rewrite first_error_None, fail_if_None, bool_decide_eq_false, IH. split.
      * intros [Hb%dec_stable Hl]. by constructor.
      * intros H. inversion H; subst. split; [by intros ?|done].
    + split; [done|]. intros H. inversion H as [|? ? ? He]; subst.
      destruct (NormalizeAuthorityDelegation g child intent (whole_budget g) (defaultAuthorityMatchers h))
        as [n|e'] eqn:E'; [done|].
      pose proof (proj2 (NormalizeAuthorityDelegation_Ok _ _ _ _ _ _) (conj He eq_refl)) as E''. congruence.
Qed.

Lemma validateStoredAuthorityChain_None h chain intent :
  validateStoredAuthorityChain h chain intent = None <-> chain_within h intent chain.
Proof.
  unfold validateStoredAuthorityChain, chain_within. destruct chain as [|root l].
  { split; [done|]. by intros (? & ? & ? & _). }
  destruct (normalizeRootAuthority h root intent) as [n|e] eqn:E.
  - apply normalizeRootAuthority_Ok in E as [E ->].
    rewrite first_error_None, fail_if_None, bool_decide_eq_false, stored_edges_None. split.
    + intros [Hb%dec_stable Hl]. by exists root, l.
    + intros (r & l' & [= <- <-] & _ & Hb & Hl). split; [by intros ?|done].
  - split; [done|]. intros (r & l' & [= <- <-] & Hr & _ & _).
    rewrite (proj2 (normalizeRootAuthority_Ok _ _ _ _) (conj Hr eq_refl)) in E. done.
Qed.

(** What a grant has left in the ledger: each limit less what was spent. *)
Record balance (t : budget_tables) (g : AuthorityGrantV2.t) (left : AuthorityBudgetRemaining) : Prop := {
  bl_total : left.(br_Total) = (fun m => m - spent t (budgetAccountID g.(AuthorityGrantV2.ProfileID) "grant"
                 g.(AuthorityGrantV2.GrantID)) "*") <$> g.(AuthorityGrantV2.Budget).(IntentBudgetV2.Total);
  bl_per : forall op, left.(br_PerOperation) !! op
    = (fun m => m - spent t (budgetAccountID g.(AuthorityGrantV2.ProfileID) "grant"
                 g.(AuthorityGrantV2.GrantID)) op) <$> IntentBudgetV2.per g.(AuthorityGrantV2.Budget) !! op;
  bl_total_left : forall v, left.(br_Total) = Some v -> 0 <= v;
  bl_per_left : forall op v, left.(br_PerOperation) !! op = Some v -> 0 <= v
}.

Lemma difference_exact t a o m : ledger_sound t -> int64_range m -> 0 <= m ->
  wrap64 (m - spent t a o) = m - spent t a o.
Proof.
  intros Ht Hm H0. apply wrap64_small. pose proof (ls_chain _ Ht (a, o)) as Hc. unfold spent.
  pose proof (chained_range _ Hc) as [Hr _]. pose proof (spent_nonneg _ Hc).
  unfold int64_range in *. lia.
Qed.

Lemma left_of_exact h a o m s v s' : ledger_sound s.(t_budget) -> int64_range m -> 0 <= m ->
  left_of h a o m s = Ok (v, s') -> v = m - spent s.(t_budget) a o /\ 0 <= v.
Proof.
  intros Hs Hm H0 H. unfold left_of in H.
  apply tx_bind_Ok in H as ([[p q] r] & s0 & E & H). rewrite counterTx_sound in E by done.
  injection E as <- <- <- <-. repeat tx_step. bools.
  rewrite difference_exact in * by done. split; [done|lia].
Qed.

Lemma left_per_operation_Ok h a l s per s' : ledger_sound s.(t_budget) -> NoDup l.*1 ->
  Forall (fun p => int64_range p.2 /\ 0 <= p.2) l ->
  left_per_operation h a l s = Ok (per, s') ->
  (forall op, per !! op = (fun m => m - spent s.(t_budget) a op) <$> (list_to_map l : gmap string Z) !! op)
  /\ (forall op v, per !! op = Some v -> 0 <= v).
Proof.
  intros Hs. revert per s'. induction l as [|[op m] l IH]; intros per s' Hnd Hl H; cbn [left_per_operation] in H.
  - apply tx_ret_Ok in H as [= -> ->]. done.
  - apply tx_bind_Ok in H as (v & s1 & E & H). pose proof (reads _ _ _ E) as ->.
    apply tx_bind_Ok in H as (others & s1 & E1 & H). apply tx_ret_Ok in H as [= -> ->].
    apply Forall_cons in Hl as [[Hm H0] Hl]. rewrite fmap_cons in Hnd. apply NoDup_cons in Hnd as [_ Hnd].
    apply left_of_exact in E as [-> Hv]; [|done..]. apply IH in E1 as [E1 E2]; [|done..].
    split; intros op'; rewrite ?list_to_map_cons; cbn [fst snd];
      (destruct (decide (op' = op)) as [->|N]; [rewrite !lookup_insert_eq|rewrite !lookup_insert_ne by done]).
    + done.
    + apply E1.
    + by intros ? [= <-].
    + apply E2.
Qed.

(** A valid grant's limits are not negative. *)
Lemma valid_budget g : Authority.Validate g = None ->
  (forall m, g.(AuthorityGrantV2.Budget).(IntentBudgetV2.Total) = Some m -> 0 <= m)
  /\ forall op m, IntentBudgetV2.per g.(AuthorityGrantV2.Budget) !! op = Some m -> 0 <= m.
Proof.
  unfold Authority.Validate. rewrite !first_error_None, !fail_if_None, check_all_None, Forall_forall.
  intros (_ & _ & _ & _ & _ & _ & Ht & _ & Hp & _). split.
  - intros m E. rewrite E in Ht. bools. lia.
  - intros op m E. specialize (Hp (op, m)). rewrite elem_of_map_to_list in Hp. specialize (Hp E).
    apply fail_if_None in Hp. bools. cbn in *. lia.
Qed.

Lemma remainingForGrantTx_Ok h s g left s' : ledger_sound s.(t_budget) -> Authority.Validate g = None ->
  budget_range g.(AuthorityGrantV2.Budget) -> remainingForGrantTx h g s = Ok (left, s') ->
  s' = s /\ balance s.(t_budget) g left.
Proof.
  intros Hs Hv [Rt Rp] H. pose proof (reads _ _ _ H) as ->. split; [done|].
  destruct (valid_budget _ Hv) as [Vt Vp]. unfold remainingForGrantTx in H.
  apply tx_bind_Ok in H as ([[sp q] r] & s0 & E & H). rewrite counterTx_sound in E by done.
  injection E as <- <- <- <-. cbn beta iota in H. tx_door H E1. pose proof (reads _ _ _ E1) as ->.
  apply tx_bind_Ok in H as (total & s1 & E2 & H). apply tx_bind_Ok in H as (per & s2 & E3 & H).
  apply tx_ret_Ok in H as [= -> <-].
  set (a := budgetAccountID _ "grant" _) in *.
  assert (s1 = s /\ total = (fun m => m - spent s.(t_budget) a "*")
    <$> g.(AuthorityGrantV2.Budget).(IntentBudgetV2.Total) /\ forall v, total = Some v -> 0 <= v) as (-> & ET & NT).
  { destruct (IntentBudgetV2.Total _) as [m|] eqn:Em.
    - tx_next E2 E4. apply tx_ret_Ok in E2 as [= -> ->]. bools.
      rewrite difference_exact in * by auto. split_and!; [done..|]. intros v [= <-]. lia.
    - apply tx_ret_Ok in E2 as [= -> ->]. done. }
  apply left_per_operation_Ok in E3 as [EP NP]; [| done|apply NoDup_fst_map_to_list|].
  - rewrite list_to_map_to_list in EP. by split.
  - apply Forall_forall. intros [op m] Hin%elem_of_map_to_list. cbn. split; [by apply (Rp op)|by apply (Vp op)].
Qed.

(** ** The doors keep the grants sound *)

Lemma carried_root h g : grant_carried h g ->
  grant_carried h (AuthorityGrantV2.set_budget (present_budget g.(AuthorityGrantV2.Budget)) g).
Proof.
  intros Hc. apply carried_budget; [done|apply (gv_budget _ (gc_text _ _ Hc))|apply (gr_budget _ (gc_range _ _ Hc))].
Qed.

(** A door that wrote a grant and then opened accounts. *)
Lemma then_accounts h s s1 s2 : grants_sound h s1 /\ grants_follow s s1 -> budget_only s1 s2 ->
  grants_sound h s2 /\ grants_follow s s2.
Proof. intros H [b ->]. by eapply then_untouched. Qed.

Lemma balance_range t g left : ledger_sound t -> budget_range g.(AuthorityGrantV2.Budget) ->
  balance t g left -> map_Forall (fun _ z => int64_range z) left.(br_PerOperation).
Proof.
  intros Ht [_ Hr] [_ Hp _ Hn] op v E. pose proof (Hn _ _ E) as H0. rewrite Hp in E.
  destruct (_ !! op) as [m|] eqn:Em; [|done]. injection E as <-. specialize (Hr op m Em). cbn beta in Hr.
  pose proof (spent_nonneg _ (ls_chain _ Ht (budgetAccountID g.(AuthorityGrantV2.ProfileID) "grant"
    g.(AuthorityGrantV2.GrantID), op))). unfold spent, int64_range in *. lia.
Qed.

Lemma budget_text_keys b : budget_text b <-> forall op v, IntentBudgetV2.per b !! op = Some v -> utf8 op.
Proof.
  unfold budget_text. rewrite Forall_forall. split.
  - intros H op v E. by apply (H (op, v)), elem_of_map_to_list.
  - intros H [op v] E%elem_of_map_to_list. by eapply H.
Qed.

Lemma carried_child h parent child t left : ledger_sound t ->
  budget_text parent.(AuthorityGrantV2.Budget) -> budget_range parent.(AuthorityGrantV2.Budget) ->
  grant_carried h child -> balance t parent left -> grant_carried h (normalised child left).
Proof.
  intros Ht Hpt Hpr Hc Hb. apply carried_budget; [done| |].
  - apply budget_text_keys. unfold IntentBudgetV2.per at 1. cbn [IntentBudgetV2.PerOperation default].
    intros op v E. apply lookup_union_Some_raw in E as [E|[_ E]].
    + apply (proj1 (budget_text_keys _) (gv_budget _ (gc_text _ _ Hc)) _ _ E).
    + rewrite (bl_per _ _ _ Hb) in E. destruct (_ !! op) as [m|] eqn:Em; [|done].
      apply (proj1 (budget_text_keys _) Hpt _ _ Em).
  - split.
    + apply (gr_budget _ (gc_range _ _ Hc)).
    + unfold IntentBudgetV2.per at 1. cbn [IntentBudgetV2.PerOperation default].
      apply map_Forall_union_2; [apply (gr_budget _ (gc_range _ _ Hc))|].
      by eapply balance_range.
Qed.

(** A grant read from the store is valid, and its limits are plain. *)
Lemma stored_valid h s id v g : grants_sound h s -> grant_stored h s id v g ->
  Authority.Validate (grant_of_stored g) = None
  /\ budget_text (grant_of_stored g).(AuthorityGrantV2.Budget)
  /\ budget_range (grant_of_stored g).(AuthorityGrantV2.Budget).
Proof.
  intros Hs Hg. destruct (stored_terms _ _ _ _ _ Hs Hg) as (g0 & E & [Ht Hr _ _] & _).
  destruct (st_signed _ _ _ _ _ Hg) as (pub & _ & Hv). unfold VerifyAuthorityGrantV2 in Hv.
  unfold grant_of_stored in *. split; [by destruct (Authority.Validate _)|]. rewrite E.
  split; [apply (gv_budget _ (grant_normal_text _ Ht))|apply (gr_budget _ Hr)].
Qed.

Lemma valid_id g : Authority.Validate g = None -> g.(AuthorityGrantV2.GrantID) <> "".
Proof. unfold Authority.Validate. rewrite first_error_None, fail_if_None. intros [H _]. bools. tauto. Qed.

Lemma stored_id h s id v g : grants_sound h s -> grant_stored h s id v g -> id <> "".
Proof.
  intros Hs Hg. destruct (stored_names _ _ _ _ _ Hs Hg) as [<- _]. by apply valid_id, (stored_valid _ _ _ _ _ Hs Hg).
Qed.

(** The grant a lineage starts from, as the chain's last. *)
Lemma lineage_leaf h s at_ id v l chain leaf s1 s2 : lineage h s at_ id v l ->
  chain = reverse l.*2 -> leaf_of chain s1 = Ok (leaf, s2) ->
  s2 = s1 /\ exists l', l = (id, leaf) :: l' /\ grant_live h s id v at_ leaf.
Proof.
  intros Hl -> H. unfold leaf_of in H. apply found_Ok in H as (x & E & [= -> ->]). split; [done|].
  inversion Hl as [|? ? g l' Hid Hlive Hrest]; subst; [done|]. rewrite fmap_cons, reverse_cons, last_snoc in E.
  injection E as <-. by exists l'.
Qed.

(** ** What was written is what is read *)

(** Terms the reader takes: short enough, and still valid with every inherited
    limit written out. *)
Definition readable (g : AuthorityGrantV2.t) : Prop :=
  too_long (GrantCanonicalBytes g) = false /\ Authority.Validate (grant_normal g) = None.

Lemma carried_reads h g : grant_carried h g -> readable g ->
  ParseAuthorityGrantV2 h.(time_Parse) (GrantCanonicalBytes g) = Ok (grant_normal g).
Proof.
  intros [Ht Hr Hf Hu] [Hl Hv]. unfold ParseAuthorityGrantV2. rewrite Hl.
  unfold GrantCanonicalBytes. rewrite grant_value_go.
  destruct (strict_round_trip grant_type _ grant_type_ok ltac:(by vm_compute) (grant_typed g Ht Hr))
    as [E1 E2].
  rewrite E1. cbn [mbind option_bind]. rewrite E2, grant_of_go by done. by rewrite Hv.
Qed.

Lemma parsed_valid time_Parse raw g : ParseAuthorityGrantV2 time_Parse raw = Ok g ->
  too_long raw = false /\ Authority.Validate g = None.
Proof.
  unfold ParseAuthorityGrantV2. destruct (too_long raw); [done|]. repeat (case_match; try done).
  by intros [= <-].
Qed.

(** A stored grant can be read exactly when its terms are readable. *)
Definition can_read (h : Handle) (g : AuthorityGrantV2.t) (s : db) : Prop :=
  readable g <-> exists st, readGrantTx h g.(AuthorityGrantV2.GrantID) g.(AuthorityGrantV2.Version) s = Ok (st, s)
                   /\ grant_of_stored st = grant_normal g /\ st.(sgr_status) = LifecycleActive.

Lemma born_readable h ev act actor adm g s s' : grants_sound h s' -> grant_carried h g ->
  grant_born h ev act actor adm g s s' ->
  can_read h g s'.
Proof.
  intros Hs Hc [_ (row & Hrow & Hcan) (hd & Hd & Hv & Hst) _].
  destruct (gs_version _ _ Hs _ _ _ Hrow) as (_ & _ & (key & pub & Hk & Hb & Hlen & Hver)).
  unfold can_read. setoid_rewrite (readGrantTx_Ok _ _ _ _ _ Hs). split.
  - intros Hr. exists {| sgr_signed := {| sg_Grant := grant_normal g; sg_Seal := row.(gv_seal) |};
      sgr_status := hd.(gh_status); sgr_revision := hd.(gh_revision); sgr_last := hd.(gh_last) |}.
    split_and!; [|done..]. split; cbn [sgr_signed sgr_status sgr_revision sgr_last sg_Seal].
    + exists row, hd. split_and!; try done; [by apply joined_Some|]. rewrite Hcan. by apply carried_reads.
    + exists pub. split; [by exists key|]. unfold VerifyAuthorityGrantV2. cbn [sg_Grant sg_Seal].
      destruct Hr as [_ ->]. rewrite grant_normal_bytes by apply Hc. by rewrite <- Hcan.
  - intros (st & [(row' & hd' & Hj & Hp & _) _] & E & _). apply joined_Some in Hj as (Hrow' & _).
    rewrite Hrow in Hrow'. injection Hrow' as <-. rewrite Hcan, E in Hp.
    by apply parsed_valid in Hp as [H1 H2].
Qed.

(** What the door that issued a root passed and wrote. *)
Record issued (h : Handle) (ev : string) (grant : AuthorityGrantV2.t) (act reason : string) (adm : bool)
    (at_ : time) (s s' : db) : Prop := {
  is_valid : Authority.Validate grant = None;
  is_act : exists actor intent,
    acted h s act "issue" (if adm then CanonicalAdminAuthorityGrant grant reason else GrantCanonicalBytes grant)
      adm at_ actor
    /\ authorises h s grant.(AuthorityGrantV2.IntentID) grant.(AuthorityGrantV2.IntentVersion)
         grant.(AuthorityGrantV2.IntentDigest) at_ intent
    /\ (adm = false -> actor = intent.(IntentContractV2.OwnerPrincipalID)
                       /\ grant.(AuthorityGrantV2.IssuerPrincipalID) = actor)
    /\ root_ok h grant intent
    /\ grant_born h ev act actor adm
         (AuthorityGrantV2.set_budget (present_budget grant.(AuthorityGrantV2.Budget)) grant) s s'
    /\ can_read h (AuthorityGrantV2.set_budget (present_budget grant.(AuthorityGrantV2.Budget)) grant) s';
}.

Lemma issueAuthority_Ok h ev grant act reason adm at_ s s' : grants_sound h s -> grant_carried h grant ->
  h.(time_Parse) (rfc3339 at_) = Some at_ ->
  issueAuthority h ev grant act reason adm at_ s = Ok (tt, s') ->
  (grants_sound h s' /\ grants_follow s s') /\ issued h ev grant act reason adm at_ s s'.
Proof.
  intros Hs Hc Ht H. unfold issueAuthority in H. tx_next H E.
  apply tx_bind_Ok in H as (actor & s1 & E1 & H). apply validateAuthorityActorTx_Ok in E1 as [-> Ha].
  apply tx_bind_Ok in H as (intent & s1 & E1 & H). apply activeIntentTx_sound in E1 as [-> Hi].
  tx_next H E2. tx_next H E3. apply normalizeRootAuthority_Ok in E3 as [Hroot ->].
  tx_door H E4. apply insertGrantTx_Ok in E4 as (Hs1 & F1 & Hb & t & ->); [|done|by apply carried_root|done].
  tx_door H E5. apply moves_by in E5. apply moves_by in H. assert (budget_only (with_grants t s) s') as Hbud by by etrans.
  split; [by eapply then_accounts|]. split; [done|]. exists actor, intent.
  destruct (then_accounts h s _ s' (conj Hs1 F1) Hbud) as [Hs' _].
  assert (grant_born h ev act actor adm
    (AuthorityGrantV2.set_budget (present_budget grant.(AuthorityGrantV2.Budget)) grant) s s') as Hborn
    by (destruct Hbud as [b ->]; by destruct Hb).
  split_and!; [done..| |done|done|].
  2:{ eapply born_readable; [done|by apply carried_root|done]. }
  intros ->. cbn [negb andb] in E2. passed. done.
Qed.

(** What the door that delegated passed and wrote. *)
Record delegated (h : Handle) (ev : string) (child : AuthorityGrantV2.t) (act reason : string) (adm : bool)
    (at_ : time) (s s' : db) : Prop := {
  dg_valid : Authority.Validate child = None;
  dg_act : exists actor intent parent l left,
    acted h s act "delegate"
      (if adm then CanonicalAdminAuthorityGrant child reason else GrantCanonicalBytes child) adm at_ actor
    /\ lineage h s at_ child.(AuthorityGrantV2.ParentGrantID) child.(AuthorityGrantV2.ParentGrantVersion)
         ((child.(AuthorityGrantV2.ParentGrantID), parent) :: l)
    /\ (List.length l < maxChain)%nat /\ NoDup (child.(AuthorityGrantV2.ParentGrantID) :: l.*1)
    /\ (adm = false -> actor = (grant_of_stored parent).(AuthorityGrantV2.SubjectPrincipalID)
                       /\ child.(AuthorityGrantV2.IssuerPrincipalID) = actor)
    /\ authorises h s child.(AuthorityGrantV2.IntentID) child.(AuthorityGrantV2.IntentVersion)
         child.(AuthorityGrantV2.IntentDigest) at_ intent
    /\ chain_within h intent (map grant_of_stored (reverse (parent :: l.*2)))
    /\ balance s.(t_budget) (grant_of_stored parent) left
    /\ edge_ok (grant_of_stored parent) child intent left (defaultAuthorityMatchers h)
    /\ grant_born h ev act actor adm (normalised child left) s s'
    /\ can_read h (normalised child left) s'
    /\ accounts_grow s.(t_budget) s'.(t_budget)
    /\ account_opened s'.(t_budget) child.(AuthorityGrantV2.ProfileID) "grant"
         child.(AuthorityGrantV2.GrantID) (normalised child left).(AuthorityGrantV2.Budget)
}.

Lemma exhausted_Ok r g : exhausted r = Ok g <-> r = Ok g.
Proof. destruct r; naive_solver. Qed.

Lemma delegateAuthority_Ok h ev child act reason adm at_ s s' : grants_sound h s ->
  ledger_sound s.(t_budget) -> grant_carried h child -> h.(time_Parse) (rfc3339 at_) = Some at_ ->
  delegateAuthority h ev child act reason adm at_ s = Ok (tt, s') ->
  (grants_sound h s' /\ grants_follow s s') /\ delegated h ev child act reason adm at_ s s'.
Proof.
  intros Hs Hl Hc Ht H. unfold delegateAuthority in H. tx_next H E.
  apply tx_bind_Ok in H as (actor & s1 & E1 & H). apply validateAuthorityActorTx_Ok in E1 as [-> Ha].
  apply tx_bind_Ok in H as (chain & s1 & E1 & H). pose proof (reads _ _ _ E1) as ->.
  apply (proj1 (authorityAbsent_Ok _ _ _)), authorityChainTx_Ok in E1; [|done].
  destruct E1 as (l & Hlin & Hlen & Hnd & Hch).
  apply tx_bind_Ok in H as (parent & s1 & E1 & H).
  destruct (lineage_leaf _ _ _ _ _ _ _ _ _ _ Hlin Hch E1) as (-> & l' & -> & Hlive).
  tx_next H E2.
  apply tx_bind_Ok in H as (intent & s1 & E3 & H). apply activeIntentTx_sound in E3 as [-> Hi].
  tx_next H E4. apply validateStoredAuthorityChain_None in E4.
  destruct (stored_valid _ _ _ _ _ Hs (lv_stored _ _ _ _ _ _ Hlive)) as (Hpv & Hpt & Hpr).
  apply tx_bind_Ok in H as (left & s1 & E5 & H). apply remainingForGrantTx_Ok in E5 as [-> Hbal]; [|done..].
  tx_next H E6. apply exhausted_Ok, NormalizeAuthorityDelegation_Ok in E6 as [Hedge ->].
  tx_door H E7. apply insertGrantTx_Ok in E7 as (Hs1 & F1 & Hb & t & ->); [|done|by eapply carried_child|done].
  assert (grant_carried h (normalised child left)) as Hcar by by eapply carried_child.
  apply ensureBudgetAccountTx_Ok in H as (Hgrow & Hacc & Hbud); [|done|intros m; apply (gr_budget _ (gc_range _ _ Hcar))].
  assert (grants_sound h s' /\ grants_follow s s') as Hs' by (eapply then_accounts; [by split|by eexists]).
  assert (grant_born h ev act actor adm (normalised child left) s s') as Hborn by (rewrite Hbud; by destruct Hb).
  split; [done|]. split; [done|]. exists actor, intent, parent, l', left. rewrite fmap_cons in Hch. rewrite fmap_cons in Hnd.
  cbn [List.length fst snd] in Hlen, Hch, Hnd.
  split_and!; [done|done|lia|done| |done|by rewrite <- Hch|done|done|done|eapply born_readable; [by destruct Hs'|done|done]|done..].
  intros ->. cbn [negb andb] in E2. passed. done.
Qed.

Lemma imported_grant_Ok h grant intent at_ s g s' : imported_grant h grant intent at_ s = Ok (g, s') ->
  s' = s /\ (g = grant \/ g = AuthorityGrantV2.set_budget (present_budget grant.(AuthorityGrantV2.Budget)) grant).
Proof.
  unfold imported_grant. case_bool_decide as Hroot; intros H.
  - apply lift_Ok in H as (x & E & [= -> ->]). apply normalizeRootAuthority_Ok in E as [_ ->]. by split; [|right].
  - apply tx_bind_Ok in H as (parents & s1 & E1 & H). pose proof (reads _ _ _ E1) as ->.
    tx_next H E2. apply tx_bind_Ok in H as (parent & s1 & E3 & H). pose proof (reads _ _ _ E3) as ->.
    apply tx_bind_Ok in H as (left & s1 & E4 & H). pose proof (reads _ _ _ E4) as ->.
    tx_next H E5. apply tx_ret_Ok in H as [= -> ->]. by split; [|left].
Qed.

Lemma ImportLegacyAuthority_Ok h ev legacy grant act reason at_ s s' : grants_sound h s ->
  grant_carried h grant -> h.(time_Parse) (rfc3339 at_) = Some at_ ->
  ImportLegacyAuthority h ev legacy grant act reason at_ s = Ok (tt, s') ->
  grants_sound h s' /\ grants_follow s s'.
Proof.
  intros Hs Hc Ht H. unfold ImportLegacyAuthority in H. tx_next H E. tx_next H E1.
  apply tx_bind_Ok in H as (actor & s1 & E2 & H). pose proof (reads _ _ _ E2) as ->.
  apply tx_bind_Ok in H as (lg & s1 & E3 & H). pose proof (reads _ _ _ E3) as ->.
  tx_next H E4. apply tx_bind_Ok in H as (intent & s1 & E5 & H). apply activeIntentTx_sound in E5 as [-> _].
  tx_next H E6. apply tx_bind_Ok in H as (g & s1 & E7 & H). apply imported_grant_Ok in E7 as [-> Hg].
  tx_door H E8. apply insertGrantTx_Ok in E8 as (Hs1 & F1 & _ & t & ->);
    [|done|destruct Hg as [-> | ->]; [done|by apply carried_root]|done].
  tx_door H E9. apply moves_by in E9. tx_door H E10. apply moves_by in E10. tx_next H E11.
  tx_door H E12. apply moves_by in E12.
  tx_next H E13. tx_next H E14. apply change_Ok in H as [= ->].
  eapply (then_untouched h s s2); [|done..]. eapply then_accounts; [by split|]. by etrans; [|etrans].
Qed.

(** One step of the store: a grant door that committed, or anything that
    leaves the grant tables alone and keeps the keys. *)
Inductive grant_step (h : Handle) (s s' : db) : Prop :=
| grant_issued ev g act reason adm at_ : grant_carried h g -> h.(time_Parse) (rfc3339 at_) = Some at_ ->
    issueAuthority h ev g act reason adm at_ s = Ok (tt, s') -> grant_step h s s'
| grant_delegated ev g act reason adm at_ : ledger_sound s.(t_budget) -> grant_carried h g ->
    h.(time_Parse) (rfc3339 at_) = Some at_ ->
    delegateAuthority h ev g act reason adm at_ s = Ok (tt, s') -> grant_step h s s'
| grant_revoked ev id act reason adm at_ : h.(time_Parse) (rfc3339 at_) = Some at_ ->
    revokeAuthority h ev id act reason adm at_ s = Ok (tt, s') -> grant_step h s s'
| grant_imported ev legacy g act reason at_ : grant_carried h g ->
    h.(time_Parse) (rfc3339 at_) = Some at_ ->
    ImportLegacyAuthority h ev legacy g act reason at_ s = Ok (tt, s') -> grant_step h s s'
| grants_elsewhere : keys_kept s.(signing_keys) s'.(signing_keys) -> s'.(t_grants) = s.(t_grants) ->
    grant_step h s s'.

Lemma grant_step_sound h s s' : grants_sound h s -> grant_step h s s' ->
  grants_sound h s' /\ grants_follow s s'.
Proof.
  intros Hs [ev g act reason adm at_ Hc Ht H|ev g act reason adm at_ Hl Hc Ht H|ev id act reason adm at_ Ht H
            |ev legacy g act reason at_ Hc Ht H|Hk E].
  - by apply issueAuthority_Ok in H as [? _].
  - by apply delegateAuthority_Ok in H as [? _].
  - by apply revokeAuthority_Ok in H as (? & ? & _).
  - by apply ImportLegacyAuthority_Ok in H.
  - by apply grants_untouched.
Qed.

Lemma grant_steps_sound h s s' : grants_sound h s -> rtc (grant_step h) s s' ->
  grants_sound h s' /\ grants_follow s s'.
Proof.
  intros Hs H. revert Hs. induction H as [s|s s1 s2 H _ IH]; intros Hs; [done|].
  destruct (grant_step_sound _ _ _ Hs H) as [Hs1 F1]. destruct (IH Hs1) as [Hs2 F2].
  split; [done|by etrans].
Qed.

(** No lineage climbs through a grant that is not active. *)
Lemma lineage_active h s at_ id v l x g : lineage h s at_ id v l -> (x, g) ∈ l ->
  exists hd, s.(t_grants).(grant_heads) !! x = Some hd /\ hd.(gh_status) = LifecycleActive.
Proof.
  induction 1 as [v|id v g' l Hid Hlive _ IH]; intros Hin; [by apply not_elem_of_nil in Hin|].
  apply elem_of_cons in Hin as [[= -> ->]|Hin]; [|by apply IH].
  destruct Hlive as [Hst Hact _]. apply stored_head in Hst as (hd & Hd & _ & Es & _). exists hd.
  split; [done|]. congruence.
Qed.

(** An act that made a grant event is spent, and stays so. *)
Lemma act_spent s e : e ∈ s.(t_grants).(grant_events) -> act_used s e.(ge_actor_action) = true.
Proof.
  intros He. unfold act_used. apply orb_true_iff. left. apply orb_true_iff. left.
  apply existsb_exists. exists e. split; [by apply list_elem_of_In|by apply bool_decide_eq_true].
Qed.

Lemma spent_act_refused h s act op p adm at_ r : act_used s act = true ->
  validateAuthorityActorTx h act op p adm at_ s <> Ok r.
Proof.
  intros Hu H. destruct r as [actor s']. apply validateAuthorityActorTx_Ok in H as [_ [_ Hno]]. congruence.
Qed.

Lemma born_spent h ev act actor adm g s s' s2 : grant_born h ev act actor adm g s s' ->
  grants_follow s' s2 -> act_used s2 act = true.
Proof.
  intros [_ _ _ (e & He & _ & <- & _)] F. apply act_spent. destruct (gf_events _ _ F) as [k ->].
  rewrite He. apply elem_of_app. right. apply list_elem_of_here.
Qed.

(** ** The claims *)

(** C20.  A delegation stays within what is left of its chain.  When
    [DelegateAuthority] or its operator form commits, the act it was asked for
    was an unspent one of these very terms; the intent was active; the parent
    and its ancestors, at most sixteen, each once, were all live and each
    within the one above and the root within the intent; the child is within
    the parent in every dimension and within what the parent's own debits left
    of each of its limits; whoever is not an operator was the parent's subject.
    The child is stored for the first time, with every inherited limit written
    out, active, its account open, nothing spent from any other; it can be read
    back exactly when its terms are readable, which the door does not check.
    The tables stay sound in whatever follows, where the act is spent. *)
Theorem delegation_stays_within_the_chain (h : Handle) (s s' s2 : db) ev child act reason adm at_ :
  grants_sound h s -> ledger_sound s.(t_budget) -> grant_carried h child ->
  h.(time_Parse) (rfc3339 at_) = Some at_ ->
  delegateAuthority h ev child act reason adm at_ s = Ok (tt, s') -> rtc (grant_step h) s' s2 ->
  delegated h ev child act reason adm at_ s s'
  /\ grants_sound h s2
  /\ forall op p adm' t r, validateAuthorityActorTx h act op p adm' t s2 <> Ok r.
Proof.
  intros Hs Hl Hc Ht H Hsteps. apply delegateAuthority_Ok in H as [[Hs' _] Hd]; [|done..].
  destruct (grant_steps_sound _ _ _ Hs' Hsteps) as [Hs2 F]. split_and!; [done..|].
  intros op p adm' t r. apply spent_act_refused.
  destruct Hd as [_ (actor & intent & parent & l & left & _ & _ & _ & _ & _ & _ & _ & _ & _ & Hb & _)].
  by eapply born_spent.
Qed.

(** C19.  A revoked grant carries no authority, for ever.  Once
    [RevokeAuthority] or its operator form has committed, whatever the store
    does next (issuing, delegating, revoking and importing grants, any door
    that leaves the grant tables alone and keeps the keys), the tables stay
    sound, and a chain is read exactly when it is a lineage of live grants, at
    most sixteen, each once, the root first.  The revoked grant is in none of
    them, so whatever was delegated from it is dead with it; its own chain is
    never read, the refusal says revoked where its terms can be read, and it
    cannot be revoked again. *)
Theorem revoked_grants_carry_no_authority (h : Handle) (s s1 s2 : db) ev id act reason adm at_ :
  grants_sound h s -> h.(time_Parse) (rfc3339 at_) = Some at_ ->
  revokeAuthority h ev id act reason adm at_ s = Ok (tt, s1) -> rtc (grant_step h) s1 s2 ->
  grants_sound h s2
  /\ (forall id' v t chain, authorityChainTx h id' v t s2 = Ok (chain, s2) <->
        exists l, lineage h s2 t id' v l /\ (1 <= List.length l <= maxChain)%nat /\ NoDup l.*1
          /\ chain = reverse l.*2)
  /\ (forall id' v t l, lineage h s2 t id' v l -> id ∉ l.*1)
  /\ (forall v t r, authorityChainTx h id v t s2 <> Ok r)
  /\ (forall v t g, readGrantTx h id v s2 = Ok (g, s2) ->
        authorityChainTx h id v t s2 = Err ErrAuthorityRevoked)
  /\ (forall ev' act' reason' adm' t r, revokeAuthority h ev' id act' reason' adm' t s2 <> Ok r).
Proof.
  intros Hs Ht H Hsteps. apply revokeAuthority_Ok in H as (Hs1 & _ & hd & Hd & Hst); [|done..].
  destruct (grant_steps_sound _ _ _ Hs1 Hsteps) as [Hs2 F].
  destruct (gf_heads _ _ F _ _ Hd) as (hd2 & Hd2 & _ & Hr). specialize (Hr Hst) as ->.
  assert (Hno : forall id' v t l, lineage h s2 t id' v l -> id ∉ l.*1).
  { intros id' v t l Hl ([x g] & -> & Hin)%list_elem_of_fmap.
    destruct (lineage_active _ _ _ _ _ _ _ _ Hl Hin) as (hd3 & Hd3 & E). cbn [fst] in *.
    rewrite Hd2 in Hd3. injection Hd3 as <-. by rewrite Hst in E. }
  split_and!; [done|intros; by apply authorityChainTx_Ok|done| | |].
  - intros v t [chain s3] H. pose proof (reads _ _ _ H) as ->. apply authorityChainTx_Ok in H; [|done].
    destruct H as (l & Hl & Hlen & _). apply (Hno _ _ _ _ Hl).
    inversion Hl; subst; [cbn in Hlen; lia|apply list_elem_of_here].
  - intros v t g Hg. pose proof (proj1 (readGrantTx_Ok _ _ _ _ _ Hs2) Hg) as Hgs.
    apply stored_head in Hgs as (hd3 & Hd3 & _ & Es & _). rewrite Hd2 in Hd3. injection Hd3 as <-.
    pose proof (stored_id _ _ _ _ _ Hs2 (proj1 (readGrantTx_Ok _ _ _ _ _ Hs2) Hg)) as Hid.
    unfold authorityChainTx. tx_run; [|by apply bool_decide_eq_false_2].
    unfold maxChain. cbn [chain_walk]. rewrite bool_decide_eq_false_2 by done.
    tx_run; [|done]. erewrite bind_at by (by apply read_link_Ok). rewrite Es, Hst. done.
  - intros ev' act' reason' adm' t [[] s3] H. unfold revokeAuthority in H.
    apply tx_bind_Ok in H as (g & s4 & E & H). apply authorityAbsent_Ok, readGrantHeadTx_Ok in E; [|done].
    destruct E as [-> (v & Hg)]. apply stored_head in Hg as (hd3 & Hd3 & _ & Es & _).
    rewrite Hd2 in Hd3. injection Hd3 as <-.
    apply tx_bind_Ok in H as (actor & s4 & E & H). pose proof (reads _ _ _ E) as ->.
    tx_next H E1. tx_next H E2. passed. congruence.
Qed.

(** ** A concrete store *)

Definition noon : time := unix_epoch + 43200 * Second.

Definition clock : Handle := toy_handle [0; unix_epoch; end_of_time; noon].

Lemma clock_back t : t ∈ [0; unix_epoch; end_of_time; noon] -> clock.(time_Parse) (rfc3339 t) = Some t.
Proof.
  apply recall_times_back. repeat (apply Forall_cons; split; [by vm_compute|]). apply Forall_nil_2.
Qed.

Lemma noon_back : clock.(time_Parse) (rfc3339 noon) = Some noon.
Proof. apply clock_back. do 3 right. left. Qed.

(** The evidence of an act by a principal of the registry. *)
Definition act_evidence (act actor : string) : Evidence.t :=
  {| Evidence.EvidenceID := "ev_" +:+ act; Evidence.ActionID := act; Evidence.RequestID := "req_" +:+ act;
     Evidence.RequesterPrincipalID := "principal_channel_tg"; Evidence.ActorPrincipalID := actor;
     Evidence.ResponsiblePrincipalID := "principal_operator"; Evidence.BindingID := "tg";
     Evidence.BindingGeneration := 1; Evidence.AdapterInstanceID := "tg"; Evidence.Provider := "telegram";
     Evidence.Method := "bot_api"; Evidence.CredentialClass := "bot_token_session";
     Evidence.Issuer := "telegram"; Evidence.SubjectNamespace := "telegram";
     Evidence.VerifiedSubject := "bot"; Evidence.SubjectClaim := "user:42"; Evidence.ObservedAt := noon;
     Evidence.ExpiresAt := 0; Evidence.ClaimsDigest := "" |}.

(** A born action with its sealed evidence. *)
Definition with_act (act actor namespace operation parameters : string) (s : db) : db :=
  match signEvidenceTx clock (act_evidence act actor) s with
  | Err _ => s
  | Ok (signed, _) =>
      let op := {| Operation.Namespace := namespace; Operation.Name := operation; Operation.Version := 1 |} in
      let row :=
        {| aw_schema := 1; aw_correlation := "req_" +:+ act;
           aw_source := {| Source.Kind := "channel"; Source.Protocol := "telegram";
                           Source.Channel := "telegram" |};
           aw_operation := op; aw_parameters := Digest op parameters; aw_effect := "pure";
           aw_state := "received"; aw_recovery := ""; aw_requested := rfc3339 noon; aw_finished := None;
           aw_principal := Some actor; aw_intent := None; aw_refs := None;
           aw_snapshot := {| bs_Version := 2; bs_Digest := signed.(sv_Digest);
                             bs_Canonical := signed.(sv_Canonical);
                             bs_SigningKeyID := signed.(sv_SigningKeyID);
                             bs_Signature := signed.(sv_Signature) |} |} in
      committed (insertEvidenceTx signed
        (with_actions {| actions := <[act := row]> s.(t_actions).(actions);
                         decisions := s.(t_actions).(decisions);
                         legacy_evidence := s.(t_actions).(legacy_evidence) |} s))
  end.

Definition world_db : db := Eval vm_compute in
  let s := committed (RegisterIdentity clock (fun id => "pev_" +:+ id) example_registry noon empty_db) in
  let s := committed (CreateIntentV2 clock "iev_1" "rcp_1" example_terms "principal_operator" noon s) in
  let s := committed (ActivateIntentV2 clock "iev_2" "rcp_2" "int_1" 1 "principal_operator" noon s) in
  let s := with_act "act_issue" "principal_operator" "authority" "issue" (GrantCanonicalBytes example_parent) s in
  let s := with_act "act_delegate" "principal_brain_a" "authority" "delegate"
             (GrantCanonicalBytes (example_child_v2 ["secret"])) s in
  with_act "act_revoke" "principal_operator" "authority" "revoke"
    (CanonicalAuthorityRevoke "grant_1" "done") s.

Definition issued_db : db := Eval vm_compute in
  committed (IssueAuthority clock "gev_1" example_parent "act_issue" noon world_db).
Definition delegated_db : db := Eval vm_compute in
  committed (DelegateAuthority clock "gev_2" (example_child_v2 ["secret"]) "act_delegate" noon issued_db).
Definition withdrawn_db : db := Eval vm_compute in
  committed (RevokeAuthority clock "gev_3" "grant_1" "act_revoke" "done" noon delegated_db).

Lemma world_grants_sound : grants_sound clock world_db.
Proof.
  split.
  - intros id hd H. change ((∅ : gmap string grant_head_row) !! id = Some hd) in H.
    by apply lookup_empty_Some in H.
  - intros id v row H. change ((∅ : gmap (string * Z) grant_row) !! (id, v) = Some row) in H.
    by apply lookup_empty_Some in H.
  - done.
Qed.

#[local] Instance int64_range_dec z : Decision (int64_range z).
Proof. unfold int64_range. apply _. Defined.

(** Accounts without a debit. *)
Lemma unspent_sound t : t.(counters) = ∅ -> t.(debits) = [] ->
  map_Forall (fun _ row => match row.(ac_max_total) with Some m => bool_decide (int64_range m) | None => true end = true) t.(accounts) ->
  ledger_sound t.
Proof.
  intros Hc Hd Hm. assert (forall k, rows t k = []) as Hr by (intros k; unfold rows; by rewrite Hd).
  split.
  - intros k. rewrite Hr. constructor.
  - intros k. by rewrite Hr, Hc, lookup_empty.
  - intros k []. apply Hr.
  - intros id row m Hrow Em. specialize (Hm id row Hrow). cbn beta in Hm. rewrite Em in Hm. by bools.
  - intros id row o m _ _. unfold spent. rewrite Hr. cbn. lia.
Qed.

Lemma issued_now : IssueAuthority clock "gev_1" example_parent "act_issue" noon world_db = Ok (tt, issued_db).
Proof. vm_cast_no_check (eq_refl (A := result (unit * db)) (Ok (tt, issued_db))). Qed.
Lemma delegated_now : DelegateAuthority clock "gev_2" (example_child_v2 ["secret"]) "act_delegate" noon issued_db
  = Ok (tt, delegated_db).
Proof. vm_cast_no_check (eq_refl (A := result (unit * db)) (Ok (tt, delegated_db))). Qed.
Lemma withdrawn_now : RevokeAuthority clock "gev_3" "grant_1" "act_revoke" "done" noon delegated_db
  = Ok (tt, withdrawn_db).
Proof. vm_cast_no_check (eq_refl (A := result (unit * db)) (Ok (tt, withdrawn_db))). Qed.

Lemma example_range id parent issuer subject path pv depth denied :
  int64_range pv -> int64_range depth ->
  grant_range (example_grant_v2 id parent issuer subject path pv depth denied).
Proof.
  intros Hp Hd. split.
  - repeat (apply Forall_cons; split); first [apply Forall_nil; exact I|done|by vm_compute].
  - repeat (apply Forall_cons; split); try (apply Forall_nil; exact I); by vm_compute.
  - split; [intros n [= <-]; by vm_compute|].
    intros k z Hk. change ((∅ : gmap string Z) !! k = Some z) in Hk. by apply lookup_empty_Some in Hk.
Qed.

Lemma example_carried id parent issuer subject path pv depth denied :
  Forall (fun s => ascii_only s = true) [id; parent; issuer; subject; path] ->
  Forall (fun s => ascii_only s = true) denied -> int64_range pv -> int64_range depth ->
  grant_carried clock (example_grant_v2 id parent issuer subject path pv depth denied).
Proof.
  intros Ha Hden Hp Hd. repeat (apply Forall_cons in Ha as [? Ha]). split.
  - split; cbn [example_grant_v2 AuthorityGrantV2.Operations AuthorityGrantV2.AllowedResources
      AuthorityGrantV2.DeniedResources AuthorityGrantV2.Channels AuthorityGrantV2.AllowedData
      AuthorityGrantV2.DeniedData AuthorityGrantV2.OutputDestinations AuthorityGrantV2.EffectClasses
      AuthorityGrantV2.Budget AuthorityGrantV2.ValidFrom AuthorityGrantV2.ExpiresAt
      AuthorityGrantV2.GrantID AuthorityGrantV2.ProfileID AuthorityGrantV2.IntentID
      AuthorityGrantV2.IntentDigest AuthorityGrantV2.IssuerPrincipalID AuthorityGrantV2.SubjectPrincipalID
      AuthorityGrantV2.ParentGrantID AuthorityGrantV2.EffectCeiling elems default].
    + repeat (apply Forall_cons; split;
        [apply ascii_only_utf8; first [assumption|vm_compute; reflexivity]|]). constructor.
    + apply Forall_cons; split; [by apply example_op_text|constructor].
    + apply NoDup_singleton.
    + apply Forall_cons; split; [split; by apply ascii_only_utf8|constructor].
    + constructor.
    + repeat (apply Forall_cons; split); try (apply Forall_nil; exact I);
        try (by apply ascii_only_utf8). eapply Forall_impl; [exact Hden|]. apply ascii_only_utf8.
    + unfold budget_text, IntentBudgetV2.per. simpl. rewrite map_to_list_empty. constructor.
    + by vm_compute.
    + by vm_compute.
  - by apply example_range.
  - by vm_compute.
  - by vm_compute.
Qed.

Lemma parent_carried : grant_carried clock example_parent.
Proof. apply example_carried; [by repeat constructor|by repeat constructor|done|done]. Qed.

Lemma child_carried : grant_carried clock (example_child_v2 ["secret"]).
Proof. apply example_carried; [by repeat constructor|by repeat constructor|done|done]. Qed.

Lemma issued_sound : grants_sound clock issued_db.
Proof.
  exact (proj1 (proj1 (issueAuthority_Ok _ _ _ _ _ _ _ _ _ world_grants_sound parent_carried noon_back issued_now))).
Qed.

Lemma issued_ledger : ledger_sound issued_db.(t_budget).
Proof.
  apply unspent_sound; [done|done|]. apply (bool_decide_unpack _). vm_compute. exact I.
Qed.

Lemma delegated_sound : grants_sound clock delegated_db.
Proof.
  exact (proj1 (proj1 (delegateAuthority_Ok _ _ _ _ _ _ _ _ _ issued_sound issued_ledger child_carried
    noon_back delegated_now))).
Qed.

(** The operator delegates to a brain and takes the root back: the chain of
    two is read before, and nothing after. *)
Lemma delegation_stays_within_the_chain_witness :
  delegated clock "gev_2" (example_child_v2 ["secret"]) "act_delegate" "" false noon issued_db delegated_db
  /\ grants_sound clock delegated_db.
Proof.
  destruct (delegation_stays_within_the_chain clock issued_db delegated_db delegated_db "gev_2"
    (example_child_v2 ["secret"]) "act_delegate" "" false noon issued_sound issued_ledger child_carried
    noon_back delegated_now (rtc_refl _ _)) as (H & Hs & _).
  split; [exact H|exact Hs].
Defined.

Lemma revoked_grants_carry_no_authority_witness :
  (exists chain, authorityChainTx clock "grant_2" 1 noon delegated_db = Ok (chain, delegated_db))
  /\ grants_sound clock withdrawn_db
  /\ forall v t r, authorityChainTx clock "grant_1" v t withdrawn_db <> Ok r.
Proof.
  destruct (revoked_grants_carry_no_authority clock delegated_db withdrawn_db withdrawn_db "gev_3" "grant_1"
    "act_revoke" "done" false noon delegated_sound noon_back withdrawn_now (rtc_refl _ _))
    as (Hs & _ & _ & H & _).
  split; [|split; [exact Hs|exact H]]. eexists. vm_compute. reflexivity.
Defined.
