(* ===== verification/StoreBirths.v ===== *)
(** * The ledger of approval births

    [internal/action/sqlite/authority_v2.go]: the activation that adopts the
    approvals a store already has, the signed chain of births that follows it,
    and the check that every approval row is in the chain.  A store instance
    that requires a pinned activation runs the check before every start. *)

From S2P Require Import Prelude Kernel Grants Json Text Encoding Digests Wire Struct Receipts Approvals Intents Authority Contracts Identity Tables StoreBudget StoreIdentity StoreIntents StoreGrants.
From Stdlib Require Import Ascii String.
Local Open Scope Z_scope.
Local Open Scope korvun_scope.
#[local] Arguments String.append !_ _ : simpl nomatch.

Definition authorityActivationDomain : string := "korvun.authority-activation.v1".
Definition authorityBirthDomain : string := "korvun.approval-birth.v1".
Definition authorityBirthHeadDomain : string := "korvun.approval-birth-head.v1".

(** ** Records *)

Record authorityBirthHead := {
  abh_ProfileID : string;
  abh_ActivationDigest : string;
  abh_Sequence : Z;
  abh_LastEventDigest : string
}.

Record authorityBirthEvent := {
  abe_ProfileID : string;
  abe_Sequence : Z;
  abe_ApprovalID : string;
  abe_ActionID : string;
  abe_ActionDigest : string;
  abe_StrictRequired : bool;
  abe_SnapshotDigest : string;
  abe_PreviousDigest : string
}.

Record authorityActivationRoot := {
  aar_ProfileID : string;
  aar_ManifestDigest : string;
  aar_ActorActionID : string;
  aar_Actor : string;
  aar_Reason : string;
  aar_At : string
}.

Definition birth_head_json (x : authorityBirthHead) : string :=
  print (VObject
    [("profile_id", VString x.(abh_ProfileID));
     ("activation_digest", VString x.(abh_ActivationDigest)); ("sequence", num x.(abh_Sequence));
     ("last_event_digest", VString x.(abh_LastEventDigest))]).

Definition birth_event_value (x : authorityBirthEvent) : value :=
  VObject
    [("profile_id", VString x.(abe_ProfileID)); ("sequence", num x.(abe_Sequence));
     ("approval_id", VString x.(abe_ApprovalID)); ("action_id", VString x.(abe_ActionID));
     ("action_digest", VString x.(abe_ActionDigest));
     ("strict_required", VBool x.(abe_StrictRequired));
     ("snapshot_digest", VString x.(abe_SnapshotDigest));
     ("previous_event_digest", VString x.(abe_PreviousDigest))].

Definition birth_event_json (x : authorityBirthEvent) : string := print (birth_event_value x).

Definition activation_schema : schema :=
  [("ProfileID", KString); ("ManifestDigest", KString); ("ActorActionID", KString);
   ("Actor", KString); ("Reason", KString); ("At", KString)].

Definition activation_json (x : authorityActivationRoot) : string :=
  marshal activation_schema
    [SString x.(aar_ProfileID); SString x.(aar_ManifestDigest); SString x.(aar_ActorActionID);
     SString x.(aar_Actor); SString x.(aar_Reason); SString x.(aar_At)].

Definition activation_of_json (raw : string) : option authorityActivationRoot :=
  match unmarshal activation_schema raw with
  | Some [SString a; SString b; SString c; SString d; SString e; SString f] =>
      Some {| aar_ProfileID := a; aar_ManifestDigest := b; aar_ActorActionID := c; aar_Actor := d;
              aar_Reason := e; aar_At := f |}
  | _ => None
  end.

Definition CanonicalAuthorityActivation (profileID manifestDigest reason : string) : string :=
  print (VObject [("profile_id", VString profileID); ("manifest_digest", VString manifestDigest);
                  ("reason", VString reason)]).

(** ** Tables *)

Definition change_births (f : birth_tables -> birth_tables) : Tx unit :=
  change (fun s => with_births (f s.(t_births)) s).

Definition set_birth_heads (m : gmap string birth_head_row) (t : birth_tables) : birth_tables :=
  {| birth_heads := m; birth_events := t.(birth_events) |}.
Definition set_birth_events (l : list birth_event_row) (t : birth_tables) : birth_tables :=
  {| birth_heads := t.(birth_heads); birth_events := l |}.

(** [ORDER BY approval_id] and [ORDER BY sequence]. *)
Definition by_approval : string * approval_row -> string * approval_row -> Prop := on fst String.le.
#[export] Instance by_approval_dec : RelDecision by_approval.
Proof. intros x y. unfold by_approval, on. apply _. Defined.
Definition by_sequence : birth_event_row -> birth_event_row -> Prop := on be_sequence Z.le.
#[export] Instance by_sequence_dec : RelDecision by_sequence.
Proof. intros x y. unfold by_sequence, on. apply _. Defined.

Definition approvals_in_order (t : approval_tables) : list (string * approval_row) :=
  merge_sort by_approval (map_to_list t.(approvals)).

Definition births_of (profile : string) (l : list birth_event_row) : list birth_event_row :=
  filter (fun r => r.(be_profile) = profile) l.

Definition births_in_order (profile : string) (t : birth_tables) : list birth_event_row :=
  merge_sort by_sequence (births_of profile t.(birth_events)).

(** The primary key and the unique approval. *)
Definition birth_conflict (a b : birth_event_row) : bool :=
  bool_decide (a.(be_profile) = b.(be_profile) /\ a.(be_sequence) = b.(be_sequence))
  || bool_decide (a.(be_approval) = b.(be_approval)).

Definition insertBirthTx (row : birth_event_row) : Tx unit :=
  t ← ask t_births;
  require (fail_if (existsb (birth_conflict row) t.(birth_events)) ErrConstraint);;
  change_births (fun t => set_birth_events (row :: t.(birth_events)) t).

Definition birth_row_of (event : authorityBirthEvent) (seal : AuthoritySignature) : birth_event_row :=
  {| be_profile := event.(abe_ProfileID); be_sequence := event.(abe_Sequence);
     be_approval := event.(abe_ApprovalID); be_action := event.(abe_ActionID);
     be_action_digest := event.(abe_ActionDigest);
     be_strict := if event.(abe_StrictRequired) then 1 else 0;
     be_snapshot := event.(abe_SnapshotDigest); be_previous := event.(abe_PreviousDigest);
     be_canonical := birth_event_json event; be_seal := seal |}.

(** ** The manifest of the approvals a store already has *)

Definition legacy_birth (p : string * approval_row) : authorityBirthEvent :=
  {| abe_ProfileID := ""; abe_Sequence := 0; abe_ApprovalID := p.1;
     abe_ActionID := p.2.(ar_action); abe_ActionDigest := p.2.(ar_action_digest);
     abe_StrictRequired := false; abe_SnapshotDigest := ""; abe_PreviousDigest := "" |}.

(** A nil slice is written [null]. *)
Definition manifest_digest (events : list authorityBirthEvent) : string :=
  HashCanonical (print (match events with
                        | [] => VNull
                        | _ => VArray (map birth_event_value events)
                        end)).

Definition authorityActivationManifestTx : Tx (string * list authorityBirthEvent) :=
  t ← ask t_approvals;
  let rows := approvals_in_order t in
  require (fail_if (existsb (fun p => bool_decide (p.2.(ar_strict) <> 0)) rows)
             ErrAuthorizationSnapshotCorrupt);;
  let events := map legacy_birth rows in
  mret (manifest_digest events, events).

Definition AuthorityActivationManifest : Tx string :=
  '(digest, _) ← authorityActivationManifestTx; mret digest.

Section Doors.
Context (h : Handle).

(** ** Activation *)

Definition birth_at (profileID : string) (sequence : Z) (previous : string) (e : authorityBirthEvent)
    : authorityBirthEvent :=
  {| abe_ProfileID := profileID; abe_Sequence := sequence; abe_ApprovalID := e.(abe_ApprovalID);
     abe_ActionID := e.(abe_ActionID); abe_ActionDigest := e.(abe_ActionDigest);
     abe_StrictRequired := e.(abe_StrictRequired); abe_SnapshotDigest := e.(abe_SnapshotDigest);
     abe_PreviousDigest := previous |}.

(** One event signed and stored; it answers the event's digest. *)
Definition birthTx (event : authorityBirthEvent) : Tx string :=
  seal ← signAuthorityTx h authorityBirthDomain (birth_event_json event);
  insertBirthTx (birth_row_of event seal);;
  mret seal.(as_Digest).

Fixpoint adopt (profileID : string) (sequence : Z) (last : string) (legacy : list authorityBirthEvent)
    : Tx (Z * string) :=
  match legacy with
  | [] => mret (sequence, last)
  | e :: rest =>
      digest ← birthTx (birth_at profileID (wrap64 (sequence + 1)) last e);
      adopt profileID (wrap64 (sequence + 1)) digest rest
  end.

Definition root_row (profileID actorActionID manifestDigest canonical : string) (seal : AuthoritySignature)
    : birth_event_row :=
  {| be_profile := profileID; be_sequence := 0; be_approval := "activation:" +:+ profileID;
     be_action := actorActionID; be_action_digest := manifestDigest; be_strict := 0;
     be_snapshot := "activation"; be_previous := ""; be_canonical := canonical; be_seal := seal |}.

Definition ActivateAuthority (profileID actorActionID reason : string) (at_ : time) : Tx string :=
  require (fail_if (bool_decide (profileID = "") || blank reason) ErrAuthorityMalformed);;
  t ← ask t_births;
  require (fail_if (bool_decide (is_Some (t.(birth_heads) !! profileID)))
             ErrAuthorizationSnapshotCorrupt);;
  '(manifest, legacy) ← authorityActivationManifestTx;
  actor ← validateAuthorityActorTx h actorActionID "activate"
            (CanonicalAuthorityActivation profileID manifest reason) true at_;
  let canonical := activation_json
    {| aar_ProfileID := profileID; aar_ManifestDigest := manifest; aar_ActorActionID := actorActionID;
       aar_Actor := actor; aar_Reason := reason; aar_At := rfc3339 at_ |} in
  seal ← signAuthorityTx h authorityActivationDomain canonical;
  insertBirthTx (root_row profileID actorActionID manifest canonical seal);;
  '(sequence, last) ← adopt profileID 0 seal.(as_Digest) legacy;
  let head := birth_head_json {| abh_ProfileID := profileID; abh_ActivationDigest := seal.(as_Digest);
                                 abh_Sequence := sequence; abh_LastEventDigest := last |} in
  headSeal ← signAuthorityTx h authorityBirthHeadDomain head;
  t ← ask t_births;
  require (fail_if (bool_decide (is_Some (t.(birth_heads) !! profileID))
                    || existsb (fun p => bool_decide (p.2.(bh_actor_action) = actorActionID))
                         (map_to_list t.(birth_heads))) ErrConstraint);;
  change_births (fun t => set_birth_heads (<[profileID :=
    {| bh_activation := seal.(as_Digest); bh_sequence := sequence; bh_last := last;
       bh_actor_action := actorActionID; bh_canonical := head; bh_seal := headSeal |}]>
    t.(birth_heads)) t);;
  mret seal.(as_Digest).

(** ** The check of the whole ledger *)

(** What a walk over the events has seen: the next sequence, the digest of the
    last event, and the births by approval. *)
Definition birth_walk : Type := Z * string * gmap string authorityBirthEvent.

Definition activation_root (profileID activationDigest : string) (row : birth_event_row) : Tx unit :=
  require (fail_if (bool_decide (row.(be_seal).(as_Digest) <> activationDigest)
                    || bool_decide (row.(be_approval) <> "activation:" +:+ profileID))
             ErrAuthorizationSnapshotCorrupt);;
  root ← found ErrAuthorizationSnapshotCorrupt (activation_of_json row.(be_canonical));
  require (fail_if (bool_decide (root.(aar_ProfileID) <> profileID)
                    || bool_decide (root.(aar_ManifestDigest) <> row.(be_action_digest))
                    || bool_decide (root.(aar_ActorActionID) <> row.(be_action))
                    || bool_decide (root.(aar_Actor) = "") || blank root.(aar_Reason)
                    || bool_decide (root.(aar_At) = "")
                    || bool_decide (row.(be_canonical) <> activation_json root))
             ErrAuthorizationSnapshotCorrupt);;
  activatedAt ← found ErrAuthorizationSnapshotCorrupt (h.(time_Parse) root.(aar_At));
  operator ← rename ErrAuthorizationSnapshotCorrupt (principalTx h root.(aar_Actor));
  require (fail_if (bool_decide (operator.(Registered.Kind) <> PrincipalHuman)
                    || negb (time_is_zero operator.(Registered.DisabledAt))
                       && negb (time_after operator.(Registered.DisabledAt) activatedAt))
             ErrAuthorizationSnapshotCorrupt);;
  rename ErrAuthorizationSnapshotCorrupt (verifyPrincipalProjectionTx h operator).

Definition birth_of_row (profileID : string) (row : birth_event_row) : authorityBirthEvent :=
  {| abe_ProfileID := profileID; abe_Sequence := row.(be_sequence);
     abe_ApprovalID := row.(be_approval); abe_ActionID := row.(be_action);
     abe_ActionDigest := row.(be_action_digest);
     abe_StrictRequired := bool_decide (row.(be_strict) = 1);
     abe_SnapshotDigest := row.(be_snapshot); abe_PreviousDigest := row.(be_previous) |}.

Definition birth_step (profileID activationDigest : string) (w : birth_walk) (row : birth_event_row)
    : Tx birth_walk :=
  let '(expected, previous, seen) := w in
  require (fail_if (bool_decide (row.(be_sequence) <> expected)
                    || bool_decide (row.(be_previous) <> previous)) ErrAuthorizationSnapshotCorrupt);;
  let next := (wrap64 (expected + 1), row.(be_seal).(as_Digest)) in
  if bool_decide (row.(be_sequence) = 0) then
    activation_root profileID activationDigest row;;
    seal_checks h ErrAuthorizationSnapshotCorrupt authorityActivationDomain row.(be_canonical)
      row.(be_seal);;
    mret (next, seen)
  else
    let event := birth_of_row profileID row in
    require (fail_if (bool_decide (row.(be_canonical) <> birth_event_json event))
               ErrAuthorizationSnapshotCorrupt);;
    seal_checks h ErrAuthorizationSnapshotCorrupt authorityBirthDomain row.(be_canonical) row.(be_seal);;
    mret (next, <[row.(be_approval) := event]> seen).

Fixpoint walk_births (profileID activationDigest : string) (w : birth_walk) (l : list birth_event_row)
    : Tx birth_walk :=
  match l with
  | [] => mret w
  | row :: rest => w' ← birth_step profileID activationDigest w row;
                   walk_births profileID activationDigest w' rest
  end.

(** One approval against the births. *)
Definition approval_born (seen : gmap string authorityBirthEvent) (z : authz_tables)
    (p : string * approval_row) : bool :=
  match seen !! p.1 with
  | None => false
  | Some event =>
      bool_decide (event.(abe_ActionID) = p.2.(ar_action))
      && bool_decide (event.(abe_ActionDigest) = p.2.(ar_action_digest))
      && Bool.eqb event.(abe_StrictRequired) (bool_decide (p.2.(ar_strict) = 1))
      && if bool_decide (p.2.(ar_strict) = 1) then
           IsStrictApprovalID p.1
           && match z.(snapshots) !! p.2.(ar_action) with
              | Some row => bool_decide (row.(ss_approval) = p.1)
                            && bool_decide (row.(ss_digest) = event.(abe_SnapshotDigest))
              | None => false
              end
         else String.prefix "apr_" p.1 && bool_decide (event.(abe_SnapshotDigest) = "")
  end.

Definition verifyAuthorityActivationTx (profileID activationDigest : string) : Tx unit :=
  t ← ask t_births;
  head ← found ErrAuthorizationSnapshotCorrupt (t.(birth_heads) !! profileID);
  let stored := {| abh_ProfileID := profileID; abh_ActivationDigest := head.(bh_activation);
                   abh_Sequence := head.(bh_sequence); abh_LastEventDigest := head.(bh_last) |} in
  require (fail_if (bool_decide (head.(bh_activation) <> activationDigest)
                    || bool_decide (head.(bh_canonical) <> birth_head_json stored))
             ErrAuthorizationSnapshotCorrupt);;
  seal_checks h ErrAuthorizationSnapshotCorrupt authorityBirthHeadDomain head.(bh_canonical)
    head.(bh_seal);;
  '((expected, previous), seen) ← walk_births profileID activationDigest (0, "", ∅)
     (births_in_order profileID t);
  require (fail_if (bool_decide (wrap64 (expected - 1) <> head.(bh_sequence))
                    || bool_decide (previous <> head.(bh_last))) ErrAuthorizationSnapshotCorrupt);;
  a ← ask t_approvals;
  z ← ask t_authz;
  require (fail_if (negb (forallb (approval_born seen z) (map_to_list a.(approvals))))
             ErrAuthorizationSnapshotCorrupt).

(** ** The birth of a strict approval *)

Definition appendApprovalBirthTx (approval : Approval.t) (snapshotDigest : string) : Tx unit :=
  if bool_decide (h.(authorityActivationDigest) = "") then mret tt
  else
    let profileID := h.(authorityProfileID) in
    verifyAuthorityActivationTx profileID h.(authorityActivationDigest);;
    t ← ask t_births;
    head ← found ErrAuthorizationSnapshotCorrupt (t.(birth_heads) !! profileID);
    let sequence := wrap64 (head.(bh_sequence) + 1) in
    digest ← birthTx
      {| abe_ProfileID := profileID; abe_Sequence := sequence;
         abe_ApprovalID := approval.(Approval.ApprovalID);
         abe_ActionID := approval.(Approval.ActionID);
         abe_ActionDigest := approval.(Approval.ActionDigest); abe_StrictRequired := true;
         abe_SnapshotDigest := snapshotDigest; abe_PreviousDigest := head.(bh_last) |};
    let canonical := birth_head_json
      {| abh_ProfileID := profileID; abh_ActivationDigest := h.(authorityActivationDigest);
         abh_Sequence := sequence; abh_LastEventDigest := digest |} in
    seal ← signAuthorityTx h authorityBirthHeadDomain canonical;
    change_births (fun t => set_birth_heads
      (alter (fun row => {| bh_activation := row.(bh_activation); bh_sequence := sequence;
                            bh_last := digest; bh_actor_action := row.(bh_actor_action);
                            bh_canonical := canonical; bh_seal := seal |}) profileID
         t.(birth_heads)) t).

End Doors.

(** ** Lemmas: seals *)

Lemma sealed_at h s domain canonical seal :
  sealed h s.(signing_keys) domain canonical seal <->
  exists pub, registered s.(signing_keys) seal.(as_SigningKeyID) pub
    /\ VerifyAuthorityBytes h.(Ed25519_Verify) pub domain canonical seal = None.
Proof.
  split.
  - intros (key & b & Hk & Hb & Hl & Hv). exists b. split; [by exists key|done].
  - intros (pub & (key & Hk & Hb & Hl) & Hv). by exists key, pub.
Qed.

Lemma seal_checks_Ok h e domain canonical seal s s' :
  seal_checks h e domain canonical seal s = Ok (tt, s') <->
  s' = s /\ sealed h s.(signing_keys) domain canonical seal.
Proof.
  split.
  - intros H. pose proof (reads _ _ _ H) as ->. split; [done|]. apply sealed_at. unfold seal_checks in H.
    destruct (publicKeyTx _ s) as [[[pub retired] s1]|] eqn:E; [|done].
    apply publicKeyTx_Ok in E as [-> Hr]. exists pub. split; [done|].
    by destruct (VerifyAuthorityBytes _ _ _ _ _).
  - intros [-> H]. by apply seal_checks_sealed.
Qed.
