(* ===== verification/StoreConfig.v ===== *)
(** * Config clauses in the store

    [internal/action/sqlite/config_authority.go]: the signed generations of the
    clauses a brain's configuration grants it, their head, and the clause a
    start reads. *)

From S2P Require Import Prelude Kernel Grants Json Text Encoding Digests Wire Struct Receipts Intents Authority Contracts Identity Tables StoreBudget StoreIdentity StoreIntents StoreGrants StoreBirths.
From Stdlib Require Import Ascii String.
Local Open Scope Z_scope.
Local Open Scope korvun_scope.
#[local] Arguments String.append !_ _ : simpl nomatch.

Definition configAuthorityClauseDomain : string := "korvun.config-authority-clause.v1".
Definition configAuthorityHeadDomain : string := "korvun.config-authority-head.v1".

Definition ErrAuthorityAmbiguous : error := ErrorNew "action/sqlite: authority ambiguous".

Record configAuthorityHead := {
  cah_ProfileID : string;
  cah_BrainPrincipal : string;
  cah_Generation : Z;
  cah_ClauseSet : string;
  cah_ClauseIDs : slice string
}.

Definition config_head_wire : gotype := TStruct
  [("profile_id", TString); ("brain_principal_id", TString); ("generation", TInt);
   ("clause_set_digest", TString); ("clause_ids", TSlice TString)].

Definition config_head_go (x : configAuthorityHead) : goval :=
  GStruct [GString x.(cah_ProfileID); GString x.(cah_BrainPrincipal); GInt x.(cah_Generation);
           GString x.(cah_ClauseSet); slice_go GString x.(cah_ClauseIDs)].

Definition config_head_json (x : configAuthorityHead) : string :=
  print (marshal_go config_head_wire (config_head_go x)).

(** The stored text must be what the value is written as again, so a member
    [json.Unmarshal] would skip is refused here and there alike. *)
Definition config_head_of_json (raw : string) : option configAuthorityHead :=
  match strictJSON config_head_wire raw with
  | Some (GStruct [GString a; GString b; GInt c; GString d; ids]) =>
      ids ← slice_of string_of ids;
      Some {| cah_ProfileID := a; cah_BrainPrincipal := b; cah_Generation := c; cah_ClauseSet := d;
              cah_ClauseIDs := ids |}
  | _ => None
  end.

Definition clause_wire : gotype := TStruct
  [("schema_version", TInt); ("profile_id", TString); ("brain_principal_id", TString);
   ("tool_name", TString); ("channels", TSlice TString); ("cage_digest", TString)].

Definition clause_of_json (clauseID raw : string) : option ConfigAuthorityClause.t :=
  match strictJSON clause_wire raw with
  | Some (GStruct [GInt a; GString b; GString c; GString d; channels; GString e]) =>
      channels ← slice_of string_of channels;
      Some {| ConfigAuthorityClause.ClauseID := clauseID; ConfigAuthorityClause.SchemaVersion := a;
              ConfigAuthorityClause.ProfileID := b; ConfigAuthorityClause.BrainPrincipal := c;
              ConfigAuthorityClause.ToolName := d; ConfigAuthorityClause.Channels := channels;
              ConfigAuthorityClause.CageDigest := e |}
  | _ => None
  end.

(** ** Tables *)

Definition change_config (f : config_tables -> config_tables) : Tx unit :=
  change (fun s => with_config (f s.(t_config)) s).

Definition set_clause_rows (m : gmap (string * string * Z * string) clause_row) (t : config_tables)
    : config_tables := {| clause_rows := m; config_heads := t.(config_heads) |}.
Definition set_config_heads (m : gmap (string * string) config_head_row) (t : config_tables)
    : config_tables := {| clause_rows := t.(clause_rows); config_heads := m |}.

(** [ORDER BY clause_id], of the rows and of the clauses. *)
Definition by_clause_id : string * clause_row -> string * clause_row -> Prop := on fst String.le.
#[export] Instance by_clause_id_dec : RelDecision by_clause_id.
Proof. intros x y. unfold by_clause_id, on. apply _. Defined.
Definition clause_le : ConfigAuthorityClause.t -> ConfigAuthorityClause.t -> Prop :=
  on ConfigAuthorityClause.ClauseID String.le.
#[export] Instance clause_le_dec : RelDecision clause_le.
Proof. intros x y. unfold clause_le, on. apply _. Defined.

Definition clauses_of (profile brain : string) (generation : Z) (t : config_tables)
    : list (string * clause_row) :=
  merge_sort by_clause_id (omap (fun p =>
    let '(prof, br, g, id) := p.1 in
    if bool_decide (prof = profile /\ br = brain /\ g = generation) then Some (id, p.2) else None)
    (map_to_list t.(clause_rows))).

Definition ids_digest (ids : list string) : string :=
  HashCanonical (print (VArray (map VString ids))).

Definition configAccountScope (brainPrincipal toolName : string) : string :=
  brainPrincipal +:+ String (byte 0) toolName.

Definition unlimited : IntentBudgetV2.t :=
  {| IntentBudgetV2.Total := None; IntentBudgetV2.PerOperation := None |}.

(** ** The activations a store carries *)

Record ActivatedAuthority := { aa_ProfileID : string; aa_ActivationDigest : string }.

Definition by_profile : string * birth_head_row -> string * birth_head_row -> Prop := on fst String.le.
#[export] Instance by_profile_dec : RelDecision by_profile.
Proof. intros x y. unfold by_profile, on. apply _. Defined.

Definition ActivatedAuthorityRoots : Tx (list ActivatedAuthority) :=
  t ← ask t_births;
  mret (map (fun p => {| aa_ProfileID := p.1; aa_ActivationDigest := p.2.(bh_activation) |})
         (merge_sort by_profile (map_to_list t.(birth_heads)))).

Section Doors.
Context (h : Handle).

Definition ActivatedAuthorityProfile : string := h.(authorityProfileID).

(** ** Reading the current clauses *)

Definition readClauseTx (p : string * clause_row) : Tx ConfigAuthorityClause.t :=
  clause ← found ErrAuthorityEvidenceCorrupt (clause_of_json p.1 p.2.(cs_canonical));
  require (fail_if (bool_decide (ClauseValidate clause <> None)
                    || bool_decide (p.2.(cs_seal).(as_Digest) <> ConfigAuthorityClause_Digest clause)
                    || bool_decide (p.2.(cs_canonical) <> ClauseCanonicalBytes clause))
             ErrAuthorityEvidenceCorrupt);;
  seal_checks h ErrAuthorityEvidenceCorrupt configAuthorityClauseDomain p.2.(cs_canonical) p.2.(cs_seal);;
  mret clause.

Fixpoint read_clauses (l : list (string * clause_row)) : Tx (list ConfigAuthorityClause.t) :=
  match l with
  | [] => mret []
  | p :: rest => clause ← readClauseTx p; clauses ← read_clauses rest; mret (clause :: clauses)
  end.

Definition configAuthorityClausesTx (profileID brainPrincipal : string)
    : Tx (list ConfigAuthorityClause.t) :=
  t ← ask t_config;
  row ← found ErrAuthorityMissing (t.(config_heads) !! (profileID, brainPrincipal));
  head ← found ErrAuthorityEvidenceCorrupt (config_head_of_json row.(ch_canonical));
  require (fail_if (bool_decide (head.(cah_ProfileID) <> profileID)
                    || bool_decide (head.(cah_BrainPrincipal) <> brainPrincipal)
                    || bool_decide (head.(cah_Generation) <> row.(ch_generation))
                    || bool_decide (head.(cah_ClauseSet) <> row.(ch_clauses))
                    || bool_decide (row.(ch_canonical) <> config_head_json head))
             ErrAuthorityEvidenceCorrupt);;
  seal_checks h ErrAuthorityEvidenceCorrupt configAuthorityHeadDomain row.(ch_canonical) row.(ch_seal);;
  let rows := clauses_of profileID brainPrincipal row.(ch_generation) t in
  clauses ← read_clauses rows;
  require (fail_if (bool_decide (rows.*1 <> elems head.(cah_ClauseIDs))
                    || bool_decide (ids_digest rows.*1 <> row.(ch_clauses)))
             ErrAuthorityEvidenceCorrupt);;
  mret clauses.

Definition configAuthorityClauseTx (profileID brainPrincipal toolName channel : string)
    : Tx ConfigAuthorityClause.t :=
  clauses ← configAuthorityClausesTx profileID brainPrincipal;
  match filter (fun c => c.(ConfigAuthorityClause.ToolName) = toolName
                  /\ containsAuthorityString (elems c.(ConfigAuthorityClause.Channels)) channel = true)
          clauses with
  | [] => raise ErrAuthorityMissing
  | [clause] => mret clause
  | _ => raise ErrAuthorityAmbiguous
  end.

(** ** Writing a generation *)

Definition sync_clause_ok (profileID brainPrincipal : string) (clause : ConfigAuthorityClause.t)
    (seen : gset string) : result (gset string) :=
  if bool_decide (ClauseValidate clause <> None)
     || bool_decide (clause.(ConfigAuthorityClause.ProfileID) <> profileID)
     || bool_decide (clause.(ConfigAuthorityClause.BrainPrincipal) <> brainPrincipal)
     || bool_decide (clause.(ConfigAuthorityClause.ToolName) ∈ seen)
  then Err ErrAuthorityMalformed
  else Ok ({[clause.(ConfigAuthorityClause.ToolName)]} ∪ seen).

Definition insertClauseTx (profileID brainPrincipal : string) (generation : Z) (at_ : time)
    (clause : ConfigAuthorityClause.t) : Tx unit :=
  let canonical := ClauseCanonicalBytes clause in
  let key := (profileID, brainPrincipal, generation, clause.(ConfigAuthorityClause.ClauseID)) in
  seal ← signAuthorityTx h configAuthorityClauseDomain canonical;
  t ← ask t_config;
  require (fail_if (bool_decide (is_Some (t.(clause_rows) !! key))) ErrConstraint);;
  change_config (fun t => set_clause_rows
    (<[key := {| cs_canonical := canonical; cs_seal := seal |}]> t.(clause_rows)) t);;
  ensureBudgetAccountTx profileID "config"
    (configAccountScope brainPrincipal clause.(ConfigAuthorityClause.ToolName)) unlimited at_.

Definition writeGenerationTx (profileID brainPrincipal : string) (generation : Z)
    (ordered : list ConfigAuthorityClause.t) (at_ : time) : Tx Z :=
  let ids := map ConfigAuthorityClause.ClauseID ordered in
  for_all (insertClauseTx profileID brainPrincipal generation at_) ordered;;
  let canonical := config_head_json
    {| cah_ProfileID := profileID; cah_BrainPrincipal := brainPrincipal; cah_Generation := generation;
       cah_ClauseSet := ids_digest ids; cah_ClauseIDs := Some ids |} in
  seal ← signAuthorityTx h configAuthorityHeadDomain canonical;
  change_config (fun t => set_config_heads (<[(profileID, brainPrincipal) :=
    {| ch_generation := generation; ch_clauses := ids_digest ids; ch_canonical := canonical;
       ch_seal := seal |}]> t.(config_heads)) t);;
  mret generation.

Definition SyncConfigAuthorityClauses (profileID brainPrincipal : string)
    (clauses : list ConfigAuthorityClause.t) (at_ : time) : Tx Z :=
  require (fail_if (bool_decide (profileID = "") || bool_decide (brainPrincipal = "")
                    || bool_decide (h.(authorityActivationDigest) = "")
                    || bool_decide (h.(authorityProfileID) <> profileID)) ErrAuthorityEvidenceCorrupt);;
  let ordered := merge_sort clause_le clauses in
  _ ← lift (each (sync_clause_ok profileID brainPrincipal) ordered ∅);
  verifyAuthorityActivationTx h profileID h.(authorityActivationDigest);;
  t ← ask t_config;
  match t.(config_heads) !! (profileID, brainPrincipal) with
  | None => writeGenerationTx profileID brainPrincipal 1 ordered at_
  | Some row =>
      _ ← configAuthorityClausesTx profileID brainPrincipal;
      if bool_decide (row.(ch_clauses) = ids_digest (map ConfigAuthorityClause.ClauseID ordered))
      then mret row.(ch_generation)
      else writeGenerationTx profileID brainPrincipal (wrap64 (row.(ch_generation) + 1)) ordered at_
  end.

End Doors.

(** ** What the reader answers *)

(** A stored clause: its bytes say it, it is valid, and they are sealed. *)
Record clause_stored (h : Handle) (keys : gmap string SigningKey) (p : string * clause_row)
    (c : ConfigAuthorityClause.t) : Prop := {
  cl_parsed : clause_of_json p.1 p.2.(cs_canonical) = Some c;
  cl_valid : ClauseValidate c = None;
  cl_bytes : p.2.(cs_canonical) = ClauseCanonicalBytes c;
  cl_sealed : sealed h keys configAuthorityClauseDomain p.2.(cs_canonical) p.2.(cs_seal)
}.

#[export] Instance readClauseTx_reads h p : Reads (readClauseTx h p).
Proof. unfold readClauseTx. solve_reads. Qed.
#[export] Instance read_clauses_reads h l : Reads (read_clauses h l).
Proof. induction l as [|p l IH]; cbn [read_clauses]; solve_reads. Qed.
#[export] Instance configAuthorityClausesTx_reads h profile brain :
  Reads (configAuthorityClausesTx h profile brain).
Proof. unfold configAuthorityClausesTx. solve_reads. Qed.
#[export] Instance configAuthorityClauseTx_reads h profile brain tool channel :
  Reads (configAuthorityClauseTx h profile brain tool channel).
Proof. unfold configAuthorityClauseTx. solve_reads. Qed.

Lemma sealed_digest h keys domain canonical seal : sealed h keys domain canonical seal ->
  seal.(as_Digest) = digestAuthorityBytes canonical.
Proof. intros (key & b & _ & _ & _ & Hv). by eapply VerifyAuthorityBytes_digest. Qed.

Lemma readClauseTx_Ok h p c s s' : readClauseTx h p s = Ok (c, s') <->
  s' = s /\ clause_stored h s.(signing_keys) p c.
Proof.
  split.
  - intros H. pose proof (reads _ _ _ H) as ->. split; [done|]. unfold readClauseTx in H.
    tx_next H E1. tx_next H E2. tx_door H E3. apply seal_checks_Ok in E3 as [-> E3].
    apply tx_ret_Ok in H as [= ->]. passed. done.
  - intros [-> [H1 H2 H3 H4]]. unfold readClauseTx. tx_run; [|done]. tx_run.
    2:{ rewrite H2, (sealed_digest _ _ _ _ _ H4), H3. unfold ConfigAuthorityClause_Digest.
        by rewrite !bool_decide_eq_false_2 by tauto. }
    erewrite bind_at; [|apply seal_checks_Ok; by split]. done.
Qed.

Lemma read_clauses_Ok h l cs s s' : read_clauses h l s = Ok (cs, s') <->
  s' = s /\ Forall2 (clause_stored h s.(signing_keys)) l cs.
Proof.
  revert cs s'. induction l as [|p l IH]; intros cs s'; cbn [read_clauses].
  - rewrite tx_ret_Ok. split; [by intros [= -> ->]|]. intros [-> H]. by inversion H; subst.
  - split.
    + intros H. apply tx_bind_Ok in H as (c & s1 & E1 & H). apply readClauseTx_Ok in E1 as [-> E1].
      apply tx_bind_Ok in H as (cs' & s1 & E2 & H). apply IH in E2 as [-> E2].
      apply tx_ret_Ok in H as [= -> ->]. split; [done|]. by constructor.
    + intros [-> H]. inversion H as [|? c ? cs' Hc Hcs]; subst.
      erewrite bind_at; [|by apply readClauseTx_Ok]. erewrite bind_at; [|by apply IH]. done.
Qed.

(** The current generation of a brain: a sealed head that names exactly the
    rows stored under it, every one a clause. *)
Record config_current (h : Handle) (s : db) (profile brain : string) (row : config_head_row)
    (clauses : list ConfigAuthorityClause.t) : Prop := {
  cc_head : s.(t_config).(config_heads) !! (profile, brain) = Some row;
  cc_terms : exists ids, elems ids = (clauses_of profile brain row.(ch_generation) s.(t_config)).*1
    /\ let head := {| cah_ProfileID := profile; cah_BrainPrincipal := brain;
                      cah_Generation := row.(ch_generation); cah_ClauseSet := row.(ch_clauses);
                      cah_ClauseIDs := ids |} in
       row.(ch_canonical) = config_head_json head
       /\ config_head_of_json row.(ch_canonical) = Some head;
  cc_set : ids_digest (clauses_of profile brain row.(ch_generation) s.(t_config)).*1 = row.(ch_clauses);
  cc_sealed : sealed h s.(signing_keys) configAuthorityHeadDomain row.(ch_canonical) row.(ch_seal);
  cc_rows : Forall2 (clause_stored h s.(signing_keys))
    (clauses_of profile brain row.(ch_generation) s.(t_config)) clauses
}.

Lemma configAuthorityClausesTx_Ok h profile brain clauses s s' :
  configAuthorityClausesTx h profile brain s = Ok (clauses, s') <->
  s' = s /\ exists row, config_current h s profile brain row clauses.
Proof.
  split.
  - intros H. pose proof (reads _ _ _ H) as ->. split; [done|]. unfold configAuthorityClausesTx in H.
    tx_next H E0. tx_next H E1. tx_next H E2. tx_next H E3. tx_door H E4.
    apply seal_checks_Ok in E4 as [-> E4]. cbv zeta in H.
    apply tx_bind_Ok in H as (cs & s1 & E5 & H). apply read_clauses_Ok in E5 as [-> E5].
    tx_next H E6. apply tx_ret_Ok in H as [= ->]. passed. destruct x0 as [p b g set ids].
    cbn [cah_ProfileID cah_BrainPrincipal cah_Generation cah_ClauseSet cah_ClauseIDs] in *. subst.
    eexists. split; [done| |done|done|done]. exists ids. split; [done|]. by split.
  - intros (-> & row & [Hh (ids & Hids & Hc & Hp) Hs Hsl Hr]). unfold configAuthorityClausesTx.
    tx_run. tx_run; [|done]. tx_run; [|done]. tx_run.
    2:{ cbn [cah_ProfileID cah_BrainPrincipal cah_Generation cah_ClauseSet cah_ClauseIDs].
        by rewrite <- Hc, !bool_decide_eq_false_2 by tauto. }
    erewrite bind_at; [|apply seal_checks_Ok; by split]. cbn beta. cbv zeta.
    erewrite bind_at; [|by apply read_clauses_Ok]. cbn beta.
    tx_run; [done|]. cbn [cah_ClauseIDs]. by rewrite Hs, Hids, !bool_decide_eq_false_2 by tauto.
Qed.

(** The one clause of a brain that covers a tool on a channel. *)
Definition covers (tool channel : string) (c : ConfigAuthorityClause.t) : Prop :=
  c.(ConfigAuthorityClause.ToolName) = tool
  /\ containsAuthorityString (elems c.(ConfigAuthorityClause.Channels)) channel = true.

#[export] Instance covers_dec tool channel c : Decision (covers tool channel c).
Proof. unfold covers. apply _. Defined.

Lemma configAuthorityClauseTx_Ok h profile brain tool channel c s s' :
  configAuthorityClauseTx h profile brain tool channel s = Ok (c, s') <->
  s' = s /\ exists row clauses, config_current h s profile brain row clauses
    /\ filter (covers tool channel) clauses = [c].
Proof.
  split.
  - intros H. pose proof (reads _ _ _ H) as ->. split; [done|]. unfold configAuthorityClauseTx in H.
    apply tx_bind_Ok in H as (clauses & s1 & E & H). apply configAuthorityClausesTx_Ok in E as (-> & row & E).
    exists row, clauses. split; [done|].
    change (filter (covers tool channel) clauses) with (filter (fun c => c.(ConfigAuthorityClause.ToolName) = tool
      /\ containsAuthorityString (elems c.(ConfigAuthorityClause.Channels)) channel = true) clauses).
    destruct (filter _ clauses) as [|c1 [|c2 l]]; [by apply raise_Ok in H| |by apply raise_Ok in H].
    by apply tx_ret_Ok in H as [= ->].
  - intros (-> & row & clauses & E & Hf). unfold configAuthorityClauseTx.
    erewrite bind_at; [|apply configAuthorityClausesTx_Ok; split; [done|by exists row]]. cbn beta.
    change (filter (fun c => c.(ConfigAuthorityClause.ToolName) = tool
      /\ containsAuthorityString (elems c.(ConfigAuthorityClause.Channels)) channel = true) clauses)
      with (filter (covers tool channel) clauses). by rewrite Hf.
Qed.
