(* ===== verification/StoreStart.v ===== *)
(** * Starts in the store

    [internal/action/sqlite/authority_v2.go]: the authority a request resolves
    to, the park of a request that waits for an approval, the start that debits
    every account of the authority once, the signed snapshot and start record,
    and the check of the stored starts.  The identities drawn for new rows are
    arguments; the crash probes of the tests are left out. *)

From S2P Require Import Prelude Kernel Grants Json Text Encoding Digests Wire Struct Receipts Approvals Intents Authority Contracts Identity Snapshots Tables StoreBudget StoreIdentity StoreIntents StoreGrants StoreBirths StoreConfig.
From Stdlib Require Import Ascii String.
Import Effect Lifecycle.
Local Open Scope Z_scope.
Local Open Scope korvun_scope.
#[local] Arguments String.append !_ _ : simpl nomatch.

Definition authorityStartDomain : string := "korvun.authorization-start.v1".

Definition ErrAuthorityApprovalRequired : error :=
  ErrorNew "action/sqlite: authority approval required".
Definition ErrActionAlreadyStarted : error := ErrorNew "action/sqlite: action already started".
Definition ErrParamsTooLong : error := ErrorNew "action/sqlite: params exceed the cap".

(** ** Requests and answers *)

(** The final facts of a start.  [ResolveEvidence] mints the identity evidence
    of an action; [None] is a nil function. *)
Module AuthorityStartRequest.

Record t := {
  ActorPrincipalID : string;
  CorrelationID : string;
  SourceProtocol : string;
  Channel : string;
  ConversationID : string;
  Operation : Operation.t;
  Arguments : string;
  EffectClass : EffectClass;
  At : time;
  ApprovalID : string;
  PolicyVersion : Z;
  PolicyDigest : string;
  ResolveEvidence : option (string -> result Evidence.t)
}.

End AuthorityStartRequest.

Record AuthorityStartResult := {
  asr_ActionID : string;
  asr_IntentID : string;
  asr_AuthorityRefs : list string;
  asr_RemainingBefore : option Z;
  asr_Evidence : Evidence.t
}.

Module AuthorityPendingRequest.

Record t := {
  ActorPrincipalID : string;
  CorrelationID : string;
  SourceProtocol : string;
  Channel : string;
  ConversationID : string;
  Operation : Operation.t;
  Arguments : string;
  EffectClass : EffectClass;
  At : time;
  ApprovalContext : ApprovalContext.t;
  ResolveEvidence : option (string -> result Evidence.t)
}.

End AuthorityPendingRequest.

Record AuthorityPendingResult := {
  apr_ActionID : string;
  apr_ApprovalID : string;
  apr_IntentID : string;
  apr_AuthorityRefs : list string;
  apr_Evidence : Evidence.t
}.

Record resolvedAuthority := {
  ra_intent : IntentContractV2.t;
  ra_chain : list storedGrantV2;
  ra_refs : list string;
  ra_principals : list string;
  ra_accounts : list string;
  ra_operation : string;
  ra_generation : Z;
  ra_remaining : option Z
}.

(** ** The binding *)

Record bindingAuthority := {
  ba_IntentID : string;
  ba_IntentVersion : Z;
  ba_IntentDigest : string;
  ba_GrantID : string;
  ba_GrantVersion : Z;
  ba_GrantDigest : string
}.

Definition binding_of_row (r : binding_row) : bindingAuthority :=
  {| ba_IntentID := r.(eb_intent); ba_IntentVersion := r.(eb_intent_version);
     ba_IntentDigest := r.(eb_intent_digest); ba_GrantID := default "" r.(eb_grant);
     ba_GrantVersion := default 0 r.(eb_grant_version);
     ba_GrantDigest := default "" r.(eb_grant_digest) |}.

(** The grant columns are all empty or all there. *)
Definition binding_shaped (b : bindingAuthority) : bool :=
  bool_decide (b.(ba_GrantID) = "" /\ b.(ba_GrantVersion) = 0 /\ b.(ba_GrantDigest) = "")
  || bool_decide (b.(ba_GrantID) <> "") && (0 <? b.(ba_GrantVersion))
     && bool_decide (b.(ba_GrantDigest) <> "").

Definition bindingAuthorityTx (actor channel conversation : string) : Tx bindingAuthority :=
  t ← ask t_intents;
  row ← found ErrAuthorityMissing (head (selected actor channel conversation t.(bindings)));
  let b := binding_of_row row in
  require (fail_if (negb (binding_shaped b)) ErrAuthorityEvidenceCorrupt);;
  mret b.

(** ** Resolving the authority of a request *)

Definition operation_ref (op : Operation.t) : OperationRef.t :=
  {| OperationRef.Namespace := op.(Operation.Namespace); OperationRef.Name := op.(Operation.Name);
     OperationRef.Version := op.(Operation.Version) |}.

(** [append] unless the last one is the same. *)
Definition extend (l : list string) (x : string) : list string :=
  if bool_decide (last l = Some x) then l else l ++ [x].

Definition chain_principals (start : list string) (chain : list AuthorityGrantV2.t) : list string :=
  fold_left (fun l g => extend (extend l g.(AuthorityGrantV2.IssuerPrincipalID))
                          g.(AuthorityGrantV2.SubjectPrincipalID)) chain start.

Definition grant_account (g : AuthorityGrantV2.t) : string :=
  budgetAccountID g.(AuthorityGrantV2.ProfileID) "grant" g.(AuthorityGrantV2.GrantID).

Section Doors.
Context (h : Handle).

(** One grant of the chain: its account, its terms, its approval. *)
Definition grant_admits (op : OperationRef.t) (channel : string) (effect : EffectClass)
    (approved : bool) (at_ : time) (g : AuthorityGrantV2.t) : Tx unit :=
  ensureBudgetAccountTx g.(AuthorityGrantV2.ProfileID) "grant" g.(AuthorityGrantV2.GrantID)
    g.(AuthorityGrantV2.Budget) at_;;
  require (fail_if (negb (operationSubsetSQLite [op] (elems g.(AuthorityGrantV2.Operations)))
                    || negb (containsAuthorityString (elems g.(AuthorityGrantV2.Channels)) channel)
                    || negb (containsAuthorityEffect (elems g.(AuthorityGrantV2.EffectClasses)) effect)
                    || bool_decide (g.(AuthorityGrantV2.EffectCeiling) <> "")
                       && (Rank g.(AuthorityGrantV2.EffectCeiling) <? Rank effect))
             ErrAttenuationViolated);;
  require (fail_if (g.(AuthorityGrantV2.Approval).(ApprovalRequirementV2.Required) && negb approved)
             ErrAuthorityApprovalRequired).

(** A grant that is not there is a missing authority. *)
Definition missing_authority {A} (m : Tx A) : Tx A :=
  fun s => match m s with
           | Ok r => Ok r
           | Err e => Err (if error_is "sql: no rows in result set" e then ErrAuthorityMissing else e)
           end.

Definition grantOriginTx (first : AuthorityGrantV2.t) : Tx (list string) :=
  '(actor, administrative) ← grantOriginActorTx first.(AuthorityGrantV2.GrantID)
                               first.(AuthorityGrantV2.Version);
  mret (if (administrative : bool) then [actor] else []).

(** A binding to a signed grant: its chain, refs, principals and accounts. *)
Definition resolve_chain (b : bindingAuthority) (intent : IntentContractV2.t) (actor channel : string)
    (op : OperationRef.t) (effect : EffectClass) (approved : bool) (at_ : time)
    : Tx (list storedGrantV2 * list string) :=
  chain ← missing_authority (authorityChainTx h b.(ba_GrantID) b.(ba_GrantVersion) at_);
  leaf ← leaf_of chain;
  require (fail_if (bool_decide (AuthorityGrantV2_Digest (grant_of_stored leaf) <> b.(ba_GrantDigest)))
             ErrAuthorityEvidenceCorrupt);;
  require (validateStoredAuthorityChain h (map grant_of_stored chain) intent);;
  first ← found ErrAuthorityEvidenceCorrupt (head (map grant_of_stored chain));
  origin ← grantOriginTx first;
  for_all (grant_admits op channel effect approved at_) (map grant_of_stored chain);;
  require (fail_if (bool_decide ((grant_of_stored leaf).(AuthorityGrantV2.SubjectPrincipalID) <> actor))
             ErrIssuerMismatch);;
  mret (chain, chain_principals origin (map grant_of_stored chain)).

(** A binding to no grant: the clause of the brain's configuration. *)
Definition resolve_clause (intent : IntentContractV2.t) (actor channel : string) (op : Operation.t)
    (at_ : time) : Tx (ConfigAuthorityClause.t * Z) :=
  require (fail_if (bool_decide (h.(authorityActivationDigest) = "")
                    || bool_decide (op.(Operation.Namespace) <> "tool")) ErrAuthorityMissing);;
  clause ← configAuthorityClauseTx h intent.(IntentContractV2.ProfileID) actor op.(Operation.Name) channel;
  t ← ask t_config;
  row ← found ErrAuthorityEvidenceCorrupt (t.(config_heads) !! (intent.(IntentContractV2.ProfileID), actor));
  ensureBudgetAccountTx intent.(IntentContractV2.ProfileID) "config"
    (configAccountScope actor op.(Operation.Name)) unlimited at_;;
  mret (clause, row.(ch_generation)).

(** The least of what the accounts have left. *)
Fixpoint least_remaining (operation : string) (least : option Z) (ids : list string) : Tx (option Z) :=
  match ids with
  | [] => mret least
  | account :: rest =>
      remaining ← remainingBeforeAccountTx h account operation;
      least_remaining operation (min_remaining least remaining) rest
  end.

(** The accounts that pay, the intent's first. *)
Definition intent_account (intent : IntentContractV2.t) : string :=
  budgetAccountID intent.(IntentContractV2.ProfileID) "intent" intent.(IntentContractV2.IntentID).

Definition clause_account (intent : IntentContractV2.t) (actor : string) (op : Operation.t) : string :=
  budgetAccountID intent.(IntentContractV2.ProfileID) "config"
    (configAccountScope actor op.(Operation.Name)).

Definition resolveAuthorityTx (actor channel conversation : string) (operation : Operation.t)
    (arguments : string) (effect : EffectClass) (at_ : time) (approved : bool) : Tx resolvedAuthority :=
  b ← bindingAuthorityTx actor channel conversation;
  intent ← activeIntentTx h b.(ba_IntentID) b.(ba_IntentVersion) b.(ba_IntentDigest) at_;
  verifies_activation h (verifyAuthorityActivationTx h h.(authorityProfileID)
                           h.(authorityActivationDigest)) intent.(IntentContractV2.ProfileID);;
  let op := operation_ref operation in
  require (fail_if (negb (operationSubsetSQLite [op] (elems intent.(IntentContractV2.Operations)))
                    || negb (containsAuthorityEffect (elems intent.(IntentContractV2.EffectClasses)) effect))
             ErrAttenuationViolated);;
  require (fail_if (intent.(IntentContractV2.Approval).(ApprovalRequirementV2.Required) && negb approved)
             ErrAuthorityApprovalRequired);;
  ensureBudgetAccountTx intent.(IntentContractV2.ProfileID) "intent" intent.(IntentContractV2.IntentID)
    intent.(IntentContractV2.Budget) at_;;
  '(chain, refs, principals, accounts, generation) ←
    (if bool_decide (b.(ba_GrantID) = "") then
       '(clause, generation) ← resolve_clause intent actor channel operation at_;
       mret ([], [clause.(ConfigAuthorityClause.ClauseID)],
             [intent.(IntentContractV2.OwnerPrincipalID); actor],
             [intent_account intent; clause_account intent actor operation], generation)
     else
       '(chain, principals) ← resolve_chain b intent actor channel op effect approved at_;
       mret (chain, map (fun g => (grant_of_stored g).(AuthorityGrantV2.GrantID)) chain, principals,
             intent_account intent :: map (fun g => grant_account (grant_of_stored g)) chain, 0));
  require (validateAuthorityActualUse h intent (map grant_of_stored chain) operation.(Operation.Name)
             arguments);;
  remaining ← least_remaining (operation_text op) None accounts;
  mret {| ra_intent := intent; ra_chain := chain; ra_refs := refs; ra_principals := principals;
          ra_accounts := accounts; ra_operation := operation_text op; ra_generation := generation;
          ra_remaining := remaining |}.

End Doors.

(** ** The start record *)

Record authorityDebitRef := {
  adr_AccountID : string;
  adr_OperationKey : string;
  adr_Sequence : Z;
  adr_Digest : string
}.

Definition debit_ref (r : debit_row) : authorityDebitRef :=
  {| adr_AccountID := r.(db_account); adr_OperationKey := r.(db_operation);
     adr_Sequence := r.(db_sequence); adr_Digest := r.(db_seal).(as_Digest) |}.

Definition debit_ref_value (x : authorityDebitRef) : value :=
  VObject [("account_id", VString x.(adr_AccountID)); ("operation_key", VString x.(adr_OperationKey));
           ("sequence", num x.(adr_Sequence)); ("digest", VString x.(adr_Digest))].

(** [ORDER BY account_id,operation_key]. *)
Definition by_account : authorityDebitRef -> authorityDebitRef -> Prop :=
  then_by adr_AccountID String.le (on adr_OperationKey String.le).
#[export] Instance by_account_dec : RelDecision by_account.
Proof. unfold by_account. apply _. Defined.

Definition debits_of_action (actionID : string) (l : list debit_row) : list debit_row :=
  filter (fun r => r.(db_action) = actionID) l.

Definition debit_set_digest (refs : list authorityDebitRef) : string :=
  HashCanonical (print (VArray (map debit_ref_value refs))).

Definition debitSetDigestTx (actionID : string) : Tx string :=
  t ← ask t_budget;
  let refs := merge_sort by_account (map debit_ref (debits_of_action actionID t.(debits))) in
  require (fail_if (bool_decide (List.length refs = 0%nat)) ErrBudgetEvidenceCorrupt);;
  mret (debit_set_digest refs).

Definition grant_ref_value (id : string) (version : Z) (digest : string) (revision : Z) : value :=
  VObject [("grant_id", VString id); ("version", num version); ("digest", VString digest);
           ("revision", num revision)].

Definition resolvedGrantChain (r : resolvedAuthority) : string :=
  print (VArray
    (if bool_decide (r.(ra_chain) = [] :> list storedGrantV2)
     then map (fun ref => grant_ref_value ref 1 ref 1) r.(ra_refs)
     else map (fun g => grant_ref_value (grant_of_stored g).(AuthorityGrantV2.GrantID)
                          (grant_of_stored g).(AuthorityGrantV2.Version)
                          g.(sgr_signed).(sg_Seal).(as_Digest) g.(sgr_revision)) r.(ra_chain))).

Record authorityStartRecord := {
  sr_ActionID : string;
  sr_Generation : Z;
  sr_IntentID : string;
  sr_IntentVersion : Z;
  sr_IntentDigest : string;
  sr_GrantChain : string;
  sr_DebitSetDigest : string;
  sr_IdentityEvidenceDigest : string;
  sr_ConfigGeneration : Z;
  sr_DecisionDigest : string;
  sr_PolicyVersion : Z;
  sr_PolicyDigest : string;
  sr_AuthorizationTime : string
}.

Definition start_schema : schema :=
  [("action_id", KString); ("generation", KInt); ("intent_id", KString); ("intent_version", KInt);
   ("intent_digest", KString); ("grant_chain", KString); ("debit_set_digest", KString);
   ("identity_evidence_digest", KString); ("config_generation", KInt); ("decision_digest", KString);
   ("policy_version", KInt); ("policy_digest", KString); ("authorization_time", KString)].

Definition start_json (x : authorityStartRecord) : string :=
  marshal start_schema
    [SString x.(sr_ActionID); SInt x.(sr_Generation); SString x.(sr_IntentID);
     SInt x.(sr_IntentVersion); SString x.(sr_IntentDigest); SString x.(sr_GrantChain);
     SString x.(sr_DebitSetDigest); SString x.(sr_IdentityEvidenceDigest);
     SInt x.(sr_ConfigGeneration); SString x.(sr_DecisionDigest); SInt x.(sr_PolicyVersion);
     SString x.(sr_PolicyDigest); SString x.(sr_AuthorizationTime)].

Definition start_of_json (raw : string) : option authorityStartRecord :=
  match unmarshal start_schema raw with
  | Some [SString a; SInt b; SString c; SInt d; SString e; SString f; SString g; SString i; SInt j;
          SString k; SInt l; SString m; SString n] =>
      Some {| sr_ActionID := a; sr_Generation := b; sr_IntentID := c; sr_IntentVersion := d;
              sr_IntentDigest := e; sr_GrantChain := f; sr_DebitSetDigest := g;
              sr_IdentityEvidenceDigest := i; sr_ConfigGeneration := j; sr_DecisionDigest := k;
              sr_PolicyVersion := l; sr_PolicyDigest := m; sr_AuthorizationTime := n |}
  | _ => None
  end.

Definition decision_digest (actionID : string) (d : decision_row) : string :=
  HashCanonical (print (VObject
    [("action_id", VString actionID); ("outcome", VString d.(de_outcome)); ("rule", VString d.(de_rule));
     ("decided_at", VString d.(de_decided)); ("policy_version", num d.(de_policy_version));
     ("policy_digest", VString d.(de_policy_digest))])).

Definition change_authz (f : authz_tables -> authz_tables) : Tx unit :=
  change (fun s => with_authz (f s.(t_authz)) s).

Definition set_starts (m : gmap string start_row) (z : authz_tables) : authz_tables :=
  {| starts := m; snapshots := z.(snapshots) |}.
Definition set_snapshots (m : gmap string snapshot_row) (z : authz_tables) : authz_tables :=
  {| starts := z.(starts); snapshots := m |}.

Definition authorityEvidenceEpoch : Z := 1.

Section Records.
Context (h : Handle).

Definition insertAuthorizationStartTx (actionID : string) (generation : Z) (resolved : resolvedAuthority)
    (identityDigest : string) (policyVersion : Z) (policyDigest : string) (at_ : time) : Tx unit :=
  debitSet ← debitSetDigestTx actionID;
  a ← ask t_actions;
  decision ← found ErrAuthorizationSnapshotCorrupt (a.(decisions) !! actionID);
  require (fail_if (bool_decide (decision.(de_policy_version) <> policyVersion)
                    || bool_decide (decision.(de_policy_digest) <> policyDigest))
             ErrAuthorizationSnapshotCorrupt);;
  let intent := resolved.(ra_intent) in
  let record :=
    {| sr_ActionID := actionID; sr_Generation := generation;
       sr_IntentID := intent.(IntentContractV2.IntentID);
       sr_IntentVersion := intent.(IntentContractV2.Version);
       sr_IntentDigest := IntentContractV2_Digest intent;
       sr_GrantChain := resolvedGrantChain resolved; sr_DebitSetDigest := debitSet;
       sr_IdentityEvidenceDigest := identityDigest; sr_ConfigGeneration := resolved.(ra_generation);
       sr_DecisionDigest := decision_digest actionID decision; sr_PolicyVersion := policyVersion;
       sr_PolicyDigest := policyDigest; sr_AuthorizationTime := rfc3339 at_ |} in
  seal ← signAuthorityTx h authorityStartDomain (start_json record);
  z ← ask t_authz;
  require (fail_if (bool_decide (is_Some (z.(starts) !! actionID))) ErrActionAlreadyStarted);;
  change_authz (fun z => set_starts (<[actionID :=
    {| st_generation := generation; st_intent := record.(sr_IntentID);
       st_intent_version := record.(sr_IntentVersion); st_intent_digest := record.(sr_IntentDigest);
       st_chain := record.(sr_GrantChain); st_debits := debitSet;
       st_time := record.(sr_AuthorizationTime); st_canonical := start_json record;
       st_seal := seal |}]> z.(starts)) z).

Definition insertAuthorizationSnapshotTx (snapshot : AuthorizationSnapshotV1.t) (evidenceDigest : string)
    : Tx unit :=
  let id := snapshot.(AuthorizationSnapshotV1.ActionID) in
  let chain := elems snapshot.(AuthorizationSnapshotV1.PrincipalChain) in
  require (fail_if (bool_decide (ValidateSnapshot snapshot <> None)
                    || bool_decide (evidenceDigest = "")
                    || bool_decide (snapshot.(AuthorizationSnapshotV1.IdentityEvidenceDigest)
                                    <> evidenceDigest)) ErrAuthorizationSnapshotCorrupt);;
  let canonical := SnapshotCanonicalBytes snapshot in
  seal ← signAuthorityTx h AuthorizationSnapshotV1Domain canonical;
  z ← ask t_authz;
  i ← ask t_intents;
  require (fail_if (bool_decide (is_Some (z.(snapshots) !! id))
                    || bool_decide (i.(intent_versions) !!
                         (snapshot.(AuthorizationSnapshotV1.IntentID),
                          snapshot.(AuthorizationSnapshotV1.IntentVersion)) = None)) ErrConstraint);;
  change_authz (fun z => set_snapshots (<[id :=
    {| ss_requester := snapshot.(AuthorizationSnapshotV1.RequesterPrincipalID);
       ss_actor := snapshot.(AuthorizationSnapshotV1.ActorPrincipalID); ss_evidence := evidenceDigest;
       ss_intent := snapshot.(AuthorizationSnapshotV1.IntentID);
       ss_intent_version := snapshot.(AuthorizationSnapshotV1.IntentVersion);
       ss_intent_digest := snapshot.(AuthorizationSnapshotV1.IntentDigest);
       ss_canonical := canonical; ss_digest := seal.(as_Digest);
       ss_kind := snapshot.(AuthorizationSnapshotV1.Kind);
       ss_approval := snapshot.(AuthorizationSnapshotV1.ApprovalID);
       ss_purpose := snapshot.(AuthorizationSnapshotV1.IntentPurpose);
       ss_chain := print (VArray (map VString chain));
       ss_budget_kind := snapshot.(AuthorizationSnapshotV1.BudgetKind);
       ss_remaining := snapshot.(AuthorizationSnapshotV1.BudgetRemaining);
       ss_recorded := rfc3339 snapshot.(AuthorizationSnapshotV1.RecordedAt);
       ss_key := seal.(as_SigningKeyID); ss_signature := seal.(as_Signature) |}]> z.(snapshots)) z).

(** ** The check of the stored starts *)

Definition start_checks (p : string * start_row) : Tx unit :=
  let row := p.2 in
  record ← found ErrAuthorizationSnapshotCorrupt (start_of_json row.(st_canonical));
  require (fail_if (bool_decide (record.(sr_ActionID) <> p.1)
                    || bool_decide (record.(sr_Generation) <> row.(st_generation))
                    || bool_decide (record.(sr_IntentID) <> row.(st_intent))
                    || bool_decide (record.(sr_IntentVersion) <> row.(st_intent_version))
                    || bool_decide (record.(sr_IntentDigest) <> row.(st_intent_digest))
                    || bool_decide (record.(sr_GrantChain) <> row.(st_chain))
                    || bool_decide (record.(sr_DebitSetDigest) <> row.(st_debits))
                    || bool_decide (record.(sr_AuthorizationTime) <> row.(st_time))
                    || bool_decide (record.(sr_IdentityEvidenceDigest) = "")
                    || bool_decide (record.(sr_DecisionDigest) = "")
                    || bool_decide (row.(st_canonical) <> start_json record))
             ErrAuthorizationSnapshotCorrupt);;
  require (fail_if (bool_decide (h.(time_Parse) row.(st_time) = None)) ErrAuthorizationSnapshotCorrupt);;
  debitSet ← rename ErrAuthorizationSnapshotCorrupt (debitSetDigestTx p.1);
  require (fail_if (bool_decide (debitSet <> row.(st_debits))) ErrAuthorizationSnapshotCorrupt);;
  seal_checks h ErrAuthorizationSnapshotCorrupt authorityStartDomain row.(st_canonical) row.(st_seal).

Definition verifyAuthorizationStartsTx : Tx unit :=
  z ← ask t_authz;
  for_all start_checks (map_to_list z.(starts)).

(** The instance armed with a profile and its pinned activation. *)
Definition armed (profileID activationDigest : string) : Handle :=
  {| Ed25519_Verify := h.(Ed25519_Verify); time_Parse := h.(time_Parse);
     time_Unmarshal := h.(time_Unmarshal); working_dir := h.(working_dir);
     url_Parse := h.(url_Parse); url_String := h.(url_String); url_Hostname := h.(url_Hostname);
     strings_ToLower := h.(strings_ToLower); strings_EqualFold := h.(strings_EqualFold);
     strconv_Quote := h.(strconv_Quote);
     sealer := h.(sealer); authoritySigner := h.(authoritySigner);
     intentContractSigner := h.(intentContractSigner); intentEventSigner := h.(intentEventSigner);
     identityEvidenceSigner := h.(identityEvidenceSigner);
     principalEventSigner := h.(principalEventSigner); authorityProfileID := profileID;
     authorityActivationDigest := activationDigest |}.

(** Without a profile, the one the digest belongs to. *)
Definition activated_profile (profileID activationDigest : string) : Tx string :=
  if bool_decide (profileID <> "") then mret profileID
  else
    t ← ask t_births;
    match filter (fun p => p.2.(bh_activation) = activationDigest) (map_to_list t.(birth_heads)) with
    | [p] => mret p.1
    | _ => raise ErrAuthorizationSnapshotCorrupt
    end.

Definition RequireAuthorityActivation (profileID activationDigest : string) : Tx Handle :=
  profile ← activated_profile profileID activationDigest;
  verifyAuthorityActivationTx h profile activationDigest;;
  verifyAuthorizationStartsTx;;
  mret (armed profile activationDigest).

End Records.

(** ** The doors *)

(** The row an action is born with, its evidence in the snapshot columns. *)
Definition birth_action_row (e : ActionEnvelope.t) (state : ActionState.State) (signed : SignedEvidence)
    : action_row :=
  {| aw_schema := e.(ActionEnvelope.SchemaVersion); aw_correlation := e.(ActionEnvelope.CorrelationID);
     aw_source := e.(ActionEnvelope.Source); aw_operation := e.(ActionEnvelope.Operation);
     aw_parameters := e.(ActionEnvelope.ParametersDigest); aw_effect := e.(ActionEnvelope.EffectClass);
     aw_state := state; aw_recovery := ""; aw_requested := rfc3339 e.(ActionEnvelope.RequestedAt);
     aw_finished := None;
     aw_principal := Some e.(ActionEnvelope.Principal).(PrincipalRef.PrincipalID);
     aw_intent := Some e.(ActionEnvelope.IntentID);
     aw_refs := match e.(ActionEnvelope.AuthorityRefs) with
                | [] => None
                | refs => Some (print (VArray (map VString refs)))
                end;
     aw_snapshot := {| bs_Version := 2; bs_Digest := signed.(sv_Digest);
                       bs_Canonical := signed.(sv_Canonical);
                       bs_SigningKeyID := signed.(sv_SigningKeyID);
                       bs_Signature := signed.(sv_Signature) |} |}.

Definition insertActionTx (id : string) (row : action_row) : Tx unit :=
  a ← ask t_actions;
  require (fail_if (bool_decide (is_Some (a.(actions) !! id))) ErrConstraint);;
  change (fun s => with_actions {| actions := <[id := row]> s.(t_actions).(actions);
                                   decisions := s.(t_actions).(decisions);
                                   legacy_evidence := s.(t_actions).(legacy_evidence) |} s).

Definition insertDecisionTx (id : string) (row : decision_row) : Tx unit :=
  a ← ask t_actions;
  require (fail_if (bool_decide (is_Some (a.(decisions) !! id))
                    || bool_decide (a.(actions) !! id = None :> option action_row)) ErrConstraint);;
  change (fun s => with_actions {| actions := s.(t_actions).(actions);
                                   decisions := <[id := row]> s.(t_actions).(decisions);
                                   legacy_evidence := s.(t_actions).(legacy_evidence) |} s).

(** The envelope of a resolved request. *)
Definition resolved_envelope (actionID correlation protocol channel : string) (op : Operation.t)
    (arguments : string) (effect : EffectClass) (at_ : time) (evidence : Evidence.t)
    (resolved : resolvedAuthority) : ActionEnvelope.t :=
  let e := NewEnvelope actionID (if bool_decide (correlation = "") then actionID else correlation)
             {| Source.Kind := "agent_brain";
                Source.Protocol := if bool_decide (protocol = "") then "authority" else protocol;
                Source.Channel := channel |} op arguments at_ in
  {| ActionEnvelope.SchemaVersion := e.(ActionEnvelope.SchemaVersion);
     ActionEnvelope.ActionID := e.(ActionEnvelope.ActionID);
     ActionEnvelope.CorrelationID := e.(ActionEnvelope.CorrelationID);
     ActionEnvelope.Source := e.(ActionEnvelope.Source);
     ActionEnvelope.Operation := e.(ActionEnvelope.Operation);
     ActionEnvelope.ParametersDigest := e.(ActionEnvelope.ParametersDigest);
     ActionEnvelope.EffectClass := effect; ActionEnvelope.RequestedAt := e.(ActionEnvelope.RequestedAt);
     ActionEnvelope.Principal :=
       {| PrincipalRef.PrincipalID := evidence.(Evidence.ActorPrincipalID);
          PrincipalRef.EvidenceID := evidence.(Evidence.EvidenceID);
          PrincipalRef.ResponsibleHumanID := evidence.(Evidence.ResponsiblePrincipalID) |};
     ActionEnvelope.IntentID := resolved.(ra_intent).(IntentContractV2.IntentID);
     ActionEnvelope.AuthorityRefs := resolved.(ra_refs) |}.

Definition snapshot_of_resolved (kind actionID approvalID conversation identityDigest : string)
    (evidence : Evidence.t) (resolved : resolvedAuthority) (remaining : option Z) (at_ : time)
    : AuthorizationSnapshotV1.t :=
  let intent := resolved.(ra_intent) in
  {| AuthorizationSnapshotV1.Kind := kind; AuthorizationSnapshotV1.ActionID := actionID;
     AuthorizationSnapshotV1.ApprovalID := approvalID;
     AuthorizationSnapshotV1.ConversationID := conversation;
     AuthorizationSnapshotV1.RequesterPrincipalID := evidence.(Evidence.RequesterPrincipalID);
     AuthorizationSnapshotV1.ActorPrincipalID := evidence.(Evidence.ActorPrincipalID);
     AuthorizationSnapshotV1.IdentityEvidenceDigest := identityDigest;
     AuthorizationSnapshotV1.IntentID := intent.(IntentContractV2.IntentID);
     AuthorizationSnapshotV1.IntentVersion := intent.(IntentContractV2.Version);
     AuthorizationSnapshotV1.IntentDigest := IntentContractV2_Digest intent;
     AuthorizationSnapshotV1.IntentPurpose := intent.(IntentContractV2.Purpose);
     AuthorizationSnapshotV1.PrincipalChain := Some resolved.(ra_principals);
     AuthorizationSnapshotV1.BudgetKind :=
       match remaining with Some _ => AuthorizationBudgetFinite | None => AuthorizationBudgetUnlimited end;
     AuthorizationSnapshotV1.BudgetRemaining := remaining; AuthorizationSnapshotV1.RecordedAt := at_ |}.

(** The [actions] row, its evidence and its decision. *)
Definition birthActionTx (e : ActionEnvelope.t) (state : ActionState.State) (signed : SignedEvidence)
    (decision : decision_row) : Tx unit :=
  insertActionTx e.(ActionEnvelope.ActionID) (birth_action_row e state signed);;
  insertEvidenceTx signed;;
  insertDecisionTx e.(ActionEnvelope.ActionID) decision.

Section StartDoors.
Context (h : Handle).

(** The evidence of the request's actor. *)
Definition evidenceTx (resolve : option (string -> result Evidence.t)) (actor actionID : string)
    : Tx Evidence.t :=
  f ← found ErrIdentityEvidenceMissing resolve;
  evidence ← lift (f actionID);
  require (fail_if (bool_decide (actor <> "") && bool_decide (actor <> evidence.(Evidence.ActorPrincipalID)))
             ErrIssuerMismatch);;
  mret evidence.

Definition StartAuthorization (actionID : string) (r : AuthorityStartRequest.t) : Tx AuthorityStartResult :=
  let at_ := r.(AuthorityStartRequest.At) in
  let op := r.(AuthorityStartRequest.Operation) in
  require (fail_if (bool_decide (r.(AuthorityStartRequest.ResolveEvidence) = None
                                 :> option (string -> result Evidence.t))) ErrIdentityEvidenceMissing);;
  require (fail_if (bool_decide (r.(AuthorityStartRequest.ApprovalID) <> "")) ErrAuthorizationSnapshotCorrupt);;
  evidence ← evidenceTx r.(AuthorityStartRequest.ResolveEvidence)
               r.(AuthorityStartRequest.ActorPrincipalID) actionID;
  z ← ask t_authz;
  require (fail_if (bool_decide (is_Some (z.(starts) !! actionID))) ErrActionAlreadyStarted);;
  resolved ← resolveAuthorityTx h evidence.(Evidence.ActorPrincipalID) r.(AuthorityStartRequest.Channel)
    r.(AuthorityStartRequest.ConversationID) op r.(AuthorityStartRequest.Arguments)
    r.(AuthorityStartRequest.EffectClass) at_ false;
  before ← debit_accounts h actionID resolved.(ra_operation) at_ resolved.(ra_accounts);
  let remaining := fold_left min_remaining before resolved.(ra_remaining) in
  let env := resolved_envelope actionID r.(AuthorityStartRequest.CorrelationID)
    r.(AuthorityStartRequest.SourceProtocol) r.(AuthorityStartRequest.Channel) op
    r.(AuthorityStartRequest.Arguments) r.(AuthorityStartRequest.EffectClass) at_ evidence resolved in
  validateResolvedEvidenceAtTx h evidence env at_ at_;;
  signed ← signEvidenceTx h evidence;
  birthActionTx env ActionState.StateAuthorized signed
    {| de_outcome := "allow"; de_rule := "authority"; de_decided := rfc3339 at_;
       de_policy_version := r.(AuthorityStartRequest.PolicyVersion);
       de_policy_digest := r.(AuthorityStartRequest.PolicyDigest) |};;
  insertAuthorizationStartTx h actionID authorityEvidenceEpoch resolved signed.(sv_Digest)
    r.(AuthorityStartRequest.PolicyVersion) r.(AuthorityStartRequest.PolicyDigest) at_;;
  insertAuthorizationSnapshotTx h
    (snapshot_of_resolved AuthorizationSnapshotStart actionID "" r.(AuthorityStartRequest.ConversationID)
       signed.(sv_Digest) evidence resolved remaining at_) signed.(sv_Digest);;
  mret {| asr_ActionID := actionID; asr_IntentID := resolved.(ra_intent).(IntentContractV2.IntentID);
          asr_AuthorityRefs := resolved.(ra_refs); asr_RemainingBefore := remaining;
          asr_Evidence := evidence |}.

(** ** A request that waits for an approval *)

Definition maxApprovalParamsBytes : Z := 65536.

(** The facts of the approval the store fills in. *)
Definition approval_context (c : ApprovalContext.t) (resolved : resolvedAuthority) (at_ : time)
    : ApprovalContext.t :=
  {| ApprovalContext.IntentPurpose := resolved.(ra_intent).(IntentContractV2.Purpose);
     ApprovalContext.GrantID := default c.(ApprovalContext.GrantID) (last resolved.(ra_refs));
     ApprovalContext.GrantDepth :=
       if bool_decide (resolved.(ra_refs) = []) then c.(ApprovalContext.GrantDepth)
       else Z.of_nat (List.length resolved.(ra_refs));
     ApprovalContext.CostLine :=
       match resolved.(ra_remaining) with
       | None => "maximum unlimited starts"
       | Some n => "maximum " +:+ Itoa n +:+ " starts before this attempt"
       end;
     ApprovalContext.ToolCage := c.(ApprovalContext.ToolCage);
     ApprovalContext.Descriptor := c.(ApprovalContext.Descriptor);
     ApprovalContext.HasDescriptor := c.(ApprovalContext.HasDescriptor);
     ApprovalContext.LawVersion := c.(ApprovalContext.LawVersion);
     ApprovalContext.LawDigest := c.(ApprovalContext.LawDigest);
     ApprovalContext.Rule := "require_approval"; ApprovalContext.Now := at_;
     ApprovalContext.TTL := c.(ApprovalContext.TTL) |}.

(** [approval_id] is the primary key, [action_id] unique and an action. *)
Definition insertApprovalTx (id : string) (row : approval_row) : Tx unit :=
  t ← ask t_approvals;
  a ← ask t_actions;
  require (fail_if (bool_decide (is_Some (t.(approvals) !! id))
                    || existsb (fun p => bool_decide (p.2.(ar_action) = row.(ar_action)))
                         (map_to_list t.(approvals))
                    || bool_decide (a.(actions) !! row.(ar_action) = None :> option action_row))
             ErrConstraint);;
  change (fun s => with_approvals {| approvals := <[id := row]> s.(t_approvals).(approvals);
                                       tombstones := s.(t_approvals).(tombstones) |} s).

Definition pending_row (a : Approval.t) (p : ActionPreview.t) (arguments : string) (strict : Z)
    : approval_row :=
  {| ar_schema := a.(Approval.SchemaVersion); ar_action := a.(Approval.ActionID);
     ar_action_digest := a.(Approval.ActionDigest); ar_preview_digest := a.(Approval.PreviewDigest);
     ar_preview := CanonicalPreview p; ar_params := CanonicalParams arguments;
     ar_requested_from := a.(Approval.RequestedFrom); ar_reason := a.(Approval.Reason);
     ar_risk := a.(Approval.RiskSummary); ar_policy_version := a.(Approval.PolicyVersion);
     ar_policy_digest := a.(Approval.PolicyDigest); ar_requested := rfc3339 a.(Approval.RequestedAt);
     ar_expires := timeCol a.(Approval.ExpiresAt); ar_status := ApprovalPending; ar_decider := "";
     ar_decision := ""; ar_decided := None; ar_comment := ""; ar_receipt := ""; ar_strict := strict |}.

(** [approvalID] is the strict identity drawn for the approval. *)
Definition ParkAuthorization (actionID approvalID : string) (r : AuthorityPendingRequest.t)
    : Tx AuthorityPendingResult :=
  let at_ := r.(AuthorityPendingRequest.At) in
  let op := r.(AuthorityPendingRequest.Operation) in
  let arguments := r.(AuthorityPendingRequest.Arguments) in
  evidence ← evidenceTx r.(AuthorityPendingRequest.ResolveEvidence)
               r.(AuthorityPendingRequest.ActorPrincipalID) actionID;
  resolved ← resolveAuthorityTx h evidence.(Evidence.ActorPrincipalID)
    r.(AuthorityPendingRequest.Channel) r.(AuthorityPendingRequest.ConversationID) op arguments
    r.(AuthorityPendingRequest.EffectClass) at_ true;
  require (fail_if (match resolved.(ra_remaining) with Some n => n <=? 0 | None => false end)
             ErrBudgetExhausted);;
  let e := resolved_envelope actionID r.(AuthorityPendingRequest.CorrelationID)
    r.(AuthorityPendingRequest.SourceProtocol) r.(AuthorityPendingRequest.Channel) op arguments
    r.(AuthorityPendingRequest.EffectClass) at_ evidence resolved in
  bound ← lift (NewBoundApprovalRequestWithID e arguments
            (approval_context r.(AuthorityPendingRequest.ApprovalContext) resolved at_) approvalID);
  let a := bound.(approval) in
  require (fail_if (maxApprovalParamsBytes <? Z.of_nat (String.length arguments)) ErrParamsTooLong);;
  validateResolvedEvidenceAtTx h evidence e at_ at_;;
  signed ← signEvidenceTx h evidence;
  birthActionTx e ActionState.StatePendingApproval signed
    {| de_outcome := "require_approval"; de_rule := "require_approval"; de_decided := rfc3339 at_;
       de_policy_version := a.(Approval.PolicyVersion); de_policy_digest := a.(Approval.PolicyDigest) |};;
  insertAuthorizationSnapshotTx h
    (snapshot_of_resolved AuthorizationSnapshotPending actionID approvalID
       r.(AuthorityPendingRequest.ConversationID) signed.(sv_Digest) evidence resolved
       resolved.(ra_remaining) at_) signed.(sv_Digest);;
  z ← ask t_authz;
  snapshot ← found ErrNoRows (z.(snapshots) !! actionID);
  appendApprovalBirthTx h a snapshot.(ss_digest);;
  insertApprovalTx a.(Approval.ApprovalID) (pending_row a bound.(preview) arguments 1);;
  mret {| apr_ActionID := actionID; apr_ApprovalID := approvalID;
          apr_IntentID := resolved.(ra_intent).(IntentContractV2.IntentID);
          apr_AuthorityRefs := resolved.(ra_refs); apr_Evidence := evidence |}.

End StartDoors.

(** ** Debits over several accounts *)

Lemma accounts_grow_refl t : ledger_sound t -> accounts_grow t t.
Proof. by split. Qed.

Lemma accounts_grow_trans t1 t2 t3 : accounts_grow t1 t2 -> accounts_grow t2 t3 -> accounts_grow t1 t3.
Proof.
  intros [_ R1 K1] [S2 R2 K2]. split; [done|intros k; by rewrite R2|]. intros id r Hr. by apply K2, K1.
Qed.

(** The budget tables alone moved, twice. *)
Lemma only_trans s1 s2 s3 : s2 = with_budget s2.(t_budget) s1 -> s3 = with_budget s3.(t_budget) s2 ->
  s3 = with_budget s3.(t_budget) s1.
Proof.
  intros H2 H3. rewrite H3 at 1.
  exact (f_equal (with_budget s3.(t_budget)) H2).
Qed.

Lemma account_kept t t' profile kind scope b : accounts_grow t t' ->
  account_opened t profile kind scope b -> account_opened t' profile kind scope b.
Proof. intros Hg (row & Hr & H). exists row. split; [by apply (ag_kept _ _ Hg)|done]. Qed.

(** What an account has left for an operation; [None] without a limit. *)
Definition left_for (t : budget_tables) (o a : string) : option Z :=
  match t.(accounts) !! a with Some row => free t a row o | None => None end.

(** The action has paid the account. *)
Definition paid (t : budget_tables) (act a : string) : Prop :=
  exists r, r ∈ rows t (a, "*") /\ r.(db_action) = act.

Lemma appendDebitTx_paid h act a o sp sq tl at_ s s' : appendDebitTx h act a o sp sq tl at_ s = Ok (tt, s') ->
  (forall r, r ∈ rows s.(t_budget) (a, o) -> r.(db_action) <> act)
  /\ exists row, row.(db_action) = act /\ rows s'.(t_budget) (a, o) = row :: rows s.(t_budget) (a, o)
       /\ forall k, k <> (a, o) -> rows s'.(t_budget) k = rows s.(t_budget) k.
Proof.
  intros H. unfold appendDebitTx in H.
  apply debitRowTx_Ok in H as (row & c & Ea & Eb & Ec & _ & _ & _ & _ & _ & _ & Ej & _ & _ & _ & ->).
  split.
  - intros r Hr Hact. apply not_true_iff_false in Ej. apply Ej, existsb_exists. exists r.
    apply list_elem_of_filter in Hr as [Ho Hr]. unfold on_account in Ho. bools. destruct Ho as [Ho1 Ho2].
    split; [by apply list_elem_of_In|]. unfold debit_conflict. apply bool_decide_eq_true.
    cbn [fst snd] in *. rewrite Ea, Eb, Ec. naive_solver.
  - exists row. split; [done|]. cbn [t_budget with_budget]. split; [by apply rows_push_same|].
    intros k Hk. apply rows_push_other. by rewrite Eb, Ec.
Qed.

(** A debit is the action's first on the account. *)
Lemma debitAccountTx_paid h act a o at_ s before s' : o <> "*" -> ledger_sound s.(t_budget) ->
  debitAccountTx h act a o at_ s = Ok (before, s') ->
  ~ paid s.(t_budget) act a /\ paid s'.(t_budget) act a.
Proof.
  intros No Hs H. unfold debitAccountTx in H.
  apply tx_bind_Ok in H as ([mt per] & s0 & E & H). pose proof (reads _ _ _ E) as ->.
  apply tx_bind_Ok in H as ([[p q] r] & s0 & E1 & H). pose proof (reads _ _ _ E1) as ->. cbn beta iota in H.
  tx_next H E2. tx_next H E3.
  apply tx_bind_Ok in H as ([] & s1 & E4 & H).
  apply appendDebitTx_paid in E4 as (Hfresh & row & Hrow & Hrows & _).
  split; [intros (x & Hx & Ex); by apply (Hfresh x)|].
  destruct (per !! o) as [m|]; [|apply tx_ret_Ok in H as [= -> ->]].
  - apply tx_bind_Ok in H as ([[p' q'] r'] & s2 & E5 & H). pose proof (reads _ _ _ E5) as ->.
    cbn beta iota in H. tx_next H E6. tx_next H E7.
    apply tx_bind_Ok in H as ([] & s2 & E8 & H). apply tx_ret_Ok in H as [= -> ->].
    apply appendDebitTx_paid in E8 as (_ & _ & _ & _ & Hother). exists row.
    rewrite Hother by congruence. rewrite Hrows. split; [by left|done].
  - exists row. rewrite Hrows. split; [by left|done].
Qed.

(** Debits only add rows, and the new ones are the action's. *)
Definition only_adds (act : string) (t t' : budget_tables) : Prop :=
  forall k x, (x ∈ rows t k -> x ∈ rows t' k) /\ (x ∈ rows t' k -> x ∈ rows t k \/ x.(db_action) = act).

Lemma only_adds_refl act t : only_adds act t t.
Proof. intros k x. split; [done|by left]. Qed.

Lemma only_adds_trans act t1 t2 t3 : only_adds act t1 t2 -> only_adds act t2 t3 -> only_adds act t1 t3.
Proof.
  intros H1 H2 k x. destruct (H1 k x) as [A B], (H2 k x) as [C D]. split; [by auto|].
  intros [H|H]%D; [by apply B|by right].
Qed.

Lemma appendDebitTx_adds h act a o sp sq tl at_ s s' : appendDebitTx h act a o sp sq tl at_ s = Ok (tt, s') ->
  only_adds act s.(t_budget) s'.(t_budget).
Proof.
  intros H. apply appendDebitTx_paid in H as (_ & row & Ha & Hr & Ho). intros k x.
  destruct (decide (k = (a, o))) as [->|Hk]; [|by rewrite Ho; auto].
  rewrite Hr, elem_of_cons. split; [by right|]. intros [->|H]; [by right|by left].
Qed.

Lemma debitAccountTx_adds h act a o at_ s before s' :
  debitAccountTx h act a o at_ s = Ok (before, s') -> only_adds act s.(t_budget) s'.(t_budget).
Proof.
  intros H. unfold debitAccountTx in H.
  apply tx_bind_Ok in H as ([mt per] & s0 & E & H). pose proof (reads _ _ _ E) as ->.
  apply tx_bind_Ok in H as ([[p q] r] & s0 & E1 & H). pose proof (reads _ _ _ E1) as ->. cbn beta iota in H.
  tx_next H E2. tx_next H E3. tx_door H E4. apply appendDebitTx_adds in E4.
  destruct (per !! o) as [m|]; [|by apply tx_ret_Ok in H as [= -> ->]].
  apply tx_bind_Ok in H as ([[p' q'] r'] & s2 & E5 & H). pose proof (reads _ _ _ E5) as ->.
  cbn beta iota in H. tx_next H E6. tx_next H E7. tx_door H E8. apply tx_ret_Ok in H as [= -> ->].
  apply appendDebitTx_adds in E8. by eapply only_adds_trans.
Qed.

Lemma debit_accounts_adds h act o at_ ids s before s' :
  debit_accounts h act o at_ ids s = Ok (before, s') -> only_adds act s.(t_budget) s'.(t_budget).
Proof.
  revert s before. induction ids as [|a ids IH]; intros s before H; cbn [debit_accounts] in H.
  - apply tx_ret_Ok in H as [= -> ->]. apply only_adds_refl.
  - apply tx_bind_Ok in H as (b & s1 & E & H). apply debitAccountTx_adds in E.
    apply tx_bind_Ok in H as (bs & s2 & E2 & H). apply tx_ret_Ok in H as [= -> ->].
    eapply only_adds_trans; [exact E|by eapply IH].
Qed.

Lemma adds_paid act t t' b a : only_adds act t t' -> b <> act -> paid t' b a <-> paid t b a.
Proof.
  intros H Hb. split; intros (x & Hx & Ex); exists x; (split; [|done]).
  - apply H in Hx as [Hx|Hx]; [done|congruence].
  - by apply H.
Qed.

#[export] Instance paid_dec t act a : Decision (paid t act a).
Proof.
  refine (cast_if (decide (Exists (fun r => r.(db_action) = act) (rows t (a, "*")))));
    abstract (unfold paid; rewrite Exists_exists in *; naive_solver).
Defined.

(** The counters one start moves. *)
Definition charged (t : budget_tables) (ids : list string) (o : string) (k : string * string) : bool :=
  bool_decide (k.1 ∈ ids)
  && match t.(accounts) !! k.1 with Some row => moved row k.1 o k | None => false end.

Lemma charged_total t ids o a row : t.(accounts) !! a = Some row ->
  charged t ids o (a, "*") = bool_decide (a ∈ ids).
Proof.
  intros Hr. unfold charged. cbn [fst]. rewrite Hr. unfold moved.
  rewrite (bool_decide_true (_ = _)) by done. by rewrite andb_true_r.
Qed.

Lemma moved_account row a o k : moved row a o k = true -> k.1 = a.
Proof. unfold moved. intros [H|H]%orb_true_iff; bools; [by subst|by destruct H as [-> _]]. Qed.

Lemma debit_accounts_Ok h act o at_ ids s before s' : o <> "*" -> ledger_sound s.(t_budget) ->
  debit_accounts h act o at_ ids s = Ok (before, s') ->
  NoDup ids /\ ledger_sound s'.(t_budget)
  /\ s'.(t_budget).(accounts) = s.(t_budget).(accounts) /\ s' = with_budget s'.(t_budget) s
  /\ (forall k, spent s'.(t_budget) k.1 k.2
        = spent s.(t_budget) k.1 k.2 + (if charged s.(t_budget) ids o k then 1 else 0))
  /\ before = map (left_for s.(t_budget) o) ids
  /\ Forall (fun a => is_Some (s.(t_budget).(accounts) !! a) /\ ~ paid s.(t_budget) act a
               /\ paid s'.(t_budget) act a
               /\ forall n, left_for s.(t_budget) o a = Some n -> 0 < n) ids
  /\ (forall k, k.1 ∉ ids -> rows s'.(t_budget) k = rows s.(t_budget) k).
Proof.
  intros No. revert s before. induction ids as [|a ids IH]; intros s before Hs H; cbn [debit_accounts] in H.
  - apply tx_ret_Ok in H as [= -> ->]. split_and!; try done; [constructor|by destruct s|].
    intros k. unfold charged. rewrite bool_decide_false by apply not_elem_of_nil. simpl. lia.
  - apply tx_bind_Ok in H as (b & s1 & E & H). pose proof (debitAccountTx_paid _ _ _ _ _ _ _ _ No Hs E) as [P1 P2].
    apply debitAccountTx_Ok in E as (row & Hrow & [D1 D2 D3 D4] & Hw & -> & Hpos); [|done|done].
    apply tx_bind_Ok in H as (bs & s2 & E & H). apply tx_ret_Ok in H as [= -> ->].
    destruct (IH _ _ D1 E) as (Hnd & S' & A' & W' & Sp' & -> & All & Rest). clear IH.
    assert (Ha : a ∉ ids).
    { intros Hin. rewrite Forall_forall in All. by destruct (All _ Hin) as (_ & Hno & _). }
    assert (Hfree : forall x, x <> a -> left_for s1.(t_budget) o x = left_for s.(t_budget) o x).
    { intros x Hx. unfold left_for. rewrite D2. destruct (accounts _ !! x) as [rx|]; [|done]. unfold free.
      pose proof (D3 (x, "*")) as E1. pose proof (D3 (x, o)) as E2. cbn [fst snd] in E1, E2.
      rewrite E1, E2.
      assert (forall y, moved row a o (x, y) = false) as Hm.
      { intros y. apply not_true_iff_false. by intros ?%moved_account. }
      by rewrite !Hm, !Z.add_0_r. }
    split_and!; try done.
    + by constructor.
    + by rewrite A'.
    + by eapply only_trans.
    + intros k. rewrite Sp', D3. unfold charged. rewrite D2.
      destruct (decide (k.1 = a)) as [Ek|Nk].
      * rewrite (bool_decide_false (k.1 ∈ ids)) by (by rewrite Ek).
        rewrite (bool_decide_true (k.1 ∈ a :: ids)) by (rewrite Ek; by left).
        rewrite Ek, Hrow. simpl. lia.
      * assert (bool_decide (k.1 ∈ a :: ids) = bool_decide (k.1 ∈ ids)) as ->.
        { apply bool_decide_ext. rewrite elem_of_cons. tauto. }
        assert (moved row a o k = false) as ->; [|simpl; lia].
        apply not_true_iff_false. by intros ?%moved_account.
    + cbn [map]. f_equal; [by unfold left_for; rewrite Hrow|].
      apply map_ext_in. intros x Hx%list_elem_of_In. apply Hfree. by intros ->.
    + constructor.
      * split_and!; [by eexists|done| |unfold left_for; by rewrite Hrow].
        destruct P2 as (r & Hr & Er). exists r. split; [|done]. by rewrite Rest.
      * apply Forall_forall. intros x Hx. rewrite Forall_forall in All.
        destruct (All _ Hx) as (Q1 & Q2 & Q3 & Q4). rewrite D2 in Q1.
        assert (Hne : x <> a) by (by intros ->). rewrite Hfree in Q4 by done.
        split_and!; [done| |done|done]. intros (r & Hr & Er). apply Q2. exists r. split; [|done].
        rewrite D4; [done|]. apply not_true_iff_false. by intros ?%moved_account.
    + intros k [Nk Hk]%not_elem_of_cons. rewrite Rest by done. apply D4.
      apply not_true_iff_false. by intros ?%moved_account.
Qed.

(** ** What a decoded intent's limits are *)

(** Integers that fit their Go types, at every level. *)
Fixpoint ranged (g : goval) : Prop :=
  match g with
  | GInt z | GOptInt (Some z) => int64_range z
  | GSlice (Some l) | GStruct l =>
      (fix all (l : list goval) : Prop := match l with [] => True | x :: l' => ranged x /\ all l' end) l
  | _ => True
  end.

Lemma ranged_struct l : ranged (GStruct l) <-> Forall ranged l.
Proof. cbn [ranged]. induction l as [|x l IH]; [done|]. by rewrite Forall_cons, IH. Qed.

Lemma ranged_slice l : ranged (GSlice (Some l)) <-> Forall ranged l.
Proof. cbn [ranged]. induction l as [|x l IH]; [done|]. by rewrite Forall_cons, IH. Qed.

Lemma parse_int64_range lit z : parse_int64 lit = Some z -> int64_range z.
Proof. unfold parse_int64. intros H. repeat case_match; simplify_eq; by bools. Qed.

Lemma zero_ranged t : ranged (zero_go t).
Proof.
  induction t as [| | | |u|t IH| | | |fs IH] using gotype_nested_ind; try done.
  apply ranged_struct. induction IH as [|f fs Hf _ IHf]; [constructor|]. by constructor.
Qed.

Lemma decode_fields_ranged ds ms gs gs' :
  (forall d v old g, d ∈ ds -> d.2 v old = Some g -> ranged old -> ranged g) ->
  decode_fields ds ms gs = Some gs' -> Forall ranged gs -> Forall ranged gs'.
Proof.
  intros Hd. revert gs. induction ms as [|[key v] ms IH]; intros gs; cbn [decode_fields]; [by intros [= <-]|].
  destruct (find_decoder ds key) as [[i d]|] eqn:Ef; [|done].
  destruct (gs !! i) as [old|] eqn:Eo; [|done]. destruct (d.2 v old) as [g|] eqn:Eg; [|done].
  intros H Hgs. apply (IH _ H). apply Forall_insert; [done|]. apply (Hd d v old); [|done|].
  - unfold find_decoder in Ef. repeat case_match; simplify_eq;
      match goal with F : list_find _ _ = Some _ |- _ => apply list_find_Some in F as (F & _) end;
      by eapply list_elem_of_lookup_2.
  - by eapply Forall_lookup_1.
Qed.

Lemma decode_ranged t v old g : decode_go t v old = Some g -> ranged old -> ranged g.
Proof.
  revert v old g. induction t as [| | | |u|t IH| | | |fs IH] using gotype_nested_ind; intros v old g H Ho;
    destruct v as [|b|lit|str|l|ms]; cbn [decode_go] in H; try done; try (by injection H as <-).
  - destruct (parse_int64 lit) as [z|] eqn:E; [|done]. injection H as <-. by apply parse_int64_range in E.
  - destruct (u str) as [z|]; [|done]. by injection H as <-.
  - destruct (mapM _ l) as [l'|] eqn:E; [|done]. injection H as <-. apply ranged_slice.
    apply mapM_Some_1 in E. induction E as [|x y l l' Hxy _ IHl]; constructor; [|done].
    by apply (IH _ _ _ Hxy), zero_ranged.
  - destruct (parse_int64 lit) as [z|] eqn:E; [|done]. injection H as <-. by apply parse_int64_range in E.
  - destruct (parse_int64 lit) as [z|] eqn:E; [|done]. injection H as <-. by apply parse_int64_range in E.
  - destruct (int64_members _ _); [|done]. by injection H as <-.
  - destruct old as [| | | | | | |gs]; try done.
    destruct (decode_fields _ ms gs) as [gs'|] eqn:E; [|done]. injection H as <-.
    apply ranged_struct in Ho. apply ranged_struct. eapply decode_fields_ranged; [|exact E|done].
    intros d v old g Hd Hg. apply list_elem_of_In, in_map_iff in Hd as (f & <- & Hf).
    apply list_elem_of_In in Hf. rewrite Forall_forall in IH. cbn [snd] in Hg. by apply (IH f Hf v).
Qed.

Lemma parsed_intent_budget time_Parse raw c : ParseIntentContractV2 time_Parse raw = Some c ->
  typed_budget c.(IntentContractV2.Budget).
Proof.
  unfold ParseIntentContractV2. destruct (too_long raw); [done|].
  destruct (strict_value raw) as [v|]; [|done]. cbn [mbind option_bind].
  destruct (decode_go intent_type v _) as [g|] eqn:E; [|done]. cbn [mbind option_bind].
  apply decode_ranged in E; [|apply zero_ranged].
  destruct (intent_of time_Parse g) as [c'|] eqn:Ec; [|done]. cbn [mbind option_bind].
  destruct (Intents.Validate c'); [done|]. intros [= ->]. unfold intent_of in Ec.
  destruct g as [| | | | | | |l]; try done. apply ranged_struct in E.
  do 12 (destruct l as [|? l]; [by repeat case_match|]; apply Forall_cons in E as [? E]).
  destruct l as [|bud l]; [by repeat case_match|]. apply Forall_cons in E as [Hb _].
  assert (exists b, budget_of bud = Some b /\ b = c.(IntentContractV2.Budget)) as (b & Eb & <-).
  { repeat (case_match; try done).
    repeat match type of Ec with
      | (?o ≫= _) = _ => let E := fresh in destruct o eqn:E; [cbn [mbind option_bind] in Ec|done] end.
    injection Ec as <-. by eexists. }
  clear Ec. destruct bud as [| | | | | | |[|[] [|[] []]]]; try done. injection Eb as <-.
  apply ranged_struct, Forall_cons in Hb as [Hz _]. intros n. cbn. by intros ->.
Qed.

(** ** What a request resolves to *)

(** The use the analyzers read from the arguments, inside the intent and every
    grant; an operation without an analyzer runs only where nothing is
    restricted. *)
Definition use_within (h : Handle) (intent : IntentContractV2.t) (chain : list AuthorityGrantV2.t)
    (operation arguments : string) : Prop :=
  exists registry use, built_in_registry h = Some registry
    /\ (Analyze (Some registry) operation arguments = Ok use
        \/ (exists e, Analyze (Some registry) operation arguments = Err e
             /\ error_is sentinel_no_analyzer e = true)
           /\ use = no_use /\ restricted_intent intent = false /\ existsb restricted_grant chain = false)
    /\ in_scope (defaultAuthorityMatchers h) (intent_terms intent) use
    /\ Forall (fun g => in_scope (defaultAuthorityMatchers h) g use /\ ~ data_denied g use) chain.

Lemma validateAuthorityActualUse_None h intent chain operation arguments :
  validateAuthorityActualUse h intent chain operation arguments = None ->
  use_within h intent chain operation arguments.
Proof.
  unfold validateAuthorityActualUse. destruct (built_in_registry h) as [registry|] eqn:Er; [|done].
  assert (forall use, ValidateAuthorityUse (intent_terms intent) use (defaultAuthorityMatchers h) ;;;
      check_all (fun g => ValidateAuthorityUse g use (defaultAuthorityMatchers h)) chain = None ->
    in_scope (defaultAuthorityMatchers h) (intent_terms intent) use
    /\ Forall (fun g => in_scope (defaultAuthorityMatchers h) g use /\ ~ data_denied g use) chain) as Hj.
  { intros use. rewrite first_error_None, ValidateAuthorityUse_None, check_all_None.
    intros [[H1 _] H2]. split; [done|]. eapply Forall_impl; [exact H2|].
    intros g Hg. by apply ValidateAuthorityUse_None in Hg. }
  destruct (Analyze _ _ _) as [use|e] eqn:Ea.
  - intros [H1 H2]%Hj. exists registry, use. split_and!; [done|by left|done|done].
  - destruct (error_is sentinel_no_analyzer e) eqn:Es; [|done].
    destruct (restricted_intent intent) eqn:E1; [done|].
    destruct (existsb restricted_grant chain) eqn:E2; [done|]. cbn [orb].
    intros [H1 H2]%Hj. exists registry, no_use. split_and!; [done|right|done|done].
    split_and!; [by exists e|done..].
Qed.

(** The terms of one grant, for an operation on a channel of an effect class. *)
Record grant_terms (op : OperationRef.t) (channel : string) (effect : EffectClass) (approved : bool)
    (g : AuthorityGrantV2.t) : Prop := {
  gt_operation : op ∈ elems g.(AuthorityGrantV2.Operations);
  gt_channel : channel ∈ elems g.(AuthorityGrantV2.Channels) \/ "*" ∈ elems g.(AuthorityGrantV2.Channels);
  gt_effect : effect ∈ elems g.(AuthorityGrantV2.EffectClasses);
  gt_ceiling : g.(AuthorityGrantV2.EffectCeiling) <> "" ->
    Rank effect <= Rank g.(AuthorityGrantV2.EffectCeiling);
  gt_approval : g.(AuthorityGrantV2.Approval).(ApprovalRequirementV2.Required) = true -> approved = true
}.

Definition grant_opened (t : budget_tables) (g : AuthorityGrantV2.t) : Prop :=
  account_opened t g.(AuthorityGrantV2.ProfileID) "grant" g.(AuthorityGrantV2.GrantID)
    g.(AuthorityGrantV2.Budget).

Lemma operation_single op l : operationSubsetSQLite [op] l = true <-> op ∈ l.
Proof.
  rewrite (proj1 sqlite_subsets). split; [intros H; apply H; by left|].
  intros H x [->|Hx]%elem_of_cons; [done|by apply not_elem_of_nil in Hx].
Qed.

Lemma containsAuthorityEffect_true l x : containsAuthorityEffect l x = true <-> x ∈ l.
Proof.
  unfold containsAuthorityEffect. rewrite existsb_exists. split.
  - intros (y & Hy & E). bools. subst. by apply list_elem_of_In.
  - intros H. exists x. split; [by apply list_elem_of_In|by apply bool_decide_eq_true_2].
Qed.

Lemma grant_admits_Ok op channel effect approved at_ g s s' :
  ledger_sound s.(t_budget) -> typed_budget g.(AuthorityGrantV2.Budget) ->
  grant_admits op channel effect approved at_ g s = Ok (tt, s') ->
  accounts_grow s.(t_budget) s'.(t_budget) /\ s' = with_budget s'.(t_budget) s
  /\ grant_opened s'.(t_budget) g /\ grant_terms op channel effect approved g.
Proof.
  intros Hs Hb H. unfold grant_admits in H. tx_door H E1.
  apply ensureBudgetAccountTx_Ok in E1 as (Hg & Ho & Hw); [|done|done].
  tx_next H E2. apply require_fail_Ok in H as [E3 [= ->]].
  apply orb_false_iff in E2 as [E2 Ec]. apply orb_false_iff in E2 as [E2 Ee].
  apply orb_false_iff in E2 as [Eo Eh]. apply negb_false_iff in Eo, Eh, Ee.
  split_and!; [done..|]. split.
  - by apply operation_single.
  - by apply containsAuthorityString_true.
  - by apply containsAuthorityEffect_true.
  - intros Hc. apply andb_false_iff in Ec as [Ec|Ec]; [by apply bool_decide_eq_false in Ec|].
    by apply Z.ltb_ge in Ec.
  - apply andb_false_iff in E3 as [E3|E3]; [by rewrite E3|]. by destruct approved.
Qed.

Lemma grants_admit op channel effect approved at_ gs s s' :
  ledger_sound s.(t_budget) -> Forall (fun g => typed_budget g.(AuthorityGrantV2.Budget)) gs ->
  for_all (grant_admits op channel effect approved at_) gs s = Ok (tt, s') ->
  accounts_grow s.(t_budget) s'.(t_budget) /\ s' = with_budget s'.(t_budget) s
  /\ Forall (grant_opened s'.(t_budget)) gs /\ Forall (grant_terms op channel effect approved) gs.
Proof.
  revert s. induction gs as [|g gs IH]; intros s Hs Hb H; cbn [for_all] in H.
  - apply tx_ret_Ok in H as [= ->]. split; [by apply accounts_grow_refl|].
    split; [by destruct s|]. split; constructor.
  - apply Forall_cons in Hb as [Hb Hbs]. tx_door H E.
    apply grant_admits_Ok in E as (G1 & W1 & O1 & T1); [|done|done].
    destruct (IH s1 (ag_sound _ _ G1) Hbs H) as (G2 & W2 & O2 & T2). split_and!.
    + by eapply accounts_grow_trans.
    + by eapply only_trans.
    + constructor; [exact (account_kept _ _ _ _ _ _ G2 O1)|exact O2].
    + by constructor.
Qed.

(** A lineage does not depend on the budget. *)
Lemma lineage_budget h s b at_ id v l : lineage h (with_budget b s) at_ id v l <-> lineage h s at_ id v l.
Proof.
  split; (induction 1 as [v|id v g l Hid [[Hrow Hsig] Hact Hwin] _ IH]; [constructor|]);
    (constructor; [done| |done]); by split.
Qed.

(** The chain of a signed grant: live up to its root and within the intent,
    held by the actor, every grant of it admitting the request. *)
Record resolved_chain (h : Handle) (s : db) (t : budget_tables) (at_ : time) (b : bindingAuthority)
    (intent : IntentContractV2.t) (actor channel : string) (op : OperationRef.t) (effect : EffectClass)
    (approved : bool) (chain : list storedGrantV2) : Prop := {
  rc_lineage : exists l, lineage h s at_ b.(ba_GrantID) b.(ba_GrantVersion) l
    /\ (1 <= List.length l <= maxChain)%nat /\ NoDup l.*1 /\ chain = reverse l.*2;
  rc_leaf : exists leaf, last chain = Some leaf
    /\ AuthorityGrantV2_Digest (grant_of_stored leaf) = b.(ba_GrantDigest)
    /\ (grant_of_stored leaf).(AuthorityGrantV2.SubjectPrincipalID) = actor;
  rc_within : chain_within h intent (map grant_of_stored chain);
  rc_terms : Forall (grant_terms op channel effect approved) (map grant_of_stored chain);
  rc_opened : Forall (grant_opened t) (map grant_of_stored chain)
}.

Lemma missing_authority_Ok {A} (m : Tx A) s r : missing_authority m s = Ok r <-> m s = Ok r.
Proof. unfold missing_authority. destruct (m s); naive_solver. Qed.

#[export] Instance missing_authority_reads {A} (m : Tx A) : Reads m -> Reads (missing_authority m).
Proof. intros Hm s a s' H. exact (Hm _ _ _ (proj1 (missing_authority_Ok m s (a, s')) H)). Qed.

#[export] Instance grantOriginTx_reads g : Reads (grantOriginTx g).
Proof. unfold grantOriginTx, grantOriginActorTx. solve_reads. Qed.

Lemma lineage_member h s at_ id v l x g : lineage h s at_ id v l -> (x, g) ∈ l ->
  exists v', grant_live h s x v' at_ g.
Proof.
  induction 1 as [v|id v g' l Hid Hlive _ IH]; [by intros ?%not_elem_of_nil|].
  intros [[= -> ->]|Hx]%elem_of_cons; [by exists v|by apply IH].
Qed.

Lemma chain_typed h s at_ id v l : grants_sound h s -> lineage h s at_ id v l ->
  Forall (fun g => typed_budget g.(AuthorityGrantV2.Budget)) (map grant_of_stored (reverse l.*2)).
Proof.
  intros Hs Hl. apply Forall_map, Forall_forall. intros g Hg. rewrite elem_of_reverse in Hg.
  apply list_elem_of_fmap in Hg as ([x g'] & -> & Hx). destruct (lineage_member _ _ _ _ _ _ _ _ Hl Hx) as [v' [Hst _ _]].
  destruct (stored_valid _ _ _ _ _ Hs Hst) as (_ & _ & [Ht _]). exact Ht.
Qed.

Lemma resolve_chain_Ok h b intent actor channel op effect approved at_ chain principals s s' :
  grants_sound h s -> ledger_sound s.(t_budget) ->
  resolve_chain h b intent actor channel op effect approved at_ s = Ok ((chain, principals), s') ->
  accounts_grow s.(t_budget) s'.(t_budget) /\ s' = with_budget s'.(t_budget) s
  /\ resolved_chain h s s'.(t_budget) at_ b intent actor channel op effect approved chain.
Proof.
  intros Hs Hl H. unfold resolve_chain in H.
  apply tx_bind_Ok in H as (chain' & s1 & E1 & H). pose proof (proj1 (missing_authority_Ok _ _ _) E1) as E1'. clear E1. rename E1' into E1.
  pose proof (reads _ _ _ E1) as ->. pose proof (proj1 (authorityChainTx_Ok _ _ _ _ _ _ Hs) E1) as (l & Hlin & Hlen & Hnd & ->).
  apply tx_bind_Ok in H as (leaf & s1 & E2 & H). unfold leaf_of in E2.
  apply found_Ok in E2 as (leaf' & Hlast & [= <- ->]).
  tx_next H E3. tx_next H E4. apply validateStoredAuthorityChain_None in E4. tx_next H E5.
  apply tx_bind_Ok in H as (origin & s1 & E6 & H). pose proof (reads _ _ _ E6) as ->.
  tx_door H E7. apply grants_admit in E7 as (G & W & O & T); [|done|by eapply chain_typed].
  tx_next H E8. apply tx_ret_Ok in H as [= -> -> ->]. passed. split_and!; [done|done|].
  split; [by exists l|by exists leaf|done..].
Qed.

(** The clause of a brain's configuration, for a tool of an armed store. *)
Record resolved_clause (h : Handle) (s : db) (t : budget_tables) (intent : IntentContractV2.t)
    (actor channel : string) (op : Operation.t) (clause : ConfigAuthorityClause.t) (generation : Z)
    : Prop := {
  rl_armed : h.(authorityActivationDigest) <> "" /\ op.(Operation.Namespace) = "tool";
  rl_clause : exists row clauses,
    config_current h s intent.(IntentContractV2.ProfileID) actor row clauses
    /\ row.(ch_generation) = generation
    /\ filter (covers op.(Operation.Name) channel) clauses = [clause];
  rl_opened : account_opened t intent.(IntentContractV2.ProfileID) "config"
    (configAccountScope actor op.(Operation.Name)) unlimited
}.

Lemma resolve_clause_Ok h intent actor channel op at_ clause generation s s' :
  ledger_sound s.(t_budget) ->
  resolve_clause h intent actor channel op at_ s = Ok ((clause, generation), s') ->
  accounts_grow s.(t_budget) s'.(t_budget) /\ s' = with_budget s'.(t_budget) s
  /\ resolved_clause h s s'.(t_budget) intent actor channel op clause generation.
Proof.
  intros Hl H. unfold resolve_clause in H. tx_next H E1.
  apply tx_bind_Ok in H as (c & s1 & E2 & H). apply configAuthorityClauseTx_Ok in E2 as (-> & row & cs & E2 & Hf).
  tx_next H E3. tx_next H E4. tx_door H E5. apply ensureBudgetAccountTx_Ok in E5 as (G & O & W); [|done|by intros m].
  apply tx_ret_Ok in H as [= -> -> ->]. rewrite (cc_head _ _ _ _ _ _ E2) in E4. injection E4 as <-.
  apply orb_false_iff in E1 as [E1 E1']. passed.
  split; [done|]. split; [done|]. split; [done|by exists row, cs|done].
Qed.

(** Where the authority of a request comes from: its chain, the references and
    principals it is recorded under, and the accounts that pay. *)
Inductive granted (h : Handle) (s : db) (t : budget_tables) (at_ : time) (b : bindingAuthority)
    (intent : IntentContractV2.t) (actor channel : string) (op : Operation.t) (effect : EffectClass)
    (approved : bool) : resolvedAuthority -> Prop :=
| granted_by_chain r : b.(ba_GrantID) <> "" ->
    resolved_chain h s t at_ b intent actor channel (operation_ref op) effect approved r.(ra_chain) ->
    r.(ra_refs) = map (fun g => (grant_of_stored g).(AuthorityGrantV2.GrantID)) r.(ra_chain) ->
    r.(ra_accounts) = intent_account intent :: map (fun g => grant_account (grant_of_stored g)) r.(ra_chain) ->
    r.(ra_generation) = 0 -> granted h s t at_ b intent actor channel op effect approved r
| granted_by_clause clause r : b.(ba_GrantID) = "" ->
    resolved_clause h s t intent actor channel op clause r.(ra_generation) ->
    r.(ra_chain) = [] -> r.(ra_refs) = [clause.(ConfigAuthorityClause.ClauseID)] ->
    r.(ra_principals) = [intent.(IntentContractV2.OwnerPrincipalID); actor] ->
    r.(ra_accounts) = [intent_account intent; clause_account intent actor op] ->
    granted h s t at_ b intent actor channel op effect approved r.

Record resolves (h : Handle) (s : db) (t : budget_tables) (actor channel conversation : string)
    (op : Operation.t) (arguments : string) (effect : EffectClass) (at_ : time) (approved : bool)
    (r : resolvedAuthority) : Prop := {
  rv_source : exists row, head (selected actor channel conversation s.(t_intents).(bindings)) = Some row
    /\ let b := binding_of_row row in
       authorises h s b.(ba_IntentID) b.(ba_IntentVersion) b.(ba_IntentDigest) at_ r.(ra_intent)
       /\ granted h s t at_ b r.(ra_intent) actor channel op effect approved r;
  rv_operation : operation_ref op ∈ elems r.(ra_intent).(IntentContractV2.Operations);
  rv_effect : effect ∈ elems r.(ra_intent).(IntentContractV2.EffectClasses);
  rv_approval : r.(ra_intent).(IntentContractV2.Approval).(ApprovalRequirementV2.Required) = true ->
    approved = true;
  rv_armed : h.(authorityActivationDigest) <> "" ->
    r.(ra_intent).(IntentContractV2.ProfileID) = h.(authorityProfileID)
    /\ verifyAuthorityActivationTx h h.(authorityProfileID) h.(authorityActivationDigest) s = Ok (tt, s);
  rv_use : use_within h r.(ra_intent) (map grant_of_stored r.(ra_chain)) op.(Operation.Name) arguments;
  rv_key : r.(ra_operation) = operation_text (operation_ref op);
  rv_intent : account_opened t r.(ra_intent).(IntentContractV2.ProfileID) "intent"
    r.(ra_intent).(IntentContractV2.IntentID) r.(ra_intent).(IntentContractV2.Budget);
  rv_left : r.(ra_remaining) =
    fold_left min_remaining (map (left_for t r.(ra_operation)) r.(ra_accounts)) None
}.

Lemma contains_slash_not_star a b : a +:+ "/" +:+ b <> "*".
Proof. destruct a as [|c [|d a]]; intros H; cbn in H; injection H; intros; discriminate. Qed.

Lemma operation_key_not_star op : operation_text op <> "*".
Proof. apply contains_slash_not_star. Qed.

Lemma least_remaining_Ok h o least ids s x s' : o <> "*" -> ledger_sound s.(t_budget) ->
  least_remaining h o least ids s = Ok (x, s') ->
  s' = s /\ x = fold_left min_remaining (map (left_for s.(t_budget) o) ids) least.
Proof.
  intros No Hs. revert least. induction ids as [|a ids IH]; intros least H; cbn [least_remaining] in H.
  - by apply tx_ret_Ok in H as [= -> ->].
  - apply tx_bind_Ok in H as (v & s1 & E & H). pose proof (reads _ _ _ E) as ->.
    apply remainingBeforeAccountTx_Ok in E as (row & Hrow & ->); [|done|done].
    apply IH in H as [-> ->]. split; [done|]. cbn [map fold_left].
    by assert (left_for s.(t_budget) o a = free s.(t_budget) a row o) as -> by (unfold left_for; by rewrite Hrow).
Qed.

#[export] Instance verifyAuthorityActivationTx_reads h p d : Reads (verifyAuthorityActivationTx h p d).
Proof.
  assert (forall row, Reads (activation_root h p d row)) as Hr
    by (intros row; unfold activation_root; solve_reads).
  assert (forall w row, Reads (birth_step h p d w row)) as Hb.
  { intros [[e q] seen] row. unfold birth_step. solve_reads. }
  assert (forall l w, Reads (walk_births h p d w l)) as Hw.
  { induction l as [|row l IH]; intros w; cbn [walk_births]; solve_reads. }
  unfold verifyAuthorityActivationTx. solve_reads.
Qed.

#[export] Instance bindingAuthorityTx_reads a c v : Reads (bindingAuthorityTx a c v).
Proof. unfold bindingAuthorityTx. solve_reads. Qed.

Lemma bindingAuthorityTx_Ok actor channel conversation b s s' :
  bindingAuthorityTx actor channel conversation s = Ok (b, s') ->
  s' = s /\ exists row, head (selected actor channel conversation s.(t_intents).(bindings)) = Some row
    /\ b = binding_of_row row.
Proof.
  intros H. unfold bindingAuthorityTx in H. tx_next H E1. tx_next H E2. tx_next H E3.
  apply tx_ret_Ok in H as [= -> ->]. split; [done|]. by exists x.
Qed.

Lemma authorised_budget h s id v digest at_ c : authorises h s id v digest at_ c ->
  typed_budget c.(IntentContractV2.Budget).
Proof. intros [(row & _ & Hp) _ _ _]. by eapply parsed_intent_budget. Qed.

Lemma resolved_chain_kept h s s1 t t' at_ b intent actor channel op effect approved chain :
  s1 = with_budget s1.(t_budget) s -> accounts_grow t t' ->
  resolved_chain h s1 t at_ b intent actor channel op effect approved chain ->
  resolved_chain h s t' at_ b intent actor channel op effect approved chain.
Proof.
  intros W G [(l & Hl & H1) H2 H3 H4 H5]. split; [|done|done|done|].
  - exists l. split; [|done]. rewrite W in Hl. by apply lineage_budget in Hl.
  - eapply Forall_impl; [exact H5|]. exact (fun g H => account_kept _ _ _ _ _ _ G H).
Qed.

#[export] Instance verifies_activation_reads h m p : Reads m -> Reads (verifies_activation h m p).
Proof. intros Hm. unfold verifies_activation. solve_reads. Qed.

Lemma grants_with_budget h s b : grants_sound h s -> grants_sound h (with_budget b s).
Proof. intros Hs. by apply (grants_untouched h s). Qed.

Lemma config_with_budget h s b profile brain row clauses :
  config_current h (with_budget b s) profile brain row clauses -> config_current h s profile brain row clauses.
Proof. intros [H1 H2 H3 H4 H5]. by split. Qed.

Lemma resolveAuthorityTx_Ok h actor channel conversation op arguments effect at_ approved r s s' :
  grants_sound h s -> ledger_sound s.(t_budget) ->
  resolveAuthorityTx h actor channel conversation op arguments effect at_ approved s = Ok (r, s') ->
  accounts_grow s.(t_budget) s'.(t_budget) /\ s' = with_budget s'.(t_budget) s
  /\ resolves h s s'.(t_budget) actor channel conversation op arguments effect at_ approved r.
Proof.
  intros Hs Hl H. unfold resolveAuthorityTx in H.
  apply tx_bind_Ok in H as (b & s1 & E1 & H). apply bindingAuthorityTx_Ok in E1 as (-> & row & Hrow & ->).
  apply tx_bind_Ok in H as (intent & s1 & E2 & H). apply activeIntentTx_sound in E2 as (-> & Hi).
  tx_door H E3. pose proof (reads _ _ _ E3) as ->.
  assert (h.(authorityActivationDigest) <> "" -> intent.(IntentContractV2.ProfileID) = h.(authorityProfileID)
    /\ verifyAuthorityActivationTx h h.(authorityProfileID) h.(authorityActivationDigest) s = Ok (tt, s)) as Harm.
  { intros Hd. unfold verifies_activation in E3. rewrite bool_decide_eq_false_2 in E3 by done.
    tx_next E3 E4. passed. done. }
  clear E3. tx_next H E4. tx_next H E5. tx_door H E6.
  apply ensureBudgetAccountTx_Ok in E6 as (G1 & O1 & W1); [|done|by eapply authorised_budget].
  apply orb_false_iff in E4 as [Eo Ee]. apply negb_false_iff in Eo, Ee.
  apply operation_single in Eo. apply containsAuthorityEffect_true in Ee.
  assert (intent.(IntentContractV2.Approval).(ApprovalRequirementV2.Required) = true -> approved = true) as Hap.
  { intros Hr. rewrite Hr in E5. by destruct approved. }
  apply tx_bind_Ok in H as ([[[[chain refs] principals] accts] generation] & s2 & E7 & H). cbn beta iota in H.
  tx_next H E8. apply tx_bind_Ok in H as (remaining & s3 & E9 & H).
  assert (accounts_grow s1.(t_budget) s2.(t_budget) /\ s2 = with_budget s2.(t_budget) s1
    /\ forall x, granted h s s2.(t_budget) at_ (binding_of_row row) intent actor channel op effect approved
         {| ra_intent := intent; ra_chain := chain; ra_refs := refs; ra_principals := principals;
            ra_accounts := accts; ra_operation := operation_text (operation_ref op);
            ra_generation := generation; ra_remaining := x |}) as (G2 & W2 & Hg).
  { assert (grants_sound h s1) as Hs1 by (rewrite W1; by apply grants_with_budget).
    case_bool_decide as Eb.
    - apply tx_bind_Ok in E7 as ([clause gen] & s4 & E7 & E7'). cbn beta iota in E7'.
      apply tx_ret_Ok in E7' as [= -> -> -> -> -> ->].
      apply resolve_clause_Ok in E7 as (G & W & [Ha (hr & cs & Hc & Hgen & Hf) Ho]); [|apply G1].
      split; [done|]. split; [done|]. intros x. apply (granted_by_clause _ _ _ _ _ _ _ _ _ _ _ clause); try done.
      split; [done| |done]. exists hr, cs. split; [|done]. rewrite W1 in Hc. by apply config_with_budget in Hc.
    - apply tx_bind_Ok in E7 as ([ch pr] & s4 & E7 & E7'). cbn beta iota in E7'.
      apply tx_ret_Ok in E7' as [= -> -> -> -> -> ->].
      apply resolve_chain_Ok in E7 as (G & W & R); [|exact Hs1|apply G1].
      split; [done|]. split; [done|]. intros x. apply granted_by_chain; try done. cbn [ra_chain].
      eapply resolved_chain_kept; [exact W1|by apply accounts_grow_refl, G|exact R]. }
  apply least_remaining_Ok in E9 as [-> ->]; [|apply operation_key_not_star|apply G2].
  apply tx_ret_Ok in H as [= -> ->].
  split; [by eapply accounts_grow_trans|]. split; [by eapply only_trans|].
  split; cbn [ra_intent ra_chain ra_accounts ra_operation ra_remaining]; try done.
  - exists row. by split.
  - by apply validateAuthorityActualUse_None in E8.
  - exact (account_kept _ _ _ _ _ _ G2 O1).
Qed.

(** ** What a start writes *)

Definition with_born (id : string) (row : action_row) (d : decision_row) (es : gmap string evidence_row)
    (s : db) : db :=
  with_actions {| actions := <[id := row]> s.(t_actions).(actions);
                  decisions := <[id := d]> s.(t_actions).(decisions);
                  legacy_evidence := s.(t_actions).(legacy_evidence) |}
    (with_identity (set_evidence es s.(t_identity)) s).

Lemma birthActionTx_Ok e state signed d s s' : birthActionTx e state signed d s = Ok (tt, s') ->
  let id := e.(ActionEnvelope.ActionID) in
  s.(t_actions).(actions) !! id = None /\ s.(t_actions).(decisions) !! id = None
  /\ exists es, s' = with_born id (birth_action_row e state signed) d es s.
Proof.
  intros H id. unfold birthActionTx, insertActionTx, insertEvidenceTx, insertDecisionTx, change_identity in H.
  tx_door H E1. tx_next E1 F1. tx_next E1 F2. apply change_Ok in E1 as [= ->].
  tx_door H E2. tx_next E2 F3. tx_next E2 F4. tx_next E2 F5. tx_next E2 F6. apply change_Ok in E2 as [= ->].
  tx_next H F7. tx_next H F8. apply change_Ok in H as [= ->].
  apply orb_false_iff in F8 as [F8 _]. apply bool_decide_eq_false in F2, F8.
  split; [by apply eq_None_not_Some|]. split; [by apply eq_None_not_Some|]. by eexists.
Qed.

Lemma debitSetDigestTx_Ok act s d s' : debitSetDigestTx act s = Ok (d, s') ->
  s' = s /\ debits_of_action act s.(t_budget).(debits) <> []
  /\ d = debit_set_digest (merge_sort by_account (map debit_ref (debits_of_action act s.(t_budget).(debits)))).
Proof.
  intros H. unfold debitSetDigestTx in H. tx_next H E1. tx_next H E2. apply tx_ret_Ok in H as [= -> ->].
  split; [done|]. split; [|done]. apply bool_decide_eq_false in E2. by intros E; rewrite E in E2.
Qed.

#[export] Instance debitSetDigestTx_reads act : Reads (debitSetDigestTx act).
Proof. unfold debitSetDigestTx. solve_reads. Qed.

(** The record of a start: its terms, the digest of its debits, a seal. *)
Record start_recorded (h : Handle) (s : db) (act : string) (resolved : resolvedAuthority)
    (identityDigest : string) (policyVersion : Z) (policyDigest : string) (at_ : time) (row : start_row)
    : Prop := {
  sr_terms : row.(st_intent) = resolved.(ra_intent).(IntentContractV2.IntentID)
    /\ row.(st_intent_version) = resolved.(ra_intent).(IntentContractV2.Version)
    /\ row.(st_intent_digest) = IntentContractV2_Digest resolved.(ra_intent)
    /\ row.(st_chain) = resolvedGrantChain resolved /\ row.(st_time) = rfc3339 at_;
  sr_debits : debits_of_action act s.(t_budget).(debits) <> []
    /\ row.(st_debits) = debit_set_digest
         (merge_sort by_account (map debit_ref (debits_of_action act s.(t_budget).(debits))));
  sr_decision : exists d, s.(t_actions).(decisions) !! act = Some d
    /\ d.(de_policy_version) = policyVersion /\ d.(de_policy_digest) = policyDigest
    /\ row.(st_canonical) = start_json
         {| sr_ActionID := act; sr_Generation := row.(st_generation); sr_IntentID := row.(st_intent);
            sr_IntentVersion := row.(st_intent_version); sr_IntentDigest := row.(st_intent_digest);
            sr_GrantChain := row.(st_chain); sr_DebitSetDigest := row.(st_debits);
            sr_IdentityEvidenceDigest := identityDigest; sr_ConfigGeneration := resolved.(ra_generation);
            sr_DecisionDigest := decision_digest act d; sr_PolicyVersion := policyVersion;
            sr_PolicyDigest := policyDigest; sr_AuthorizationTime := row.(st_time) |};
  sr_sealed : sealed h s.(signing_keys) authorityStartDomain row.(st_canonical) row.(st_seal)
}.

Lemma insertAuthorizationStartTx_Ok h act generation resolved idd pv pd at_ s s' :
  insertAuthorizationStartTx h act generation resolved idd pv pd at_ s = Ok (tt, s') ->
  s.(t_authz).(starts) !! act = None
  /\ exists row, start_recorded h s act resolved idd pv pd at_ row
       /\ s' = with_authz (set_starts (<[act := row]> s.(t_authz).(starts)) s.(t_authz)) s.
Proof.
  intros H. unfold insertAuthorizationStartTx in H.
  apply tx_bind_Ok in H as (dd & s1 & E1 & H). apply debitSetDigestTx_Ok in E1 as (-> & Hne & ->).
  tx_next H E2. tx_next H E3. tx_next H E4. cbv zeta in H.
  apply tx_bind_Ok in H as (seal & s1 & E5 & H). pose proof (signAuthorityTx_sealed _ _ _ _ _ _ E5) as Hsl.
  apply reads in E5 as ->. tx_next H E6. tx_next H E7. apply change_Ok in H as [= ->].
  apply bool_decide_eq_false in E7. passed. split; [by apply eq_None_not_Some|]. eexists. split; [|reflexivity].
  split; cbn [st_intent st_intent_version st_intent_digest st_chain st_time st_debits st_canonical st_seal
              st_generation sr_IntentID sr_IntentVersion sr_IntentDigest sr_GrantChain
              sr_AuthorizationTime]; try done.
  exists x. split; [done|]. split; [done|]. split; done.
Qed.

Lemma insertAuthorizationSnapshotTx_Ok h snapshot d s s' :
  insertAuthorizationSnapshotTx h snapshot d s = Ok (tt, s') ->
  let id := snapshot.(AuthorizationSnapshotV1.ActionID) in
  snapshot_valid snapshot /\ snapshot.(AuthorizationSnapshotV1.IdentityEvidenceDigest) = d /\ d <> ""
  /\ s.(t_authz).(snapshots) !! id = None
  /\ exists row, row.(ss_canonical) = SnapshotCanonicalBytes snapshot
       /\ sealed h s.(signing_keys) AuthorizationSnapshotV1Domain row.(ss_canonical)
            {| as_Digest := row.(ss_digest); as_SigningKeyID := row.(ss_key);
               as_Signature := row.(ss_signature) |}
       /\ row.(ss_approval) = snapshot.(AuthorizationSnapshotV1.ApprovalID)
       /\ s' = with_authz (set_snapshots (<[id := row]> s.(t_authz).(snapshots)) s.(t_authz)) s.
Proof.
  intros H id. unfold insertAuthorizationSnapshotTx in H. tx_next H E1. cbv zeta in H.
  apply tx_bind_Ok in H as (seal & s1 & E2 & H). pose proof (signAuthorityTx_sealed _ _ _ _ _ _ E2) as Hsl.
  apply reads in E2 as ->. tx_next H E3. tx_next H E4. tx_next H E5. apply change_Ok in H as [= ->].
  apply orb_false_iff in E5 as [E5 _]. apply bool_decide_eq_false in E5.
  apply orb_false_iff in E1 as [E1 Ed]. apply orb_false_iff in E1 as [Ev Ee].
  apply bool_decide_eq_false in Ev, Ed, Ee. apply dec_stable in Ed.
  apply dec_stable in Ev.
  split; [by apply ValidateSnapshot_None|]. split; [done|]. split; [done|].
  split; [by apply eq_None_not_Some|]. refine (ex_intro _ _ (conj _ (conj _ (conj _ eq_refl)))).
  - reflexivity.
  - cbn [ss_canonical ss_digest ss_key ss_signature]. by destruct seal.
  - reflexivity.
Qed.

(** ** A start *)

Lemma charged_accounts t t' ids o k : t'.(accounts) = t.(accounts) -> charged t' ids o k = charged t ids o k.
Proof. unfold charged. by intros ->. Qed.

Lemma min_assoc a b c : min_remaining (min_remaining a b) c = min_remaining a (min_remaining b c).
Proof.
  destruct a, b, c; simpl; repeat (case_match; simpl in *; simplify_eq);
    repeat match goal with H : (_ <? _) = true |- _ => apply Z.ltb_lt in H
      | H : (_ <? _) = false |- _ => apply Z.ltb_ge in H end; first [done|f_equal; lia|lia].
Qed.

Lemma fold_min l least : fold_left min_remaining l least = min_remaining least (fold_left min_remaining l None).
Proof.
  revert least. induction l as [|x l IH]; intros least; cbn [fold_left]; [by destruct least|].
  rewrite IH, (IH (min_remaining None x)). by rewrite min_assoc.
Qed.

Lemma min_twice l : fold_left min_remaining l (fold_left min_remaining l None) = fold_left min_remaining l None.
Proof. rewrite fold_min. destruct (fold_left _ _ _); simpl; [|done]. by rewrite Z.ltb_irrefl. Qed.

Lemma min_positive l n : Forall (fun x => forall m, x = Some m -> 0 < m) l ->
  fold_left min_remaining l None = Some n -> 0 < n.
Proof.
  intros Hl. revert n. induction Hl as [|x l Hx _ IH]; intros n; cbn [fold_left]; [done|].
  rewrite fold_min. destruct x as [m|], (fold_left min_remaining l None) as [m'|]; simpl;
    [destruct (m' <? m)| | |]; intros [= <-]; by auto.
Qed.

Definition start_evidence (r : AuthorityStartRequest.t) (act : string) (evidence : Evidence.t) : Prop :=
  (exists f, r.(AuthorityStartRequest.ResolveEvidence) = Some f /\ f act = Ok evidence)
  /\ (r.(AuthorityStartRequest.ActorPrincipalID) <> "" ->
      evidence.(Evidence.ActorPrincipalID) = r.(AuthorityStartRequest.ActorPrincipalID)).

Definition start_envelope (act : string) (r : AuthorityStartRequest.t) (evidence : Evidence.t)
    (resolved : resolvedAuthority) : ActionEnvelope.t :=
  resolved_envelope act r.(AuthorityStartRequest.CorrelationID) r.(AuthorityStartRequest.SourceProtocol)
    r.(AuthorityStartRequest.Channel) r.(AuthorityStartRequest.Operation)
    r.(AuthorityStartRequest.Arguments) r.(AuthorityStartRequest.EffectClass)
    r.(AuthorityStartRequest.At) evidence resolved.

(** What the tables hold after a start that they did not before: the action
    with its decision, the debits, the start record and the snapshot. *)
Record start_written (h : Handle) (s s' : db) (act : string) (r : AuthorityStartRequest.t)
    (evidence : Evidence.t) (resolved : resolvedAuthority) (remaining : option Z) : Prop := {
  sw_tables : exists row d es start snapshot, s' =
    with_authz {| starts := <[act := start]> s.(t_authz).(starts);
                  snapshots := <[act := snapshot]> s.(t_authz).(snapshots) |}
      (with_born act row d es (with_budget s'.(t_budget) s));
  sw_action : exists row, s'.(t_actions).(actions) !! act = Some row
    /\ row.(aw_state) = ActionState.StateAuthorized
    /\ row.(aw_principal) = Some evidence.(Evidence.ActorPrincipalID)
    /\ row.(aw_intent) = Some resolved.(ra_intent).(IntentContractV2.IntentID)
    /\ row.(aw_parameters) = Digest r.(AuthorityStartRequest.Operation) r.(AuthorityStartRequest.Arguments);
  sw_start : exists identity row, s'.(t_authz).(starts) !! act = Some row
    /\ start_recorded h s' act resolved identity r.(AuthorityStartRequest.PolicyVersion)
         r.(AuthorityStartRequest.PolicyDigest) r.(AuthorityStartRequest.At) row;
  sw_snapshot : exists identity row, s'.(t_authz).(snapshots) !! act = Some row
    /\ let snapshot := snapshot_of_resolved AuthorizationSnapshotStart act ""
         r.(AuthorityStartRequest.ConversationID) identity evidence resolved remaining
         r.(AuthorityStartRequest.At) in
       snapshot_valid snapshot /\ row.(ss_canonical) = SnapshotCanonicalBytes snapshot
       /\ sealed h s'.(signing_keys) AuthorizationSnapshotV1Domain row.(ss_canonical)
            {| as_Digest := row.(ss_digest); as_SigningKeyID := row.(ss_key);
               as_Signature := row.(ss_signature) |}
}.

(** A start that the store granted. *)
Record started (h : Handle) (s s' : db) (act : string) (r : AuthorityStartRequest.t)
    (out : AuthorityStartResult) (resolved : resolvedAuthority) : Prop := {
  sd_fresh : s.(t_authz).(starts) !! act = None /\ s.(t_actions).(actions) !! act = None;
  sd_evidence : start_evidence r act out.(asr_Evidence);
  sd_admitted : admitted h s out.(asr_Evidence) (start_envelope act r out.(asr_Evidence) resolved)
    r.(AuthorityStartRequest.At) r.(AuthorityStartRequest.At);
  sd_resolves : exists t, accounts_grow s.(t_budget) t /\ s'.(t_budget).(accounts) = t.(accounts)
    /\ resolves h s t out.(asr_Evidence).(Evidence.ActorPrincipalID) r.(AuthorityStartRequest.Channel)
         r.(AuthorityStartRequest.ConversationID) r.(AuthorityStartRequest.Operation)
         r.(AuthorityStartRequest.Arguments) r.(AuthorityStartRequest.EffectClass)
         r.(AuthorityStartRequest.At) false resolved;
  sd_spent : forall k, spent s'.(t_budget) k.1 k.2 = spent s.(t_budget) k.1 k.2
    + (if charged s'.(t_budget) resolved.(ra_accounts) resolved.(ra_operation) k then 1 else 0);
  sd_paid : NoDup resolved.(ra_accounts) /\ ledger_sound s'.(t_budget)
    /\ Forall (fun a => is_Some (s'.(t_budget).(accounts) !! a) /\ ~ paid s.(t_budget) act a
         /\ paid s'.(t_budget) act a) resolved.(ra_accounts);
  sd_only : only_adds act s.(t_budget) s'.(t_budget)
    /\ forall k, k.1 ∉ resolved.(ra_accounts) -> rows s'.(t_budget) k = rows s.(t_budget) k;
  sd_left : out.(asr_RemainingBefore) = resolved.(ra_remaining)
    /\ forall n, resolved.(ra_remaining) = Some n -> 0 < n;
  sd_written : start_written h s s' act r out.(asr_Evidence) resolved resolved.(ra_remaining);
  sd_result : out.(asr_ActionID) = act
    /\ out.(asr_IntentID) = resolved.(ra_intent).(IntentContractV2.IntentID)
    /\ out.(asr_AuthorityRefs) = resolved.(ra_refs)
}.

Lemma evidenceTx_Ok resolve actor act e s s' : evidenceTx resolve actor act s = Ok (e, s') ->
  s' = s /\ (exists f, resolve = Some f /\ f act = Ok e)
  /\ (actor <> "" -> e.(Evidence.ActorPrincipalID) = actor).
Proof.
  intros H. unfold evidenceTx in H. tx_next H E1. tx_next H E2. tx_next H E3. apply tx_ret_Ok in H as [= -> ->].
  split; [done|]. split; [by exists x|]. intros Ha. apply andb_false_iff in E3 as [E3|E3]; bools; [done|].
  by apply dec_stable in E3.
Qed.

Lemma identity_untouched h s s' : s'.(signing_keys) = s.(signing_keys) ->
  s'.(t_identity).(principals) = s.(t_identity).(principals) ->
  s'.(t_identity).(principal_events) = s.(t_identity).(principal_events) ->
  identity_sound h s -> identity_sound h s'.
Proof.
  intros Hk Hp He [P K R]. split; rewrite Hp, ?He; [|exact K|exact R]. intros id row Hrow.
  destruct (P _ _ Hrow) as (p & Hst & r & ev & pub & ret & H1 & H2 & H3 & H4 & H5 & H6 & H7).
  exists p. split; [done|]. exists r, ev, pub, ret. rewrite He. split_and!; try done.
  by apply (publicKeyTx_keys _ _ _ _ _ Hk) in H6.
Qed.

Lemma identity_with_budget h s b : identity_sound h s -> identity_sound h (with_budget b s).
Proof. by apply identity_untouched. Qed.

Lemma admitted_with_budget h s b e env asked now :
  admitted h (with_budget b s) e env asked now -> admitted h s e env asked now.
Proof. by intros [H1 H2 H3 H4]; split. Qed.

(** The accounts of a resolved request, each charged once. *)
Lemma resolved_and_paid h s s1 s2 act actor channel conversation op arguments effect at_ approved
    resolved before :
  grants_sound h s -> ledger_sound s.(t_budget) ->
  resolveAuthorityTx h actor channel conversation op arguments effect at_ approved s = Ok (resolved, s1) ->
  debit_accounts h act resolved.(ra_operation) at_ resolved.(ra_accounts) s1 = Ok (before, s2) ->
  s2 = with_budget s2.(t_budget) s
  /\ (exists t, accounts_grow s.(t_budget) t /\ s2.(t_budget).(accounts) = t.(accounts)
       /\ resolves h s t actor channel conversation op arguments effect at_ approved resolved)
  /\ (forall k, spent s2.(t_budget) k.1 k.2 = spent s.(t_budget) k.1 k.2
       + (if charged s2.(t_budget) resolved.(ra_accounts) resolved.(ra_operation) k then 1 else 0))
  /\ NoDup resolved.(ra_accounts) /\ ledger_sound s2.(t_budget)
  /\ Forall (fun a => is_Some (s2.(t_budget).(accounts) !! a) /\ ~ paid s.(t_budget) act a
       /\ paid s2.(t_budget) act a) resolved.(ra_accounts)
  /\ only_adds act s.(t_budget) s2.(t_budget)
  /\ (forall k, k.1 ∉ resolved.(ra_accounts) -> rows s2.(t_budget) k = rows s.(t_budget) k)
  /\ fold_left min_remaining before resolved.(ra_remaining) = resolved.(ra_remaining)
  /\ forall n, resolved.(ra_remaining) = Some n -> 0 < n.
Proof.
  intros Hs Hl E1 E2. apply resolveAuthorityTx_Ok in E1 as (G & W & R); [|done|done].
  pose proof (debit_accounts_adds _ _ _ _ _ _ _ _ E2) as Hadd.
  assert (resolved.(ra_operation) <> "*") as No.
  { rewrite (rv_key _ _ _ _ _ _ _ _ _ _ _ _ R). apply operation_key_not_star. }
  apply debit_accounts_Ok in E2 as (Hnd & Hl2 & Ha & W2 & Hsp & -> & All & Rest); [|done|by apply G].
  pose proof (rv_left _ _ _ _ _ _ _ _ _ _ _ _ R) as Hleft.
  split; [by eapply only_trans|]. split; [by exists s1.(t_budget)|]. split; [|split; [done|split; [done|split; [|split; [|split; [|split]]]]]].
  - intros k. rewrite Hsp. unfold spent. rewrite (ag_rows _ _ G). by rewrite (charged_accounts _ _ _ _ _ Ha).
  - eapply Forall_impl; [exact All|]. intros a (H1 & H2 & H3 & _). rewrite Ha. split; [done|]. split; [|done].
    intros (x & Hx & Ex). apply H2. exists x. by rewrite (ag_rows _ _ G).
  - intros k x. rewrite <- (ag_rows _ _ G). apply Hadd.
  - intros k Hk. by rewrite Rest, (ag_rows _ _ G).
  - rewrite Hleft. apply min_twice.
  - intros n. rewrite Hleft. apply min_positive, Forall_map. eapply Forall_impl; [exact All|].
    intros a (_ & _ & _ & H) m. by apply H.
Qed.

(** The rows of a start, once the accounts have paid. *)
Lemma start_rows_written h act r evidence resolved remaining signed s s1 s2 s3 s4 :
  s1 = with_budget s1.(t_budget) s ->
  birthActionTx (start_envelope act r evidence resolved) ActionState.StateAuthorized signed
    {| de_outcome := "allow"; de_rule := "authority";
       de_decided := rfc3339 r.(AuthorityStartRequest.At);
       de_policy_version := r.(AuthorityStartRequest.PolicyVersion);
       de_policy_digest := r.(AuthorityStartRequest.PolicyDigest) |} s1 = Ok (tt, s2) ->
  insertAuthorizationStartTx h act authorityEvidenceEpoch resolved signed.(sv_Digest)
    r.(AuthorityStartRequest.PolicyVersion) r.(AuthorityStartRequest.PolicyDigest)
    r.(AuthorityStartRequest.At) s2 = Ok (tt, s3) ->
  insertAuthorizationSnapshotTx h (snapshot_of_resolved AuthorizationSnapshotStart act ""
    r.(AuthorityStartRequest.ConversationID) signed.(sv_Digest) evidence resolved remaining
    r.(AuthorityStartRequest.At)) signed.(sv_Digest) s3 = Ok (tt, s4) ->
  s.(t_actions).(actions) !! act = None /\ s4.(t_budget) = s1.(t_budget)
  /\ start_written h s s4 act r evidence resolved remaining.
Proof.
  intros W E1 E2 E3. apply birthActionTx_Ok in E1 as (F1 & F2 & es & ->).
  apply insertAuthorizationStartTx_Ok in E2 as (F3 & row & R & ->).
  apply insertAuthorizationSnapshotTx_Ok in E3 as (Hv & _ & _ & F4 & snap & C1 & C2 & _ & ->).
  change (ActionEnvelope.ActionID (start_envelope act r evidence resolved)) with act in *.
  change (AuthorizationSnapshotV1.ActionID (snapshot_of_resolved AuthorizationSnapshotStart act ""
    r.(AuthorityStartRequest.ConversationID) signed.(sv_Digest) evidence resolved remaining
    r.(AuthorityStartRequest.At))) with act in *.
  rewrite W in F1. split; [exact F1|]. split; [reflexivity|]. split.
  - do 3 eexists. exists row, snap. rewrite W. reflexivity.
  - eexists. split; [apply lookup_insert_eq|]. repeat split.
  - exists signed.(sv_Digest), row. split; [apply lookup_insert_eq|]. destruct R as [R1 R2 R3 R4].
    split; [exact R1|exact R2|exact R3|exact R4].
  - exists signed.(sv_Digest), snap. split; [apply lookup_insert_eq|]. split; [exact Hv|]. by split.
Qed.

Lemma signEvidenceTx_reads h e : Reads (signEvidenceTx h e).
Proof. unfold signEvidenceTx. solve_reads. Qed.

Lemma StartAuthorization_Ok h act r out s s' :
  grants_sound h s -> identity_sound h s -> ledger_sound s.(t_budget) ->
  StartAuthorization h act r s = Ok (out, s') -> exists resolved, started h s s' act r out resolved.
Proof.
  intros Hs Hi Hl H. unfold StartAuthorization in H. cbv zeta in H. tx_next H E1. tx_next H E2.
  apply tx_bind_Ok in H as (evidence & s1 & E3 & H). apply evidenceTx_Ok in E3 as (-> & Hev).
  tx_next H E4. tx_next H E5. apply bool_decide_eq_false in E5.
  apply tx_bind_Ok in H as (resolved & s1 & E6 & H). apply tx_bind_Ok in H as (before & s2 & E7 & H).
  destruct (resolved_and_paid _ _ _ _ _ _ _ _ _ _ _ _ _ _ _ Hs Hl E6 E7)
    as (W & Hres & Hsp & Hnd & Hl2 & Hpaid & Hadd & Hrest & Hmin & Hpos).
  tx_door H E8. pose proof (reads _ _ _ E8) as ->. apply gate_Ok in E8; [|rewrite W; by apply identity_with_budget].
  apply tx_bind_Ok in H as (signed & s1' & E9 & H). pose proof (signEvidenceTx_reads _ _ _ _ _ E9) as ->.
  tx_door H E10. tx_door H E11. tx_door H E12. apply tx_ret_Ok in H as [= -> ->].
  rewrite Hmin in *.
  destruct (start_rows_written _ _ _ _ _ _ _ _ _ _ _ _ W E10 E11 E12) as (F & Eb & Hw).
  exists resolved. split; rewrite ?Eb; cbn [asr_Evidence asr_RemainingBefore asr_ActionID asr_IntentID asr_AuthorityRefs]; try done.
  - split; [by apply eq_None_not_Some|exact F].
  - rewrite W in E8. by apply admitted_with_budget in E8.
Qed.

(** ** Many starts *)

(** The state the doors rely on. *)
Record store_sound (h : Handle) (s : db) : Prop := {
  so_grants : grants_sound h s;
  so_identity : identity_sound h s;
  so_ledger : ledger_sound s.(t_budget)
}.

Lemma started_sound h s s' act r out resolved : store_sound h s ->
  started h s s' act r out resolved -> store_sound h s'.
Proof.
  intros [Hg Hi _] H. destruct (sw_tables _ _ _ _ _ _ _ _ (sd_written _ _ _ _ _ _ _ H))
    as (row & d & es & st & sn & W).
  split; [| |by apply (sd_paid _ _ _ _ _ _ _ H)].
  - rewrite W. apply (grants_untouched h s); [done|by intros id key Hk|done].
  - rewrite W. by apply (identity_untouched h s).
Qed.

(** What the rest of the store may do between starts: open accounts, keep every
    debit and every start. *)
Record quiet (h : Handle) (s s' : db) : Prop := {
  qu_sound : store_sound h s -> store_sound h s';
  qu_budget : accounts_grow s.(t_budget) s'.(t_budget);
  qu_starts : s.(t_authz).(starts) ⊆ s'.(t_authz).(starts)
}.

(** The actions a run starts, in order. *)
Inductive starts_run (h : Handle) : db -> list string -> db -> Prop :=
| run_done s : starts_run h s [] s
| run_start s act r out s1 log s2 : StartAuthorization h act r s = Ok (out, s1) ->
    starts_run h s1 log s2 -> starts_run h s (act :: log) s2
| run_quiet s s1 log s2 : quiet h s s1 -> starts_run h s1 log s2 -> starts_run h s log s2.

Lemma started_recorded h s s' act r out resolved : started h s s' act r out resolved ->
  s.(t_authz).(starts) ⊆ s'.(t_authz).(starts) /\ is_Some (s'.(t_authz).(starts) !! act).
Proof.
  intros H. destruct (sw_tables _ _ _ _ _ _ _ _ (sd_written _ _ _ _ _ _ _ H))
    as (row & d & es & st & sn & W). rewrite W. cbn [t_authz with_authz starts].
  split; [apply insert_subseteq, (sd_fresh _ _ _ _ _ _ _ H)|]. rewrite lookup_insert_eq. by eexists.
Qed.

Lemma StartAuthorization_fresh h act r s o : StartAuthorization h act r s = Ok o ->
  s.(t_authz).(starts) !! act = None.
Proof.
  destruct o as [out s']. intros H. unfold StartAuthorization in H. cbv zeta in H. tx_next H E1. tx_next H E2.
  apply tx_bind_Ok in H as (evidence & s1 & E3 & H). apply evidenceTx_Ok in E3 as (-> & _).
  tx_next H E4. tx_next H E5. apply bool_decide_eq_false in E5. by apply eq_None_not_Some.
Qed.

Lemma quiet_paid h s s' b a : quiet h s s' -> paid s'.(t_budget) b a <-> paid s.(t_budget) b a.
Proof. intros [_ G _]. unfold paid. by rewrite (ag_rows _ _ G). Qed.

Lemma paid_stays act t t' b a : only_adds act t t' -> paid t b a -> paid t' b a.
Proof. intros H (x & Hx & E). exists x. split; [by apply H|done]. Qed.

(** The books of a run: each action once, all new, nobody else pays. *)
Record run_books (s : db) (log : list string) (s2 : db) : Prop := {
  rb_once : NoDup log;
  rb_new : Forall (fun b => s.(t_authz).(starts) !! b = None) log;
  rb_starts : s.(t_authz).(starts) ⊆ s2.(t_authz).(starts)
    /\ Forall (fun b => is_Some (s2.(t_authz).(starts) !! b)) log;
  rb_stays : forall b a, paid s.(t_budget) b a -> paid s2.(t_budget) b a;
  rb_others : forall b a, b ∉ log -> paid s2.(t_budget) b a -> paid s.(t_budget) b a;
  rb_spent : forall a, spent s2.(t_budget) a "*" = spent s.(t_budget) a "*"
    + Z.of_nat (List.length (filter (fun b => paid s2.(t_budget) b a /\ ~ paid s.(t_budget) b a) log))
}.

Lemma books_done s : run_books s [] s.
Proof. split; [constructor|constructor|by split|done|done|intros a; cbn; lia]. Qed.

Lemma books_quiet h s s1 log s2 : quiet h s s1 -> run_books s1 log s2 -> run_books s log s2.
Proof.
  intros Q [H1 H2 [H3 H3'] H4 H5 H6]. pose proof (fun b a => quiet_paid h s s1 b a Q) as Qp. destruct Q as [_ G Qs].
  split; [done| |split; [by etrans|done]| | |].
  - eapply Forall_impl; [exact H2|]. intros b Hb. exact (lookup_weaken_None _ _ _ Hb Qs).
  - intros b a Hb. by apply H4, Qp.
  - intros b a Hb Hp. by apply Qp, H5.
  - intros a. rewrite H6. unfold spent. rewrite (ag_rows _ _ G). do 3 f_equal.
    apply list_filter_iff. intros b. by rewrite Qp.
Qed.

(** What one start does to the books: it is new, and each of its accounts pays
    one unit that only it pays. *)
Record pays (s s' : db) (act : string) (accts : list string) : Prop := {
  py_fresh : s.(t_authz).(starts) !! act = None;
  py_starts : s.(t_authz).(starts) ⊆ s'.(t_authz).(starts) /\ is_Some (s'.(t_authz).(starts) !! act);
  py_only : only_adds act s.(t_budget) s'.(t_budget);
  py_apart : forall a, spent s'.(t_budget) a "*" = spent s.(t_budget) a "*" + (if bool_decide (a ∈ accts) then 1 else 0)
    /\ if bool_decide (a ∈ accts) then ~ paid s.(t_budget) act a /\ paid s'.(t_budget) act a
       else paid s'.(t_budget) act a <-> paid s.(t_budget) act a
}.

Lemma charged_apart t t' act accts o a :
  Forall (fun a => is_Some (t'.(accounts) !! a) /\ ~ paid t act a /\ paid t' act a) accts ->
  (forall k, spent t' k.1 k.2 = spent t k.1 k.2 + (if charged t' accts o k then 1 else 0)) ->
  (forall k, k.1 ∉ accts -> rows t' k = rows t k) ->
  spent t' a "*" = spent t a "*" + (if bool_decide (a ∈ accts) then 1 else 0)
  /\ if bool_decide (a ∈ accts) then ~ paid t act a /\ paid t' act a else paid t' act a <-> paid t act a.
Proof.
  intros All Hsp Hrest. specialize (Hsp (a, "*")). cbn [fst snd] in Hsp. rewrite Hsp. clear Hsp.
  case_bool_decide as Ea.
  - rewrite Forall_forall in All. destruct (All _ Ea) as ([row Hr] & Hp). split; [|done].
    by rewrite (charged_total _ _ _ _ _ Hr), bool_decide_true.
  - split; [unfold charged; cbn [fst]; by rewrite bool_decide_false|].
    unfold paid. by rewrite (Hrest (a, "*")).
Qed.

Lemma started_pays h s s' act r out resolved : started h s s' act r out resolved ->
  pays s s' act resolved.(ra_accounts).
Proof.
  intros H. split; [apply (sd_fresh _ _ _ _ _ _ _ H)|by eapply started_recorded|apply (sd_only _ _ _ _ _ _ _ H)|].
  intros a. eapply charged_apart; [apply (sd_paid _ _ _ _ _ _ _ H)|apply (sd_spent _ _ _ _ _ _ _ H)|apply (sd_only _ _ _ _ _ _ _ H)].
Qed.

Lemma filter_same {A} (P Q : A -> Prop) `{!forall x, Decision (P x), !forall x, Decision (Q x)} (l : list A) :
  (forall x, x ∈ l -> P x <-> Q x) -> filter P l = filter Q l.
Proof.
  induction l as [|x l IH]; intros Hl; [done|]. rewrite !filter_cons, IH by (intros y Hy; apply Hl; by right).
  apply decide_ext, Hl. by left.
Qed.

Lemma books_start s act accts s1 log s2 : pays s s1 act accts ->
  run_books s1 log s2 -> run_books s (act :: log) s2.
Proof.
  intros [F0 [S1 S2] Hadd Hap] [H1 H2 [H3 H3'] H4 H5 H6].
  assert (act ∉ log) as Hact.
  { intros Hin. rewrite Forall_forall in H2. rewrite (H2 _ Hin) in S2. by destruct S2. }
  split.
  - by constructor.
  - constructor; [exact F0|]. eapply Forall_impl; [exact H2|]. intros b Hb.
    exact (lookup_weaken_None _ _ _ Hb S1).
  - split; [by etrans|]. constructor; [|done]. destruct S2 as [x Hx]. exists x. by eapply lookup_weaken.
  - intros b a Hb. eapply H4, paid_stays; [exact Hadd|exact Hb].
  - intros b a [Nb Hb]%not_elem_of_cons Hp. apply (adds_paid _ _ _ _ _ Hadd Nb). by apply H5.
  - intros a. destruct (Hap a) as [E P]. rewrite H6, E. clear H6 E.
    rewrite filter_cons.
    assert (filter (fun b => paid s2.(t_budget) b a /\ ~ paid s1.(t_budget) b a) log
      = filter (fun b => paid s2.(t_budget) b a /\ ~ paid s.(t_budget) b a) log) as ->.
    { apply filter_same. intros b Hb. rewrite (adds_paid _ _ _ b a Hadd); [done|by intros ->]. }
    case_bool_decide.
    + rewrite decide_True by (split; [apply H4|]; apply P). cbn [List.length]. lia.
    + rewrite decide_False; [lia|]. intros [Q1 Q2]. by apply Q2, P, H5.
Qed.

Lemma run_keeps_books h s log s2 : starts_run h s log s2 -> store_sound h s ->
  store_sound h s2 /\ run_books s log s2.
Proof.
  induction 1 as [s|s act r out s1 log s2 H _ IH|s s1 log s2 Q _ IH]; intros Hs.
  - split; [done|apply books_done].
  - destruct (StartAuthorization_Ok _ _ _ _ _ _ (so_grants _ _ Hs) (so_identity _ _ Hs) (so_ledger _ _ Hs) H)
      as [resolved St].
    destruct IH as [I1 I2]; [by eapply started_sound|]. split; [done|]. eapply books_start; [by eapply started_pays|done].
  - destruct IH as [I1 I2]; [by apply Q|]. split; [done|by eapply books_quiet].
Qed.

(** ** The starts of the store *)

(** C2.  A start is granted whole or not at all, and paid once.  When
    [StartAuthorization] answers, the action is new; the evidence is the one
    its resolver minted for that action, is the request's actor's, and passes
    the gate in the store as it stands; the request resolves: the binding that
    covers it names an intent that is signed, active and in its window, which
    lists the operation and the effect class and asks for no approval, and
    either a chain of live grants up to its root, held by the actor, inside
    the intent and each admitting the operation, channel and class with no
    approval, or the one clause of the brain's signed configuration that
    covers it; the resources, data and destinations the arguments name are in
    the scope of all of them.  The intent and every grant (or the clause) pay
    one unit each from accounts that had one left, the answer says the least
    that was left, no other counter moves, and the action, its decision, the
    sealed start record over the digest of those debits and the sealed
    snapshot are the only other rows written. *)
Theorem a_start_is_granted_whole_and_paid_once (h : Handle) (s s' : db) act r out :
  store_sound h s -> StartAuthorization h act r s = Ok (out, s') ->
  exists resolved, started h s s' act r out resolved /\ store_sound h s'.
Proof.
  intros Hs H. destruct (StartAuthorization_Ok _ _ _ _ _ _ (so_grants _ _ Hs) (so_identity _ _ Hs)
    (so_ledger _ _ Hs) H) as [resolved St].
  exists resolved. split; [exact St|by eapply started_sound].
Qed.

(** No account is overdrawn by starts, in any order of any length.
    Over a run of starts, between which the rest of the store may open
    accounts and do whatever keeps the debits and the starts, the tables stay
    sound; no action is started twice, whether it started before the run or in
    it, and none of them starts again at its end; and the counter of every
    account grows by exactly the number of actions of the run that paid it,
    so that at most what was left of its limit are granted. *)
Theorem starts_never_overdraw (h : Handle) (s s2 : db) log :
  store_sound h s -> starts_run h s log s2 ->
  store_sound h s2 /\ NoDup log
  /\ Forall (fun act => s.(t_authz).(starts) !! act = None
       /\ forall r o, StartAuthorization h act r s2 <> Ok o) log
  /\ forall a,
       let payers := filter (fun act => paid s2.(t_budget) act a /\ ~ paid s.(t_budget) act a) log in
       spent s2.(t_budget) a "*" = spent s.(t_budget) a "*" + Z.of_nat (List.length payers)
       /\ forall row m, s2.(t_budget).(accounts) !! a = Some row -> row.(ac_max_total) = Some m ->
            Z.of_nat (List.length payers) <= Z.max 0 m - spent s.(t_budget) a "*".
Proof.
  intros Hs H. apply run_keeps_books in H as [Hs2 [H1 H2 [_ H3] _ _ H6]]; [|done].
  split; [exact Hs2|]. split; [exact H1|]. split.
  - apply Forall_forall. intros act Hact. rewrite Forall_forall in H2, H3. split; [by apply H2|].
    intros r o Ho. apply StartAuthorization_fresh in Ho. destruct (H3 _ Hact) as [x Hx]. congruence.
  - intros a payers. split; [apply H6|]. intros row m Hrow Hm.
    pose proof (ls_cap _ (so_ledger _ _ Hs2) a row "*" m Hrow Hm) as Hc. rewrite H6 in Hc.
    fold payers in Hc. lia.
Qed.

(** ** A concrete store *)

(** The brain runs under the operator's grant, on its channel. *)
Definition example_execution : ExecutionBinding.t :=
  {| ExecutionBinding.BindingID := "bind_1"; ExecutionBinding.ActorPrincipalID := "principal_brain_a";
     ExecutionBinding.Channel := "telegram"; ExecutionBinding.ConversationID := "";
     ExecutionBinding.IntentID := "int_1"; ExecutionBinding.IntentVersion := 1;
     ExecutionBinding.IntentDigest := IntentContractV2_Digest example_terms;
     ExecutionBinding.GrantID := ""; ExecutionBinding.GrantVersion := 0;
     ExecutionBinding.GrantDigest := ""; ExecutionBinding.Revision := 1;
     ExecutionBinding.Status := BindingActive |}.

(** A request to read a file under the grant's path. *)
Definition example_start (act : string) : AuthorityStartRequest.t :=
  {| AuthorityStartRequest.ActorPrincipalID := "principal_brain_a";
     AuthorityStartRequest.CorrelationID := "req_" +:+ act;
     AuthorityStartRequest.SourceProtocol := "telegram"; AuthorityStartRequest.Channel := "telegram";
     AuthorityStartRequest.ConversationID := "";
     AuthorityStartRequest.Operation :=
       {| Operation.Namespace := "tool"; Operation.Name := "read_file"; Operation.Version := 1 |};
     AuthorityStartRequest.Arguments := "/srv/notes";
     AuthorityStartRequest.EffectClass := EffectReadExternal; AuthorityStartRequest.At := noon;
     AuthorityStartRequest.ApprovalID := ""; AuthorityStartRequest.PolicyVersion := 1;
     AuthorityStartRequest.PolicyDigest := "pol_1";
     AuthorityStartRequest.ResolveEvidence := Some (fun id => Ok (act_evidence id "principal_brain_a")) |}.

Definition saved {A} (r : result (A * db)) : db := match r with Ok (_, s) => s | Err _ => empty_db end.
Definition bound_db : db := Eval vm_compute in
  saved (BindExecutionWithGrant clock (mret tt) example_execution "grant_1" noon issued_db).
Definition first_db : db := Eval vm_compute in
  saved (StartAuthorization clock "act_1" (example_start "act_1") bound_db).
Definition second_db : db := Eval vm_compute in
  saved (StartAuthorization clock "act_2" (example_start "act_2") first_db).

Definition start_answer (act : string) (left : Z) : AuthorityStartResult :=
  {| asr_ActionID := act; asr_IntentID := "int_1"; asr_AuthorityRefs := ["grant_1"];
     asr_RemainingBefore := Some left; asr_Evidence := act_evidence act "principal_brain_a" |}.

Lemma first_now : StartAuthorization clock "act_1" (example_start "act_1") bound_db
  = Ok (start_answer "act_1" 5, first_db).
Proof.
  vm_cast_no_check (eq_refl (A := result (AuthorityStartResult * db)) (Ok (start_answer "act_1" 5, first_db))).
Qed.
Lemma second_now : StartAuthorization clock "act_2" (example_start "act_2") first_db
  = Ok (start_answer "act_2" 4, second_db).
Proof.
  vm_cast_no_check (eq_refl (A := result (AuthorityStartResult * db)) (Ok (start_answer "act_2" 4, second_db))).
Qed.

Definition registry_db : db := Eval vm_compute in
  committed (RegisterIdentity clock (fun id => "pev_" +:+ id) example_registry noon empty_db).

Lemma registry_now : RegisterIdentity clock (fun id => "pev_" +:+ id) example_registry noon empty_db
  = Ok (tt, registry_db).
Proof. vm_cast_no_check (eq_refl (A := result (unit * db)) (Ok (tt, registry_db))). Qed.

Lemma nobody_sound h : identity_sound h empty_db.
Proof.
  split.
  - intros id row H. change ((∅ : gmap string principal_row) !! id = Some row) in H.
    by apply lookup_empty_Some in H.
  - intros r Hr. by apply not_elem_of_nil in Hr.
  - intros id row H. change ((∅ : gmap string principal_row) !! id = Some row) in H.
    by apply lookup_empty_Some in H.
Qed.

Lemma bound_sound : store_sound clock bound_db.
Proof.
  split.
  - apply (grants_untouched clock issued_db); [apply issued_sound|by intros id key Hk|done].
  - apply (identity_untouched clock registry_db); [done|done|done|].
    refine (proj1 (RegisterIdentity_Ok _ _ _ _ _ _ noon_back _ registry_now)).
    apply nobody_sound.
  - apply unspent_sound; [done|done|]. apply (bool_decide_unpack _). vm_compute. exact I.
Qed.

Lemma a_start_is_granted_whole_and_paid_once_witness :
  exists resolved, started clock bound_db first_db "act_1" (example_start "act_1")
    (start_answer "act_1" 5) resolved.
Proof.
  destruct (a_start_is_granted_whole_and_paid_once clock bound_db first_db "act_1" (example_start "act_1")
    (start_answer "act_1" 5) bound_sound first_now) as (resolved & St & _).
  exists resolved. exact St.
Defined.

(** Two starts of five: nobody starts them again, and the intent's account has
    paid for both. *)
Lemma starts_never_overdraw_witness :
  (forall r o, StartAuthorization clock "act_1" r second_db <> Ok o)
  /\ let account := budgetAccountID "default" "intent" "int_1" in
     spent second_db.(t_budget) account "*" = 2.
Proof.
  destruct (starts_never_overdraw clock bound_db second_db ["act_1"; "act_2"] bound_sound
    (run_start _ _ _ _ _ _ _ _ first_now (run_start _ _ _ _ _ _ _ _ second_now (run_done _ _))))
    as (_ & _ & H & _).
  apply Forall_cons in H as [[_ H] _]. split; [exact H|]. vm_compute. reflexivity.
Defined.
