(* ===== verification/StoreLedger.v ===== *)
(** * Attempts, closes and their receipts in the store

    [internal/action/sqlite/ledger.go], [store.go], [evidence.go] and
    [identity_v2.go]: the doors that record an attempt with its decision, the
    door that closes an action, and the receipt each terminal outcome leaves in
    the same transaction.  The identities drawn for receipts are arguments; the
    retention that runs after a commit is left out. *)

From S2P Require Import Prelude Kernel Grants Json Text Encoding Digests Wire Struct Receipts Approvals Intents Authority Contracts Identity Snapshots Tables StoreBudget StoreIdentity StoreIntents StoreGrants StoreBirths StoreConfig StoreStart.
From Stdlib Require Import Ascii String.
Import Effect Lifecycle.
Local Open Scope Z_scope.
Local Open Scope korvun_scope.
#[local] Arguments String.append !_ _ : simpl nomatch.

Definition ErrNotADecisionState : error := ErrorNew "action/sqlite: not a decision state".
Definition ProfileMarkPrefix : string := "profile:".
Definition ErrTime : error := ErrorNew "action/sqlite: parse requested_at".
Definition ErrReservedResultDigest : error :=
  ErrorNew "action/sqlite: the result digest prefix 'profile:' is reserved to the founding and adoption of the ledger".
Definition ErrApprovalNotFound : error :=
  ErrorWrap "action/sqlite: approval row absent" ErrNotFound.
Definition ErrApprovalEvidenceCorrupt : error :=
  ErrorNew "action/sqlite: the approval's stored evidence no longer verifies".

(** A policy decision, and the identity recorded with an attempt. *)
Module Decision.

Record t := {
  Outcome : string;
  Rule : string;
  PolicyVersion : Z;
  PolicyDigest : string
}.

End Decision.

Module AttemptIdentity.

Record t := {
  PrincipalID : string;
  IntentID : string;
  AuthorityRefs : list string;
  Evidence : IdentityEvidence.t
}.

End AttemptIdentity.

(** ** Rows *)

Definition nullable (v : string) : option string := if bool_decide (v = "") then None else Some v.

Definition authorityRefsValue (refs : list string) : option string :=
  match refs with [] => None | refs => Some (print (VArray (map VString refs))) end.

Definition legacy_snapshot : BirthSnapshot :=
  {| bs_Version := 0; bs_Digest := ""; bs_Canonical := ""; bs_SigningKeyID := ""; bs_Signature := "" |}.

Definition evidence_snapshot (signed : SignedEvidence) : BirthSnapshot :=
  {| bs_Version := 2; bs_Digest := signed.(sv_Digest); bs_Canonical := signed.(sv_Canonical);
     bs_SigningKeyID := signed.(sv_SigningKeyID); bs_Signature := signed.(sv_Signature) |}.

(** The row an attempt is recorded with. *)
Definition attempt_row (env : ActionEnvelope.t) (state : ActionState.State)
    (principal intent refs : option string) (snapshot : BirthSnapshot) : action_row :=
  {| aw_schema := env.(ActionEnvelope.SchemaVersion); aw_correlation := env.(ActionEnvelope.CorrelationID);
     aw_source := env.(ActionEnvelope.Source); aw_operation := env.(ActionEnvelope.Operation);
     aw_parameters := env.(ActionEnvelope.ParametersDigest); aw_effect := env.(ActionEnvelope.EffectClass);
     aw_state := state; aw_recovery := ""; aw_requested := rfc3339 env.(ActionEnvelope.RequestedAt);
     aw_finished := None; aw_principal := principal; aw_intent := intent; aw_refs := refs;
     aw_snapshot := snapshot |}.

Definition decision_of (d : Decision.t) (at_ : time) : decision_row :=
  {| de_outcome := d.(Decision.Outcome); de_rule := d.(Decision.Rule); de_decided := rfc3339 at_;
     de_policy_version := d.(Decision.PolicyVersion); de_policy_digest := d.(Decision.PolicyDigest) |}.

Definition set_state (state : ActionState.State) (r : action_row) : action_row :=
  {| aw_schema := r.(aw_schema); aw_correlation := r.(aw_correlation); aw_source := r.(aw_source);
     aw_operation := r.(aw_operation); aw_parameters := r.(aw_parameters); aw_effect := r.(aw_effect);
     aw_state := state; aw_recovery := r.(aw_recovery); aw_requested := r.(aw_requested);
     aw_finished := r.(aw_finished); aw_principal := r.(aw_principal); aw_intent := r.(aw_intent);
     aw_refs := r.(aw_refs); aw_snapshot := r.(aw_snapshot) |}.

Definition set_finished (at_ : string) (r : action_row) : action_row :=
  {| aw_schema := r.(aw_schema); aw_correlation := r.(aw_correlation); aw_source := r.(aw_source);
     aw_operation := r.(aw_operation); aw_parameters := r.(aw_parameters); aw_effect := r.(aw_effect);
     aw_state := r.(aw_state); aw_recovery := r.(aw_recovery); aw_requested := r.(aw_requested);
     aw_finished := Some at_; aw_principal := r.(aw_principal); aw_intent := r.(aw_intent);
     aw_refs := r.(aw_refs); aw_snapshot := r.(aw_snapshot) |}.

Definition set_actions (m : gmap string action_row) (s : db) : db :=
  with_actions {| actions := m; decisions := s.(t_actions).(decisions);
                  legacy_evidence := s.(t_actions).(legacy_evidence) |} s.

Definition updateActionTx (id : string) (f : action_row -> action_row) : Tx unit :=
  change (fun s => set_actions (alter f id s.(t_actions).(actions)) s).

(** [evidence_id] is the primary key; the action must exist. *)
Definition insertLegacyEvidenceTx (actionID : string) (e : IdentityEvidence.t) : Tx unit :=
  a ← ask t_actions;
  require (fail_if (bool_decide (is_Some (a.(legacy_evidence) !! e.(IdentityEvidence.EvidenceID)))
                    || bool_decide (a.(actions) !! actionID = None :> option action_row)) ErrConstraint);;
  change (fun s => with_actions
    {| actions := s.(t_actions).(actions); decisions := s.(t_actions).(decisions);
       legacy_evidence := <[e.(IdentityEvidence.EvidenceID) := (actionID, e)]>
                            s.(t_actions).(legacy_evidence) |} s).

Section Doors.
Context (h : Handle).

(** ** Receipts *)

Definition decisionDigest (d : Decision.t) : string :=
  HashCanonical ("{" +:+ key "outcome" +:+ h.(strconv_Quote) d.(Decision.Outcome)
    +:+ "," +:+ key "policy_digest" +:+ h.(strconv_Quote) d.(Decision.PolicyDigest)
    +:+ "," +:+ key "policy_version" +:+ Itoa d.(Decision.PolicyVersion)
    +:+ "," +:+ key "rule" +:+ h.(strconv_Quote) d.(Decision.Rule) +:+ "}").

Definition intentDigest (s : db) (intentID : string) : string :=
  if bool_decide (intentID = "") then "" else default "" (s.(t_legacy).(intent_digests) !! intentID).

(** The marks of an approval row a receipt cannot seal. *)
Definition MarkCorruptDecisionAt : string := "corrupt:decision_at".
Definition MarkCorruptDecisionPrincipal : string := "corrupt:decision_principal".
Definition MarkCorruptDecisionVerb : string := "corrupt:decision_verb".
Definition MarkCorruptApprovalMissing : string := "corrupt:approval_missing".
Definition MarkCorruptStatus : string := "corrupt:status".

(** [WHERE action_id = ?]: the column is unique. *)
Definition approval_of_action (t : approval_tables) (actionID : string) : option (string * approval_row) :=
  snd <$> list_find (fun p => p.2.(ar_action) = actionID) (map_to_list t.(approvals)).

(** The approval with the terms its digest seals. *)
Definition decided_approval (id : string) (row : approval_row) (at_ : time) : Approval.t :=
  {| Approval.ApprovalID := id; Approval.SchemaVersion := 0; Approval.ActionID := "";
     Approval.ActionDigest := row.(ar_action_digest); Approval.PreviewDigest := row.(ar_preview_digest);
     Approval.RequestedFrom := ""; Approval.Reason := ""; Approval.RiskSummary := "";
     Approval.PolicyVersion := row.(ar_policy_version); Approval.PolicyDigest := row.(ar_policy_digest);
     Approval.RequestedAt := 0; Approval.ExpiresAt := 0; Approval.Status := "";
     Approval.DecisionPrincipalID := row.(ar_decider); Approval.Decision := row.(ar_decision);
     Approval.DecisionAt := at_; Approval.Comment := ""; Approval.DecisionReceiptID := "" |}.

(** What a closing receipt seals about the action's approval. *)
Definition approvalDigest (s : db) (actionID : string) (decided : bool) : string :=
  let missing := if decided then MarkCorruptApprovalMissing else "" in
  match approval_of_action s.(t_approvals) actionID with
  | None => missing
  | Some (id, row) =>
      if bool_decide (row.(ar_status) = ApprovalPending) then missing
      else if negb (bool_decide (row.(ar_status) ∈
                [ApprovalApproved; ApprovalRejected; ApprovalExpired; ApprovalCancelled]))
      then MarkCorruptStatus
      else
        let at_ := default "" row.(ar_decided) in
        match (if bool_decide (at_ = "") then None else h.(time_Parse) at_) with
        | None => MarkCorruptDecisionAt
        | Some at_ =>
            if IsHumanDecision row.(ar_decision) then
              if bool_decide (row.(ar_decider) = "") then MarkCorruptDecisionPrincipal
              else Approval_Digest h.(strconv_Quote) (decided_approval id row at_)
            else if bool_decide (row.(ar_decision) = DecisionClock) then
              if bool_decide (row.(ar_decider) <> "") then MarkCorruptDecisionPrincipal
              else Approval_Digest h.(strconv_Quote) (decided_approval id row at_)
            else MarkCorruptDecisionVerb
        end
  end.

(** The identity terms, where the action has an identity snapshot. *)
Definition with_terms (terms : receiptIdentityTerms) (r : Receipt) : Receipt :=
  if terms.(rt_present) then
    {| ReceiptID := r.(ReceiptID); SchemaVersion := 3; ActionID := r.(ActionID);
       IntentDigest := r.(IntentDigest); PrincipalID := r.(PrincipalID);
       AuthorityDigest := r.(AuthorityDigest); DecisionDigest := r.(DecisionDigest);
       ActionDigest := r.(ActionDigest); Receipts.EffectClass := r.(Receipts.EffectClass); Attempt := r.(Attempt);
       Outcome := r.(Outcome); ResultDigest := r.(ResultDigest); ApprovalDigest := r.(ApprovalDigest);
       IdentityStatus := terms.(rt_status); RequesterPrincipalID := terms.(rt_requester);
       ActorPrincipalID := terms.(rt_actor); ResponsiblePrincipalID := terms.(rt_responsible);
       IdentityEvidenceDigest := terms.(rt_evidenceHash);
       IdentitySnapshotDigest := terms.(rt_snapshotHash); StartedAt := r.(StartedAt);
       FinishedAt := r.(FinishedAt); Partition := r.(Partition); ChainSeq := r.(ChainSeq);
       PreviousReceiptHash := r.(PreviousReceiptHash); ReceiptHash := r.(ReceiptHash);
       SigningKeyID := r.(SigningKeyID); Signature := r.(Signature) |}
  else r.

(** A receipt before its links and its seal. *)
Definition new_receipt (receiptID actionID intentDigest principalID decisionDigest actionDigest : string)
    (effect : EffectClass) (outcome resultDigest approvalDigest : string) (started finished : time) : Receipt :=
  {| ReceiptID := receiptID; SchemaVersion := 2; ActionID := actionID; IntentDigest := intentDigest;
     PrincipalID := principalID; AuthorityDigest := ""; DecisionDigest := decisionDigest;
     ActionDigest := actionDigest; Receipts.EffectClass := effect; Attempt := 1; Outcome := outcome;
     ResultDigest := resultDigest; ApprovalDigest := approvalDigest; IdentityStatus := "";
     RequesterPrincipalID := ""; ActorPrincipalID := ""; ResponsiblePrincipalID := "";
     IdentityEvidenceDigest := ""; IdentitySnapshotDigest := ""; StartedAt := started;
     FinishedAt := finished; Partition := ""; ChainSeq := 0; PreviousReceiptHash := "";
     ReceiptHash := ""; SigningKeyID := ""; Signature := "" |}.

(** The receipt of an outcome that was just recorded. *)
Definition receiptForRecord (receiptID : string) (env : ActionEnvelope.t) (d : Decision.t)
    (state : ActionState.State) : Tx Receipt :=
  terms ← identityReceiptTermsTx h env.(ActionEnvelope.ActionID) false;
  s ← ask id;
  mret (with_terms terms (new_receipt receiptID env.(ActionEnvelope.ActionID)
    (intentDigest s env.(ActionEnvelope.IntentID)) env.(ActionEnvelope.Principal).(PrincipalRef.PrincipalID)
    (decisionDigest d) env.(ActionEnvelope.ParametersDigest) env.(ActionEnvelope.EffectClass) state "" ""
    env.(ActionEnvelope.RequestedAt) env.(ActionEnvelope.RequestedAt))).

Definition decision_of_row (d : decision_row) : Decision.t :=
  {| Decision.Outcome := d.(de_outcome); Decision.Rule := d.(de_rule);
     Decision.PolicyVersion := d.(de_policy_version); Decision.PolicyDigest := d.(de_policy_digest) |}.

(** The receipt of an executed outcome, from the stored rows. *)
Definition receiptForFinish (receiptID actionID : string) (to : ActionState.State) (finishedAt : time)
    (resultDigest : string) (decided allowCorruptIdentity : bool) : Tx Receipt :=
  s ← ask id;
  row ← found ErrNoRows (s.(t_actions).(actions) !! actionID);
  d ← found ErrNoRows (s.(t_actions).(decisions) !! actionID);
  started ← found ErrTime (h.(time_Parse) row.(aw_requested));
  terms ← identityReceiptTermsTx h actionID allowCorruptIdentity;
  mret (with_terms terms (new_receipt receiptID actionID
    (intentDigest s (default "" row.(aw_intent))) (default "" row.(aw_principal))
    (decisionDigest (decision_of_row d)) row.(aw_parameters) row.(aw_effect) to resultDigest
    (approvalDigest s actionID decided) started finishedAt)).

(** ** Attempts *)

Definition decision_state (state : ActionState.State) : bool :=
  bool_decide (state ∈ [ActionState.StateDenied; ActionState.StateShadowed; ActionState.StateAuthorized]).

(** A terminal decision leaves its receipt. *)
Definition recordReceiptTx (receiptID : string) (env : ActionEnvelope.t) (d : Decision.t)
    (state : ActionState.State) : Tx unit :=
  if bool_decide (state <> ActionState.StateAuthorized) then
    receipt ← receiptForRecord receiptID env d state;
    receiptTx h receipt
  else mret tt.

Definition RecordAttempt (receiptID : string) (env : ActionEnvelope.t) (d : Decision.t)
    (state : ActionState.State) : Tx unit :=
  require (fail_if (negb (decision_state state)) ErrNotADecisionState);;
  insertActionTx env.(ActionEnvelope.ActionID) (attempt_row env state None None None legacy_snapshot);;
  insertDecisionTx env.(ActionEnvelope.ActionID) (decision_of d env.(ActionEnvelope.RequestedAt));;
  recordReceiptTx receiptID env d state.

Definition RecordAttemptIdentified (receiptID : string) (env : ActionEnvelope.t) (d : Decision.t)
    (state : ActionState.State) (ident : AttemptIdentity.t) : Tx unit :=
  require (fail_if (negb (decision_state state)) ErrNotADecisionState);;
  insertActionTx env.(ActionEnvelope.ActionID)
    (attempt_row env state (Some ident.(AttemptIdentity.PrincipalID)) (Some ident.(AttemptIdentity.IntentID))
       (authorityRefsValue ident.(AttemptIdentity.AuthorityRefs)) legacy_snapshot);;
  insertDecisionTx env.(ActionEnvelope.ActionID) (decision_of d env.(ActionEnvelope.RequestedAt));;
  insertLegacyEvidenceTx env.(ActionEnvelope.ActionID) ident.(AttemptIdentity.Evidence);;
  recordReceiptTx receiptID env d state.

(** [now] is the store's clock. *)
Definition recordAuthenticatedTx (receiptID : string) (now : time) (env : ActionEnvelope.t) (d : Decision.t)
    (state : ActionState.State) (evidence : Evidence.t) : Tx unit :=
  validateResolvedEvidenceAtTx h evidence env now now;;
  signed ← signEvidenceTx h evidence;
  insertActionTx env.(ActionEnvelope.ActionID)
    (attempt_row env state (Some evidence.(Evidence.ActorPrincipalID))
       (nullable env.(ActionEnvelope.IntentID)) (authorityRefsValue env.(ActionEnvelope.AuthorityRefs))
       (evidence_snapshot signed));;
  insertDecisionTx env.(ActionEnvelope.ActionID) (decision_of d env.(ActionEnvelope.RequestedAt));;
  insertEvidenceTx signed;;
  recordReceiptTx receiptID env d state.

Definition RecordAttemptAuthenticated (receiptID : string) (now : time) (env : ActionEnvelope.t)
    (d : Decision.t) (state : ActionState.State) (evidence : Evidence.t) : Tx unit :=
  require (fail_if (negb (decision_state state)) ErrNotADecisionState);;
  recordAuthenticatedTx receiptID now env d state evidence.

(** ** Closes *)

Definition finishWithResultTx (receiptID actionID : string) (to : ActionState.State) (finishedAt : time)
    (resultDigest : string) : Tx unit :=
  a ← ask t_actions;
  row ← found ErrNotFound (a.(actions) !! actionID);
  require (ActionState.Transition row.(aw_state) to);;
  updateActionTx actionID (fun r => set_finished (rfc3339 finishedAt) (set_state to r));;
  match h.(sealer) with
  | None => mret tt
  | Some _ =>
      receipt ← receiptForFinish receiptID actionID to finishedAt resultDigest
                  (bool_decide (row.(aw_state) = ActionState.StateApproved)) true;
      receiptTx h receipt
  end.

(** The prefix test of [strings.HasPrefix] on the lowered digest. *)
Definition has_prefix (p s : string) : bool := match strip_prefix p s with Some _ => true | None => false end.

Definition FinishWithResult (receiptID actionID : string) (to : ActionState.State) (finishedAt : time)
    (resultDigest : string) : Tx unit :=
  require (fail_if (has_prefix ProfileMarkPrefix (h.(strings_ToLower) resultDigest)) ErrReservedResultDigest);;
  finishWithResultTx receiptID actionID to finishedAt resultDigest.

Definition Finish (receiptID actionID : string) (to : ActionState.State) (finishedAt : time) : Tx unit :=
  FinishWithResult receiptID actionID to finishedAt "".

End Doors.

(** ** Books of actions and receipts *)

(** The table's edges, and the one the strict start of an approved request
    adds. *)
Definition edge (from to : ActionState.State) : Prop :=
  ActionState.Transition from to = None
  \/ from = ActionState.StateApproved /\ to = ActionState.StateAuthorized.

(** What an action row keeps for life. *)
Definition action_terms (r : action_row) : action_row := set_finished "" (set_state "" r).

(** What an approval row keeps for life. *)
Definition approval_terms (r : approval_row) : approval_row :=
  {| ar_schema := r.(ar_schema); ar_action := r.(ar_action); ar_action_digest := r.(ar_action_digest);
     ar_preview_digest := r.(ar_preview_digest); ar_preview := r.(ar_preview); ar_params := "";
     ar_requested_from := r.(ar_requested_from); ar_reason := r.(ar_reason); ar_risk := r.(ar_risk);
     ar_policy_version := r.(ar_policy_version); ar_policy_digest := r.(ar_policy_digest);
     ar_requested := r.(ar_requested); ar_expires := r.(ar_expires); ar_status := "";
     ar_decider := ""; ar_decision := ""; ar_decided := None; ar_comment := ""; ar_receipt := "";
     ar_strict := r.(ar_strict) |}.

Definition verdict (r : approval_row) :=
  (r.(ar_status), r.(ar_decider), r.(ar_decision), r.(ar_decided), r.(ar_comment), r.(ar_receipt)).

(** An approval row is decided once, and its parameters only ever leave. *)
Record approval_kept (r r' : approval_row) : Prop := {
  ak_terms : approval_terms r' = approval_terms r;
  ak_params : r'.(ar_params) = r.(ar_params) \/ r'.(ar_params) = "";
  ak_verdict : verdict r' = verdict r \/ r.(ar_status) = ApprovalPending /\ r'.(ar_status) <> ApprovalPending
}.

(** The action closes between the two states. *)
Definition closes (s s' : db) (id outcome : string) : Prop :=
  (exists r', s'.(t_actions).(actions) !! id = Some r' /\ r'.(aw_state) = outcome
     /\ ActionState.Terminal outcome = true)
  /\ forall r, s.(t_actions).(actions) !! id = Some r -> ActionState.Terminal r.(aw_state) = false.

(** How the doors of attempts, closes and approvals move the tables. *)
Record moved (h : Handle) (s s' : db) : Prop := {
  mv_chain : chain_ok s'.(t_receipts);
  mv_actions : forall id r, s.(t_actions).(actions) !! id = Some r ->
    exists r', s'.(t_actions).(actions) !! id = Some r' /\ action_terms r' = action_terms r
      /\ rtc edge r.(aw_state) r'.(aw_state);
  mv_receipts : exists l, s'.(t_receipts) = (l ++ s.(t_receipts))%list /\ NoDup (map ActionID l)
    /\ Forall (fun x => closes s s' x.(ActionID) x.(Outcome)) l
    /\ (is_Some h.(sealer) -> forall id outcome, closes s s' id outcome -> id ∈ map ActionID l);
  mv_approvals : forall id r, s.(t_approvals).(approvals) !! id = Some r ->
    exists r', s'.(t_approvals).(approvals) !! id = Some r' /\ approval_kept r r';
  mv_tombstones : s.(t_approvals).(tombstones) ⊆ s'.(t_approvals).(tombstones)
}.

Lemma edge_not_terminal a b : edge a b -> ActionState.Terminal a = false.
Proof.
  intros [H|[-> _]]; [|done]. destruct (ActionState.Terminal a) eqn:E; [|done]. exfalso.
  apply bool_decide_eq_true in E. rewrite !elem_of_cons, elem_of_nil in E.
  unfold ActionState.Transition in H.
  destruct E as [->|[->|[->|[->|[->|[->|[]]]]]]]; vm_compute in H; done.
Qed.

Lemma terminal_stays a b : rtc edge a b -> ActionState.Terminal a = true -> b = a.
Proof. intros H Ht. destruct H as [|a x b E _]; [done|]. apply edge_not_terminal in E. congruence. Qed.

Lemma approval_kept_refl r : approval_kept r r.
Proof. split; auto. Qed.

Lemma verdict_status r r' : verdict r' = verdict r -> r'.(ar_status) = r.(ar_status).
Proof. unfold verdict. congruence. Qed.

Lemma approval_kept_trans r1 r2 r3 : approval_kept r1 r2 -> approval_kept r2 r3 -> approval_kept r1 r3.
Proof.
  intros [T1 P1 V1] [T2 P2 V2]. split; [congruence| |].
  - destruct P2 as [->|]; auto.
  - destruct V2 as [V2|[V2 N2]].
    + destruct V1 as [V1|[V1 N1]]; [left; congruence|right]. by rewrite (verdict_status _ _ V2).
    + destruct V1 as [V1|[V1 N1]]; [|done]. right. by rewrite <- (verdict_status _ _ V1).
Qed.

Lemma moved_trans h s s1 s2 : moved h s s1 -> moved h s1 s2 -> moved h s s2.
Proof.
  intros [_ A1 (l1 & R1 & N1 & C1 & X1) P1 T1] [K A2 (l2 & R2 & N2 & C2 & X2) P2 T2].
  assert (forall id outcome, closes s s1 id outcome -> closes s s2 id outcome) as U1.
  { intros id outcome [(r & Hr & <- & Ht) Hn]. split; [|done].
    destruct (A2 _ _ Hr) as (r2 & Hr2 & _ & E). exists r2. split; [done|]. split; [|done].
    by apply terminal_stays in E. }
  assert (forall id outcome, closes s1 s2 id outcome -> closes s s2 id outcome) as U2.
  { intros id outcome [Hc Hn]. split; [done|]. intros r Hr.
    destruct (A1 _ _ Hr) as (r1 & Hr1 & _ & E). apply Hn in Hr1.
    destruct (ActionState.Terminal (aw_state r)) eqn:Et; [|done].
    apply terminal_stays in E; [|done]. congruence. }
  split; [done| | | |by etrans].
  - intros id r Hr. destruct (A1 _ _ Hr) as (r1 & Hr1 & E1 & W1).
    destruct (A2 _ _ Hr1) as (r2 & Hr2 & E2 & W2). exists r2. split; [done|].
    split; [congruence|by etrans].
  - exists (l2 ++ l1)%list. split; [by rewrite R2, R1, app_assoc|]. split_and!.
    + rewrite map_app. apply NoDup_app. split; [done|]. split; [|done]. intros id H2 H1.
      apply list_elem_of_fmap in H2 as (x & -> & Hx). apply list_elem_of_fmap in H1 as (y & Ey & Hy).
      rewrite Forall_forall in C1, C2. destruct (C2 _ Hx) as [_ Hn].
      destruct (C1 _ Hy) as [(r & Hr & Eo & Ht) _]. rewrite <- Ey in Hr. apply Hn in Hr. congruence.
    + apply Forall_app. split; eapply Forall_impl; eauto.
    + intros Hs id outcome Hc. rewrite map_app, elem_of_app.
      destruct (s1.(t_actions).(actions) !! id) as [r|] eqn:Hr;
        [destruct (ActionState.Terminal r.(aw_state)) eqn:Ht|].
      * right. apply (X1 Hs id r.(aw_state)). split; [by exists r|]. apply Hc.
      * left. apply (X2 Hs id outcome). split; [apply Hc|]. by intros r2 [= <-]%(eq_trans (eq_sym Hr)).
      * left. apply (X2 Hs id outcome). split; [apply Hc|]. by intros r2 H%(eq_trans (eq_sym Hr)).
  - intros id r Hr. destruct (P1 _ _ Hr) as (r1 & Hr1 & E1). destruct (P2 _ _ Hr1) as (r2 & Hr2 & E2).
    exists r2. split; [done|by eapply approval_kept_trans].
Qed.

Lemma unmoved_closes s s' id outcome : s'.(t_actions).(actions) !! id = s.(t_actions).(actions) !! id ->
  ~ closes s s' id outcome.
Proof. intros E [(r & Hr & <- & Ht) Hn]. rewrite E in Hr. apply Hn in Hr. congruence. Qed.

(** Nothing in the books moved. *)
Lemma moved_same h s s' : chain_ok s.(t_receipts) -> s'.(t_actions).(actions) = s.(t_actions).(actions) ->
  s'.(t_receipts) = s.(t_receipts) -> s'.(t_approvals) = s.(t_approvals) -> moved h s s'.
Proof.
  intros K EA ER EP. split; [by rewrite ER| | | |by rewrite EP].
  - intros id r Hr. exists r. rewrite EA. split; [done|]. by split.
  - exists []. split; [by rewrite ER|]. split; [constructor|]. split; [constructor|].
    intros _ id outcome H. exfalso. by eapply unmoved_closes; [|exact H]; rewrite EA.
  - intros id r Hr. exists r. rewrite EP. split; [done|apply approval_kept_refl].
Qed.

(** One action row was written and is open. *)
Lemma moved_open h s s' id r' : chain_ok s.(t_receipts) ->
  s'.(t_actions).(actions) = <[id := r']> s.(t_actions).(actions) ->
  s'.(t_receipts) = s.(t_receipts) -> s'.(t_approvals) = s.(t_approvals) ->
  ActionState.Terminal r'.(aw_state) = false ->
  (forall r, s.(t_actions).(actions) !! id = Some r ->
     action_terms r' = action_terms r /\ rtc edge r.(aw_state) r'.(aw_state)) -> moved h s s'.
Proof.
  intros K EA ER EP Ht Hr. split; [by rewrite ER| | | |by rewrite EP].
  - intros k r Hk. rewrite EA. destruct (decide (k = id)) as [->|N].
    + exists r'. rewrite lookup_insert_eq. split; [done|by apply Hr].
    + exists r. rewrite lookup_insert_ne by done. split; [done|by split].
  - exists []. split; [by rewrite ER|]. split; [constructor|]. split; [constructor|].
    intros _ k outcome H. exfalso. destruct (decide (k = id)) as [->|N].
    + destruct H as [(r & E & <- & T) _]. rewrite EA, lookup_insert_eq in E. simplify_eq. congruence.
    + eapply unmoved_closes; [|exact H]. by rewrite EA, lookup_insert_ne.
  - intros k r Hk. exists r. rewrite EP. split; [done|apply approval_kept_refl].
Qed.

(** One action row was written, is closed, and left its receipt. *)
Lemma moved_close h s s' id r' : chain_ok s'.(t_receipts) ->
  s'.(t_actions).(actions) = <[id := r']> s.(t_actions).(actions) ->
  match h.(sealer) with
  | None => s'.(t_receipts) = s.(t_receipts)
  | Some _ => exists x, s'.(t_receipts) = x :: s.(t_receipts) /\ x.(ActionID) = id
                /\ x.(Outcome) = r'.(aw_state)
  end -> s'.(t_approvals) = s.(t_approvals) -> ActionState.Terminal r'.(aw_state) = true ->
  (forall r, s.(t_actions).(actions) !! id = Some r -> action_terms r' = action_terms r
     /\ rtc edge r.(aw_state) r'.(aw_state) /\ ActionState.Terminal r.(aw_state) = false) -> moved h s s'.
Proof.
  intros K EA ER EP Ht Hr. split; [done| | | |by rewrite EP].
  - intros k r Hk. rewrite EA. destruct (decide (k = id)) as [->|N].
    + exists r'. rewrite lookup_insert_eq. destruct (Hr _ Hk) as (H1 & H2 & _). done.
    + exists r. rewrite lookup_insert_ne by done. split; [done|by split].
  - assert (closes s s' id r'.(aw_state)) as Hc.
    { split; [exists r'; by rewrite EA, lookup_insert_eq|]. intros r Hk. by apply Hr. }
    assert (forall k outcome, closes s s' k outcome -> k = id) as Honly.
    { intros k outcome H. destruct (decide (k = id)) as [->|N]; [done|]. exfalso.
      eapply unmoved_closes; [|exact H]. by rewrite EA, lookup_insert_ne. }
    destruct h.(sealer).
    + destruct ER as (x & ER & E1 & E2). exists [x]. split; [done|]. split; [apply NoDup_singleton|].
      split; [apply Forall_singleton; by rewrite E1, E2|]. intros _ k outcome H%Honly. cbn.
      rewrite E1, H. by left.
    + exists []. split; [done|]. split; [constructor|]. split; [constructor|]. by intros [? [=]].
  - intros k r Hk. exists r. rewrite EP. split; [done|apply approval_kept_refl].
Qed.

(** One approval row was written. *)
Lemma moved_approval h s s' id r' : chain_ok s.(t_receipts) ->
  s'.(t_actions).(actions) = s.(t_actions).(actions) -> s'.(t_receipts) = s.(t_receipts) ->
  s'.(t_approvals).(approvals) = <[id := r']> s.(t_approvals).(approvals) ->
  s.(t_approvals).(tombstones) ⊆ s'.(t_approvals).(tombstones) ->
  (forall r, s.(t_approvals).(approvals) !! id = Some r -> approval_kept r r') -> moved h s s'.
Proof.
  intros K EA ER EP ET Hr. split; [by rewrite ER| | |  |done].
  - intros k r Hk. exists r. rewrite EA. split; [done|]. by split.
  - exists []. split; [by rewrite ER|]. split; [constructor|]. split; [constructor|].
    intros _ k outcome H. exfalso. by eapply unmoved_closes; [|exact H]; rewrite EA.
  - intros k r Hk. rewrite EP. destruct (decide (k = id)) as [->|N].
    + exists r'. rewrite lookup_insert_eq. split; [done|by apply Hr].
    + exists r. rewrite lookup_insert_ne by done. split; [done|apply approval_kept_refl].
Qed.

(** ** The doors of attempts and closes *)

(** A receipt as the ledger took it: linked, hashed, and signed by an active
    registered key. *)
Record filed (h : Handle) (s : db) (r x : Receipt) : Prop := {
  fi_terms : set_seal "" "" "" x = set_seal "" "" "" (place x.(ChainSeq) x.(PreviousReceiptHash) r);
  fi_signed : exists key pub, s.(signing_keys) !! x.(SigningKeyID) = Some key /\ key.(RetiredAt) = ""
    /\ hex_decode key.(PublicKeyHex) = Some pub /\ VerifyReceiptSignature h.(Ed25519_Verify) pub x = None;
  fi_new : Forall (fun q => q.(ReceiptID) <> x.(ReceiptID)) s.(t_receipts)
}.

Lemma filed_terms h s r x : filed h s r x ->
  x.(ReceiptID) = r.(ReceiptID) /\ x.(ActionID) = r.(ActionID) /\ x.(Outcome) = r.(Outcome).
Proof.
  intros [H _ _]. split; [by apply (f_equal ReceiptID) in H|].
  split; [by apply (f_equal ActionID) in H|by apply (f_equal Outcome) in H].
Qed.

Lemma receiptTx_filed h r s s' : chain_ok s.(t_receipts) -> receiptTx h r s = Ok (tt, s') ->
  chain_ok s'.(t_receipts) /\ s' = with_receipts s'.(t_receipts) s
  /\ match h.(sealer) with
     | None => s'.(t_receipts) = s.(t_receipts)
     | Some _ => exists x, s'.(t_receipts) = x :: s.(t_receipts) /\ filed h s r x
     end.
Proof.
  intros K H. unfold receiptTx in H.
  destruct (appendReceiptTx _ _ _ _ _) as [l|] eqn:E; [|done].
  destruct (match h.(sealer) with Some _ => _ | None => _ end) eqn:G; [done|]. injection H as <-.
  pose proof (appendReceiptTx_Ok _ _ _ _ _ _ K E) as [K' C]. split; [done|]. split; [done|].
  cbn [t_receipts with_receipts]. destruct h.(sealer) as [seal|]; [|by injection E as <-].
  destruct C as [[_ ?]|(x & key & pub & -> & Hk & Ha & Hp & Hv & Ht)]; [done|]. exists x. split; [done|].
  split; [done|by exists key, pub|]. apply Forall_forall. intros q Hq.
  rewrite (f_equal ReceiptID Ht : x.(ReceiptID) = r.(ReceiptID)).
  apply not_true_iff_false in G. intros Eq. apply G, existsb_exists. exists q.
  split; [by apply list_elem_of_In|]. by apply bool_decide_eq_true.
Qed.

Lemma with_terms_keeps terms r : (with_terms terms r).(ActionID) = r.(ActionID)
  /\ (with_terms terms r).(Outcome) = r.(Outcome) /\ (with_terms terms r).(ReceiptID) = r.(ReceiptID).
Proof. unfold with_terms. by case_match. Qed.

#[export] Instance actionSnapshotTx_reads id : Reads (actionSnapshotTx id).
Proof. unfold actionSnapshotTx. solve_reads. Qed.
#[export] Instance identityReceiptTermsTx_reads h id b : Reads (identityReceiptTermsTx h id b).
Proof. unfold identityReceiptTermsTx. solve_reads. Qed.
#[export] Instance receiptForRecord_reads h rid env d state : Reads (receiptForRecord h rid env d state).
Proof. unfold receiptForRecord. solve_reads. Qed.
#[export] Instance receiptForFinish_reads h rid id to at_ digest b c :
  Reads (receiptForFinish h rid id to at_ digest b c).
Proof. unfold receiptForFinish. solve_reads. Qed.

Lemma receiptForRecord_Ok h rid env d state s r s' : receiptForRecord h rid env d state s = Ok (r, s') ->
  r.(ActionID) = env.(ActionEnvelope.ActionID) /\ r.(Outcome) = state.
Proof.
  intros H. unfold receiptForRecord in H. apply tx_bind_Ok in H as (terms & s1 & _ & H). tx_next H E.
  apply tx_ret_Ok in H as [= -> ->]. destruct (with_terms_keeps terms (new_receipt rid env.(ActionEnvelope.ActionID)
    (intentDigest s1 env.(ActionEnvelope.IntentID)) env.(ActionEnvelope.Principal).(PrincipalRef.PrincipalID)
    (decisionDigest h d) env.(ActionEnvelope.ParametersDigest) env.(ActionEnvelope.EffectClass) state "" ""
    env.(ActionEnvelope.RequestedAt) env.(ActionEnvelope.RequestedAt))) as (-> & -> & _). done.
Qed.

(** A row that was just born, with what a terminal decision leaves. *)
Lemma recorded_moves h rid env d state row s s1 s' : chain_ok s.(t_receipts) ->
  decision_state state = true -> row.(aw_state) = state ->
  s.(t_actions).(actions) !! env.(ActionEnvelope.ActionID) = None ->
  s1.(t_actions).(actions) = <[env.(ActionEnvelope.ActionID) := row]> s.(t_actions).(actions) ->
  s1.(t_receipts) = s.(t_receipts) -> s1.(t_approvals) = s.(t_approvals) ->
  recordReceiptTx h rid env d state s1 = Ok (tt, s') -> moved h s s'.
Proof.
  intros K Hd Hst Hf EA ER EP H. unfold recordReceiptTx in H. case_bool_decide as Ea.
  - apply tx_bind_Ok in H as (r & s2 & E & H). pose proof (reads _ _ _ E) as ->.
    apply receiptForRecord_Ok in E as [R1 R2]. apply receiptTx_filed in H as (K' & W & X); [|by rewrite ER].
    eapply (moved_close _ _ _ env.(ActionEnvelope.ActionID) row); [done|by rewrite W| |by rewrite W| |].
    + destruct h.(sealer); [|by rewrite X]. destruct X as (x & X & F). apply filed_terms in F as (_ & F1 & F2).
      exists x. rewrite X, ER. split; [done|]. split; congruence.
    + rewrite Hst. apply bool_decide_eq_true in Hd. rewrite !elem_of_cons, elem_of_nil in Hd.
      by destruct Hd as [->|[->|[->|[]]]].
    + intros r0 Hr0. congruence.
  - apply tx_ret_Ok in H as [= ->].
    eapply (moved_open _ _ _ env.(ActionEnvelope.ActionID) row); [done|done|done|done|by rewrite Hst, Ea|].
    intros r0 Hr0. congruence.
Qed.

Lemma insertActionTx_Ok id row s s' : insertActionTx id row s = Ok (tt, s') ->
  s.(t_actions).(actions) !! id = None /\ s' = set_actions (<[id := row]> s.(t_actions).(actions)) s.
Proof.
  intros H. unfold insertActionTx in H. tx_next H E1. tx_next H E2. apply change_Ok in H as [= ->].
  apply bool_decide_eq_false in E2. split; [by apply eq_None_not_Some|done].
Qed.

(** What a door leaves of the books while it writes elsewhere. *)
Definition books_kept (s s' : db) : Prop :=
  s'.(t_actions).(actions) = s.(t_actions).(actions) /\ s'.(t_receipts) = s.(t_receipts)
  /\ s'.(t_approvals) = s.(t_approvals).

Lemma insertDecisionTx_kept id row s s' : insertDecisionTx id row s = Ok (tt, s') -> books_kept s s'.
Proof.
  intros H. unfold insertDecisionTx in H. tx_next H E1. tx_next H E2. by apply change_Ok in H as [= ->].
Qed.

Lemma insertLegacyEvidenceTx_kept id e s s' : insertLegacyEvidenceTx id e s = Ok (tt, s') -> books_kept s s'.
Proof.
  intros H. unfold insertLegacyEvidenceTx in H. tx_next H E1. tx_next H E2. by apply change_Ok in H as [= ->].
Qed.

Lemma insertEvidenceTx_kept signed s s' : insertEvidenceTx signed s = Ok (tt, s') -> books_kept s s'.
Proof.
  intros H. unfold insertEvidenceTx, change_identity in H. repeat (tx_step || case_match); done.
Qed.

Lemma RecordAttempt_moves h rid env d state s s' : chain_ok s.(t_receipts) ->
  RecordAttempt h rid env d state s = Ok (tt, s') -> moved h s s'.
Proof.
  intros K H. unfold RecordAttempt in H. tx_next H E1. apply negb_false_iff in E1.
  tx_door H E2. apply insertActionTx_Ok in E2 as [F ->]. tx_door H E3.
  apply insertDecisionTx_kept in E3 as (A & R & P).
  eapply recorded_moves; [exact K|exact E1| |exact F|exact A|exact R|exact P|exact H]. done.
Qed.

Lemma RecordAttemptIdentified_moves h rid env d state ident s s' : chain_ok s.(t_receipts) ->
  RecordAttemptIdentified h rid env d state ident s = Ok (tt, s') -> moved h s s'.
Proof.
  intros K H. unfold RecordAttemptIdentified in H. tx_next H E1. apply negb_false_iff in E1.
  tx_door H E2. apply insertActionTx_Ok in E2 as [F ->].
  tx_door H E3. apply insertDecisionTx_kept in E3 as (A & R & P).
  tx_door H E4. apply insertLegacyEvidenceTx_kept in E4 as (A' & R' & P').
  eapply recorded_moves; [exact K|exact E1| |exact F| | | |exact H]; cycle 1.
  - by rewrite A', A.
  - by rewrite R', R.
  - by rewrite P', P.
  - done.
Qed.

Lemma RecordAttemptAuthenticated_moves h rid now env d state evidence s s' : chain_ok s.(t_receipts) ->
  RecordAttemptAuthenticated h rid now env d state evidence s = Ok (tt, s') -> moved h s s'.
Proof.
  intros K H. unfold RecordAttemptAuthenticated, recordAuthenticatedTx in H. tx_next H E1.
  apply negb_false_iff in E1. tx_door H E0. pose proof (reads _ _ _ E0) as ->.
  apply tx_bind_Ok in H as (signed & s1 & E & H). pose proof (signEvidenceTx_reads _ _ _ _ _ E) as ->.
  tx_door H E2. apply insertActionTx_Ok in E2 as [F ->].
  tx_door H E3. apply insertDecisionTx_kept in E3 as (A & R & P).
  tx_door H E4. apply insertEvidenceTx_kept in E4 as (A' & R' & P').
  eapply recorded_moves; [exact K|exact E1| |exact F| | | |exact H]; cycle 1.
  - by rewrite A', A.
  - by rewrite R', R.
  - by rewrite P', P.
  - done.
Qed.

(** ** Finishing *)

Lemma receiptForFinish_Ok h rid id to at_ digest decided allow s r s' :
  receiptForFinish h rid id to at_ digest decided allow s = Ok (r, s') ->
  exists row d started terms, s.(t_actions).(actions) !! id = Some row
    /\ s.(t_actions).(decisions) !! id = Some d /\ h.(time_Parse) row.(aw_requested) = Some started
    /\ identityReceiptTermsTx h id allow s = Ok (terms, s)
    /\ r = with_terms terms (new_receipt rid id (intentDigest s (default "" row.(aw_intent)))
             (default "" row.(aw_principal)) (decisionDigest h (decision_of_row d)) row.(aw_parameters)
             row.(aw_effect) to digest (approvalDigest h s id decided) started at_).
Proof.
  intros H. unfold receiptForFinish in H. tx_next H E0.
  apply tx_bind_Ok in H as (row & t1 & E1 & H). apply found_Ok in E1 as (row' & E1 & [= <- <-]).
  apply tx_bind_Ok in H as (d & t2 & E2 & H). apply found_Ok in E2 as (d' & E2 & [= <- <-]).
  apply tx_bind_Ok in H as (started & t3 & E3 & H). apply found_Ok in E3 as (st' & E3 & [= <- <-]).
  apply tx_bind_Ok in H as (terms & t4 & E4 & H). pose proof (reads _ _ _ E4) as ->.
  apply tx_ret_Ok in H as [= -> ->]. by exists row, d, started, terms.
Qed.

Lemma updateActionTx_Ok id f s s' : updateActionTx id f s = Ok (tt, s') ->
  s' = set_actions (alter f id s.(t_actions).(actions)) s.
Proof. intros H. by apply change_Ok in H as [= ->]. Qed.

Lemma alter_at {A} (f : A -> A) (m : gmap string A) id r : m !! id = Some r -> alter f id m = <[id := f r]> m.
Proof.
  intros H. apply map_eq. intros k. destruct (decide (k = id)) as [->|N].
  - by rewrite lookup_alter_eq, H, lookup_insert_eq.
  - by rewrite lookup_alter_ne, lookup_insert_ne by done.
Qed.

(** The row a close leaves. *)
Definition closed_row (to : ActionState.State) (at_ : time) (r : action_row) : action_row :=
  set_finished (rfc3339 at_) (set_state to r).

(** What [finishWithResultTx] does to the tables. *)
Record finished (h : Handle) (receiptID id : string) (to : ActionState.State) (at_ : time)
    (digest : string) (s s' : db) : Prop := {
  fn_row : exists row, s.(t_actions).(actions) !! id = Some row
    /\ ActionState.Transition row.(aw_state) to = None
    /\ let s1 := set_actions (<[id := closed_row to at_ row]> s.(t_actions).(actions)) s in
       s' = with_receipts s'.(t_receipts) s1
       /\ match h.(sealer) with
          | None => s'.(t_receipts) = s.(t_receipts)
          | Some _ => exists x r, s'.(t_receipts) = x :: s.(t_receipts) /\ filed h s r x
              /\ receiptForFinish h receiptID id to at_ digest
                   (bool_decide (row.(aw_state) = ActionState.StateApproved)) true s1 = Ok (r, s1)
          end;
  fn_chain : chain_ok s'.(t_receipts)
}.

Lemma finishWithResultTx_Ok h rid id to at_ digest s s' : chain_ok s.(t_receipts) ->
  finishWithResultTx h rid id to at_ digest s = Ok (tt, s') -> finished h rid id to at_ digest s s'.
Proof.
  intros K H. unfold finishWithResultTx in H. tx_next H E0.
  apply tx_bind_Ok in H as (row & t1 & E1 & H). apply found_Ok in E1 as (row' & E1 & [= <- <-]).
  tx_next H E2. tx_door H E3. apply updateActionTx_Ok in E3 as ->. rewrite (alter_at _ _ _ _ E1) in H.
  fold (closed_row to at_ row) in H. destruct h.(sealer) as [seal|] eqn:Es.
  - apply tx_bind_Ok in H as (r & t2 & E & H). pose proof (reads _ _ _ E) as ->.
    apply receiptTx_filed in H as (K' & W & X); [|exact K]. rewrite Es in X. destruct X as (x & X & F).
    split; [|done]. exists row. split; [done|]. split; [done|]. split; [exact W|]. rewrite Es.
    exists x, r. split; [exact X|]. split; [|exact E]. by destruct F as [F1 F2 F3]; split.
  - apply tx_ret_Ok in H as [= ->]. split; [|done]. exists row. rewrite Es. by split_and!.
Qed.

Lemma finished_moves h rid id to at_ digest s s' : ActionState.Terminal to = true ->
  finished h rid id to at_ digest s s' -> moved h s s'.
Proof.
  intros Ht [(row & Hr & He & W & X) K]. assert (edge row.(aw_state) to) as Hed by (by left).
  eapply (moved_close _ _ _ id (closed_row to at_ row)); [done|by rewrite W| |by rewrite W|done|].
  - destruct h.(sealer) as [seal|]; [|done]. destruct X as (x & r & X & F & Hx). exists x. split; [done|].
    apply filed_terms in F as (_ & -> & ->). apply receiptForFinish_Ok in Hx as (? & ? & ? & terms & _ & _ & _ & _ & ->).
    by split; apply with_terms_keeps.
  - intros r Hr'. rewrite Hr in Hr'. injection Hr' as <-. split; [done|]. split; [by apply rtc_once|].
    by apply edge_not_terminal in Hed.
Qed.

(** ** Doors as the two relations see them *)

(** The tables that decide authority stay as they are: keys, accounts, grants,
    intents, principals, starts and the configuration. *)
Definition beside (s s' : db) : Prop :=
  s'.(signing_keys) = s.(signing_keys) /\ s'.(t_budget) = s.(t_budget) /\ s'.(t_grants) = s.(t_grants)
  /\ s'.(t_intents) = s.(t_intents) /\ s'.(t_config) = s.(t_config)
  /\ s'.(t_identity).(principals) = s.(t_identity).(principals)
  /\ s'.(t_identity).(principal_events) = s.(t_identity).(principal_events)
  /\ s'.(t_authz).(starts) = s.(t_authz).(starts).

Lemma beside_trans s s1 s2 : beside s s1 -> beside s1 s2 -> beside s s2.
Proof.
  intros (A1 & A2 & A3 & A4 & A5 & A6 & A7 & A8) (B1 & B2 & B3 & B4 & B5 & B6 & B7 & B8).
  unfold beside. rewrite B1, B2, B3, B4, B5, B6, B7, B8. done.
Qed.

Lemma beside_quiet h s s' : ledger_sound s.(t_budget) -> beside s s' -> quiet h s s'.
Proof.
  intros Hl (Hk & Hb & Hg & _ & _ & Hp & He & Hs). split; [|by rewrite Hb; apply accounts_grow_refl|by rewrite Hs].
  intros [G I L]. split; [|by apply (identity_untouched h s)|by rewrite Hb].
  apply (grants_untouched h s); [done|by rewrite Hk; intros id key|done].
Qed.

Class Beside {A} (m : Tx A) := is_beside : forall s a s', m s = Ok (a, s') -> beside s s'.
#[export] Hint Mode Beside ! ! : typeclass_instances.

Class Moves (h : Handle) {A} (m : Tx A) := moves :
  forall s a s', chain_ok s.(t_receipts) -> m s = Ok (a, s') -> moved h s s'.
#[export] Hint Mode Moves ! ! ! : typeclass_instances.

Lemma moved_refl h s : chain_ok s.(t_receipts) -> moved h s s.
Proof. intros K. by apply moved_same. Qed.

#[export] Instance beside_reads {A} (m : Tx A) : Reads m -> Beside m.
Proof. by intros R s a s' ->%R. Qed.
#[export] Instance beside_bind {A B} (m : Tx A) (k : A -> Tx B) :
  Beside m -> (forall a, Beside (k a)) -> Beside (m ≫= k).
Proof. intros Hm Hk s b s' (a & s1 & E1 & E2)%tx_bind_Ok. eapply beside_trans; [by eapply Hm|by eapply Hk]. Qed.
#[export] Instance beside_if {A} (b : bool) (m n : Tx A) : Beside m -> Beside n -> Beside (if b then m else n).
Proof. by destruct b. Qed.
#[export] Instance moves_reads h {A} (m : Tx A) : Reads m -> Moves h m.
Proof. intros R s a s' K ->%R. by apply moved_refl. Qed.
#[export] Instance moves_bind h {A B} (m : Tx A) (k : A -> Tx B) :
  Moves h m -> (forall a, Moves h (k a)) -> Moves h (m ≫= k).
Proof.
  intros Hm Hk s b s' K (a & s1 & E1 & E2)%tx_bind_Ok. apply Hm in E1; [|done].
  eapply moved_trans; [exact E1|]. eapply Hk; [by apply (mv_chain _ _ _ E1)|done].
Qed.
#[export] Instance moves_if h {A} (b : bool) (m n : Tx A) : Moves h m -> Moves h n -> Moves h (if b then m else n).
Proof. by destruct b. Qed.

(** A door that only walks through doors already judged. *)
Ltac solve_doors :=
  repeat first
    [ apply _
    | match goal with |- forall _, _ => intros ? end
    | apply beside_bind | apply moves_bind
    | progress cbv zeta
    | case_match ].

Lemma books_kept_moves h s s' : chain_ok s.(t_receipts) -> books_kept s s' -> moved h s s'.
Proof. intros K (A & R & P). by apply moved_same. Qed.

#[export] Instance receiptTx_beside h r : Beside (receiptTx h r).
Proof. intros s [] s' H. by apply receiptTx_Ok in H as [l ->]. Qed.
#[export] Instance insertActionTx_beside id row : Beside (insertActionTx id row).
Proof. intros s [] s' [_ ->]%insertActionTx_Ok. done. Qed.
#[export] Instance updateActionTx_beside id f : Beside (updateActionTx id f).
Proof. by intros s [] s' ->%updateActionTx_Ok. Qed.
#[export] Instance insertDecisionTx_beside id row : Beside (insertDecisionTx id row).
Proof. intros s [] s' H. unfold insertDecisionTx in H. by repeat tx_step. Qed.
#[export] Instance insertLegacyEvidenceTx_beside id e : Beside (insertLegacyEvidenceTx id e).
Proof. intros s [] s' H. unfold insertLegacyEvidenceTx in H. by repeat tx_step. Qed.
#[export] Instance insertEvidenceTx_beside signed : Beside (insertEvidenceTx signed).
Proof. intros s [] s' H. unfold insertEvidenceTx, change_identity in H. by repeat (tx_step || case_match). Qed.
#[export] Instance signEvidenceTx_is_reads h e : Reads (signEvidenceTx h e) := signEvidenceTx_reads h e.

#[export] Instance insertDecisionTx_moves h id row : Moves h (insertDecisionTx id row).
Proof. intros s [] s' K H. apply books_kept_moves; [done|by eapply insertDecisionTx_kept]. Qed.
#[export] Instance insertEvidenceTx_moves h signed : Moves h (insertEvidenceTx signed).
Proof. intros s [] s' K H. apply books_kept_moves; [done|by eapply insertEvidenceTx_kept]. Qed.
Lemma insertActionTx_moves h id row : ActionState.Terminal row.(aw_state) = false -> Moves h (insertActionTx id row).
Proof.
  intros Ht s [] s' K [F ->]%insertActionTx_Ok. eapply (moved_open _ _ _ id row); try done.
  intros r Hr. congruence.
Qed.

#[export] Instance recordReceiptTx_beside h rid env d state : Beside (recordReceiptTx h rid env d state).
Proof. unfold recordReceiptTx. solve_doors. Qed.
#[export] Instance RecordAttempt_beside h rid env d state : Beside (RecordAttempt h rid env d state).
Proof. unfold RecordAttempt. solve_doors. Qed.
#[export] Instance RecordAttemptIdentified_beside h rid env d state ident :
  Beside (RecordAttemptIdentified h rid env d state ident).
Proof. unfold RecordAttemptIdentified. solve_doors. Qed.
#[export] Instance RecordAttemptAuthenticated_beside h rid now env d state e :
  Beside (RecordAttemptAuthenticated h rid now env d state e).
Proof. unfold RecordAttemptAuthenticated, recordAuthenticatedTx. solve_doors. Qed.
#[export] Instance FinishWithResult_beside h rid id to at_ digest : Beside (FinishWithResult h rid id to at_ digest).
Proof. unfold FinishWithResult, finishWithResultTx. solve_doors. Qed.

(** A close from [APPROVED] never seals an empty approval. *)
Lemma approvalDigest_decided h s id : approvalDigest h s id true <> "".
Proof.
  unfold approvalDigest. cbv zeta. destruct (approval_of_action _ _) as [[aid row]|]; [|done].
  assert (forall a, Approval_Digest h.(strconv_Quote) a <> "") as D by done.
  repeat case_match; first [done | apply D].
Qed.

Lemma with_terms_approval terms r : (with_terms terms r).(ApprovalDigest) = r.(ApprovalDigest).
Proof. unfold with_terms. by case_match. Qed.

Lemma finished_digest h rid id to at_ digest s s' row x : finished h rid id to at_ digest s s' ->
  s.(t_actions).(actions) !! id = Some row -> row.(aw_state) = ActionState.StateApproved ->
  s'.(t_receipts) = x :: s.(t_receipts) -> x.(ApprovalDigest) <> "".
Proof.
  intros [(row' & Hr & _ & _ & X) _] Hr' Ha E. rewrite Hr in Hr'. injection Hr' as ->.
  destruct h.(sealer) as [seal|]; [|rewrite E in X; by apply (f_equal List.length) in X; cbn in X; lia].
  destruct X as (y & r & Ey & [F _ _] & R). rewrite E in Ey. injection Ey as <-.
  rewrite (f_equal ApprovalDigest F : x.(ApprovalDigest) = r.(ApprovalDigest)).
  apply receiptForFinish_Ok in R as (? & d & started & terms & _ & _ & _ & _ & ->).
  rewrite with_terms_approval. cbn [ApprovalDigest new_receipt].
  rewrite Ha. apply approvalDigest_decided.
Qed.

(** A closed action is not closed again, wherever the books have gone. *)
Lemma closed_for_good h rid id to at_ digest s2 st row : s2.(t_actions).(actions) !! id = Some row ->
  row.(aw_state) = st -> ActionState.Terminal st = true ->
  forall o, FinishWithResult h rid id to at_ digest s2 <> Ok o.
Proof.
  intros Hr Hst Ht [[] s3] H. unfold FinishWithResult in H. tx_next H E1.
  unfold finishWithResultTx in H. tx_next H E2. tx_next H E3. rewrite Hr in E3. injection E3 as <-.
  tx_next H E4. rewrite Hst in E4. assert (edge st to) as E by (by left).
  apply edge_not_terminal in E. congruence.
Qed.

Lemma FinishWithResult_refusals h rid id to at_ digest s :
  let out := FinishWithResult h rid id to at_ digest s in
  if has_prefix ProfileMarkPrefix (h.(strings_ToLower) digest) then out = Err ErrReservedResultDigest
  else match s.(t_actions).(actions) !! id with
  | None => out = Err ErrNotFound
  | Some row =>
      match ActionState.Transition row.(aw_state) to with
      | Some e => out = Err e
      | None => h.(sealer) = None ->
          out = Ok (tt, set_actions (<[id := closed_row to at_ row]> s.(t_actions).(actions)) s)
      end
  end.
Proof.
  cbv zeta. unfold FinishWithResult, finishWithResultTx, updateActionTx, mbind, tx_bind, ask.
  destruct (has_prefix _ _); [done|]. cbn [require fail_if]. unfold mret, tx_ret.
  destruct (s.(t_actions).(actions) !! id) as [row|] eqn:Hr; cbn [found]; [|done]. unfold mret, tx_ret.
  destruct (ActionState.Transition _ _) as [e|]; [done|]. intros ->. cbn. by rewrite (alter_at _ _ _ _ Hr).
Qed.

(** ** How an action is closed *)

(** C17.  Closing an action is decided by its row and done once.  A result
    that carries the reserved mark is refused; so is an action that is not on
    record; an edge the table does not have is refused by its name, and then
    nothing was written.  Otherwise, when the door answers, the row has the
    new state and the instant, keeps every other column, and no other row of
    any table moved; and with a sealer wired the ledger has one more receipt,
    linked to the last one, hashed, signed by an active registered key, under
    an identity no earlier receipt has, with the terms read from the stored
    rows, whose approval digest is never empty for an action that was
    APPROVED; without one the ledger is as it was and the door does answer.
    After a terminal close no later state of the books lets the action be
    closed again. *)
Theorem a_close_is_decided_by_the_row_and_final h rid id to at_ digest s : chain_ok s.(t_receipts) ->
  let out := FinishWithResult h rid id to at_ digest s in
  if has_prefix ProfileMarkPrefix (h.(strings_ToLower) digest) then out = Err ErrReservedResultDigest
  else match s.(t_actions).(actions) !! id with
  | None => out = Err ErrNotFound
  | Some row =>
      match ActionState.Transition row.(aw_state) to with
      | Some e => out = Err e
      | None =>
          (h.(sealer) = None ->
           out = Ok (tt, set_actions (<[id := closed_row to at_ row]> s.(t_actions).(actions)) s))
          /\ forall s', out = Ok (tt, s') -> finished h rid id to at_ digest s s'
               /\ (forall x, s'.(t_receipts) = x :: s.(t_receipts) ->
                     row.(aw_state) = ActionState.StateApproved -> x.(ApprovalDigest) <> "")
               /\ (ActionState.Terminal to = true -> moved h s s'
                   /\ forall s2 rid2 to2 at2 digest2 o, moved h s' s2 ->
                        FinishWithResult h rid2 id to2 at2 digest2 s2 <> Ok o)
      end
  end.
Proof.
  intros K out. pose proof (FinishWithResult_refusals h rid id to at_ digest s) as R.
  cbv zeta in R. fold out in R. destruct (has_prefix _ _) eqn:Ep; [done|].
  assert (forall s', out = Ok (tt, s') -> finished h rid id to at_ digest s s') as Hf.
  { intros s' H. unfold out, FinishWithResult in H. tx_next H E. by apply finishWithResultTx_Ok. }
  destruct (s.(t_actions).(actions) !! id) as [row|] eqn:Hr; [|done].
  destruct (ActionState.Transition row.(aw_state) to) as [e|] eqn:Et; [done|].
  split; [done|].
  intros s' H. apply Hf in H. split; [done|]. split; [intros x Ex Ha; by eapply finished_digest|].
  intros Ht. pose proof (finished_moves _ _ _ _ _ _ _ _ Ht H) as Hm. split; [done|].
  intros s2 rid2 to2 at2 digest2 o M2. destruct H as [(row' & Hr' & _ & W & _) _].
  assert (s'.(t_actions).(actions) !! id = Some (closed_row to at_ row')) as H1
    by (rewrite W; cbn; by rewrite lookup_insert_eq).
  destruct (mv_actions _ _ _ M2 _ _ H1) as (r2 & H2 & _ & E2). apply terminal_stays in E2; [|done].
  by eapply closed_for_good.
Qed.

Definition with_sealer (seal : Receipt -> Receipt) (h : Handle) : Handle :=
  {| Ed25519_Verify := h.(Ed25519_Verify); time_Parse := h.(time_Parse);
     time_Unmarshal := h.(time_Unmarshal); working_dir := h.(working_dir);
     url_Parse := h.(url_Parse); url_String := h.(url_String); url_Hostname := h.(url_Hostname);
     strings_ToLower := h.(strings_ToLower); strings_EqualFold := h.(strings_EqualFold);
     strconv_Quote := h.(strconv_Quote);
     sealer := Some seal; authoritySigner := h.(authoritySigner);
     intentContractSigner := h.(intentContractSigner); intentEventSigner := h.(intentEventSigner);
     identityEvidenceSigner := h.(identityEvidenceSigner);
     principalEventSigner := h.(principalEventSigner); authorityProfileID := h.(authorityProfileID);
     authorityActivationDigest := h.(authorityActivationDigest) |}.

Definition sealed_clock : Handle :=
  with_sealer (SignReceipt string (fun k => k) toy_sign example_key) clock.

(** An authorised attempt, to be closed. *)
Definition attempt_env (id : string) : ActionEnvelope.t :=
  {| ActionEnvelope.ActionID := id; ActionEnvelope.SchemaVersion := 1;
     ActionEnvelope.CorrelationID := "req_1";
     ActionEnvelope.Principal := {| PrincipalRef.PrincipalID := ""; PrincipalRef.EvidenceID := "";
                                    PrincipalRef.ResponsibleHumanID := "" |};
     ActionEnvelope.Source := {| Source.Kind := "agent"; Source.Protocol := "telegram";
                                 Source.Channel := "telegram" |};
     ActionEnvelope.IntentID := "";
     ActionEnvelope.Operation :=
       {| Operation.Namespace := "tool"; Operation.Name := "calc"; Operation.Version := 1 |};
     ActionEnvelope.ParametersDigest := "sha256:00"; ActionEnvelope.EffectClass := EffectPure;
     ActionEnvelope.RequestedAt := noon; ActionEnvelope.AuthorityRefs := [] |}.

Definition plain_allow : Decision.t :=
  {| Decision.Outcome := "allow"; Decision.Rule := "granted"; Decision.PolicyVersion := 1;
     Decision.PolicyDigest := "pol_1" |}.

Definition attempt_db : db := Eval vm_compute in
  saved (RecordAttempt sealed_clock "rcpt_0" (attempt_env "act_9") plain_allow ActionState.StateAuthorized
           empty_db).
Definition closed_db : db := Eval vm_compute in
  saved (FinishWithResult sealed_clock "rcpt_1" "act_9" ActionState.StateSucceeded noon "" attempt_db).

Lemma a_close_is_decided_by_the_row_and_final_witness :
  chain_ok closed_db.(t_receipts) /\ List.length closed_db.(t_receipts) = 1%nat
  /\ FinishWithResult sealed_clock "rcpt_2" "act_9" ActionState.StateFailed noon "" closed_db
     <> Ok (tt, closed_db).
Proof.
  pose proof (a_close_is_decided_by_the_row_and_final sealed_clock "rcpt_1" "act_9"
    ActionState.StateSucceeded noon "" attempt_db chain_empty) as H.
  destruct (H : _ /\ forall s', _) as [_ H1]. destruct (H1 closed_db) as ([_ K] & _ & F).
  - vm_cast_no_check (eq_refl (A := result (unit * db)) (Ok (tt, closed_db))).
  - split; [exact K|]. split; [vm_compute; reflexivity|]. destruct (F eq_refl) as [M F2].
    apply F2. apply moved_same; done.
Defined.
