(* ===== verification/StoreApprovals.v ===== *)
(** * Approvals in the store

    [internal/action/sqlite/approvals.go], [approvals_v15.go] and the strict
    start of an approved request in [authority_v2.go]: the birth of a parked
    request, its one-shot decision with the operator's act and the tombstone,
    the expiry close and its sweep, the claim of the parked parameters, and the
    reads that judge the stored story.  Columns have the types of their schema,
    so a row fails to convert only in its times and its schema version. *)

From S2P Require Import Prelude Kernel Grants Json Text Encoding Digests Wire Struct Receipts Approvals Intents Authority Contracts Identity Snapshots Tables StoreBudget StoreIdentity StoreIntents StoreGrants StoreBirths StoreConfig StoreStart StoreLedger.
From Stdlib Require Import Ascii String.
Import Effect Lifecycle.
Local Open Scope Z_scope.
Local Open Scope korvun_scope.
#[local] Arguments String.append !_ _ : simpl nomatch.

Definition ErrUnknownDecision : error := ErrorNew "action/sqlite: unknown decision verb".
Definition ErrApprovalParamsEmpty : error :=
  ErrorWrap "action/sqlite: approval parameters column empty" ErrNotFound.
Definition ErrApprovalClaimSkipped : error :=
  ErrorWrap "action/sqlite: approval claim affected no rows" ErrNotFound.
Definition ErrApprovalInvalidated : error := ErrorNew "action/sqlite: the law moved under this approval".
Definition ErrApprovalUnreadable : error := ErrorNew "action/sqlite: the approval could not be read".
Definition ErrApprovalParamsDigestMismatch : error :=
  ErrorNew "action/sqlite: the stored parameters no longer re-derive the approved digest".
Definition ErrApprovalParamsUnaccounted : error :=
  ErrorNew "action/sqlite: the parameters are no longer where they were".
Definition ErrApprovalActionNotPending : error :=
  ErrorNew "action/sqlite: the parked action was no longer pending".
Definition ErrApprovalNoLongerApproved : error :=
  ErrorNew "action/sqlite: the approval or its action was not APPROVED inside the claim".
Definition ErrApprovalRequiresAuthority : error :=
  ErrorNew "action/sqlite: a strict-born approval starts only through the authority door".
Definition ErrApprovalMovedUnderTheClaim : error :=
  ErrorNew "action/sqlite: the approval row moved between the caller's read and the claim".
Definition ErrTombstone : error := ErrorNew "action/sqlite: tombstone fault".
Definition ErrTombstoneConflict : error := ErrorNew "action/sqlite: tombstone_conflict".
Definition ErrBelt : error := ErrorNew "action/sqlite: approval request refused".
Definition ErrNull : error := ErrorNew "sql: converting NULL to string is unsupported".

(** [PolicyPin]. *)
Module PolicyPin.

Record t := { Version : Z; Digest : string }.

End PolicyPin.

(** ** The preview's reader *)

Definition preview_wire : gotype := TStruct
  [("action_id", TString); ("schema_version", TInt); ("intent_purpose", TString);
   ("principal_id", TString); ("grant_id", TString); ("grant_depth", TInt); ("operation", TString);
   ("resources", TSlice TString); ("data_egress", TString); ("args_digest", TString);
   ("cost_line", TString); ("effect_class", TString); ("reversibility", TString);
   ("tool_cage", TString); ("policy_version", TInt); ("policy_digest", TString);
   ("required_rule", TString)].

Definition preview_of (g : goval) : option ActionPreview.t :=
  match g with
  | GStruct [GString action; GInt schema; GString purpose; GString principal; GString grant;
       GInt depth; GString operation; resources; GString egress; GString args; GString cost;
       GString effect; GString reversibility; GString cage; GInt version; GString digest; GString rule] =>
      resources ← slice_of string_of resources;
      Some {| ActionPreview.ActionID := action; ActionPreview.SchemaVersion := schema;
              ActionPreview.IntentPurpose := purpose; ActionPreview.PrincipalID := principal;
              ActionPreview.GrantID := grant; ActionPreview.GrantDepth := depth;
              ActionPreview.Operation := operation; ActionPreview.Resources := elems resources;
              ActionPreview.DataEgress := egress; ActionPreview.ArgsDigest := args;
              ActionPreview.CostLine := cost; ActionPreview.EffectClass := effect;
              ActionPreview.Reversibility := reversibility; ActionPreview.ToolCage := cage;
              ActionPreview.PolicyVersion := version; ActionPreview.PolicyDigest := digest;
              ActionPreview.RequiredRule := rule |}
  | _ => None
  end.

(** The decoder reads one value and asks [More]. *)
Definition ParseCanonicalPreview (raw : string) : option ActionPreview.t :=
  match decode_prefix raw with
  | None => None
  | Some (v, rest) =>
      g ← decode_go preview_wire v (zero_go preview_wire);
      if more rest then None else preview_of g
  end.

(** ** Domains *)

Definition knownApprovalStatus (s : string) : bool :=
  bool_decide (s ∈ [ApprovalPending; ApprovalApproved; ApprovalRejected; ApprovalExpired; ApprovalCancelled]).

Definition knownActionState (s : string) : bool :=
  bool_decide (s ∈
    [ActionState.StateReceived; ActionState.StateNormalized; ActionState.StateDenied;
     ActionState.StateShadowed; ActionState.StateAuthorized; ActionState.StateSucceeded;
     ActionState.StateFailed; ActionState.StatePendingApproval; ActionState.StateRejected;
     ActionState.StateApproved; ActionState.StatePreparing; ActionState.StatePrepareFailed;
     ActionState.StatePrepared; ActionState.StateCommitting; ActionState.StateOutcomeUnknown;
     ActionState.StateCompensating; ActionState.StateCompensated; ActionState.StateCompensationFailed]).

Definition unclassifiedEffect : string := "unclassified".
Definition storedEffectClassInDomain (class : string) : bool :=
  Known class || bool_decide (class = unclassifiedEffect).

(** ** Rows of an approval *)

Definition set_approvals (m : gmap string approval_row) (s : db) : db :=
  with_approvals {| approvals := m; tombstones := s.(t_approvals).(tombstones) |} s.
Definition set_tombstones (m : gmap string tombstone_row) (s : db) : db :=
  with_approvals {| approvals := s.(t_approvals).(approvals); tombstones := m |} s.

Definition set_params (params : string) (r : approval_row) : approval_row :=
  {| ar_schema := r.(ar_schema); ar_action := r.(ar_action); ar_action_digest := r.(ar_action_digest);
     ar_preview_digest := r.(ar_preview_digest); ar_preview := r.(ar_preview); ar_params := params;
     ar_requested_from := r.(ar_requested_from); ar_reason := r.(ar_reason); ar_risk := r.(ar_risk);
     ar_policy_version := r.(ar_policy_version); ar_policy_digest := r.(ar_policy_digest);
     ar_requested := r.(ar_requested); ar_expires := r.(ar_expires); ar_status := r.(ar_status);
     ar_decider := r.(ar_decider); ar_decision := r.(ar_decision); ar_decided := r.(ar_decided);
     ar_comment := r.(ar_comment); ar_receipt := r.(ar_receipt); ar_strict := r.(ar_strict) |}.

Definition set_decision (status decider decision at_ comment receipt : string) (r : approval_row)
    : approval_row :=
  {| ar_schema := r.(ar_schema); ar_action := r.(ar_action); ar_action_digest := r.(ar_action_digest);
     ar_preview_digest := r.(ar_preview_digest); ar_preview := r.(ar_preview); ar_params := r.(ar_params);
     ar_requested_from := r.(ar_requested_from); ar_reason := r.(ar_reason); ar_risk := r.(ar_risk);
     ar_policy_version := r.(ar_policy_version); ar_policy_digest := r.(ar_policy_digest);
     ar_requested := r.(ar_requested); ar_expires := r.(ar_expires); ar_status := status;
     ar_decider := decider; ar_decision := decision; ar_decided := Some at_;
     ar_comment := comment; ar_receipt := receipt; ar_strict := r.(ar_strict) |}.

(** [UPDATE approvals ... WHERE approval_id = ?]. *)
Definition updateApprovalTx (id : string) (f : approval_row -> approval_row) : Tx unit :=
  change (fun s => set_approvals (alter f id s.(t_approvals).(approvals)) s).

(** The same [AND status = 'PENDING']: whether a row was affected. *)
Definition updatePendingTx (id : string) (f : approval_row -> approval_row) : Tx bool :=
  t ← ask t_approvals;
  match t.(approvals) !! id with
  | Some row =>
      if bool_decide (row.(ar_status) = ApprovalPending) then updateApprovalTx id f;; mret true
      else mret false
  | None => mret false
  end.

Section Doors.
Context (h : Handle).

(** ** Reading an approval *)

(** [approvalRawTime]: a nullable column may be absent or empty. *)
Definition approvalRawTime (nullable : bool) (v : option string) : option time :=
  match v with
  | Some s => if bool_decide (s = "") then (if nullable then Some 0 else None) else h.(time_Parse) s
  | None => if nullable then Some 0 else None
  end.

Definition int32_range (n : Z) : bool := (-2147483648 <=? n) && (n <=? 2147483647).

Definition approvalFromRaw (id : string) (r : approval_row) : option Approval.t :=
  if negb (int32_range r.(ar_schema)) then None
  else
    requested ← approvalRawTime false (Some r.(ar_requested));
    expires ← approvalRawTime true r.(ar_expires);
    decided ← approvalRawTime true r.(ar_decided);
    Some {| Approval.ApprovalID := id; Approval.SchemaVersion := r.(ar_schema);
            Approval.ActionID := r.(ar_action); Approval.ActionDigest := r.(ar_action_digest);
            Approval.PreviewDigest := r.(ar_preview_digest);
            Approval.RequestedFrom := r.(ar_requested_from); Approval.Reason := r.(ar_reason);
            Approval.RiskSummary := r.(ar_risk); Approval.PolicyVersion := r.(ar_policy_version);
            Approval.PolicyDigest := r.(ar_policy_digest); Approval.RequestedAt := requested;
            Approval.ExpiresAt := expires; Approval.Status := r.(ar_status);
            Approval.DecisionPrincipalID := r.(ar_decider); Approval.Decision := r.(ar_decision);
            Approval.DecisionAt := decided; Approval.Comment := r.(ar_comment);
            Approval.DecisionReceiptID := r.(ar_receipt) |}.

Definition approvalTx (id : string) : Tx Approval.t :=
  t ← ask t_approvals;
  row ← found ErrApprovalNotFound (t.(approvals) !! id);
  found ErrApprovalEvidenceCorrupt (approvalFromRaw id row).

(** The id and the strict marker state one fact. *)
Definition strictMarkerTx (id : string) : Tx Z :=
  t ← ask t_approvals;
  row ← found ErrApprovalUnreadable (t.(approvals) !! id);
  require (fail_if (negb (Bool.eqb (IsStrictApprovalID id) (bool_decide (row.(ar_strict) = 1))))
             ErrAuthorizationSnapshotCorrupt);;
  mret row.(ar_strict).

Definition ternaOf (actionID : string) : Tx (Operation.t * ActionState.State) :=
  a ← ask t_actions;
  row ← found ErrApprovalEvidenceCorrupt (a.(actions) !! actionID);
  require (fail_if (negb (knownActionState row.(aw_state))) ErrApprovalEvidenceCorrupt);;
  mret (row.(aw_operation), row.(aw_state)).

(** The preview, the action and the decision tell one story. *)
Definition verifyApprovalStoryTyped (a : Approval.t) (p : ActionPreview.t) : Tx unit :=
  t ← ask t_actions;
  row ← found ErrApprovalEvidenceCorrupt (t.(actions) !! a.(Approval.ActionID));
  require (fail_if
    (negb (storedEffectClassInDomain row.(aw_effect))
     || bool_decide (row.(aw_effect) <> p.(ActionPreview.EffectClass))
     || bool_decide (row.(aw_operation).(Operation.Namespace) +:+ "/" +:+ row.(aw_operation).(Operation.Name)
                     <> p.(ActionPreview.Operation))
     || bool_decide (default "" row.(aw_principal) <> p.(ActionPreview.PrincipalID)))
    ErrApprovalEvidenceCorrupt);;
  d ← found ErrApprovalEvidenceCorrupt (t.(decisions) !! a.(Approval.ActionID));
  require (fail_if
    (bool_decide (d.(de_outcome) <> a.(Approval.Reason)) || bool_decide (d.(de_rule) <> a.(Approval.Reason))
     || bool_decide (d.(de_policy_version) <> a.(Approval.PolicyVersion))
     || bool_decide (d.(de_policy_digest) <> a.(Approval.PolicyDigest))) ErrApprovalEvidenceCorrupt).

(** The stored preview, bound to its approval and to the story. *)
Definition storedPreviewTx (a : Approval.t) : Tx ActionPreview.t :=
  t ← ask t_approvals;
  row ← found ErrApprovalNotFound (t.(approvals) !! a.(Approval.ApprovalID));
  p ← found ErrApprovalEvidenceCorrupt (ParseCanonicalPreview row.(ar_preview));
  require (fail_if (bool_decide (ValidatePreviewBinding a p <> None)) ErrApprovalEvidenceCorrupt);;
  verifyApprovalStoryTyped a p;;
  mret p.

Definition law_holds (a : Approval.t) (digest : string) (law : PolicyPin.t) : bool :=
  bool_decide ((ValidateApprovalBinding a digest law.(PolicyPin.Version) law.(PolicyPin.Digest)).1 = "").

(** ** Tombstones *)

(** The origin of a decision: a human verb names a hand, the clock none. *)
Definition judgeTombstoneOrigin (decision principal : string) : bool :=
  if bool_decide (decision = DecisionClock) then bool_decide (principal = "")
  else IsHumanDecision decision && bool_decide (principal <> "").

(** The one contract of a stored tombstone, and whether it has an instant. *)
Definition judgeStoredTombstone (id : string) (r : tombstone_row) : option (Approval.t * bool) :=
  if existsb (fun s => bool_decide (s = ""))
       [id; r.(tb_digest); r.(tb_action); r.(tb_action_digest); r.(tb_preview_digest);
        r.(tb_policy_digest); r.(tb_decision)]
     || negb (judgeTombstoneOrigin r.(tb_decision) r.(tb_decider))
  then None
  else
    at_ ← match r.(tb_decided) with
          | None => Some 0
          | Some s => if bool_decide (s = "") then None else h.(time_Parse) s
          end;
    let a := {| Approval.ApprovalID := id; Approval.SchemaVersion := 0; Approval.ActionID := r.(tb_action);
                Approval.ActionDigest := r.(tb_action_digest);
                Approval.PreviewDigest := r.(tb_preview_digest); Approval.RequestedFrom := "";
                Approval.Reason := ""; Approval.RiskSummary := "";
                Approval.PolicyVersion := r.(tb_policy_version);
                Approval.PolicyDigest := r.(tb_policy_digest); Approval.RequestedAt := 0;
                Approval.ExpiresAt := 0; Approval.Status := "";
                Approval.DecisionPrincipalID := r.(tb_decider); Approval.Decision := r.(tb_decision);
                Approval.DecisionAt := at_; Approval.Comment := ""; Approval.DecisionReceiptID := "" |} in
    if bool_decide (Approval_Digest h.(strconv_Quote) a <> r.(tb_digest)) then None
    else Some (a, bool_decide (is_Some r.(tb_decided))).

(** The approval as its decision seals it. *)
Definition sealed_decision (a : Approval.t) (decider decision : string) (at_ : time) : Approval.t :=
  {| Approval.ApprovalID := a.(Approval.ApprovalID); Approval.SchemaVersion := a.(Approval.SchemaVersion);
     Approval.ActionID := a.(Approval.ActionID); Approval.ActionDigest := a.(Approval.ActionDigest);
     Approval.PreviewDigest := a.(Approval.PreviewDigest);
     Approval.RequestedFrom := a.(Approval.RequestedFrom); Approval.Reason := a.(Approval.Reason);
     Approval.RiskSummary := a.(Approval.RiskSummary); Approval.PolicyVersion := a.(Approval.PolicyVersion);
     Approval.PolicyDigest := a.(Approval.PolicyDigest); Approval.RequestedAt := a.(Approval.RequestedAt);
     Approval.ExpiresAt := a.(Approval.ExpiresAt); Approval.Status := a.(Approval.Status);
     Approval.DecisionPrincipalID := decider; Approval.Decision := decision; Approval.DecisionAt := at_;
     Approval.Comment := a.(Approval.Comment);
     Approval.DecisionReceiptID := a.(Approval.DecisionReceiptID) |}.

(** The ten columns a tombstone stores. *)
Definition tombstone_of (a : Approval.t) (decider decision : string) (at_ : time) : tombstone_row :=
  {| tb_digest := Approval_Digest h.(strconv_Quote) (sealed_decision a decider decision at_);
     tb_action := a.(Approval.ActionID); tb_action_digest := a.(Approval.ActionDigest);
     tb_preview_digest := a.(Approval.PreviewDigest);
     tb_policy_version := a.(Approval.PolicyVersion); tb_policy_digest := a.(Approval.PolicyDigest);
     tb_decider := decider; tb_decision := decision; tb_decided := Some (rfc3339 at_) |}.

#[export] Instance tombstone_row_eq_dec : EqDecision tombstone_row.
Proof. solve_decision. Defined.

(** A collision is judged: the same story again is nothing to do, a different
    one, a row that fails its contract or a foreign digest is refused. *)
Definition tombstoneTx (a : Approval.t) (decider decision : string) (at_ : time) : Tx unit :=
  require (fail_if (negb (judgeTombstoneOrigin decision decider)) ErrTombstone);;
  let row := tombstone_of a decider decision at_ in
  t ← ask t_approvals;
  match t.(tombstones) !! a.(Approval.ApprovalID) with
  | Some stored =>
      require (fail_if (bool_decide (judgeStoredTombstone a.(Approval.ApprovalID) stored = None)) ErrTombstone);;
      require (fail_if (bool_decide (stored <> row)) ErrTombstoneConflict)
  | None =>
      require (fail_if (existsb (fun p => bool_decide (p.2.(tb_digest) = row.(tb_digest)))
                          (map_to_list t.(tombstones))) ErrTombstone);;
      change (fun s => set_tombstones (<[a.(Approval.ApprovalID) := row]> s.(t_approvals).(tombstones)) s)
  end.

(** ** Closing and deciding *)

(** [transitionTx]: the edge of the table, on a row that is where it was. *)
Definition transitionTx (actionID : string) (from to : ActionState.State) : Tx unit :=
  require (ActionState.Transition from to);;
  t ← ask t_actions;
  require (fail_if (bool_decide ((aw_state <$> t.(actions) !! actionID) <> Some from))
             ErrApprovalActionNotPending);;
  updateActionTx actionID (set_state to).

(** Whether this close won the row: a loser changed nothing. *)
Definition closeApprovalTx (a : Approval.t) (status decider decision : string) (at_ : time)
    (comment proofID : string) : Tx bool :=
  won ← updatePendingTx a.(Approval.ApprovalID)
          (fun r => set_params "" (set_decision status decider decision (rfc3339 at_) comment proofID r));
  if won : bool then tombstoneTx a decider decision at_;; mret true else mret false.

Definition rejectParkedActionTx (receiptID actionID : string) (at_ : time) : Tx unit :=
  transitionTx actionID ActionState.StatePendingApproval ActionState.StateRejected;;
  updateActionTx actionID (set_finished (rfc3339 at_));;
  receipt ← receiptForFinish h receiptID actionID ActionState.StateRejected at_ "" true false;
  receiptTx h receipt.

(** The operator's decision act: an action of its own, terminal, receipted. *)
Definition recordDecisionActTx (receiptID : string) (env : ActionEnvelope.t) (ident : AttemptIdentity.t)
    (at_ : time) : Tx string :=
  let d := {| Decision.Outcome := "allow"; Decision.Rule := "operator"; Decision.PolicyVersion := 0;
              Decision.PolicyDigest := "" |} in
  let row := attempt_row env ActionState.StateSucceeded (nullable ident.(AttemptIdentity.PrincipalID))
               (nullable ident.(AttemptIdentity.IntentID)) None legacy_snapshot in
  insertActionTx env.(ActionEnvelope.ActionID)
    (set_finished (rfc3339 at_)
       {| aw_schema := row.(aw_schema); aw_correlation := row.(aw_correlation); aw_source := row.(aw_source);
          aw_operation := row.(aw_operation); aw_parameters := row.(aw_parameters);
          aw_effect := row.(aw_effect); aw_state := row.(aw_state); aw_recovery := row.(aw_recovery);
          aw_requested := rfc3339 at_; aw_finished := row.(aw_finished);
          aw_principal := row.(aw_principal); aw_intent := row.(aw_intent); aw_refs := row.(aw_refs);
          aw_snapshot := row.(aw_snapshot) |});;
  insertDecisionTx env.(ActionEnvelope.ActionID) (decision_of d at_);;
  receipt ← receiptForRecord h receiptID env d ActionState.StateSucceeded;
  receiptTx h receipt;;
  mret receiptID.

(** A decided status for each human verb. *)
Definition status_of_verb (decision : string) : ApprovalStatus :=
  if bool_decide (decision = DecisionApproved) then ApprovalApproved
  else if bool_decide (decision = DecisionCancelled) then ApprovalCancelled
  else ApprovalRejected.

(** The rule answered and whether the transaction commits.  [proofID] and
    [receiptID] are the receipts of the act and of a closed action. *)
Definition decideApprovalTx (proofID receiptID approvalID decision : string) (at_ : time)
    (operatorEnv : ActionEnvelope.t) (ident : AttemptIdentity.t) (comment : string)
    (law : option PolicyPin.t) : Tx (string * bool) :=
  let principal := ident.(AttemptIdentity.PrincipalID) in
  require (fail_if (negb (IsHumanDecision decision)) ErrUnknownDecision);;
  require (fail_if (negb (judgeTombstoneOrigin decision principal)) ErrTombstone);;
  a ← approvalTx approvalID;
  strictMarkerTx approvalID;;
  storedPreviewTx a;;
  let rule := ApprovalConsumableAt a at_ in
  if bool_decide (rule = RuleApprovalAlreadyDecided) then mret (rule, false)
  else if bool_decide (rule <> "") then
    won ← closeApprovalTx a ApprovalExpired "" DecisionClock at_ "" "";
    if won : bool then
      rejectParkedActionTx receiptID a.(Approval.ActionID) at_;;
      mret (RuleApprovalExpired, true)
    else mret (RuleApprovalAlreadyDecided, false)
  else
    require (fail_if (match law with
                      | Some law => negb (law_holds a a.(Approval.ActionDigest) law)
                      | None => false
                      end) ErrApprovalInvalidated);;
    proof ← recordDecisionActTx proofID operatorEnv ident at_;
    won ← updatePendingTx approvalID
            (set_decision (status_of_verb decision) principal decision (rfc3339 at_) comment proof);
    if won : bool then
      tombstoneTx a principal decision at_;;
      (if bool_decide (decision = DecisionApproved)
       then transitionTx a.(Approval.ActionID) ActionState.StatePendingApproval ActionState.StateApproved
       else rejectParkedActionTx receiptID a.(Approval.ActionID) at_;;
            updateApprovalTx approvalID (set_params ""));;
      mret ("", true)
    else mret (RuleApprovalAlreadyDecided, false).

(** A door that may answer without committing. *)
Definition commit_if {A} (m : Tx (A * bool)) (s : db) : result A * db :=
  match m s with
  | Ok ((x, true), s') => (Ok x, s')
  | Ok ((x, false), _) => (Ok x, s)
  | Err e => (Err e, s)
  end.

Definition decideApprovalWithLaw (proofID receiptID approvalID decision : string) (at_ : time)
    (operatorEnv : ActionEnvelope.t) (ident : AttemptIdentity.t) (comment : string)
    (law : option PolicyPin.t) : db -> result string * db :=
  commit_if (decideApprovalTx proofID receiptID approvalID decision at_ operatorEnv ident comment law).

(** Only an approve consumes authority, so only an approve is judged by a law. *)
Definition DecideApprovalUnderLaw (proofID receiptID approvalID decision : string) (at_ : time)
    (operatorEnv : ActionEnvelope.t) (ident : AttemptIdentity.t) (comment : string) (law : PolicyPin.t)
    : db -> result string * db :=
  decideApprovalWithLaw proofID receiptID approvalID decision at_ operatorEnv ident comment
    (if bool_decide (decision = DecisionApproved) then Some law else None).

(** ** The sweep *)

Definition sweepExpiredOneTx (receiptID approvalID : string) (at_ : time) : Tx (bool * bool) :=
  a ← approvalTx approvalID;
  won ← closeApprovalTx a ApprovalExpired "" DecisionClock at_ "" "";
  if won : bool then rejectParkedActionTx receiptID a.(Approval.ActionID) at_;; mret (true, true)
  else mret (false, false).

(** [expires_at <= ?] compares the two texts. *)
Definition sweepable (at_ : time) (r : approval_row) : bool :=
  bool_decide (r.(ar_status) = ApprovalPending)
  && match r.(ar_expires) with
     | Some s => bool_decide (s <> "") && bool_decide (String.le s (rfc3339 at_))
     | None => false
     end.

Definition expired_ids (at_ : time) (t : approval_tables) : list string :=
  (filter (fun p => sweepable at_ p.2 = true) (approvals_in_order t)).*1.

(** Each row in a transaction of its own; the first failure stops the sweep. *)
Fixpoint sweep_rows (receipt_id : string -> string) (at_ : time) (ids : list string) (swept skipped : Z)
    (s : db) : result (Z * Z) * db :=
  match ids with
  | [] => (Ok (swept, skipped), s)
  | id :: ids' =>
      match commit_if (sweepExpiredOneTx (receipt_id id) id at_) s with
      | (Ok true, s') => sweep_rows receipt_id at_ ids' (swept + 1) skipped s'
      | (Ok false, s') => sweep_rows receipt_id at_ ids' swept (skipped + 1) s'
      | (Err e, s') => (Err e, s')
      end
  end.

Definition SweepExpiredApprovals (receipt_id : string -> string) (at_ : time) (s : db)
    : result (Z * Z) * db :=
  sweep_rows receipt_id at_ (expired_ids at_ s.(t_approvals)) 0 0 s.

(** ** Births *)

(** [now] is the store's clock. *)
Definition createApprovalPartsWithIdentity (now : time) (env : ActionEnvelope.t) (d : Decision.t)
    (a : Approval.t) (p : ActionPreview.t) (rawParams : string) (evidence : option Evidence.t) : Tx unit :=
  let id := env.(ActionEnvelope.ActionID) in
  require (fail_if (maxApprovalParamsBytes <? Z.of_nat (String.length rawParams)) ErrParamsTooLong);;
  require (fail_if
    (bool_decide (Digests.Digest env.(ActionEnvelope.Operation) rawParams
                  <> env.(ActionEnvelope.ParametersDigest))
     || bool_decide (a.(Approval.ActionDigest) <> env.(ActionEnvelope.ParametersDigest))
     || bool_decide (a.(Approval.ActionID) <> id) || bool_decide (p.(ActionPreview.ActionID) <> id))
    ErrBelt);;
  require (ValidatePreviewBinding a p);;
  require (fail_if (bool_decide (d.(Decision.Rule) <> a.(Approval.Reason))) ErrBelt);;
  match evidence with
  | None =>
      insertActionTx id
        (attempt_row env ActionState.StatePendingApproval
           (nullable env.(ActionEnvelope.Principal).(PrincipalRef.PrincipalID))
           (nullable env.(ActionEnvelope.IntentID)) None legacy_snapshot)
  | Some evidence =>
      validateResolvedEvidenceAtTx h evidence env now now;;
      signed ← signEvidenceTx h evidence;
      insertActionTx id
        (attempt_row env ActionState.StatePendingApproval (Some evidence.(Evidence.ActorPrincipalID))
           (nullable env.(ActionEnvelope.IntentID)) None (evidence_snapshot signed));;
      insertEvidenceTx signed
  end;;
  insertDecisionTx id (decision_of d env.(ActionEnvelope.RequestedAt));;
  insertApprovalTx a.(Approval.ApprovalID) (pending_row a p rawParams 0).

Definition createApproval (now : time) (b : BoundApprovalRequest) (evidence : option Evidence.t) : Tx unit :=
  let a := b.(approval) in
  createApprovalPartsWithIdentity now b.(env)
    {| Decision.Outcome := a.(Approval.Reason); Decision.Rule := a.(Approval.Reason);
       Decision.PolicyVersion := a.(Approval.PolicyVersion);
       Decision.PolicyDigest := a.(Approval.PolicyDigest) |}
    a b.(preview) b.(params) evidence.

Definition CreateApprovalRequest (now : time) (b : BoundApprovalRequest) : Tx unit :=
  createApproval now b None.

Definition CreateApprovalRequestAuthenticated (now : time) (b : BoundApprovalRequest) (evidence : Evidence.t)
    : Tx unit :=
  createApproval now b (Some evidence).

(** ** The signed snapshot of a strict request *)

Definition chain_json (chain : slice string) : string :=
  print (marshal_go (TSlice TString) (slice_go GString chain)).

(** The columns repeat the signed bytes. *)
Definition snapshot_agrees (row : snapshot_row) (chain : slice string) (snapshot : AuthorizationSnapshotV1.t)
    (a : Approval.t) : bool :=
  bool_decide (snapshot.(AuthorizationSnapshotV1.ActionID) = a.(Approval.ActionID))
  && bool_decide (snapshot.(AuthorizationSnapshotV1.ApprovalID) = a.(Approval.ApprovalID))
  && bool_decide (row.(ss_requester) = snapshot.(AuthorizationSnapshotV1.RequesterPrincipalID))
  && bool_decide (row.(ss_actor) = snapshot.(AuthorizationSnapshotV1.ActorPrincipalID))
  && bool_decide (row.(ss_evidence) = snapshot.(AuthorizationSnapshotV1.IdentityEvidenceDigest))
  && bool_decide (row.(ss_intent) = snapshot.(AuthorizationSnapshotV1.IntentID))
  && bool_decide (row.(ss_intent_version) = snapshot.(AuthorizationSnapshotV1.IntentVersion))
  && bool_decide (row.(ss_intent_digest) = snapshot.(AuthorizationSnapshotV1.IntentDigest))
  && bool_decide (row.(ss_kind) = snapshot.(AuthorizationSnapshotV1.Kind))
  && bool_decide (row.(ss_approval) = snapshot.(AuthorizationSnapshotV1.ApprovalID))
  && bool_decide (row.(ss_purpose) = snapshot.(AuthorizationSnapshotV1.IntentPurpose))
  && bool_decide (chain_json chain = chain_json snapshot.(AuthorizationSnapshotV1.PrincipalChain))
  && bool_decide (row.(ss_budget_kind) = snapshot.(AuthorizationSnapshotV1.BudgetKind))
  && bool_decide (row.(ss_remaining) = snapshot.(AuthorizationSnapshotV1.BudgetRemaining))
  && bool_decide (row.(ss_recorded) = rfc3339 snapshot.(AuthorizationSnapshotV1.RecordedAt)).

Definition approvalAuthoritySnapshotTx (a : Approval.t) : Tx (option AuthorizationSnapshotV1.t) :=
  (if bool_decide (h.(authorityActivationDigest) = "") then mret tt
   else verifyAuthorityActivationTx h h.(authorityProfileID) h.(authorityActivationDigest));;
  required ← strictMarkerTx a.(Approval.ApprovalID);
  z ← ask t_authz;
  if bool_decide (required = 0) then
    require (fail_if (existsb (fun p => bool_decide (p.1 = a.(Approval.ActionID))
                                        || bool_decide (p.2.(ss_approval) = a.(Approval.ApprovalID)))
                        (map_to_list z.(snapshots))) ErrAuthorizationSnapshotCorrupt);;
    mret None
  else
    require (fail_if (bool_decide (required <> 1)) ErrAuthorizationSnapshotCorrupt);;
    row ← found ErrAuthorizationSnapshotCorrupt (z.(snapshots) !! a.(Approval.ActionID));
    '(pub, _) ← rename ErrAuthorizationSnapshotCorrupt (publicKeyTx row.(ss_key));
    snapshot ← rename ErrAuthorizationSnapshotCorrupt
      (lift (VerifyAuthorizationSnapshotBytesV1 h.(time_Parse) h.(Ed25519_Verify) pub row.(ss_canonical)
        {| as_Digest := row.(ss_digest); as_SigningKeyID := row.(ss_key);
           as_Signature := row.(ss_signature) |}));
    chain ← found ErrAuthorizationSnapshotCorrupt
              (g ← strictJSON (TSlice TString) row.(ss_chain); slice_of string_of g);
    require (fail_if (negb (snapshot_agrees row chain snapshot a)) ErrAuthorizationSnapshotCorrupt);;
    mret (Some snapshot).

(** ** The claim *)

Definition approvalRowMoved (seen now : Approval.t) : string :=
  default "" (snd <$> find (fun p => negb p.1)
    [(bool_decide (seen.(Approval.ApprovalID) = now.(Approval.ApprovalID)), "approval_id");
     (bool_decide (seen.(Approval.SchemaVersion) = now.(Approval.SchemaVersion)), "schema_version");
     (bool_decide (seen.(Approval.ActionID) = now.(Approval.ActionID)), "action_id");
     (bool_decide (seen.(Approval.ActionDigest) = now.(Approval.ActionDigest)), "action_digest");
     (bool_decide (seen.(Approval.PreviewDigest) = now.(Approval.PreviewDigest)), "preview_digest");
     (bool_decide (seen.(Approval.RequestedFrom) = now.(Approval.RequestedFrom)), "requested_from");
     (bool_decide (seen.(Approval.Reason) = now.(Approval.Reason)), "reason");
     (bool_decide (seen.(Approval.RiskSummary) = now.(Approval.RiskSummary)), "risk_summary");
     (bool_decide (seen.(Approval.PolicyVersion) = now.(Approval.PolicyVersion)), "policy_version");
     (bool_decide (seen.(Approval.PolicyDigest) = now.(Approval.PolicyDigest)), "policy_digest");
     (bool_decide (seen.(Approval.RequestedAt) = now.(Approval.RequestedAt)), "requested_at");
     (bool_decide (seen.(Approval.ExpiresAt) = now.(Approval.ExpiresAt)), "expires_at");
     (bool_decide (seen.(Approval.Status) = now.(Approval.Status)), "status");
     (bool_decide (seen.(Approval.DecisionPrincipalID) = now.(Approval.DecisionPrincipalID)),
      "decision_principal_id");
     (bool_decide (seen.(Approval.Decision) = now.(Approval.Decision)), "decision");
     (bool_decide (seen.(Approval.DecisionAt) = now.(Approval.DecisionAt)), "decision_at");
     (bool_decide (seen.(Approval.Comment) = now.(Approval.Comment)), "comment");
     (bool_decide (seen.(Approval.DecisionReceiptID) = now.(Approval.DecisionReceiptID)),
      "decision_receipt_id")]).

Definition claimAuthorityTx (approvalID actionID : string) : Tx unit :=
  t ← ask t_approvals;
  row ← found ErrApprovalEvidenceCorrupt (t.(approvals) !! approvalID);
  require (fail_if (negb (knownApprovalStatus row.(ar_status))) ErrApprovalEvidenceCorrupt);;
  '(_, state) ← ternaOf actionID;
  require (fail_if (bool_decide (row.(ar_status) <> ApprovalApproved)
                    || bool_decide (state <> ActionState.StateApproved)) ErrApprovalNoLongerApproved).

(** [UPDATE ... SET canonical_params = '' WHERE ... canonical_params != '' AND
    status AND EXISTS]: whether the row was purged. *)
Definition purgeClaimTx (approvalID actionID : string) : Tx bool :=
  t ← ask t_approvals;
  a ← ask t_actions;
  match t.(approvals) !! approvalID with
  | Some row =>
      if bool_decide (row.(ar_params) <> "") && bool_decide (row.(ar_status) = ApprovalApproved)
         && bool_decide ((aw_state <$> a.(actions) !! actionID) = Some ActionState.StateApproved)
      then updateApprovalTx approvalID (set_params "");; mret true
      else mret false
  | None => mret false
  end.

(** The purge held inside its own transaction. *)
Definition purgedTx (approvalID : string) : Tx unit :=
  t ← ask t_approvals;
  row ← found ErrApprovalUnreadable (t.(approvals) !! approvalID);
  require (fail_if (bool_decide (row.(ar_params) <> "")) ErrApprovalEvidenceCorrupt).

Definition ClaimApprovalParamsUnderDigest (approvalID : string) (law : option PolicyPin.t)
    (wantDigest : string) (seen : option Approval.t) (now : time) : Tx (string * Operation.t) :=
  a ← approvalTx approvalID;
  require (fail_if (match seen with
                    | Some seen => bool_decide (approvalRowMoved seen a <> "")
                    | None => false
                    end) ErrApprovalMovedUnderTheClaim);;
  strictBorn ← strictMarkerTx approvalID;
  require (fail_if (bool_decide (strictBorn <> 0)) ErrApprovalRequiresAuthority);;
  require (fail_if (match law with
                    | Some law => negb (law_holds a a.(Approval.ActionDigest) law)
                    | None => false
                    end) ErrApprovalInvalidated);;
  storedPreviewTx a;;
  validateActionIdentityAtTx h a.(Approval.ActionID) now now;;
  '(op, _) ← ternaOf a.(Approval.ActionID);
  t ← ask t_approvals;
  row ← found ErrApprovalNotFound (t.(approvals) !! approvalID);
  require (fail_if (bool_decide (row.(ar_params) = "")) ErrApprovalParamsEmpty);;
  require (fail_if (bool_decide (Digests.Digest op row.(ar_params) <> wantDigest))
             ErrApprovalParamsDigestMismatch);;
  purged ← purgeClaimTx approvalID a.(Approval.ActionID);
  claimAuthorityTx approvalID a.(Approval.ActionID);;
  require (fail_if (negb purged) ErrApprovalClaimSkipped);;
  purgedTx approvalID;;
  mret (row.(ar_params), op).

(** ** The strict start of an approved request *)

Record AuthorityApprovedStartResult := {
  aas_ActionID : string;
  aas_Params : string;
  aas_Operation : Operation.t
}.

Definition sameStringSlice (left right : list string) : bool := bool_decide (left = right).

(** [UPDATE actions SET state = AUTHORIZED WHERE state = APPROVED]. *)
Definition authorizeParkedTx (actionID : string) : Tx unit :=
  a ← ask t_actions;
  require (fail_if (bool_decide ((aw_state <$> a.(actions) !! actionID) <> Some ActionState.StateApproved))
             ErrApprovalClaimSkipped);;
  updateActionTx actionID (set_state ActionState.StateAuthorized).

Definition StartApprovedAuthorization (approvalID : string) (law : PolicyPin.t) (wantDigest : string)
    (at_ : time) : Tx AuthorityApprovedStartResult :=
  a ← approvalTx approvalID;
  let id := a.(Approval.ActionID) in
  z ← ask t_authz;
  require (fail_if (bool_decide (is_Some (z.(starts) !! id))) ErrActionAlreadyStarted);;
  require (fail_if (bool_decide (a.(Approval.Status) <> ApprovalApproved)) ErrApprovalNoLongerApproved);;
  require (fail_if (negb (law_holds a wantDigest law)) ErrApprovalInvalidated);;
  t ← ask t_approvals;
  row ← found ErrApprovalNotFound (t.(approvals) !! approvalID);
  let params := row.(ar_params) in
  require (fail_if (bool_decide (params = "")) ErrApprovalParamsEmpty);;
  storedPreviewTx a;;
  pending ← approvalAuthoritySnapshotTx a;
  pending ← found ErrAuthorizationSnapshotCorrupt pending;
  require (fail_if (bool_decide (pending.(AuthorizationSnapshotV1.Kind) <> AuthorizationSnapshotPending))
             ErrAuthorizationSnapshotCorrupt);;
  validateActionIdentityV2AtTx h id pending.(AuthorizationSnapshotV1.RecordedAt) at_;;
  '(op, state) ← ternaOf id;
  require (fail_if (bool_decide (state <> ActionState.StateApproved)) ErrApprovalNoLongerApproved);;
  require (fail_if (bool_decide (Digests.Digest op params <> wantDigest)) ErrApprovalParamsDigestMismatch);;
  acts ← ask t_actions;
  act ← found ErrNoRows (acts.(actions) !! id);
  actor ← found ErrNull act.(aw_principal);
  storedIntent ← found ErrNull act.(aw_intent);
  refs ← found ErrNull act.(aw_refs);
  let digest := act.(aw_snapshot).(bs_Digest) in
  require (fail_if
    (bool_decide (actor <> pending.(AuthorizationSnapshotV1.ActorPrincipalID))
     || bool_decide (storedIntent <> pending.(AuthorizationSnapshotV1.IntentID))
     || bool_decide (digest <> pending.(AuthorizationSnapshotV1.IdentityEvidenceDigest)))
    ErrAuthorizationSnapshotCorrupt);;
  resolved ← resolveAuthorityTx h actor act.(aw_source).(Source.Channel)
    pending.(AuthorizationSnapshotV1.ConversationID) op params act.(aw_effect) at_ true;
  require (fail_if
    (bool_decide (storedIntent <> resolved.(ra_intent).(IntentContractV2.IntentID))
     || bool_decide (refs <> print (VArray (map VString resolved.(ra_refs))))
     || negb (sameStringSlice (elems pending.(AuthorizationSnapshotV1.PrincipalChain))
                resolved.(ra_principals))) ErrAuthorityRevoked);;
  debit_accounts h id resolved.(ra_operation) at_ resolved.(ra_accounts);;
  insertAuthorizationStartTx h id authorityEvidenceEpoch resolved digest law.(PolicyPin.Version)
    law.(PolicyPin.Digest) at_;;
  purged ← purgeClaimTx approvalID id;
  require (fail_if (negb purged) ErrApprovalClaimSkipped);;
  purgedTx approvalID;;
  authorizeParkedTx id;;
  mret {| aas_ActionID := id; aas_Params := params; aas_Operation := op |}.

(** ** Reads *)

Definition ParamsState := string.
Definition ParamsPresent : ParamsState := "present".
Definition ParamsEmpty : ParamsState := "empty".
Definition ParamsTooLarge : ParamsState := "too_large".
Definition maxDetailParamsBytes : Z := 65536.

(** The parked parameters, while the request awaits execution. *)
Definition ApprovalParams (approvalID : string) : Tx string :=
  t ← ask t_approvals;
  row ← found ErrApprovalNotFound (t.(approvals) !! approvalID);
  require (fail_if (bool_decide (row.(ar_params) = "")) ErrApprovalParamsEmpty);;
  mret row.(ar_params).

Definition ApprovalStatusOf (approvalID : string) : Tx ApprovalStatus :=
  t ← ask t_approvals;
  row ← found ErrApprovalNotFound (t.(approvals) !! approvalID);
  mret row.(ar_status).

Definition GetApproval (approvalID : string) : Tx (Approval.t * ActionPreview.t) :=
  a ← approvalTx approvalID;
  p ← storedPreviewTx a;
  mret (a, p).

Definition GetApprovalByAction (actionID : string) : Tx (Approval.t * ActionPreview.t) :=
  t ← ask t_approvals;
  '(id, _) ← found ErrApprovalNotFound (approval_of_action t actionID);
  GetApproval id.

(** An empty column was born empty or was taken: its digest tells. *)
Definition ReReadParams (approvalID : string) : Tx (string * ParamsState) :=
  t ← ask t_approvals;
  row ← found ErrApprovalNotFound (t.(approvals) !! approvalID);
  if bool_decide (row.(ar_params) <> "") then mret (row.(ar_params), ParamsPresent)
  else
    a ← approvalTx approvalID;
    '(op, _) ← ternaOf a.(Approval.ActionID);
    require (fail_if (bool_decide (Digests.Digest op "" <> a.(Approval.ActionDigest)))
               ErrApprovalParamsUnaccounted);;
    mret ("", ParamsEmpty).

Record ApprovalDetailRow := {
  dr_Approval : Approval.t;
  dr_Preview : option ActionPreview.t;
  dr_Operation : Operation.t;
  dr_Params : string;
  dr_ParamsState : ParamsState;
  dr_ActionState : ActionState.State;
  dr_Authority : option AuthorizationSnapshotV1.t
}.

Definition decided_detail (a : Approval.t) (params : string) : ApprovalDetailRow :=
  {| dr_Approval := a; dr_Preview := None;
     dr_Operation := {| Operation.Namespace := ""; Operation.Name := ""; Operation.Version := 0 |};
     dr_Params := params; dr_ParamsState := ""; dr_ActionState := ""; dr_Authority := None |}.

Definition params_state (params : string) : ParamsState :=
  if bool_decide (params = "") then ParamsEmpty
  else if maxDetailParamsBytes <? Z.of_nat (String.length params) then ParamsTooLarge
  else ParamsPresent.

(** A decided row comes back whole and unjudged. *)
Definition approvalDetail (approvalID : string) (law : option PolicyPin.t) : Tx ApprovalDetailRow :=
  a ← approvalTx approvalID;
  t ← ask t_approvals;
  row ← found ErrApprovalNotFound (t.(approvals) !! approvalID);
  if bool_decide (a.(Approval.Status) <> ApprovalPending) then mret (decided_detail a row.(ar_params))
  else
    authority ← approvalAuthoritySnapshotTx a;
    p ← storedPreviewTx a;
    require (fail_if (match law with
                      | Some law => negb (law_holds a a.(Approval.ActionDigest) law)
                      | None => false
                      end) ErrApprovalInvalidated);;
    '(op, state) ← ternaOf a.(Approval.ActionID);
    require (fail_if (bool_decide (Digests.Digest op row.(ar_params) <> a.(Approval.ActionDigest)))
               ErrApprovalParamsDigestMismatch);;
    mret {| dr_Approval := a; dr_Preview := Some p; dr_Operation := op; dr_Params := row.(ar_params);
            dr_ParamsState := params_state row.(ar_params); dr_ActionState := state;
            dr_Authority := authority |}.

Definition ApprovalDetail (approvalID : string) : Tx ApprovalDetailRow := approvalDetail approvalID None.

Definition ApprovalDetailUnderLaw (approvalID : string) (law : PolicyPin.t) : Tx ApprovalDetailRow :=
  approvalDetail approvalID (Some law).

(** The verifier's lookup: the digest is unique. *)
Definition ApprovalTombstoneByDigest (digest : string) : Tx (Approval.t * bool) :=
  t ← ask t_approvals;
  '(_, p) ← found ErrNotFound (list_find (fun p => p.2.(tb_digest) = digest) (map_to_list t.(tombstones)));
  found ErrTombstone (judgeStoredTombstone p.1 p.2).

End Doors.

(** ** The doors move the books along *)

#[export] Instance approvalTx_reads h id : Reads (approvalTx h id).
Proof. unfold approvalTx. solve_reads. Qed.
#[export] Instance strictMarkerTx_reads id : Reads (strictMarkerTx id).
Proof. unfold strictMarkerTx. solve_reads. Qed.
#[export] Instance ternaOf_reads id : Reads (ternaOf id).
Proof. unfold ternaOf. solve_reads. Qed.
#[export] Instance verifyApprovalStoryTyped_reads a p : Reads (verifyApprovalStoryTyped a p).
Proof. unfold verifyApprovalStoryTyped. solve_reads. Qed.
#[export] Instance storedPreviewTx_reads a : Reads (storedPreviewTx a).
Proof. unfold storedPreviewTx. solve_reads. Qed.
#[export] Instance claimAuthorityTx_reads a b : Reads (claimAuthorityTx a b).
Proof. unfold claimAuthorityTx. solve_reads. Qed.
#[export] Instance purgedTx_reads a : Reads (purgedTx a).
Proof. unfold purgedTx. solve_reads. Qed.

Lemma updateApprovalTx_Ok id f s s' : updateApprovalTx id f s = Ok (tt, s') ->
  s' = set_approvals (alter f id s.(t_approvals).(approvals)) s.
Proof. intros H. by apply change_Ok in H as [= ->]. Qed.

#[export] Instance updateApprovalTx_beside id f : Beside (updateApprovalTx id f).
Proof. by intros s [] s' ->%updateApprovalTx_Ok. Qed.
#[export] Instance updatePendingTx_beside id f : Beside (updatePendingTx id f).
Proof. unfold updatePendingTx. solve_doors. Qed.

(** The approval row a write leaves. *)
Lemma updateApprovalTx_moved h id f s s' : chain_ok s.(t_receipts) ->
  (forall r, s.(t_approvals).(approvals) !! id = Some r -> approval_kept r (f r)) ->
  updateApprovalTx id f s = Ok (tt, s') -> moved h s s'.
Proof.
  intros K Hf ->%updateApprovalTx_Ok. destruct (s.(t_approvals).(approvals) !! id) as [r|] eqn:E.
  - eapply (moved_approval _ _ _ id (f r)); [done|done|done|by cbn; apply alter_at|done|].
    intros r' Hr. rewrite E in Hr. injection Hr as <-. by apply Hf.
  - apply moved_same; [done|done|done|]. cbn. unfold set_approvals. cbn.
    assert (alter f id s.(t_approvals).(approvals) = s.(t_approvals).(approvals)) as ->; [|by destruct (t_approvals s)].
    apply map_eq. intros k. destruct (decide (k = id)) as [->|N]; [by rewrite lookup_alter_eq, E|by rewrite lookup_alter_ne].
Qed.

Lemma set_params_kept r : approval_kept r (set_params "" r).
Proof. by split; [|right|left]. Qed.

#[export] Instance purge_moves h id : Moves h (updateApprovalTx id (set_params "")).
Proof. intros s [] s' K H. eapply updateApprovalTx_moved; [done| |exact H]. intros r _. apply set_params_kept. Qed.

Lemma updatePendingTx_Ok id f s won s' : updatePendingTx id f s = Ok (won, s') ->
  if won then exists row, s.(t_approvals).(approvals) !! id = Some row /\ row.(ar_status) = ApprovalPending
              /\ s' = set_approvals (<[id := f row]> s.(t_approvals).(approvals)) s
  else s' = s /\ forall row, s.(t_approvals).(approvals) !! id = Some row -> row.(ar_status) <> ApprovalPending.
Proof.
  intros H. unfold updatePendingTx in H. tx_next H E1.
  destruct (s.(t_approvals).(approvals) !! id) as [row|] eqn:E.
  - case_bool_decide as Hp.
    + tx_door H E2. apply updateApprovalTx_Ok in E2 as ->. apply tx_ret_Ok in H as [= -> ->].
      exists row. by rewrite (alter_at _ _ _ _ E).
    + apply tx_ret_Ok in H as [= -> ->]. split; [done|]. by intros r [= <-].
  - apply tx_ret_Ok in H as [= -> ->]. by split.
Qed.

Lemma updatePendingTx_moves h id f : (forall r, r.(ar_status) = ApprovalPending -> approval_kept r (f r)) ->
  Moves h (updatePendingTx id f).
Proof.
  intros Hf s won s' K H. apply updatePendingTx_Ok in H. destruct won.
  - destruct H as (row & E & Hp & ->). eapply (moved_approval _ _ _ id (f row)); try done.
    intros r Hr. rewrite E in Hr. injection Hr as <-. by apply Hf.
  - destruct H as [-> _]. by apply moved_refl.
Qed.

Lemma set_decision_kept status decider decision at_ comment receipt r : status <> ApprovalPending ->
  r.(ar_status) = ApprovalPending -> approval_kept r (set_decision status decider decision at_ comment receipt r).
Proof. intros Hs Hr. split; [done|by left|by right]. Qed.

Lemma set_close_kept status decider decision at_ comment receipt r : status <> ApprovalPending ->
  r.(ar_status) = ApprovalPending ->
  approval_kept r (set_params "" (set_decision status decider decision at_ comment receipt r)).
Proof. intros Hs Hr. split; [done|by right|by right]. Qed.

Lemma tombstoneTx_Ok h a decider decision at_ s s' : tombstoneTx h a decider decision at_ s = Ok (tt, s') ->
  judgeTombstoneOrigin decision decider = true
  /\ (s' = s \/ s.(t_approvals).(tombstones) !! a.(Approval.ApprovalID) = None
        /\ s' = set_tombstones (<[a.(Approval.ApprovalID) := tombstone_of h a decider decision at_]>
                                  s.(t_approvals).(tombstones)) s)
  /\ s'.(t_approvals).(tombstones) !! a.(Approval.ApprovalID) = Some (tombstone_of h a decider decision at_).
Proof.
  intros H. unfold tombstoneTx in H. tx_next H E1. apply negb_false_iff in E1. split; [done|]. cbv zeta in H.
  tx_next H E2. destruct (s.(t_approvals).(tombstones) !! a.(Approval.ApprovalID)) as [row|] eqn:E.
  - tx_next H E3. apply require_fail_Ok in H as [E4 [= ->]]. apply bool_decide_eq_false in E4.
    apply dec_stable in E4 as <-. split; [by left|done].
  - tx_next H E3. apply change_Ok in H as [= ->]. split; [by right|]. cbn. by rewrite lookup_insert_eq.
Qed.

#[export] Instance tombstoneTx_beside h a decider decision at_ : Beside (tombstoneTx h a decider decision at_).
Proof. intros s [] s' H. apply tombstoneTx_Ok in H as (_ & [->|[_ ->]] & _); done. Qed.
#[export] Instance tombstoneTx_moves h h' a decider decision at_ : Moves h (tombstoneTx h' a decider decision at_).
Proof.
  intros s [] s' K H. apply tombstoneTx_Ok in H as (_ & [->|[F ->]] & _); [by apply moved_refl|].
  destruct (moved_refl h s K) as [M1 M2 M3 M4 M5]. split; try done. cbn. by apply insert_subseteq.
Qed.

#[export] Instance closeApprovalTx_beside h a st d dec at_ c p : Beside (closeApprovalTx h a st d dec at_ c p).
Proof. unfold closeApprovalTx. solve_doors. Qed.
Lemma closeApprovalTx_moves h a status decider decision at_ comment proof : status <> ApprovalPending ->
  Moves h (closeApprovalTx h a status decider decision at_ comment proof).
Proof.
  intros Hs. unfold closeApprovalTx. apply moves_bind; [|solve_doors].
  apply updatePendingTx_moves. intros r Hr. by apply set_close_kept.
Qed.

Lemma transitionTx_Ok id from to s s' : transitionTx id from to s = Ok (tt, s') ->
  exists row, s.(t_actions).(actions) !! id = Some row /\ row.(aw_state) = from
    /\ ActionState.Transition from to = None
    /\ s' = set_actions (<[id := set_state to row]> s.(t_actions).(actions)) s.
Proof.
  intros H. unfold transitionTx in H. tx_next H E1. tx_next H E2. tx_next H E3.
  apply bool_decide_eq_false in E3. apply dec_stable in E3.
  destruct (s.(t_actions).(actions) !! id) as [row|] eqn:E; [|done]. injection E3 as E3.
  apply updateActionTx_Ok in H as ->. exists row. by rewrite (alter_at _ _ _ _ E).
Qed.

#[export] Instance transitionTx_beside id from to : Beside (transitionTx id from to).
Proof. intros s [] s' H. by apply transitionTx_Ok in H as (row & _ & _ & _ & ->). Qed.
#[export] Instance approve_moves h id :
  Moves h (transitionTx id ActionState.StatePendingApproval ActionState.StateApproved).
Proof.
  intros s [] s' K H. apply transitionTx_Ok in H as (row & E & Est & Et & ->).
  eapply (moved_open _ _ _ id (set_state ActionState.StateApproved row)); try done.
  intros r Hr. rewrite E in Hr. injection Hr as <-. split; [done|]. cbn. rewrite Est. apply rtc_once. by left.
Qed.

(** The parked action is refused for good, with its receipt. *)
Record rejected (h : Handle) (receiptID id : string) (at_ : time) (s s' : db) : Prop := {
  rj_row : exists row, s.(t_actions).(actions) !! id = Some row
    /\ row.(aw_state) = ActionState.StatePendingApproval
    /\ let s1 := set_actions (<[id := closed_row ActionState.StateRejected at_ row]> s.(t_actions).(actions)) s in
       s' = with_receipts s'.(t_receipts) s1
       /\ match h.(sealer) with
          | None => s'.(t_receipts) = s.(t_receipts)
          | Some _ => exists x r, s'.(t_receipts) = x :: s.(t_receipts) /\ filed h s r x
              /\ receiptForFinish h receiptID id ActionState.StateRejected at_ "" true false s1 = Ok (r, s1)
          end;
  rj_chain : chain_ok s'.(t_receipts)
}.

Lemma updateActionTx_again id f r m s s' : updateActionTx id f (set_actions (<[id := r]> m) s) = Ok (tt, s') ->
  s' = set_actions (<[id := f r]> m) s.
Proof.
  intros ->%updateActionTx_Ok. unfold set_actions at 2. rewrite (alter_at _ _ _ r) by apply lookup_insert_eq.
  change (set_actions (<[id := f r]> (<[id := r]> m)) s = set_actions (<[id := f r]> m) s).
  by rewrite insert_insert_eq.
Qed.

Lemma rejectParkedActionTx_Ok h rid id at_ s s' : chain_ok s.(t_receipts) ->
  rejectParkedActionTx h rid id at_ s = Ok (tt, s') -> rejected h rid id at_ s s'.
Proof.
  intros K H. unfold rejectParkedActionTx in H. tx_door H E1.
  apply transitionTx_Ok in E1 as (row & E & Est & _ & ->). tx_door H E2. apply updateActionTx_again in E2 as ->.
  fold (closed_row ActionState.StateRejected at_ row) in H.
  apply tx_bind_Ok in H as (r & t2 & E2 & H). pose proof (reads _ _ _ E2) as ->.
  apply receiptTx_filed in H as (K' & W & X); [|exact K]. split; [|done]. exists row. split; [done|].
  split; [done|]. split; [exact W|]. destruct h.(sealer) as [seal|]; [|exact X].
  destruct X as (x & X & F). exists x, r. split; [exact X|]. split; [by destruct F; split|exact E2].
Qed.

Lemma rejected_moves h rid id at_ s s' : rejected h rid id at_ s s' -> moved h s s'.
Proof.
  intros [(row & Hr & He & W & X) K].
  eapply (moved_close _ _ _ id (closed_row ActionState.StateRejected at_ row)); [done|by rewrite W| |by rewrite W|done|].
  - destruct h.(sealer) as [seal|]; [|done]. destruct X as (x & r & X & F & Hx). exists x. split; [done|].
    apply filed_terms in F as (_ & -> & ->). apply receiptForFinish_Ok in Hx as (? & ? & ? & terms & _ & _ & _ & _ & ->).
    by split; apply with_terms_keeps.
  - intros r Hr'. rewrite Hr in Hr'. injection Hr' as <-. split; [done|]. rewrite He. split; [|done].
    apply rtc_once. by left.
Qed.

#[export] Instance rejectParkedActionTx_beside h rid id at_ : Beside (rejectParkedActionTx h rid id at_).
Proof. unfold rejectParkedActionTx. solve_doors. Qed.
#[export] Instance rejectParkedActionTx_moves h rid id at_ : Moves h (rejectParkedActionTx h rid id at_).
Proof. intros s [] s' K H. eapply rejected_moves. by eapply rejectParkedActionTx_Ok. Qed.

(** ** Decisions *)

(** The row of the operator's act. *)
Definition act_row (env : ActionEnvelope.t) (ident : AttemptIdentity.t) (at_ : time) : action_row :=
  {| aw_schema := env.(ActionEnvelope.SchemaVersion); aw_correlation := env.(ActionEnvelope.CorrelationID);
     aw_source := env.(ActionEnvelope.Source); aw_operation := env.(ActionEnvelope.Operation);
     aw_parameters := env.(ActionEnvelope.ParametersDigest); aw_effect := env.(ActionEnvelope.EffectClass);
     aw_state := ActionState.StateSucceeded; aw_recovery := ""; aw_requested := rfc3339 at_;
     aw_finished := Some (rfc3339 at_); aw_principal := nullable ident.(AttemptIdentity.PrincipalID);
     aw_intent := nullable ident.(AttemptIdentity.IntentID); aw_refs := None; aw_snapshot := legacy_snapshot |}.

Lemma recordDecisionActTx_Ok h rid env ident at_ s x s' : chain_ok s.(t_receipts) ->
  recordDecisionActTx h rid env ident at_ s = Ok (x, s') ->
  let id := env.(ActionEnvelope.ActionID) in
  x = rid /\ s.(t_actions).(actions) !! id = None
  /\ s'.(t_actions).(actions) = <[id := act_row env ident at_]> s.(t_actions).(actions)
  /\ s'.(t_approvals) = s.(t_approvals) /\ moved h s s'.
Proof.
  intros K H id. unfold recordDecisionActTx in H. cbv zeta in H. tx_door H E1.
  apply insertActionTx_Ok in E1 as [F ->]. tx_door H E2. apply insertDecisionTx_kept in E2 as (A & R & P).
  apply tx_bind_Ok in H as (r & s2 & E & H). pose proof (reads _ _ _ E) as ->.
  apply receiptForRecord_Ok in E as [R1 R2]. tx_door H E3.
  apply receiptTx_filed in E3 as (K' & W & X); [|by rewrite R]. apply tx_ret_Ok in H as [= -> ->].
  match type of A with _ = actions (t_actions (set_actions ?m _)) =>
    change (s1.(t_actions).(actions) = m) in A end.
  split; [done|]. split; [done|]. split; [by rewrite W|]. split; [by rewrite W|].
  eapply (moved_close _ _ _ id (act_row env ident at_)); [done|by rewrite W| |by rewrite W|done|].
  - destruct h.(sealer); [|by rewrite X]. destruct X as (y & X & Fy). apply filed_terms in Fy as (_ & F1 & F2).
    exists y. rewrite X. split; [by rewrite R|]. split; [by rewrite F1, R1|by rewrite F2, R2].
  - intros r0 Hr0. unfold id in Hr0. congruence.
Qed.

#[export] Instance recordDecisionActTx_beside h rid env ident at_ : Beside (recordDecisionActTx h rid env ident at_).
Proof. unfold recordDecisionActTx. solve_doors. Qed.
#[export] Instance recordDecisionActTx_moves h rid env ident at_ : Moves h (recordDecisionActTx h rid env ident at_).
Proof. intros s x s' K H. by apply recordDecisionActTx_Ok in H as (_ & _ & _ & _ & M). Qed.

Lemma status_of_verb_closed decision : status_of_verb decision <> ApprovalPending.
Proof. unfold status_of_verb. by repeat case_match. Qed.

#[export] Instance decideApprovalTx_beside h p r id d at_ env ident c law :
  Beside (decideApprovalTx h p r id d at_ env ident c law).
Proof. unfold decideApprovalTx. solve_doors. Qed.
#[export] Instance decideApprovalTx_moves h p r id d at_ env ident c law :
  Moves h (decideApprovalTx h p r id d at_ env ident c law).
Proof.
  unfold decideApprovalTx.
  assert (forall x, Moves h (updatePendingTx id (set_decision (status_of_verb d)
    ident.(AttemptIdentity.PrincipalID) d (rfc3339 at_) c x))) as U.
  { intros x. apply updatePendingTx_moves. intros row Hr. by apply set_decision_kept; [apply status_of_verb_closed|]. }
  assert (forall a, Moves h (closeApprovalTx h a ApprovalExpired "" DecisionClock at_ "" "")) as C
    by (intros a; by apply closeApprovalTx_moves).
  solve_doors.
Qed.

#[export] Instance sweepExpiredOneTx_beside h r id at_ : Beside (sweepExpiredOneTx h r id at_).
Proof. unfold sweepExpiredOneTx. solve_doors. Qed.
#[export] Instance sweepExpiredOneTx_moves h r id at_ : Moves h (sweepExpiredOneTx h r id at_).
Proof.
  unfold sweepExpiredOneTx.
  assert (forall a, Moves h (closeApprovalTx h a ApprovalExpired "" DecisionClock at_ "" "")) as C
    by (intros a; by apply closeApprovalTx_moves).
  solve_doors.
Qed.

Lemma commit_if_moved h {A} (m : Tx (A * bool)) s r s' : Moves h m -> chain_ok s.(t_receipts) ->
  commit_if m s = (r, s') -> moved h s s'.
Proof.
  intros Hm K H. unfold commit_if in H. destruct (m s) as [[[x b] s1]|e] eqn:E; [destruct b|]; injection H as <- <-;
    [by eapply Hm|by apply moved_refl..].
Qed.
Lemma commit_if_beside {A} (m : Tx (A * bool)) s r s' : Beside m -> commit_if m s = (r, s') -> beside s s'.
Proof.
  intros Hm H. unfold commit_if in H. destruct (m s) as [[[x b] s1]|e] eqn:E; [destruct b|]; injection H as <- <-;
    [by eapply Hm|by apply (is_beside (m := mret tt) s tt)..].
Qed.

Lemma DecideApprovalUnderLaw_moved h p r id d at_ env ident c law s x s' : chain_ok s.(t_receipts) ->
  DecideApprovalUnderLaw h p r id d at_ env ident c law s = (x, s') -> moved h s s' /\ beside s s'.
Proof.
  intros K H. split; [exact (commit_if_moved h _ _ _ _ _ K H)|exact (commit_if_beside _ _ _ _ _ H)].
Qed.

Lemma sweep_rows_moved h f at_ ids n m s x s' : chain_ok s.(t_receipts) ->
  sweep_rows h f at_ ids n m s = (x, s') -> moved h s s' /\ beside s s'.
Proof.
  revert n m s. induction ids as [|id ids IH]; intros n m s K H; cbn [sweep_rows] in H.
  - injection H as <- <-. split; [by apply moved_refl|by apply (is_beside (m := mret tt) s tt)].
  - destruct (commit_if _ s) as [r s1] eqn:E.
    pose proof (commit_if_moved h _ _ _ _ _ K E) as M. pose proof (commit_if_beside _ _ _ _ _ E) as B.
    destruct r as [[]|e].
    + apply IH in H as [M2 B2]; [|apply M]. split; [by eapply moved_trans|by eapply beside_trans].
    + apply IH in H as [M2 B2]; [|apply M]. split; [by eapply moved_trans|by eapply beside_trans].
    + injection H as <- <-. done.
Qed.

(** ** Births and claims *)

#[export] Instance insertApprovalTx_beside id row : Beside (insertApprovalTx id row).
Proof. intros s [] s' H. unfold insertApprovalTx in H. by repeat tx_step. Qed.
#[export] Instance insertApprovalTx_moves h id row : Moves h (insertApprovalTx id row).
Proof.
  intros s [] s' K H. unfold insertApprovalTx in H. tx_next H E1. tx_next H E2. tx_next H E3.
  apply change_Ok in H as [= ->]. apply orb_false_iff in E3 as [E3 _]. apply orb_false_iff in E3 as [E3 _].
  apply bool_decide_eq_false in E3. eapply (moved_approval _ _ _ id row); try done.
  intros r Hr. destruct E3. by exists r.
Qed.

#[export] Instance createApproval_beside h now b e : Beside (createApproval h now b e).
Proof. unfold createApproval, createApprovalPartsWithIdentity. solve_doors. Qed.
#[export] Instance createApproval_moves h now b e : Moves h (createApproval h now b e).
Proof.
  unfold createApproval, createApprovalPartsWithIdentity.
  assert (forall id p i r sn, Moves h (insertActionTx id (attempt_row b.(env) ActionState.StatePendingApproval p i r sn)))
    as I by (intros; by apply insertActionTx_moves).
  solve_doors.
Qed.

#[export] Instance purgeClaimTx_beside a b : Beside (purgeClaimTx a b).
Proof. unfold purgeClaimTx. solve_doors. Qed.
#[export] Instance purgeClaimTx_moves h a b : Moves h (purgeClaimTx a b).
Proof. unfold purgeClaimTx. solve_doors. Qed.
#[export] Instance claim_beside h id law d seen now : Beside (ClaimApprovalParamsUnderDigest h id law d seen now).
Proof. unfold ClaimApprovalParamsUnderDigest. solve_doors. Qed.
#[export] Instance claim_moves h id law d seen now : Moves h (ClaimApprovalParamsUnderDigest h id law d seen now).
Proof. unfold ClaimApprovalParamsUnderDigest. solve_doors. Qed.

#[export] Instance authorizeParkedTx_beside id : Beside (authorizeParkedTx id).
Proof. unfold authorizeParkedTx. solve_doors. Qed.
#[export] Instance authorizeParkedTx_moves h id : Moves h (authorizeParkedTx id).
Proof.
  intros s [] s' K H. unfold authorizeParkedTx in H. tx_next H E1. tx_next H E2.
  apply bool_decide_eq_false in E2. apply dec_stable in E2.
  destruct (s.(t_actions).(actions) !! id) as [row|] eqn:E; [|done]. injection E2 as Est.
  apply updateActionTx_Ok in H as ->. rewrite (alter_at _ _ _ _ E).
  eapply (moved_open _ _ _ id (set_state ActionState.StateAuthorized row)); try done.
  intros r Hr. rewrite E in Hr. injection Hr as <-. split; [done|]. cbn. rewrite Est. apply rtc_once. by right.
Qed.

(** ** The strict start of an approved request *)

#[export] Instance approvalAuthoritySnapshotTx_reads h a : Reads (approvalAuthoritySnapshotTx h a).
Proof. unfold approvalAuthoritySnapshotTx. solve_reads. Qed.

Lemma approvalTx_Ok h id s a s' : approvalTx h id s = Ok (a, s') ->
  s' = s /\ exists row, s.(t_approvals).(approvals) !! id = Some row /\ approvalFromRaw h id row = Some a.
Proof.
  intros H. pose proof (reads _ _ _ H) as ->. unfold approvalTx in H. tx_next H E1. tx_next H E2.
  apply found_Ok in H as (x' & E3 & [= <-]). split; [done|]. by exists x.
Qed.

Lemma approvalFromRaw_fields h id row a : approvalFromRaw h id row = Some a ->
  a.(Approval.ApprovalID) = id /\ a.(Approval.ActionID) = row.(ar_action)
  /\ a.(Approval.ActionDigest) = row.(ar_action_digest) /\ a.(Approval.Status) = row.(ar_status)
  /\ a.(Approval.PolicyVersion) = row.(ar_policy_version) /\ a.(Approval.PolicyDigest) = row.(ar_policy_digest).
Proof.
  unfold approvalFromRaw. destruct (negb _); [done|]. intros H.
  apply bind_Some in H as (x & _ & H). apply bind_Some in H as (y & _ & H). apply bind_Some in H as (z & _ & H).
  injection H as <-. done.
Qed.

Lemma law_holds_true a digest law : law_holds a digest law = true ->
  a.(Approval.ActionDigest) = digest /\ a.(Approval.PolicyVersion) = law.(PolicyPin.Version)
  /\ a.(Approval.PolicyDigest) = law.(PolicyPin.Digest).
Proof.
  unfold law_holds, ValidateApprovalBinding. intros H%bool_decide_eq_true.
  destruct (bool_decide (_ <> _)) eqn:E1; [done|]. destruct (_ || _) eqn:E2; [done|]. passed. done.
Qed.

Lemma ternaOf_Ok id s op st s' : ternaOf id s = Ok ((op, st), s') ->
  s' = s /\ exists row, s.(t_actions).(actions) !! id = Some row /\ row.(aw_operation) = op /\ row.(aw_state) = st.
Proof.
  intros H. pose proof (reads _ _ _ H) as ->. split; [done|]. unfold ternaOf in H. tx_next H E1. tx_next H E2.
  tx_next H E3. apply tx_ret_Ok in H as [= -> ->]. by exists x.
Qed.

Lemma purgeClaimTx_true approvalID actionID s s' : purgeClaimTx approvalID actionID s = Ok (true, s') ->
  exists row, s.(t_approvals).(approvals) !! approvalID = Some row /\ row.(ar_params) <> ""
    /\ row.(ar_status) = ApprovalApproved
    /\ aw_state <$> s.(t_actions).(actions) !! actionID = Some ActionState.StateApproved
    /\ s' = set_approvals (<[approvalID := set_params "" row]> s.(t_approvals).(approvals)) s.
Proof.
  intros H. unfold purgeClaimTx in H. tx_next H E1. tx_next H E2.
  destruct (s.(t_approvals).(approvals) !! approvalID) as [row|] eqn:E; [|by apply tx_ret_Ok in H].
  destruct (_ && _) eqn:G; [|by apply tx_ret_Ok in H]. tx_door H E3. apply updateApprovalTx_Ok in E3 as ->.
  apply tx_ret_Ok in H as [= ->]. exists row. rewrite (alter_at _ _ _ _ E).
  apply andb_true_iff in G as [G G3]. apply andb_true_iff in G as [G1 G2].
  apply bool_decide_eq_true in G1, G2, G3. done.
Qed.

Lemma authorizeParkedTx_Ok id s s' : authorizeParkedTx id s = Ok (tt, s') ->
  exists row, s.(t_actions).(actions) !! id = Some row /\ row.(aw_state) = ActionState.StateApproved
    /\ s' = set_actions (<[id := set_state ActionState.StateAuthorized row]> s.(t_actions).(actions)) s.
Proof.
  intros H. unfold authorizeParkedTx in H. tx_next H E1. tx_next H E2.
  apply bool_decide_eq_false in E2. apply dec_stable in E2.
  destruct (s.(t_actions).(actions) !! id) as [row|] eqn:E; [|done]. injection E2 as Est.
  apply updateActionTx_Ok in H as ->. exists row. by rewrite (alter_at _ _ _ _ E).
Qed.

(** An approval whose hour has come: decided, under the law in force, with its
    parameters, its story and its signed snapshot in place. *)
Record ready (h : Handle) (s : db) (approvalID : string) (law : PolicyPin.t) (wantDigest : string)
    (at_ : time) (a : Approval.t) (pending : AuthorizationSnapshotV1.t) (params : string) : Prop := {
  rd_row : exists row, s.(t_approvals).(approvals) !! approvalID = Some row
    /\ approvalFromRaw h approvalID row = Some a /\ row.(ar_params) = params /\ params <> "";
  rd_status : a.(Approval.Status) = ApprovalApproved;
  rd_law : a.(Approval.ActionDigest) = wantDigest /\ a.(Approval.PolicyVersion) = law.(PolicyPin.Version)
    /\ a.(Approval.PolicyDigest) = law.(PolicyPin.Digest);
  rd_story : exists p, storedPreviewTx a s = Ok (p, s);
  rd_snapshot : approvalAuthoritySnapshotTx h a s = Ok (Some pending, s)
    /\ pending.(AuthorizationSnapshotV1.Kind) = AuthorizationSnapshotPending;
  rd_identity : exists e,
    validateActionIdentityV2AtTx h a.(Approval.ActionID) pending.(AuthorizationSnapshotV1.RecordedAt) at_ s = Ok (e, s)
}.

(** A strict start that the store granted. *)
Record approved_started (h : Handle) (s s' : db) (approvalID : string) (law : PolicyPin.t)
    (wantDigest : string) (at_ : time) (out : AuthorityApprovedStartResult) (a : Approval.t)
    (resolved : resolvedAuthority) : Prop := {
  ap_ready : exists pending, ready h s approvalID law wantDigest at_ a pending out.(aas_Params)
    /\ out.(aas_ActionID) = a.(Approval.ActionID)
    /\ exists row actor t, s.(t_actions).(actions) !! out.(aas_ActionID) = Some row
       /\ row.(aw_state) = ActionState.StateApproved /\ row.(aw_operation) = out.(aas_Operation)
       /\ row.(aw_principal) = Some actor /\ actor = pending.(AuthorizationSnapshotV1.ActorPrincipalID)
       /\ row.(aw_intent) = Some pending.(AuthorizationSnapshotV1.IntentID)
       /\ pending.(AuthorizationSnapshotV1.IntentID) = resolved.(ra_intent).(IntentContractV2.IntentID)
       /\ elems pending.(AuthorizationSnapshotV1.PrincipalChain) = resolved.(ra_principals)
       /\ accounts_grow s.(t_budget) t /\ s'.(t_budget).(accounts) = t.(accounts)
       /\ resolves h s t actor row.(aw_source).(Source.Channel) pending.(AuthorizationSnapshotV1.ConversationID)
            out.(aas_Operation) out.(aas_Params) row.(aw_effect) at_ true resolved;
  ap_digest : Digests.Digest out.(aas_Operation) out.(aas_Params) = wantDigest;
  ap_pays : pays s s' out.(aas_ActionID) resolved.(ra_accounts) /\ NoDup resolved.(ra_accounts)
    /\ forall k, k.1 ∉ resolved.(ra_accounts) -> rows s'.(t_budget) k = rows s.(t_budget) k;
  ap_sound : store_sound h s';
  ap_tables : exists arow row srow, s.(t_approvals).(approvals) !! approvalID = Some arow
    /\ s.(t_actions).(actions) !! out.(aas_ActionID) = Some row /\ row.(aw_state) = ActionState.StateApproved
    /\ (exists identity, start_recorded h s' out.(aas_ActionID) resolved identity law.(PolicyPin.Version)
          law.(PolicyPin.Digest) at_ srow)
    /\ s' = set_actions (<[out.(aas_ActionID) := set_state ActionState.StateAuthorized row]> s.(t_actions).(actions))
              (set_approvals (<[approvalID := set_params "" arow]> s.(t_approvals).(approvals))
                 (with_authz (set_starts (<[out.(aas_ActionID) := srow]> s.(t_authz).(starts)) s.(t_authz))
                    (with_budget s'.(t_budget) s)))
}.

Lemma StartApprovedAuthorization_Ok h id law want at_ s out s' : store_sound h s ->
  StartApprovedAuthorization h id law want at_ s = Ok (out, s') ->
  exists a resolved, approved_started h s s' id law want at_ out a resolved.
Proof.
  intros Hs H. unfold StartApprovedAuthorization in H.
  apply tx_bind_Ok in H as (a & t0 & E0 & H). apply approvalTx_Ok in E0 as (-> & arow & A1 & A2). cbv zeta in H.
  tx_next H E1. tx_next H E2. apply bool_decide_eq_false in E2. tx_next H E3. tx_next H E4.
  apply negb_false_iff, law_holds_true in E4. tx_next H E5. tx_next H E6. rewrite A1 in E6. injection E6 as <-.
  tx_next H E7. apply bool_decide_eq_false in E7, E3. apply dec_stable in E3.
  apply tx_bind_Ok in H as (p & t1 & E8 & H). pose proof (reads _ _ _ E8) as ->.
  apply tx_bind_Ok in H as (po & t1 & E9 & H). pose proof (reads _ _ _ E9) as ->.
  tx_next H E10. subst po. tx_next H E11. apply bool_decide_eq_false in E11. apply dec_stable in E11.
  apply tx_bind_Ok in H as (ev & t1 & E12 & H). pose proof (reads _ _ _ E12) as ->.
  apply tx_bind_Ok in H as ([op st] & t1 & E13 & H). apply ternaOf_Ok in E13 as (-> & row & R1 & R2 & R3).
  cbn beta iota in H. tx_next H E14. tx_next H E15. apply bool_decide_eq_false in E14, E15.
  apply dec_stable in E14, E15. tx_next H E16. tx_next H E17. rewrite R1 in E17. injection E17 as <-.
  tx_next H E18. tx_next H E19. tx_next H E20. tx_next H E21.
  apply orb_false_iff in E21 as [E21 E21c]. apply orb_false_iff in E21 as [E21a E21b].
  apply bool_decide_eq_false in E21a, E21b. apply dec_stable in E21a, E21b.
  apply tx_bind_Ok in H as (resolved & t1 & E22 & H). tx_next H E23.
  apply orb_false_iff in E23 as [E23 E23c]. apply orb_false_iff in E23 as [E23a _].
  apply bool_decide_eq_false in E23a. apply dec_stable in E23a. apply negb_false_iff, bool_decide_eq_true in E23c.
  apply tx_bind_Ok in H as (before & t2 & E24 & H).
  destruct (resolved_and_paid _ _ _ _ _ _ _ _ _ _ _ _ _ _ _ (so_grants _ _ Hs) (so_ledger _ _ Hs) E22 E24)
    as (W & (t & G1 & G2 & G3) & Hsp & Hnd & Hl2 & Hpaid & Hadd & Hrest & _ & _).
  tx_door H E25. apply insertAuthorizationStartTx_Ok in E25 as (F & srow & Sr & ->).
  apply tx_bind_Ok in H as (purged & t3 & E26 & H). tx_next H E27. apply negb_false_iff in E27 as ->.
  apply purgeClaimTx_true in E26 as (arow' & B1 & _ & _ & _ & ->).
  tx_door H E28. pose proof (reads _ _ _ E28) as ->. tx_door H E29.
  apply authorizeParkedTx_Ok in E29 as (row' & C1 & _ & ->). apply tx_ret_Ok in H as [= -> ->].
  assert (s.(t_approvals).(approvals) !! id = Some arow') as B1' by (rewrite W in B1; exact B1). clear B1.
  assert (s.(t_actions).(actions) !! a.(Approval.ActionID) = Some row') as C1' by (rewrite W in C1; exact C1). clear C1.
  rewrite A1 in B1'. injection B1' as <-. rewrite R1 in C1'. injection C1' as <-.
  exists a, resolved. split; cbn [aas_ActionID aas_Params aas_Operation].
  - exists x. split.
    + split; [by exists arow|done|done|by exists p|done|by exists ev].
    + split; [done|]. exists row, x0, t. split_and!; try done; congruence.
  - exact E15.
  - split; [|split; [done|exact Hrest]]. split.
    + rewrite W in F. exact F.
    + rewrite W. cbn. split; [apply insert_subseteq; rewrite W in F; exact F|]. rewrite lookup_insert_eq. by eexists.
    + exact Hadd.
    + intros acc. by apply (charged_apart _ _ _ _ _ acc Hpaid Hsp).
  - destruct Hs as [HG HI HL]. split; [|apply (identity_untouched h s); try done; by rewrite W|exact Hl2].
    apply (grants_untouched h s); [done|rewrite W; by intros k key|exact (f_equal t_grants W)].
  - exists arow, row, srow. split; [done|]. split; [done|]. split; [congruence|]. split.
    + exists row.(aw_snapshot).(bs_Digest). destruct Sr as [S1 S2 S3 S4]. by split.
    + rewrite W. reflexivity.
Qed.

(** ** The starts and the park, as the two relations see them *)

Lemma quiet_trans h s s1 s2 : quiet h s s1 -> quiet h s1 s2 -> quiet h s s2.
Proof.
  intros [S1 B1 T1] [S2 B2 T2]. split; [auto|by eapply accounts_grow_trans|by etrans].
Qed.

#[export] Instance change_births_beside f : Beside (change_births f).
Proof. by intros s [] s' [= ->]%change_Ok. Qed.
#[export] Instance change_births_moves h f : Moves h (change_births f).
Proof. intros s [] s' K [= ->]%change_Ok. by apply moved_same. Qed.
#[export] Instance birthTx_beside h e : Beside (birthTx h e).
Proof. unfold birthTx. solve_doors. Qed.
#[export] Instance birthTx_moves h h' e : Moves h (birthTx h' e).
Proof. unfold birthTx. solve_doors. Qed.
#[export] Instance appendApprovalBirthTx_beside h a d : Beside (appendApprovalBirthTx h a d).
Proof. unfold appendApprovalBirthTx. solve_doors. Qed.
#[export] Instance appendApprovalBirthTx_moves h h' a d : Moves h (appendApprovalBirthTx h' a d).
Proof. unfold appendApprovalBirthTx. solve_doors. Qed.
#[export] Instance insertAuthorizationSnapshotTx_beside h x d : Beside (insertAuthorizationSnapshotTx h x d).
Proof. intros s [] s' H. by apply insertAuthorizationSnapshotTx_Ok in H as (_ & _ & _ & _ & row & _ & _ & _ & ->). Qed.
#[export] Instance insertAuthorizationSnapshotTx_moves h h' x d : Moves h (insertAuthorizationSnapshotTx h' x d).
Proof.
  intros s [] s' K H. apply insertAuthorizationSnapshotTx_Ok in H as (_ & _ & _ & _ & row & _ & _ & _ & ->).
  by apply moved_same.
Qed.
#[export] Instance birthActionTx_beside e st signed d : Beside (birthActionTx e st signed d).
Proof. unfold birthActionTx. solve_doors. Qed.

Lemma birthActionTx_moves h e st signed d : ActionState.Terminal st = false -> Moves h (birthActionTx e st signed d).
Proof. intros Ht. unfold birthActionTx. apply moves_bind; [by apply insertActionTx_moves|solve_doors]. Qed.

Lemma ParkAuthorization_calm h act appr r s out s' : store_sound h s -> chain_ok s.(t_receipts) ->
  ParkAuthorization h act appr r s = Ok (out, s') -> quiet h s s' /\ moved h s s'.
Proof.
  intros Hs K H. unfold ParkAuthorization in H. cbv zeta in H.
  apply tx_bind_Ok in H as (e & t0 & E0 & H). apply evidenceTx_Ok in E0 as (-> & _).
  apply tx_bind_Ok in H as (resolved & s1 & E1 & H).
  apply resolveAuthorityTx_Ok in E1 as (G & W & _); [|exact (so_grants _ _ Hs)|exact (so_ledger _ _ Hs)].
  assert (quiet h s s1) as Q1.
  { rewrite W. split; [|done|done]. intros [HG HI HL].
    split; [by apply grants_with_budget|by apply identity_with_budget|apply G]. }
  assert (moved h s s1) as M1 by (apply moved_same; [done|by rewrite W..]).
  assert (beside s1 s' /\ moved h s1 s') as [B2 M2].
  { assert (forall e signed d, Moves h (birthActionTx e ActionState.StatePendingApproval signed d)) as I
      by (intros; by apply birthActionTx_moves).
    split.
    - revert H. match goal with |- ?m s1 = _ -> _ => assert (Beside m) as B by solve_doors end. apply B.
    - revert H. match goal with |- ?m s1 = _ -> _ => assert (Moves h m) as B end; [|apply B, (mv_chain _ _ _ M1)].
      solve_doors. }
  split; [|by eapply moved_trans]. eapply quiet_trans; [exact Q1|]. apply beside_quiet; [apply G|exact B2].
Qed.

Lemma started_moves h s s' act r out resolved : chain_ok s.(t_receipts) ->
  started h s s' act r out resolved -> moved h s s'.
Proof.
  intros K H. destruct (sw_tables _ _ _ _ _ _ _ _ (sd_written _ _ _ _ _ _ _ H)) as (row & d & es & st & sn & W).
  destruct (sw_action _ _ _ _ _ _ _ _ (sd_written _ _ _ _ _ _ _ H)) as (row' & R1 & R2 & _).
  rewrite W in R1. cbn in R1. rewrite lookup_insert_eq in R1. injection R1 as ->.
  eapply (moved_open _ _ _ act row'); [done|by rewrite W|by rewrite W|by rewrite W|by rewrite R2|].
  intros r0 Hr0. by rewrite (proj2 (sd_fresh _ _ _ _ _ _ _ H)) in Hr0.
Qed.

Lemma approved_started_moves h s s' id law want at_ out a resolved : chain_ok s.(t_receipts) ->
  approved_started h s s' id law want at_ out a resolved -> moved h s s'.
Proof.
  intros K H. destruct (ap_tables _ _ _ _ _ _ _ _ _ _ H) as (arow & row & srow & A & R & St & _ & W).
  set (s1 := set_approvals (<[id := set_params "" arow]> s.(t_approvals).(approvals)) s).
  eapply (moved_trans _ _ s1).
  - eapply (moved_approval _ _ _ id (set_params "" arow)); try done.
    intros r Hr. rewrite A in Hr. injection Hr as <-. apply set_params_kept.
  - eapply (moved_open _ _ _ out.(aas_ActionID) (set_state ActionState.StateAuthorized row)); try (by rewrite W); [done..|].
    intros r Hr. change (s.(t_actions).(actions) !! out.(aas_ActionID) = Some r) in Hr. rewrite R in Hr.
    injection Hr as <-. split; [done|]. cbn. rewrite St. apply rtc_once. by right.
Qed.

(** ** What a decision does *)

(** The approval is refused for good, and its action with it. *)
Record refused (h : Handle) (id decider decision : string) (at_ : time) (row' : approval_row) (a : Approval.t)
    (acts : gmap string action_row) (s s' : db) : Prop := {
  rf_row : s'.(t_approvals).(approvals) = <[id := set_params "" row']> s.(t_approvals).(approvals);
  rf_tombstone : s'.(t_approvals).(tombstones) !! id = Some (tombstone_of h a decider decision at_);
  rf_action : exists act, acts !! a.(Approval.ActionID) = Some act
    /\ act.(aw_state) = ActionState.StatePendingApproval
    /\ s'.(t_actions).(actions) = <[a.(Approval.ActionID) := closed_row ActionState.StateRejected at_ act]> acts
}.

Lemma set_params_twice r : set_params "" (set_params "" r) = set_params "" r.
Proof. done. Qed.

Lemma closeApprovalTx_Ok h a decider decision at_ comment proof status s won s' :
  closeApprovalTx h a status decider decision at_ comment proof s = Ok (won, s') ->
  let id := a.(Approval.ApprovalID) in
  if won then exists row, s.(t_approvals).(approvals) !! id = Some row /\ row.(ar_status) = ApprovalPending
    /\ s'.(t_approvals).(approvals) =
         <[id := set_params "" (set_decision status decider decision (rfc3339 at_) comment proof row)]>
           s.(t_approvals).(approvals)
    /\ s'.(t_approvals).(tombstones) !! id = Some (tombstone_of h a decider decision at_)
    /\ s'.(t_actions) = s.(t_actions) /\ s'.(t_receipts) = s.(t_receipts)
  else s' = s /\ forall row, s.(t_approvals).(approvals) !! id = Some row -> row.(ar_status) <> ApprovalPending.
Proof.
  intros H id. unfold closeApprovalTx in H. apply tx_bind_Ok in H as (w & s1 & E & H).
  apply updatePendingTx_Ok in E. destruct w.
  - destruct E as (row & R1 & R2 & ->). tx_door H E2. apply tx_ret_Ok in H as [= -> ->].
    apply tombstoneTx_Ok in E2 as (_ & E2 & T). exists row. split; [done|]. split; [done|].
    by destruct E2 as [->|[_ ->]].
  - apply tx_ret_Ok in H as [= -> ->]. exact E.
Qed.

Lemma rejected_actions h rid id at_ s s' : rejected h rid id at_ s s' ->
  s'.(t_approvals) = s.(t_approvals)
  /\ exists act, s.(t_actions).(actions) !! id = Some act /\ act.(aw_state) = ActionState.StatePendingApproval
     /\ s'.(t_actions).(actions) = <[id := closed_row ActionState.StateRejected at_ act]> s.(t_actions).(actions).
Proof. intros [(row & H1 & H2 & W & _) _]. split; [by rewrite W|]. exists row. split_and!; [done|done|by rewrite W]. Qed.

(** The story a decision was taken on. *)
Record judged (h : Handle) (s : db) (id decision principal : string) (row : approval_row) (a : Approval.t)
    : Prop := {
  jd_hand : IsHumanDecision decision = true /\ principal <> "";
  jd_row : s.(t_approvals).(approvals) !! id = Some row /\ approvalFromRaw h id row = Some a;
  jd_strict : IsStrictApprovalID id = true <-> row.(ar_strict) = 1;
  jd_story : exists p, storedPreviewTx a s = Ok (p, s)
}.

(** A decision that the store took. *)
Record taken (h : Handle) (proofID id decision : string) (at_ : time) (env : ActionEnvelope.t)
    (ident : AttemptIdentity.t) (comment : string) (row : approval_row) (a : Approval.t) (s s' : db) : Prop := {
  tk_pending : row.(ar_status) = ApprovalPending;
  tk_act : s.(t_actions).(actions) !! env.(ActionEnvelope.ActionID) = None;
  tk_close :
    let row' := set_decision (status_of_verb decision) ident.(AttemptIdentity.PrincipalID) decision
                  (rfc3339 at_) comment proofID row in
    let acts := <[env.(ActionEnvelope.ActionID) := act_row env ident at_]> s.(t_actions).(actions) in
    if bool_decide (decision = DecisionApproved) then
      s'.(t_approvals).(approvals) = <[id := row']> s.(t_approvals).(approvals)
      /\ s'.(t_approvals).(tombstones) !! id =
           Some (tombstone_of h a ident.(AttemptIdentity.PrincipalID) decision at_)
      /\ exists act, acts !! a.(Approval.ActionID) = Some act
           /\ act.(aw_state) = ActionState.StatePendingApproval
           /\ s'.(t_actions).(actions) = <[a.(Approval.ActionID) := set_state ActionState.StateApproved act]> acts
    else refused h id ident.(AttemptIdentity.PrincipalID) decision at_ row' a acts s s'
}.

Lemma strictMarkerTx_Ok id s z s' : strictMarkerTx id s = Ok (z, s') ->
  s' = s /\ exists row, s.(t_approvals).(approvals) !! id = Some row /\ row.(ar_strict) = z
    /\ (IsStrictApprovalID id = true <-> row.(ar_strict) = 1).
Proof.
  intros H. pose proof (reads _ _ _ H) as ->. split; [done|]. unfold strictMarkerTx in H. tx_next H E1.
  tx_next H E2. tx_next H E3. apply tx_ret_Ok in H as [= ->]. exists x. split; [done|]. split; [done|].
  apply negb_false_iff, eqb_prop in E3. rewrite E3. apply bool_decide_eq_true.
Qed.

Lemma judgeTombstoneOrigin_human decision principal : IsHumanDecision decision = true ->
  judgeTombstoneOrigin decision principal = true -> principal <> "".
Proof.
  unfold judgeTombstoneOrigin. intros Hh. case_bool_decide as Ec; [by rewrite Ec in Hh|].
  rewrite Hh. intros H%bool_decide_eq_true. done.
Qed.

(** The three answers of the decision's transaction. *)
Inductive answered (h : Handle) (proofID id decision : string) (at_ : time) (env : ActionEnvelope.t)
    (ident : AttemptIdentity.t) (comment : string) (law : option PolicyPin.t) (row : approval_row)
    (a : Approval.t) (s s' : db) : string * bool -> Prop :=
| answered_decided committed : row.(ar_status) <> ApprovalPending -> s' = s -> committed = false ->
    answered h proofID id decision at_ env ident comment law row a s s' (RuleApprovalAlreadyDecided, committed)
| answered_expired : ApprovalConsumableAt a at_ = RuleApprovalExpired -> row.(ar_status) = ApprovalPending ->
    refused h id "" DecisionClock at_ (set_decision ApprovalExpired "" DecisionClock (rfc3339 at_) "" "" row) a
      s.(t_actions).(actions) s s' ->
    answered h proofID id decision at_ env ident comment law row a s s' (RuleApprovalExpired, true)
| answered_taken : ApprovalConsumableAt a at_ = "" ->
    match law with Some law => law_holds a a.(Approval.ActionDigest) law = true | None => True end ->
    taken h proofID id decision at_ env ident comment row a s s' ->
    answered h proofID id decision at_ env ident comment law row a s s' ("", true).

Lemma decideApprovalTx_Ok h proofID receiptID id decision at_ env ident comment law s out s' :
  chain_ok s.(t_receipts) ->
  decideApprovalTx h proofID receiptID id decision at_ env ident comment law s = Ok (out, s') ->
  exists row a, judged h s id decision ident.(AttemptIdentity.PrincipalID) row a
    /\ answered h proofID id decision at_ env ident comment law row a s s' out.
Proof.
  intros K H. unfold decideApprovalTx in H. cbv zeta in H. tx_next H E1. tx_next H E2.
  apply negb_false_iff in E1, E2. pose proof (judgeTombstoneOrigin_human _ _ E1 E2) as Hp.
  apply tx_bind_Ok in H as (a & t0 & E3 & H). apply approvalTx_Ok in E3 as (-> & row & R1 & R2).
  destruct (approvalFromRaw_fields _ _ _ _ R2) as (A1 & _ & _ & A4 & _).
  apply tx_bind_Ok in H as (z & t0 & E4 & H). apply strictMarkerTx_Ok in E4 as (-> & row' & R3 & _ & R4).
  rewrite R1 in R3. injection R3 as <-.
  apply tx_bind_Ok in H as (p & t0 & E5 & H). pose proof (reads _ _ _ E5) as ->.
  exists row, a. split; [by split; [| | |exists p]|].
  case_bool_decide as C1.
  { apply tx_ret_Ok in H as [= -> ->]. rewrite C1. apply answered_decided; try done. rewrite <- A4.
    unfold ApprovalConsumableAt in C1. case_bool_decide; [done|]. by destruct (negb _ && _) in C1. }
  assert (row.(ar_status) = ApprovalPending) as Hpend.
  { rewrite <- A4. unfold ApprovalConsumableAt in C1. by case_bool_decide. }
  case_bool_decide as C2.
  - assert (ApprovalConsumableAt a at_ = RuleApprovalExpired) as Ce.
    { unfold ApprovalConsumableAt in *. case_bool_decide; [done|]. by destruct (negb _ && _). }
    apply tx_bind_Ok in H as (won & s1 & E6 & H). apply closeApprovalTx_Ok in E6. cbv zeta in E6. rewrite A1 in E6.
    destruct won.
    + destruct E6 as (row2 & Q1 & Q2 & Q3 & Q4 & Q5 & Q6). rewrite R1 in Q1. injection Q1 as <-.
      tx_door H E7. apply tx_ret_Ok in H as [= -> ->]. apply rejectParkedActionTx_Ok in E7; [|by rewrite Q6].
      apply rejected_actions in E7 as (P & act & P1 & P2 & P3). rewrite Q5 in P1, P3.
      apply answered_expired; [done|done|]. split; [by rewrite P|by rewrite P|by exists act].
    + by destruct (proj2 E6 _ R1).
  - tx_next H E6.
    apply tx_bind_Ok in H as (x & s1 & E7 & H). apply recordDecisionActTx_Ok in E7 as (-> & F & EA & EP & M1); [|done].
    apply tx_bind_Ok in H as (won & s2 & E8 & H). apply updatePendingTx_Ok in E8. rewrite EP in E8. destruct won.
    + destruct E8 as (row2 & Q1 & _ & ->). rewrite R1 in Q1. injection Q1 as <-. tx_door H E9.
      apply tombstoneTx_Ok in E9 as (_ & T1 & T2). rewrite A1 in T1, T2.
      set (row' := set_decision (status_of_verb decision) ident.(AttemptIdentity.PrincipalID) decision
                     (rfc3339 at_) comment proofID row) in *.
      assert (s0.(t_actions) = s1.(t_actions) /\ s0.(t_receipts) = s1.(t_receipts)
        /\ s0.(t_approvals).(approvals) = <[id := row']> s.(t_approvals).(approvals)) as (W1 & W2 & W3)
        by (by destruct T1 as [->|[_ ->]]).
      apply tx_bind_Ok in H as ([] & s3 & E9 & H). apply tx_ret_Ok in H as [= -> ->].
      apply answered_taken; [done| |].
      { destruct law as [law|]; [by apply negb_false_iff in E6|done]. }
      split; [done|done|]. cbv zeta. fold row'. rewrite <- EA. destruct (bool_decide (decision = DecisionApproved)).
      * apply transitionTx_Ok in E9 as (act & X1 & X2 & _ & ->). rewrite W1 in X1.
        split; [exact W3|]. split; [exact T2|]. exists act. split; [done|]. split; [done|]. cbn. by rewrite W1.
      * tx_door E9 E10. apply rejectParkedActionTx_Ok in E10; [|rewrite W2; apply M1].
        apply rejected_actions in E10 as (P & act & X1 & X2 & X3). apply updateApprovalTx_Ok in E9 as ->.
        rewrite W1 in X1, X3. split.
        -- cbn. rewrite P, W3, (alter_at _ _ _ row') by apply lookup_insert_eq. by rewrite insert_insert_eq.
        -- cbn. by rewrite P.
        -- exists act. done.
    + by destruct (proj2 E8 _ R1).
Qed.

Lemma answered_closes h proofID id decision at_ env ident comment law row a s s' out :
  judged h s id decision ident.(AttemptIdentity.PrincipalID) row a ->
  answered h proofID id decision at_ env ident comment law row a s s' out ->
  exists row', s'.(t_approvals).(approvals) !! id = Some row' /\ row'.(ar_status) <> ApprovalPending.
Proof.
  intros [_ [J _] _ _] H. destruct H as [b Hn -> _|_ _ [H _ _]|_ _ [Hp _ H]].
  - by exists row.
  - rewrite H, lookup_insert_eq. by eexists.
  - cbv zeta in H. case_bool_decide.
    + destruct H as [H _]. rewrite H, lookup_insert_eq. eexists. split; [done|]. apply status_of_verb_closed.
    + destruct H as [H _ _]. rewrite H, lookup_insert_eq. eexists. split; [done|]. apply status_of_verb_closed.
Qed.

(** A verdict stays. *)
Lemma decided_stays h s s2 id row : moved h s s2 -> s.(t_approvals).(approvals) !! id = Some row ->
  row.(ar_status) <> ApprovalPending ->
  exists row2, s2.(t_approvals).(approvals) !! id = Some row2 /\ row2.(ar_status) = row.(ar_status).
Proof.
  intros M R Hn. destruct (mv_approvals _ _ _ M _ _ R) as (r2 & R2 & [_ _ [V|[V _]]]); [|done].
  exists r2. split; [done|]. by apply verdict_status.
Qed.

(** The same for parameters that have left. *)
Lemma purged_stays h s s2 id row : moved h s s2 -> s.(t_approvals).(approvals) !! id = Some row ->
  row.(ar_params) = "" ->
  exists row2, s2.(t_approvals).(approvals) !! id = Some row2 /\ row2.(ar_params) = "".
Proof.
  intros M R Hn. destruct (mv_approvals _ _ _ M _ _ R) as (r2 & R2 & [_ [P|P] _]); exists r2; split; congruence.
Qed.

(** C14.  A decision is taken once, by a hand, on the story it was shown.
    A failed decision leaves every table as it was.  An answer means that the
    verb was one of the three human verbs with a named principal, and that the
    row, its strict marker, its preview, its action and the action's decision
    told one story.  It says already decided exactly on a row that is not
    pending, and nothing was written.  It says expired on a pending row whose
    window the clock had closed, and then the clock closed it: parameters gone,
    tombstone written, action REJECTED with its receipt.  Otherwise the row was
    pending and in its window, an approve was under the law in force, the
    operator's act is on record under a new identity, the row has the verdict
    and the tombstone seals it; the action moved to APPROVED with its
    parameters kept, or was closed as REJECTED with them gone.  From then on,
    wherever the doors take the books, every answer about that approval is
    already decided, and writes nothing. *)
Theorem a_decision_is_taken_once_by_a_hand h proofID receiptID id decision at_ env ident comment law s answer s' :
  chain_ok s.(t_receipts) ->
  DecideApprovalUnderLaw h proofID receiptID id decision at_ env ident comment law s = (answer, s') ->
  moved h s s' /\ beside s s'
  /\ match answer with
  | Err _ => s' = s
  | Ok rule => exists row a committed,
      judged h s id decision ident.(AttemptIdentity.PrincipalID) row a
      /\ answered h proofID id decision at_ env ident comment
           (if bool_decide (decision = DecisionApproved) then Some law else None) row a s s' (rule, committed)
      /\ forall s2 proof2 receipt2 decision2 at2 env2 ident2 comment2 law2 rule2 s3, moved h s' s2 ->
           DecideApprovalUnderLaw h proof2 receipt2 id decision2 at2 env2 ident2 comment2 law2 s2 = (Ok rule2, s3) ->
           rule2 = RuleApprovalAlreadyDecided /\ s3 = s2
  end.
Proof.
  assert (forall p r d t e i c l s x s', chain_ok s.(t_receipts) ->
    DecideApprovalUnderLaw h p r id d t e i c l s = (Ok x, s') -> exists row a b,
      judged h s id d i.(AttemptIdentity.PrincipalID) row a
      /\ answered h p id d t e i c (if bool_decide (d = DecisionApproved) then Some l else None) row a s s' (x, b)) as D.
  { intros p r d t e i c l s0 x s1 K H. unfold DecideApprovalUnderLaw, decideApprovalWithLaw, commit_if in H.
    destruct (decideApprovalTx _ _ _ _ _ _ _ _ _ _ s0) as [[[y b] s2]|] eqn:E; [|done].
    apply decideApprovalTx_Ok in E as (row & a & J & An); [|done]. exists row, a, b. split; [exact J|].
    destruct b; injection H as <- <-; [done|]. inversion An; subst. by apply answered_decided. }
  intros K H. destruct (DecideApprovalUnderLaw_moved _ _ _ _ _ _ _ _ _ _ _ _ _ K H) as [M B].
  split; [exact M|]. split; [exact B|]. destruct answer as [rule|e].
  - destruct (D _ _ _ _ _ _ _ _ _ _ _ K H) as (row & a & b & J & An). exists row, a, b. split; [done|]. split; [done|].
    intros s2 p2 r2 d2 t2 e2 i2 c2 l2 rule2 s3 M2 H2. destruct (answered_closes _ _ _ _ _ _ _ _ _ _ _ _ _ _ J An) as (row' & R & Hn).
    destruct (decided_stays _ _ _ _ _ M2 R Hn) as (row2 & R2 & E2).
    destruct (D _ _ _ _ _ _ _ _ _ _ _ (mv_chain _ _ _ M2) H2) as (row3 & a3 & b3 & J3 & An3).
    destruct J3 as [_ [J3 _] _ _]. rewrite R2 in J3. injection J3 as <-.
    inversion An3 as [b4 Hs W|Hc Hp|Hc Hl [Hp _ _]]; [done| |]; congruence.
  - unfold DecideApprovalUnderLaw, decideApprovalWithLaw, commit_if in H.
    by destruct (decideApprovalTx _ _ _ _ _ _ _ _ _ _ s) as [[[y []] s2]|]; injection H as H1 H2.
Qed.

(** ** The arguments leave once *)

(** Approved arguments left the store, with the operation they are for: by the
    claim of a request of version 1, or by the strict start. *)
Inductive handed (h : Handle) (id : string) (s s' : db) (want params : string) (op : Operation.t)
    (actionID : string) : Prop :=
| handed_by_claim law seen now a : ClaimApprovalParamsUnderDigest h id law want seen now s = Ok ((params, op), s') ->
    approvalTx h id s = Ok (a, s) -> a.(Approval.ActionID) = actionID -> IsStrictApprovalID id = false ->
    handed h id s s' want params op actionID
| handed_by_start law at_ out : StartApprovedAuthorization h id law want at_ s = Ok (out, s') ->
    out.(aas_Params) = params -> out.(aas_Operation) = op -> out.(aas_ActionID) = actionID ->
    handed h id s s' want params op actionID.

(** What both of them found and left. *)
Record handover (h : Handle) (id : string) (s s' : db) (want params : string) (op : Operation.t)
    (actionID : string) : Prop := {
  ho_row : exists row, s.(t_approvals).(approvals) !! id = Some row /\ row.(ar_status) = ApprovalApproved
    /\ row.(ar_action) = actionID /\ row.(ar_params) = params /\ params <> "";
  ho_action : exists act, s.(t_actions).(actions) !! actionID = Some act
    /\ act.(aw_state) = ActionState.StateApproved /\ act.(aw_operation) = op;
  ho_digest : Digests.Digest op params = want;
  ho_gone : exists row', s'.(t_approvals).(approvals) !! id = Some row' /\ row'.(ar_params) = "";
  ho_moved : moved h s s'
}.

Lemma approved_not_strict id row s z : strictMarkerTx id s = Ok (z, s) -> z = 0 ->
  s.(t_approvals).(approvals) !! id = Some row -> IsStrictApprovalID id = false.
Proof.
  intros H Hz R. apply strictMarkerTx_Ok in H as (_ & row' & R' & <- & Hs). rewrite R in R'. injection R' as <-.
  destruct (IsStrictApprovalID id) eqn:E; [|done]. rewrite (proj1 Hs eq_refl) in Hz. done.
Qed.

Lemma claim_Ok h id law want seen now s params op s' : chain_ok s.(t_receipts) ->
  ClaimApprovalParamsUnderDigest h id law want seen now s = Ok ((params, op), s') ->
  exists a, approvalTx h id s = Ok (a, s) /\ IsStrictApprovalID id = false
    /\ handover h id s s' want params op a.(Approval.ActionID).
Proof.
  intros K H. pose proof (claim_moves h id law want seen now s _ s' K H) as M.
  unfold ClaimApprovalParamsUnderDigest in H.
  apply tx_bind_Ok in H as (a & t0 & E0 & H). pose proof E0 as Ea. apply approvalTx_Ok in E0 as (-> & row & R1 & R2).
  destruct (approvalFromRaw_fields _ _ _ _ R2) as (A1 & A2 & A3 & A4 & _).
  tx_next H E1. apply tx_bind_Ok in H as (z & t0 & E2 & H). pose proof (reads _ _ _ E2) as ->.
  tx_next H E3. apply bool_decide_eq_false, dec_stable in E3. tx_next H E4.
  apply tx_bind_Ok in H as (p & t0 & E5 & H). pose proof (reads _ _ _ E5) as ->.
  apply tx_bind_Ok in H as (ev & t0 & E6 & H). pose proof (reads _ _ _ E6) as ->.
  apply tx_bind_Ok in H as ([op' st] & t0 & E7 & H). apply ternaOf_Ok in E7 as (-> & act & T1 & T2 & T3).
  cbn beta iota in H. tx_next H E8. tx_next H E9. rewrite R1 in E9. injection E9 as <-.
  tx_next H E10. tx_next H E11. apply bool_decide_eq_false in E10, E11. apply dec_stable in E11.
  apply tx_bind_Ok in H as (purged & s1 & E12 & H). tx_door H E13. pose proof (reads _ _ _ E13) as ->.
  tx_next H E14. apply negb_false_iff in E14 as ->. apply purgeClaimTx_true in E12 as (row' & B1 & _ & B3 & B4 & ->).
  rewrite R1 in B1. injection B1 as <-. tx_door H E15. pose proof (reads _ _ _ E15) as ->.
  apply tx_ret_Ok in H as [= -> -> ->]. exists a. split; [done|]. split; [by eapply approved_not_strict|].
  split; [by exists row|exists act; split_and!; [done| |done]|exact E11| |exact M].
  - rewrite A2 in B4, T1. rewrite T1 in B4. by injection B4.
  - exists (set_params "" row). split; [apply lookup_insert_eq|done].
Qed.

Lemma handed_over h id s s' want params op actionID : store_sound h s -> chain_ok s.(t_receipts) ->
  handed h id s s' want params op actionID -> handover h id s s' want params op actionID.
Proof.
  intros Hs K [law seen now a H Ha <- _|law at_ out H <- <- <-].
  - apply claim_Ok in H as (a' & Ha' & _ & H); [|done]. rewrite Ha in Ha'. by injection Ha' as <-.
  - apply StartApprovedAuthorization_Ok in H as (a & resolved & S); [|done].
    pose proof (approved_started_moves _ _ _ _ _ _ _ _ _ _ K S) as M.
    destruct S as [(pending & [(row & R1 & R2 & R3 & R4) Rs _ _ _ _] & Hid & act & actor & t & T1 & T2 & T3 & _) Hd _ _
      (arow & row' & srow & B1 & _ & _ & _ & W)].
    destruct (approvalFromRaw_fields _ _ _ _ R2) as (A1 & A2 & A3 & A4 & _).
    split; [exists row; split_and!; congruence|by exists act|done| |done].
    exists (set_params "" arow). split; [|done]. rewrite W. apply lookup_insert_eq.
Qed.

(** C15.  Approved arguments leave the store once.  They leave by the
    claim of a request of version 1 or by the strict start, and only when the
    approval is APPROVED and its action APPROVED; they are the bytes that were
    parked, not empty, and with the action's own operation they re-derive the
    digest the caller wants; afterwards the row has none.  Wherever the doors
    take the books from there, neither door hands them out again, whatever the
    law, the digest, the instant or the caller's reading. *)
Theorem approved_arguments_leave_once h id s s' want params op actionID :
  store_sound h s -> chain_ok s.(t_receipts) -> handed h id s s' want params op actionID ->
  handover h id s s' want params op actionID
  /\ forall s2 s3 want2 params2 op2 id2, store_sound h s2 -> moved h s' s2 ->
       ~ handed h id s2 s3 want2 params2 op2 id2.
Proof.
  intros Hs K H. apply handed_over in H as Ho; [|done|done]. split; [done|].
  intros s2 s3 w2 p2 o2 i2 Hs2 M H2. apply handed_over in H2 as [(row2 & R2 & _ & _ & P2 & N2) _ _ _ _]; [|done|apply M].
  destruct (ho_gone _ _ _ _ _ _ _ _ Ho) as (row' & R' & P').
  destruct (purged_stays _ _ _ _ _ M R' P') as (row3 & R3 & P3). congruence.
Qed.

(** C16.  The strict start of an approved request is granted whole and
    paid once.  When it answers, the approval was APPROVED under the law in
    force, its story and its signed pending snapshot verify, the requester's
    evidence passes the gate as it stood when the request was parked, and the
    action is APPROVED and names the actor and the intent of the snapshot.
    The request resolves now, with the approval in hand, to that intent and
    that very chain of principals; every account it names pays one unit that
    no other start pays; the sealed start record is written over those debits;
    the parameters leave the row and the action moves to AUTHORIZED; no other
    counter and no other row of any other table changes, and the tables stay
    sound. *)
Theorem an_approved_start_is_granted_whole_and_paid_once h id law want at_ s out s' :
  store_sound h s -> StartApprovedAuthorization h id law want at_ s = Ok (out, s') ->
  exists a resolved, approved_started h s s' id law want at_ out a resolved.
Proof. exact (StartApprovedAuthorization_Ok h id law want at_ s out s'). Qed.

(** ** A concrete approval *)

Definition strict_id : string := "apr3_000102030405060708090a0b0c0d0e0f".

Definition pending_request : AuthorityPendingRequest.t :=
  {| AuthorityPendingRequest.ActorPrincipalID := "principal_brain_a";
     AuthorityPendingRequest.CorrelationID := "req_act_7";
     AuthorityPendingRequest.SourceProtocol := "telegram"; AuthorityPendingRequest.Channel := "telegram";
     AuthorityPendingRequest.ConversationID := "";
     AuthorityPendingRequest.Operation :=
       {| Operation.Namespace := "tool"; Operation.Name := "read_file"; Operation.Version := 1 |};
     AuthorityPendingRequest.Arguments := "/srv/notes";
     AuthorityPendingRequest.EffectClass := EffectReadExternal; AuthorityPendingRequest.At := noon;
     AuthorityPendingRequest.ApprovalContext :=
       {| ApprovalContext.IntentPurpose := "-"; ApprovalContext.GrantID := "-"; ApprovalContext.GrantDepth := 0;
          ApprovalContext.CostLine := "unbudgeted"; ApprovalContext.ToolCage := "read_file";
          ApprovalContext.Descriptor :=
            {| Class := EffectReadExternal; ReadsExternalState := true; WritesExternalState := false;
               DataEgress := true; Reversible := false; Compensatable := false |};
          ApprovalContext.HasDescriptor := true; ApprovalContext.LawVersion := 1;
          ApprovalContext.LawDigest := "pol_1"; ApprovalContext.Rule := "require_approval";
          ApprovalContext.Now := noon; ApprovalContext.TTL := end_of_time - noon |};
     AuthorityPendingRequest.ResolveEvidence := Some (fun id => Ok (act_evidence id "principal_brain_a")) |}.

Definition operator_env : ActionEnvelope.t := attempt_env "act_op".
Definition operator_ident : AttemptIdentity.t :=
  {| AttemptIdentity.PrincipalID := "principal_operator"; AttemptIdentity.IntentID := "";
     AttemptIdentity.AuthorityRefs := [];
     AttemptIdentity.Evidence :=
       {| IdentityEvidence.EvidenceID := ""; IdentityEvidence.Provider := ""; IdentityEvidence.Subject := "";
          IdentityEvidence.Credential := ""; IdentityEvidence.IssuedAt := 0;
          IdentityEvidence.TransportBinding := ""; IdentityEvidence.ClaimsDigest := "" |} |}.
Definition current_law : PolicyPin.t := {| PolicyPin.Version := 1; PolicyPin.Digest := "pol_1" |}.
Definition parked_digest : string :=
  Eval vm_compute in Digests.Digest pending_request.(AuthorityPendingRequest.Operation) "/srv/notes".

Definition parked_db : db := Eval vm_compute in
  saved (ParkAuthorization clock "act_7" strict_id pending_request bound_db).
Definition approved_now : result string * db := Eval vm_compute in
  DecideApprovalUnderLaw clock "rcpt_a" "rcpt_b" strict_id DecisionApproved noon operator_env operator_ident
    "" current_law parked_db.
Definition approved_db : db := Eval vm_compute in approved_now.2.
Definition resumed_now : result (AuthorityApprovedStartResult * db) := Eval vm_compute in
  StartApprovedAuthorization clock strict_id current_law parked_digest noon approved_db.

Lemma parked_now : ParkAuthorization clock "act_7" strict_id pending_request bound_db
  = Ok ({| apr_ActionID := "act_7"; apr_ApprovalID := strict_id; apr_IntentID := "int_1";
           apr_AuthorityRefs := ["grant_1"]; apr_Evidence := act_evidence "act_7" "principal_brain_a" |}, parked_db).
Proof.
  vm_cast_no_check (eq_refl (A := result (AuthorityPendingResult * db)) (Ok
    ({| apr_ActionID := "act_7"; apr_ApprovalID := strict_id; apr_IntentID := "int_1";
        apr_AuthorityRefs := ["grant_1"]; apr_Evidence := act_evidence "act_7" "principal_brain_a" |}, parked_db))).
Qed.

Lemma decided_now : DecideApprovalUnderLaw clock "rcpt_a" "rcpt_b" strict_id DecisionApproved noon operator_env
  operator_ident "" current_law parked_db = (Ok "", approved_db).
Proof. vm_cast_no_check (eq_refl (A := result string * db) (Ok "", approved_db)). Qed.

Definition resumed_db : db := Eval vm_compute in saved resumed_now.
Definition resumed_answer : AuthorityApprovedStartResult :=
  {| aas_ActionID := "act_7"; aas_Params := "/srv/notes";
     aas_Operation := pending_request.(AuthorityPendingRequest.Operation) |}.

Lemma started_now : StartApprovedAuthorization clock strict_id current_law parked_digest noon approved_db
  = Ok (resumed_answer, resumed_db).
Proof.
  vm_cast_no_check (eq_refl (A := result (AuthorityApprovedStartResult * db)) (Ok (resumed_answer, resumed_db))).
Qed.

Lemma approved_sound : store_sound clock approved_db.
Proof.
  assert (chain_ok bound_db.(t_receipts) /\ chain_ok parked_db.(t_receipts)) as [K1 K2]
    by (split; apply chain_empty).
  destruct (ParkAuthorization_calm _ _ _ _ _ _ _ bound_sound K1 parked_now) as [Q _].
  destruct (DecideApprovalUnderLaw_moved _ _ _ _ _ _ _ _ _ _ _ _ _ K2 decided_now) as [_ B].
  pose proof (qu_sound _ _ _ Q bound_sound) as Hp. by apply (beside_quiet clock parked_db); [apply (so_ledger _ _ Hp)| |].
Qed.

Lemma a_decision_is_taken_once_by_a_hand_witness :
  exists row a, judged clock parked_db strict_id "approved" "principal_operator" row a
    /\ answered clock "rcpt_a" strict_id "approved" noon operator_env operator_ident "" (Some current_law) row a
         parked_db approved_db ("", true).
Proof.
  destruct (a_decision_is_taken_once_by_a_hand clock "rcpt_a" "rcpt_b" strict_id DecisionApproved noon operator_env
    operator_ident "" current_law parked_db (Ok "") approved_db chain_empty decided_now)
    as (_ & _ & row & a & b & J & An & _).
  exists row, a. split; [exact J|]. destruct b; [exact An|by inversion An].
Defined.

Lemma approved_arguments_leave_once_witness :
  handover clock strict_id approved_db resumed_db parked_digest "/srv/notes"
    pending_request.(AuthorityPendingRequest.Operation) "act_7".
Proof.
  apply (approved_arguments_leave_once clock strict_id approved_db resumed_db parked_digest "/srv/notes"
    pending_request.(AuthorityPendingRequest.Operation) "act_7" approved_sound chain_empty).
  exact (handed_by_start _ _ _ _ _ _ _ _ current_law noon resumed_answer started_now eq_refl eq_refl eq_refl).
Defined.

Lemma an_approved_start_is_granted_whole_and_paid_once_witness :
  exists a resolved, approved_started clock approved_db resumed_db strict_id current_law parked_digest noon
    resumed_answer a resolved.
Proof.
  exact (an_approved_start_is_granted_whole_and_paid_once clock strict_id current_law parked_digest noon approved_db
    resumed_answer resumed_db approved_sound started_now).
Defined.

(** ** The sweep compares texts *)

(** A window that closes half a second after noon. *)
Definition half_past : time := noon + 500000000.
Definition half_clock : Handle := toy_handle [0; unix_epoch; end_of_time; noon; half_past].

Definition calc_env : ActionEnvelope.t :=
  let e := attempt_env "act_8" in
  {| ActionEnvelope.ActionID := e.(ActionEnvelope.ActionID);
     ActionEnvelope.SchemaVersion := e.(ActionEnvelope.SchemaVersion);
     ActionEnvelope.CorrelationID := e.(ActionEnvelope.CorrelationID);
     ActionEnvelope.Principal := e.(ActionEnvelope.Principal); ActionEnvelope.Source := e.(ActionEnvelope.Source);
     ActionEnvelope.IntentID := ""; ActionEnvelope.Operation := e.(ActionEnvelope.Operation);
     ActionEnvelope.ParametersDigest := Digests.Digest e.(ActionEnvelope.Operation) "1+1";
     ActionEnvelope.EffectClass := EffectPure; ActionEnvelope.RequestedAt := noon;
     ActionEnvelope.AuthorityRefs := [] |}.

Definition short_context : ApprovalContext.t :=
  {| ApprovalContext.IntentPurpose := "-"; ApprovalContext.GrantID := "-"; ApprovalContext.GrantDepth := 0;
     ApprovalContext.CostLine := "unbudgeted"; ApprovalContext.ToolCage := "calc";
     ApprovalContext.Descriptor :=
       {| Class := EffectPure; ReadsExternalState := false; WritesExternalState := false; DataEgress := false;
          Reversible := false; Compensatable := false |};
     ApprovalContext.HasDescriptor := true; ApprovalContext.LawVersion := 1;
     ApprovalContext.LawDigest := "pol_1"; ApprovalContext.Rule := "require_approval";
     ApprovalContext.Now := noon; ApprovalContext.TTL := 500000000 |}.

Definition short_id : string := "apr_000102030405060708090a0b0c0d0e0f".

Definition waiting_db : db := Eval vm_compute in
  match NewBoundApprovalRequestWithID calc_env "1+1" short_context short_id with
  | Ok b => saved (CreateApprovalRequest half_clock noon b empty_db)
  | Err _ => empty_db
  end.

(** At noon the window is open for a decision, and the sweep of that instant
    closes it: the text of half past noon sorts before the text of noon. *)
Theorem the_sweep_closes_an_open_window :
  (exists a, approvalTx half_clock short_id waiting_db = Ok (a, waiting_db)
     /\ ApprovalConsumableAt a noon = "" /\ a.(Approval.ExpiresAt) = half_past)
  /\ let swept := SweepExpiredApprovals half_clock (fun _ => "rcpt_1") noon waiting_db in
     swept.1 = Ok (1, 0)
     /\ ar_status <$> swept.2.(t_approvals).(approvals) !! short_id = Some ApprovalExpired
     /\ aw_state <$> swept.2.(t_actions).(actions) !! "act_8" = Some ActionState.StateRejected.
Proof.
  split.
  - destruct (approvalTx half_clock short_id waiting_db) as [[a s]|] eqn:E; [|by vm_compute in E].
    exists a. pose proof (reads _ _ _ E) as ->. split; [done|].
    vm_compute in E. injection E as <-. vm_compute. split; reflexivity.
  - vm_compute. split_and!; reflexivity.
Qed.
