(* ===== verification/StoreRuns.v ===== *)
(** * Runs of the store's doors

    Any sequence of the doors that attempt, start, park, decide, claim, close
    and sweep, as a step relation over the tables, with the actions it started.
    One induction carries every step's relation ([quiet], [moved], [pays])
    through the whole run. *)

From S2P Require Import Prelude Kernel Grants Json Text Encoding Digests Wire Struct Receipts Approvals Intents Authority Contracts Identity Snapshots Tables StoreBudget StoreIdentity StoreIntents StoreGrants StoreBirths StoreConfig StoreStart StoreLedger StoreApprovals.
From Stdlib Require Import Ascii String.
Import Effect Lifecycle.
Local Open Scope Z_scope.
Local Open Scope korvun_scope.

Section Runs.
Context (h : Handle).

(** The doors that start nothing, when they answer. *)
Inductive door (s : db) : db -> Prop :=
| door_attempt receipt env d state s' :
    RecordAttempt h receipt env d state s = Ok (tt, s') -> door s s'
| door_identified receipt env d state ident s' :
    RecordAttemptIdentified h receipt env d state ident s = Ok (tt, s') -> door s s'
| door_authenticated receipt now env d state e s' :
    RecordAttemptAuthenticated h receipt now env d state e s = Ok (tt, s') -> door s s'
| door_finish receipt id to at_ digest s' : ActionState.Terminal to = true ->
    FinishWithResult h receipt id to at_ digest s = Ok (tt, s') -> door s s'
| door_request now b evidence s' : createApproval h now b evidence s = Ok (tt, s') -> door s s'
| door_park action approval r out s' : ParkAuthorization h action approval r s = Ok (out, s') -> door s s'
| door_decide proof receipt id decision at_ env ident comment law answer s' :
    DecideApprovalUnderLaw h proof receipt id decision at_ env ident comment law s = (answer, s') -> door s s'
| door_sweep receipts at_ answer s' : SweepExpiredApprovals h receipts at_ s = (answer, s') -> door s s'
| door_claim id law want seen now out s' :
    ClaimApprovalParamsUnderDigest h id law want seen now s = Ok (out, s') -> door s s'.

(** A run and the actions it started, in order. *)
Inductive store_run : db -> list string -> db -> Prop :=
| ran_nothing s : store_run s [] s
| ran_start s act r out s1 log s2 : StartAuthorization h act r s = Ok (out, s1) ->
    store_run s1 log s2 -> store_run s (act :: log) s2
| ran_approved s id law want at_ out s1 log s2 :
    StartApprovedAuthorization h id law want at_ s = Ok (out, s1) ->
    store_run s1 log s2 -> store_run s (out.(aas_ActionID) :: log) s2
| ran_door s s1 log s2 : door s s1 -> store_run s1 log s2 -> store_run s log s2.

(** The tables as every door of a run finds them. *)
Record books_sound (s : db) : Prop := {
  bk_store : store_sound h s;
  bk_chain : chain_ok s.(t_receipts)
}.

Lemma calm_beside s s' : books_sound s -> beside s s' -> moved h s s' -> quiet h s s' /\ moved h s s'.
Proof. intros [Hs _] B M. split; [|exact M]. by apply beside_quiet; [apply (so_ledger _ _ Hs)|]. Qed.

Lemma door_calm s s' : books_sound s -> door s s' -> quiet h s s' /\ moved h s s'.
Proof.
  intros Hb D. pose proof (bk_chain _ Hb) as K.
  destruct D as [rc env d st s' H|rc env d st i s' H|rc now env d st e s' H|rc id to at_ dg s' Ht H|now b e s' H
    |act ap r out s' H|p rc id d at_ env i c law x s' H|rcs at_ x s' H|id law w seen now out s' H].
  - apply calm_beside; [done|exact (is_beside _ _ _ H)|by eapply RecordAttempt_moves].
  - apply calm_beside; [done|exact (is_beside _ _ _ H)|by eapply RecordAttemptIdentified_moves].
  - apply calm_beside; [done|exact (is_beside _ _ _ H)|by eapply RecordAttemptAuthenticated_moves].
  - apply calm_beside; [done|exact (is_beside _ _ _ H)|]. unfold FinishWithResult in H. tx_next H E.
    apply finishWithResultTx_Ok in H; [|done]. by eapply finished_moves.
  - apply calm_beside; [done|exact (is_beside _ _ _ H)|exact (moves _ _ _ K H)].
  - eapply ParkAuthorization_calm; [apply Hb|exact K|exact H].
  - apply DecideApprovalUnderLaw_moved in H as [M B]; [|done]. by apply calm_beside.
  - unfold SweepExpiredApprovals in H. apply sweep_rows_moved in H as [M B]; [|done]. by apply calm_beside.
  - apply calm_beside; [done|exact (is_beside _ _ _ H)|exact (moves _ _ _ K H)].
Qed.

Lemma calm_books s s' : books_sound s -> quiet h s s' -> moved h s s' -> books_sound s'.
Proof. intros [Hs _] Q M. split; [by apply (qu_sound _ _ _ Q)|apply M]. Qed.

(** One start of either kind. *)
Lemma start_step s act r out s1 : books_sound s -> StartAuthorization h act r s = Ok (out, s1) ->
  books_sound s1 /\ moved h s s1 /\ exists accts, pays s s1 act accts.
Proof.
  intros [Hs K] H. destruct (StartAuthorization_Ok _ _ _ _ _ _ (so_grants _ _ Hs) (so_identity _ _ Hs)
    (so_ledger _ _ Hs) H) as [resolved St].
  pose proof (started_moves _ _ _ _ _ _ _ K St) as M. split; [split; [by eapply started_sound|apply M]|].
  split; [exact M|]. exists resolved.(ra_accounts). by eapply started_pays.
Qed.

Lemma approved_step s id law want at_ out s1 : books_sound s ->
  StartApprovedAuthorization h id law want at_ s = Ok (out, s1) ->
  books_sound s1 /\ moved h s s1 /\ exists accts, pays s s1 out.(aas_ActionID) accts.
Proof.
  intros [Hs K] H. destruct (StartApprovedAuthorization_Ok _ _ _ _ _ _ _ _ Hs H) as (a & resolved & St).
  pose proof (approved_started_moves _ _ _ _ _ _ _ _ _ _ K St) as M.
  split; [split; [apply St|apply M]|]. split; [exact M|]. exists resolved.(ra_accounts). apply St.
Qed.

Lemma run_is_sound s log s2 : store_run s log s2 -> books_sound s ->
  books_sound s2 /\ moved h s s2 /\ run_books s log s2.
Proof.
  induction 1 as [s|s act r out s1 log s2 H _ IH|s id law want at_ out s1 log s2 H _ IH|s s1 log s2 D _ IH]; intros Hb.
  - split; [done|]. split; [by apply moved_refl, Hb|apply books_done].
  - destruct (start_step _ _ _ _ _ Hb H) as (Hb1 & M & accts & P). destruct (IH Hb1) as (Hb2 & M2 & R).
    split; [done|]. split; [by eapply moved_trans|by eapply books_start].
  - destruct (approved_step _ _ _ _ _ _ _ Hb H) as (Hb1 & M & accts & P). destruct (IH Hb1) as (Hb2 & M2 & R).
    split; [done|]. split; [by eapply moved_trans|by eapply books_start].
  - destruct (door_calm _ _ Hb D) as [Q M]. destruct (IH (calm_books _ _ Hb Q M)) as (Hb2 & M2 & R).
    split; [done|]. split; [by eapply moved_trans|by eapply books_quiet].
Qed.

(** The payers of an account never pass what was left of it. *)
Lemma payers_bounded s log s2 a row m : run_books s log s2 -> store_sound h s2 ->
  s2.(t_budget).(accounts) !! a = Some row -> row.(ac_max_total) = Some m ->
  Z.of_nat (List.length (filter (fun act => paid s2.(t_budget) act a /\ ~ paid s.(t_budget) act a) log))
    <= Z.max 0 m - spent s.(t_budget) a "*".
Proof.
  intros R Hs2 Hrow Hm. pose proof (ls_cap _ (so_ledger _ _ Hs2) a row "*" m Hrow Hm) as Hc.
  rewrite (rb_spent _ _ _ R a) in Hc. lia.
Qed.

(** An action on record as started is not started again by either door. *)
Lemma started_once s2 act : is_Some (s2.(t_authz).(starts) !! act) ->
  (forall r o, StartAuthorization h act r s2 <> Ok o)
  /\ forall id law want at_ out s3, store_sound h s2 ->
       StartApprovedAuthorization h id law want at_ s2 = Ok (out, s3) -> out.(aas_ActionID) <> act.
Proof.
  intros [x Hx]. split.
  - intros r o Ho. apply StartAuthorization_fresh in Ho. congruence.
  - intros id law want at_ out s3 Hs Ho E. subst act.
    destruct (StartApprovedAuthorization_Ok _ _ _ _ _ _ _ _ Hs Ho) as (a & resolved & St).
    pose proof (py_fresh _ _ _ _ (proj1 (ap_pays _ _ _ _ _ _ _ _ _ _ St))) as F. congruence.
Qed.

End Runs.


