(* ===== verification/Executor.v ===== *)
(** * Tool execution

    [internal/action/executor]: the coordinator that admits a prepared request,
    records it, dispatches the tool and closes the action, and the resumption
    of an approved one; with the closing rule of [internal/tool/outcome.go].
    Everything outside (clocks, identities, the durable store behind its
    interfaces, the tools, the observers of the brain) is one environment, and
    every call made to it is kept in order in a trace.  Contexts and timeouts
    belong to the environment; observers do not write to the inbound message. *)

From S2P Require Import Prelude Kernel Grants Json Dispatch Policy Text Envelope Conversation Encoding Digests Approvals Identity.
From Stdlib Require Import Ascii String.
Import Effect.
Local Open Scope Z_scope.
Local Open Scope korvun_scope.

Definition ErrUnknownTool : error := ErrorNew "executor: unknown tool".
Definition ErrExecutionBindingMismatch : error := ErrorNew "executor: execution binding mismatch".
Definition ErrExecutionAlreadySubmitted : error := ErrorNew "executor: execution request already submitted".
Definition ErrAuthorityEvidenceCorrupt : error := ErrorNew "action: authority evidence corrupt".

(** ** How a run closes *)

Definition sentinel_effect_delivered : string :=
  "tool: the receiver answered and the answer was not a usable success".
Definition sentinel_delivery_unknown : string :=
  "tool: a connection was obtained and no answer was read; whether the request left is not known".
Definition sentinel_not_sent : string := "tool: no connection was obtained; nothing was sent".
Definition sentinel_context_canceled : string := "context canceled".

Definition CloseStateAfterRun (err : option error) : ActionState.State :=
  match err with
  | None => ActionState.StateSucceeded
  | Some e =>
      if error_is sentinel_effect_delivered e || error_is sentinel_delivery_unknown e
      then ActionState.StateOutcomeUnknown
      else if error_is sentinel_not_sent e then ActionState.StateFailed
      else if error_is sentinel_deadline_exceeded e || error_is sentinel_context_canceled e
      then ActionState.StateOutcomeUnknown
      else ActionState.StateFailed
  end.

(** ** Plans, requests and results *)

(** A registry says which tools there are and which of them take a scope. *)
Definition Registry := gmap string bool.

Record Scope := { sc_Brain : string; sc_Conversation : string }.

Record Governance := {
  gv_Grants : list ToolGrant.t;
  gv_Attrs : gmap string ToolAttrs.t;
  gv_Sensitivity : Sensitivity;
  gv_Locality : Locality
}.

Record IdentityConfig := {
  id_Registry : ProvenanceRegistry;
  id_IntentID : string;
  id_GrantID : string;
  id_EffectCeiling : EffectClass
}.

(** Which of the optional interfaces a recorder implements. *)
Record Recorder := {
  rc_identified : bool;
  rc_authenticated : bool;
  rc_starter : bool;
  rc_strict_approvals : bool;
  rc_authenticated_approvals : bool;
  rc_approvals : bool;
  rc_results : bool
}.

Inductive Clock := NowClock | WallClock | ResolverClock.

Record CoordinatorConfig := {
  cc_BrainName : string;
  cc_Recorder : option Recorder;
  cc_Identity : option IdentityConfig;
  cc_PrincipalResolver : option Resolver;
  cc_StrictAuthority : bool;
  cc_EffectClassifier : option (string -> option EffectDescriptor);
  cc_Governance : option Governance;
  cc_BoundOperation : option (string -> string);
  cc_InvocationProbe : bool;
  cc_CloseClock : option Clock;
  cc_BeforeClose : bool;
  cc_BeforeRecord : bool;
  cc_BeforeIdentityFallback : bool
}.

(** The owner of an executor is known by its address. *)
Record Executor := {
  ex_tools : Registry;
  ex_perTool : duration;
  ex_config : CoordinatorConfig;
  ex_owner : nat
}.

Definition NewCoordinator (owner : nat) (tools : Registry) (perTool : duration)
    (config : CoordinatorConfig) : Executor :=
  {| ex_tools := tools; ex_perTool := perTool; ex_owner := owner;
     ex_config :=
       {| cc_BrainName := config.(cc_BrainName); cc_Recorder := config.(cc_Recorder);
          cc_Identity := config.(cc_Identity); cc_PrincipalResolver := config.(cc_PrincipalResolver);
          cc_StrictAuthority := config.(cc_StrictAuthority);
          cc_EffectClassifier := config.(cc_EffectClassifier);
          cc_Governance := config.(cc_Governance);
          cc_BoundOperation := Some (default (fun name => name) config.(cc_BoundOperation));
          cc_InvocationProbe := config.(cc_InvocationProbe);
          cc_CloseClock := Some (default NowClock config.(cc_CloseClock));
          cc_BeforeClose := config.(cc_BeforeClose); cc_BeforeRecord := config.(cc_BeforeRecord);
          cc_BeforeIdentityFallback := config.(cc_BeforeIdentityFallback) |} |}.

Definition New (owner : nat) (tools : Registry) (perTool : duration) : Executor :=
  NewCoordinator owner tools perTool
    {| cc_BrainName := ""; cc_Recorder := None; cc_Identity := None; cc_PrincipalResolver := None;
       cc_StrictAuthority := false; cc_EffectClassifier := None; cc_Governance := None;
       cc_BoundOperation := None; cc_InvocationProbe := false; cc_CloseClock := Some WallClock;
       cc_BeforeClose := false; cc_BeforeRecord := false; cc_BeforeIdentityFallback := false |}.

Definition Has (e : Executor) (name : string) : bool := bool_decide (is_Some (e.(ex_tools) !! name)).

Record DecisionPlan := {
  dp_owner : nat;
  dp_channel : string;
  dp_governed : bool;
  dp_decisions : gmap string ToolDecision.t
}.

(** A governed tool is shown to the model when it is allowed or rehearsed. *)
Definition advertised (decisions : gmap string ToolDecision.t) (name : string) : bool :=
  match decisions !! name with
  | Some d => bool_decide (d.(ToolDecision.Mode) = ToolAllow)
              || bool_decide (d.(ToolDecision.Mode) = ToolShadow)
  | None => false
  end.

Definition SelectTools (e : Executor) (channel : string)
    : Registry * DecisionPlan * option error :=
  match e.(ex_config).(cc_Governance) with
  | None => (e.(ex_tools),
             {| dp_owner := e.(ex_owner); dp_channel := channel; dp_governed := false;
                dp_decisions := ∅ |}, None)
  | Some g =>
      let plan decisions := {| dp_owner := e.(ex_owner); dp_channel := channel; dp_governed := true;
                               dp_decisions := decisions |} in
      match Policy.SelectTools g.(gv_Grants) g.(gv_Attrs)
              {| ToolQuery.Channel := channel; ToolQuery.Sensitivity := g.(gv_Sensitivity);
                 ToolQuery.Locality := g.(gv_Locality) |} with
      | Err err => (∅, plan ∅, Some err)
      | Ok decisions =>
          (filter (fun p => advertised decisions p.1 = true) e.(ex_tools),
           plan decisions, None)
      end
  end.

Definition Decisions (e : Executor) (plan : option DecisionPlan)
    : result (gmap string ToolDecision.t * bool) :=
  match plan with
  | Some p => if bool_decide (p.(dp_owner) = e.(ex_owner)) then Ok (p.(dp_decisions), p.(dp_governed))
              else Err ErrExecutionBindingMismatch
  | None => Err ErrExecutionBindingMismatch
  end.

Record Submission := {
  sb_Inbound : option Envelope.t;
  sb_Ingress : AuthenticatedIngress;
  sb_Lane : string;
  sb_Name : string;
  sb_Arguments : string;
  sb_Plan : option DecisionPlan
}.

(** A prepared request.  [rq_use] is the address of the claim that all its
    copies share. *)
Record Request := {
  rq_owner : nat;
  rq_plan : option DecisionPlan;
  rq_action : ActionEnvelope.t;
  rq_rawName : string;
  rq_args : string;
  rq_lane : string;
  rq_channel : string;
  rq_senderID : string;
  rq_ingress : AuthenticatedIngress;
  rq_evidence : option Evidence.t;
  rq_scope : Scope;
  rq_inbound : Envelope.t;
  rq_known : bool;
  rq_effectDeclared : bool;
  rq_use : option nat
}.

Definition Branch := string.
Definition BranchUnknown : Branch := "unknown".
Definition BranchEffectUndeclared : Branch := "effect_undeclared".
Definition BranchDenied : Branch := "denied".
Definition BranchShadowed : Branch := "shadowed".
Definition BranchPending : Branch := "pending".
Definition BranchExecuted : Branch := "executed".

Record Result := {
  rs_Action : option ActionEnvelope.t;
  rs_Name : string;
  rs_Arguments : string;
  rs_Branch : Branch;
  rs_Rule : string;
  rs_Decision : option ToolDecision.t;
  rs_Ungoverned : bool;
  rs_Output : string;
  rs_Latency : duration;
  rs_ApprovalID : string;
  rs_ToolError : option error;
  rs_RecordError : option error;
  rs_CloseError : option error;
  rs_IdentityFallback : bool;
  rs_AuthorizationIdentityError : bool;
  rs_ApprovalIdentityError : bool;
  rs_ApprovalError : option error
}.

(** The zero result. *)
Definition no_result : Result :=
  {| rs_Action := None; rs_Name := ""; rs_Arguments := ""; rs_Branch := ""; rs_Rule := "";
     rs_Decision := None; rs_Ungoverned := false; rs_Output := ""; rs_Latency := 0;
     rs_ApprovalID := ""; rs_ToolError := None; rs_RecordError := None; rs_CloseError := None;
     rs_IdentityFallback := false; rs_AuthorizationIdentityError := false;
     rs_ApprovalIdentityError := false; rs_ApprovalError := None |}.

(** Assignments to fields. *)
Definition set_Action (a : option ActionEnvelope.t) (r : Result) : Result :=
  {| rs_Action := a; rs_Name := r.(rs_Name); rs_Arguments := r.(rs_Arguments); rs_Branch :=
     r.(rs_Branch); rs_Rule := r.(rs_Rule); rs_Decision := r.(rs_Decision); rs_Ungoverned :=
     r.(rs_Ungoverned); rs_Output := r.(rs_Output); rs_Latency := r.(rs_Latency); rs_ApprovalID :=
     r.(rs_ApprovalID); rs_ToolError := r.(rs_ToolError); rs_RecordError := r.(rs_RecordError);
     rs_CloseError := r.(rs_CloseError); rs_IdentityFallback := r.(rs_IdentityFallback);
     rs_AuthorizationIdentityError := r.(rs_AuthorizationIdentityError); rs_ApprovalIdentityError :=
     r.(rs_ApprovalIdentityError); rs_ApprovalError := r.(rs_ApprovalError) |}.
Definition set_Branch (b : Branch) (rule : string) (r : Result) : Result :=
  {| rs_Action := r.(rs_Action); rs_Name := r.(rs_Name); rs_Arguments := r.(rs_Arguments); rs_Branch
     := b; rs_Rule := rule; rs_Decision := r.(rs_Decision); rs_Ungoverned := r.(rs_Ungoverned);
     rs_Output := r.(rs_Output); rs_Latency := r.(rs_Latency); rs_ApprovalID := r.(rs_ApprovalID);
     rs_ToolError := r.(rs_ToolError); rs_RecordError := r.(rs_RecordError); rs_CloseError :=
     r.(rs_CloseError); rs_IdentityFallback := r.(rs_IdentityFallback);
     rs_AuthorizationIdentityError := r.(rs_AuthorizationIdentityError); rs_ApprovalIdentityError :=
     r.(rs_ApprovalIdentityError); rs_ApprovalError := r.(rs_ApprovalError) |}.
Definition set_Decision (d : option ToolDecision.t) (r : Result) : Result :=
  {| rs_Action := r.(rs_Action); rs_Name := r.(rs_Name); rs_Arguments := r.(rs_Arguments); rs_Branch
     := r.(rs_Branch); rs_Rule := r.(rs_Rule); rs_Decision := d; rs_Ungoverned := r.(rs_Ungoverned);
     rs_Output := r.(rs_Output); rs_Latency := r.(rs_Latency); rs_ApprovalID := r.(rs_ApprovalID);
     rs_ToolError := r.(rs_ToolError); rs_RecordError := r.(rs_RecordError); rs_CloseError :=
     r.(rs_CloseError); rs_IdentityFallback := r.(rs_IdentityFallback);
     rs_AuthorizationIdentityError := r.(rs_AuthorizationIdentityError); rs_ApprovalIdentityError :=
     r.(rs_ApprovalIdentityError); rs_ApprovalError := r.(rs_ApprovalError) |}.
Definition set_Execution (output : string) (latency : duration) (err : option error) (r : Result) : Result :=
  {| rs_Action := r.(rs_Action); rs_Name := r.(rs_Name); rs_Arguments := r.(rs_Arguments); rs_Branch
     := r.(rs_Branch); rs_Rule := r.(rs_Rule); rs_Decision := r.(rs_Decision); rs_Ungoverned :=
     r.(rs_Ungoverned); rs_Output := output; rs_Latency := latency; rs_ApprovalID :=
     r.(rs_ApprovalID); rs_ToolError := err; rs_RecordError := r.(rs_RecordError); rs_CloseError :=
     r.(rs_CloseError); rs_IdentityFallback := r.(rs_IdentityFallback);
     rs_AuthorizationIdentityError := r.(rs_AuthorizationIdentityError); rs_ApprovalIdentityError :=
     r.(rs_ApprovalIdentityError); rs_ApprovalError := r.(rs_ApprovalError) |}.
Definition set_ApprovalID (id : string) (r : Result) : Result :=
  {| rs_Action := r.(rs_Action); rs_Name := r.(rs_Name); rs_Arguments := r.(rs_Arguments); rs_Branch
     := r.(rs_Branch); rs_Rule := r.(rs_Rule); rs_Decision := r.(rs_Decision); rs_Ungoverned :=
     r.(rs_Ungoverned); rs_Output := r.(rs_Output); rs_Latency := r.(rs_Latency); rs_ApprovalID :=
     id; rs_ToolError := r.(rs_ToolError); rs_RecordError := r.(rs_RecordError); rs_CloseError :=
     r.(rs_CloseError); rs_IdentityFallback := r.(rs_IdentityFallback);
     rs_AuthorizationIdentityError := r.(rs_AuthorizationIdentityError); rs_ApprovalIdentityError :=
     r.(rs_ApprovalIdentityError); rs_ApprovalError := r.(rs_ApprovalError) |}.
Definition set_RecordError (err : option error) (r : Result) : Result :=
  {| rs_Action := r.(rs_Action); rs_Name := r.(rs_Name); rs_Arguments := r.(rs_Arguments); rs_Branch
     := r.(rs_Branch); rs_Rule := r.(rs_Rule); rs_Decision := r.(rs_Decision); rs_Ungoverned :=
     r.(rs_Ungoverned); rs_Output := r.(rs_Output); rs_Latency := r.(rs_Latency); rs_ApprovalID :=
     r.(rs_ApprovalID); rs_ToolError := r.(rs_ToolError); rs_RecordError := err; rs_CloseError :=
     r.(rs_CloseError); rs_IdentityFallback := r.(rs_IdentityFallback);
     rs_AuthorizationIdentityError := r.(rs_AuthorizationIdentityError); rs_ApprovalIdentityError :=
     r.(rs_ApprovalIdentityError); rs_ApprovalError := r.(rs_ApprovalError) |}.
Definition set_CloseError (err : option error) (r : Result) : Result :=
  {| rs_Action := r.(rs_Action); rs_Name := r.(rs_Name); rs_Arguments := r.(rs_Arguments); rs_Branch
     := r.(rs_Branch); rs_Rule := r.(rs_Rule); rs_Decision := r.(rs_Decision); rs_Ungoverned :=
     r.(rs_Ungoverned); rs_Output := r.(rs_Output); rs_Latency := r.(rs_Latency); rs_ApprovalID :=
     r.(rs_ApprovalID); rs_ToolError := r.(rs_ToolError); rs_RecordError := r.(rs_RecordError);
     rs_CloseError := err; rs_IdentityFallback := r.(rs_IdentityFallback);
     rs_AuthorizationIdentityError := r.(rs_AuthorizationIdentityError); rs_ApprovalIdentityError :=
     r.(rs_ApprovalIdentityError); rs_ApprovalError := r.(rs_ApprovalError) |}.
Definition set_IdentityFallback (b : bool) (r : Result) : Result :=
  {| rs_Action := r.(rs_Action); rs_Name := r.(rs_Name); rs_Arguments := r.(rs_Arguments); rs_Branch
     := r.(rs_Branch); rs_Rule := r.(rs_Rule); rs_Decision := r.(rs_Decision); rs_Ungoverned :=
     r.(rs_Ungoverned); rs_Output := r.(rs_Output); rs_Latency := r.(rs_Latency); rs_ApprovalID :=
     r.(rs_ApprovalID); rs_ToolError := r.(rs_ToolError); rs_RecordError := r.(rs_RecordError);
     rs_CloseError := r.(rs_CloseError); rs_IdentityFallback := b; rs_AuthorizationIdentityError :=
     r.(rs_AuthorizationIdentityError); rs_ApprovalIdentityError := r.(rs_ApprovalIdentityError);
     rs_ApprovalError := r.(rs_ApprovalError) |}.
Definition set_AuthorizationIdentityError (b : bool) (r : Result) : Result :=
  {| rs_Action := r.(rs_Action); rs_Name := r.(rs_Name); rs_Arguments := r.(rs_Arguments); rs_Branch
     := r.(rs_Branch); rs_Rule := r.(rs_Rule); rs_Decision := r.(rs_Decision); rs_Ungoverned :=
     r.(rs_Ungoverned); rs_Output := r.(rs_Output); rs_Latency := r.(rs_Latency); rs_ApprovalID :=
     r.(rs_ApprovalID); rs_ToolError := r.(rs_ToolError); rs_RecordError := r.(rs_RecordError);
     rs_CloseError := r.(rs_CloseError); rs_IdentityFallback := r.(rs_IdentityFallback);
     rs_AuthorizationIdentityError := b; rs_ApprovalIdentityError := r.(rs_ApprovalIdentityError);
     rs_ApprovalError := r.(rs_ApprovalError) |}.
Definition set_ApprovalIdentityError (b : bool) (r : Result) : Result :=
  {| rs_Action := r.(rs_Action); rs_Name := r.(rs_Name); rs_Arguments := r.(rs_Arguments); rs_Branch
     := r.(rs_Branch); rs_Rule := r.(rs_Rule); rs_Decision := r.(rs_Decision); rs_Ungoverned :=
     r.(rs_Ungoverned); rs_Output := r.(rs_Output); rs_Latency := r.(rs_Latency); rs_ApprovalID :=
     r.(rs_ApprovalID); rs_ToolError := r.(rs_ToolError); rs_RecordError := r.(rs_RecordError);
     rs_CloseError := r.(rs_CloseError); rs_IdentityFallback := r.(rs_IdentityFallback);
     rs_AuthorizationIdentityError := r.(rs_AuthorizationIdentityError); rs_ApprovalIdentityError :=
     b; rs_ApprovalError := r.(rs_ApprovalError) |}.
Definition set_ApprovalError (err : option error) (r : Result) : Result :=
  {| rs_Action := r.(rs_Action); rs_Name := r.(rs_Name); rs_Arguments := r.(rs_Arguments); rs_Branch
     := r.(rs_Branch); rs_Rule := r.(rs_Rule); rs_Decision := r.(rs_Decision); rs_Ungoverned :=
     r.(rs_Ungoverned); rs_Output := r.(rs_Output); rs_Latency := r.(rs_Latency); rs_ApprovalID :=
     r.(rs_ApprovalID); rs_ToolError := r.(rs_ToolError); rs_RecordError := r.(rs_RecordError);
     rs_CloseError := r.(rs_CloseError); rs_IdentityFallback := r.(rs_IdentityFallback);
     rs_AuthorizationIdentityError := r.(rs_AuthorizationIdentityError); rs_ApprovalIdentityError :=
     r.(rs_ApprovalIdentityError); rs_ApprovalError := err |}.

Definition set_action (a : ActionEnvelope.t) (q : Request) : Request :=
  {| rq_owner := q.(rq_owner); rq_plan := q.(rq_plan); rq_action := a; rq_rawName := q.(rq_rawName);
     rq_args := q.(rq_args); rq_lane := q.(rq_lane); rq_channel := q.(rq_channel); rq_senderID :=
     q.(rq_senderID); rq_ingress := q.(rq_ingress); rq_evidence := q.(rq_evidence); rq_scope :=
     q.(rq_scope); rq_inbound := q.(rq_inbound); rq_known := q.(rq_known); rq_effectDeclared :=
     q.(rq_effectDeclared); rq_use := q.(rq_use) |}.
Definition set_evidence (e : option Evidence.t) (q : Request) : Request :=
  {| rq_owner := q.(rq_owner); rq_plan := q.(rq_plan); rq_action := q.(rq_action); rq_rawName :=
     q.(rq_rawName); rq_args := q.(rq_args); rq_lane := q.(rq_lane); rq_channel := q.(rq_channel);
     rq_senderID := q.(rq_senderID); rq_ingress := q.(rq_ingress); rq_evidence := e; rq_scope :=
     q.(rq_scope); rq_inbound := q.(rq_inbound); rq_known := q.(rq_known); rq_effectDeclared :=
     q.(rq_effectDeclared); rq_use := q.(rq_use) |}.

Definition set_EffectClass (c : string) (a : ActionEnvelope.t) : ActionEnvelope.t :=
  {| ActionEnvelope.SchemaVersion := a.(ActionEnvelope.SchemaVersion); ActionEnvelope.ActionID :=
     a.(ActionEnvelope.ActionID); ActionEnvelope.CorrelationID := a.(ActionEnvelope.CorrelationID);
     ActionEnvelope.Source := a.(ActionEnvelope.Source); ActionEnvelope.Operation :=
     a.(ActionEnvelope.Operation); ActionEnvelope.ParametersDigest :=
     a.(ActionEnvelope.ParametersDigest); ActionEnvelope.EffectClass := c;
     ActionEnvelope.RequestedAt := a.(ActionEnvelope.RequestedAt); ActionEnvelope.Principal :=
     a.(ActionEnvelope.Principal); ActionEnvelope.IntentID := a.(ActionEnvelope.IntentID);
     ActionEnvelope.AuthorityRefs := a.(ActionEnvelope.AuthorityRefs) |}.
Definition set_Principal (p : PrincipalRef.t) (a : ActionEnvelope.t) : ActionEnvelope.t :=
  {| ActionEnvelope.SchemaVersion := a.(ActionEnvelope.SchemaVersion); ActionEnvelope.ActionID :=
     a.(ActionEnvelope.ActionID); ActionEnvelope.CorrelationID := a.(ActionEnvelope.CorrelationID);
     ActionEnvelope.Source := a.(ActionEnvelope.Source); ActionEnvelope.Operation :=
     a.(ActionEnvelope.Operation); ActionEnvelope.ParametersDigest :=
     a.(ActionEnvelope.ParametersDigest); ActionEnvelope.EffectClass :=
     a.(ActionEnvelope.EffectClass); ActionEnvelope.RequestedAt := a.(ActionEnvelope.RequestedAt);
     ActionEnvelope.Principal := p; ActionEnvelope.IntentID := a.(ActionEnvelope.IntentID);
     ActionEnvelope.AuthorityRefs := a.(ActionEnvelope.AuthorityRefs) |}.
Definition set_Authority (intent : string) (refs : list string) (a : ActionEnvelope.t) : ActionEnvelope.t :=
  {| ActionEnvelope.SchemaVersion := a.(ActionEnvelope.SchemaVersion); ActionEnvelope.ActionID :=
     a.(ActionEnvelope.ActionID); ActionEnvelope.CorrelationID := a.(ActionEnvelope.CorrelationID);
     ActionEnvelope.Source := a.(ActionEnvelope.Source); ActionEnvelope.Operation :=
     a.(ActionEnvelope.Operation); ActionEnvelope.ParametersDigest :=
     a.(ActionEnvelope.ParametersDigest); ActionEnvelope.EffectClass :=
     a.(ActionEnvelope.EffectClass); ActionEnvelope.RequestedAt := a.(ActionEnvelope.RequestedAt);
     ActionEnvelope.Principal := a.(ActionEnvelope.Principal); ActionEnvelope.IntentID := intent;
     ActionEnvelope.AuthorityRefs := refs |}.
Definition set_ActionID (id : string) (a : ActionEnvelope.t) : ActionEnvelope.t :=
  {| ActionEnvelope.SchemaVersion := a.(ActionEnvelope.SchemaVersion); ActionEnvelope.ActionID :=
     id; ActionEnvelope.CorrelationID := a.(ActionEnvelope.CorrelationID); ActionEnvelope.Source :=
     a.(ActionEnvelope.Source); ActionEnvelope.Operation := a.(ActionEnvelope.Operation);
     ActionEnvelope.ParametersDigest := a.(ActionEnvelope.ParametersDigest);
     ActionEnvelope.EffectClass := a.(ActionEnvelope.EffectClass); ActionEnvelope.RequestedAt :=
     a.(ActionEnvelope.RequestedAt); ActionEnvelope.Principal := a.(ActionEnvelope.Principal);
     ActionEnvelope.IntentID := a.(ActionEnvelope.IntentID); ActionEnvelope.AuthorityRefs :=
     a.(ActionEnvelope.AuthorityRefs) |}.

(** ** The environment *)

(** [ResolveEvidence] of a request is asked by the store, with the action id it
    draws, at the resolver's time and with its random bytes. *)
Definition EvidenceResolver := string -> time -> string -> result Evidence.t.

Record AuthorityStartRequest := {
  asq_ActorPrincipalID : string;
  asq_CorrelationID : string;
  asq_SourceProtocol : string;
  asq_Channel : string;
  asq_ConversationID : string;
  asq_Operation : Operation.t;
  asq_Arguments : string;
  asq_EffectClass : EffectClass;
  asq_At : time;
  asq_ResolveEvidence : EvidenceResolver
}.

Record AuthorityStartResult := {
  asr_ActionID : string;
  asr_IntentID : string;
  asr_AuthorityRefs : list string;
  asr_Evidence : option Evidence.t
}.

Record AuthorityApprovalRequest := {
  aaq_Draft : ActionEnvelope.t;
  aaq_ActorPrincipalID : string;
  aaq_CorrelationID : string;
  aaq_SourceProtocol : string;
  aaq_Channel : string;
  aaq_ConversationID : string;
  aaq_Operation : Operation.t;
  aaq_Arguments : string;
  aaq_EffectClass : EffectClass;
  aaq_At : time;
  aaq_ResolveEvidence : EvidenceResolver
}.

Record AuthorityApprovalResult := {
  aar_ActionID : string;
  aar_ApprovalID : string;
  aar_IntentID : string;
  aar_AuthorityRefs : list string;
  aar_Evidence : Evidence.t
}.

(** What an observer is shown. *)
Inductive Observation :=
| ObserveRecord (r : Result)
| ObserveFallback (r : Result)
| ObserveInvocation (a : ActionEnvelope.t)
| ObserveClose (r : Result).

(** Everything a coordinator calls, over a world that moves with every call. *)
Class Environment (W : Type) := {
  env_clock : Clock -> W -> time * W;
  env_NewActionID : W -> string * W;
  env_random : W -> string * W;
  env_observe : Observation -> W -> unit * W;
  env_RecordAttempt : ActionEnvelope.t -> string -> string -> ActionState.State -> W -> option error * W;
  env_RecordAttemptIdentified :
    ActionEnvelope.t -> string -> string -> ActionState.State -> IdentityEvidence.t -> W -> option error * W;
  env_RecordAttemptAuthenticated :
    ActionEnvelope.t -> string -> string -> ActionState.State -> Evidence.t -> W -> option error * W;
  env_StartAuthorization : AuthorityStartRequest -> W -> result AuthorityStartResult * W;
  env_RequestAuthorizationApproval : AuthorityApprovalRequest -> W -> result AuthorityApprovalResult * W;
  env_RequestApprovalAuthenticated :
    ActionEnvelope.t -> string -> string -> Evidence.t -> W -> result string * W;
  env_RequestApproval : ActionEnvelope.t -> string -> string -> W -> result string * W;
  env_Finish : string -> ActionState.State -> time -> W -> option error * W;
  env_FinishWithResult : string -> ActionState.State -> time -> string -> W -> option error * W;
  env_Execute : string -> option Scope -> string -> duration -> W -> (string * option error) * W
}.

(** The approval store a resumption is given. *)
Class ApprovalStore (W : Type) := {
  aps_strict : bool;
  aps_ReadApproval : string -> W -> result Approval.t * W;
  aps_ReadActionState : string -> W -> result ActionState.State * W;
  aps_Claim : string -> Approval.t -> W -> result (string * Operation.t) * W;
  aps_StartApprovedAuthorization : string -> W -> result (string * Operation.t * string) * W;
  aps_Close : string -> ActionState.State -> time -> string -> W -> option error * W;
  aps_ReadReceipt : string -> W -> result string * W
}.

(** The calls that leave a mark. *)
Inductive event :=
| Observed (o : Observation)
| Recorded (a : ActionEnvelope.t) (outcome rule : string) (state : ActionState.State) (err : option error)
| Started (request : AuthorityStartRequest) (answer : result AuthorityStartResult)
| Parked (a : ActionEnvelope.t) (answer : result string)
| StrictlyParked (request : AuthorityApprovalRequest) (answer : result AuthorityApprovalResult)
| ApprovalRead (approvalID : string) (answer : result Approval.t)
| ActionRead (actionID : string) (answer : result ActionState.State)
| Claimed (approvalID : string) (answer : result (string * Operation.t * string))
| Executed (name : string) (scope : option Scope) (args : string) (out : string * option error)
| Closed (actionID : string) (state : ActionState.State) (at_ : time) (digest : option string)
    (err : option error).

Record St (W : Type) := {
  st_world : W;
  st_claimed : gset nat;
  st_uses : nat;
  st_trace : list event
}.
Arguments st_world {W}.
Arguments st_claimed {W}.
Arguments st_uses {W}.
Arguments st_trace {W}.

Definition M (W A : Type) := St W -> A * St W.
#[export] Instance m_ret W : MRet (M W) := fun A a s => (a, s).
#[export] Instance m_bind W : MBind (M W) := fun A B f m s => let '(a, s1) := m s in f a s1.

(** A call that leaves no mark, and one that does. *)
Definition quietly {W A} (op : W -> A * W) : M W A :=
  fun s => let '(a, w) := op s.(st_world) in
    (a, {| st_world := w; st_claimed := s.(st_claimed); st_uses := s.(st_uses);
           st_trace := s.(st_trace) |}).

Definition call {W A} (op : W -> A * W) (ev : A -> event) : M W A :=
  fun s => let '(a, w) := op s.(st_world) in
    (a, {| st_world := w; st_claimed := s.(st_claimed); st_uses := s.(st_uses);
           st_trace := s.(st_trace) ++ [ev a] |}).

(** [claimed.CompareAndSwap(false, true)]. *)
Definition claim {W} (use : nat) : M W bool :=
  fun s => if bool_decide (use ∈ s.(st_claimed)) then (false, s)
    else (true, {| st_world := s.(st_world); st_claimed := {[ use ]} ∪ s.(st_claimed);
                   st_uses := s.(st_uses); st_trace := s.(st_trace) |}).

Definition new_use {W} : M W nat :=
  fun s => (s.(st_uses), {| st_world := s.(st_world); st_claimed := s.(st_claimed);
                            st_uses := S s.(st_uses); st_trace := s.(st_trace) |}).

#[export] Instance source_eq_dec : EqDecision Source.t.
Proof. solve_decision. Defined.
#[export] Instance operation_eq_dec : EqDecision Operation.t.
Proof. solve_decision. Defined.

Section Coordinator.
Context {W : Type} `{!Environment W} (e : Executor).
Notation config := (e.(ex_config)).

(** ** Preparing a request *)

Definition bound_operation (name : string) : string :=
  default (fun name => name) config.(cc_BoundOperation) name.

(** The class a request is born with, and whether it was declared. *)
Definition classify (known : bool) (name : string) : EffectClass * bool :=
  match config.(cc_EffectClassifier) with
  | Some classifier =>
      if known then
        match classifier name with
        | Some d => (d.(Class), true)
        | None => ("unclassified", false)
        end
      else ("unclassified", true)
  | None => ("unclassified", true)
  end.

Definition tool_operation (name : string) : Operation.t :=
  {| Operation.Namespace := "tool"; Operation.Name := name; Operation.Version := 1 |}.

Definition agent_source (lane channel : string) : Source.t :=
  {| Source.Kind := "agent_brain"; Source.Protocol := lane; Source.Channel := channel |}.

Definition Prepare (s : Submission) : M W (result Request) :=
  match s.(sb_Inbound), s.(sb_Plan) with
  | Some inbound, Some plan =>
      if bool_decide (plan.(dp_owner) <> e.(ex_owner))
         || bool_decide (plan.(dp_channel) <> inbound.(Envelope.Channel))
      then mret (Err ErrExecutionBindingMismatch)
      else
        let known := Has e s.(sb_Name) in
        let name := if known then s.(sb_Name) else bound_operation s.(sb_Name) in
        let '(class, declared) := classify known s.(sb_Name) in
        id ← quietly env_NewActionID;
        now ← quietly (env_clock NowClock);
        use ← new_use;
        let canonical := set_EffectClass class
          (NewEnvelope id inbound.(Envelope.ID)
             (agent_source s.(sb_Lane) inbound.(Envelope.Channel)) (tool_operation name)
             s.(sb_Arguments) now) in
        mret (Ok {| rq_owner := e.(ex_owner); rq_plan := Some plan; rq_action := canonical;
                    rq_rawName := s.(sb_Name); rq_args := s.(sb_Arguments); rq_lane := s.(sb_Lane);
                    rq_channel := inbound.(Envelope.Channel);
                    rq_senderID := inbound.(Envelope.Sender).(Participant.ID);
                    rq_ingress := s.(sb_Ingress); rq_evidence := None;
                    rq_scope := {| sc_Brain := config.(cc_BrainName);
                                   sc_Conversation := match KeyFromEnvelope (Some inbound) with
                                                      | Ok key => key
                                                      | Err _ => ""
                                                      end |};
                    rq_inbound := inbound; rq_known := known; rq_effectDeclared := declared;
                    rq_use := Some use |})
  | _, _ => mret (Err ErrExecutionBindingMismatch)
  end.

(** ** Admitting it *)

(** A request of this executor whose sealed inputs still agree, with its plan
    and its claim. *)
Definition validateRequest (request : option Request) : option (Request * DecisionPlan * nat) :=
  match request with
  | Some q =>
      match q.(rq_use), q.(rq_plan) with
      | Some use, Some plan =>
          if bool_decide (q.(rq_owner) <> e.(ex_owner)) || bool_decide (plan.(dp_owner) <> e.(ex_owner))
             || bool_decide (plan.(dp_channel) <> q.(rq_channel)) then None
          else
            let wantName := if q.(rq_known) then q.(rq_rawName) else bound_operation q.(rq_rawName) in
            let a := q.(rq_action) in
            if bool_decide (a.(ActionEnvelope.ActionID) = "")
               || bool_decide (a.(ActionEnvelope.Operation) <> tool_operation wantName)
               || bool_decide (a.(ActionEnvelope.Source) <> agent_source q.(rq_lane) q.(rq_channel))
               || bool_decide (a.(ActionEnvelope.ParametersDigest)
                               <> Digest a.(ActionEnvelope.Operation) q.(rq_args)) then None
            else Some (q, plan, use)
      | _, _ => None
      end
  | None => None
  end.

(** The evidence of a request for one action id. *)
Definition resolve_evidence (r : Resolver) (q : Request) : EvidenceResolver :=
  fun actionID now rand16 =>
    Resolve r q.(rq_ingress)
      {| rq_ActionID := actionID; rq_RequestID := q.(rq_inbound).(Envelope.ID);
         rq_Channel := q.(rq_channel); rq_Brain := config.(cc_BrainName) |} now rand16.

Definition principal_of (evidence : Evidence.t) : PrincipalRef.t :=
  {| PrincipalRef.PrincipalID := evidence.(Evidence.ActorPrincipalID);
     PrincipalRef.EvidenceID := evidence.(Evidence.EvidenceID);
     PrincipalRef.ResponsibleHumanID := evidence.(Evidence.ResponsiblePrincipalID) |}.

(** With a resolver, the request is bound to the evidence of its ingress. *)
Definition bind_evidence (q : Request) : M W (result Request) :=
  match config.(cc_PrincipalResolver) with
  | None => mret (Ok q)
  | Some r =>
      now ← quietly (env_clock ResolverClock);
      rand16 ← quietly env_random;
      match resolve_evidence r q q.(rq_action).(ActionEnvelope.ActionID) now rand16 with
      | Err err => mret (Err err)
      | Ok evidence => mret (Ok (set_action (set_Principal (principal_of evidence) q.(rq_action))
                                   (set_evidence (Some evidence) q)))
      end
  end.

(** The class of the durable record is the registry's, asked again. *)
Definition refreshDurableEffect (q : Request) : Request :=
  match config.(cc_EffectClassifier), config.(cc_Recorder) with
  | Some classifier, Some _ =>
      set_action (set_EffectClass
        match classifier q.(rq_action).(ActionEnvelope.Operation).(Operation.Name) with
        | Some d => d.(Class)
        | None => "unclassified"
        end q.(rq_action)) q
  | _, _ => q
  end.

Definition authority_refs (rule : string) (identity : IdentityConfig) (a : ActionEnvelope.t)
    : list string :=
  if bool_decide (rule = "granted") && bool_decide (identity.(id_GrantID) <> "")
  then [identity.(id_GrantID)] else a.(ActionEnvelope.AuthorityRefs).

Definition bindAuthority (rule : string) (a : ActionEnvelope.t) : ActionEnvelope.t :=
  match config.(cc_Identity) with
  | None => a
  | Some identity => set_Authority identity.(id_IntentID) (authority_refs rule identity a) a
  end.

Definition no_identity : IdentityEvidence.t :=
  {| IdentityEvidence.EvidenceID := ""; IdentityEvidence.Provider := ""; IdentityEvidence.Subject := "";
     IdentityEvidence.Credential := ""; IdentityEvidence.IssuedAt := 0;
     IdentityEvidence.TransportBinding := ""; IdentityEvidence.ClaimsDigest := "" |}.

(** The version 1 identity of an action; [None] without a provenance. *)
Definition bindIdentity (q : Request) (rule : string) (a : ActionEnvelope.t)
    : M W (option (IdentityEvidence.t * ActionEnvelope.t)) :=
  match config.(cc_Identity) with
  | None => mret (Some (no_identity, a))
  | Some identity =>
      now ← quietly (env_clock NowClock);
      rand16 ← quietly env_random;
      match ResolvePrincipal rand16 identity.(id_Registry) q.(rq_channel) q.(rq_senderID) now with
      | Err _ => mret None
      | Ok (_, evidence) =>
          let brain := BrainPrincipal config.(cc_BrainName) in
          let p := {| PrincipalRef.PrincipalID := brain.(Principal.PrincipalID);
                      PrincipalRef.EvidenceID := evidence.(IdentityEvidence.EvidenceID);
                      PrincipalRef.ResponsibleHumanID := brain.(Principal.ResponsibleHumanID) |} in
          let a := set_Principal p a in
          mret (Some (evidence, set_Authority identity.(id_IntentID) (authority_refs rule identity a) a))
      end
  end.

(** ** Recording *)

Definition observe (wired : bool) (o : Observation) : M W unit :=
  if wired then call (env_observe o) (fun _ => Observed o) else mret tt.

Definition observeDecision (r : Result) : M W unit := observe config.(cc_BeforeRecord) (ObserveRecord r).

Definition record (a : ActionEnvelope.t) (outcome rule : string) (state : ActionState.State)
    : M W (option error) :=
  call (env_RecordAttempt a outcome rule state) (Recorded a outcome rule state).
Definition record_identified (a : ActionEnvelope.t) (outcome rule : string) (state : ActionState.State)
    (evidence : IdentityEvidence.t) : M W (option error) :=
  call (env_RecordAttemptIdentified a outcome rule state evidence) (Recorded a outcome rule state).
Definition record_authenticated (a : ActionEnvelope.t) (outcome rule : string) (state : ActionState.State)
    (evidence : Evidence.t) : M W (option error) :=
  call (env_RecordAttemptAuthenticated a outcome rule state evidence) (Recorded a outcome rule state).

(** A decision that runs nothing, recorded as well as it can be. *)
Definition recordAttempt (q : Request) (r : Result) (outcome rule : string) (state : ActionState.State)
    : M W Result :=
  match config.(cc_Recorder) with
  | None => mret r
  | Some recorder =>
      let q := refreshDurableEffect q in
      match q.(rq_evidence) with
      | Some evidence =>
          let a := bindAuthority rule q.(rq_action) in
          let r := set_Action (Some a) r in
          if recorder.(rc_authenticated) then
            err ← record_authenticated a outcome rule state evidence;
            mret (set_RecordError err r)
          else mret (set_RecordError (Some ErrIdentityEvidenceMissing) r)
      | None =>
          let r := set_Action (Some q.(rq_action)) r in
          identified ← (if bool_decide (is_Some config.(cc_Identity)) && recorder.(rc_identified)
                        then bindIdentity q rule q.(rq_action) else mret None);
          match identified with
          | Some (evidence, a) =>
              err ← record_identified a outcome rule state evidence;
              mret (set_RecordError err (set_Action (Some a) r))
          | None =>
              let fallback := bool_decide (is_Some config.(cc_Identity)) && recorder.(rc_identified) in
              let r := if fallback then set_IdentityFallback true r else r in
              observe (fallback && config.(cc_BeforeIdentityFallback)) (ObserveFallback r);;
              err ← record q.(rq_action) outcome rule state;
              mret (set_RecordError err r)
          end
      end
  end.

(** The strict start: the store mints the action and answers for it. *)
Definition strict_start (q : Request) (r : Result) : M W (Request * Result * bool) :=
  match config.(cc_Recorder), config.(cc_PrincipalResolver) with
  | Some recorder, Some resolver =>
      if recorder.(rc_starter) then
        let q := refreshDurableEffect q in
        now ← quietly (env_clock NowClock);
        let a := q.(rq_action) in
        let start := {| asq_ActorPrincipalID := a.(ActionEnvelope.Principal).(PrincipalRef.PrincipalID);
          asq_CorrelationID := q.(rq_inbound).(Envelope.ID); asq_SourceProtocol := q.(rq_lane);
          asq_Channel := q.(rq_channel); asq_ConversationID := q.(rq_scope).(sc_Conversation);
          asq_Operation := a.(ActionEnvelope.Operation); asq_Arguments := q.(rq_args);
          asq_EffectClass := a.(ActionEnvelope.EffectClass); asq_At := now;
          asq_ResolveEvidence := resolve_evidence resolver q |} in
        answer ← call (env_StartAuthorization start) (Started start);
        match answer with
        | Err err => mret (q, set_RecordError (Some err) r, false)
        | Ok started =>
            let a := set_Authority started.(asr_IntentID) started.(asr_AuthorityRefs)
                       (set_ActionID started.(asr_ActionID) a) in
            let q := match started.(asr_Evidence) with
                     | Some evidence =>
                         set_action (set_Principal (principal_of evidence) a)
                           (set_evidence (Some evidence) q)
                     | None => set_action a q
                     end in
            mret (q, set_Action (Some q.(rq_action)) r, true)
        end
      else mret (q, set_RecordError (Some ErrAuthorityEvidenceCorrupt) r, false)
  | _, _ => mret (q, set_RecordError (Some ErrIdentityEvidenceMissing)
                       (set_AuthorizationIdentityError true r), false)
  end.

(** Whether an authorization is on record, and of which action. *)
Definition recordAuthorized (q : Request) (r : Result) (rule : string) : M W (Request * Result * bool) :=
  if config.(cc_StrictAuthority)
     && bool_decide (q.(rq_action).(ActionEnvelope.EffectClass) <> EffectPure)
  then strict_start q r
  else
    match config.(cc_Recorder) with
    | None => mret (q, r, true)
    | Some recorder =>
        let q := refreshDurableEffect q in
        match q.(rq_evidence) with
        | Some evidence =>
            let a := bindAuthority rule q.(rq_action) in
            let r := set_Action (Some a) r in
            if recorder.(rc_authenticated) then
              err ← record_authenticated a "allow" rule ActionState.StateAuthorized evidence;
              mret (q, match err with None => r | Some _ => set_RecordError err r end,
                    bool_decide (err = None :> option error))
            else mret (q, set_RecordError (Some ErrIdentityEvidenceMissing)
                            (set_AuthorizationIdentityError true r), false)
        | None =>
            let r := set_Action (Some q.(rq_action)) r in
            if bool_decide (is_Some config.(cc_Identity)) && recorder.(rc_identified) then
              identified ← bindIdentity q rule q.(rq_action);
              match identified with
              | None => mret (q, set_AuthorizationIdentityError true r, false)
              | Some (evidence, a) =>
                  let r := set_Action (Some a) r in
                  err ← record_identified a "allow" rule ActionState.StateAuthorized evidence;
                  mret (q, match err with None => r | Some _ => set_RecordError err r end,
                        bool_decide (err = None :> option error))
              end
            else
              err ← record q.(rq_action) "allow" rule ActionState.StateAuthorized;
              mret (q, match err with None => r | Some _ => set_RecordError err r end,
                    bool_decide (err = None :> option error))
        end
    end.

(** ** Gates *)

Definition effectGateRule (class ceiling : EffectClass) (requiresPrepare : bool) : string :=
  let over := bool_decide (ceiling <> "") && (Rank ceiling <? Rank class) in
  let grave := bool_decide (ceiling <> "")
               && (bool_decide (class = EffectWriteIrreversible) || bool_decide (class = EffectCritical)) in
  if over then "effect_ceiling"
  else if grave then "approval_unavailable"
  else if requiresPrepare then "prepare_unavailable" else "".

(** A refusal or a rehearsal by the registry or the plan. *)
Record refusal := {
  rf_branch : Branch;
  rf_rule : string;
  rf_outcome : string;
  rf_state : ActionState.State;
  rf_error : option error
}.

Definition deny_as (b : Branch) (rule : string) (err : option error) : refusal :=
  {| rf_branch := b; rf_rule := rule; rf_outcome := "deny"; rf_state := ActionState.StateDenied;
     rf_error := err |}.

Definition plan_gate (q : Request) (plan : DecisionPlan) : option refusal :=
  if negb q.(rq_known) then Some (deny_as BranchUnknown "unknown_tool" (Some ErrUnknownTool))
  else if bool_decide (is_Some config.(cc_EffectClassifier)) && negb q.(rq_effectDeclared)
  then Some (deny_as BranchEffectUndeclared "effect_undeclared" None)
  else if plan.(dp_governed) then
    match plan.(dp_decisions) !! q.(rq_rawName) with
    | Some d =>
        if bool_decide (d.(ToolDecision.Mode) = ToolShadow)
        then Some {| rf_branch := BranchShadowed; rf_rule := "shadow"; rf_outcome := "shadow";
                     rf_state := ActionState.StateShadowed; rf_error := None |}
        else if bool_decide (d.(ToolDecision.Mode) <> ToolAllow)
        then Some (deny_as BranchDenied d.(ToolDecision.Rule) None)
        else None
    | None => Some (deny_as BranchDenied ToolRuleNotGranted None)
    end
  else None.

(** The decision of a governed plan, for a tool the registry knows. *)
Definition plan_decision (q : Request) (plan : DecisionPlan) : option ToolDecision.t :=
  if plan.(dp_governed) && q.(rq_known)
     && negb (bool_decide (is_Some config.(cc_EffectClassifier)) && negb q.(rq_effectDeclared))
  then plan.(dp_decisions) !! q.(rq_rawName) else None.

Definition refuse (q : Request) (r : Result) (x : refusal) : M W (Result * option error) :=
  let r := set_Branch x.(rf_branch) x.(rf_rule) r in
  observeDecision r;;
  r ← recordAttempt q r x.(rf_outcome) x.(rf_rule) x.(rf_state);
  mret (r, x.(rf_error)).

Definition pending (approvalID : string) (a : ActionEnvelope.t) (r : Result) : Result :=
  set_ApprovalID approvalID (set_Branch BranchPending "require_approval" (set_Action (Some a) r)).

(** Asking a human: the answer, or the mark the refusal carries. *)
Definition park (q : Request) (class : EffectClass) (r : Result) : M W (Result * bool) :=
  let recorder := config.(cc_Recorder) in
  if config.(cc_StrictAuthority) then
    match recorder, config.(cc_PrincipalResolver), q.(rq_evidence) with
    | Some rec, Some resolver, Some evidence =>
        if rec.(rc_strict_approvals) then
          now ← quietly (env_clock NowClock);
          let a := q.(rq_action) in
          let ask := {| aaq_Draft := a;
            aaq_ActorPrincipalID := evidence.(Evidence.ActorPrincipalID);
            aaq_CorrelationID := q.(rq_inbound).(Envelope.ID); aaq_SourceProtocol := q.(rq_lane);
            aaq_Channel := q.(rq_channel); aaq_ConversationID := q.(rq_scope).(sc_Conversation);
            aaq_Operation := a.(ActionEnvelope.Operation); aaq_Arguments := q.(rq_args);
            aaq_EffectClass := class; aaq_At := now;
            aaq_ResolveEvidence := resolve_evidence resolver q |} in
          answer ← call (env_RequestAuthorizationApproval ask) (StrictlyParked ask);
          match answer with
          | Err err => mret (set_ApprovalError (Some err) r, false)
          | Ok parked =>
              let a := set_Principal (principal_of parked.(aar_Evidence))
                         (set_Authority parked.(aar_IntentID) parked.(aar_AuthorityRefs)
                            (set_ActionID parked.(aar_ActionID) a)) in
              mret (pending parked.(aar_ApprovalID) a r, true)
          end
        else mret (set_ApprovalIdentityError true r, false)
    | _, _, _ => mret (set_ApprovalIdentityError true r, false)
    end
  else
    match q.(rq_evidence) with
    | Some evidence =>
        if match recorder with Some rec => rec.(rc_authenticated_approvals) | None => false end then
          let a := bindAuthority "require_approval" (refreshDurableEffect q).(rq_action) in
          answer ← call (env_RequestApprovalAuthenticated a "require_approval" q.(rq_args) evidence) (Parked a);
          match answer with
          | Err err => mret (set_ApprovalError (Some err) r, false)
          | Ok id => mret (pending id a r, true)
          end
        else mret (set_ApprovalIdentityError true r, false)
    | None =>
        if match recorder with Some rec => rec.(rc_approvals) | None => false end then
          let q := refreshDurableEffect q in
          identified ← bindIdentity q "require_approval" q.(rq_action);
          match identified with
          | None => mret (set_ApprovalIdentityError true r, false)
          | Some (_, a) =>
              answer ← call (env_RequestApproval a "require_approval" q.(rq_args)) (Parked a);
              match answer with
              | Err err => mret (set_ApprovalError (Some err) r, false)
              | Ok id => mret (pending id a r, true)
              end
          end
        else mret (r, false)
    end.

(** The class and the rule of the effect gate, with an identity and a classifier. *)
Definition effect_gate (q : Request) : option (option EffectDescriptor * string) :=
  match config.(cc_Identity), config.(cc_EffectClassifier) with
  | Some identity, Some classifier =>
      let descriptor := classifier q.(rq_rawName) in
      Some (descriptor, match descriptor with
                        | Some d => effectGateRule d.(Class) identity.(id_EffectCeiling) false
                        | None => ""
                        end)
  | _, _ => None
  end.

(** ** Running the tool *)

Record invocationCapability := {
  iv_action : ActionEnvelope.t;
  iv_toolName : string;
  iv_args : string;
  iv_scope : Scope
}.

Record executionResult := {
  er_output : string;
  er_latency : duration;
  er_toolErr : option error;
  er_outcome : ActionState.State;
  er_digest : string;
  er_closeErr : option error
}.

Definition closeExecution := string -> ActionState.State -> time -> string -> M W (option error).

(** The only definition that runs a tool. *)
Definition dispatch (name : string) (scope : Scope) (args : string)
    : M W (string * duration * option error) :=
  match e.(ex_tools) !! name with
  | None => mret ("", 0, Some ErrUnknownTool)
  | Some scoped =>
      start ← quietly (env_clock NowClock);
      let scope := if scoped : bool then Some scope else None in
      out ← call (env_Execute name scope args e.(ex_perTool)) (Executed name scope args);
      now ← quietly (env_clock NowClock);
      mret (out.1, now - start, out.2)
  end.

Definition invokeAndClose (c : invocationCapability) (close : option closeExecution)
    (beforeClose : executionResult -> M W unit) : M W executionResult :=
  observe config.(cc_InvocationProbe) (ObserveInvocation c.(iv_action));;
  '(output, latency, toolErr) ← dispatch c.(iv_toolName) c.(iv_scope) c.(iv_args);
  let outcome := CloseStateAfterRun toolErr in
  let digest := if bool_decide (outcome = ActionState.StateSucceeded) then HashCanonical output else "" in
  let done closeErr := {| er_output := output; er_latency := latency; er_toolErr := toolErr;
                          er_outcome := outcome; er_digest := digest; er_closeErr := closeErr |} in
  beforeClose (done None);;
  match close with
  | None => mret (done None)
  | Some close =>
      at_ ← quietly (env_clock (default NowClock config.(cc_CloseClock)));
      err ← close c.(iv_action).(ActionEnvelope.ActionID) outcome at_ digest;
      mret (done err)
  end.

Definition immediateCloser : option closeExecution :=
  match config.(cc_Recorder) with
  | None => None
  | Some recorder => Some (fun id state at_ digest =>
      if bool_decide (id = "") then mret None
      else if recorder.(rc_results)
      then call (env_FinishWithResult id state at_ digest) (Closed id state at_ (Some digest))
      else call (env_Finish id state at_) (Closed id state at_ None))
  end.

Definition executed (r : Result) (x : executionResult) : Result :=
  set_Execution x.(er_output) x.(er_latency) x.(er_toolErr) r.

Definition run_request (q : Request) (r : Result) (rule : string) : M W (Result * option error) :=
  let r := set_Branch BranchExecuted rule r in
  x ← invokeAndClose {| iv_action := default q.(rq_action) r.(rs_Action); iv_toolName := q.(rq_rawName);
                        iv_args := q.(rq_args); iv_scope := q.(rq_scope) |}
        immediateCloser (fun x => observe config.(cc_BeforeClose) (ObserveClose (executed r x)));
  mret (set_CloseError x.(er_closeErr) (executed r x), x.(er_toolErr)).

(** ** Submitting *)

(** Past the plan: the effect gate, the authorization, the run. *)
(** The class of the durable record is the gate's. *)
Definition gated (q : Request) : Request :=
  match effect_gate q with
  | Some (d, _) => set_action (set_EffectClass (match d with Some d => d.(Class)
                                                | None => "unclassified" end) q.(rq_action)) q
  | None => q
  end.

Definition admit_past_plan (q : Request) (plan : DecisionPlan) (r : Result) : M W (Result * option error) :=
  let gate := effect_gate q in
  let q := gated q in
  let r := match gate with Some _ => set_Action (Some q.(rq_action)) r | None => r end in
  let rule := match gate with Some (_, rule) => rule | None => "" end in
  if bool_decide (rule <> "") then
    '(r, parked) ← (if bool_decide (rule = "approval_unavailable") then
                      park q (match gate with Some (Some d, _) => d.(Class) | _ => "" end) r
                    else mret (r, false));
    if parked : bool then mret (r, None)
    else refuse q r (deny_as BranchDenied rule None)
  else
    let rule := if plan.(dp_governed) then "granted" else "ungoverned" in
    '(q, r, ok) ← recordAuthorized q r rule;
    if ok : bool then run_request q r rule
    else
      let r := set_Branch BranchDenied "record_failed" r in
      observeDecision r;;
      mret (r, None).

Definition Submit (request : option Request) : M W (Result * option error) :=
  match validateRequest request with
  | None => mret (no_result, Some ErrExecutionBindingMismatch)
  | Some (q, plan, use) =>
      fresh ← claim use;
      if fresh : bool then
        let r := {| rs_Action := Some q.(rq_action); rs_Name := q.(rq_rawName);
                    rs_Arguments := q.(rq_args); rs_Branch := ""; rs_Rule := ""; rs_Decision := None;
                    rs_Ungoverned := negb plan.(dp_governed); rs_Output := ""; rs_Latency := 0;
                    rs_ApprovalID := ""; rs_ToolError := None; rs_RecordError := None;
                    rs_CloseError := None; rs_IdentityFallback := false;
                    rs_AuthorizationIdentityError := false; rs_ApprovalIdentityError := false;
                    rs_ApprovalError := None |} in
        bound ← bind_evidence q;
        match bound with
        | Err err => mret (r, Some err)
        | Ok q =>
            let r := set_Decision (plan_decision q plan) (set_Action (Some q.(rq_action)) r) in
            match plan_gate q plan with
            | Some x => refuse q r x
            | None => admit_past_plan q plan r
            end
        end
      else mret (no_result, Some ErrExecutionAlreadySubmitted)
  end.

(** ** Resuming an approved action *)

Definition ResumeStage := string.
Definition ResumeReadApproval : ResumeStage := "read_approval".
Definition ResumeApprovalPending : ResumeStage := "approval_pending".
Definition ResumeApprovalClosed : ResumeStage := "approval_closed".
Definition ResumeReadAction : ResumeStage := "read_action".
Definition ResumeActionClosed : ResumeStage := "action_closed".
Definition ResumeClaim : ResumeStage := "claim".
Definition ResumeClose : ResumeStage := "close".
Definition ResumeReadReceipt : ResumeStage := "read_receipt".

(** [re_Err] alone is unwrapped; a stage without one judged what it read. *)
Record ResumeError := {
  re_Stage : ResumeStage;
  re_ApprovalID : string;
  re_ActionID : string;
  re_Status : ApprovalStatus;
  re_State : ActionState.State;
  re_Err : option error
}.

Record ApprovedResult := {
  ap_Result : string;
  ap_ResultDigest : string;
  ap_ReceiptID : string;
  ap_Operation : Operation.t;
  ap_Outcome : ActionState.State;
  ap_ToolError : option error
}.

Definition stage (s : ResumeStage) (approvalID actionID : string) (err : option error) : ResumeError :=
  {| re_Stage := s; re_ApprovalID := approvalID; re_ActionID := actionID; re_Status := "";
                  re_State := ""; re_Err := err |}.

Context `{!ApprovalStore W}.

Definition approved_envelope (actionID : string) (op : Operation.t) (params : string) : ActionEnvelope.t :=
  {| ActionEnvelope.SchemaVersion := 0; ActionEnvelope.ActionID := actionID;
     ActionEnvelope.CorrelationID := "";
     ActionEnvelope.Source := {| Source.Kind := ""; Source.Protocol := ""; Source.Channel := "" |};
     ActionEnvelope.Operation := op; ActionEnvelope.ParametersDigest := Digest op params;
     ActionEnvelope.EffectClass := ""; ActionEnvelope.RequestedAt := 0;
     ActionEnvelope.Principal := {| PrincipalRef.PrincipalID := ""; PrincipalRef.EvidenceID := "";
                                    PrincipalRef.ResponsibleHumanID := "" |};
     ActionEnvelope.IntentID := ""; ActionEnvelope.AuthorityRefs := [] |}.

Definition store_close : closeExecution :=
  fun id state at_ digest => call (aps_Close id state at_ digest) (Closed id state at_ (Some digest)).

(** The claim that hands over the operation and the bytes it judged: the
    strict start, or the plain one. *)
Definition claim_approved (approvalID : string) (a : Approval.t)
    : M W (result (string * Operation.t * string)) :=
  if config.(cc_StrictAuthority) then
    if aps_strict then call (aps_StartApprovedAuthorization approvalID) (Claimed approvalID)
    else mret (Err ErrAuthorityEvidenceCorrupt)
  else
    call (fun w => let '(answer, w) := aps_Claim approvalID a w in
                   (match answer with
                    | Ok (params, op) => Ok (params, op, a.(Approval.ActionID))
                    | Err err => Err err
                    end, w)) (Claimed approvalID).

Definition run_approved (approvalID params actionID : string) (op : Operation.t)
    : M W (ApprovedResult + ResumeError) :=
  x ← invokeAndClose {| iv_action := approved_envelope actionID op params; iv_toolName := op.(Operation.Name);
                        iv_args := params; iv_scope := {| sc_Brain := ""; sc_Conversation := "" |} |}
        (Some store_close) (fun _ => mret tt);
  match x.(er_closeErr) with
  | Some err => mret (inr (stage ResumeClose approvalID actionID (Some err)))
  | None =>
      receipt ← quietly (aps_ReadReceipt approvalID);
      match receipt with
      | Err err => mret (inr (stage ResumeReadReceipt approvalID actionID (Some err)))
      | Ok id => mret (inl {| ap_Result := x.(er_output); ap_ResultDigest := x.(er_digest);
                              ap_ReceiptID := id; ap_Operation := op; ap_Outcome := x.(er_outcome);
                              ap_ToolError := x.(er_toolErr) |})
      end
  end.

Definition ResumeApproved (approvalID : string) : M W (ApprovedResult + ResumeError) :=
  read ← call (aps_ReadApproval approvalID) (ApprovalRead approvalID);
  match read with
  | Err err => mret (inr (stage ResumeReadApproval approvalID "" (Some err)))
  | Ok a =>
      let closed s status state := {| re_Stage := s; re_ApprovalID := approvalID; re_ActionID := a.(Approval.ActionID);
           re_Status := status; re_State := state; re_Err := None |} in
      if bool_decide (a.(Approval.Status) = ApprovalPending)
      then mret (inr (closed ResumeApprovalPending a.(Approval.Status) ""))
      else if bool_decide (a.(Approval.Status) <> ApprovalApproved)
      then mret (inr (closed ResumeApprovalClosed a.(Approval.Status) ""))
      else
        state ← call (aps_ReadActionState a.(Approval.ActionID)) (ActionRead a.(Approval.ActionID));
        match state with
        | Err err => mret (inr (stage ResumeReadAction approvalID a.(Approval.ActionID) (Some err)))
        | Ok state =>
            if bool_decide (state <> ActionState.StateApproved)
            then mret (inr (closed ResumeActionClosed "" state))
            else
              answer ← claim_approved approvalID a;
              match answer with
              | Err err => mret (inr (stage ResumeClaim approvalID a.(Approval.ActionID) (Some err)))
              | Ok (params, op, actionID) => run_approved approvalID params actionID op
              end
        end
  end.

End Coordinator.

(** ** What a call leaves behind *)

Section Traces.
Context {W : Type} `{!Environment W}.

Lemma m_bind_inv {A B} (m : M W A) (f : A -> M W B) s b s' :
  (m ≫= f) s = (b, s') -> exists a s1, m s = (a, s1) /\ f a s1 = (b, s').
Proof. unfold mbind, m_bind. destruct (m s) as [a s1]. by exists a, s1. Qed.

(** The trace grows by [l], the claims are as they were. *)
Definition adds (l : list event) (s s' : St W) : Prop :=
  s'.(st_trace) = s.(st_trace) ++ l /\ s'.(st_claimed) = s.(st_claimed) /\ s'.(st_uses) = s.(st_uses).

Lemma adds_nil s : adds [] s s.
Proof. split; [by rewrite app_nil_r|done]. Qed.

Lemma adds_trans l1 l2 s1 s2 s3 : adds l1 s1 s2 -> adds l2 s2 s3 -> adds (l1 ++ l2) s1 s3.
Proof.
  intros (T1 & C1 & U1) (T2 & C2 & U2). split; [by rewrite T2, T1, app_assoc|]. by rewrite C2, U2, C1, U1.
Qed.

(** Every mark the call leaves is of a kind. *)
Class Leaves {A} (P : event -> Prop) (m : M W A) :=
  leaves : forall s a s', m s = (a, s') -> exists l, adds l s s' /\ Forall P l.

#[export] Instance ret_leaves {A} P (a : A) : Leaves P (mret a : M W A).
Proof. intros s b s' [= <- <-]. exists []. split; [apply adds_nil|constructor]. Qed.
#[export] Instance bind_leaves {A B} P (m : M W A) (f : A -> M W B) :
  Leaves P m -> (forall a, Leaves P (f a)) -> Leaves P (m ≫= f).
Proof.
  intros Hm Hf s b s' H. apply m_bind_inv in H as (a & s1 & E1 & E2).
  apply Hm in E1 as (l1 & A1 & P1). apply Hf in E2 as (l2 & A2 & P2).
  exists (l1 ++ l2). split; [by eapply adds_trans|by apply Forall_app].
Qed.
#[export] Instance quietly_leaves {A} P (op : W -> A * W) : Leaves P (quietly op).
Proof.
  intros s b s'. unfold quietly. destruct (op _) as [a w]. intros [= <- <-]. exists [].
  split; [split; [by rewrite app_nil_r|done]|constructor].
Qed.
Lemma call_leaves {A} (P : event -> Prop) (op : W -> A * W) ev : (forall a, P (ev a)) -> Leaves P (call op ev).
Proof.
  intros Hp s b s'. unfold call. destruct (op _) as [a w]. intros [= <- <-]. exists [ev a].
  split; [done|by apply Forall_singleton].
Qed.

Lemma call_adds {A} (op : W -> A * W) ev s a s' : call op ev s = (a, s') -> adds [ev a] s s'.
Proof. unfold call. destruct (op _) as [b w]. by intros [= <- <-]. Qed.

Lemma call_last {A} (op : W -> A * W) ev l s t a t' :
  call op ev t = (a, t') -> adds l s t' -> adds [] s t -> l = [ev a].
Proof.
  intros Hc (T & _) (T0 & _). apply call_adds in Hc as (T1 & _).
  rewrite T1, T0, app_nil_r in T. by apply app_inv_head in T.
Qed.

Lemma quietly_adds {A} (op : W -> A * W) s a s' : quietly op s = (a, s') -> adds [] s s'.
Proof.
  unfold quietly. destruct (op _) as [b w]. intros [= <- <-]. split; [by rewrite app_nil_r|done].
Qed.

Lemma observe_leaves (P : event -> Prop) wired o : (forall o, P (Observed o)) ->
  Leaves P (observe wired o).
Proof. intros H. unfold observe. destruct wired; [by apply call_leaves|apply _]. Qed.

End Traces.

(** Calls that show, and calls that record a refusal. *)
Definition shown (ev : event) : Prop := match ev with Observed _ => True | _ => False end.
Definition aside (ev : event) : Prop :=
  match ev with
  | Observed _ => True
  | Recorded _ _ _ state _ => state <> ActionState.StateAuthorized
  | _ => False
  end.
(** Nothing ran, closed or was authorised. *)
Definition inert (ev : event) : Prop :=
  match ev with
  | Executed _ _ _ _ | Closed _ _ _ _ _ | Claimed _ _ => False
  | Recorded _ _ _ state err => state = ActionState.StateAuthorized -> err <> None
  | Started _ answer => forall x, answer <> Ok x
  | _ => True
  end.

Ltac solve_leaves :=
  repeat (intros; match goal with
    | |- Leaves _ (match ?x with _ => _ end) => destruct x
    | |- Leaves _ (if ?x then _ else _) => destruct x
    | |- Leaves _ (let _ := _ in _) => cbv zeta
    | |- Leaves _ (_ ≫= _) => apply bind_leaves
    | |- Leaves _ (call _ _) => apply call_leaves; intros; try done
    | |- Leaves _ (observe _ _) => apply observe_leaves; done
    | |- Leaves _ _ => apply _
    end).

Section Submitting.
Context {W : Type} `{!Environment W} (e : Executor).

#[export] Instance bindIdentity_leaves P q rule a : Leaves P (bindIdentity (W := W) e q rule a).
Proof. unfold bindIdentity. solve_leaves. Qed.

Lemma recordAttempt_leaves q r outcome rule state : state <> ActionState.StateAuthorized ->
  Leaves aside (recordAttempt (W := W) e q r outcome rule state).
Proof.
  intros Hs. unfold recordAttempt, record, record_identified, record_authenticated. solve_leaves.
Qed.

Lemma leaves_weaken {A} (P Q : event -> Prop) (m : M W A) : (forall ev, P ev -> Q ev) ->
  Leaves P m -> Leaves Q m.
Proof.
  intros H Hm s a s' E. destruct (Hm _ _ _ E) as (l & Ha & Hl). exists l. split; [done|].
  by eapply Forall_impl.
Qed.

Lemma aside_inert ev : aside ev -> inert ev.
Proof. destruct ev; simpl; done. Qed.

Lemma refuse_leaves q r x : x.(rf_state) <> ActionState.StateAuthorized ->
  Leaves aside (refuse (W := W) e q r x).
Proof.
  intros Hx. unfold refuse, observeDecision. solve_leaves. by apply recordAttempt_leaves.
Qed.

Lemma park_leaves q class r : Leaves inert (park (W := W) e q class r).
Proof. unfold park. solve_leaves. Qed.

Lemma plan_gate_state q plan x : plan_gate e q plan = Some x -> x.(rf_state) <> ActionState.StateAuthorized.
Proof. unfold plan_gate. intros H. repeat case_match; simplify_eq; done. Qed.

(** ** Authorizations *)

(** What admits a run: nothing, where nothing is recorded and the strict gate
    does not ask; one durable record; or one strict start. *)
Inductive authorization (q : Request) (rule : string) : list event -> ActionEnvelope.t -> Prop :=
| unrecorded : e.(ex_config).(cc_Recorder) = None ->
    (e.(ex_config).(cc_StrictAuthority) = true -> q.(rq_action).(ActionEnvelope.EffectClass) = EffectPure) ->
    authorization q rule [] q.(rq_action)
| recorded a : is_Some e.(ex_config).(cc_Recorder) ->
    (e.(ex_config).(cc_StrictAuthority) = true -> q.(rq_action).(ActionEnvelope.EffectClass) = EffectPure) ->
    a.(ActionEnvelope.ActionID) = q.(rq_action).(ActionEnvelope.ActionID) ->
    a.(ActionEnvelope.Operation) = q.(rq_action).(ActionEnvelope.Operation) ->
    a.(ActionEnvelope.ParametersDigest) = q.(rq_action).(ActionEnvelope.ParametersDigest) ->
    authorization q rule [Recorded a "allow" rule ActionState.StateAuthorized None] a
| strictly_started start answer a : e.(ex_config).(cc_StrictAuthority) = true ->
    is_Some e.(ex_config).(cc_Recorder) ->
    q.(rq_action).(ActionEnvelope.EffectClass) <> EffectPure ->
    start.(asq_Operation) = q.(rq_action).(ActionEnvelope.Operation) ->
    start.(asq_Arguments) = q.(rq_args) -> start.(asq_Channel) = q.(rq_channel) ->
    start.(asq_ConversationID) = q.(rq_scope).(sc_Conversation) ->
    a.(ActionEnvelope.ActionID) = answer.(asr_ActionID) ->
    a.(ActionEnvelope.Operation) = q.(rq_action).(ActionEnvelope.Operation) ->
    authorization q rule [Started start (Ok answer)] a.

(** What a run takes from its request. *)
Definition same_inputs (q q' : Request) : Prop :=
  q'.(rq_rawName) = q.(rq_rawName) /\ q'.(rq_args) = q.(rq_args) /\ q'.(rq_scope) = q.(rq_scope)
  /\ q'.(rq_channel) = q.(rq_channel) /\ q'.(rq_known) = q.(rq_known)
  /\ q'.(rq_effectDeclared) = q.(rq_effectDeclared).

Lemma refresh_keeps q : same_inputs q (refreshDurableEffect e q)
  /\ let a := (refreshDurableEffect e q).(rq_action) in
     a.(ActionEnvelope.ActionID) = q.(rq_action).(ActionEnvelope.ActionID)
     /\ a.(ActionEnvelope.Operation) = q.(rq_action).(ActionEnvelope.Operation)
     /\ a.(ActionEnvelope.ParametersDigest) = q.(rq_action).(ActionEnvelope.ParametersDigest).
Proof. unfold refreshDurableEffect. by repeat case_match. Qed.

Lemma bindAuthority_keeps rule a :
  (bindAuthority e rule a).(ActionEnvelope.ActionID) = a.(ActionEnvelope.ActionID)
  /\ (bindAuthority e rule a).(ActionEnvelope.Operation) = a.(ActionEnvelope.Operation)
  /\ (bindAuthority e rule a).(ActionEnvelope.ParametersDigest) = a.(ActionEnvelope.ParametersDigest).
Proof. unfold bindAuthority. by case_match. Qed.

Lemma bindIdentity_keeps q rule a s x s' : bindIdentity (W := W) e q rule a s = (x, s') ->
  adds [] s s' /\ match x with
    | Some (_, a') => a'.(ActionEnvelope.ActionID) = a.(ActionEnvelope.ActionID)
        /\ a'.(ActionEnvelope.Operation) = a.(ActionEnvelope.Operation)
        /\ a'.(ActionEnvelope.ParametersDigest) = a.(ActionEnvelope.ParametersDigest)
    | None => True
    end.
Proof.
  intros H. split.
  - destruct (bindIdentity_leaves (fun _ => False) q rule a s x s' H) as ([|ev l] & Ha & Hl); [done|].
    by apply Forall_cons in Hl as [[] _].
  - unfold bindIdentity in H. destruct e.(ex_config).(cc_Identity) as [identity|]; [|by injection H as <- <-].
    apply m_bind_inv in H as (now & s1 & _ & H). apply m_bind_inv in H as (r & s2 & _ & H).
    destruct (ResolvePrincipal _ _ _ _ _) as [[p ev]|err]; by injection H as <- <-.
Qed.

Definition authorised (q : Request) (r : Result) (rule : string) (q' : Request) (r' : Result) (ok : bool)
    (l : list event) : Prop :=
  same_inputs q q' /\ r'.(rs_Output) = r.(rs_Output)
  /\ if ok then exists a, r'.(rs_Action) = Some a /\ authorization q rule l a else Forall inert l.

Lemma strict_start_spec q r rule s q' r' ok s' : e.(ex_config).(cc_StrictAuthority) = true ->
  q.(rq_action).(ActionEnvelope.EffectClass) <> EffectPure ->
  strict_start (W := W) e q r s = ((q', r', ok), s') ->
  exists l, adds l s s' /\ authorised q r rule q' r' ok l.
Proof.
  intros Hst Hc H. unfold strict_start in H.
  destruct e.(ex_config).(cc_Recorder) as [recorder|] eqn:Er;
    [|injection H as <- <- <- <-; exists []; split; [apply adds_nil|split_and!; done]].
  destruct e.(ex_config).(cc_PrincipalResolver) as [resolver|];
    [|injection H as <- <- <- <-; exists []; split; [apply adds_nil|split_and!; done]].
  destruct recorder.(rc_starter);
    [|injection H as <- <- <- <-; exists []; split; [apply adds_nil|split_and!; done]].
  destruct (refresh_keeps q) as (Hi & H1 & H2 & H3). cbv zeta in H, H1, H2, H3.
  set (q1 := refreshDurableEffect e q) in *.
  apply m_bind_inv in H as (now & s1 & E1 & H). apply quietly_adds in E1.
  apply m_bind_inv in H as (answer & s2 & E2 & H). apply call_adds in E2.
  pose proof (adds_trans _ _ _ _ _ E1 E2) as Hadds. cbn [app] in Hadds. destruct Hi as (I1 & I2 & I3 & I4 & I5 & I6).
  destruct answer as [started|err].
  - eexists. injection H as <- <- <- <-. split; [exact Hadds|].
    split; [split_and!; by destruct started.(asr_Evidence)|]. split; [done|].
    eexists. split; [reflexivity|]. apply strictly_started; cbn [asq_Operation asq_Arguments asq_Channel asq_ConversationID]; try done.
    + by rewrite I3.
    + by destruct started.(asr_Evidence).
    + by destruct started.(asr_Evidence).
  - eexists. injection H as <- <- <- <-. split; [exact Hadds|]. split; [done|]. split; [done|].
    by apply Forall_singleton.
Qed.

Lemma recordAuthorized_spec q r rule s q' r' ok s' : r.(rs_Action) = Some q.(rq_action) ->
  recordAuthorized (W := W) e q r rule s = ((q', r', ok), s') ->
  exists l, adds l s s' /\ authorised q r rule q' r' ok l.
Proof.
  intros Hr H. unfold recordAuthorized in H.
  destruct (e.(ex_config).(cc_StrictAuthority)
            && bool_decide (q.(rq_action).(ActionEnvelope.EffectClass) <> EffectPure)) eqn:Eg.
  { apply andb_true_iff in Eg as [Es Ec]. bools. by eapply strict_start_spec. }
  assert (e.(ex_config).(cc_StrictAuthority) = true -> q.(rq_action).(ActionEnvelope.EffectClass) = EffectPure) as Hp.
  { intros Es. rewrite Es in Eg. apply bool_decide_eq_false in Eg. by apply dec_stable in Eg. }
  destruct e.(ex_config).(cc_Recorder) as [recorder|] eqn:Er.
  2:{ injection H as <- <- <- <-. exists []. split; [apply adds_nil|]. split; [done|]. split; [done|].
      exists q.(rq_action). split; [done|]. by apply unrecorded. }
  destruct (refresh_keeps q) as (Hi & H1 & H2 & H3). cbv zeta in H, H1, H2, H3.
  set (q1 := refreshDurableEffect e q) in *.
  assert (forall a, a.(ActionEnvelope.ActionID) = q1.(rq_action).(ActionEnvelope.ActionID) ->
    a.(ActionEnvelope.Operation) = q1.(rq_action).(ActionEnvelope.Operation) ->
    a.(ActionEnvelope.ParametersDigest) = q1.(rq_action).(ActionEnvelope.ParametersDigest) ->
    forall err s1, adds [Recorded a "allow" rule ActionState.StateAuthorized err] s s1 ->
    forall r0, r0.(rs_Action) = Some a -> r0.(rs_Output) = r.(rs_Output) ->
    exists l, adds l s s1 /\ authorised q r rule q1 match err with None => r0 | Some _ => set_RecordError err r0 end
      (bool_decide (err = None :> option error)) l) as Hdone.
  { intros a A1 A2 A3 err s1 Ha r0 R1 R2. eexists. split; [exact Ha|]. split; [done|].
    split; [by destruct err|]. destruct err as [err|].
    - rewrite bool_decide_false by done. apply Forall_singleton. done.
    - rewrite bool_decide_true by done. exists a. split; [done|]. rewrite H1 in A1. rewrite H2 in A2.
      rewrite H3 in A3. by apply recorded. }
  destruct q1.(rq_evidence) as [evidence|].
  - destruct (bindAuthority_keeps rule q1.(rq_action)) as (B1 & B2 & B3).
    destruct recorder.(rc_authenticated).
    + apply m_bind_inv in H as (err & s1 & E & H). apply call_adds in E. injection H as <- <- <- <-.
      by eapply Hdone.
    + injection H as <- <- <- <-. exists []. split; [apply adds_nil|]. split_and!; done.
  - destruct (_ && _) in H.
    + apply m_bind_inv in H as (x & s1 & E & H). apply bindIdentity_keeps in E as [E Hx].
      destruct x as [[evidence a]|].
      * destruct Hx as (X1 & X2 & X3). apply m_bind_inv in H as (err & s2 & E2 & H).
        apply call_adds in E2. injection H as <- <- <- <-.
        eapply Hdone; [exact X1|exact X2|exact X3|exact (adds_trans _ _ _ _ _ E E2)|done|done].
      * injection H as <- <- <- <-. exists []. split; [done|]. split_and!; done.
    + apply m_bind_inv in H as (err & s1 & E & H). apply call_adds in E. injection H as <- <- <- <-.
      eapply (Hdone q1.(rq_action)); [done|done|done|exact E|done|done].
Qed.

(** ** Runs *)

(** The tool ran once, or the registry does not have it. *)
Inductive ran (name : string) (scope : Scope) (args : string) : string -> option error -> list event -> Prop :=
| ran_once scoped out : e.(ex_tools) !! name = Some scoped ->
    ran name scope args out.1 out.2 [Executed name (if scoped : bool then Some scope else None) args out]
| ran_unknown : e.(ex_tools) !! name = None -> ran name scope args "" (Some ErrUnknownTool) [].

Lemma dispatch_spec name scope args s out latency err s' :
  dispatch (W := W) e name scope args s = ((out, latency, err), s') ->
  exists l, adds l s s' /\ ran name scope args out err l.
Proof.
  intros H. unfold dispatch in H. destruct (e.(ex_tools) !! name) as [scoped|] eqn:Et.
  - apply m_bind_inv in H as (t0 & s1 & E1 & H). apply quietly_adds in E1. cbv zeta in H.
    apply m_bind_inv in H as (o & s2 & E2 & H). apply call_adds in E2.
    apply m_bind_inv in H as (t1 & s3 & E3 & H). apply quietly_adds in E3. injection H as <- <- <- <-.
    eexists. split; [exact (adds_trans _ _ _ _ _ (adds_trans _ _ _ _ _ E1 E2) E3)|].
    cbn [app]. by apply ran_once.
  - injection H as <- <- <- <-. exists []. split; [apply adds_nil|by apply ran_unknown].
Qed.

(** A run and its close: what was seen, the run, what was seen, the close. *)
Record ran_and_closed (c : invocationCapability) (close : option (@closeExecution W)) (x : executionResult)
    (l : list event) : Prop := {
  rn_trace : exists l1 run l2 lc, l = l1 ++ run ++ l2 ++ lc
    /\ Forall shown l1 /\ Forall shown l2
    /\ ran c.(iv_toolName) c.(iv_scope) c.(iv_args) x.(er_output) x.(er_toolErr) run
    /\ match close with
       | None => lc = [] /\ x.(er_closeErr) = None
       | Some f => exists at_ s1 s2,
           f c.(iv_action).(ActionEnvelope.ActionID) x.(er_outcome) at_ x.(er_digest) s1 = (x.(er_closeErr), s2)
           /\ adds lc s1 s2
       end;
  rn_outcome : x.(er_outcome) = CloseStateAfterRun x.(er_toolErr);
  rn_digest : x.(er_digest) =
    if bool_decide (x.(er_outcome) = ActionState.StateSucceeded) then HashCanonical x.(er_output) else ""
}.

Definition appends (f : @closeExecution W) : Prop :=
  forall id state at_ digest s err s', f id state at_ digest s = (err, s') -> exists l, adds l s s'.

Lemma invokeAndClose_spec c close before s x s' : (forall x, Leaves shown (before x)) ->
  (forall f, close = Some f -> appends f) ->
  invokeAndClose (W := W) e c close before s = (x, s') ->
  exists l, adds l s s' /\ ran_and_closed c close x l.
Proof.
  intros Hb Hc H. unfold invokeAndClose in H. apply m_bind_inv in H as ([] & s1 & E1 & H).
  apply (observe_leaves shown) in E1 as (l1 & A1 & P1); [|done].
  apply m_bind_inv in H as ([[out latency] err] & s2 & E2 & H). apply dispatch_spec in E2 as (run & A2 & R).
  cbn beta iota zeta in H. apply m_bind_inv in H as ([] & s3 & E3 & H). apply Hb in E3 as (l2 & A3 & P3).
  pose proof (adds_trans _ _ _ _ _ A1 (adds_trans _ _ _ _ _ A2 A3)) as A. destruct close as [f|].
  - apply m_bind_inv in H as (at_ & s4 & E4 & H). apply quietly_adds in E4.
    apply m_bind_inv in H as (cerr & s5 & E5 & H). injection H as <- <-.
    destruct (Hc f eq_refl _ _ _ _ _ _ _ E5) as (lc & Alc).
    exists (l1 ++ run ++ l2 ++ lc). split.
    + pose proof (adds_trans _ _ _ _ _ A (adds_trans _ _ _ _ _ E4 Alc)) as Hall.
      cbn [app] in Hall. by rewrite <- !app_assoc in Hall.
    + split; [|done|done]. exists l1, run, l2, lc. split_and!; try done. by exists at_, s4, s5.
  - injection H as <- <-. exists (l1 ++ run ++ l2). split; [exact A|].
    split; [|done|done]. exists l1, run, l2, []. rewrite app_nil_r. split_and!; done.
Qed.

(** How an immediate run is closed: once, where there is a recorder. *)
Definition closing (id : string) (outcome : ActionState.State) (digest : string) (err : option error)
    (l : list event) : Prop :=
  match e.(ex_config).(cc_Recorder) with
  | Some recorder =>
      if bool_decide (id = "") then l = [] /\ err = None
      else exists at_, l = [Closed id outcome at_ (if recorder.(rc_results) then Some digest else None) err]
  | None => l = [] /\ err = None
  end.

Lemma immediateCloser_spec f : immediateCloser (W := W) e = Some f ->
  is_Some e.(ex_config).(cc_Recorder) /\
  forall id state at_ digest s err s', f id state at_ digest s = (err, s') ->
    exists l, adds l s s' /\ closing id state digest err l.
Proof.
  unfold immediateCloser, closing. destruct e.(ex_config).(cc_Recorder) as [recorder|]; [|done].
  intros [= <-]. split; [by eexists|]. intros id state at_ digest s err s' H. cbn beta in H.
  case_bool_decide; [by injection H as <- <-; exists []; split; [apply adds_nil|]|].
  destruct recorder.(rc_results); apply call_adds in H; eexists; (split; [exact H|by eexists]).
Qed.

(** An executed request: authorised, run at most once with its own inputs, and
    closed with what the run says. *)
Record executed_as (q : Request) (rule : string) (r : Result) (err : option error) (l : list event)
    : Prop := {
  xe_branch : r.(rs_Branch) = BranchExecuted /\ r.(rs_Rule) = rule /\ err = r.(rs_ToolError);
  xe_trace : exists a auth l1 run l2 lc, r.(rs_Action) = Some a /\ l = auth ++ l1 ++ run ++ l2 ++ lc
    /\ authorization q rule auth a /\ Forall shown l1 /\ Forall shown l2
    /\ ran q.(rq_rawName) q.(rq_scope) q.(rq_args) r.(rs_Output) r.(rs_ToolError) run
    /\ let outcome := CloseStateAfterRun r.(rs_ToolError) in
       closing a.(ActionEnvelope.ActionID) outcome
         (if bool_decide (outcome = ActionState.StateSucceeded) then HashCanonical r.(rs_Output) else "")
         r.(rs_CloseError) lc
}.

Lemma run_request_spec q r rule s r' err s' : run_request (W := W) e q r rule s = ((r', err), s') ->
  r'.(rs_Branch) = BranchExecuted /\ r'.(rs_Rule) = rule /\ err = r'.(rs_ToolError)
  /\ r'.(rs_Action) = r.(rs_Action)
  /\ exists l1 run l2 lc, adds (l1 ++ run ++ l2 ++ lc) s s' /\ Forall shown l1 /\ Forall shown l2
     /\ ran q.(rq_rawName) q.(rq_scope) q.(rq_args) r'.(rs_Output) r'.(rs_ToolError) run
     /\ let outcome := CloseStateAfterRun r'.(rs_ToolError) in
        closing (default q.(rq_action) r.(rs_Action)).(ActionEnvelope.ActionID) outcome
          (if bool_decide (outcome = ActionState.StateSucceeded) then HashCanonical r'.(rs_Output) else "")
          r'.(rs_CloseError) lc.
Proof.
  intros H. unfold run_request in H. apply m_bind_inv in H as (x & s1 & E & H). injection H as <- <- <-.
  apply invokeAndClose_spec in E.
  - destruct E as (l & A & [(l1 & run & l2 & lc & -> & P1 & P2 & R & Hc) Ho Hd]).
    split_and!; try done. exists l1, run, l2, lc. split_and!; try done. cbn.
    rewrite <- Ho, <- Hd. destruct (immediateCloser e) as [f|] eqn:Ef.
    + apply immediateCloser_spec in Ef as [_ Ef]. destruct Hc as (at_ & s2 & s3 & Hf & Hl).
      apply Ef in Hf as (l & Hl' & Hf). cbn in Hf.
      destruct Hl as (T & _), Hl' as (T' & _). rewrite T' in T. by apply app_inv_head in T as <-.
    + unfold immediateCloser in Ef. unfold closing. by destruct e.(ex_config).(cc_Recorder).
  - intros y. by apply observe_leaves.
  - intros f Hf id state at_ digest s2 err s3 Hx. apply immediateCloser_spec in Hf as [_ Hf].
    apply Hf in Hx as (l & Hl & _). by exists l.
Qed.

(** ** What a submission comes to *)

(** The registry, the effect registry and the plan let the tool run. *)
Definition allowed (q : Request) (plan : DecisionPlan) : Prop :=
  q.(rq_known) = true
  /\ (is_Some e.(ex_config).(cc_EffectClassifier) -> q.(rq_effectDeclared) = true)
  /\ (plan.(dp_governed) = true -> exists d, plan.(dp_decisions) !! q.(rq_rawName) = Some d
        /\ d.(ToolDecision.Mode) = ToolAllow).

Lemma plan_gate_None q plan : plan_gate e q plan = None -> allowed q plan.
Proof.
  unfold plan_gate, allowed. intros H. destruct q.(rq_known); [|done]. cbn [negb] in H.
  destruct (_ && _) eqn:E in H; [done|]. split; [done|]. split.
  - intros Hc. rewrite bool_decide_true in E by done. by destruct q.(rq_effectDeclared).
  - intros Hg. rewrite Hg in H. destruct (plan.(dp_decisions) !! _) as [d|]; [|done].
    case_bool_decide; [done|]. case_bool_decide as Em; [done|]. by exists d.
Qed.

(** The class is on the ladder up to the ceiling, and no grave one runs unasked. *)
Definition within_ceiling (q : Request) : Prop :=
  forall identity classifier d, e.(ex_config).(cc_Identity) = Some identity ->
    e.(ex_config).(cc_EffectClassifier) = Some classifier -> classifier q.(rq_rawName) = Some d ->
    identity.(id_EffectCeiling) <> "" ->
    Rank d.(Class) <= Rank identity.(id_EffectCeiling)
    /\ d.(Class) <> EffectWriteIrreversible /\ d.(Class) <> EffectCritical.

Lemma effectGateRule_empty class ceiling : effectGateRule class ceiling false = "" -> ceiling <> "" ->
  Rank class <= Rank ceiling /\ class <> EffectWriteIrreversible /\ class <> EffectCritical.
Proof.
  unfold effectGateRule. intros H Hc. rewrite bool_decide_true in H by done. cbn [andb] in H.
  destruct (Rank ceiling <? Rank class) eqn:E; [done|]. apply Z.ltb_ge in E. split; [done|].
  destruct (_ || _) eqn:Eg in H; [done|]. apply orb_false_iff in Eg as [E1 E2]. by bools.
Qed.

Lemma effect_gate_passes q :
  match effect_gate e q with Some (_, rule) => rule | None => "" end = "" -> within_ceiling q.
Proof.
  intros H identity classifier d Hi Hc Hd Hce. unfold effect_gate in H. rewrite Hi, Hc, Hd in H.
  by apply effectGateRule_empty.
Qed.

(** The parking that an approval identity answers for. *)
Inductive parks (id : string) : event -> Prop :=
| parked a : parks id (Parked a (Ok id))
| parked_strictly ask answer : id = answer.(aar_ApprovalID) -> parks id (StrictlyParked ask (Ok answer)).

Lemma park_spec q class r s r' ok s' : park (W := W) e q class r s = ((r', ok), s') ->
  exists l, adds l s s' /\ Forall inert l
    /\ if ok then r'.(rs_Branch) = BranchPending /\ exists ev, l = [ev] /\ parks r'.(rs_ApprovalID) ev
       else r'.(rs_Branch) = r.(rs_Branch).
Proof.
  intros H. destruct (park_leaves q class r _ _ _ H) as (l & Ha & Hi). exists l. split; [done|].
  split; [done|]. unfold park in H.
  destruct e.(ex_config).(cc_StrictAuthority).
  - destruct e.(ex_config).(cc_Recorder) as [rec|]; [|by injection H as <- <- <-].
    destruct e.(ex_config).(cc_PrincipalResolver); [|by injection H as <- <- <-].
    destruct q.(rq_evidence); [|by injection H as <- <- <-].
    destruct rec.(rc_strict_approvals); [|by injection H as <- <- <-].
    apply m_bind_inv in H as (now & s1 & E1 & H). apply quietly_adds in E1. cbv zeta in H.
    apply m_bind_inv in H as (answer & s2 & E2 & H). destruct answer as [x|err]; injection H as <- <- <-; [|done].
    split; [done|]. eexists. split; [by eapply call_last|]. by apply parked_strictly.
  - destruct q.(rq_evidence).
    + destruct e.(ex_config).(cc_Recorder) as [rec|]; [|by injection H as <- <- <-].
      destruct rec.(rc_authenticated_approvals); [|by injection H as <- <- <-]. cbv zeta in H.
      apply m_bind_inv in H as (answer & s2 & E2 & H). destruct answer; injection H as <- <- <-; [|done].
      split; [done|]. eexists. split; [eapply call_last; [exact E2|done|apply adds_nil]|]. by apply parked.
    + destruct e.(ex_config).(cc_Recorder) as [rec|]; [|by injection H as <- <- <-].
      destruct rec.(rc_approvals); [|by injection H as <- <- <-]. cbv zeta in H.
      apply m_bind_inv in H as (x & s1 & E1 & H). apply bindIdentity_keeps in E1 as [E1 _].
      destruct x as [[ev a]|]; [|by injection H as <- <- <-].
      apply m_bind_inv in H as (answer & s2 & E2 & H). destruct answer; injection H as <- <- <-; [|done].
      split; [done|]. eexists. split; [by eapply call_last|]. by apply parked.
Qed.

(** The evidence a request runs under: the one its resolver answered for its
    ingress and action id, or none where there is no resolver. *)
Definition bound (q q' : Request) : Prop :=
  match e.(ex_config).(cc_PrincipalResolver) with
  | None => q' = q
  | Some r => exists evidence now rand16,
      resolve_evidence e r q q.(rq_action).(ActionEnvelope.ActionID) now rand16 = Ok evidence
      /\ q' = set_action (set_Principal (principal_of evidence) q.(rq_action)) (set_evidence (Some evidence) q)
  end.

Lemma bind_evidence_spec q s x s' : bind_evidence (W := W) e q s = (x, s') ->
  adds [] s s' /\ match x with Ok q' => bound q q' | Err _ => True end.
Proof.
  intros H. unfold bind_evidence, bound in *. destruct e.(ex_config).(cc_PrincipalResolver) as [r|].
  - apply m_bind_inv in H as (now & s1 & E1 & H). apply quietly_adds in E1.
    apply m_bind_inv in H as (rand16 & s2 & E2 & H). apply quietly_adds in E2.
    pose proof (adds_trans _ _ _ _ _ E1 E2) as A.
    destruct (resolve_evidence _ _ _ _ _ _) as [evidence|err] eqn:Er; injection H as <- <-; [|done].
    split; [done|]. by exists evidence, now, rand16.
  - injection H as <- <-. split; [apply adds_nil|done].
Qed.

Inductive submitted (q : Request) (plan : DecisionPlan) (r : Result) (err : option error) (l : list event)
    : Prop :=
| was_refused : r.(rs_Branch) <> BranchExecuted -> r.(rs_Branch) <> BranchPending -> Forall inert l ->
    submitted q plan r err l
| was_parked ev : r.(rs_Branch) = BranchPending -> l = [ev] -> parks r.(rs_ApprovalID) ev -> inert ev ->
    submitted q plan r err l
| was_executed : allowed q plan -> within_ceiling q ->
    executed_as (gated e q) (if plan.(dp_governed) then "granted" else "ungoverned") r err l ->
    submitted q plan r err l.

Lemma gated_keeps q : same_inputs q (gated e q).
Proof. unfold gated. by destruct (effect_gate e q) as [[? ?]|]. Qed.

Lemma recordAttempt_branch q r outcome rule state s r' s' :
  recordAttempt (W := W) e q r outcome rule state s = (r', s') -> r'.(rs_Branch) = r.(rs_Branch).
Proof.
  unfold recordAttempt. intros H. destruct e.(ex_config).(cc_Recorder) as [rec|]; [|by injection H as <- <-].
  cbv zeta in H. destruct (refreshDurableEffect e q).(rq_evidence).
  - destruct rec.(rc_authenticated); [|by injection H as <- <-].
    apply m_bind_inv in H as (err & s1 & _ & H). by injection H as <- <-.
  - apply m_bind_inv in H as (x & s1 & _ & H). destruct x as [[ev a]|].
    + apply m_bind_inv in H as (err & s2 & _ & H). by injection H as <- <-.
    + apply m_bind_inv in H as ([] & s2 & _ & H). apply m_bind_inv in H as (err & s3 & _ & H).
      injection H as <- <-. by destruct (_ && _).
Qed.

Lemma refuse_spec q r x s r' err s' : x.(rf_state) <> ActionState.StateAuthorized ->
  refuse (W := W) e q r x s = ((r', err), s') ->
  exists l, adds l s s' /\ Forall inert l /\ r'.(rs_Branch) = x.(rf_branch) /\ err = x.(rf_error).
Proof.
  intros Hx H. destruct (refuse_leaves q r x Hx _ _ _ H) as (l & Ha & Hl). exists l.
  split; [done|]. split; [eapply Forall_impl; [exact Hl|apply aside_inert]|].
  unfold refuse in H. cbv zeta in H. apply m_bind_inv in H as ([] & s1 & _ & H).
  apply m_bind_inv in H as (r1 & s2 & E & H). injection H as <- <- <-.
  apply recordAttempt_branch in E. by rewrite E.
Qed.

Lemma admit_spec q plan r s r' err s' : r.(rs_Action) = Some q.(rq_action) -> allowed q plan ->
  r.(rs_Branch) = "" -> admit_past_plan (W := W) e q plan r s = ((r', err), s') ->
  exists l, adds l s s' /\ submitted q plan r' err l.
Proof.
  intros Hr Hal Hb H. unfold admit_past_plan in H. cbv zeta in H.
  set (rule := match effect_gate e q with Some (_, rule) => rule | None => "" end) in H.
  set (r1 := match effect_gate e q with Some _ => set_Action (Some (gated e q).(rq_action)) r | None => r end) in H.
  assert (r1.(rs_Action) = Some (gated e q).(rq_action) /\ r1.(rs_Branch) = "") as [R1 B1].
  { unfold r1, gated. by destruct (effect_gate e q) as [[d rl]|]. }
  case_bool_decide as Er.
  - apply m_bind_inv in H as ([r2 ok] & s1 & E & H). cbn beta iota in H.
    assert (exists l, adds l s s1 /\ Forall inert l
      /\ if ok then r2.(rs_Branch) = BranchPending /\ exists ev, l = [ev] /\ parks r2.(rs_ApprovalID) ev
         else True) as (l1 & A1 & I1 & P).
    { case_bool_decide.
      - apply park_spec in E as (l & Ha & Hi & Hp). exists l. split; [done|]. split; [done|]. by destruct ok.
      - injection E as <- <- <-. exists []. split; [apply adds_nil|]. by split. }
    destruct ok.
    + injection H as <- <- <-. exists l1. split; [done|]. destruct P as (Hp & ev & -> & Hpk).
      rewrite Forall_singleton in I1. by eapply was_parked.
    + apply refuse_spec in H as (l2 & A2 & I2 & Hbr & _); [|done]. exists (l1 ++ l2).
      split; [by eapply adds_trans|]. apply was_refused; [by rewrite Hbr|by rewrite Hbr|by apply Forall_app].
  - apply m_bind_inv in H as ([[q2 r2] ok] & s1 & E & H). cbn beta iota zeta in H.
    apply recordAuthorized_spec in E as (l1 & A1 & Hin & _ & Hau); [|exact R1]. destruct ok.
    + destruct (run_request_spec _ _ _ _ _ _ _ H) as (X1 & X2 & X3 & X4 & l2 & run & l3 & lc & A2 & P2 & P3 & Hr2 & Hc).
      exists (l1 ++ l2 ++ run ++ l3 ++ lc). split; [by eapply adds_trans|]. apply was_executed; [done| |].
      * by apply effect_gate_passes.
      * destruct Hin as (I1 & I2 & I3 & _). rewrite I1, I2, I3 in Hr2. split; [by split_and!|].
        destruct Hau as (a & Ha & Hau). rewrite Ha in Hc, X4.
        exists a, l1, l2, run, l3, lc. by split_and!.
    + apply m_bind_inv in H as ([] & s2 & E2 & H). injection H as <- <- <-.
      apply (observe_leaves aside) in E2 as (l2 & A2 & P2); [|done]. exists (l1 ++ l2).
      split; [by eapply adds_trans|]. apply was_refused; [done|done|]. apply Forall_app. split; [done|].
      eapply Forall_impl; [exact P2|apply aside_inert].
Qed.

Lemma validateRequest_Some request q plan use : validateRequest e request = Some (q, plan, use) ->
  request = Some q /\ q.(rq_plan) = Some plan /\ q.(rq_use) = Some use
  /\ q.(rq_owner) = e.(ex_owner) /\ plan.(dp_owner) = e.(ex_owner) /\ plan.(dp_channel) = q.(rq_channel)
  /\ q.(rq_action).(ActionEnvelope.ActionID) <> ""
  /\ q.(rq_action).(ActionEnvelope.Operation) =
       tool_operation (if q.(rq_known) then q.(rq_rawName) else bound_operation e q.(rq_rawName))
  /\ q.(rq_action).(ActionEnvelope.ParametersDigest) = Digest q.(rq_action).(ActionEnvelope.Operation) q.(rq_args).
Proof.
  unfold validateRequest. intros H. destruct request as [x|]; [|done].
  destruct x.(rq_use) as [u|] eqn:Eu; [|done]. destruct x.(rq_plan) as [pl|] eqn:Ep; [|done].
  destruct (_ || _ || _) eqn:E1 in H; [done|]. cbv zeta in H.
  destruct (_ || _ || _ || _) eqn:E2 in H; [done|]. injection H as <- <- <-.
  apply orb_false_iff in E1 as [E1 C3]. apply orb_false_iff in E1 as [C1 C2].
  apply orb_false_iff in E2 as [E2 D4]. apply orb_false_iff in E2 as [E2 D3]. apply orb_false_iff in E2 as [D1 D2].
  bools. apply dec_stable in C1, C2, C3, D2, D4. by split_and!.
Qed.

(** One submission, of a request this executor prepared and has not seen. *)
Lemma Submit_spec request s r err s' : Submit (W := W) e request s = ((r, err), s') ->
  match validateRequest e request with
  | None => s' = s /\ r = no_result /\ err = Some ErrExecutionBindingMismatch
  | Some (q, plan, use) =>
      if bool_decide (use ∈ s.(st_claimed))
      then s' = s /\ r = no_result /\ err = Some ErrExecutionAlreadySubmitted
      else s'.(st_claimed) = {[ use ]} ∪ s.(st_claimed)
        /\ exists l, s'.(st_trace) = s.(st_trace) ++ l
             /\ ((r.(rs_Branch) = "" /\ is_Some err /\ l = [])
                 \/ exists q', bound q q' /\ submitted q' plan r err l)
  end.
Proof.
  unfold Submit. intros H. destruct (validateRequest e request) as [[[q plan] use]|]; [|by injection H as <- <- <-].
  apply m_bind_inv in H as (fresh & s1 & E & H). unfold claim in E.
  case_bool_decide; [by injection E as <- <-; injection H as <- <- <-|].
  injection E as <- <-. cbv zeta in H. apply m_bind_inv in H as (x & s2 & E & H).
  apply bind_evidence_spec in E as [A Hb].
  set (s1 := {| st_world := _; st_claimed := _; st_uses := _; st_trace := _ |}) in A.
  assert (forall l, adds l s2 s' -> s'.(st_claimed) = {[ use ]} ∪ s.(st_claimed) /\ s'.(st_trace) = s.(st_trace) ++ l) as Hl.
  { intros l Al. destruct (adds_trans _ _ _ _ _ A Al) as (T & C & _). by cbn in T, C. }
  destruct x as [q'|err'].
  - destruct (plan_gate e q' plan) as [x|] eqn:Eg.
    + pose proof (plan_gate_state _ _ _ Eg) as Hx. apply refuse_spec in H as (l & Al & Il & Hbr & Herr); [|done].
      destruct (Hl l Al) as [Hc Ht]. split; [done|]. exists l. split; [done|]. right. exists q'. split; [done|].
      apply was_refused; [| |done]; rewrite Hbr; unfold plan_gate in Eg; repeat case_match; simplify_eq; done.
    + apply admit_spec in H as (l & Al & Hs); [|done|by apply plan_gate_None|done].
      destruct (Hl l Al) as [Hc Ht]. split; [done|]. exists l. split; [done|]. right. by exists q'.
  - injection H as <- <- <-. destruct (Hl [] (adds_nil s2)) as [Hc Ht]. split; [done|].
    exists []. split; [done|]. left. split; [done|]. by split; [eexists|].
Qed.

End Submitting.

(** ** A request runs once, and only when it is admitted *)

(** C3.  A tool runs only when it is admitted, once, with the bytes that
    were recorded.  A request that this executor prepared and that nobody has
    submitted comes to one of three ends.  It is refused: nothing ran, nothing
    closed and no authorization is on record.  It is parked: the one call made
    is the request for an approval that the store answered with its identity.
    Or it is executed: the tool is known, its effect declared, the governed
    plan allows it, its class is within the ceiling and not one that needs a
    human; first the authorization landed (one AUTHORIZED record of this very
    action, operation and parameters, one strict start, or nothing where there
    is no recorder and, under the strict gate, no effect); then the tool ran at
    most once with the request's own name, scope and arguments; then, where
    there is a recorder, the action was closed once with the state and the
    digest that the run says; and nothing else happened but observations.
    Any copy of the request is refused from then on, with nothing done. *)
Theorem a_tool_runs_only_when_admitted {W} `{!Environment W} (e : Executor) request s r err s' q plan use :
  Submit (W := W) e request s = ((r, err), s') -> validateRequest e request = Some (q, plan, use) ->
  use ∉ s.(st_claimed) ->
  q.(rq_action).(ActionEnvelope.ParametersDigest) = Digest q.(rq_action).(ActionEnvelope.Operation) q.(rq_args)
  /\ (exists l, s'.(st_trace) = s.(st_trace) ++ l
       /\ ((r.(rs_Branch) = "" /\ is_Some err /\ l = [])
           \/ exists q', bound e q q' /\ submitted e q' plan r err l))
  /\ forall copy q2 plan2 s2, s'.(st_claimed) ⊆ s2.(st_claimed) ->
       validateRequest e copy = Some (q2, plan2, use) ->
       Submit e copy s2 = ((no_result, Some ErrExecutionAlreadySubmitted), s2).
Proof.
  intros H Hv Hu. pose proof (Submit_spec _ _ _ _ _ _ H) as Hs. rewrite Hv, bool_decide_false in Hs by done.
  destruct Hs as [Hc Hl]. split; [apply validateRequest_Some in Hv; tauto|]. split; [exact Hl|].
  intros copy q2 plan2 s2 Hsub Hv2. unfold Submit. rewrite Hv2. unfold mbind, m_bind, claim.
  rewrite bool_decide_true; [done|]. apply Hsub. rewrite Hc. set_solver.
Qed.

(** ** Resuming *)

Section Resuming.
Context {W : Type} `{!Environment W, !ApprovalStore W} (e : Executor).

(** Reads and refused claims. *)
Definition unclaimed (ev : event) : Prop :=
  match ev with
  | ApprovalRead _ _ | ActionRead _ _ => True
  | Claimed _ answer => forall y, answer <> Ok y
  | _ => False
  end.

Lemma claim_approved_spec id a s answer s' : claim_approved (W := W) e id a s = (answer, s') ->
  (adds [] s s' /\ exists err, answer = Err err)
  \/ (adds [Claimed id answer] s s' /\ (e.(ex_config).(cc_StrictAuthority) = false ->
       forall params op act, answer = Ok (params, op, act) -> act = a.(Approval.ActionID))).
Proof.
  unfold claim_approved. intros H. destruct e.(ex_config).(cc_StrictAuthority).
  - destruct aps_strict; [right; apply call_adds in H; by split|]. injection H as <- <-. left.
    split; [apply adds_nil|by eexists].
  - right. split; [by apply call_adds in H|]. intros _ params op act ->. unfold call in H.
    destruct (aps_Claim _ _ _) as [[[p o]|err] w]; by injection H.
Qed.

(** What a resumption runs and closes, once it has its claim. *)
Record resumed (params : string) (op : Operation.t) (actionID : string) (x : ApprovedResult + ResumeError)
    (l : list event) : Prop := {
  ru_trace : exists l1 run l2 at_ out toolErr closeErr,
    let outcome := CloseStateAfterRun toolErr in
    let digest := if bool_decide (outcome = ActionState.StateSucceeded) then HashCanonical out else "" in
    l = l1 ++ run ++ l2 ++ [Closed actionID outcome at_ (Some digest) closeErr]
    /\ Forall shown l1 /\ Forall shown l2
    /\ ran e op.(Operation.Name) {| sc_Brain := ""; sc_Conversation := "" |} params out toolErr run
    /\ match x with
       | inl y => closeErr = None /\ y.(ap_Result) = out /\ y.(ap_ToolError) = toolErr
           /\ y.(ap_Outcome) = outcome /\ y.(ap_ResultDigest) = digest /\ y.(ap_Operation) = op
       | inr f => f.(re_Stage) = ResumeClose /\ is_Some closeErr /\ f.(re_Err) = closeErr
                  \/ f.(re_Stage) = ResumeReadReceipt /\ closeErr = None
       end
}.

Lemma run_approved_spec id params actionID op s x s' : run_approved (W := W) e id params actionID op s = (x, s') ->
  exists l, adds l s s' /\ resumed params op actionID x l.
Proof.
  intros H. unfold run_approved in H. apply m_bind_inv in H as (y & s1 & E & H).
  apply invokeAndClose_spec in E; [|intros z; apply _|].
  - destruct E as (l & A & [(l1 & run & l2 & lc & -> & P1 & P2 & R & (at_ & s2 & s3 & Hc & Alc)) Ho Hd]).
    unfold store_close in Hc. pose proof (call_adds _ _ _ _ _ Hc) as Hc'.
    assert (lc = [Closed actionID y.(er_outcome) at_ (Some y.(er_digest)) y.(er_closeErr)]) as ->.
    { destruct Alc as (T & _), Hc' as (T' & _). rewrite T' in T. by apply app_inv_head in T as <-. }
    cbn in R. assert (adds (l1 ++ run ++ l2 ++
      [Closed actionID y.(er_outcome) at_ (Some y.(er_digest)) y.(er_closeErr)]) s s'
      /\ match x with
         | inl z => y.(er_closeErr) = None /\ z.(ap_Result) = y.(er_output) /\ z.(ap_ToolError) = y.(er_toolErr)
             /\ z.(ap_Outcome) = y.(er_outcome) /\ z.(ap_ResultDigest) = y.(er_digest) /\ z.(ap_Operation) = op
         | inr f => f.(re_Stage) = ResumeClose /\ is_Some y.(er_closeErr) /\ f.(re_Err) = y.(er_closeErr)
                    \/ f.(re_Stage) = ResumeReadReceipt /\ y.(er_closeErr) = None
         end) as [A' X].
    { destruct y.(er_closeErr) as [err|].
      - injection H as <- <-. split; [exact A|]. left. by split_and!.
      - apply m_bind_inv in H as (receipt & s4 & E4 & H). apply quietly_adds in E4.
        pose proof (adds_trans _ _ _ _ _ A E4) as A4. rewrite app_nil_r in A4.
        destruct receipt; injection H as <- <-; (split; [exact A4|]); [by split_and!|by right]. }
    eexists. split; [exact A'|]. split. rewrite Hd, Ho in *.
    exists l1, run, l2, at_, y.(er_output), y.(er_toolErr), y.(er_closeErr). by split_and!.
  - intros f [= <-] i st at_ d t err t' Hf. apply call_adds in Hf. by eexists.
Qed.

(** The two ends of a resumption: refused before the claim was given, or run
    with what the claim gave. *)
Definition resumption (approvalID : string) (x : ApprovedResult + ResumeError) (s s' : St W) : Prop :=
  exists l, adds l s s'
  /\ ((Forall unclaimed l /\ exists f, x = inr f)
      \/ exists a params op actionID l',
           l = [ApprovalRead approvalID (Ok a); ActionRead a.(Approval.ActionID) (Ok ActionState.StateApproved);
                Claimed approvalID (Ok (params, op, actionID))] ++ l'
           /\ a.(Approval.Status) = ApprovalApproved
           /\ (e.(ex_config).(cc_StrictAuthority) = false -> actionID = a.(Approval.ActionID))
           /\ resumed params op actionID x l').

Lemma refused_resumption id f l s s' : adds l s s' -> Forall unclaimed l -> resumption id (inr f) s s'.
Proof. intros Ha Hl. exists l. split; [done|]. left. split; [done|by eexists]. Qed.

End Resuming.

(** C4.  An approved action resumes only from its claim.
    [ResumeApproved] reads the approval and then its action; unless both are
    APPROVED and the claim (under strict authority, the strict start) hands
    over an operation and its parameters, nothing runs and nothing closes.
    When it does, the tool of that very operation runs at most once with those
    very bytes, and the action of the claim is closed exactly once, with the
    state and the digest the run says; the answer repeats the run, or says that
    the close or the reading of the receipt failed. *)
Theorem an_approved_action_runs_what_was_claimed {W} `{!Environment W, !ApprovalStore W} (e : Executor)
    approvalID s x s' :
  ResumeApproved (W := W) e approvalID s = (x, s') -> resumption e approvalID x s s'.
Proof.
  intros H. unfold ResumeApproved in H.
  apply m_bind_inv in H as (read & s1 & E1 & H). apply call_adds in E1. destruct read as [a|err].
  2:{ injection H as <- <-. eapply refused_resumption; [exact E1|by repeat constructor]. }
  cbv zeta in H. case_bool_decide as S1.
  { injection H as <- <-. eapply refused_resumption; [exact E1|by repeat constructor]. }
  case_bool_decide as S2.
  { injection H as <- <-. eapply refused_resumption; [exact E1|by repeat constructor]. }
  apply m_bind_inv in H as (state & s2 & E2 & H). apply call_adds in E2.
  pose proof (adds_trans _ _ _ _ _ E1 E2) as A2. destruct state as [state|err].
  2:{ injection H as <- <-. eapply refused_resumption; [exact A2|by repeat constructor]. }
  case_bool_decide as S3.
  { injection H as <- <-. eapply refused_resumption; [exact A2|by repeat constructor]. }
  apply m_bind_inv in H as (answer & s3 & E3 & H).
  apply claim_approved_spec in E3 as [[A3 [err ->]]|[A3 Hact]]; pose proof (adds_trans _ _ _ _ _ A2 A3) as A4.
  { injection H as <- <-. eapply refused_resumption; [exact A4|by repeat constructor]. }
  destruct answer as [[[params op] actionID]|err].
  2:{ injection H as <- <-. eapply refused_resumption; [exact A4|by repeat constructor]. }
  apply run_approved_spec in H as (l & A5 & R). eexists. split; [exact (adds_trans _ _ _ _ _ A4 A5)|].
  right. exists a, params, op, actionID, l. split; [by rewrite <- S3|]. split; [done|]. split; [|done].
  intros Hs. by eapply Hact.
Qed.

(** ** A concrete world *)

(** A recorder that keeps everything, and a tool that answers 4. *)
#[local] Instance calm_world : Environment unit :=
  {| env_clock := fun _ w => (0, w); env_NewActionID := fun w => ("act_1", w);
     env_random := fun w => ("0123456789abcdef", w); env_observe := fun _ w => (tt, w);
     env_RecordAttempt := fun _ _ _ _ w => (None, w);
     env_RecordAttemptIdentified := fun _ _ _ _ _ w => (None, w);
     env_RecordAttemptAuthenticated := fun _ _ _ _ _ w => (None, w);
     env_StartAuthorization := fun _ w => (Err ErrAuthorityEvidenceCorrupt, w);
     env_RequestAuthorizationApproval := fun _ w => (Err ErrAuthorityEvidenceCorrupt, w);
     env_RequestApprovalAuthenticated := fun _ _ _ _ w => (Ok "apr_1", w);
     env_RequestApproval := fun _ _ _ w => (Ok "apr_1", w);
     env_Finish := fun _ _ _ w => (None, w); env_FinishWithResult := fun _ _ _ _ w => (None, w);
     env_Execute := fun _ _ _ _ w => (("4", None), w) |}.

Definition calm_approval : Approval.t :=
  {| Approval.ApprovalID := "apr_1"; Approval.SchemaVersion := 1; Approval.ActionID := "act_1";
     Approval.ActionDigest := ""; Approval.PreviewDigest := ""; Approval.RequestedFrom := "";
     Approval.Reason := ""; Approval.RiskSummary := ""; Approval.PolicyVersion := 1;
     Approval.PolicyDigest := ""; Approval.RequestedAt := 0; Approval.ExpiresAt := 0;
     Approval.Status := ApprovalApproved; Approval.DecisionPrincipalID := ""; Approval.Decision := "";
     Approval.DecisionAt := 0; Approval.Comment := ""; Approval.DecisionReceiptID := "rcp_1" |}.

#[local] Instance calm_store : ApprovalStore unit :=
  {| aps_strict := false; aps_ReadApproval := fun _ w => (Ok calm_approval, w);
     aps_ReadActionState := fun _ w => (Ok ActionState.StateApproved, w);
     aps_Claim := fun _ _ w => (Ok ("2+2", tool_operation "calc"), w);
     aps_StartApprovedAuthorization := fun _ w => (Err ErrAuthorityEvidenceCorrupt, w);
     aps_Close := fun _ _ _ _ w => (None, w); aps_ReadReceipt := fun _ w => (Ok "rcp_1", w) |}.

Definition calm_recorder : Recorder :=
  {| rc_identified := false; rc_authenticated := false; rc_starter := false;
     rc_strict_approvals := false; rc_authenticated_approvals := false; rc_approvals := false;
     rc_results := true |}.

Definition calm_executor : Executor := NewCoordinator 1 {[ "calc" := false ]} 0
  {| cc_BrainName := "a"; cc_Recorder := Some calm_recorder; cc_Identity := None;
     cc_PrincipalResolver := None; cc_StrictAuthority := false; cc_EffectClassifier := None;
     cc_Governance := None; cc_BoundOperation := None; cc_InvocationProbe := false;
     cc_CloseClock := None; cc_BeforeClose := false; cc_BeforeRecord := false;
     cc_BeforeIdentityFallback := false |}.

Definition calm_message : Envelope.t :=
  {| Envelope.ID := "msg_1"; Envelope.Channel := "telegram"; Envelope.Direction := Inbound;
     Envelope.Sender := {| Participant.ID := "42"; Participant.Name := "" |}; Envelope.Parts := [];
     Envelope.Timestamp := 0; Envelope.Meta := ∅; Envelope.Keyboard := None; Envelope.Operation := None |}.

Definition calm_submission : Submission :=
  {| sb_Inbound := Some calm_message;
     sb_Ingress := {| in_seal := None; in_requestID := ""; in_subjectClaim := ""; in_observedAt := 0;
                      in_expiresAt := 0; in_method := ""; in_credential := "" |};
     sb_Lane := "text"; sb_Name := "calc"; sb_Arguments := "2+2";
     sb_Plan := Some (SelectTools calm_executor "telegram").1.2 |}.

Definition calm_start : St unit := {| st_world := tt; st_claimed := ∅; st_uses := 0; st_trace := [] |}.
Definition calm_prepared : option Request * St unit := Eval vm_compute in
  let '(x, s) := Prepare calm_executor calm_submission calm_start in
  (match x with Ok q => Some q | Err _ => None end, s).
Definition calm_done : Result * option error * St unit := Eval vm_compute in
  Submit calm_executor calm_prepared.1 calm_prepared.2.
Definition calm_resumed : (ApprovedResult + ResumeError) * St unit := Eval vm_compute in
  ResumeApproved calm_executor "apr_1" calm_start.

Lemma a_tool_runs_only_when_admitted_witness :
  calm_done.1.1.(rs_Branch) = BranchExecuted /\ calm_done.1.1.(rs_Output) = "4"
  /\ Submit calm_executor calm_prepared.1 calm_done.2
     = ((no_result, Some ErrExecutionAlreadySubmitted), calm_done.2).
Proof.
  assert (exists q plan, validateRequest calm_executor calm_prepared.1 = Some (q, plan, 0%nat)) as (q & plan & Hv).
  { eexists _, _. vm_compute. reflexivity. }
  split; [reflexivity|]. split; [reflexivity|].
  apply (a_tool_runs_only_when_admitted calm_executor calm_prepared.1 calm_prepared.2
    calm_done.1.1 calm_done.1.2 calm_done.2 q plan 0%nat) with (q2 := q) (plan2 := plan).
  - vm_compute. reflexivity.
  - exact Hv.
  - apply (bool_decide_unpack _). vm_compute. exact I.
  - done.
  - exact Hv.
Defined.

Lemma an_approved_action_runs_what_was_claimed_witness :
  resumption calm_executor "apr_1" calm_resumed.1 calm_start calm_resumed.2
  /\ exists y, calm_resumed.1 = inl y /\ y.(ap_Result) = "4".
Proof.
  split; [|eexists; split; reflexivity].
  apply (an_approved_action_runs_what_was_claimed calm_executor "apr_1" calm_start calm_resumed.1 calm_resumed.2).
  vm_compute. reflexivity.
Defined.
