(* ===== verification/Agent.v ===== *)
(** * The agent brain

    [internal/brain/agent.go] and [agent_native.go]: one message handled by a
    bounded loop between one model and the tools, in the lane of printed calls
    or in the native one, over the executor of [Executor].  The model, the
    conversation store, the notes, clocks and identities are the surroundings
    of the brain; every call to the model, every tool attempt, audit event and
    write to the memory leaves a mark, in order.  Logs and counters leave none.
    One handling at a time is modelled: the sticky flag it may find set by
    another worker is part of the state it starts from. *)

From S2P Require Import Prelude Kernel Grants Json Dispatch Policy Text Envelope Conversation Encoding Digests Approvals Identity Executor Protocol.
From Stdlib Require Import Ascii String.
Import Effect.
Local Open Scope Z_scope.
Local Open Scope korvun_scope.
#[local] Arguments String.append !_ _ : simpl nomatch.

Definition sentinel_tools_unsupported : string := "model: model does not support native tool calling".

(** ** Surroundings *)

Inductive ToolEventType := ToolUsed | ToolDenied | ToolShadowed.

(** What the audit publishes of a tool event: metadata only. *)
Record ToolEvent := {
  te_Type : ToolEventType;
  te_Tool : string;
  te_Outcome : string;
  te_Rule : string;
  te_Latency : duration
}.

Record ToolSpec := {
  ts_Name : string;
  ts_Description : string;
  ts_Params : list ToolParamSpec
}.

Class Surroundings (W : Type) := {
  sr_now : W -> time;
  sr_newID : W -> string * W;
  sr_LoadRecent : Key -> Z -> W -> result (list Turn.t) * W;
  sr_AppendTurns : Key -> list Turn.t -> W -> option error * W;
  sr_loadNotes : Key -> W -> result (list Note.t) * W;
  sr_audit : ToolEvent -> W -> unit * W
}.

(** The native capability of a model. *)
Definition NativeModel (W : Type) : Type :=
  @Dispatch.Context W -> Request.t -> list ToolSpec -> W
  -> exn (option Response.t * option error) * W.

(** The fields of a brain, with the options applied. *)
Record AgentBrain (W : Type) := {
  ab_owner : nat;
  ab_model : @Dispatch.Model W;
  ab_native : option (NativeModel W);
  ab_tools : Toolbox;
  ab_maxIters : Z;
  ab_perTool : duration;
  ab_perModelCall : duration;
  ab_fallback : string;
  ab_systemPrompt : string;
  ab_personaPrefix : string;
  ab_skillsBlock : string;
  ab_historyN : option Z;
  ab_governance : option Governance;
  ab_audit : bool;
  ab_name : string;
  ab_notesBudget : option Z;
  ab_recorder : option Recorder;
  ab_identity : option IdentityConfig;
  ab_principalResolver : option Resolver;
  ab_strictAuthority : bool;
  ab_effects : option (string -> option EffectDescriptor)
}.
Arguments ab_owner {W}. Arguments ab_model {W}. Arguments ab_native {W}. Arguments ab_tools {W}.
Arguments ab_maxIters {W}. Arguments ab_perTool {W}.
Arguments ab_perModelCall {W}. Arguments ab_fallback {W}. Arguments ab_systemPrompt {W}.
Arguments ab_personaPrefix {W}. Arguments ab_skillsBlock {W}. Arguments ab_historyN {W}.
Arguments ab_governance {W}. Arguments ab_audit {W}. Arguments ab_name {W}.
Arguments ab_notesBudget {W}. Arguments ab_recorder {W}. Arguments ab_identity {W}.
Arguments ab_principalResolver {W}. Arguments ab_strictAuthority {W}. Arguments ab_effects {W}.

(** The guarded options of the constructor, on the field each one sets. *)
Definition DefaultAgentMaxIterations : Z := 5.
Definition defaultFallback : string := "Sorry, no answer is available right now. Please try again.".
Definition defaultHistoryTurns : Z := 10.
Definition WithAgentMaxIterations (n current : Z) : Z := if 0 <? n then n else current.
Definition WithAgentPerToolTimeout (d current : duration) : duration := if 0 <? d then d else current.
Definition WithAgentPerModelTimeout (d current : duration) : duration := if 0 <? d then d else current.
Definition WithAgentFallback (text current : string) : string :=
  if bool_decide (text <> "") then text else current.
Definition WithAgentConversationStore (wired : bool) (recentTurns : Z) (current : option Z) : option Z :=
  if wired then Some (if recentTurns <=? 0 then defaultHistoryTurns else recentTurns) else current.

Definition maxNativeCallsPerTurn : nat := 8.
Definition laneText : string := "text".
Definition laneNative : string := "native".

(** The executor a brain is built with. *)
Definition brain_executor {W} (a : AgentBrain W) : Executor :=
  NewCoordinator a.(ab_owner) (td_scoped <$> a.(ab_tools)) a.(ab_perTool)
    {| cc_BrainName := a.(ab_name); cc_Recorder := a.(ab_recorder); cc_Identity := a.(ab_identity);
       cc_PrincipalResolver := a.(ab_principalResolver); cc_StrictAuthority := a.(ab_strictAuthority);
       cc_EffectClassifier := a.(ab_effects); cc_Governance := a.(ab_governance);
       cc_BoundOperation := Some boundedArgs; cc_InvocationProbe := false;
       cc_CloseClock := Some NowClock; cc_BeforeClose := true; cc_BeforeRecord := true;
       cc_BeforeIdentityFallback := true |}.

(** ** State *)

(** The calls of a brain that leave a mark. *)
Inductive mark :=
| Asked (native : bool) (request : Request.t) (answer : result (option Response.t))
| Attempted (lane name args observation : string)
| Audited (ev : ToolEvent)
| Remembered (key : Key) (turns : list Turn.t) (err : option error)
| Degraded.

Record BSt (W : Type) := {
  bs_exec : St W;
  bs_nativeDisabled : bool;
  bs_marks : list mark
}.
Arguments bs_exec {W}.
Arguments bs_nativeDisabled {W}.
Arguments bs_marks {W}.

Definition B (W A : Type) := BSt W -> A * BSt W.
#[export] Instance b_ret W : MRet (B W) := fun A a s => (a, s).
#[export] Instance b_bind W : MBind (B W) := fun A C f m s => let '(a, s1) := m s in f a s1.

(** A call of the executor, of the surroundings, and a mark. *)
Definition exec {W A} (m : M W A) : B W A :=
  fun s => let '(a, x) := m s.(bs_exec) in
    (a, {| bs_exec := x; bs_nativeDisabled := s.(bs_nativeDisabled); bs_marks := s.(bs_marks) |}).

Definition outside {W A} (op : W -> A * W) : B W A := exec (quietly op).

Definition look {W A} (f : W -> A) : B W A := fun s => (f s.(bs_exec).(st_world), s).

Definition leave {W} (k : mark) : B W unit :=
  fun s => (tt, {| bs_exec := s.(bs_exec); bs_nativeDisabled := s.(bs_nativeDisabled);
                   bs_marks := s.(bs_marks) ++ [k] |}).

(** [nativeDisabled.Load] and [Swap(true)]. *)
Definition native_disabled {W} : B W bool := fun s => (s.(bs_nativeDisabled), s).
Definition swap_disabled {W} : B W bool :=
  fun s => (s.(bs_nativeDisabled),
            {| bs_exec := s.(bs_exec); bs_nativeDisabled := true; bs_marks := s.(bs_marks) |}).

Section Agent.
Context {W : Type} `{!Environment W, !Surroundings W}.
Context (error_text : error -> string) (quote_verb : string -> string).
Context (float_ok : string -> bool) (float_text : string -> string).
Context (a : AgentBrain W) (ctx : @Dispatch.Context W).
Notation kernel := (brain_executor a).
Notation nativeArgs := (nativeArgs float_text).
Notation toolCallShape := (toolCallShape float_ok).

(** ** Tools *)

Definition auditTool (ev : ToolEvent) : B W unit :=
  leave (Audited ev);;
  if a.(ab_audit) then outside (sr_audit ev) else mret tt.

Definition denied_event (tool outcome rule : string) : ToolEvent :=
  {| te_Type := ToolDenied; te_Tool := tool; te_Outcome := outcome; te_Rule := rule; te_Latency := 0 |}.

Definition presentToolResult (r : Result) : B W string :=
  let name := r.(rs_Name) in
  let b := r.(rs_Branch) in
  if bool_decide (b = BranchUnknown) then mret ("tool " +:+ quote_verb name +:+ " not found")
  else if bool_decide (b = BranchEffectUndeclared) then mret (deniedObservation name)
  else if bool_decide (b = BranchShadowed) then mret (shadowObservation name)
  else if bool_decide (b = BranchPending) then
    auditTool (denied_event name "pending" "require_approval");;
    mret (pendingApprovalObservation name r.(rs_ApprovalID))
  else if bool_decide (b = BranchDenied) then mret (deniedObservation name)
  else if bool_decide (b = BranchExecuted) then
    mret match r.(rs_ToolError) with
         | Some err => "tool " +:+ name +:+ " failed: " +:+ error_text err
         | None => r.(rs_Output)
         end
  else mret (deniedObservation name).

Definition submission (env : Envelope.t) (ingress : AuthenticatedIngress) (plan : DecisionPlan)
    (lane name args : string) : Submission :=
  {| sb_Inbound := Some env; sb_Ingress := ingress; sb_Lane := lane; sb_Name := name;
     sb_Arguments := args; sb_Plan := Some plan |}.

(** An error of a submission that nothing came of. *)
Definition submission_failed (r : Result) (err : option error) : bool :=
  match err with
  | Some err => negb (error_is "executor: unknown tool" err) && bool_decide (r.(rs_Branch) <> BranchExecuted)
  | None => false
  end.

(** One attempt at a tool, under the plan of its message. *)
Definition attempt (env : Envelope.t) (ingress : AuthenticatedIngress) (plan : DecisionPlan)
    (lane name args : string) : B W string :=
  prepared ← exec (Prepare kernel (submission env ingress plan lane name args));
  match prepared with
  | Err _ => mret (deniedObservation name)
  | Ok request =>
      '(r, err) ← exec (Submit kernel (Some request));
      if submission_failed r err then mret (deniedObservation name) else presentToolResult r
  end.

Definition runTool (env : Envelope.t) (ingress : AuthenticatedIngress) (plan : DecisionPlan)
    (lane name args : string) : B W string :=
  observation ← attempt env ingress plan lane name args;
  leave (Attempted lane name args observation);;
  mret observation.

(** The gate of this message: the tools the model may see, the decisions a
    governed plan made, and the plan. *)
Definition effectiveTools (channel : string)
    : Toolbox * option (gmap string ToolDecision.t) * DecisionPlan :=
  let '(shown, plan, _) := SelectTools kernel channel in
  match Decisions kernel (Some plan) with
  | Err _ => (∅, Some ∅, plan)
  | Ok (decisions, governed) =>
      (filter (fun p => is_Some (shown !! p.1)) a.(ab_tools),
       if governed : bool then Some decisions else None, plan)
  end.

(** ** The lane of printed calls *)

Definition append_messages (ms : list Message.t) (req : Request.t) : Request.t :=
  {| Request.Model := req.(Request.Model); Request.Messages := req.(Request.Messages) ++ ms |}.

(** How a loop ends: with an answer, with none, with the provider's refusal of
    native tools, or with the panic of a response that is not there. *)
Inductive ending :=
| Answer (text : string)
| NoAnswer
| Unsupported
| Crashed.

Definition outcome_answer (oc : Outcome.t) : result (option Response.t) :=
  match oc.(Outcome.Err) with Some err => Err err | None => Ok oc.(Outcome.Response) end.

Definition ask_text (req : Request.t) : B W (result (option Response.t)) :=
  oc ← outside (CallOne ctx (Some req) (Some a.(ab_model)) a.(ab_perModelCall) sr_now);
  leave (Asked false req (outcome_answer oc));;
  mret (outcome_answer oc).

Definition call_turns (content observation : string) : list Message.t :=
  [message Dispatch.RoleAssistant content; message Dispatch.RoleUser (observationPrefix +:+ observation)].

Fixpoint runLoop (n : nat) (env : Envelope.t) (ingress : AuthenticatedIngress) (plan : DecisionPlan)
    (req : Request.t) : B W ending :=
  match n with
  | O => mret NoAnswer
  | S n' =>
      stop ← look ctx.(CtxErr);
      match stop with
      | Some _ => mret NoAnswer
      | None =>
          answer ← ask_text req;
          match answer with
          | Err _ => mret NoAnswer
          | Ok None => mret Crashed
          | Ok (Some response) =>
              let content := response.(Response.Message).(Message.Content) in
              match parseReply content with
              | None => mret (if bool_decide (TrimSpace content = "") then NoAnswer else Answer content)
              | Some (name, args) =>
                  observation ← runTool env ingress plan laneText name args;
                  runLoop n' env ingress plan (append_messages (call_turns content observation) req)
              end
          end
      end
  end.

(** ** The native lane *)

Definition toToolSpecs (reg : Toolbox) : list ToolSpec :=
  omap (fun n => (fun t => {| ts_Name := t.(td_Name); ts_Description := t.(td_Description);
                              ts_Params := default [] t.(td_Params) |}) <$> reg !! n) (sorted_names reg).

Definition panic_text (v : panic_value) : string :=
  match v with PanicError e => error_text e | PanicOther text => text end.

(** A panic of the model and a missing response are errors. *)
Definition native_answer (r : exn (option Response.t * option error)) : result Response.t :=
  match r with
  | Panic v => Err (ErrorNew ("agent: native model panicked: " +:+ panic_text v))
  | Ret (_, Some err) => Err err
  | Ret (Some response, None) => Ok response
  | Ret (None, None) => Err (ErrorNew "agent: native model returned nil response")
  end.

Definition callNative (g : NativeModel W) (req : Request.t) (specs : list ToolSpec)
    : B W (result Response.t) :=
  r ← outside (g ctx req specs);
  let answer := native_answer r in
  leave (Asked true req match answer with Ok x => Ok (Some x) | Err err => Err err end);;
  mret answer.

Definition nativeCallArgs (advertised : Toolbox) (c : ToolCall.t) : result string :=
  match advertised !! c.(ToolCall.Name) with
  | Some t => match t.(td_Params) with
              | Some _ => t.(td_ArgsFromCall) c.(ToolCall.Arguments)
              | None => Ok (nativeArgs c)
              end
  | None => Ok (nativeArgs c)
  end.

(** A governed call that the plan does not simply allow. *)
Definition gated_call (decisions : option (gmap string ToolDecision.t)) (name : string) : bool :=
  match decisions with
  | Some ds => match ds !! name with
               | Some d => bool_decide (d.(ToolDecision.Mode) <> ToolAllow)
               | None => true
               end
  | None => false
  end.

Definition result_turn (c : ToolCall.t) (observation : string) : Message.t :=
  {| Message.Role := Dispatch.RoleTool;
     Message.Content := if bool_decide (observation = "") then "(the tool returned an empty result)"
                        else observation;
     Message.ToolCalls := []; Message.ToolName := c.(ToolCall.Name);
     Message.ToolCallID := c.(ToolCall.ID) |}.

Definition native_call (env : Envelope.t) (ingress : AuthenticatedIngress) (plan : DecisionPlan)
    (advertised : Toolbox) (decisions : option (gmap string ToolDecision.t)) (c : ToolCall.t)
    : B W Message.t :=
  observation ←
    (if gated_call decisions c.(ToolCall.Name)
     then runTool env ingress plan laneNative c.(ToolCall.Name) (nativeArgs c)
     else
       match nativeCallArgs advertised c with
       | Err err =>
           auditTool {| te_Type := ToolUsed; te_Tool := c.(ToolCall.Name); te_Outcome := "error";
                        te_Rule := ""; te_Latency := 0 |};;
           mret ("tool " +:+ c.(ToolCall.Name) +:+ " failed: " +:+ error_text err)
       | Ok args => runTool env ingress plan laneNative c.(ToolCall.Name) args
       end);
  mret (result_turn c observation).

Fixpoint native_calls (env : Envelope.t) (ingress : AuthenticatedIngress) (plan : DecisionPlan)
    (advertised : Toolbox) (decisions : option (gmap string ToolDecision.t)) (cs : list ToolCall.t)
    : B W (list Message.t) :=
  match cs with
  | [] => mret []
  | c :: cs' =>
      m ← native_call env ingress plan advertised decisions c;
      ms ← native_calls env ingress plan advertised decisions cs';
      mret (m :: ms)
  end.

Definition budget_turn (discarded : nat) : Message.t :=
  {| Message.Role := Dispatch.RoleTool;
     Message.Content := Itoa (Z.of_nat discarded)
       +:+ " tool call(s) skipped: per-turn tool budget exceeded ("
       +:+ Itoa (Z.of_nat maxNativeCallsPerTurn) +:+ " calls max per reply)";
     Message.ToolCalls := []; Message.ToolName := "budget"; Message.ToolCallID := "" |}.

(** One reply that asks for tools: the first calls run, the rest are announced. *)
Definition native_turn (env : Envelope.t) (ingress : AuthenticatedIngress) (plan : DecisionPlan)
    (advertised : Toolbox) (decisions : option (gmap string ToolDecision.t)) (m : Message.t)
    : B W (list Message.t) :=
  let calls := take maxNativeCallsPerTurn m.(Message.ToolCalls) in
  let discarded := (List.length m.(Message.ToolCalls) - maxNativeCallsPerTurn)%nat in
  let turn := {| Message.Role := m.(Message.Role); Message.Content := m.(Message.Content);
                 Message.ToolCalls := calls; Message.ToolName := m.(Message.ToolName);
                 Message.ToolCallID := m.(Message.ToolCallID) |} in
  results ← native_calls env ingress plan advertised decisions calls;
  if (0 <? discarded)%nat then
    auditTool (denied_event "overflow" "denied" "per_turn_budget");;
    mret (turn :: results ++ [budget_turn discarded])
  else mret (turn :: results).

(** The call a final text may print, put back where it belongs. *)
Definition rescued (m : Message.t) : option Message.t :=
  match rescueTextToolCall float_ok (fun n => bool_decide (is_Some (a.(ab_tools) !! n))) m.(Message.Content) with
  | Some c => Some {| Message.Role := m.(Message.Role); Message.Content := "";
                      Message.ToolCalls := [c]; Message.ToolName := m.(Message.ToolName);
                      Message.ToolCallID := m.(Message.ToolCallID) |}
  | None => None
  end.

(** What a native reply asks for: the turn to run, or the end of the loop. *)
Definition native_reply (m : Message.t) : Message.t + ending :=
  match m.(Message.ToolCalls) with
  | [] =>
      if bool_decide (m.(Message.Content) = "") then inr NoAnswer
      else match rescued m with
           | Some m' => inl m'
           | None => inr (Answer m.(Message.Content))
           end
  | _ => inl m
  end.

Fixpoint runLoopNative (g : NativeModel W) (n : nat) (env : Envelope.t) (ingress : AuthenticatedIngress)
    (plan : DecisionPlan) (advertised : Toolbox) (decisions : option (gmap string ToolDecision.t))
    (req : Request.t) : B W ending :=
  match n with
  | O => mret NoAnswer
  | S n' =>
      stop ← look ctx.(CtxErr);
      match stop with
      | Some _ => mret NoAnswer
      | None =>
          answer ← callNative g req (toToolSpecs advertised);
          match answer with
          | Err err => mret (if error_is sentinel_tools_unsupported err then Unsupported else NoAnswer)
          | Ok response =>
              match native_reply response.(Response.Message) with
              | inr e => mret e
              | inl m =>
                  ms ← native_turn env ingress plan advertised decisions m;
                  runLoopNative g n' env ingress plan advertised decisions (append_messages ms req)
              end
          end
      end
  end.

(** ** Memory *)

Definition loadHistory (env : Envelope.t) : B W (Key * list Turn.t) :=
  match a.(ab_historyN) with
  | None => mret ("", [])
  | Some n =>
      match KeyFromEnvelope (Some env) with
      | Err _ => mret ("", [])
      | Ok key =>
          history ← outside (sr_LoadRecent key n);
          mret (key, match history with Ok h => h | Err _ => [] end)
      end
  end.

Definition loadNotesBlock (env : Envelope.t) : B W string :=
  match a.(ab_notesBudget) with
  | None => mret ""
  | Some budget =>
      notes ← outside (sr_loadNotes match KeyFromEnvelope (Some env) with Ok key => key | Err _ => "" end);
      mret match notes with Ok notes => ComposeNotes notes budget | Err _ => "" end
  end.

Definition turn_of (role content : string) (now : time) : Turn.t :=
  {| Turn.Role := role; Turn.Content := content; Turn.Timestamp := now; Turn.Seq := 0 |}.

(** The turns of a pair, empty ones left out. *)
Definition pair_turns (userText assistantText : string) (now : time) : list Turn.t :=
  (if bool_decide (userText <> "") then [turn_of Conversation.RoleUser userText now] else [])
  ++ (if bool_decide (assistantText <> "") then [turn_of Conversation.RoleAssistant assistantText now] else []).

Definition persistPair (key : Key) (userText assistantText : string) : B W unit :=
  if bool_decide (a.(ab_historyN) = None) || bool_decide (key = "") then mret tt
  else
    now ← look sr_now;
    match pair_turns userText assistantText now with
    | [] => mret tt
    | turns =>
        err ← outside (sr_AppendTurns key turns);
        leave (Remembered key turns err)
    end.

(** ** One message *)

Definition disableNativeLane : B W unit :=
  was ← swap_disabled;
  if was : bool then mret tt
  else leave Degraded;; auditTool (denied_event "native_lane" "denied" "tools_unsupported").

Definition reply (content : string) (env : Envelope.t) : B W (list Envelope.t) :=
  id ← outside sr_newID;
  now ← look sr_now;
  mret (decisionToEnvelopes id now content env).

Definition system_prompt (native : bool) (advertised : Toolbox) (notesBlock : string) : string :=
  composeSystemPrompt native advertised a.(ab_systemPrompt) a.(ab_personaPrefix) a.(ab_skillsBlock) notesBlock.

Definition iterations : nat := Z.to_nat a.(ab_maxIters).

(** The loop of the lane the message starts in, and the other lane where the
    provider refused native tools. *)
Definition converse (env : Envelope.t) (ingress : AuthenticatedIngress) (native : option (NativeModel W))
    (history : list Turn.t) (notesBlock : string) (req : Request.t) : B W ending :=
  let '(advertised, decisions, plan) := effectiveTools env.(Envelope.Channel) in
  match native with
  | None => runLoop iterations env ingress plan req
  | Some g =>
      e ← runLoopNative g iterations env ingress plan advertised decisions req;
      match e with
      | Unsupported =>
          disableNativeLane;;
          match requestWithHistory env.(Envelope.Parts) (system_prompt false advertised notesBlock) history with
          | Some req => runLoop iterations env ingress plan req
          | None => mret NoAnswer
          end
      | _ => mret e
      end
  end.

(** The leak guard, the memory and the reply. *)
Definition conclude (key : Key) (env : Envelope.t) (e : ending) : B W (exn (list Envelope.t)) :=
  match e with
  | Answer text =>
      match toolCallShape text with
      | Some _ =>
          auditTool (denied_event "unknown" "denied" "protocol_leak");;
          out ← reply protocolLeakReply env; mret (Ret out)
      | None =>
          persistPair key (TranscriptText env.(Envelope.Parts)) text;;
          out ← reply text env; mret (Ret out)
      end
  | Crashed => mret (Panic nil_dereference)
  | _ => out ← reply a.(ab_fallback) env; mret (Ret out)
  end.

Definition handle (env : Envelope.t) (ingress : AuthenticatedIngress) : B W (exn (list Envelope.t)) :=
  '(key, history) ← loadHistory env;
  let '(advertised, _, _) := effectiveTools env.(Envelope.Channel) in
  disabled ← native_disabled;
  let native := if disabled : bool then None else a.(ab_native) in
  notesBlock ← loadNotesBlock env;
  match requestWithHistory env.(Envelope.Parts)
          (system_prompt (bool_decide (is_Some native)) advertised notesBlock) history with
  | None => mret (Ret [])
  | Some req =>
      e ← converse env ingress native history notesBlock req;
      conclude key env e
  end.

Definition no_ingress : AuthenticatedIngress :=
  {| in_seal := None; in_requestID := ""; in_subjectClaim := ""; in_observedAt := 0; in_expiresAt := 0;
     in_method := ""; in_credential := "" |}.

Definition Handle (env : Envelope.t) : B W (exn (list Envelope.t)) := handle env no_ingress.
Definition HandleAuthenticated (env : Envelope.t) (ingress : AuthenticatedIngress)
    : B W (exn (list Envelope.t)) := handle env ingress.

End Agent.

(** ** Lemmas: what a brain's call leaves *)

Section Marks.
Context {W : Type} `{!Environment W}.

(** The marks and the executor's events a call adds, with its answer. *)
Definition does {A} (m : B W A) (P : list mark -> list event -> A -> Prop) : Prop :=
  forall s x s', m s = (x, s') -> exists l le, s'.(bs_marks) = s.(bs_marks) ++ l
    /\ s'.(bs_exec).(st_trace) = s.(bs_exec).(st_trace) ++ le /\ P l le x.

Lemma does_ret {A} (x : A) (P : list mark -> list event -> A -> Prop) : P [] [] x -> does (mret x) P.
Proof. intros H s y s' [= <- <-]. exists [], []. by rewrite !app_nil_r. Qed.

(** In sequence; the second call may count on what the first one answered. *)
Lemma does_then {A C} (m : B W A) (f : A -> B W C) Q R (P : list mark -> list event -> C -> Prop) :
  does m Q -> (forall x, (exists l le, Q l le x) -> does (f x) (R x)) ->
  (forall l1 e1 x l2 e2 y, Q l1 e1 x -> R x l2 e2 y -> P (l1 ++ l2) (e1 ++ e2) y) ->
  does (m ≫= f) P.
Proof.
  intros Hm Hf HP s y s' H. unfold mbind, b_bind in H. destruct (m s) as [x s1] eqn:E.
  destruct (Hm _ _ _ E) as (l1 & e1 & L1 & T1 & Q1).
  destruct (Hf x (ex_intro _ l1 (ex_intro _ e1 Q1)) _ _ _ H) as (l2 & e2 & L2 & T2 & R2).
  exists (l1 ++ l2), (e1 ++ e2). rewrite L2, L1, T2, T1, !app_assoc. split_and!; [done|done|by eapply HP].
Qed.

Lemma does_bind {A C} (m : B W A) (f : A -> B W C) Q R (P : list mark -> list event -> C -> Prop) :
  does m Q -> (forall x, does (f x) (R x)) ->
  (forall l1 e1 x l2 e2 y, Q l1 e1 x -> R x l2 e2 y -> P (l1 ++ l2) (e1 ++ e2) y) ->
  does (m ≫= f) P.
Proof. intros Hm Hf. apply does_then; [exact Hm|intros x _; apply Hf]. Qed.

Lemma does_weaken {A} (m : B W A) (P Q : list mark -> list event -> A -> Prop) :
  does m P -> (forall l le x, P l le x -> Q l le x) -> does m Q.
Proof. intros H HPQ s x s' E. destruct (H _ _ _ E) as (l & le & ? & ? & ?). exists l, le. auto. Qed.

(** Nothing at all. *)
Definition nothing {A} : list mark -> list event -> A -> Prop := fun l le _ => l = [] /\ le = [].

Lemma outside_does {A} (op : W -> A * W) : does (outside op) nothing.
Proof.
  intros s x s' H. unfold outside, exec in H. destruct (quietly op s.(bs_exec)) as [y t] eqn:E.
  injection H as <- <-. apply quietly_adds in E as (T & _). exists [], []. cbn. by rewrite T, !app_nil_r.
Qed.
Lemma look_does {A} (f : W -> A) : does (look f) nothing.
Proof. intros s x s' [= <- <-]. exists [], []. by rewrite !app_nil_r. Qed.
Lemma leave_does k : does (leave (W := W) k) (fun l le _ => l = [k] /\ le = []).
Proof. intros s x s' [= <- <-]. exists [k], []. cbn. by rewrite app_nil_r. Qed.
Lemma native_disabled_does : does (native_disabled (W := W)) nothing.
Proof. intros s x s' [= <- <-]. exists [], []. by rewrite !app_nil_r. Qed.
Lemma swap_disabled_does : does (swap_disabled (W := W)) nothing.
Proof. intros s x s' [= <- <-]. exists [], []. cbn. by rewrite !app_nil_r. Qed.

(** A call that leaves nothing, before another one. *)
Lemma does_after {A C} (m : B W A) (f : A -> B W C) (P : list mark -> list event -> C -> Prop) :
  does m nothing -> (forall x, does (f x) P) -> does (m ≫= f) P.
Proof.
  intros Hm Hf. eapply does_bind; [exact Hm|intros x; apply Hf|].
  by intros l1 e1 x l2 e2 y [-> ->] H.
Qed.

End Marks.

(** ** Lemmas: one attempt *)

Definition texts_asked (l : list mark) : nat :=
  sum_list_with (fun k => match k with Asked false _ _ => 1%nat | _ => 0%nat end) l.
Definition natives_asked (l : list mark) : nat :=
  sum_list_with (fun k => match k with Asked true _ _ => 1%nat | _ => 0%nat end) l.
(** The tools attempted, with their arguments, in order. *)
Definition attempted (l : list mark) : list (string * string) :=
  omap (fun k => match k with Attempted _ name args _ => Some (name, args) | _ => None end) l.
Definition only_audited (l : list mark) : Prop :=
  Forall (fun k => match k with Audited _ => True | _ => False end) l.
(** What was written to the memory, in order. *)
Definition written (l : list mark) : list (Key * list Turn.t) :=
  omap (fun k => match k with Remembered key turns _ => Some (key, turns) | _ => None end) l.

Lemma texts_asked_app l k : texts_asked (l ++ k) = (texts_asked l + texts_asked k)%nat.
Proof. apply sum_list_with_app. Qed.
Lemma natives_asked_app l k : natives_asked (l ++ k) = (natives_asked l + natives_asked k)%nat.
Proof. apply sum_list_with_app. Qed.
Lemma attempted_app l k : attempted (l ++ k) = attempted l ++ attempted k.
Proof. apply omap_app. Qed.
Lemma written_app l k : written (l ++ k) = written l ++ written k.
Proof. apply omap_app. Qed.

Lemma only_audited_tallies l : only_audited l ->
  texts_asked l = 0%nat /\ natives_asked l = 0%nat /\ attempted l = [] /\ written l = [].
Proof.
  induction 1 as [|k l Hk _ (T & N & A & F)]; [done|]. by destruct k.
Qed.

Section Attempts.
Context {W : Type} `{!Environment W, !Surroundings W}.
Context (error_text : error -> string) (quote_verb : string -> string).
Context (float_ok : string -> bool) (float_text : string -> string).
Context (a : AgentBrain W) (ctx : @Dispatch.Context W).
Notation kernel := (brain_executor a).

Definition scope_of (env : Envelope.t) : Scope :=
  {| sc_Brain := a.(ab_name);
     sc_Conversation := match KeyFromEnvelope (Some env) with Ok key => key | Err _ => "" end |}.

(** The tool is one of the brain's, and the plan lets it run. *)
Definition permitted (plan : DecisionPlan) (name : string) : Prop :=
  is_Some (a.(ab_tools) !! name)
  /\ (plan.(dp_governed) = true ->
        exists d, plan.(dp_decisions) !! name = Some d /\ d.(ToolDecision.Mode) = ToolAllow).

(** Its effect is declared and below the ceiling of the identity. *)
Definition effect_within (name : string) : Prop :=
  forall classifier, a.(ab_effects) = Some classifier -> exists d, classifier name = Some d
    /\ forall identity, a.(ab_identity) = Some identity -> identity.(id_EffectCeiling) <> "" ->
         Rank d.(Class) <= Rank identity.(id_EffectCeiling)
         /\ d.(Class) <> EffectWriteIrreversible /\ d.(Class) <> EffectCritical.

(** The executor's events of one attempt: nothing ran, or the tool that was
    asked for ran under an authorization of its own. *)
Definition segment (env : Envelope.t) (plan : DecisionPlan) (name args : string) (le : list event) : Prop :=
  Forall inert le
  \/ exists q r err, executed_as kernel q (if plan.(dp_governed) then "granted" else "ungoverned") r err le
       /\ q.(rq_rawName) = name /\ q.(rq_args) = args /\ q.(rq_scope) = scope_of env
       /\ permitted plan name /\ effect_within name.

Lemma Prepare_spec env ingress plan lane name args s x s' :
  Prepare kernel (submission env ingress plan lane name args) s = (x, s') ->
  s'.(st_trace) = s.(st_trace) /\ forall q, x = Ok q ->
    q.(rq_rawName) = name /\ q.(rq_args) = args /\ q.(rq_scope) = scope_of env /\ q.(rq_plan) = Some plan
    /\ q.(rq_known) = Has kernel name
    /\ q.(rq_effectDeclared) = (classify kernel (Has kernel name) name).2.
Proof.
  intros H. unfold Prepare in H. cbn [sb_Inbound sb_Plan submission] in H.
  destruct (_ || _) in H; [by injection H as <- <-|].
  cbn [sb_Name submission] in H. destruct (classify kernel (Has kernel name) name) as [class declared] eqn:Ec.
  apply m_bind_inv in H as (id & s1 & E1 & H). apply quietly_adds in E1 as (T1 & _).
  apply m_bind_inv in H as (now & s2 & E2 & H). apply quietly_adds in E2 as (T2 & _).
  apply m_bind_inv in H as (use & s3 & E3 & H). unfold new_use in E3. injection E3 as <- <-.
  injection H as <- <-. split; [cbn; by rewrite T2, T1, !app_nil_r|].
  intros q [= <-]. cbn [submission sb_Name sb_Arguments sb_Plan rq_rawName rq_args rq_scope rq_plan rq_known rq_effectDeclared].
  done.
Qed.

Lemma executed_segment env plan name args q q' r err le :
  q.(rq_rawName) = name -> q.(rq_args) = args -> q.(rq_scope) = scope_of env -> q.(rq_known) = Has kernel name ->
  q.(rq_effectDeclared) = (classify kernel (Has kernel name) name).2 ->
  bound kernel q q' -> submitted kernel q' plan r err le -> segment env plan name args le.
Proof.
  intros N A S K D Hb Hs.
  assert (same_inputs q q') as (B1 & B2 & B3 & _ & B5 & B6).
  { unfold bound in Hb. destruct (cc_PrincipalResolver _); [|by subst q'].
    by destruct Hb as (evidence & now & rand16 & _ & ->). }
  destruct Hs as [Hb1 Hb2 Hi|ev Hb1 -> Hp Hi|Hal Hw Hx]; [by left|by left; apply Forall_singleton|right].
  destruct (gated_keeps kernel q') as (G1 & G2 & G3 & _).
  exists (gated kernel q'), r, err. split_and!; [exact Hx|congruence|congruence|congruence| |].
  - destruct Hal as (H1 & _ & H3). split.
    + assert (Has kernel name = true) as Hh by congruence. unfold Has in Hh. apply bool_decide_eq_true in Hh.
      change (is_Some ((td_scoped <$> a.(ab_tools)) !! name)) in Hh. rewrite lookup_fmap in Hh. by apply fmap_is_Some in Hh.
    + intros Hg. rewrite <- N, <- B1. by apply H3.
  - destruct Hal as (H1 & H2 & _). intros classifier Hc.
    assert (q'.(rq_effectDeclared) = true) as Hd by (apply H2; cbn; by rewrite Hc).
    assert (Has kernel name = true) as Hh by congruence.
    rewrite B6, D in Hd. unfold classify in Hd. cbn in Hd. rewrite Hc, Hh in Hd.
    destruct (classifier name) as [d|] eqn:Ed; [|done]. exists d. split; [done|]. intros identity Hid Hce.
    apply (Hw identity classifier d); try done. by rewrite B1, N.
Qed.

Lemma auditTool_does ev : does (auditTool a ev) (fun l le _ => only_audited l /\ le = []).
Proof.
  unfold auditTool. eapply (does_bind _ _ _ (fun _ => nothing)); [apply leave_does|intros []|].
  - destruct a.(ab_audit); [apply outside_does|by apply does_ret].
  - intros l1 e1 x l2 e2 y [-> ->] [-> ->]. split; [by repeat constructor|done].
Qed.

Lemma presentToolResult_does r :
  does (presentToolResult error_text quote_verb a r) (fun l le _ => only_audited l /\ le = []).
Proof.
  assert (forall o : string, does (mret o : B W string) (fun l le _ => only_audited l /\ le = [])) as Hret.
  { intros o. apply does_ret. split; [constructor|done]. }
  unfold presentToolResult. repeat case_bool_decide; try apply Hret.
  eapply (does_bind _ _ _ (fun _ l le _ => only_audited l /\ le = [])); [apply auditTool_does|intros; apply Hret|].
  intros l1 e1 x l2 e2 y [A1 ->] [A2 ->]. split; [by apply Forall_app|done].
Qed.

Lemma attempt_does env ingress plan lane name args :
  does (attempt error_text quote_verb a env ingress plan lane name args)
    (fun l le _ => only_audited l /\ segment env plan name args le).
Proof.
  intros s x s' H. unfold attempt, mbind, b_bind, exec in H.
  destruct (Prepare _ _ _) as [prepared t1] eqn:E1. destruct (Prepare_spec _ _ _ _ _ _ _ _ _ E1) as [T1 Hq].
  destruct prepared as [q|err0]; cbn [bs_exec] in H.
  2:{ injection H as <- <-. exists [], []. cbn. rewrite T1, !app_nil_r. split_and!; try done; [constructor|by left; constructor]. }
  destruct (Submit _ _ t1) as [[r err] t2] eqn:E2. cbn beta iota in H.
  destruct (Hq q eq_refl) as (N & A & S & P & K & D).
  assert (exists le, t2.(st_trace) = t1.(st_trace) ++ le /\ segment env plan name args le) as (le & T2 & Hseg).
  { apply Submit_spec in E2. destruct (validateRequest _ _) as [[[q0 plan0] use]|] eqn:Ev.
    - apply validateRequest_Some in Ev as (Eq & Ep & _). injection Eq as <-. rewrite P in Ep. injection Ep as <-.
      case_bool_decide.
      + destruct E2 as (-> & _). exists []. rewrite app_nil_r. split; [done|by left; constructor].
      + destruct E2 as (_ & le & T2 & [(_ & _ & ->)|(q' & Hb & Hs)]).
        * exists []. rewrite app_nil_r in T2. rewrite app_nil_r. split; [done|by left; constructor].
        * exists le. split; [done|]. by eapply executed_segment.
    - destruct E2 as (-> & _). exists []. rewrite app_nil_r. split; [done|by left; constructor]. }
  assert (forall (m : B W string) l, does m (fun l le _ => only_audited l /\ le = []) ->
    m {| bs_exec := t2; bs_nativeDisabled := s.(bs_nativeDisabled); bs_marks := l |} = (x, s') ->
    l = s.(bs_marks) -> exists l0 le0, s'.(bs_marks) = s.(bs_marks) ++ l0
      /\ s'.(bs_exec).(st_trace) = s.(bs_exec).(st_trace) ++ le0 /\ only_audited l0 /\ segment env plan name args le0) as Hfin.
  { intros m l Hm Hx ->. destruct (Hm _ _ _ Hx) as (l0 & le0 & L0 & T0 & O0 & ->).
    exists l0, le. cbn in L0, T0. split_and!; [done| |done|done]. by rewrite T0, app_nil_r, T2, T1. }
  destruct (submission_failed r err).
  - eapply (Hfin (mret _)); [|exact H|done]. apply does_ret. split; [constructor|done].
  - eapply Hfin; [|exact H|done]. apply presentToolResult_does.
Qed.

Lemma runTool_does env ingress plan lane name args :
  does (runTool error_text quote_verb a env ingress plan lane name args)
    (fun l le x => segment env plan name args le
       /\ exists l0, l = l0 ++ [Attempted lane name args x] /\ only_audited l0).
Proof.
  unfold runTool.
  eapply (does_bind _ _ _ (fun x l le y => y = x /\ l = [Attempted lane name args x] /\ le = []));
    [apply attempt_does|intros x|].
  - eapply (does_bind _ _ _ (fun _ l le y => y = x /\ l = [] /\ le = []));
      [apply leave_does|intros []; by apply does_ret|].
    by intros l1 e1 [] l2 e2 y [-> ->] (-> & -> & ->).
  - intros l1 e1 x l2 e2 y [O S] (-> & -> & ->). rewrite app_nil_r. split; [done|]. by exists l1.
Qed.

(** ** Lemmas: tallies *)

(** So many calls in each lane, and one segment of events per attempt. *)
Record tallied (env : Envelope.t) (plan : DecisionPlan) (nt nn na : nat) (l : list mark) (le : list event)
    : Prop := {
  tl_texts : texts_asked l = nt;
  tl_natives : natives_asked l = nn;
  tl_attempts : List.length (attempted l) = na;
  tl_written : written l = [];
  tl_segments : exists segs, le = List.concat segs
    /\ Forall2 (fun p seg => segment env plan p.1 p.2 seg) (attempted l) segs
}.

Lemma tallied_app env plan t n m t' n' m' l le l' le' :
  tallied env plan t n m l le -> tallied env plan t' n' m' l' le' ->
  tallied env plan (t + t')%nat (n + n')%nat (m + m')%nat (l ++ l') (le ++ le').
Proof.
  intros [T N A F (segs & -> & S)] [T' N' A' F' (segs' & -> & S')]. split.
  - by rewrite texts_asked_app, T, T'.
  - by rewrite natives_asked_app, N, N'.
  - by rewrite attempted_app, length_app, A, A'.
  - by rewrite written_app, F, F'.
  - exists (segs ++ segs'). rewrite List.concat_app, attempted_app. split; [done|by apply Forall2_app].
Qed.

Lemma tallied_audited env plan l : only_audited l -> tallied env plan 0 0 0 l [].
Proof.
  intros H. destruct (only_audited_tallies l H) as (T & N & A & F).
  split; [done|done|by rewrite A|done|]. exists []. rewrite A. split; [done|constructor].
Qed.

Lemma tallied_nil env plan : tallied env plan 0 0 0 [] [].
Proof. apply tallied_audited. constructor. Qed.

Lemma tallied_ask env plan (native : bool) req answer :
  tallied env plan (if native then 0 else 1)%nat (if native then 1 else 0)%nat 0 [Asked native req answer] [].
Proof. destruct native; (split; [done|done|done|done|]; exists (@nil (list event)); split; [done|constructor]). Qed.

Lemma tallied_attempt env plan lane name args x l0 le : only_audited l0 -> segment env plan name args le ->
  tallied env plan 0 0 1 (l0 ++ [Attempted lane name args x]) le.
Proof.
  intros H S. rewrite <- (app_nil_l le). apply (tallied_app _ _ 0 0 0 0 0 1); [by apply tallied_audited|].
  split; [done|done|done|done|]. exists [le]. cbn. rewrite app_nil_r.
  split; [done|]. constructor; [exact S|constructor].
Qed.

End Attempts.

(** ** Lemmas: the two lanes *)

(** Where an ending comes from: the marks have the model's own words. *)
Definition said (l : list mark) (e : ending) : Prop :=
  match e with
  | Answer text => text <> "" /\ exists native req r,
      Asked native req (Ok (Some r)) ∈ l /\ r.(Response.Message).(Message.Content) = text
  | Crashed => exists req, Asked false req (Ok None) ∈ l
  | Unsupported => exists req err,
      Asked true req (Err err) ∈ l /\ error_is sentinel_tools_unsupported err = true
  | NoAnswer => True
  end.

Lemma said_later l k e : said k e -> said (l ++ k) e.
Proof.
  destruct e; cbn; [| |intros (? & ? & ? & ?); do 2 eexists; split; [apply elem_of_app; by right|done]
    |intros (? & ?); eexists; apply elem_of_app; by right]; [|done].
  intros (? & ? & ? & ? & ? & ?). split; [done|]. do 3 eexists. split; [apply elem_of_app; by right|done].
Qed.

Lemma said_earlier l k e : said l e -> said (l ++ k) e.
Proof.
  destruct e; cbn; [| |intros (? & ? & ? & ?); do 2 eexists; split; [apply elem_of_app; by left|done]
    |intros (? & ?); eexists; apply elem_of_app; by left]; [|done].
  intros (? & ? & ? & ? & ? & ?). split; [done|]. do 3 eexists. split; [apply elem_of_app; by left|done].
Qed.

Section Lanes.
Context {W : Type} `{!Environment W, !Surroundings W}.
Context (error_text : error -> string) (quote_verb : string -> string).
Context (float_ok : string -> bool) (float_text : string -> string).
Context (a : AgentBrain W) (ctx : @Dispatch.Context W).
Context (env : Envelope.t) (ingress : AuthenticatedIngress) (plan : DecisionPlan).
Notation tallied := (tallied a env plan).

Lemma ask_text_does req : does (ask_text a ctx req) (fun l le x => l = [Asked false req x] /\ le = []).
Proof.
  unfold ask_text. apply does_after; [apply outside_does|]. intros oc.
  eapply (does_bind _ _ _ (fun _ l le x => l = [] /\ le = [] /\ x = outcome_answer oc));
    [apply leave_does|intros []; by apply does_ret|].
  by intros l1 e1 [] l2 e2 y [-> ->] (-> & -> & ->).
Qed.

(** A lane's work: no more calls than iterations, and no more attempts than
    [per] for each call. *)
Definition lane_does (native : bool) (per n : nat) (l : list mark) (le : list event) (e : ending) : Prop :=
  exists k na, tallied (if native then 0 else k)%nat (if native then k else 0)%nat na l le
    /\ (k <= n)%nat /\ (na <= per * k)%nat /\ said l e
    /\ if native then e <> Crashed else e <> Unsupported.

Lemma lane_stops (native : bool) per n e : said [] e -> (if native then e <> Crashed else e <> Unsupported) ->
  lane_does native per n [] [] e.
Proof.
  intros H He. exists 0%nat, 0%nat. split; [destruct native; apply tallied_nil|]. split_and!; try done; lia.
Qed.

(** One call, some attempts, the rest of the loop. *)
Lemma lane_steps (native : bool) per n req answer l le na k ke e : tallied 0 0 na l le -> (na <= per)%nat ->
  lane_does native per n k ke e -> lane_does native per (S n) ([Asked native req answer] ++ l ++ k) (le ++ ke) e.
Proof.
  intros T Hna (m & nb & T2 & Hm & Hnb & Hs & He). exists (S m), (na + nb)%nat.
  split.
  { pose proof (tallied_app _ _ _ _ _ _ _ _ _ _ _ _ _ (tallied_ask a env plan native req answer)
      (tallied_app _ _ _ _ _ _ _ _ _ _ _ _ _ T T2)) as H. destruct native; exact H. }
  split_and!; [lia|lia| |done]. apply said_later. by apply said_later.
Qed.

(** One call that ends the loop. *)
Lemma lane_ends (native : bool) per n req answer e : said [Asked native req answer] e ->
  (if native then e <> Crashed else e <> Unsupported) ->
  lane_does native per (S n) [Asked native req answer] [] e.
Proof.
  intros Hs He. exists 1%nat, 0%nat. split; [destruct native; [apply (tallied_ask a env plan true)|apply (tallied_ask a env plan false)]|]. split_and!; try done; lia.
Qed.

Notation runTool := (runTool error_text quote_verb a env ingress plan).

Lemma runTool_tallied lane name args :
  does (runTool lane name args) (fun l le _ => tallied 0 0 1 l le).
Proof.
  eapply does_weaken; [apply runTool_does|]. intros l le x (S & l0 & -> & O). by apply tallied_attempt.
Qed.

Lemma runLoop_does n req :
  does (runLoop error_text quote_verb a ctx n env ingress plan req) (lane_does false 1 n).
Proof.
  revert req. induction n as [|n IH]; intros req; [by apply does_ret, lane_stops|].
  cbn [runLoop]. apply does_after; [apply look_does|]. intros [err|]; [by apply does_ret, lane_stops|].
  eapply (does_bind _ _ _ (fun answer l le e => forall req0, lane_does false 1 (S n) ([Asked false req0 answer] ++ l) le e));
    [apply ask_text_does| |by intros l1 e1 x l2 e2 y [-> ->] H; apply H].
  intros [[response|]|err]; [|apply does_ret; intros req0; apply lane_ends; [by exists req0; left|done]
    |apply does_ret; intros req0; by apply lane_ends].
  destruct (parseReply _) as [[name args]|].
  - eapply (does_bind _ _ _ (fun _ => lane_does false 1 n)); [apply runTool_tallied|intros x; apply IH|].
    intros l1 e1 x l2 e2 y T HL req0. eapply lane_steps; [exact T|lia|exact HL].
  - apply does_ret. intros req0. apply lane_ends; case_bool_decide as Ht; try done. split.
    + intros E. rewrite E in Ht. by apply Ht.
    + exists false, req0, response. split; [by left|done].
Qed.

Notation native_call := (native_call error_text quote_verb float_text a env ingress plan).

Lemma native_call_does advertised decisions c :
  does (native_call advertised decisions c)
    (fun l le _ => exists na, tallied 0 0 na l le /\ (na <= 1)%nat).
Proof.
  unfold Agent.native_call.
  eapply (does_bind _ _ (fun l le _ => exists na, tallied 0 0 na l le /\ (na <= 1)%nat) (fun _ => nothing)).
  - destruct (gated_call _ _); [eapply does_weaken; [apply runTool_tallied|]; intros l le x H; by exists 1%nat|].
    destruct (nativeCallArgs _ _ _); [eapply does_weaken; [apply runTool_tallied|]; intros l le x H; by exists 1%nat|].
    eapply (does_bind _ _ _ (fun _ => nothing)); [apply auditTool_does|intros []; by apply does_ret|].
    intros l1 e1 x l2 e2 y [O ->] [-> ->]. rewrite app_nil_r. exists 0%nat. split; [by apply tallied_audited|lia].
  - intros x. by apply does_ret.
  - intros l1 e1 x l2 e2 y H [-> ->]. by rewrite !app_nil_r.
Qed.

Lemma native_calls_does advertised decisions cs :
  does (native_calls error_text quote_verb float_text a env ingress plan advertised decisions cs)
    (fun l le _ => exists na, tallied 0 0 na l le /\ (na <= List.length cs)%nat).
Proof.
  induction cs as [|c cs IH]; cbn [native_calls List.length].
  - apply does_ret. exists 0%nat. split; [apply tallied_nil|lia].
  - eapply (does_bind _ _ _ (fun _ l le _ => exists na, tallied 0 0 na l le /\ (na <= List.length cs)%nat)).
    + apply native_call_does.
    + intros m. eapply (does_bind _ _ _ (fun _ => nothing)); [apply IH|intros ms; by apply does_ret|].
      intros l1 e1 x l2 e2 y H [-> ->]. by rewrite !app_nil_r.
    + intros l1 e1 x l2 e2 y (n1 & T1 & H1) (n2 & T2 & H2). exists (n1 + n2)%nat.
      split; [exact (tallied_app _ _ _ _ _ _ _ _ _ _ _ _ _ T1 T2)|lia].
Qed.

Lemma native_turn_does advertised decisions m :
  does (native_turn error_text quote_verb float_text a env ingress plan advertised decisions m)
    (fun l le _ => exists na, tallied 0 0 na l le /\ (na <= maxNativeCallsPerTurn)%nat).
Proof.
  unfold native_turn. cbv zeta.
  eapply (does_bind _ _ _ (fun _ l le _ => only_audited l /\ le = [])); [apply native_calls_does| |].
  - intros results. destruct (0 <? _)%nat; [|apply does_ret; split; [constructor|done]].
    eapply (does_bind _ _ _ (fun _ => nothing)); [apply auditTool_does|intros []; by apply does_ret|].
    intros l1 e1 x l2 e2 y [O ->] [-> ->]. by rewrite app_nil_r.
  - intros l1 e1 x l2 e2 y (na & T & H) [O ->]. exists na. rewrite length_take in H. split; [|lia].
    pose proof (tallied_app _ _ _ _ _ _ _ _ _ _ _ _ _ T (tallied_audited a env plan _ O)) as H2.
    by rewrite !Nat.add_0_r in H2.
Qed.

Lemma callNative_does g req specs :
  does (callNative error_text ctx g req specs)
    (fun l le x => le = [] /\ exists answer, l = [Asked true req answer]
       /\ match x with Ok r => answer = Ok (Some r) | Err err => answer = Err err end).
Proof.
  unfold callNative. apply does_after; [apply outside_does|]. intros r. cbv zeta.
  eapply (does_bind _ _ _ (fun _ l le x => l = [] /\ le = [] /\ x = native_answer error_text r));
    [apply leave_does|intros []; by apply does_ret|].
  intros l1 e1 [] l2 e2 y [-> ->] (-> & -> & ->). split; [done|]. eexists. split; [done|].
  by destruct (native_answer error_text r).
Qed.

Lemma native_reply_spec m :
  match native_reply float_ok a m with
  | inl _ => True
  | inr e => e = NoAnswer \/ e = Answer m.(Message.Content) /\ m.(Message.Content) <> ""
  end.
Proof.
  unfold native_reply. destruct m.(Message.ToolCalls); [|done]. case_bool_decide; [by left|].
  destruct (rescued _ _ _); [done|by right].
Qed.

Lemma runLoopNative_does g n advertised decisions req :
  does (runLoopNative error_text quote_verb float_ok float_text a ctx g n env ingress plan advertised decisions req)
    (lane_does true maxNativeCallsPerTurn n).
Proof.
  revert req. induction n as [|n IH]; intros req; [by apply does_ret, lane_stops|].
  cbn [runLoopNative]. apply does_after; [apply look_does|]. intros [err|]; [by apply does_ret, lane_stops|].
  eapply (does_bind _ _ _ (fun x l le e => forall req0 answer,
      match x with Ok r => answer = Ok (Some r) | Err err => answer = Err err end ->
      lane_does true maxNativeCallsPerTurn (S n) ([Asked true req0 answer] ++ l) le e));
    [apply callNative_does| |by intros l1 e1 x l2 e2 y (-> & answer & -> & Hx) H; apply H].
  intros [response|err].
  - pose proof (native_reply_spec response.(Response.Message)) as Hr.
    destruct (native_reply _ _ _) as [m|e].
    + eapply (does_bind _ _ _ (fun _ => lane_does true maxNativeCallsPerTurn n));
        [apply native_turn_does|intros ms; apply IH|].
      intros l1 e1 x l2 e2 y (na & T & Hna) HL req0 answer _. eapply lane_steps; [exact T|exact Hna|exact HL].
    + apply does_ret. intros req0 answer ->. destruct Hr as [->|[-> Hc]]; apply lane_ends; try done.
      split; [done|]. exists true, req0, response. split; [by left|done].
  - apply does_ret. intros req0 answer ->. destruct (error_is _ _) eqn:Eu; apply lane_ends; try done.
    exists req0, err. split; [by left|done].
Qed.

End Lanes.

(** ** Lemmas: one message *)

Lemma tallied_degraded {W} `{!Environment W, !Surroundings W} (a : AgentBrain W) env plan : tallied a env plan 0 0 0 [Degraded] [].
Proof. split; [done|done|done|done|]. exists []. split; [done|constructor]. Qed.

(** The provider refused native tools. *)
Definition refused_native (l : list mark) : Prop :=
  exists req err, Asked true req (Err err) ∈ l /\ error_is sentinel_tools_unsupported err = true.

Lemma reply_content id now text env : exists out, decisionToEnvelopes id now text env = [out]
  /\ out.(Envelope.Channel) = env.(Envelope.Channel) /\ out.(Envelope.Meta) = env.(Envelope.Meta)
  /\ out.(Envelope.Parts) = [content_part Envelope.Text text] /\ out.(Envelope.Direction) = Outbound.
Proof.
  unfold decisionToEnvelopes. eexists. split; [reflexivity|].
  apply (map_fold_weak_ind (fun (e : Envelope.t) (m : gmap string string) =>
    e.(Envelope.Channel) = env.(Envelope.Channel) /\ e.(Envelope.Meta) = m
    /\ e.(Envelope.Parts) = [content_part Envelope.Text text] /\ e.(Envelope.Direction) = Outbound)); [done|].
  intros k v m e _ (H1 & H2 & H3 & H4). unfold set_Meta. cbn. by rewrite H2.
Qed.

Section Messages.
Context {W : Type} `{!Environment W, !Surroundings W}.
Context (error_text : error -> string) (quote_verb : string -> string).
Context (float_ok : string -> bool) (float_text : string -> string).
Context (a : AgentBrain W) (ctx : @Dispatch.Context W).
Context (env : Envelope.t) (ingress : AuthenticatedIngress).

Definition plan_of : DecisionPlan := (SelectTools (brain_executor a) env.(Envelope.Channel)).1.2.

Lemma effectiveTools_plan : (effectiveTools a env.(Envelope.Channel)).2 = plan_of.
Proof.
  unfold effectiveTools, plan_of. destruct (SelectTools _ _) as [[shown plan] err]. cbn.
  by repeat case_match.
Qed.

(** The work on one message, up to its ending. *)
Definition conversed (native : bool) (l : list mark) (le : list event) (e : ending) : Prop :=
  exists nt nn na, tallied a env plan_of nt nn na l le
    /\ (nt <= iterations a)%nat /\ (nn <= iterations a)%nat
    /\ (na <= maxNativeCallsPerTurn * nn + nt)%nat /\ said l e
    /\ (native = false -> nn = 0%nat)
    /\ ((0 < nn)%nat -> (0 < nt)%nat -> refused_native l).

Lemma lane_conversed (native : bool) l le e :
  lane_does a env plan_of native (if native then maxNativeCallsPerTurn else 1%nat) (iterations a) l le e ->
  conversed native l le e.
Proof.
  intros (k & na & T & Hk & Hna & Hs & _). destruct native.
  - exists 0%nat, k, na. split; [exact T|]. split_and!; try done; lia.
  - exists k, 0%nat, na. split; [exact T|]. split_and!; try done; lia.
Qed.

Lemma disable_does : does (disableNativeLane a)
  (fun l le _ => tallied a env plan_of 0 0 0 l le).
Proof.
  unfold disableNativeLane. apply does_after; [apply swap_disabled_does|].
  intros [|]; [apply does_ret, tallied_nil|].
  eapply (does_bind _ _ _ (fun _ l le _ => only_audited l /\ le = [])); [apply leave_does|intros []; apply auditTool_does|].
  intros l1 e1 x l2 e2 y [-> ->] [O ->].
  exact (tallied_app _ _ _ _ _ _ _ _ _ _ _ _ _ (tallied_degraded a env plan_of) (tallied_audited a env plan_of _ O)).
Qed.

Lemma converse_does native history notes req :
  does (converse error_text quote_verb float_ok float_text a ctx env ingress native history notes req)
    (conversed (bool_decide (is_Some native))).
Proof.
  unfold converse. pose proof effectiveTools_plan as Hp.
  destruct (effectiveTools a env.(Envelope.Channel)) as [[advertised decisions] plan]. cbn in Hp. subst plan.
  destruct native as [g|].
  2:{ eapply does_weaken; [apply runLoop_does|]. intros l le e H. by apply (lane_conversed false). }
  eapply (does_bind _ _ _ (fun e l le x => forall k ke,
    lane_does a env plan_of true maxNativeCallsPerTurn (iterations a) k ke e -> conversed true (k ++ l) (ke ++ le) x));
    [apply runLoopNative_does| |by intros l1 e1 x l2 e2 y HL H; apply H].
  intros e. assert (does (mret e : B W ending) (fun l le x => forall k ke,
    lane_does a env plan_of true maxNativeCallsPerTurn (iterations a) k ke e -> conversed true (k ++ l) (ke ++ le) x)) as Hend.
  { apply does_ret. intros k ke HL. rewrite !app_nil_r. by apply (lane_conversed true). }
  destruct e; try exact Hend. clear Hend.
  eapply (does_bind _ _ _ (fun _ l le x => exists nt na, tallied a env plan_of nt 0 na l le
    /\ (nt <= iterations a)%nat /\ (na <= nt)%nat /\ said l x)); [apply disable_does| |].
  - intros []. destruct (requestWithHistory _ _ _).
    + eapply does_weaken; [apply runLoop_does|]. intros l le e (k & na & T & Hk & Hna & Hs & _).
      exists k, na. split; [exact T|]. split_and!; try done; lia.
    + apply does_ret. exists 0%nat, 0%nat. split; [apply tallied_nil|]. split_and!; done || lia.
  - intros l1 e1 [] l2 e2 y T1 (nt & na & T2 & Hnt & Hna & Hs) k ke (kn & ka & T & Hk & Hka & Hu & _).
    exists nt, kn, (ka + na)%nat. split.
    { pose proof (tallied_app _ _ _ _ _ _ _ _ _ _ _ _ _ T (tallied_app _ _ _ _ _ _ _ _ _ _ _ _ _ T1 T2)) as H.
      cbn in H. by rewrite Nat.add_0_r in H. }
    split_and!; try done; try lia.
    + apply said_later. by apply said_later.
    + intros _ _. destruct Hu as (req0 & err & Hin & He). exists req0, err. split; [apply elem_of_app; by left|done].
Qed.

(** The reply to an ending and what it leaves in the memory. *)
Definition remembers (text : string) (l : list (Key * list Turn.t)) : Prop :=
  match a.(ab_historyN), KeyFromEnvelope (Some env) with
  | Some _, Ok key => exists now, l = [(key, pair_turns (TranscriptText env.(Envelope.Parts)) text now)]
  | _, _ => l = []
  end.

Inductive replied (e : ending) (l : list mark) : exn (list Envelope.t) -> Prop :=
| replied_answer text id now : e = Answer text -> toolCallShape float_ok text = None ->
    remembers text (written l) -> replied e l (Ret (decisionToEnvelopes id now text env))
| replied_leak text id now : e = Answer text -> is_Some (toolCallShape float_ok text) -> written l = [] ->
    replied e l (Ret (decisionToEnvelopes id now protocolLeakReply env))
| replied_fallback id now : e = NoAnswer \/ e = Unsupported -> written l = [] ->
    replied e l (Ret (decisionToEnvelopes id now a.(ab_fallback) env))
| replied_crash : e = Crashed -> written l = [] -> replied e l (Panic nil_dereference).

(** Only audit events and writes to the memory. *)
Definition concluding (l : list mark) (le : list event) : Prop :=
  texts_asked l = 0%nat /\ natives_asked l = 0%nat /\ attempted l = [] /\ le = [].

Lemma reply_does text : does (reply text env)
  (fun l le x => l = [] /\ le = [] /\ exists id now, x = decisionToEnvelopes id now text env).
Proof.
  unfold reply. apply does_after; [apply outside_does|]. intros id.
  apply does_after; [apply look_does|]. intros now. apply does_ret. split_and!; eauto.
Qed.

Lemma finish_does text (P : list mark -> list event -> exn (list Envelope.t) -> Prop) :
  (forall id now, P [] [] (Ret (decisionToEnvelopes id now text env))) ->
  does (out ← reply text env; mret (Ret out)) P.
Proof.
  intros H. eapply (does_bind _ _ _ (fun out l le x => l = [] /\ le = [] /\ x = Ret out));
    [apply reply_does|intros out; by apply does_ret|].
  intros l1 e1 x l2 e2 y (-> & -> & id & now & ->) (-> & -> & ->). apply H.
Qed.

Lemma persistPair_does key user text : text <> "" ->
  does (persistPair a key user text) (fun l le _ => concluding l le
    /\ if bool_decide (a.(ab_historyN) = None) || bool_decide (key = "") then written l = []
       else exists now, written l = [(key, pair_turns user text now)]).
Proof.
  intros Ht. unfold persistPair. destruct (_ || _); [by apply does_ret|].
  apply does_after; [apply look_does|]. intros now.
  destruct (pair_turns user text now) as [|t ts] eqn:Ep.
  - unfold pair_turns in Ep. rewrite (bool_decide_true (text <> "")) in Ep by done. by apply app_eq_nil in Ep as [_ Ep].
  - apply does_after; [apply outside_does|]. intros err. eapply does_weaken; [apply leave_does|].
    intros l le x [-> ->]. split; [done|]. exists now. by rewrite Ep.
Qed.

Lemma conclude_does key e :
  (forall text, e = Answer text -> text <> "") ->
  (if bool_decide (a.(ab_historyN) = None) then True
   else key = match KeyFromEnvelope (Some env) with Ok k => k | Err _ => "" end) ->
  does (conclude float_ok a key env e) (fun l le x => concluding l le /\ replied e l x).
Proof.
  intros Ht Hk. unfold conclude. destruct e as [text| | |].
  - destruct (toolCallShape float_ok text) as [shape|] eqn:Es.
    + eapply (does_bind _ _ _ (fun _ l le x => l = [] /\ le = []
        /\ exists id now, x = Ret (decisionToEnvelopes id now protocolLeakReply env)));
        [apply auditTool_does|intros []; apply finish_does; eauto|].
      intros l1 e1 x l2 e2 y [O ->] (-> & -> & id & now & ->). rewrite app_nil_r.
      destruct (only_audited_tallies l1 O) as (T & N & A & F). split; [done|].
      by eapply replied_leak.
    + eapply (does_bind _ _ _ (fun _ l le x => l = [] /\ le = []
        /\ exists id now, x = Ret (decisionToEnvelopes id now text env)));
        [apply (persistPair_does key (TranscriptText env.(Envelope.Parts))); by apply Ht
        |intros []; apply finish_does; eauto|].
      intros l1 e1 x l2 e2 y [C Hw] (-> & -> & id & now & ->). rewrite !app_nil_r. split; [done|].
      eapply replied_answer; [done|done|]. unfold remembers.
      destruct a.(ab_historyN) as [n|]; [|done]. rewrite bool_decide_false in Hk by done. subst key.
      cbn [orb] in Hw. rewrite (bool_decide_false (Some n = None)) in Hw by done. cbn [orb] in Hw.
      unfold KeyFromEnvelope in *. destruct (bool_decide (meta env _ = "")); [exact Hw|].
      rewrite bool_decide_false in Hw; [exact Hw|].
      destruct env.(Envelope.Channel); done.
  - apply finish_does. intros id now. split; [done|]. apply replied_fallback; [by left|done].
  - apply finish_does. intros id now. split; [done|]. apply replied_fallback; [by right|done].
  - apply does_ret. split; [done|]. by apply replied_crash.
Qed.

End Messages.

(** ** One message *)

Section Handling.
Context {W : Type} `{!Environment W, !Surroundings W}.
Context (error_text : error -> string) (quote_verb : string -> string).
Context (float_ok : string -> bool) (float_text : string -> string).
Context (a : AgentBrain W) (ctx : @Dispatch.Context W) (env : Envelope.t).

(** What a message comes to: nothing to ask, or the work and the reply. *)
Definition handled (l : list mark) (le : list event) (x : exn (list Envelope.t)) : Prop :=
  if bool_decide (latestText env.(Envelope.Parts) = "") then x = Ret [] /\ l = [] /\ le = []
  else exists native e l1 l2, l = l1 ++ l2 /\ conversed a env native l1 le e
         /\ concluding l2 [] /\ replied float_ok a env e l2 x.

Lemma said_nonempty l e text : said l e -> e = Answer text -> text <> "".
Proof. by intros H ->; destruct H. Qed.

Lemma loadHistory_does : does (loadHistory a env) (fun l le x => l = [] /\ le = []
  /\ if bool_decide (a.(ab_historyN) = None) then True
     else x.1 = match KeyFromEnvelope (Some env) with Ok k => k | Err _ => "" end).
Proof.
  unfold loadHistory. destruct a.(ab_historyN) as [n|]; [|by apply does_ret].
  rewrite bool_decide_false by done. destruct (KeyFromEnvelope _) as [key|err]; [|by apply does_ret].
  apply does_after; [apply outside_does|]. intros h. by apply does_ret.
Qed.

Lemma loadNotes_does : does (loadNotesBlock a env) nothing.
Proof.
  unfold loadNotesBlock. destruct a.(ab_notesBudget); [|by apply does_ret].
  apply does_after; [apply outside_does|]. intros h. by apply does_ret.
Qed.

(** Whatever the prompt and the history, the same texts have nothing to ask. *)
Lemma requestWithHistory_None parts system history :
  requestWithHistory parts system history = None <-> latestText parts = "".
Proof. unfold requestWithHistory. by case_bool_decide. Qed.

Lemma handle_does ingress :
  does (handle error_text quote_verb float_ok float_text a ctx env ingress) handled.
Proof.
  unfold handle.
  eapply (does_then _ _ _ (fun _ => handled)); [apply loadHistory_does| |by intros l1 e1 x l2 e2 y (-> & -> & _) H].
  intros [key history] (? & ? & -> & -> & Hk). cbn [fst] in Hk.
  destruct (effectiveTools _ _) as [[advertised decisions] plan].
  apply does_after; [apply native_disabled_does|]. intros disabled. cbv zeta.
  apply does_after; [apply loadNotes_does|]. intros notes. unfold handled.
  destruct (requestWithHistory _ _ _) as [req|] eqn:Er.
  2:{ apply requestWithHistory_None in Er. rewrite bool_decide_true by done. by apply does_ret. }
  rewrite bool_decide_false by (intros E; eapply requestWithHistory_None in E; by rewrite E in Er).
  set (native := if disabled then None else a.(ab_native)).
  eapply (does_then _ _ _ (fun e l le x => concluding l le /\ replied float_ok a env e l x)); [apply converse_does| |].
  - intros e (l & le & ? & ? & ? & _ & _ & _ & _ & Hs & _). apply conclude_does; [|done].
    intros text. by apply (said_nonempty l).
  - intros l1 e1 e l2 e2 y Hc [(C1 & C2 & C3 & ->) Hr].
    exists (bool_decide (is_Some native)), e, l1, l2. by rewrite app_nil_r.
Qed.

End Handling.


(** ** Lemmas: what ran *)

Lemma authorization_no_run e q rule auth act n sc args out : authorization e q rule auth act ->
  Executed n sc args out ∉ auth.
Proof. intros []; set_solver. Qed.

Lemma shown_no_run l n sc args out : Forall shown l -> Executed n sc args out ∉ l.
Proof. rewrite Forall_forall. intros H Hin. by apply H in Hin. Qed.

Lemma inert_no_run l n sc args out : Forall inert l -> Executed n sc args out ∉ l.
Proof. rewrite Forall_forall. intros H Hin. by apply H in Hin. Qed.

Lemma closing_no_run e id outcome digest err l n sc args out : closing e id outcome digest err l ->
  Executed n sc args out ∉ l.
Proof.
  unfold closing. intros H Hin. destruct (cc_Recorder _) as [rec|]; [|by destruct H as [-> _]; apply elem_of_nil in Hin].
  destruct (bool_decide _); [by destruct H as [-> _]; apply elem_of_nil in Hin|].
  destruct H as [at_ ->]. by apply list_elem_of_singleton in Hin.
Qed.

(** The run of an executed request, right after its authorization. *)
Lemma executed_as_run e q rule r err le n sc args out : executed_as e q rule r err le ->
  Executed n sc args out ∈ le ->
  n = q.(rq_rawName) /\ args = q.(rq_args) /\ (sc = None \/ sc = Some q.(rq_scope))
  /\ exists act auth mid post, le = auth ++ mid ++ Executed n sc args out :: post
       /\ authorization e q rule auth act /\ Forall shown mid
       /\ Forall (fun ev => forall n sc args out, ev <> Executed n sc args out) post.
Proof.
  intros [_ (act & auth & l1 & run & l2 & lc & _ & -> & Hau & S1 & S2 & Hrun & Hc)] Hin.
  assert (Executed n sc args out ∈ run) as Hr.
  { rewrite !elem_of_app in Hin. destruct Hin as [Hin|[Hin|[Hin|[Hin|Hin]]]]; [|by eapply shown_no_run in Hin|done
      |by eapply shown_no_run in Hin|by eapply closing_no_run in Hin].
    by eapply authorization_no_run in Hin. }
  destruct Hrun as [scoped o Hs|_]; [|by apply elem_of_nil in Hr].
  apply list_elem_of_singleton in Hr. injection Hr as -> -> -> ->. split_and!; [done|done|by destruct scoped; [right|left]|].
  exists act, auth, l1, (l2 ++ lc). split_and!; try done.
  rewrite Forall_forall. intros ev Hev n' sc' args' out' ->. apply elem_of_app in Hev as [Hev|Hev].
  - by eapply shown_no_run in Hev.
  - by eapply closing_no_run in Hev.
Qed.


(** ** A concrete conversation *)

(** A model with a script, over the in-memory store. *)
Record world := { w_script : list string; w_memory : MemStore.t }.

#[local] Instance scripted_world : Environment world :=
  {| env_clock := fun _ w => (7, w); env_NewActionID := fun w => ("act_1", w);
     env_random := fun w => ("0123456789abcdef", w); env_observe := fun _ w => (tt, w);
     env_RecordAttempt := fun _ _ _ _ w => (None, w);
     env_RecordAttemptIdentified := fun _ _ _ _ _ w => (None, w);
     env_RecordAttemptAuthenticated := fun _ _ _ _ _ w => (None, w);
     env_StartAuthorization := fun _ w => (Err ErrAuthorityEvidenceCorrupt, w);
     env_RequestAuthorizationApproval := fun _ w => (Err ErrAuthorityEvidenceCorrupt, w);
     env_RequestApprovalAuthenticated := fun _ _ _ _ w => (Ok "apr_1", w);
     env_RequestApproval := fun _ _ _ w => (Ok "apr_1", w);
     env_Finish := fun _ _ _ w => (None, w); env_FinishWithResult := fun _ _ _ _ w => (None, w);
     env_Execute := fun _ _ args _ w => ((args, None), w) |}.

#[local] Instance memory_surroundings : Surroundings world :=
  {| sr_now := fun _ => 7; sr_newID := fun w => ("msg_2", w);
     sr_LoadRecent := fun key n w => (Ok (MemStore.LoadRecent key n w.(w_memory)), w);
     sr_AppendTurns := fun key turns w =>
       (None, {| w_script := w.(w_script); w_memory := (MemStore.AppendTurns key turns w.(w_memory)).2 |});
     sr_loadNotes := fun _ w => (Ok [], w); sr_audit := fun _ w => (tt, w) |}.

Definition scripted_model : @Dispatch.Model world :=
  {| Dispatch.Name := fun _ => Ret "script";
     Dispatch.Generate := fun _ _ w =>
       (Ret (Some {| Response.Message := message Dispatch.RoleAssistant (default "" (head w.(w_script)));
                     Response.Provider := "script"; Response.ModelName := "m" |}, None),
        {| w_script := tail w.(w_script); w_memory := w.(w_memory) |}) |}.

Definition echo_tool : ToolDesc :=
  {| td_Name := "echo"; td_Description := "returns its args verbatim"; td_scoped := true; td_Params := None;
     td_ArgsFromCall := fun _ => Err ErrUnknownTool |}.

Definition echo_governance : Governance :=
  {| gv_Grants := [{| ToolGrant.Name := "echo"; ToolGrant.Mode := ToolAllow; ToolGrant.Channels := ["telegram"] |}];
     gv_Attrs := ∅; gv_Sensitivity := Public; gv_Locality := Local_ |}.

Definition echo_brain : AgentBrain world :=
  {| ab_owner := 1; ab_model := scripted_model; ab_native := None; ab_tools := {[ "echo" := echo_tool ]};
     ab_maxIters := WithAgentMaxIterations 0 DefaultAgentMaxIterations; ab_perTool := 0; ab_perModelCall := 0;
     ab_fallback := defaultFallback; ab_systemPrompt := ""; ab_personaPrefix := ""; ab_skillsBlock := "";
     ab_historyN := WithAgentConversationStore true 0 None; ab_governance := Some echo_governance;
     ab_audit := true; ab_name := "amy"; ab_notesBudget := None; ab_recorder := Some calm_recorder;
     ab_identity := None; ab_principalResolver := None; ab_strictAuthority := false; ab_effects := None |}.

Definition hello : Envelope.t :=
  {| Envelope.ID := "msg_1"; Envelope.Channel := "telegram"; Envelope.Direction := Inbound;
     Envelope.Sender := {| Participant.ID := "42"; Participant.Name := "" |};
     Envelope.Parts := [content_part Envelope.Text "say hi"]; Envelope.Timestamp := 0;
     Envelope.Meta := {[ MetaConversationID := "c1" ]}; Envelope.Keyboard := None; Envelope.Operation := None |}.

Definition free_context : @Dispatch.Context world := {| Dispatch.Deadline := None; CtxErr := fun _ => None |}.

Definition quiet_start : BSt world :=
  {| bs_exec := {| st_world := {| w_script := ["TOOL: Echo(hi (there))"; "I said hi."]; w_memory := MemStore.NewMemStore |};
                   st_claimed := ∅; st_uses := 0; st_trace := [] |};
     bs_nativeDisabled := false; bs_marks := [] |}.

Definition plain_error (e : error) : string := "error".

Definition said_hi : exn (list Envelope.t) * BSt world := Eval vm_compute in
  Handle plain_error (fun s => s) (fun _ => true) (fun s => s) echo_brain free_context hello quiet_start.

Lemma said_hi_now : Handle plain_error (fun s => s) (fun _ => true) (fun s => s) echo_brain free_context hello
  quiet_start = (said_hi.1, said_hi.2).
Proof. vm_compute. reflexivity. Qed.

Definition contents (x : exn (list Envelope.t)) : list string :=
  match x with
  | Ret out => out ≫= fun e => map Part.Content e.(Envelope.Parts)
  | Panic _ => []
  end.



(** ** What the code does at its edges *)

Definition echo_call : Message.t :=
  {| Message.Role := Dispatch.RoleAssistant; Message.Content := "";
     Message.ToolCalls := [{| ToolCall.ID := ""; ToolCall.Name := "echo";
                              ToolCall.Arguments := {[ "args" := VString "hi" ]} |}];
     Message.ToolName := ""; Message.ToolCallID := "" |}.

(** A provider that takes one native turn and then refuses the protocol. *)
Definition fickle_native : NativeModel world := fun _ _ _ w =>
  (match w.(w_script) with
   | "" :: _ => Ret (Some {| Response.Message := echo_call; Response.Provider := "script"; Response.ModelName := "m" |}, None)
   | _ => Ret (None, Some (ErrorNew sentinel_tools_unsupported))
   end, {| w_script := tail w.(w_script); w_memory := w.(w_memory) |}).

Definition with_native (g : option (NativeModel world)) (m : @Dispatch.Model world) : AgentBrain world :=
  {| ab_owner := 1; ab_model := m; ab_native := g; ab_tools := {[ "echo" := echo_tool ]};
     ab_maxIters := 2; ab_perTool := 0; ab_perModelCall := 0;
     ab_fallback := defaultFallback; ab_systemPrompt := ""; ab_personaPrefix := ""; ab_skillsBlock := "";
     ab_historyN := None; ab_governance := Some echo_governance;
     ab_audit := true; ab_name := "amy"; ab_notesBudget := None; ab_recorder := Some calm_recorder;
     ab_identity := None; ab_principalResolver := None; ab_strictAuthority := false; ab_effects := None |}.

Definition script (l : list string) : BSt world :=
  {| bs_exec := {| st_world := {| w_script := l; w_memory := MemStore.NewMemStore |};
                   st_claimed := ∅; st_uses := 0; st_trace := [] |};
     bs_nativeDisabled := false; bs_marks := [] |}.

Definition runs (s : BSt world) : list string :=
  omap (fun ev => match ev with Executed name _ _ _ => Some name | _ => None end) s.(bs_exec).(st_trace).

(** The refusal comes after a tool already ran; the printed lane starts over
    from the message, without its result, and runs the tool again: two lanes
    of two calls each under a cap of two. *)
Theorem a_late_refusal_starts_over :
  let s := (Handle plain_error (fun s => s) (fun _ => true) (fun s => s) (with_native (Some fickle_native) scripted_model)
              free_context hello (script [""; "no"; "TOOL: echo(hi)"; "I said hi."])).2 in
  runs s = ["echo"; "echo"] /\ natives_asked s.(bs_marks) = 2%nat /\ texts_asked s.(bs_marks) = 2%nat.
Proof. vm_compute. split_and!; reflexivity. Qed.

Definition silent_model : @Dispatch.Model world :=
  {| Dispatch.Name := fun _ => Ret "script"; Dispatch.Generate := fun _ _ w => (Ret (None, None), w) |}.

(** A model that returns neither a response nor an error crashes the printed
    lane; the native one takes it for a failure and falls back. *)
Theorem a_missing_response_crashes_one_lane :
  (Handle plain_error (fun s => s) (fun _ => true) (fun s => s) (with_native None silent_model)
     free_context hello (script [])).1 = Panic nil_dereference
  /\ contents (Handle plain_error (fun s => s) (fun _ => true) (fun s => s)
       (with_native (Some (fun _ _ _ w => (Ret (None, None), w))) silent_model) free_context hello (script [])).1
     = [defaultFallback].
Proof. vm_compute. split; reflexivity. Qed.
