(* ===== verification/Orchestrator.v ===== *)
(** * The orchestrator brain

    [internal/brain/orchestrator.go] and [named.go]: one message sent through
    a coordinator to a set of models and reduced by a policy.  The coordinator
    and the policy are the seams of the code: a function of the world that
    gives outcomes or an error, and a function of the outcomes. *)

From S2P Require Import Prelude Json Dispatch Policy Text Envelope Conversation Executor Protocol Agent.
From Stdlib Require Import Ascii String.
Local Open Scope Z_scope.
Local Open Scope korvun_scope.
#[local] Arguments String.append !_ _ : simpl nomatch.

(** ** Model ids *)

Definition with_model (id : string) (req : Request.t) : Request.t :=
  {| Request.Model := id; Request.Messages := req.(Request.Messages) |}.

(** [named.Generate] gives its own copy of the request to the model. *)
Definition named {W} (inner : @Dispatch.Model W) (id : string) : @Dispatch.Model W :=
  {| Dispatch.Name := inner.(Dispatch.Name);
     Dispatch.Generate := fun ctx req w => inner.(Dispatch.Generate) ctx (with_model id <$> req) w |}.

Definition namedTool {W} (tcm : NativeModel W) (id : string) : NativeModel W :=
  fun ctx req specs w => tcm ctx (with_model id req) specs w.

(** [WithModelID] keeps the native capability of what it wraps. *)
Definition WithModelID {W} (m : @Dispatch.Model W) (native : option (NativeModel W)) (id : string)
    : @Dispatch.Model W * option (NativeModel W) :=
  (named m id, (fun tcm => namedTool tcm id) <$> native).

(** ** The brain *)

Record Orchestrator (W : Type) := {
  or_run : @Dispatch.Context W -> Request.t -> list (option (@Dispatch.Model W)) -> W
           -> result (list Outcome.t) * W;
  or_models : list (option (@Dispatch.Model W));
  or_apply : list Outcome.t -> option Decision.t * option error;
  or_fallback : option string;
  or_systemPrompt : string;
  or_historyN : option Z
}.
Arguments or_run {W}. Arguments or_models {W}. Arguments or_apply {W}. Arguments or_fallback {W}.
Arguments or_systemPrompt {W}. Arguments or_historyN {W}.

Definition WithFallback (text : string) (current : option string) : option string :=
  if bool_decide (text <> "") then Some text else current.
Definition WithConversationStore (wired : bool) (recentTurns : Z) (current : option Z) : option Z :=
  if wired then Some (if recentTurns <=? 0 then defaultHistoryTurns else recentTurns) else current.

Definition retrySoonFallback : string :=
  "The model is still starting up or busy. Please try again in a moment.".
Definition unavailableFallback : string :=
  "The model provider is currently unavailable. Please try again later.".

(** A failure that may pass: a deadline or a rate limit. *)
Definition hopeful (oc : Outcome.t) : bool :=
  match oc.(Outcome.Err) with
  | None => false
  | Some e => error_is sentinel_deadline_exceeded e || bool_decide (is_Some (error_as_rate_limit e))
  end.

Definition hasHopefulFailure (ocs : list Outcome.t) : bool := existsb hopeful ocs.

Definition sentinel_no_consensus : string := "policy: no consensus".
Definition sentinel_no_usable : string := "policy: no usable outcome".

Definition classifyPolicyErr (err : error) : bool :=
  error_is sentinel_no_usable err || error_is sentinel_no_consensus err.

Section Handle.
Context {W : Type} `{!Surroundings W} (o : Orchestrator W) (ctx : @Dispatch.Context W).

Definition fallbackText (ocs : list Outcome.t) (policyErr : error) : string :=
  match o.(or_fallback) with
  | Some text => text
  | None =>
      if error_is sentinel_no_consensus policyErr then defaultFallback
      else if hasHopefulFailure ocs then retrySoonFallback else unavailableFallback
  end.

Definition load_history (env : Envelope.t) : B W (Key * list Turn.t) :=
  match o.(or_historyN) with
  | None => mret ("", [])
  | Some n =>
      match KeyFromEnvelope (Some env) with
      | Err _ => mret ("", [])
      | Ok key =>
          history ← outside (sr_LoadRecent key n);
          mret (key, match history with Ok h => h | Err _ => [] end)
      end
  end.

Definition persistTurns (key : Key) (userText assistantText : string) : B W unit :=
  if bool_decide (o.(or_historyN) = None) || bool_decide (key = "") then mret tt
  else
    now ← look sr_now;
    match pair_turns userText assistantText now with
    | [] => mret tt
    | turns =>
        err ← outside (sr_AppendTurns key turns);
        leave (Remembered key turns err)
    end.

(** The envelopes and the error of [Handle]. *)
Definition handling := (list Envelope.t * option error)%type.

Definition misuse (what : string) (err : error) : B W (exn handling) := mret (Ret ([], Some (ErrorWrap what err))).

Definition answer_with (content : string) (env : Envelope.t) : B W (exn handling) :=
  out ← reply content env; mret (Ret (out, None)).

(** What the policy made of the outcomes. *)
Definition settle (key : Key) (env : Envelope.t) (ocs : list Outcome.t) : B W (exn handling) :=
  match o.(or_apply) ocs with
  | (_, Some err) =>
      if classifyPolicyErr err then answer_with (fallbackText ocs err) env
      else misuse "brain: policy" err
  | (dec, None) =>
      match dec ≫= Decision.Response with
      | None => mret (Panic nil_dereference)
      | Some response =>
          let content := response.(Response.Message).(Message.Content) in
          persistTurns key (TranscriptText env.(Envelope.Parts)) content;;
          answer_with content env
      end
  end.

Definition orchestrate (env : Envelope.t) : B W (exn handling) :=
  '(key, history) ← load_history env;
  match requestWithHistory env.(Envelope.Parts) o.(or_systemPrompt) history with
  | None =>
      let transcript := TranscriptText env.(Envelope.Parts) in
      (if bool_decide (transcript <> "") then persistTurns key transcript "" else mret tt);;
      mret (Ret ([], None))
  | Some req =>
      res ← outside (o.(or_run) ctx req o.(or_models));
      match res with
      | Err err => misuse "brain: fan-out" err
      | Ok ocs => settle key env ocs
      end
  end.

End Handle.

(** ** Lemmas *)

Section Orchestrating.
Context {W : Type} `{!Environment W, !Surroundings W}.
Context (o : Orchestrator W) (ctx : @Dispatch.Context W) (env : Envelope.t).

(** What the memory gets where there is a store and a key. *)
Definition keeps (user text : string) (l : list (Key * list Turn.t)) : Prop :=
  match o.(or_historyN), KeyFromEnvelope (Some env) with
  | Some _, Ok key => exists now, l = match pair_turns user text now with [] => [] | ts => [(key, ts)] end
  | _, _ => l = []
  end.

Definition good_key (key : Key) : Prop :=
  if bool_decide (o.(or_historyN) = None) then True
  else key = match KeyFromEnvelope (Some env) with Ok k => k | Err _ => "" end.

Lemma load_history_does : does (load_history o env) (fun l le x => l = [] /\ le = [] /\ good_key x.1).
Proof.
  unfold load_history, good_key. destruct o.(or_historyN) as [n|]; [|by apply does_ret].
  rewrite bool_decide_false by done. destruct (KeyFromEnvelope _) as [key|err]; [|by apply does_ret].
  apply does_after; [apply outside_does|]. intros h. by apply does_ret.
Qed.

Lemma persistTurns_does key user text : good_key key ->
  does (persistTurns o key user text) (fun l le _ => le = [] /\ keeps user text (written l)).
Proof.
  intros Hk. unfold persistTurns, keeps, good_key in *. destruct o.(or_historyN) as [n|]; [|by apply does_ret].
  rewrite bool_decide_false in Hk by done. rewrite (bool_decide_false (Some n = None)) by done. subst key.
  cbn [orb]. unfold KeyFromEnvelope. destruct (bool_decide (meta env _ = "")); [by apply does_ret|].
  rewrite bool_decide_false by (by destruct env.(Envelope.Channel)).
  apply does_after; [apply look_does|]. intros now.
  destruct (pair_turns user text now) as [|t ts] eqn:Ep; [apply does_ret; split; [done|exists now; by rewrite Ep]|].
  apply does_after; [apply outside_does|]. intros err. eapply does_weaken; [apply leave_does|].
  intros l le x [-> ->]. split; [done|]. exists now. by rewrite Ep.
Qed.

Lemma answer_with_does text : does (answer_with text env)
  (fun l le x => l = [] /\ le = [] /\ exists id now, x = Ret (decisionToEnvelopes id now text env, None)).
Proof. unfold answer_with. eapply (does_bind _ _ _ (fun out l le x => l = [] /\ le = [] /\ x = Ret (out, None)));
    [apply reply_does|intros out; by apply does_ret|].
  intros l1 e1 x l2 e2 y (-> & -> & id & now & ->) (-> & -> & ->). eauto.
Qed.

(** The text a set of outcomes is answered with, under the priority policy. *)
Definition settled (Order : list string) (ocs : list Outcome.t) (text : string)
    (l : list (Key * list Turn.t)) : Prop :=
  (exists i oc, best_choice Order ocs i /\ ocs !! i = Some oc /\ text = Policy.content oc
     /\ keeps (TranscriptText env.(Envelope.Parts)) text l)
  \/ Forall (fun oc => usable oc = false) ocs /\ l = []
     /\ (forall t, o.(or_fallback) = Some t -> text = t)
     /\ (o.(or_fallback) = None -> error_is sentinel_no_consensus (no_usable_outcome ocs) = false ->
           text = if existsb hopeful ocs then retrySoonFallback else unavailableFallback).

Lemma settle_does Order key ocs : good_key key -> (Z.of_nat (List.length Order) < MaxInt)%Z ->
  o.(or_apply) = (fun ocs => PriorityApply Order (Some ocs)) ->
  does (settle o key env ocs) (fun l le x => exists text id now,
    x = Ret (decisionToEnvelopes id now text env, None) /\ settled Order ocs text (written l)).
Proof.
  intros Hk Hlen Ha. unfold settle. rewrite Ha.
  destruct (priority_picks_the_best_usable Order ocs Hlen) as (dec & err & E & _ & Hdec).
  rewrite E. destruct err as [err|].
  - destruct Hdec as (Hall & _ & Hno & _). unfold classifyPolicyErr. change sentinel_no_usable with "policy: no usable outcome".
    rewrite Hno. cbn [orb]. eapply does_weaken; [apply answer_with_does|].
    intros l le x (-> & _ & id & now & ->). exists (fallbackText o ocs err), id, now. split; [done|]. right.
    split; [done|]. split; [done|]. unfold fallbackText. split.
    + by intros t ->.
    + intros -> Hc. assert (err = no_usable_outcome ocs) as ->.
      { unfold PriorityApply in E. destruct (best_loop _ _ _ _ _); by injection E. }
      by rewrite Hc.
  - destruct Hdec as (i & Hbest & Hresp & _). destruct Hbest as (oc & Hi & Hu & Hmin).
    rewrite Hi in Hresp. cbn in Hresp. cbn [mbind option_bind]. rewrite Hresp.
    destruct oc.(Outcome.Response) as [response|] eqn:Er; [|unfold usable in Hu; rewrite Er in Hu; by destruct (Outcome.Err oc)].
    eapply (does_bind _ _ _ (fun _ l le x => l = [] /\ exists id now,
      x = Ret (decisionToEnvelopes id now response.(Response.Message).(Message.Content) env, None)));
      [by apply persistTurns_does|intros []; eapply does_weaken; [apply answer_with_does|]; intros l le x (? & _ & ?); done|].
    intros l1 e1 x l2 e2 y [_ Hw] (-> & id & now & ->). rewrite app_nil_r.
    exists response.(Response.Message).(Message.Content), id, now. split; [done|]. left. exists i, oc.
    split_and!; [by exists oc|done|by unfold Policy.content; rewrite Er|done].
Qed.

End Orchestrating.

Lemma outside_from {W} `{!Environment W} {A} (op : W -> A * W) :
  does (outside op) (fun l le x => l = [] /\ le = [] /\ exists w, x = (op w).1).
Proof.
  intros s x s' H. destruct (outside_does op s x s' H) as (l & le & L & T & -> & ->). exists [], [].
  split_and!; try done. exists s.(bs_exec).(st_world). unfold outside, exec, quietly in H.
  destruct (op _) as [y w]. by injection H.
Qed.


(** ** A concrete run *)

#[local] Existing Instances scripted_world memory_surroundings.

Definition flaky (provider : string) (answer : option string) : Outcome.t :=
  {| Outcome.Provider := provider;
     Outcome.Response := (fun text => {| Response.Message := message Dispatch.RoleAssistant text;
       Response.Provider := provider; Response.ModelName := "m" |}) <$> answer;
     Outcome.Err := match answer with Some _ => None | None => Some DeadlineExceeded end;
     Outcome.Latency := 0 |}.

Definition two_models (ocs : list Outcome.t) : Orchestrator world :=
  {| or_run := fun _ _ _ w => (Ok ocs, w); or_models := [];
     or_apply := fun ocs => PriorityApply ["groq"; "ollama"] (Some ocs);
     or_fallback := WithFallback "" None; or_systemPrompt := "";
     or_historyN := WithConversationStore true 0 None |}.

Definition told (ocs : list Outcome.t) : list string :=
  match (orchestrate (two_models ocs) free_context hello quiet_start).1 with
  | Ret (out, None) => out ≫= fun e => map Part.Content e.(Envelope.Parts)
  | _ => []
  end.


(** A usable outcome with no text at all is sent as it is. *)
Theorem an_empty_answer_is_sent : told [flaky "groq" (Some "")] = [""].
Proof. vm_compute. reflexivity. Qed.
