(* ===== verification/Router.v ===== *)
(** * The router

    [internal/router]: one inbound message from its channel to the queue of a
    brain, with everything the router answers by itself on the way ([router.go],
    [session.go], [recall.go], [notes.go], [direct_brain.go]), and one reply
    back to its channel.  The queues, the clock, the session store, the brains
    and the channels are the surroundings; every send into a queue, write to
    the store, published event and reported error leaves a mark, in order.
    One call is modelled at a time, from any state of the registry, the
    windows and the takeovers it may find. *)

From S2P Require Import Prelude Json Text Encoding Envelope Conversation Dedup Bus Identity Protocol.
From Stdlib Require Import Ascii String.
Local Open Scope Z_scope.
Local Open Scope korvun_scope.
#[local] Arguments String.append !_ _ : simpl nomatch.

(** ** Strings *)

(** [strings.Cut] at a byte: the text before and after the first one. *)
Fixpoint Cut (sep : ascii) (s : string) : string * string * bool :=
  match s with
  | EmptyString => ("", "", false)
  | String c s' =>
      if Ascii.eqb c sep then ("", s', true)
      else let '(b, a, found) := Cut sep s' in (String c b, a, found)
  end.

Definition space : ascii := byte 32.
Definition colon : ascii := byte 58.

(** [strings.Fields]. *)
Fixpoint fields (l : list string) (word : string) : list string :=
  match l with
  | [] => if bool_decide (word = "") then [] else [word]
  | r :: l' =>
      if IsSpace r then (if bool_decide (word = "") then fields l' "" else word :: fields l' "")
      else fields l' (word +:+ r)
  end.
Definition Fields (s : string) : list string := fields (runes s) "".

(** [strconv.Atoi]. *)
Definition Atoi (s : string) : option Z :=
  let '(sign, digits) :=
    match s with
    | String c s' => if Ascii.eqb c (byte 45) then (-1, s') else if Ascii.eqb c (byte 43) then (1, s') else (1, s)
    | EmptyString => (1, s)
    end in
  if bool_decide (digits = "") then None
  else match undecimal 0 digits with
       | Some n => let z := sign * n in if bool_decide (int64_range z) then Some z else None
       | None => None
       end.

(** [url.PathUnescape]. *)
Fixpoint PathUnescape (s : string) : option string :=
  match s with
  | EmptyString => Some ""
  | String c s' =>
      if Ascii.eqb c (byte 37) then
        match s' with
        | String a (String b rest) =>
            match hex_digit a, hex_digit b with
            | Some x, Some y => String (byte (16 * x + y)) <$> PathUnescape rest
            | _, _ => None
            end
        | _ => None
        end
      else String c <$> PathUnescape s'
  end.

Definition latestEnvelopeText (parts : list Part.t) : string :=
  fold_left (fun text p =>
    if bool_decide (p.(Part.Type_) = Envelope.Text) && bool_decide (TrimSpace p.(Part.Content) <> "")
    then p.(Part.Content) else text) parts "".

(** The first token of a text and what follows it. *)
Definition command (parts : list Part.t) : string * string :=
  let '(first, rest, _) := Cut space (TrimSpace (latestEnvelopeText parts)) in (first, rest).

(** ** Days in the clock's location *)

(** A location is its zone lookup: the offset in force at an instant, and the
    instants it is in force between. *)
Definition Location := time -> duration * time * time.

Definition wall (loc : Location) (t : time) : Z := t + (loc t).1.1.

(** [time.Date] from a wall clock. *)
Definition of_wall (loc : Location) (w : Z) : time :=
  let '(offset, start, stop) := loc w in
  if bool_decide (offset = 0) then w
  else
    let utc := w - offset in
    if (utc <? start) || (stop <=? utc) then w - (loc utc).1.1 else utc.

Definition AddDays (loc : Location) (n : Z) (t : time) : time := of_wall loc (wall loc t + n * NsPerDay).

(** The last [hour]:[min] at or before [now]. *)
Definition last_boundary (loc : Location) (hour min : Z) (now : time) : time :=
  let boundary := of_wall loc (wall loc now / NsPerDay * NsPerDay + hour * (60 * Minute) + min * Minute) in
  if time_after boundary now then AddDays loc (-1) boundary else boundary.

(** ** Errors *)

Definition ErrNilEnvelope : error := ErrorNew "router: envelope is nil".
Definition ErrNotInbound : error := ErrorNew "router: envelope direction is not inbound".
Definition ErrNotOutbound : error := ErrorNew "router: envelope direction is not outbound".
Definition ErrNilChannel : error := ErrorNew "router: channel is nil".
Definition ErrEmptyChannelName : error := ErrorNew "router: channel name is empty".
Definition ErrUnknownChannel : error := ErrorNew "router: unknown channel".
Definition ErrNilBrain : error := ErrorNew "router: brain is nil".
Definition ErrEmptyBrainName : error := ErrorNew "router: brain name is empty".
Definition ErrUnknownBrain : error := ErrorNew "router: unknown brain".
Definition ErrNoRoute : error := ErrorNew "router: no route registered for channel".
Definition ErrBrainSaturated : error := ErrorNew "router: brain queue saturated".
Definition ErrShutdown : error := ErrorNew "router: shut down".
Definition ErrChannelSaturated : error := ErrorNew "router: channel outbound queue saturated".
Definition ErrChannelReceive : error := ErrorNew "router: channel Receive failed".

Definition ErrorKind := Z.
Definition ErrKindHandle : ErrorKind := 1.
Definition ErrKindSend : ErrorKind := 2.
Definition ErrKindOutboundSaturated : ErrorKind := 3.
Definition ErrKindInboundDispatch : ErrorKind := 4.
Definition ErrKindSession : ErrorKind := 5.
Definition ErrKindUnknownReplyChannel : ErrorKind := 6.

Definition ErrorKind_String (k : ErrorKind) : string :=
  if bool_decide (k = ErrKindHandle) then "handle"
  else if bool_decide (k = ErrKindSend) then "send"
  else if bool_decide (k = ErrKindOutboundSaturated) then "outbound_saturated"
  else if bool_decide (k = ErrKindInboundDispatch) then "inbound_dispatch"
  else if bool_decide (k = ErrKindUnknownReplyChannel) then "unknown_reply_channel"
  else "unknown(" +:+ Itoa k +:+ ")".

Record RouterError := {
  re_Kind : ErrorKind;
  re_Brain : string;
  re_Channel : string;
  re_Envelope : option Envelope.t;
  re_Err : error
}.

(** ** Configuration *)

Record SessionPolicy := {
  Triggers : list string;
  Daily : bool;
  DailyHour : Z;
  DailyMin : Z;
  IdleMin : Z;
  RecallMax : Z
}.

(** A work item of a brain's queue. *)
Record inboundWork := {
  iw_envelope : Envelope.t;
  iw_ingress : AuthenticatedIngress
}.

(** The session store of a router; each call may fail. *)
Record Sessions (W : Type) := {
  ss_ListSessions : Key -> W -> result (list SessionInfo.t) * W;
  ss_LoadSessionTail : Key -> Z -> Z -> W -> result (list Turn.t) * W;
  ss_NewSession : Key -> W -> option error * W;
  ss_AppendTurns : Key -> list Turn.t -> W -> option error * W
}.
Arguments ss_ListSessions {W}. Arguments ss_LoadSessionTail {W}.
Arguments ss_NewSession {W}. Arguments ss_AppendTurns {W}.

(** The app's closures over the notes: whether the brain has a memory. *)
Record NotesCommands (W : Type) := {
  nc_list : string -> Key -> W -> result (option (list Note.t)) * W;
  nc_clear : string -> Key -> W -> result bool * W
}.
Arguments nc_list {W}. Arguments nc_clear {W}.

(** A router with its options applied. *)
Record Config (W : Type) := {
  rc_enqueueTimeout : duration;
  rc_outboundEnqueueTimeout : duration;
  rc_brainWorkers : nat;
  rc_tools : option (string * (string -> W -> string * W));
  rc_notes : option (NotesCommands W);
  rc_directBrainChannel : string;
  rc_sessionStore : option (Sessions W);
  rc_sessionPolicy : SessionPolicy;
  rc_location : Location
}.
Arguments rc_enqueueTimeout {W}. Arguments rc_outboundEnqueueTimeout {W}.
Arguments rc_brainWorkers {W}. Arguments rc_tools {W}. Arguments rc_notes {W}.
Arguments rc_directBrainChannel {W}. Arguments rc_sessionStore {W}.
Arguments rc_sessionPolicy {W}. Arguments rc_location {W}.

(** The guarded options, on the field each one sets. *)
Definition at_least_one (n : Z) : Z := if n <? 1 then 1 else n.
Definition WithQueueCapacity (n _current : Z) : Z := at_least_one n.
Definition WithBrainWorkers (n _current : Z) : Z := at_least_one n.
Definition WithOutboundQueueCapacity (n _current : Z) : Z := at_least_one n.
Definition WithToolsCommand {F} (channel : string) (report : option F) (current : option (string * F))
    : option (string * F) :=
  match report with
  | Some f => if bool_decide (channel <> "") then Some (channel, f) else current
  | None => current
  end.
Definition WithDirectBrainChannel (channel current : string) : string :=
  if bool_decide (channel <> "") then channel else current.

(** ** State *)

(** A registered brain is its queue; one may take the ingress. *)
Record brainWorker := {
  bw_id : nat;
  bw_authenticated : bool
}.

Record Registry := {
  channels : gmap string nat;
  brains : gmap string brainWorker;
  routes : gmap string string;
  shutdown : bool;
  next_worker : nat
}.

(** How a [select] over a queue, a timer and two contexts ends. *)
Inductive arm :=
| Sent
| Expired
| CtxDone (err : error)
| RouterDone.

Inductive mark :=
| Enqueued (brain : brainWorker) (work : inboundWork)
| Queued (channel : nat) (env : Envelope.t)
| Published (ev : InMemoryBus.Event)
| Notified (err : RouterError)
| Deduplicated (channel : string)
| Opened (key : Key) (err : option error)
| Appended (key : Key) (turns : list Turn.t) (err : option error)
| NotesCleared (brain : string) (key : Key) (done : result bool)
| Handled (brain : brainWorker) (env : Envelope.t) (ingress : option AuthenticatedIngress)
| Delivered (channel : nat) (env : Envelope.t) (err : option error)
| Spawned (worker : nat) (goroutines : nat).

Record RSt (W : Type) := {
  rt_world : W;
  rt_registry : Registry;
  rt_cancelled : bool;
  rt_dedup : option dedupWindow;
  rt_warned : option dedupWindow;
  rt_takeover : gset Key;
  rt_marks : list mark
}.
Arguments rt_world {W}. Arguments rt_registry {W}. Arguments rt_cancelled {W}.
Arguments rt_dedup {W}. Arguments rt_warned {W}. Arguments rt_takeover {W}. Arguments rt_marks {W}.

Definition R (W A : Type) := RSt W -> A * RSt W.
#[export] Instance r_ret W : MRet (R W) := fun A a s => (a, s).
#[export] Instance r_bind W : MBind (R W) := fun A C f m s => let '(a, s1) := m s in f a s1.

Definition set_world {W} (w : W) (s : RSt W) : RSt W :=
  {| rt_world := w; rt_registry := s.(rt_registry); rt_cancelled := s.(rt_cancelled);
     rt_dedup := s.(rt_dedup); rt_warned := s.(rt_warned); rt_takeover := s.(rt_takeover);
     rt_marks := s.(rt_marks) |}.
Definition set_registry {W} (g : Registry) (s : RSt W) : RSt W :=
  {| rt_world := s.(rt_world); rt_registry := g; rt_cancelled := s.(rt_cancelled);
     rt_dedup := s.(rt_dedup); rt_warned := s.(rt_warned); rt_takeover := s.(rt_takeover);
     rt_marks := s.(rt_marks) |}.
Definition set_windows {W} (d n : option dedupWindow) (s : RSt W) : RSt W :=
  {| rt_world := s.(rt_world); rt_registry := s.(rt_registry); rt_cancelled := s.(rt_cancelled);
     rt_dedup := d; rt_warned := n; rt_takeover := s.(rt_takeover); rt_marks := s.(rt_marks) |}.
Definition set_takeover {W} (t : gset Key) (s : RSt W) : RSt W :=
  {| rt_world := s.(rt_world); rt_registry := s.(rt_registry); rt_cancelled := s.(rt_cancelled);
     rt_dedup := s.(rt_dedup); rt_warned := s.(rt_warned); rt_takeover := t; rt_marks := s.(rt_marks) |}.

(** A look at the state, a call outside, a mark. *)
Definition get {W A} (f : RSt W -> A) : R W A := fun s => (f s, s).
Definition set {W} (f : RSt W -> RSt W) : R W unit := fun s => (tt, f s).
Definition ask {W A} (op : W -> A * W) : R W A :=
  fun s => let '(x, w) := op s.(rt_world) in (x, set_world w s).
Definition leave {W} (k : mark) : R W unit :=
  set (fun s => {| rt_world := s.(rt_world); rt_registry := s.(rt_registry);
                   rt_cancelled := s.(rt_cancelled); rt_dedup := s.(rt_dedup); rt_warned := s.(rt_warned);
                   rt_takeover := s.(rt_takeover); rt_marks := s.(rt_marks) ++ [k] |}).

(** The queues, the router's clock and the one of envelopes, fresh envelope ids, brains and channels.  A [select]
    without a timer cannot expire, and one over no other context cannot end by it. *)
Class RouterWorld (W : Type) := {
  rw_now : W -> time;
  rw_timeNow : W -> time;
  rw_newID : W -> string * W;
  rw_offerBrain : brainWorker -> inboundWork -> option duration -> W -> arm * W;
  rw_offerChannel : nat -> Envelope.t -> option duration -> bool -> W -> arm * W;
  rw_Handle : brainWorker -> Envelope.t -> option AuthenticatedIngress -> W -> (list Envelope.t * option error) * W;
  rw_Send : nat -> Envelope.t -> W -> option error * W;
  rw_brain_arms : forall b x d w, (rw_offerBrain b x d w).1 <> RouterDone
    /\ (d = None -> (rw_offerBrain b x d w).1 <> Expired);
  rw_channel_arms : forall c e d ctx w, (d = None -> (rw_offerChannel c e d ctx w).1 <> Expired)
    /\ (ctx = false -> forall err, (rw_offerChannel c e d ctx w).1 <> CtxDone err)
}.

(** A timeout that is not positive is no timer. *)
Definition timer (d : duration) : option duration := if d <=? 0 then None else Some d.

Definition korvun : Participant.t := {| Participant.ID := "korvun"; Participant.Name := "Korvun" |}.
Definition MetaAck : string := "korvun.ack".
Definition AckSessionReset : string := "session-reset".
Definition AckBrainFallback : string := "brain-fallback".
Definition AckToolsReport : string := "tools-report".
Definition AckRecall : string := "session-recall".
Definition AckNotesReport : string := "notes-report".
Definition SessionResetAck : string := "New session — previous context cleared.".

Definition RecallTailWindow : Z := 32.
Definition RecallScanSessions : nat := 5.
Definition RecallBlockRunes : Z := 4000.
Definition RecallNothingReply : string := "Nothing to recall — no previous session with dialogue.".
Definition RecallRefusalReply : string :=
  "The active session already has messages — /recall works only on an empty session. Start one with /new.".
Definition RecallUsageReply : string :=
  "Usage: /recall [n] — import the last n turns of the previous session into an empty one.".
Definition RecallErrorReply : string :=
  "Recall failed — the conversation store returned an error. Nothing was imported.".
Definition recall_header (id : Z) : string :=
  "[Recalled from session " +:+ Itoa id +:+ " — quoted context, not new messages]".
Definition recall_header_truncated (id : Z) : string :=
  "[Recalled from session " +:+ Itoa id +:+ " — quoted context, not new messages — truncated: oldest lines dropped]".
Definition recall_ack (n id : Z) : string :=
  "Recalled " +:+ Itoa n +:+ " turns from session " +:+ Itoa id +:+ ".".

Definition NotesRenderCap : nat := 20.
Definition NotesReportHeader : string := "Stored notes:".
Definition NotesEmptyReply : string := "No notes stored.".
Definition NotesClearedAck : string := "Notes cleared.".
Definition NotesUsageReply : string :=
  "Usage: /notes — list the stored notes; /notes clear — remove them.".
Definition NotesErrorReply : string := "Notes failed — the store returned an error.".

Definition notes_more (n : Z) : string := "… +" +:+ Itoa n +:+ " more".

(** ** Pure parts of the commands *)

(** The brain a conversation id names, where the id is of that form. *)
Definition directBrainFromConversationID (id : string) : option string :=
  match strip_prefix "b:" id with
  | None => None
  | Some rest =>
      let '(enc, tail, found) := Cut colon rest in
      if negb found || bool_decide (enc = "") || bool_decide (tail = "") then None
      else match PathUnescape enc with
           | Some name => if bool_decide (name = "") then None else Some name
           | None => None
           end
  end.

(** Whether the active session, last used at [last], is over. *)
Definition session_expired (p : SessionPolicy) (loc : Location) (last now : time) : bool :=
  (0 <? p.(IdleMin)) && (wrap64 (p.(IdleMin) * Minute) <? time_sub now last)
  || p.(Daily) && time_before last (last_boundary loc p.(DailyHour) p.(DailyMin) now).

Definition rewriteEnvelopeText (text : string) (env : Envelope.t) : Envelope.t :=
  set_Parts [content_part Envelope.Text text] env.

Definition nonSystemTurns (turns : list Turn.t) : list Turn.t :=
  filter (fun t => t.(Turn.Role) <> RoleSystem) turns.

(** How many turns a [/recall] asks for, under the configured limit. *)
Definition recall_count (limit : Z) (rest : string) : option Z :=
  let rest := TrimSpace rest in
  if bool_decide (rest = "") then Some limit
  else match Fields rest with
       | [f] => match Atoi f with
                | Some v => if v <=? 0 then None else Some (if v <? limit then v else limit)
                | None => None
                end
       | _ => None
       end.

Definition recall_line (t : Turn.t) : string :=
  (if bool_decide (t.(Turn.Role) = RoleAssistant) || bool_decide (t.(Turn.Role) = RoleOperator)
   then "Assistant" else "User") +:+ ": " +:+ t.(Turn.Content).

Definition composeRecallBlock (header : string) (lines : list string) : string :=
  match lines with [] => header | _ => header +:+ nl +:+ Join lines nl end.

(** Drops the oldest lines until the block fits. *)
Fixpoint fitting (header : string) (lines : list string) : list string :=
  match lines with
  | [] => []
  | _ :: rest =>
      if RecallBlockRunes <? RuneCount (composeRecallBlock header lines) then fitting header rest else lines
  end.

(** The block and the lines it quotes. *)
Definition recall_block (id : Z) (lines : list string) : string * list string :=
  let block := composeRecallBlock (recall_header id) lines in
  if RecallBlockRunes <? RuneCount block then
    let kept := fitting (recall_header_truncated id) lines in
    (composeRecallBlock (recall_header_truncated id) kept, kept)
  else (block, lines).

Definition last_turns (k : Z) (dialogue : list Turn.t) : list Turn.t :=
  if k <? Z.of_nat (List.length dialogue) then drop (List.length dialogue - Z.to_nat k) dialogue else dialogue.

Fixpoint report_lines (i : Z) (ns : list Note.t) : string :=
  match ns with
  | [] => ""
  | n :: ns' => nl +:+ Itoa i +:+ ". " +:+ n.(Note.Content) +:+ report_lines (i + 1) ns'
  end.

Definition renderNotesReport (ns : list Note.t) : string :=
  match ns with
  | [] => NotesEmptyReply
  | _ =>
      let rest := (List.length ns - NotesRenderCap)%nat in
      NotesReportHeader +:+ report_lines 1 (take NotesRenderCap ns)
      +:+ (if (0 <? rest)%nat then nl +:+ notes_more (Z.of_nat rest) else "")
  end.

Section Router.
Context {W : Type} `{!RouterWorld W} (quote_verb : string -> string) (cfg : Config W).
Notation policy := (rc_sessionPolicy cfg).

(** ** Events, errors, replies *)

Definition publishEvent (ev : InMemoryBus.Event) : R W unit := leave (Published ev).

Definition lifecycle (ty : InMemoryBus.EventType) (env : Envelope.t) (brain : string) (err : option error)
    : InMemoryBus.Event :=
  {| InMemoryBus.Type_ := ty; InMemoryBus.EventEnvelope := Some env;
     InMemoryBus.Channel := env.(Envelope.Channel); InMemoryBus.Brain := brain; InMemoryBus.Err := err;
     InMemoryBus.Tool := ""; InMemoryBus.EventOutcome := ""; InMemoryBus.Rule := "";
     InMemoryBus.Latency := 0 |}.

Definition publishReceived (env : Envelope.t) (brainName : string) : R W unit :=
  publishEvent (lifecycle InMemoryBus.MessageReceived env brainName None).

(** Errors of the router's own shutdown are not reported. *)
Definition notifyError (e : RouterError) : R W unit :=
  cancelled ← get rt_cancelled;
  if cancelled : bool then mret tt else leave (Notified e).

Definition router_error (kind : ErrorKind) (brain channel : string) (env : option Envelope.t) (err : error)
    : RouterError :=
  {| re_Kind := kind; re_Brain := brain; re_Channel := channel; re_Envelope := env; re_Err := err |}.

Definition session_error (env : Envelope.t) (err : error) : R W unit :=
  notifyError (router_error ErrKindSession "" "" (Some env) err).

Definition sendReply (env : Envelope.t) : R W unit :=
  g ← get rt_registry;
  if g.(shutdown) : bool then mret tt
  else
    match g.(channels) !! env.(Envelope.Channel) with
    | None =>
        notifyError (router_error ErrKindUnknownReplyChannel "" env.(Envelope.Channel) (Some env)
                       (ErrorWrap (quote_verb env.(Envelope.Channel) +:+ " (reply dropped)") ErrUnknownChannel))
    | Some cw =>
        a ← ask (rw_offerChannel cw env (timer cfg.(rc_outboundEnqueueTimeout)) false);
        match a with
        | Sent => leave (Queued cw env)
        | Expired =>
            notifyError (router_error ErrKindOutboundSaturated "" env.(Envelope.Channel) (Some env)
                           ErrChannelSaturated)
        | _ => mret tt
        end
    end.

Definition ConversationKey (env : option Envelope.t) : string :=
  match KeyFromEnvelope env with Ok k => k | Err _ => "" end.

(** A reply of the router itself, marked as an acknowledgement. *)
Definition system_reply (id : string) (now : time) (ack text : string) (env : Envelope.t) : Envelope.t :=
  let out := AddText text (New id now env.(Envelope.Channel) Outbound korvun) in
  {| Envelope.ID := out.(Envelope.ID); Envelope.Channel := out.(Envelope.Channel);
     Envelope.Direction := out.(Envelope.Direction); Envelope.Sender := out.(Envelope.Sender);
     Envelope.Parts := out.(Envelope.Parts); Envelope.Timestamp := out.(Envelope.Timestamp);
     Envelope.Meta := <[MetaAck := ack]> (env.(Envelope.Meta) ∪ out.(Envelope.Meta));
     Envelope.Keyboard := out.(Envelope.Keyboard); Envelope.Operation := out.(Envelope.Operation) |}.

Definition respond (ack text : string) (env : Envelope.t) : R W unit :=
  id ← ask rw_newID;
  now ← get (fun s => rw_timeNow s.(rt_world));
  sendReply (system_reply id now ack text env).

Definition clock : R W time := get (fun s => rw_now s.(rt_world)).

(** ** Windows *)

(** One look into a window that is made on first use. *)
Definition window_seen (k : string) (now : time) (w : option dedupWindow) : bool * option dedupWindow :=
  let '(dup, w') := seen k now (default (newDedupWindow DedupCapacity DedupTTL) w) in (dup, Some w').

Definition dedup_seen (key : string) : R W bool :=
  now ← clock;
  (fun s => let '(dup, w) := window_seen key now s.(rt_dedup) in (dup, set_windows w s.(rt_warned) s)) : R W bool.

Definition warned_seen (key : string) : R W bool :=
  now ← clock;
  (fun s => let '(dup, w) := window_seen key now s.(rt_warned) in (dup, set_windows s.(rt_dedup) w s)) : R W bool.

Definition dedupForget (key : string) : R W unit :=
  if bool_decide (key = "") then mret tt
  else set (fun s => set_windows (forget key <$> s.(rt_dedup)) s.(rt_warned) s).

Definition brainFallbackNotice (name : string) : string :=
  "El cerebro " +:+ quote_verb name
  +:+ " ya no existe — esta conversación continúa con el cerebro por defecto.".

Definition maybeSendBrainFallback (env : Envelope.t) (ghost : string) : R W unit :=
  dup ← warned_seen (env.(Envelope.Channel) +:+ "::" +:+ meta env MetaConversationID);
  if dup : bool then mret tt else respond AckBrainFallback (brainFallbackNotice ghost) env.

(** ** Sessions *)

Definition NewSession (ss : Sessions W) (key : Key) : R W (option error) :=
  err ← ask (ss.(ss_NewSession) key);
  leave (Opened key err);;
  mret err.

Definition AppendTurns (ss : Sessions W) (key : Key) (turns : list Turn.t) : R W (option error) :=
  err ← ask (ss.(ss_AppendTurns) key turns);
  leave (Appended key turns err);;
  mret err.

Definition turn (role content : string) (now : time) : Turn.t :=
  {| Turn.Role := role; Turn.Content := content; Turn.Timestamp := now; Turn.Seq := 0 |}.

Definition maybeExpireSession (ss : Sessions W) (key : Key) (env : Envelope.t) : R W unit :=
  if negb policy.(Daily) && (policy.(IdleMin) <=? 0) then mret tt
  else
    listed ← ask (ss.(ss_ListSessions) key);
    match listed with
    | Err err => session_error env err
    | Ok sessions =>
        match list.last sessions with
        | None => mret tt
        | Some active =>
            if time_is_zero active.(SessionInfo.Last) then mret tt
            else
              now ← clock;
              if session_expired policy cfg.(rc_location) active.(SessionInfo.Last) now then
                err ← NewSession ss key;
                match err with Some err => session_error env err | None => mret tt end
              else mret tt
        end
    end.

(** What a trigger leaves to dispatch: the message as it was, its remainder,
    or nothing. *)
Inductive triggered :=
| NotTriggered
| Remainder (env : Envelope.t)
| Acknowledged.

Definition maybeHandleTrigger (ss : Sessions W) (key : Key) (env : Envelope.t) : R W triggered :=
  if bool_decide (policy.(Triggers) = []) then mret NotTriggered
  else
    let text := latestEnvelopeText env.(Envelope.Parts) in
    if bool_decide (text = "") then mret NotTriggered
    else
      let '(first, rest, _) := Cut space (TrimSpace text) in
      if negb (contains policy.(Triggers) first) then mret NotTriggered
      else
        err ← NewSession ss key;
        match err with
        | Some err => session_error env err;; mret NotTriggered
        | None =>
            let rest := TrimSpace rest in
            if bool_decide (rest = "") then respond AckSessionReset SessionResetAck env;; mret Acknowledged
            else mret (Remainder (rewriteEnvelopeText rest env))
        end.

(** *** /recall *)

Definition recallReply (env : Envelope.t) (text : string) : R W unit := respond AckRecall text env.

Definition recallError (env : Envelope.t) (err : error) : R W unit :=
  session_error env (ErrorWrap "recall" err);;
  recallReply env RecallErrorReply.

(** Whether the active session holds no dialogue. *)
Definition recall_refused (active : SessionInfo.t) (tail : list Turn.t) : bool :=
  (0 <? List.length (nonSystemTurns tail))%nat || (RecallTailWindow <? active.(SessionInfo.TurnCount)).

(** The newest of the sessions probed that has dialogue; id 0 is none. *)
Fixpoint recall_scan (ss : Sessions W) (key : Key) (newest_first : list SessionInfo.t)
    : R W (result (Z * list Turn.t)) :=
  match newest_first with
  | [] => mret (Ok (0, []))
  | info :: older =>
      tail ← ask (ss.(ss_LoadSessionTail) key info.(SessionInfo.ID) RecallTailWindow);
      match tail with
      | Err err => mret (Err err)
      | Ok turns =>
          match nonSystemTurns turns with
          | [] => recall_scan ss key older
          | dialogue => mret (Ok (info.(SessionInfo.ID), dialogue))
          end
      end
  end.

Definition recall_import (ss : Sessions W) (key : Key) (env : Envelope.t) (k : Z)
    (source : Z * list Turn.t) : R W unit :=
  if bool_decide (source.1 = 0) then recallReply env RecallNothingReply
  else
    let '(block, lines) := recall_block source.1 (map recall_line (last_turns k source.2)) in
    now ← clock;
    err ← AppendTurns ss key [turn RoleUser block now];
    match err with
    | Some err => recallError env err
    | None => recallReply env (recall_ack (Z.of_nat (List.length lines)) source.1)
    end.

Definition recall_sessions (ss : Sessions W) (key : Key) (env : Envelope.t) (k : Z)
    (sessions : list SessionInfo.t) : R W unit :=
  refused ←
    match list.last sessions with
    | None => mret (Ok false)
    | Some active =>
        tail ← ask (ss.(ss_LoadSessionTail) key active.(SessionInfo.ID) RecallTailWindow);
        mret match tail with Err err => Err err | Ok turns => Ok (recall_refused active turns) end
    end;
  match refused with
  | Err err => recallError env err
  | Ok true => recallReply env RecallRefusalReply
  | Ok false =>
      source ← recall_scan ss key (take RecallScanSessions (reverse (removelast sessions)));
      match source with
      | Err err => recallError env err
      | Ok src => recall_import ss key env k src
      end
  end.

Definition maybeHandleRecall (ss : Sessions W) (key : Key) (env : Envelope.t) (brainName : string) : R W bool :=
  let '(first, rest) := command env.(Envelope.Parts) in
  if (policy.(RecallMax) <=? 0) || bool_decide (first <> "/recall") then mret false
  else
    publishReceived env brainName;;
    match recall_count policy.(RecallMax) rest with
    | None => recallReply env RecallUsageReply;; mret true
    | Some k =>
        listed ← ask (ss.(ss_ListSessions) key);
        match listed with
        | Err err => recallError env err
        | Ok sessions => recall_sessions ss key env k sessions
        end;;
        mret true
    end.

(** *** /notes and /tools *)

Definition notesReply (env : Envelope.t) (text : string) : R W unit := respond AckNotesReport text env.

Definition notesError (env : Envelope.t) (brainName : string) (err : error) : R W unit :=
  publishReceived env brainName;;
  session_error env (ErrorWrap "notes" err);;
  notesReply env NotesErrorReply.

(** An answer of the closures: an error, no memory, or a text to reply. *)
Definition notes_answer (env : Envelope.t) (brainName : string) (text : result (option string)) : R W bool :=
  match text with
  | Err err => notesError env brainName err;; mret true
  | Ok None => mret false
  | Ok (Some text) => publishReceived env brainName;; notesReply env text;; mret true
  end.

Definition notes_text (f : list Note.t -> string) (r : result (option (list Note.t))) : result (option string) :=
  match r with Err err => Err err | Ok None => Ok None | Ok (Some ns) => Ok (Some (f ns)) end.

Definition maybeHandleNotes (key : Key) (env : Envelope.t) (brainName : string) : R W bool :=
  match cfg.(rc_notes) with
  | None => mret false
  | Some nc =>
      let '(first, rest) := command env.(Envelope.Parts) in
      if bool_decide (first <> "/notes") then mret false
      else
        let rest := TrimSpace rest in
        if bool_decide (rest = "") then
          r ← ask (nc.(nc_list) brainName key);
          notes_answer env brainName (notes_text renderNotesReport r)
        else if bool_decide (rest = "clear") then
          r ← ask (nc.(nc_clear) brainName key);
          leave (NotesCleared brainName key r);;
          notes_answer env brainName
            match r with
            | Err err => Err err
            | Ok true => Ok (Some NotesClearedAck)
            | Ok false => Ok None
            end
        else
          r ← ask (nc.(nc_list) brainName key);
          notes_answer env brainName (notes_text (fun _ => NotesUsageReply) r)
  end.

Definition maybeHandleToolsCommand (env : Envelope.t) (brainName : string) : R W bool :=
  match cfg.(rc_tools) with
  | None => mret false
  | Some (toolsChannel, toolsReport) =>
      if bool_decide (env.(Envelope.Channel) <> toolsChannel)
         || bool_decide ((command env.(Envelope.Parts)).1 <> "/tools") then mret false
      else
        id ← ask rw_newID;
        now ← get (fun s => rw_timeNow s.(rt_world));
        report ← ask (toolsReport brainName);
        publishReceived env brainName;;
        sendReply (system_reply id now AckToolsReport report env);;
        mret true
  end.

(** *** Takeover *)

Definition TakeOver (key : Key) : R W unit := set (fun s => set_takeover ({[ key ]} ∪ s.(rt_takeover)) s).
Definition Release (key : Key) : R W unit := set (fun s => set_takeover (s.(rt_takeover) ∖ {[ key ]}) s).
Definition TakenOver (key : Key) : R W bool := get (fun s => bool_decide (key ∈ s.(rt_takeover))).

(** A message to a human: kept, announced, not dispatched. *)
Definition silenced (key : Key) (env : Envelope.t) (brainName : string) : R W unit :=
  match cfg.(rc_sessionStore) with
  | Some ss =>
      let text := TranscriptText env.(Envelope.Parts) in
      if bool_decide (text = "") then mret tt
      else
        now ← clock;
        err ← AppendTurns ss key [turn RoleUser text now];
        match err with Some err => session_error env err | None => mret tt end
  | None => mret tt
  end;;
  publishReceived env brainName.

(** The session pipeline before a brain: the message to dispatch, or nothing
    where it was handled here. *)
Definition session_stage (key : Key) (env : Envelope.t) (brainName : string) : R W (option Envelope.t) :=
  match cfg.(rc_sessionStore) with
  | None => mret (Some env)
  | Some ss =>
      maybeExpireSession ss key env;;
      t ← maybeHandleTrigger ss key env;
      match t with
      | Acknowledged => mret None
      | t =>
          let env := match t with Remainder env' => env' | _ => env end in
          handled ← maybeHandleRecall ss key env brainName;
          mret (if handled : bool then None else Some env)
      end
  end.

Definition sessionPreDispatch (env : Envelope.t) (brainName : string) : R W (option Envelope.t) :=
  match KeyFromEnvelope (Some env) with
  | Err _ => mret (Some env)
  | Ok key =>
      staged ← session_stage key env brainName;
      match staged with
      | None => mret None
      | Some env =>
          handled ← maybeHandleNotes key env brainName;
          if handled : bool then mret None
          else
            handled ← maybeHandleToolsCommand env brainName;
            if handled : bool then mret None
            else
              taken ← TakenOver key;
              if taken : bool then silenced key env brainName;; mret None
              else mret (Some env)
      end
  end.

(** ** Dispatch *)

(** The brain of an envelope under the registry, and the name its conversation
    asked for in vain. *)
Definition target (g : Registry) (env : Envelope.t) : result (string * brainWorker * option string) :=
  if g.(shutdown) then Err ErrShutdown
  else
    match g.(channels) !! env.(Envelope.Channel) with
    | None => Err (ErrorWrap (quote_verb env.(Envelope.Channel)) ErrUnknownChannel)
    | Some _ =>
        match g.(routes) !! env.(Envelope.Channel) with
        | None => Err (ErrorWrap ("channel " +:+ quote_verb env.(Envelope.Channel)) ErrNoRoute)
        | Some brainName =>
            match g.(brains) !! brainName with
            | None => Err (ErrorWrap (quote_verb brainName) ErrUnknownBrain)
            | Some bw =>
                if bool_decide (cfg.(rc_directBrainChannel) <> "")
                   && bool_decide (env.(Envelope.Channel) = cfg.(rc_directBrainChannel)) then
                  match directBrainFromConversationID (meta env MetaConversationID) with
                  | Some name =>
                      match g.(brains) !! name with
                      | Some chosen => Ok (name, chosen, None)
                      | None => Ok (brainName, bw, Some name)
                      end
                  | None => Ok (brainName, bw, None)
                  end
                else Ok (brainName, bw, None)
            end
        end
    end.

Definition enqueue (bw : brainWorker) (brainName key : string) (work : inboundWork) : R W (option error) :=
  a ← ask (rw_offerBrain bw work (timer cfg.(rc_enqueueTimeout)));
  match a with
  | Sent =>
      leave (Enqueued bw work);;
      publishReceived work.(iw_envelope) brainName;;
      mret None
  | CtxDone err => dedupForget key;; mret (Some err)
  | _ => dedupForget key;; mret (Some ErrBrainSaturated)
  end.

Definition routed (env : Envelope.t) (ingress : AuthenticatedIngress) (brainName : string) (bw : brainWorker)
    : R W (option error) :=
  let key := dedupKey env in
  dup ← (if bool_decide (key = "") then mret false else dedup_seen key);
  if dup : bool then
    publishEvent (lifecycle InMemoryBus.MessageDropped env brainName (Some ErrDuplicateEvent));;
    leave (Deduplicated env.(Envelope.Channel));;
    mret None
  else
    next ← sessionPreDispatch env brainName;
    match next with
    | None => mret None
    | Some env' => enqueue bw brainName key {| iw_envelope := env'; iw_ingress := ingress |}
    end.

Definition DispatchInbound (env : option Envelope.t) (ingress : AuthenticatedIngress) : R W (option error) :=
  match env with
  | None => mret (Some ErrNilEnvelope)
  | Some env =>
      if bool_decide (env.(Envelope.Direction) <> Inbound) then mret (Some ErrNotInbound)
      else if bool_decide (meta env MetaConversationID = "") then mret (Some ErrNoConversationID)
      else
        g ← get rt_registry;
        match target g env with
        | Err err => mret (Some err)
        | Ok (brainName, bw, ghost) =>
            match ghost with Some name => maybeSendBrainFallback env name | None => mret tt end;;
            routed env ingress brainName bw
        end
  end.

Definition dispatchFromPump (channelName : string) (env : option Envelope.t) (ingress : AuthenticatedIngress)
    : R W unit :=
  err ← DispatchInbound env ingress;
  match err with
  | Some err => notifyError (router_error ErrKindInboundDispatch "" channelName env err)
  | None => mret tt
  end.

(** ** Replies *)

Fixpoint send_all (out : list Envelope.t) : R W unit :=
  match out with
  | [] => mret tt
  | reply :: out' => sendReply reply;; send_all out'
  end.

Definition handleAndReply (brainName : string) (bw : brainWorker) (work : inboundWork) : R W unit :=
  let ingress := if bw.(bw_authenticated) then Some work.(iw_ingress) else None in
  '(out, err) ← ask (rw_Handle bw work.(iw_envelope) ingress);
  leave (Handled bw work.(iw_envelope) ingress);;
  match err with
  | Some err => notifyError (router_error ErrKindHandle brainName "" (Some work.(iw_envelope)) err)
  | None => send_all out
  end.

Definition deliver (cw : nat) (name : string) (env : Envelope.t) : R W unit :=
  err ← ask (rw_Send cw env);
  leave (Delivered cw env err);;
  match err with
  | Some err => notifyError (router_error ErrKindSend "" name (Some env) err)
  | None =>
      publishEvent {| InMemoryBus.Type_ := InMemoryBus.ReplySent; InMemoryBus.EventEnvelope := Some env;
                      InMemoryBus.Channel := name; InMemoryBus.Brain := ""; InMemoryBus.Err := None;
                      InMemoryBus.Tool := ""; InMemoryBus.EventOutcome := ""; InMemoryBus.Rule := "";
                      InMemoryBus.Latency := 0 |}
  end.

(** The operator's reply: its turn is kept before it is queued. *)
Definition operator_turn (env : Envelope.t) : R W (option error) :=
  match cfg.(rc_sessionStore), KeyFromEnvelope (Some env) with
  | Some ss, Ok key =>
      let text := latestEnvelopeText env.(Envelope.Parts) in
      if bool_decide (text = "") then mret None
      else
        now ← clock;
        err ← AppendTurns ss key [turn RoleOperator text now];
        mret match err with
             | Some err => Some (ErrorWrap ("router: persist operator turn " +:+ quote_verb key) err)
             | None => None
             end
  | _, _ => mret None
  end.

Definition DispatchOutbound (env : option Envelope.t) : R W (option error) :=
  match env with
  | None => mret (Some ErrNilEnvelope)
  | Some env =>
      if bool_decide (env.(Envelope.Direction) <> Outbound) then mret (Some ErrNotOutbound)
      else
        g ← get rt_registry;
        if g.(shutdown) : bool then mret (Some ErrShutdown)
        else
          match g.(channels) !! env.(Envelope.Channel) with
          | None => mret (Some (ErrorWrap (quote_verb env.(Envelope.Channel)) ErrUnknownChannel))
          | Some cw =>
              failed ← operator_turn env;
              match failed with
              | Some err => mret (Some err)
              | None =>
                  a ← ask (rw_offerChannel cw env (timer cfg.(rc_outboundEnqueueTimeout)) true);
                  match a with
                  | Sent => leave (Queued cw env);; mret None
                  | Expired => mret (Some (ErrorWrap (quote_verb env.(Envelope.Channel)) ErrChannelSaturated))
                  | CtxDone err => mret (Some err)
                  | RouterDone => mret (Some ErrShutdown)
                  end
              end
          end
  end.

(** ** Registration *)

(** A channel as registration sees it: its name and what [Receive] answers. *)
Definition RegisterChannel (ch : option (string * option error)) : R W (option error) :=
  match ch with
  | None => mret (Some ErrNilChannel)
  | Some (name, received) =>
      if bool_decide (name = "") then mret (Some ErrEmptyChannelName)
      else
        match received with
        | Some err => mret (Some (ErrorWrap ("channel " +:+ quote_verb name) (ErrorJoin [ErrChannelReceive; err])))
        | None =>
            g ← get rt_registry;
            if g.(shutdown) : bool then mret (Some ErrShutdown)
            else
              set (set_registry {| channels := <[name := g.(next_worker)]> g.(channels); brains := g.(brains);
                                   routes := g.(routes); shutdown := g.(shutdown);
                                   next_worker := S g.(next_worker) |});;
              leave (Spawned g.(next_worker) 2);;
              mret None
        end
  end.

(** A brain as registration sees it: whether it takes the ingress. *)
Definition RegisterBrain (name : string) (b : option bool) : R W (option error) :=
  match b with
  | None => mret (Some ErrNilBrain)
  | Some authenticated =>
      if bool_decide (name = "") then mret (Some ErrEmptyBrainName)
      else
        g ← get rt_registry;
        if g.(shutdown) : bool then mret (Some ErrShutdown)
        else
          set (set_registry {| channels := g.(channels);
                               brains := <[name := {| bw_id := g.(next_worker);
                                                      bw_authenticated := authenticated |}]> g.(brains);
                               routes := g.(routes); shutdown := g.(shutdown);
                               next_worker := S g.(next_worker) |});;
          leave (Spawned g.(next_worker) cfg.(rc_brainWorkers));;
          mret None
  end.

Definition Route (channelName brainName : string) : R W (option error) :=
  g ← get rt_registry;
  if g.(shutdown) : bool then mret (Some ErrShutdown)
  else if bool_decide (g.(channels) !! channelName = None)
       then mret (Some (ErrorWrap (quote_verb channelName) ErrUnknownChannel))
  else if bool_decide (g.(brains) !! brainName = None)
       then mret (Some (ErrorWrap (quote_verb brainName) ErrUnknownBrain))
  else
    set (set_registry {| channels := g.(channels); brains := g.(brains);
                         routes := <[channelName := brainName]> g.(routes); shutdown := g.(shutdown);
                         next_worker := g.(next_worker) |});;
    mret None.

(** What [Shutdown] does before it waits. *)
Definition stop : R W unit :=
  set (fun s =>
    {| rt_world := s.(rt_world);
       rt_registry := {| channels := s.(rt_registry).(channels); brains := s.(rt_registry).(brains);
                         routes := s.(rt_registry).(routes); shutdown := true;
                         next_worker := s.(rt_registry).(next_worker) |};
       rt_cancelled := true; rt_dedup := s.(rt_dedup); rt_warned := s.(rt_warned);
       rt_takeover := s.(rt_takeover); rt_marks := s.(rt_marks) |}).

End Router.

(** ** Lemmas *)

(** A history as a run over a window. *)
Definition window_step (e : Dedup.event) (w : dedupWindow) : dedupWindow :=
  match e with Seen k now => (seen k now w).2 | Forget k => forget k w end.
Definition event_key (e : Dedup.event) : string := match e with Seen k _ | Forget k => k end.

Lemma after_run c d es h : after c d (es ++ h) = foldr window_step (after c d h) es.
Proof. induction es as [|[k' t|k'] es' IH]; cbn; [done|..]; by rewrite IH. Qed.

Section Windows.
Context (c : Z) (d : duration) (es h : list Dedup.event) (k : string) (now now' : time).
Context (Hother : Forall (fun e => event_key e <> k) es).

Lemma last_touch_skip : last_touch k (es ++ h) = last_touch k h.
Proof.
  induction Hother as [|[k' t|k'] es' Hk Hes IH]; cbn in *; [done|..]; rewrite bool_decide_false by done; auto.
Qed.

Lemma touched_since_skip : (size (touched_since k (es ++ Seen k now :: h)) <= List.length es)%nat.
Proof.
  induction Hother as [|[k' t|k'] es' Hk Hes IH]; cbn [app touched_since event_key] in *.
  - by rewrite bool_decide_true, size_empty.
  - specialize (IH Hes). rewrite bool_decide_false by done. pose proof (size_union_alt ({[k']} : gset string) (touched_since k (es' ++ Seen k now :: h))) as Hu.
    rewrite size_singleton in Hu.
    assert (size (touched_since k (es' ++ Seen k now :: h) ∖ {[k']}) <= size (touched_since k (es' ++ Seen k now :: h)))%nat
      by (apply subseteq_size; set_solver).
    rewrite Hu. cbn [List.length]. lia.
  - specialize (IH Hes). cbn [List.length]. lia.
Qed.

End Windows.

Section Seen.
Context (c : Z) (d : duration) (es h : list Dedup.event) (k : string) (now now' : time).
Context (Hother : Forall (fun e => event_key e <> k) es).

(** A key is a duplicate for the whole TTL after it was seen, while fewer
    other calls come in between than the window has places. *)
Lemma seen_again : now' - now <= d -> Z.of_nat (List.length es) < c ->
  (seen k now' (after c d (es ++ Seen k now :: h))).1 = true.
Proof.
  intros Hd Hes. set (w := after c d _).
  pose proof (after_ok c d (es ++ Seen k now :: h)) as Hok. fold w in Hok.
  pose proof (after_cap c d (es ++ Seen k now :: h)) as [Hc Ht]. fold w in Hc, Ht.
  pose proof (lookup_spec _ w k Hok) as Hl. destruct Hok as [_ _ _ _ _ Htime _ Hcomp].
  assert (last_touch k (es ++ Seen k now :: h) = Some now) as Hlast
    by (rewrite last_touch_skip by done; cbn; by rewrite bool_decide_true).
  pose proof (touched_since_skip es h k now Hother) as Hsz.
  destruct (Hcomp _ _ Hlast) as [Hin|Hs]; [|lia].
  unfold seen. destruct (_ ≫= _) as [el|]; [|done]. destruct Hl as [Hel <-].
  rewrite Forall_forall in Htime. apply Htime in Hel. rewrite Hlast in Hel. injection Hel as <-.
  unfold time_sub. rewrite Ht. by rewrite (proj2 (Z.leb_le _ _)).
Qed.

(** A key that was forgotten is new. *)
Lemma seen_forgotten : (seen k now' (after c d (es ++ Forget k :: h))).1 = false.
Proof.
  set (w := after c d _).
  pose proof (after_ok c d (es ++ Forget k :: h)) as Hok. fold w in Hok.
  pose proof (lookup_spec _ w k Hok) as Hl. destruct Hok as [_ _ _ _ _ Htime _ _].
  unfold seen. destruct (_ ≫= _) as [el|]; [|done]. destruct Hl as [Hel <-].
  rewrite Forall_forall in Htime. apply Htime in Hel. rewrite last_touch_skip in Hel by done. cbn in Hel.
  by rewrite bool_decide_true in Hel.
Qed.

End Seen.

(** A window is a product of its own operations. *)
Definition made (w : option dedupWindow) : Prop :=
  exists h, default (newDedupWindow DedupCapacity DedupTTL) w = after DedupCapacity DedupTTL h.

Lemma made_None : made None.
Proof. by exists []. Qed.

Definition later (es : list Dedup.event) (w : option dedupWindow) : option dedupWindow :=
  (fun x => foldr window_step x es) <$> w.

Lemma window_seen_made k now w es now' : made w -> Forall (fun e => event_key e <> k) es ->
  Z.of_nat (List.length es) < DedupCapacity ->
  (now' - now <= DedupTTL -> (window_seen k now' (later es (window_seen k now w).2)).1 = true)
  /\ (window_seen k now' (later es (forget k <$> (window_seen k now w).2))).1 = false.
Proof.
  intros [h Hh] Hes Hl. unfold window_seen. rewrite Hh.
  destruct (seen k now (after DedupCapacity DedupTTL h)) as [b x] eqn:E.
  assert (x = after DedupCapacity DedupTTL (Seen k now :: h)) as -> by (cbn; by rewrite E).
  cbn [later fmap option_fmap option_map default snd]. split.
  - intros Hd. rewrite <- after_run.
    pose proof (seen_again DedupCapacity DedupTTL es h k now now' Hes Hd Hl) as Hs. by destruct (seen k now' _).
  - change (forget k (after DedupCapacity DedupTTL (Seen k now :: h)))
      with (after DedupCapacity DedupTTL (Forget k :: Seen k now :: h)).
    rewrite <- after_run.
    pose proof (seen_forgotten DedupCapacity DedupTTL es (Seen k now :: h) k now' Hes) as Hs. by destruct (seen k now' _).
Qed.

(** *** What a call leaves, over a registry it does not change *)

Record View := { v_registry : Registry; v_cancelled : bool; v_takeover : gset Key }.

Definition view {W} (s : RSt W) : View :=
  {| v_registry := s.(rt_registry); v_cancelled := s.(rt_cancelled); v_takeover := s.(rt_takeover) |}.

Record steady {W} (s s' : RSt W) : Prop := {
  steady_view : view s' = view s;
  steady_dedup : s'.(rt_dedup) = s.(rt_dedup);
  steady_warned : s'.(rt_warned) = s.(rt_warned)
}.

#[export] Instance steady_preorder W : PreOrder (@steady W).
Proof. split; [by intros s|]. intros a b c [V1 D1 N1] [V2 D2 N2]. split; congruence. Qed.

Section Does.
Context {W : Type} (v : View).

Definition does {A} (m : R W A) (P : list mark -> A -> Prop) : Prop :=
  forall s x s', view s = v -> m s = (x, s') ->
    exists l, s'.(rt_marks) = s.(rt_marks) ++ l /\ steady s s' /\ P l x.

Lemma routing_ret {A} (x : A) (P : list mark -> A -> Prop) : P [] x -> does (mret x) P.
Proof. intros H s y s' _ [= <- <-]. exists []. by rewrite app_nil_r. Qed.

Lemma routing_bind {A C} (m : R W A) (f : A -> R W C) Q S (P : list mark -> C -> Prop) :
  does m Q -> (forall x l, Q l x -> does (f x) (S l x)) -> (forall l1 x l2 y, S l1 x l2 y -> P (l1 ++ l2) y) ->
  does (m ≫= f) P.
Proof.
  intros Hm Hf HP s y s' Hv H. unfold mbind, r_bind in H. destruct (m s) as [x s1] eqn:E.
  destruct (Hm _ _ _ Hv E) as (l1 & L1 & St1 & Q1). pose proof St1 as [V1 _ _]. rewrite Hv in V1.
  destruct (Hf x l1 Q1 _ _ _ V1 H) as (l2 & L2 & St2 & S2).
  exists (l1 ++ l2). rewrite L2, L1, app_assoc. split_and!; [done|by transitivity s1|by apply HP in S2].
Qed.

Lemma does_seq {A C} (m : R W A) (f : A -> R W C) Q (P : list mark -> C -> Prop) :
  does m Q -> (forall x l, Q l x -> does (f x) (fun l' y => P (l ++ l') y)) -> does (m ≫= f) P.
Proof. intros Hm Hf. eapply (routing_bind _ _ _ (fun l1 _ l y => P (l1 ++ l) y)); [exact Hm|exact Hf|done]. Qed.

Lemma routing_weaken {A} (m : R W A) (P Q : list mark -> A -> Prop) :
  does m P -> (forall l x, P l x -> Q l x) -> does m Q.
Proof. intros H HPQ s x s' V E. destruct (H _ _ _ V E) as (l & ? & ? & ?). exists l. auto. Qed.

Lemma does_and {A} (m : R W A) (P : list mark -> A -> Prop) (Q : A -> Prop) :
  does m P -> (forall s x s', m s = (x, s') -> Q x) -> does m (fun l x => P l x /\ Q x).
Proof. intros H HQ s x s' V E. destruct (H _ _ _ V E) as (l & ? & ? & ?). exists l. eauto. Qed.

(** A call that leaves no mark, before another one. *)
Lemma routing_after {A C} (m : R W A) (f : A -> R W C) (Q : A -> Prop) (P : list mark -> C -> Prop) :
  does m (fun l x => l = [] /\ Q x) -> (forall x, Q x -> does (f x) P) -> does (m ≫= f) P.
Proof.
  intros Hm Hf. eapply (routing_bind m f _ (fun l1 _ l y => P (l1 ++ l) y)); [exact Hm| |done].
  intros x l [-> Hq]. by apply Hf.
Qed.

Lemma ask_does {A} (op : W -> A * W) (Q : A -> Prop) : (forall w, Q (op w).1) ->
  does (ask op) (fun l x => l = [] /\ Q x).
Proof.
  intros HQ s x s' Hv H. unfold ask in H. destruct (op _) as [y w] eqn:E. injection H as <- <-.
  exists []. rewrite app_nil_r. split_and!; [done|by split|done|]. pose proof (HQ s.(rt_world)) as Hq.
  by rewrite E in Hq.
Qed.

Lemma after_ask {A C} (op : W -> A * W) (f : A -> R W C) (P : list mark -> C -> Prop) :
  (forall x, does (f x) P) -> does (ask op ≫= f) P.
Proof. intros Hf. eapply (routing_after _ _ (fun _ => True)); [by apply ask_does|auto]. Qed.

Lemma after_get {A C} (g : RSt W -> A) (f : A -> R W C) (P : list mark -> C -> Prop) :
  (forall s, view s = v -> does (f (g s)) P) -> does (get g ≫= f) P.
Proof.
  intros Hf s y s' Hv H. unfold mbind, r_bind, get in H. by apply (Hf s Hv) in H.
Qed.

Lemma routing_leave k : does (leave k) (fun l _ => l = [k]).
Proof. intros s x s' Hv [= <- <-]. exists [k]. by split_and!. Qed.

Lemma after_leave {C} k (f : unit -> R W C) (P : list mark -> C -> Prop) :
  does (f tt) (fun l y => P (k :: l) y) -> does (leave k ≫= f) P.
Proof.
  intros Hf. eapply (routing_bind _ _ _ (fun l1 _ l y => P (l1 ++ l) y)); [apply routing_leave| |done].
  intros [] l ->. eapply routing_weaken; [exact Hf|]. done.
Qed.

End Does.

(** *** What the router does by itself *)

Section Own.
Context {W : Type} `{!RouterWorld W} (quote_verb : string -> string) (cfg : Config W) (v : View).
Notation policy := (rc_sessionPolicy cfg).

(** A mark of the router's own dealings with one conversation: a reply, an
    event or an error of it, or a write under its key. *)
Definition own (cw : nat) (env : Envelope.t) (key : Key) (k : mark) : Prop :=
  match k with
  | Queued c e =>
      c = cw /\ e.(Envelope.Channel) = env.(Envelope.Channel) /\ e.(Envelope.Direction) = Outbound
      /\ e.(Envelope.Sender) = korvun
      /\ exists ack, e.(Envelope.Meta) = <[MetaAck := ack]> env.(Envelope.Meta)
  | Published ev => ev.(InMemoryBus.Type_) = InMemoryBus.MessageReceived
  | Notified e => e.(re_Kind) = ErrKindSession \/ e.(re_Kind) = ErrKindOutboundSaturated
  | Opened k' _ | NotesCleared _ k' _ => k' = key
  | Appended k' ts _ => k' = key /\ exists text now, ts = [turn RoleUser text now]
  | _ => False
  end.

Context (cw : nat) (env : Envelope.t) (key : Key).
Context (Hcw : v.(v_registry).(channels) !! env.(Envelope.Channel) = Some cw).

Definition owned {A} (m : R W A) : Prop := does v m (fun l _ => Forall (own cw env key) l).

Lemma owned_ret {A} (x : A) : owned (mret x).
Proof. by apply routing_ret. Qed.

Lemma owned_bind {A C} (m : R W A) (f : A -> R W C) : owned m -> (forall x, owned (f x)) -> owned (m ≫= f).
Proof.
  intros Hm Hf. eapply (routing_bind v m f _ (fun l1 _ l _ => Forall (own cw env key) (l1 ++ l)));
    [exact Hm| |done].
  intros x l Hl. eapply routing_weaken; [apply Hf|]. intros l' y Hl'. by apply Forall_app.
Qed.

Lemma owned_ask {A} (op : W -> A * W) : owned (ask op).
Proof. eapply routing_weaken; [by apply (ask_does v op (fun _ => True))|]. by intros l x [-> _]. Qed.

Lemma owned_get {A} (g : RSt W -> A) : owned (get g).
Proof. intros s x s' _ [= <- <-]. exists []. by rewrite app_nil_r. Qed.

Lemma owned_leave k : own cw env key k -> owned (leave k).
Proof. intros H. eapply routing_weaken; [apply routing_leave|]. intros l x ->. by constructor. Qed.

Lemma owned_notify e : e.(re_Kind) = ErrKindSession \/ e.(re_Kind) = ErrKindOutboundSaturated ->
  owned (notifyError e).
Proof.
  intros H. apply owned_bind; [apply owned_get|]. intros []; [apply owned_ret|by apply owned_leave].
Qed.


#[local] Hint Resolve owned_ret owned_ask owned_get : router.
Ltac owns := repeat first
  [ solve [auto with router]
  | match goal with
    | |- owned (_ ≫= _) => apply owned_bind; [|intros ?]
    | |- owned (if ?b then _ else _) => destruct b
    | |- owned (let '(_, _) := ?x in _) => destruct x
    | |- owned (match ?x with _ => _ end) => destruct x
    end ].

Lemma sendReply_owned e : own cw env key (Queued cw e) -> owned (sendReply quote_verb cfg e).
Proof.
  intros H s x s' Hv E. pose proof H as (_ & Hc & _). unfold sendReply in E.
  revert s x s' Hv E. fold (owned (sendReply quote_verb cfg e)). unfold sendReply.
  apply after_get. intros s Hs.
  assert (s.(rt_registry) = v.(v_registry)) as -> by (by rewrite <- Hs).
  destruct (shutdown _); [apply owned_ret|]. rewrite Hc, Hcw.
  apply owned_bind; [apply owned_ask|]. intros [| |err|]; [by apply owned_leave| |apply owned_ret..].
  apply owned_notify. by right.
Qed.

Lemma respond_owned ack text : owned (respond quote_verb cfg ack text env).
Proof.
  unfold respond. owns. apply sendReply_owned. split_and!; try done. exists ack. cbn. by rewrite map_union_empty.
Qed.
#[local] Hint Resolve respond_owned : router.

Lemma session_error_owned e err : owned (session_error e err).
Proof. apply owned_notify. by left. Qed.
#[local] Hint Resolve session_error_owned : router.

Lemma publishReceived_owned e b : owned (publishReceived e b).
Proof. by apply owned_leave. Qed.
#[local] Hint Resolve publishReceived_owned : router.

Lemma NewSession_owned ss : owned (NewSession ss key).
Proof. unfold NewSession. owns. by apply owned_leave. Qed.
#[local] Hint Resolve NewSession_owned : router.

Lemma AppendTurns_owned ss text now : owned (AppendTurns ss key [turn RoleUser text now]).
Proof. unfold AppendTurns. owns. apply owned_leave. cbn. eauto. Qed.
#[local] Hint Resolve AppendTurns_owned : router.

Lemma maybeExpireSession_owned ss e : owned (maybeExpireSession cfg ss key e).
Proof. unfold maybeExpireSession, clock. owns. Qed.

Lemma maybeHandleRecall_owned ss b : owned (maybeHandleRecall quote_verb cfg ss key env b).
Proof.
  assert (forall err, owned (recallError quote_verb cfg env err)) as He
    by (intros err; unfold recallError, recallReply; owns).
  unfold maybeHandleRecall, recallReply. destruct (command _) as [first rest]. owns.
  unfold recall_sessions, recallReply. owns.
  - generalize (take RecallScanSessions (reverse (removelast a))). intros l. induction l as [|i l IH];
      cbn [recall_scan]; owns.
  - unfold recall_import, recallReply, clock. owns.
Qed.

Lemma maybeHandleNotes_owned b : owned (maybeHandleNotes quote_verb cfg key env b).
Proof.
  assert (forall r, owned (notes_answer quote_verb cfg env b r)) as Ha
    by (intros r; unfold notes_answer, notesError, notesReply; owns).
  unfold maybeHandleNotes. destruct cfg.(rc_notes); [|apply owned_ret]. destruct (command _) as [first rest].
  owns. by apply owned_leave.
Qed.

Lemma maybeHandleToolsCommand_owned b : owned (maybeHandleToolsCommand quote_verb cfg env b).
Proof.
  unfold maybeHandleToolsCommand. owns. apply sendReply_owned. split_and!; try done. eexists. cbn.
  by rewrite map_union_empty.
Qed.

Lemma silenced_owned b : owned (silenced cfg key env b).
Proof. unfold silenced, clock. owns. Qed.


(** The commands of a router: the only texts it keeps from a brain. *)
Definition commanded (e : Envelope.t) : Prop :=
  let first := (command e.(Envelope.Parts)).1 in
  (exists ss, cfg.(rc_sessionStore) = Some ss /\ (first ∈ policy.(Triggers) \/ first = "/recall" /\ 0 < policy.(RecallMax)))
  \/ (exists nc, cfg.(rc_notes) = Some nc /\ first = "/notes")
  \/ exists report, cfg.(rc_tools) = Some (e.(Envelope.Channel), report) /\ first = "/tools".

(** What is left of a message behind a trigger. *)
Definition remainder (l : list mark) (e : Envelope.t) : Prop :=
  exists rest, e = rewriteEnvelopeText rest env /\ rest <> "" /\ Opened key None ∈ l
    /\ (command env.(Envelope.Parts)).1 ∈ policy.(Triggers).

Lemma maybeHandleTrigger_does ss : does v (maybeHandleTrigger quote_verb cfg ss key env)
  (fun l t => Forall (own cw env key) l
     /\ match t with
        | NotTriggered => True
        | Remainder e => remainder l e
        | Acknowledged => (command env.(Envelope.Parts)).1 ∈ policy.(Triggers)
        end).
Proof.
  unfold maybeHandleTrigger, remainder, command. destruct (bool_decide _); [by apply routing_ret|].
  destruct (bool_decide _); [by apply routing_ret|]. destruct (Cut _ _) as [[first rest] found] eqn:Ec.
  destruct (contains _ first) eqn:Et; [|by apply routing_ret]. apply contains_true in Et. cbn [negb].
  apply (does_seq v _ _ (fun l x => l = [Opened key x] /\ Forall (own cw env key) l)).
  { unfold NewSession. apply after_ask. intros err. apply after_leave. apply routing_ret. split; [done|]. by constructor. }
  intros err l [-> Hl]. destruct err as [err|].
  - eapply does_seq; [apply session_error_owned|]. intros x l1 H1. apply routing_ret. by rewrite app_nil_r, Forall_app.
  - case_bool_decide.
    + eapply does_seq; [apply respond_owned|]. intros x l1 H1. apply routing_ret. by rewrite app_nil_r, Forall_app.
    + apply routing_ret. rewrite app_nil_r. split; [done|]. exists (TrimSpace rest). split_and!; try done. by left.
Qed.

Lemma maybeHandleRecall_does ss b : does v (maybeHandleRecall quote_verb cfg ss key env b)
  (fun l handled => Forall (own cw env key) l
     /\ (handled = true -> (command env.(Envelope.Parts)).1 = "/recall" /\ 0 < policy.(RecallMax))).
Proof.
  apply does_and; [apply maybeHandleRecall_owned|]. intros s x s'. unfold maybeHandleRecall.
  destruct (command _) as [first rest]. cbn [fst]. destruct (_ <=? _) eqn:Er; [by intros [= <- _]|]. bools. cbn [orb].
  case_bool_decide as Ef; [by intros [= <- _]|]. intros _ _. split; [by destruct (decide (first = "/recall"))|lia].
Qed.

Lemma maybeHandleNotes_does b : does v (maybeHandleNotes quote_verb cfg key env b)
  (fun l handled => Forall (own cw env key) l
     /\ (handled = true -> exists nc, cfg.(rc_notes) = Some nc /\ (command env.(Envelope.Parts)).1 = "/notes")).
Proof.
  apply does_and; [apply maybeHandleNotes_owned|]. intros s x s'. unfold maybeHandleNotes.
  destruct cfg.(rc_notes) as [nc|]; [|by intros [= <- _]]. destruct (command _) as [first rest]. cbn [fst].
  case_bool_decide as Ef; [by intros [= <- _]|]. intros _ _. exists nc. by destruct (decide (first = "/notes")).
Qed.

Lemma maybeHandleToolsCommand_does b : does v (maybeHandleToolsCommand quote_verb cfg env b)
  (fun l handled => Forall (own cw env key) l
     /\ (handled = true -> exists report, cfg.(rc_tools) = Some (env.(Envelope.Channel), report)
           /\ (command env.(Envelope.Parts)).1 = "/tools")).
Proof.
  apply does_and; [apply maybeHandleToolsCommand_owned|]. intros s x s'. unfold maybeHandleToolsCommand.
  destruct cfg.(rc_tools) as [[ch report]|]; [|by intros [= <- _]].
  case_bool_decide as Ec; [by intros [= <- _]|]. cbn [orb]. case_bool_decide as Ef; [by intros [= <- _]|]. intros _ _.
  destruct (decide (env.(Envelope.Channel) = ch)) as [->|]; [|done].
  destruct (decide ((command env.(Envelope.Parts)).1 = "/tools")); [by exists report|done].
Qed.

End Own.

(** *** The pipeline before a brain *)

Section Pipeline.
Context {W : Type} `{!RouterWorld W} (quote_verb : string -> string) (cfg : Config W) (v : View).
Context (cw : nat) (env : Envelope.t) (key : Key) (b : string).
Context (Hcw : v.(v_registry).(channels) !! env.(Envelope.Channel) = Some cw).
Notation own := (own cw env key).
Notation commanded := (commanded cfg env).

(** The message a stage lets through: as it was, or the remainder of a trigger. *)
Definition passed (l : list mark) (e : Envelope.t) : Prop := e = env \/ remainder cfg env key l e.

Lemma passed_app l l' e : passed l e -> passed (l ++ l') e.
Proof.
  intros [->|(rest & -> & H1 & H2 & H3)]; [by left|]. right. exists rest. split_and!; try done. set_solver.
Qed.

Lemma passed_same l e : passed l e ->
  e.(Envelope.Channel) = env.(Envelope.Channel) /\ e.(Envelope.Meta) = env.(Envelope.Meta)
  /\ e.(Envelope.Direction) = env.(Envelope.Direction).
Proof. by intros [->|(rest & -> & _)]. Qed.

Lemma own_passed l e k : passed l e -> Router.own cw e key k -> own k.
Proof. by intros [->|(rest & -> & _)]. Qed.

(** A command behind a trigger is the trigger's. *)
Lemma passed_commanded l e : is_Some cfg.(rc_sessionStore) -> passed l e ->
  Router.commanded cfg e -> commanded.
Proof.
  intros [ss Hss] [->|(rest & -> & _ & _ & Ht)] H; [done|]. left. exists ss. split; [done|by left].
Qed.

Lemma session_stage_does : does v (session_stage quote_verb cfg key env b)
  (fun l x => Forall own l
     /\ match x with
        | None => commanded
        | Some e => passed l e /\ (e = env \/ is_Some cfg.(rc_sessionStore))
        end).
Proof.
  unfold session_stage. destruct cfg.(rc_sessionStore) as [ss|] eqn:Es;
    [|apply routing_ret; split_and!; [done|by left|by left]].
  eapply does_seq; [apply (maybeExpireSession_owned cfg v cw env key)|]. intros u l1 H1. cbn beta.
  eapply does_seq; [by apply (maybeHandleTrigger_does quote_verb cfg v cw)|].
  intros t l2 [H2 Ht]. cbn beta.
  assert (forall e, passed (l1 ++ l2) e ->
    does v (handled ← maybeHandleRecall quote_verb cfg ss key e b; mret (if handled : bool then None else Some e))
      (fun l x => Forall own (l1 ++ l2 ++ l)
         /\ match x with
            | None => commanded
            | Some e => passed (l1 ++ l2 ++ l) e /\ (e = env \/ is_Some (Some ss))
            end)) as Hr.
  { intros e Hp. pose proof (passed_same _ _ Hp) as (Hc & _ & _).
    eapply does_seq; [apply (maybeHandleRecall_does quote_verb cfg v cw e key); by rewrite Hc|].
    intros handled l3 [H3 Hh]. apply routing_ret. rewrite app_nil_r. split.
    - rewrite !Forall_app. split_and!; try done. eapply Forall_impl; [exact H3|]. intros k. by apply (own_passed (l1 ++ l2)).
    - destruct handled.
      + apply (passed_commanded (l1 ++ l2) e); [by rewrite Es|done|]. left. exists ss. split; [done|right; by apply Hh].
      + split; [rewrite app_assoc; by apply passed_app|by right]. }
  destruct t as [|e|].
  - apply (Hr env). by left.
  - apply (Hr e). right. destruct Ht as (rest & -> & ? & ? & ?). exists rest. split_and!; try done. set_solver.
  - apply routing_ret. rewrite app_nil_r, Forall_app. split; [done|]. left. exists ss. split; [done|by left].
Qed.


(** A message kept for a human: in the memory if there is one, and announced. *)
Definition kept (l : list mark) : Prop :=
  exists e, passed l e
    /\ (is_Some cfg.(rc_sessionStore) -> TranscriptText e.(Envelope.Parts) <> "" ->
        exists now err, Appended key [turn RoleUser (TranscriptText e.(Envelope.Parts)) now] err ∈ l)
    /\ Published (lifecycle InMemoryBus.MessageReceived e b None) ∈ l.

Lemma silenced_does e : v.(v_registry).(channels) !! e.(Envelope.Channel) = Some cw ->
  does v (silenced cfg key e b) (fun l _ => Forall (Router.own cw e key) l
    /\ (is_Some cfg.(rc_sessionStore) -> TranscriptText e.(Envelope.Parts) <> "" ->
        exists now err, Appended key [turn RoleUser (TranscriptText e.(Envelope.Parts)) now] err ∈ l)
    /\ Published (lifecycle InMemoryBus.MessageReceived e b None) ∈ l).
Proof.
  intros He. unfold silenced.
  apply (does_seq v _ _ (fun l _ => Forall (Router.own cw e key) l
    /\ (is_Some cfg.(rc_sessionStore) -> TranscriptText e.(Envelope.Parts) <> "" ->
        exists now err, Appended key [turn RoleUser (TranscriptText e.(Envelope.Parts)) now] err ∈ l))).
  - destruct cfg.(rc_sessionStore) as [ss|]; [|apply routing_ret; split; [done|by intros [? [=]]]].
    case_bool_decide; [by apply routing_ret|]. apply after_get. intros s _. unfold AppendTurns.
    apply (does_seq v _ _ (fun l err => l = [Appended key [turn RoleUser (TranscriptText e.(Envelope.Parts)) (rw_now s.(rt_world))] err])).
    { apply after_ask. intros err. apply after_leave. by apply routing_ret. }
    intros err l ->.
    assert (forall l' : list mark, Forall (Router.own cw e key) l' ->
      Forall (Router.own cw e key) ([Appended key [turn RoleUser (TranscriptText e.(Envelope.Parts)) (rw_now s.(rt_world))] err] ++ l')
      /\ (is_Some (Some ss) -> TranscriptText e.(Envelope.Parts) <> "" ->
         exists now err', Appended key [turn RoleUser (TranscriptText e.(Envelope.Parts)) now] err'
           ∈ [Appended key [turn RoleUser (TranscriptText e.(Envelope.Parts)) (rw_now s.(rt_world))] err] ++ l')) as Hl.
    { intros l' Hl'. split; [|intros _ _; eexists _, err; by left]. constructor; [|done]. split; [done|by eexists _, _]. }
    destruct err; [|by apply routing_ret, Hl].
    eapply routing_weaken; [apply session_error_owned|]. intros l x. apply Hl.
  - intros x l [H1 H2]. eapply routing_weaken; [apply routing_leave|]. intros l' y ->. split_and!.
    + apply Forall_app. split; [done|]. by constructor.
    + intros Hs Ht. destruct (H2 Hs Ht) as (now & err & Hin). exists now, err. set_solver.
    + set_solver.
Qed.

Lemma sessionPreDispatch_does : KeyFromEnvelope (Some env) = Ok key ->
  does v (sessionPreDispatch quote_verb cfg env b)
    (fun l x => Forall own l
       /\ match x with
          | None => commanded \/ key ∈ v.(v_takeover) /\ kept l
          | Some e => passed l e /\ key ∉ v.(v_takeover)
          end).
Proof.
  intros Hkey. unfold sessionPreDispatch. rewrite Hkey. eapply does_seq; [apply session_stage_does|].
  intros [e|] l1 [H1 Hx]; [destruct Hx as [Hp Hs]|apply routing_ret; rewrite app_nil_r; auto]. cbn beta.
  pose proof (passed_same _ _ Hp) as (Hc & _ & _).
  assert (v.(v_registry).(channels) !! e.(Envelope.Channel) = Some cw) as Hce by (by rewrite Hc).
  assert (Router.commanded cfg e -> commanded) as Hcom
    by (destruct Hs as [->|Hs]; [done|by apply (passed_commanded l1)]).
  assert (forall k, Router.own cw e key k -> own k) as Hown by (intros k; by apply (own_passed l1)).
  eapply does_seq; [by apply (maybeHandleNotes_does quote_verb cfg v cw e key)|]. intros handled l2 [H2 Hn]. cbn beta.
  pose proof (Forall_impl _ _ _ H2 Hown) as Ho2.
  destruct handled; [apply routing_ret; rewrite app_nil_r, Forall_app; split; [done|left; apply Hcom; right; left; by apply Hn]|].
  eapply does_seq; [by apply (maybeHandleToolsCommand_does quote_verb cfg v cw e key)|].
  intros handled l3 [H3 Ht]. cbn beta. pose proof (Forall_impl _ _ _ H3 Hown) as Ho3.
  destruct handled; [apply routing_ret; rewrite app_nil_r, !Forall_app; split; [done|left; apply Hcom; right; right; by apply Ht]|].
  unfold TakenOver. apply after_get. intros s Hv.
  assert (s.(rt_takeover) = v.(v_takeover)) as -> by (by rewrite <- Hv).
  case_bool_decide as Hk.
  - eapply does_seq; [by apply silenced_does|]. intros u l4 (H4 & H5 & H6). apply routing_ret. rewrite app_nil_r. split.
    + rewrite !Forall_app. split_and!; try done. by apply (Forall_impl _ _ _ H4).
    + right. split; [done|]. exists e. split_and!.
      * by apply passed_app.
      * intros Hst Htt. destruct (H5 Hst Htt) as (now & err & Hin). exists now, err. set_solver.
      * set_solver.
  - apply routing_ret. rewrite app_nil_r. split; [by rewrite !Forall_app|]. split; [by apply passed_app|done].
Qed.


(** *** The fate of a message *)

Definition dropped_marks : list mark :=
  [Published (lifecycle InMemoryBus.MessageDropped env b (Some ErrDuplicateEvent));
   Deduplicated env.(Envelope.Channel)].

Inductive fate (bw : brainWorker) (ingress : AuthenticatedIngress) : bool -> list mark -> option error -> Prop :=
| Dropped : fate bw ingress true dropped_marks None
| Kept l : Forall own l -> commanded \/ key ∈ v.(v_takeover) /\ kept l -> fate bw ingress false l None
| Dispatched l e : Forall own l -> passed l e -> key ∉ v.(v_takeover) ->
    fate bw ingress false (l ++ [Enqueued bw {| iw_envelope := e; iw_ingress := ingress |};
                                 Published (lifecycle InMemoryBus.MessageReceived e b None)]) None
| Refused l err : Forall own l -> key ∉ v.(v_takeover) -> fate bw ingress false l (Some err).

(** The window after a message: it holds the event where the message was taken. *)
Definition window_after (now : time) (w : option dedupWindow) (err : option error) : option dedupWindow :=
  if bool_decide (dedupKey env = "") then w
  else
    let w' := (window_seen (dedupKey env) now w).2 in
    match err with None => w' | Some _ => forget (dedupKey env) <$> w' end.

Definition duplicate (now : time) (w : option dedupWindow) : bool :=
  negb (bool_decide (dedupKey env = "")) && (window_seen (dedupKey env) now w).1.

Lemma enqueue_spec bw k work s s' err : view s = v -> enqueue cfg bw b k work s = (err, s') ->
  view s' = v /\ s'.(rt_warned) = s.(rt_warned)
  /\ match err with
     | None => s'.(rt_dedup) = s.(rt_dedup)
         /\ s'.(rt_marks) = s.(rt_marks) ++ [Enqueued bw work;
              Published (lifecycle InMemoryBus.MessageReceived work.(iw_envelope) b None)]
     | Some _ => s'.(rt_dedup) = (if bool_decide (k = "") then s.(rt_dedup) else forget k <$> s.(rt_dedup))
         /\ s'.(rt_marks) = s.(rt_marks)
     end.
Proof.
  intros Hv. unfold enqueue, mbind, r_bind, ask. destruct (rw_offerBrain _ _ _ _) as [a w].
  destruct a; cbn.
  1: { unfold publishReceived, publishEvent, leave, set, mret, r_ret. intros [= <- <-]. cbn. by rewrite <- app_assoc. }
  all: unfold dedupForget; case_bool_decide; intros [= <- <-]; by split_and!.
Qed.

Lemma routed_spec bw ingress s s' err : KeyFromEnvelope (Some env) = Ok key -> view s = v ->
  routed quote_verb cfg env ingress b bw s = (err, s') ->
  exists l, s'.(rt_marks) = s.(rt_marks) ++ l /\ view s' = v /\ s'.(rt_warned) = s.(rt_warned)
    /\ fate bw ingress (duplicate (rw_now s.(rt_world)) s.(rt_dedup)) l err
    /\ s'.(rt_dedup) = window_after (rw_now s.(rt_world)) s.(rt_dedup) err.
Proof.
  intros Hkey Hv. unfold routed, duplicate, window_after. unfold mbind at 1, r_bind at 1.
  set (look := if bool_decide _ then _ else _).
  assert (look s = if bool_decide (dedupKey env = "") then (false, s)
                   else let '(dup, w) := window_seen (dedupKey env) (rw_now s.(rt_world)) s.(rt_dedup)
                        in (dup, set_windows w s.(rt_warned) s)) as ->
    by (unfold look; by case_bool_decide).
  assert (forall s1 s' err, view s1 = v ->
    (next ← sessionPreDispatch quote_verb cfg env b;
     match next with
     | None => mret None
     | Some e => enqueue cfg bw b (dedupKey env) {| iw_envelope := e; iw_ingress := ingress |}
     end) s1 = (err, s') ->
    exists l, s'.(rt_marks) = s1.(rt_marks) ++ l /\ view s' = v /\ s'.(rt_warned) = s1.(rt_warned)
      /\ fate bw ingress false l err
      /\ s'.(rt_dedup) = match err with
                         | None => s1.(rt_dedup)
                         | Some _ => if bool_decide (dedupKey env = "") then s1.(rt_dedup)
                                     else forget (dedupKey env) <$> s1.(rt_dedup)
                         end) as Hrest.
  { clear s s' err Hv look. intros s s' err Hv E. unfold mbind, r_bind in E.
    destruct (sessionPreDispatch _ _ _ _ s) as [next s1] eqn:Ep.
    destruct (sessionPreDispatch_does Hkey _ _ _ Hv Ep) as (l & Hl & [V D N] & Ho & Hx). rewrite Hv in V.
    destruct next as [e|].
    - destruct (enqueue_spec _ _ _ _ _ _ V E) as (V' & N' & He). destruct Hx as [Hp Hk].
      destruct err as [err|]; destruct He as [D' M'].
      + exists l. rewrite M', N', D', D, N. split_and!; try done. by constructor.
      + exists (l ++ [Enqueued bw {| iw_envelope := e; iw_ingress := ingress |};
                      Published (lifecycle InMemoryBus.MessageReceived e b None)]).
        rewrite M', Hl, N', D', D, N, <- app_assoc. split_and!; try done. by constructor.
    - injection E as <- <-. exists l. split_and!; try done. by constructor. }
  case_bool_decide as Ek.
  - intros E. destruct (Hrest _ _ _ Hv E) as (l & ? & ? & ? & ? & Hd). exists l. split_and!; try done.
    rewrite Hd. by destruct err.
  - destruct (window_seen _ _ _) as [[] w] eqn:Ew; cbn [negb andb fst snd].
    + intros [= <- <-]. exists dropped_marks. cbn. rewrite <- app_assoc. split_and!; try done. constructor.
    + intros E. destruct (Hrest (set_windows w s.(rt_warned) s) _ _ Hv E) as (l & ? & ? & ? & ? & Hd). exists l.
      split_and!; try done.
Qed.

End Pipeline.

(** *** Dispatch *)

Section Fates.
Context {W : Type} `{!RouterWorld W} (quote_verb : string -> string) (cfg : Config W).

(** Why a message is not dispatched at all. *)
Definition refusal (g : Registry) (env : Envelope.t) : option error :=
  fail_if (bool_decide (env.(Envelope.Direction) <> Inbound)) ErrNotInbound ;;;
  fail_if (bool_decide (meta env MetaConversationID = "")) ErrNoConversationID ;;;
  match target quote_verb cfg g env with Err err => Some err | Ok _ => None end.

Lemma refusal_None g env : refusal g env = None ->
  env.(Envelope.Direction) = Inbound
  /\ KeyFromEnvelope (Some env) = Ok (env.(Envelope.Channel) +:+ "::" +:+ meta env MetaConversationID)
  /\ exists t, target quote_verb cfg g env = Ok t.
Proof.
  unfold refusal, KeyFromEnvelope. case_bool_decide as Hd; [done|]. case_bool_decide as Hm; [done|]. cbn.
  destruct (target _ _ _ _) as [t|err]; [|done]. intros _. split_and!; [|done|by exists t].
  by destruct (decide (env.(Envelope.Direction) = Inbound)).
Qed.

(** Who a message goes to: the brain its channel is routed to, or on the one
    enabled channel the registered brain its conversation names. *)
Lemma target_spec g env b bw ghost : target quote_verb cfg g env = Ok (b, bw, ghost) ->
  g.(shutdown) = false /\ (exists cw, g.(channels) !! env.(Envelope.Channel) = Some cw)
  /\ g.(brains) !! b = Some bw
  /\ (exists routed, g.(routes) !! env.(Envelope.Channel) = Some routed
       /\ (b = routed \/ ghost = None /\ directBrainFromConversationID (meta env MetaConversationID) = Some b))
  /\ (env.(Envelope.Channel) <> cfg.(rc_directBrainChannel) ->
        g.(routes) !! env.(Envelope.Channel) = Some b /\ ghost = None)
  /\ (forall name, ghost = Some name -> g.(brains) !! name = None
        /\ directBrainFromConversationID (meta env MetaConversationID) = Some name).
Proof.
  unfold target. destruct (shutdown g); [done|]. destruct (channels g !! _) as [cw|]; [|done].
  destruct (routes g !! _) as [r|] eqn:Er; [|done]. destruct (brains g !! r) as [w|] eqn:Eb; [|done].
  destruct (bool_decide (_ <> "") && _) eqn:Ec.
  - apply andb_true_iff in Ec as [_ Hc%bool_decide_eq_true].
    destruct (directBrainFromConversationID _) as [name|].
    + destruct (brains g !! name) as [chosen|] eqn:En; intros [= <- <- <-]; (split_and!; [done|by exists cw|done|exists r; split; [done|]|done|]); try naive_solver.
    + intros [= <- <- <-]. split_and!; [done|by exists cw|done|exists r; split; [done|by left]|done|done].
  - intros [= <- <- <-]. split_and!; [done|by exists cw|done|exists r; split; [done|by left]|done|done].
Qed.

Lemma maybeSendBrainFallback_spec v cw env key name s s' x : view s = v ->
  v.(v_registry).(channels) !! env.(Envelope.Channel) = Some cw ->
  maybeSendBrainFallback quote_verb cfg env name s = (x, s') ->
  exists l, s'.(rt_marks) = s.(rt_marks) ++ l /\ view s' = v /\ s'.(rt_dedup) = s.(rt_dedup)
    /\ Forall (own cw env key) l.
Proof.
  intros Hv Hcw. unfold maybeSendBrainFallback, warned_seen, clock, get, mbind, r_bind.
  destruct (window_seen _ _ _) as [[] w]; [intros [= <- <-]; exists []; by rewrite app_nil_r|].
  intros E. destruct (respond_owned quote_verb cfg v cw env key Hcw _ _ (set_windows s.(rt_dedup) w s) _ _ Hv E)
    as (l & Hl & [V D N] & Ho).
  exists l. cbn in *. split_and!; try done. by rewrite V.
Qed.

Lemma DispatchInbound_spec env ingress s s' err :
  DispatchInbound quote_verb cfg (Some env) ingress s = (err, s') ->
  match refusal s.(rt_registry) env with
  | Some e => err = Some e /\ s' = s
  | None => exists key b bw ghost cw now notice l,
      KeyFromEnvelope (Some env) = Ok key /\ target quote_verb cfg s.(rt_registry) env = Ok (b, bw, ghost)
      /\ s.(rt_registry).(channels) !! env.(Envelope.Channel) = Some cw
      /\ s'.(rt_marks) = s.(rt_marks) ++ notice ++ l /\ view s' = view s
      /\ Forall (own cw env key) notice /\ (ghost = None -> notice = [] /\ now = rw_now s.(rt_world))
      /\ fate cfg (view s) cw env key b bw ingress (duplicate env now s.(rt_dedup)) l err
      /\ s'.(rt_dedup) = window_after env now s.(rt_dedup) err
  end.
Proof.
  unfold DispatchInbound. intros E. destruct (refusal _ _) as [e|] eqn:Er.
  - unfold refusal in Er. case_bool_decide; [by injection Er as <-; injection E as <- <-|].
    case_bool_decide; [by injection Er as <-; injection E as <- <-|].
    cbn in Er. unfold mbind, r_bind, get in E. destruct (target _ _ _ _) as [t|err']; [done|].
    injection Er as <-. by injection E as <- <-.
  - apply refusal_None in Er as (Hd & Hk & [[b bw] ghost] & Ht).
    pose proof (target_spec _ _ _ _ _ Ht) as (_ & [cw Hcw] & _).
    rewrite (bool_decide_false (env.(Envelope.Direction) <> Inbound)) in E by (intros Hn; by apply Hn). rewrite bool_decide_false in E
      by (intros Hm; unfold KeyFromEnvelope in Hk; by rewrite bool_decide_true in Hk).
    unfold mbind, r_bind, get in E. rewrite Ht in E. fold (@mbind (R W) _) in E.
    exists (env.(Envelope.Channel) +:+ "::" +:+ meta env MetaConversationID), b, bw, ghost, cw.
    destruct ghost as [name|].
    + destruct (maybeSendBrainFallback _ _ _ _ _) as [u s1] eqn:Ef.
      destruct (maybeSendBrainFallback_spec _ _ _ (env.(Envelope.Channel) +:+ "::" +:+ meta env MetaConversationID) _ _ _ _ eq_refl Hcw Ef) as (n & M1 & V1 & D1 & O1).
      destruct (routed_spec quote_verb cfg (view s) cw env _ b Hcw _ _ _ _ _ Hk V1 E) as (l & M2 & V2 & _ & F & D2).
      rewrite D1 in F, D2. exists (rw_now s1.(rt_world)), n, l.
      split_and!; try done. by rewrite M2, M1, app_assoc.
    + destruct (routed_spec quote_verb cfg (view s) cw env _ b Hcw _ _ s _ _ Hk eq_refl E) as (l & M2 & V2 & _ & F & D2).
      exists (rw_now s.(rt_world)), [], l. split_and!; try done.
Qed.

End Fates.

(** *** Recall *)

Lemma elem_of_removelast {A} (x : A) l : x ∈ removelast l -> x ∈ l.
Proof.
  induction l as [|y [|z l] IH]; cbn; [done|by intros ?%elem_of_nil|].
  intros [->|H]%elem_of_cons; [by left|right; by apply IH].
Qed.

Lemma elem_of_take_sub {A} (x : A) n l : x ∈ take n l -> x ∈ l.
Proof. intros H. rewrite <- (take_drop n l). apply elem_of_app. by left. Qed.

Lemma fitting_spec header lines : exists dropped, lines = dropped ++ fitting header lines
  /\ (fitting header lines = [] \/ RuneCount (composeRecallBlock header (fitting header lines)) <= RecallBlockRunes).
Proof.
  induction lines as [|x lines (dropped & Hd & Hf)]; [exists []; auto|]. cbn [fitting].
  destruct (_ <? _) eqn:E; bools; [exists (x :: dropped); split; [cbn; by f_equal|done]|].
  exists []. auto.
Qed.

Lemma recall_block_spec id lines block kept : recall_block id lines = (block, kept) ->
  exists dropped, lines = dropped ++ kept
    /\ (kept = [] \/ RuneCount block <= RecallBlockRunes)
    /\ block = composeRecallBlock (if bool_decide (dropped = []) && (RuneCount (composeRecallBlock (recall_header id) lines) <=? RecallBlockRunes)
                                   then recall_header id else recall_header_truncated id) kept.
Proof.
  unfold recall_block. destruct (_ <? _) eqn:E; bools; intros [= <- <-].
  - destruct (fitting_spec (recall_header_truncated id) lines) as (dropped & Hd & Hf). exists dropped.
    split_and!; [done|done|]. by rewrite (proj2 (Z.leb_gt _ _)), andb_false_r.
  - exists []. split_and!; [done|by right|]. by rewrite bool_decide_true, (proj2 (Z.leb_le _ _)).
Qed.

Definition dialogue_of (tail : Z -> list Turn.t) (info : SessionInfo.t) : list Turn.t :=
  nonSystemTurns (tail info.(SessionInfo.ID)).

(** What [/recall] should take from the sessions of a key: nothing while the
    active one has dialogue, else the newest of the last archived ones that has. *)
Definition recall_source (tail : Z -> list Turn.t) (sessions : list SessionInfo.t) : option SessionInfo.t :=
  if match list.last sessions with
     | Some active => recall_refused active (tail active.(SessionInfo.ID))
     | None => false
     end then None
  else List.find (fun info => bool_decide (dialogue_of tail info <> []))
         (take RecallScanSessions (reverse (removelast sessions))).

Section Recall.
Context {W : Type} `{!RouterWorld W} (quote_verb : string -> string) (cfg : Config W) (v : View).
Context (ss : Sessions W) (key : Key) (env : Envelope.t) (cw : nat).
Context (Hcw : v.(v_registry).(channels) !! env.(Envelope.Channel) = Some cw).
Context (sessions : list SessionInfo.t) (tail : Z -> list Turn.t).
Context (Hids : Forall (fun info => info.(SessionInfo.ID) <> 0) sessions).
Context (Hlist : forall w, (ss.(ss_ListSessions) key w).1 = Ok sessions).
Context (Htail : forall id w, (ss.(ss_LoadSessionTail) key id RecallTailWindow w).1 = Ok (tail id)).

Definition writes (l : list mark) : list (Key * list Turn.t) :=
  omap (fun k => match k with Appended k ts _ => Some (k, ts) | _ => None end) l.

Lemma writes_app l l' : writes (l ++ l') = writes l ++ writes l'.
Proof. unfold writes. apply omap_app. Qed.

Lemma notifyError_quiet e : does v (notifyError (W := W) e) (fun l _ => writes l = []).
Proof.
  unfold notifyError. apply after_get. intros s _. destruct (rt_cancelled s); [by apply routing_ret|].
  eapply routing_weaken; [apply routing_leave|]. by intros l x ->.
Qed.

Lemma respond_quiet ack text : does v (respond quote_verb cfg ack text env) (fun l _ => writes l = []).
Proof.
  unfold respond. apply after_ask. intros id. apply after_get. intros s _. unfold sendReply.
  apply after_get. intros s' _. destruct (shutdown _); [by apply routing_ret|]. cbn [system_reply Envelope.Channel].
  destruct (channels s'.(rt_registry) !! _); [|apply notifyError_quiet]. apply after_ask.
  intros [| |err|]; [|apply notifyError_quiet|by apply routing_ret..].
  eapply routing_weaken; [apply routing_leave|]. by intros l x ->.
Qed.

Lemma recallError_quiet err : does v (recallError quote_verb cfg env err) (fun l _ => writes l = []).
Proof.
  unfold recallError. eapply does_seq; [apply notifyError_quiet|]. intros x l Hl.
  eapply routing_weaken; [apply respond_quiet|]. intros l' y Hl'. by rewrite writes_app, Hl, Hl'.
Qed.

Lemma recall_scan_does infos : does v (recall_scan ss key infos) (fun l x => l = [] /\
  x = Ok match List.find (fun info => bool_decide (dialogue_of tail info <> [])) infos with
         | Some info => (info.(SessionInfo.ID), dialogue_of tail info)
         | None => (0, [])
         end).
Proof.
  induction infos as [|info infos IH]; [by apply routing_ret|]. cbn [recall_scan List.find].
  eapply (routing_after v _ _ (fun x => x = Ok (tail info.(SessionInfo.ID)))); [apply ask_does; intros w; apply Htail|].
  intros x ->. change (nonSystemTurns (tail (SessionInfo.ID info))) with (dialogue_of tail info).
  destruct (decide (dialogue_of tail info = [])) as [Hd|Hd].
  - rewrite bool_decide_false by auto. rewrite Hd. exact IH.
  - rewrite bool_decide_true by done. destruct (dialogue_of tail info) as [|t ts]; [done|]. by apply routing_ret.
Qed.

Definition recall_write (limit : Z) (rest : string) (l : list mark) : Prop :=
  match recall_count limit rest, recall_source tail sessions with
  | Some k, Some info => exists now,
      writes l = [(key, [turn RoleUser (recall_block info.(SessionInfo.ID)
                            (map recall_line (last_turns k (dialogue_of tail info)))).1 now])]
  | _, _ => writes l = []
  end.

Lemma recall_import_does k info : info.(SessionInfo.ID) <> 0 ->
  does v (recall_import quote_verb cfg ss key env k (info.(SessionInfo.ID), dialogue_of tail info))
    (fun l _ => exists now, writes l = [(key, [turn RoleUser (recall_block info.(SessionInfo.ID)
                            (map recall_line (last_turns k (dialogue_of tail info)))).1 now])]).
Proof.
  intros Hid. unfold recall_import. cbn [fst snd]. rewrite bool_decide_false by done.
  destruct (recall_block _ _) as [block lines]. apply after_get. intros s _. unfold AppendTurns.
  apply (does_seq v _ _ (fun l err => l = [Appended key [turn RoleUser block (rw_now s.(rt_world))] err])).
  { apply after_ask. intros err. apply after_leave. by apply routing_ret. }
  intros err l ->.
  assert (forall {A} (m : R W A), does v m (fun l _ => writes l = []) ->
    does v m (fun l _ => exists now, writes ([Appended key [turn RoleUser block (rw_now s.(rt_world))] err] ++ l)
      = [(key, [turn RoleUser (block, lines).1 now])])) as Hw.
  { intros A m Hm. eapply routing_weaken; [exact Hm|]. intros l x Hl. exists (rw_now s.(rt_world)). by rewrite writes_app, Hl. }
  destruct err; apply Hw; [apply recallError_quiet|apply respond_quiet].
Qed.

Lemma maybeHandleRecall_writes b : let '(first, rest) := command env.(Envelope.Parts) in
  does v (maybeHandleRecall quote_verb cfg ss key env b) (fun l handled =>
    if (0 <? (rc_sessionPolicy cfg).(RecallMax)) && bool_decide (first = "/recall")
    then handled = true /\ recall_write (rc_sessionPolicy cfg).(RecallMax) rest l
    else handled = false /\ l = []).
Proof.
  unfold maybeHandleRecall, recall_write. destruct (command _) as [first rest].
  rewrite Z.leb_antisym. destruct (_ <? _); [|by apply routing_ret]. cbn [negb orb andb].
  destruct (decide (first = "/recall")) as [->|Hf];
    [|rewrite bool_decide_true, bool_decide_false by done; by apply routing_ret].
  rewrite bool_decide_false, bool_decide_true by auto. unfold publishReceived, publishEvent. apply after_leave.
  destruct (recall_count _ rest) as [k|].
  2:{ eapply does_seq; [apply respond_quiet|]. intros x l Hl. apply routing_ret. cbn. by rewrite app_nil_r. }
  eapply (routing_after v _ _ (fun x => x = Ok sessions)); [apply ask_does; intros w; apply Hlist|]. intros x ->.
  apply (does_seq v _ _ (fun l _ => match recall_source tail sessions with
     | Some info => exists now, writes l = [(key, [turn RoleUser (recall_block info.(SessionInfo.ID)
                            (map recall_line (last_turns k (dialogue_of tail info)))).1 now])]
     | None => writes l = [] end)).
  2:{ intros x l Hl. apply routing_ret. split; [done|]. cbn. by rewrite app_nil_r. }
  unfold recall_sessions, recall_source.
  eapply (routing_after v _ _ (fun x => x = Ok match list.last sessions with
     | Some active => recall_refused active (tail active.(SessionInfo.ID)) | None => false end)).
  { destruct (list.last sessions) as [active|]; [|by apply routing_ret].
    eapply (routing_after v _ _ (fun x => x = Ok (tail active.(SessionInfo.ID)))); [apply ask_does; intros w; apply Htail|].
    intros x ->. by apply routing_ret. }
  intros x ->. destruct (match list.last sessions with Some _ => _ | None => _ end); [apply respond_quiet|].
  eapply (routing_after v _ _ (fun x => x = _)); [apply recall_scan_does|]. intros x ->.
  destruct (List.find _ _) as [info|] eqn:Ef.
  - apply recall_import_does. apply List.find_some in Ef as [Hin _]. apply list_elem_of_In in Hin.
    rewrite Forall_forall in Hids. apply Hids. apply elem_of_take_sub in Hin.
    by apply elem_of_reverse, elem_of_removelast in Hin.
  - unfold recall_import. cbn [fst]. rewrite bool_decide_true by done. apply respond_quiet.
Qed.

End Recall.

(** *** Replies *)

Section Replies.
Context {W : Type} `{!RouterWorld W} (quote_verb : string -> string) (cfg : Config W) (v : View).
Context (Hup : v.(v_registry).(shutdown) = false) (Hrun : v.(v_cancelled) = false).
(** No shutdown comes while a reply waits for a place. *)
Context (Hstay : forall c e d ctx w, (rw_offerChannel (W := W) c e d ctx w).1 <> RouterDone).

(** Where a reply ends: in the queue of its channel, or reported. *)
Definition accounted (reply : Envelope.t) (k : mark) : Prop :=
  match v.(v_registry).(channels) !! reply.(Envelope.Channel) with
  | Some cw => k = Queued cw reply
      \/ k = Notified (router_error ErrKindOutboundSaturated "" reply.(Envelope.Channel) (Some reply) ErrChannelSaturated)
  | None => exists err, error_is "router: unknown channel" err = true
      /\ k = Notified (router_error ErrKindUnknownReplyChannel "" reply.(Envelope.Channel) (Some reply) err)
  end.

Lemma notifyError_does e : does v (notifyError (W := W) e) (fun l _ => l = [Notified e]).
Proof.
  unfold notifyError. apply after_get. intros s Hv.
  assert (rt_cancelled s = false) as -> by (rewrite <- Hrun, <- Hv; done). apply routing_leave.
Qed.

Lemma sendReply_does reply : does v (sendReply quote_verb cfg reply) (fun l _ => exists k, l = [k] /\ accounted reply k).
Proof.
  unfold sendReply, accounted. apply after_get. intros s Hv.
  assert (s.(rt_registry) = v.(v_registry)) as -> by (by rewrite <- Hv). rewrite Hup.
  destruct (channels _ !! _) as [cw|].
  - eapply (routing_after v _ _ (fun a => a <> RouterDone /\ forall err, a <> CtxDone err)).
    { apply ask_does. intros w. split; [apply Hstay|]. by apply rw_channel_arms. }
    intros [| |err|] [H1 H2]; [| |by destruct (H2 err)|done].
    + eapply routing_weaken; [apply routing_leave|]. intros l x ->. eauto.
    + eapply routing_weaken; [apply notifyError_does|]. intros l x ->. eauto.
  - eapply routing_weaken; [apply notifyError_does|]. intros l x ->. eexists. split; [done|]. eexists. split; [|done]. done.
Qed.

Lemma send_all_does out : does v (send_all quote_verb cfg out) (fun l _ => Forall2 accounted out l).
Proof.
  induction out as [|reply out IH]; [by apply routing_ret; constructor|]. cbn [send_all].
  eapply does_seq; [apply sendReply_does|]. intros x l (k & -> & Hk).
  eapply routing_weaken; [exact IH|]. intros l y Hl. by constructor.
Qed.

End Replies.

(** ** Theorems *)


(** C8.  A redelivered event is handled once, and a refused one is
    not lost.  Let a message with an event id be dispatched, and then, with
    fewer other calls in between than the window has places, be delivered
    again.  If the router took it the first time, whatever it did with it, the
    second delivery within the TTL leaves nothing but its own drop: no reply,
    no write, no queue.  If it was refused, the second delivery is not taken
    for a duplicate. *)
Theorem a_redelivery_is_dropped_and_a_refusal_is_not {W} `{!RouterWorld W} quote_verb (cfg : Config W)
    env ingress ingress' (s s1 s2 s3 : RSt W) err err' es :
  made s.(rt_dedup) -> dedupKey env <> "" -> env.(Envelope.Channel) <> cfg.(rc_directBrainChannel) ->
  refusal quote_verb cfg s.(rt_registry) env = None -> refusal quote_verb cfg s2.(rt_registry) env = None ->
  DispatchInbound quote_verb cfg (Some env) ingress s = (err, s1) ->
  s2.(rt_dedup) = later es s1.(rt_dedup) ->
  Forall (fun e => event_key e <> dedupKey env) es -> Z.of_nat (List.length es) < DedupCapacity ->
  DispatchInbound quote_verb cfg (Some env) ingress' s2 = (err', s3) ->
  exists b l, s3.(rt_marks) = s2.(rt_marks) ++ l
    /\ match err with
       | None => rw_now s2.(rt_world) - rw_now s.(rt_world) <= DedupTTL -> err' = None /\ l = dropped_marks env b
       | Some _ => Deduplicated env.(Envelope.Channel) ∉ l
       end.
Proof.
  intros Hm Hk Hc R1 R2 E1 Hl Hes Hn E2.
  pose proof (DispatchInbound_spec _ _ _ _ _ _ _ E1) as H1. rewrite R1 in H1.
  pose proof (DispatchInbound_spec _ _ _ _ _ _ _ E2) as H2. rewrite R2 in H2.
  destruct H1 as (k1 & b1 & bw1 & g1 & cw1 & t1 & n1 & l1 & _ & T1 & _ & _ & _ & _ & G1 & _ & D1).
  destruct H2 as (k2 & b2 & bw2 & g2 & cw2 & t2 & n2 & l2 & _ & T2 & _ & M2 & _ & _ & G2 & F2 & _).
  apply target_spec in T1 as (_ & _ & _ & _ & T1 & _), T2 as (_ & _ & _ & _ & T2 & _).
  destruct (G1 (proj2 (T1 Hc))) as [-> ->]. destruct (G2 (proj2 (T2 Hc))) as [-> ->].
  exists b2, l2. split; [done|]. unfold window_after in D1. rewrite bool_decide_false in D1 by done.
  destruct (window_seen_made (dedupKey env) (rw_now s.(rt_world)) s.(rt_dedup) es (rw_now s2.(rt_world)) Hm Hes Hn) as [Hdup Hnew].
  unfold duplicate in F2. rewrite bool_decide_false in F2 by done. cbn [negb andb] in F2. rewrite Hl, D1 in F2.
  destruct err as [e|].
  - rewrite Hnew in F2. intros Hin. inversion F2 as [|l Ho|l e' Ho|l e' Ho]; subst.
    all: rewrite ?elem_of_app, ?elem_of_cons in Hin; rewrite Forall_forall in Ho.
    all: try (destruct Hin as [Hin|[[=]|[[=]|Hin%elem_of_nil]]]; [|done]).
    all: by apply Ho in Hin.
  - intros Ht. rewrite (Hdup Ht) in F2. by inversion F2.
Qed.

(** C12.  No reply of a brain is lost silently.  While the router runs,
    a work item is handed to its brain once, with the ingress it was enqueued
    with where the brain takes one and without it otherwise.  An error of the
    brain is reported, and nothing is sent.  Otherwise each reply, in order,
    ends in exactly one place: the queue of the channel it names, a report that
    this queue is saturated, or a report that there is no such channel. *)
Theorem no_reply_is_lost_silently {W} `{!RouterWorld W} quote_verb (cfg : Config W) brainName bw work s s' :
  s.(rt_registry).(shutdown) = false -> s.(rt_cancelled) = false ->
  (forall c e d ctx w, (rw_offerChannel (W := W) c e d ctx w).1 <> RouterDone) ->
  handleAndReply quote_verb cfg brainName bw work s = (tt, s') ->
  let ingress := if bw.(bw_authenticated) then Some work.(iw_ingress) else None in
  let '(out, err) := (rw_Handle bw work.(iw_envelope) ingress s.(rt_world)).1 in
  exists l, s'.(rt_marks) = s.(rt_marks) ++ Handled bw work.(iw_envelope) ingress :: l
    /\ match err with
       | Some err => l = [Notified (router_error ErrKindHandle brainName "" (Some work.(iw_envelope)) err)]
       | None => Forall2 (accounted (view s)) out l
       end.
Proof.
  intros Hup Hrun Hstay. unfold handleAndReply. cbn zeta. set (ingress := if bw_authenticated bw then _ else _).
  unfold mbind at 1, r_bind at 1, ask at 1. destruct (rw_Handle _ _ _ _) as [[out err] w]. cbn [fst].
  intros E. unfold mbind at 1, r_bind at 1, leave at 1, set at 1 in E.
  set (s1 := {| rt_world := _ |}) in E.
  assert (does (view s) (match err with
    | Some err => notifyError (router_error ErrKindHandle brainName "" (Some work.(iw_envelope)) err)
    | None => send_all quote_verb cfg out
    end) (fun l _ => match err with
    | Some err => l = [Notified (router_error ErrKindHandle brainName "" (Some work.(iw_envelope)) err)]
    | None => Forall2 (accounted (view s)) out l
    end)) as Hd by (destruct err; [by apply notifyError_does|by apply send_all_does]).
  destruct (Hd s1 tt s' eq_refl E) as (l & Hl & _ & Hx). exists l. split; [|exact Hx].
  rewrite Hl. unfold s1. cbn. by rewrite <- app_assoc.
Qed.

(** C13.  [/recall] quotes one previous session, once, into an empty one.
    Against a store that answers, and whose answers do not change meanwhile, a
    text whose first token is not the command, or a router without it, leaves
    nothing.  The command itself is always handled, and writes at most one
    turn: when its argument is in order, the active session has no dialogue
    and one of the five newest archived sessions has, a turn of the user under
    the key of the message, quoting the newest such session.  The block holds
    a tail of the last turns asked for, which is all of them where they fit,
    and stays within its limit unless not even one line fits. *)
Theorem recall_quotes_one_session {W} `{!RouterWorld W} quote_verb (cfg : Config W) ss key env b
    (sessions : list SessionInfo.t) (tail : Z -> list Turn.t) s s' handled :
  Forall (fun info => info.(SessionInfo.ID) <> 0) sessions ->
  (forall w, (ss.(ss_ListSessions) key w).1 = Ok sessions) ->
  (forall id w, (ss.(ss_LoadSessionTail) key id RecallTailWindow w).1 = Ok (tail id)) ->
  maybeHandleRecall quote_verb cfg ss key env b s = (handled, s') ->
  let '(first, rest) := command env.(Envelope.Parts) in
  exists l, s'.(rt_marks) = s.(rt_marks) ++ l /\
    if (0 <? (rc_sessionPolicy cfg).(RecallMax)) && bool_decide (first = "/recall") then
      handled = true /\
      match recall_count (rc_sessionPolicy cfg).(RecallMax) rest, recall_source tail sessions with
      | Some k, Some info => exists block kept dropped now,
          writes l = [(key, [turn RoleUser block now])]
          /\ map recall_line (last_turns k (dialogue_of tail info)) = dropped ++ kept
          /\ (kept = [] \/ RuneCount block <= RecallBlockRunes)
          /\ block = composeRecallBlock
               (if bool_decide (dropped = [])
                   && (RuneCount (composeRecallBlock (recall_header info.(SessionInfo.ID))
                         (map recall_line (last_turns k (dialogue_of tail info)))) <=? RecallBlockRunes)
                then recall_header info.(SessionInfo.ID) else recall_header_truncated info.(SessionInfo.ID)) kept
      | _, _ => writes l = []
      end
    else handled = false /\ l = [].
Proof.
  intros Hids Hlist Htail E.
  pose proof (maybeHandleRecall_writes quote_verb cfg (view s) ss key env sessions tail Hids Hlist Htail b) as Hd.
  destruct (command _) as [first rest]. destruct (Hd s handled s' eq_refl E) as (l & Hl & _ & Hx). exists l.
  split; [exact Hl|]. destruct (_ && _); [|exact Hx]. destruct Hx as [-> Hw]. split; [done|]. unfold recall_write in Hw.
  destruct (recall_count _ _) as [k|]; [|exact Hw]. destruct (recall_source _ _) as [info|]; [|exact Hw].
  destruct Hw as [now Hw].
  destruct (recall_block info.(SessionInfo.ID) (map recall_line (last_turns k (dialogue_of tail info)))) as [block kept] eqn:Eb.
  destruct (recall_block_spec _ _ _ _ Eb) as (dropped & H1 & H2 & H3). by exists block, kept, dropped, now.
Qed.

(** ** Concrete executions *)

Record world := {
  w_clock : time;
  w_room : bool;
  w_store : MemStore.t;
  w_replies : list Envelope.t
}.

Definition with_store (m : MemStore.t) (w : world) : world :=
  {| w_clock := w.(w_clock); w_room := w.(w_room); w_store := m; w_replies := w.(w_replies) |}.

#[export] Program Instance world_router : RouterWorld world := {|
  rw_now := w_clock;
  rw_timeNow := w_clock;
  rw_newID := fun w => ("id", w);
  rw_offerBrain := fun _ _ d w => (match d with Some _ => if w.(w_room) then Sent else Expired | None => Sent end, w);
  rw_offerChannel := fun _ _ _ _ w => (Sent, w);
  rw_Handle := fun _ _ _ w => ((w.(w_replies), None), w);
  rw_Send := fun _ _ w => (None, w)
|}.
Next Obligation. intros b x [d|] w; cbn; [destruct (w_room w)|]; split; done. Qed.
Next Obligation. done. Qed.

Definition mem_sessions : Sessions world := {|
  ss_ListSessions := fun key w => (Ok (MemStore.ListSessions key w.(w_store)), w);
  ss_LoadSessionTail := fun key id n w => (Ok (MemStore.LoadSessionTail key id n w.(w_store)), w);
  ss_NewSession := fun key w => (None, with_store (MemStore.NewSession key w.(w_store)).2 w);
  ss_AppendTurns := fun key ts w => (None, with_store (MemStore.AppendTurns key ts w.(w_store)).2 w)
|}.

Definition example_policy : SessionPolicy :=
  {| Triggers := ["/new"]; Daily := false; DailyHour := 4; DailyMin := 0; IdleMin := 0; RecallMax := 10 |}.

Definition utc : Location := fun _ => (0, 0, 0).

Definition example_config : Config world :=
  {| rc_enqueueTimeout := Second; rc_outboundEnqueueTimeout := Second; rc_brainWorkers := 1; rc_tools := None;
     rc_notes := None; rc_directBrainChannel := "console"; rc_sessionStore := Some mem_sessions;
     rc_sessionPolicy := example_policy; rc_location := utc |}.

Definition main_brain : brainWorker := {| bw_id := 1; bw_authenticated := true |}.

Definition example_registry : Registry :=
  {| channels := {["telegram" := 0%nat]}; brains := {["main" := main_brain]}; routes := {["telegram" := "main"]};
     shutdown := false; next_worker := 2 |}.

Definition turns_of (l : list (string * string)) : list Turn.t := map (fun p => turn p.1 p.2 5) l.

Definition old_store : MemStore.t :=
  (MemStore.NewSession "telegram::c1"
     (MemStore.AppendTurns "telegram::c1" (turns_of [(RoleUser, "hi"); (RoleAssistant, "hello")]) MemStore.NewMemStore).2).2.

Definition example_state (room : bool) (replies : list Envelope.t) : RSt world :=
  {| rt_world := {| w_clock := 1000 * Second; w_room := room; w_store := old_store; w_replies := replies |};
     rt_registry := example_registry; rt_cancelled := false; rt_dedup := None; rt_warned := None;
     rt_takeover := ∅; rt_marks := [] |}.

Definition plain_ingress : AuthenticatedIngress :=
  {| in_seal := None; in_requestID := ""; in_subjectClaim := ""; in_observedAt := 0; in_expiresAt := 0;
     in_method := ""; in_credential := "" |}.

Definition inbound (text : string) : Envelope.t :=
  set_Meta MetaConversationID "c1" (set_Meta MetaProviderEventID "7"
    (AddText text (New "e1" 0 "telegram" Inbound {| Participant.ID := "u1"; Participant.Name := "" |}))).

Definition dispatch (text : string) (s : RSt world) : option error * RSt world :=
  DispatchInbound (fun s => s) example_config (Some (inbound text)) plain_ingress s.

(** A trigger with a remainder: the session is opened, the rest is enqueued. *)
Example trigger_concrete :
  let '(err, s) := dispatch "/new how are you" (example_state true []) in
  err = None /\ map (fun k => match k with
                             | Enqueued b w => Some (b.(bw_id), map Part.Content w.(iw_envelope).(Envelope.Parts))
                             | _ => None end) s.(rt_marks) = [None; Some (1%nat, ["how are you"]); None].
Proof. vm_compute. split; reflexivity. Qed.


Lemma a_redelivery_is_dropped_and_a_refusal_is_not_witness :
  let s1 := (dispatch "hello" (example_state true [])).2 in
  exists b l, (dispatch "hello" s1).2.(rt_marks) = s1.(rt_marks) ++ l
    /\ (dispatch "hello" s1).1 = None /\ l = dropped_marks (inbound "hello") b.
Proof.
  cbn zeta.
  destruct (a_redelivery_is_dropped_and_a_refusal_is_not (fun s => s) example_config (inbound "hello")
    plain_ingress plain_ingress (example_state true []) (dispatch "hello" (example_state true [])).2
    (dispatch "hello" (example_state true [])).2
    (dispatch "hello" (dispatch "hello" (example_state true [])).2).2
    None (dispatch "hello" (dispatch "hello" (example_state true [])).2).1 [])
    as (b & l & Hl & Hx).
  - apply made_None.
  - vm_compute. done.
  - done.
  - vm_compute. reflexivity.
  - vm_compute. reflexivity.
  - vm_compute. reflexivity.
  - vm_compute. reflexivity.
  - constructor.
  - done.
  - apply surjective_pairing.
  - exists b, l. split; [exact Hl|]. apply Hx. vm_compute. discriminate.
Defined.

(** What a queue without room refuses is taken when it comes again. *)
Example refused_then_taken :
  let '(err, s1) := dispatch "hello" (example_state false []) in
  let '(err', s2) := dispatch "hello" {| rt_world := {| w_clock := 1001 * Second; w_room := true;
      w_store := old_store; w_replies := [] |}; rt_registry := s1.(rt_registry); rt_cancelled := false;
      rt_dedup := s1.(rt_dedup); rt_warned := s1.(rt_warned); rt_takeover := ∅; rt_marks := s1.(rt_marks) |} in
  err = Some ErrBrainSaturated /\ err' = None /\ List.length s2.(rt_marks) = 2%nat.
Proof. vm_compute. split_and!; reflexivity. Qed.

Lemma no_reply_is_lost_silently_witness :
  let work := {| iw_envelope := inbound "hello"; iw_ingress := plain_ingress |} in
  let s := example_state true [inbound "hi"] in
  exists l, (handleAndReply (fun s => s) example_config "main" main_brain work s).2.(rt_marks)
    = [] ++ Handled main_brain (inbound "hello") (Some plain_ingress) :: l
    /\ Forall2 (accounted (view s)) [inbound "hi"] l.
Proof.
  cbn zeta. set (work := {| iw_envelope := inbound "hello"; iw_ingress := plain_ingress |}).
  set (s := example_state true [inbound "hi"]).
  assert (forall c e d ctx (w : world), (rw_offerChannel c e d ctx w).1 <> RouterDone) as Hstay by done.
  assert (handleAndReply (fun s => s) example_config "main" main_brain work s
    = (tt, (handleAndReply (fun s => s) example_config "main" main_brain work s).2)) as E by (vm_compute; reflexivity).
  exact (no_reply_is_lost_silently (fun s => s) example_config "main" main_brain work s
    (handleAndReply (fun s => s) example_config "main" main_brain work s).2 eq_refl eq_refl
    Hstay E).
Defined.

(** A store that answers and keeps still. *)
Definition still_sessions (key : Key) (m : MemStore.t) : Sessions world := {|
  ss_ListSessions := fun _ w => (Ok (MemStore.ListSessions key m), w);
  ss_LoadSessionTail := fun _ id n w => (Ok (MemStore.LoadSessionTail key id RecallTailWindow m), w);
  ss_NewSession := fun _ w => (None, w);
  ss_AppendTurns := fun _ _ w => (None, w)
|}.

Definition recall (m : MemStore.t) (text : string) (s : RSt world) : bool * RSt world :=
  maybeHandleRecall (fun s => s) example_config (still_sessions "telegram::c1" m) "telegram::c1"
    (inbound text) "main" s.

Lemma recall_quotes_one_session_witness :
  exists block kept dropped now,
    writes (recall old_store "/recall 1" (example_state true [])).2.(rt_marks)
      = [("telegram::c1", [turn RoleUser block now])]
    /\ ["Assistant: hello"] = dropped ++ kept.
Proof.
  pose proof (recall_quotes_one_session (fun s => s) example_config (still_sessions "telegram::c1" old_store)
    "telegram::c1" (inbound "/recall 1") "main" (MemStore.ListSessions "telegram::c1" old_store)
    (fun id => MemStore.LoadSessionTail "telegram::c1" id RecallTailWindow old_store)
    (example_state true []) (recall old_store "/recall 1" (example_state true [])).2
    (recall old_store "/recall 1" (example_state true [])).1) as H.
  assert (command (inbound "/recall 1").(Envelope.Parts) = ("/recall", "1")) as Hc by (vm_compute; reflexivity).
  rewrite Hc in H. cbn iota beta in H.
  destruct H as (l & Hl & H); [|done|done|apply surjective_pairing|].
  - vm_compute. repeat constructor; discriminate.
  - change (0 <? _) with true in H. rewrite bool_decide_true in H by done. destruct H as [_ H].
    replace (recall_count _ "1") with (Some 1) in H by (vm_compute; reflexivity).
    replace (recall_source _ _) with (Some {| SessionInfo.ID := 1; SessionInfo.TurnCount := 2;
      SessionInfo.First := 5; SessionInfo.Last := 5 |}) in H by (vm_compute; reflexivity).
    destruct H as (block & kept & dropped & now & H1 & H2 & _). exists block, kept, dropped, now.
    cbn [rt_marks example_state app] in Hl. rewrite Hl. split; [exact H1|]. rewrite <- H2. vm_compute. reflexivity.
Defined.

(** A last line longer than the block recalls nothing: the header alone is
    written, and the session is no longer empty. *)
Definition long_line : string := join_runes (repeat "x" 4000).
Definition long_store : MemStore.t :=
  (MemStore.NewSession "telegram::c1"
     (MemStore.AppendTurns "telegram::c1" (turns_of [(RoleUser, "hi"); (RoleAssistant, long_line)]) MemStore.NewMemStore).2).2.

Definition texts (l : list mark) : list string :=
  omap (fun k => match k with
                 | Queued _ e => Some (latestEnvelopeText e.(Envelope.Parts))
                 | Appended _ [t] _ => Some t.(Turn.Content)
                 | _ => None
                 end) l.

Theorem a_long_last_line_recalls_nothing :
  texts (recall long_store "/recall 1" (example_state true [])).2.(rt_marks)
    = [recall_header_truncated 1; "Recalled 0 turns from session 1."].
Proof. vm_compute. reflexivity. Qed.

(** A bare trigger is answered, and no received event is published. *)
Theorem a_bare_trigger_is_not_announced :
  let '(err, s) := dispatch "/new" (example_state true []) in
  err = None /\ texts s.(rt_marks) = [SessionResetAck]
  /\ Forall (fun k => match k with Published _ => False | _ => True end) s.(rt_marks).
Proof. vm_compute. split_and!; [reflexivity..|repeat constructor]. Qed.

(** A message under takeover that the memory refuses is neither kept nor
    dispatched. *)
Definition failing_sessions : Sessions world := {|
  ss_ListSessions := fun _ w => (Err ErrNoConversationID, w);
  ss_LoadSessionTail := fun _ _ _ w => (Err ErrNoConversationID, w);
  ss_NewSession := fun _ w => (Some ErrNoConversationID, w);
  ss_AppendTurns := fun _ _ w => (Some ErrNoConversationID, w)
|}.

Theorem a_refused_turn_under_takeover_is_lost :
  let cfg := {| rc_enqueueTimeout := Second; rc_outboundEnqueueTimeout := Second; rc_brainWorkers := 1;
                rc_tools := None; rc_notes := None; rc_directBrainChannel := "";
                rc_sessionStore := Some failing_sessions; rc_sessionPolicy := example_policy; rc_location := utc |} in
  let s := example_state true [] in
  let s := (TakeOver "telegram::c1" s).2 in
  let '(err, s') := DispatchInbound (fun s => s) cfg (Some (inbound "hello")) plain_ingress s in
  err = None /\ Forall (fun k => match k with
                                 | Enqueued _ _ | Appended _ _ None => False
                                 | _ => True end) s'.(rt_marks).
Proof. vm_compute. split; [reflexivity|repeat constructor]. Qed.
