(* ===== verification/RouterRuns.v ===== *)
(** * Runs of the router

    The goroutines of [internal/router/router.go] over their queues: the
    callers of [DispatchInbound] and of the reply funnel at their [select], the
    workers of each brain and of each channel, and [Shutdown].  Every step of a
    goroutine is one step of a relation and the steps interleave freely.  What
    a dispatch does before it reaches the queue is [Router]; the registry does
    not change, both queue timers are set (the default), and brains and
    channels may take as long as they like. *)

From S2P Require Import Prelude Envelope Bus Router.

(** ** State *)

Inductive thread :=
| Offering (b : nat) (w : inboundWork)
| OfferingReply (e : Envelope.t)
| Checking (b : nat)
| Waiting (b : nat)
| Handling (b : nat) (w : inboundWork)
| Replying (b : nat) (out : list Envelope.t)
| Draining (c : nat)
| Sending (c : nat) (e : Envelope.t)
| Exited
| Returned.

Record pool := {
  brain_queues : gmap nat (list inboundWork);
  channel_queues : gmap nat (list Envelope.t);
  threads : gmap nat thread;
  stopped : bool
}.

(** Where a reply ends. *)
Inductive settlement :=
| ToQueue (c : nat)
| Saturated
| NoChannel
| Abandoned.

Inductive label :=
| Called (t : nat)
| CalledReply (t : nat) (e : Envelope.t)
| Accepted (t b : nat) (w : inboundWork)
| Rejected (t b : nat) (w : inboundWork)
| Looked (t : nat)
| Took (t b : nat) (w : inboundWork)
| Finished (t b : nat) (w : inboundWork) (out : option (list Envelope.t))
| Settled (t : nat) (e : Envelope.t) (how : settlement)
| Drained (t c : nat) (e : Envelope.t)
| SentOut (t c : nat) (e : Envelope.t) (ok : bool)
| Left (t : nat)
| Stopping.

Definition bqueue (b : nat) (s : pool) : list inboundWork := default [] (s.(brain_queues) !! b).
Definition cqueue (c : nat) (s : pool) : list Envelope.t := default [] (s.(channel_queues) !! c).

Definition set_thread (t : nat) (th : thread) (s : pool) : pool :=
  {| brain_queues := s.(brain_queues); channel_queues := s.(channel_queues);
     threads := <[t := th]> s.(threads); stopped := s.(stopped) |}.
Definition set_bqueue (b : nat) (q : list inboundWork) (s : pool) : pool :=
  {| brain_queues := <[b := q]> s.(brain_queues); channel_queues := s.(channel_queues);
     threads := s.(threads); stopped := s.(stopped) |}.
Definition set_cqueue (c : nat) (q : list Envelope.t) (s : pool) : pool :=
  {| brain_queues := s.(brain_queues); channel_queues := <[c := q]> s.(channel_queues);
     threads := s.(threads); stopped := s.(stopped) |}.

(** The reply a goroutine has in hand, and what it does after it. *)
Definition next_reply (th : thread) : option (Envelope.t * thread) :=
  match th with
  | Replying b (e :: out) => Some (e, Replying b out)
  | OfferingReply e => Some (e, Returned)
  | _ => None
  end.

Section Run.
Context (g : Registry) (queueCapacity outboundQueueCapacity : nat).

Inductive step (s : pool) : label -> pool -> Prop :=
(** [DispatchInbound] at its [select], and the reply funnel, entered. *)
| dispatch_call t b w : s.(threads) !! t = None -> s.(stopped) = false ->
    step s (Called t) (set_thread t (Offering b w) s)
| reply_call t e : s.(threads) !! t = None -> s.(stopped) = false ->
    step s (CalledReply t e) (set_thread t (OfferingReply e) s)
| dispatch_accept t b w : s.(threads) !! t = Some (Offering b w) ->
    (List.length (bqueue b s) < queueCapacity)%nat ->
    step s (Accepted t b w) (set_bqueue b (bqueue b s ++ [w]) (set_thread t Returned s))
| dispatch_reject t b w : s.(threads) !! t = Some (Offering b w) ->
    step s (Rejected t b w) (set_thread t Returned s)
(** [runBrainWorker]. *)
| worker_look t b : s.(threads) !! t = Some (Checking b) -> s.(stopped) = false ->
    step s (Looked t) (set_thread t (Waiting b) s)
| worker_look_stopped t b : s.(threads) !! t = Some (Checking b) -> s.(stopped) = true ->
    step s (Left t) (set_thread t Exited s)
| worker_take t b w q : s.(threads) !! t = Some (Waiting b) -> bqueue b s = w :: q ->
    step s (Took t b w) (set_bqueue b q (set_thread t (Handling b w) s))
| worker_stopped t b : s.(threads) !! t = Some (Waiting b) -> s.(stopped) = true ->
    step s (Left t) (set_thread t Exited s)
(** [handleAndReply]. *)
| worker_finish t b w out : s.(threads) !! t = Some (Handling b w) ->
    step s (Finished t b w out)
      (set_thread t (match out with Some l => Replying b l | None => Checking b end) s)
| worker_again t b : s.(threads) !! t = Some (Replying b []) ->
    step s (Looked t) (set_thread t (Checking b) s)
(** [sendReply]. *)
| reply_queue t th e next c : s.(threads) !! t = Some th -> next_reply th = Some (e, next) ->
    g.(channels) !! e.(Envelope.Channel) = Some c -> (List.length (cqueue c s) < outboundQueueCapacity)%nat ->
    step s (Settled t e (ToQueue c)) (set_cqueue c (cqueue c s ++ [e]) (set_thread t next s))
| reply_saturated t th e next c : s.(threads) !! t = Some th -> next_reply th = Some (e, next) ->
    g.(channels) !! e.(Envelope.Channel) = Some c ->
    step s (Settled t e Saturated) (set_thread t next s)
| reply_unknown t th e next : s.(threads) !! t = Some th -> next_reply th = Some (e, next) ->
    g.(channels) !! e.(Envelope.Channel) = None ->
    step s (Settled t e NoChannel) (set_thread t next s)
| reply_abandoned t th e next : s.(threads) !! t = Some th -> next_reply th = Some (e, next) ->
    s.(stopped) = true ->
    step s (Settled t e Abandoned) (set_thread t next s)
(** [runChannelWorker] and [deliver]. *)
| channel_take t c e q : s.(threads) !! t = Some (Draining c) -> cqueue c s = e :: q ->
    step s (Drained t c e) (set_cqueue c q (set_thread t (Sending c e) s))
| channel_sent t c e ok : s.(threads) !! t = Some (Sending c e) ->
    step s (SentOut t c e ok) (set_thread t (Draining c) s)
| channel_stopped t c : s.(threads) !! t = Some (Draining c) -> s.(stopped) = true ->
    step s (Left t) (set_thread t Exited s)
(** [Shutdown]. *)
| shutdown_now : s.(stopped) = false ->
    step s Stopping {| brain_queues := s.(brain_queues); channel_queues := s.(channel_queues);
                       threads := s.(threads); stopped := true |}.

(** A router that just registered its brains and channels. *)
Definition fresh_pool (s : pool) : Prop :=
  s.(brain_queues) = ∅ /\ s.(channel_queues) = ∅ /\ s.(stopped) = false
  /\ forall t th, s.(threads) !! t = Some th -> (exists b, th = Checking b) \/ exists c, th = Draining c.

Inductive reach (s0 : pool) : list label -> pool -> Prop :=
| reach_start : fresh_pool s0 -> reach s0 [] s0
| reach_step tr s l s' : reach s0 tr s -> step s l s' -> reach s0 (tr ++ [l]) s'.

(** ** What a trace says *)

Definition accepted (b : nat) (l : label) : option inboundWork :=
  match l with Accepted _ b' w => if decide (b' = b) then Some w else None | _ => None end.
Definition took (b : nat) (l : label) : option inboundWork :=
  match l with Took _ b' w => if decide (b' = b) then Some w else None | _ => None end.
Definition queued (c : nat) (l : label) : option Envelope.t :=
  match l with Settled _ e (ToQueue c') => if decide (c' = c) then Some e else None | _ => None end.
Definition drained (c : nat) (l : label) : option Envelope.t :=
  match l with Drained _ c' e => if decide (c' = c) then Some e else None | _ => None end.

(** By goroutine. *)
Definition took_by (t : nat) (l : label) : option inboundWork :=
  match l with Took t' _ w => if decide (t' = t) then Some w else None | _ => None end.
Definition finished_by (t : nat) (l : label) : option inboundWork :=
  match l with Finished t' _ w _ => if decide (t' = t) then Some w else None | _ => None end.
Definition produced_by (t : nat) (l : label) : list Envelope.t :=
  match l with
  | CalledReply t' e => if decide (t' = t) then [e] else []
  | Finished t' _ _ (Some out) => if decide (t' = t) then out else []
  | _ => []
  end.
Definition settled_by (t : nat) (l : label) : option Envelope.t :=
  match l with Settled t' e _ => if decide (t' = t) then Some e else None | _ => None end.
Definition drained_by (t : nat) (l : label) : option Envelope.t :=
  match l with Drained t' _ e => if decide (t' = t) then Some e else None | _ => None end.
Definition sent_by (t : nat) (l : label) : option Envelope.t :=
  match l with SentOut t' _ e _ => if decide (t' = t) then Some e else None | _ => None end.

Definition in_hand (th : option thread) : list inboundWork :=
  match th with Some (Handling _ w) => [w] | _ => [] end.
Definition pending (th : option thread) : list Envelope.t :=
  match th with Some (Replying _ out) => out | Some (OfferingReply e) => [e] | _ => [] end.
Definition sending (th : option thread) : list Envelope.t :=
  match th with Some (Sending _ e) => [e] | _ => [] end.

(** ** Invariant *)

Record inv (tr : list label) (s : pool) : Prop := {
  inv_brain b : omap (accepted b) tr = omap (took b) tr ++ bqueue b s;
  inv_brain_cap b : (List.length (bqueue b s) <= queueCapacity)%nat;
  inv_channel c : omap (queued c) tr = omap (drained c) tr ++ cqueue c s;
  inv_channel_cap c : (List.length (cqueue c s) <= outboundQueueCapacity)%nat;
  inv_hand t : omap (took_by t) tr = omap (finished_by t) tr ++ in_hand (s.(threads) !! t);
  inv_pending t : (tr ≫= produced_by t) = omap (settled_by t) tr ++ pending (s.(threads) !! t);
  inv_sending t : omap (drained_by t) tr = omap (sent_by t) tr ++ sending (s.(threads) !! t);
  inv_stop : s.(stopped) = false -> Forall (fun l => forall t e, l <> Settled t e Abandoned) tr
}.

Lemma bqueue_set b b' q s : bqueue b (set_bqueue b' q s) = if decide (b' = b) then q else bqueue b s.
Proof. unfold bqueue. cbn. case_decide; subst; [by rewrite lookup_insert_eq|by rewrite lookup_insert_ne]. Qed.
Lemma cqueue_set c c' q s : cqueue c (set_cqueue c' q s) = if decide (c' = c) then q else cqueue c s.
Proof. unfold cqueue. cbn. case_decide; subst; [by rewrite lookup_insert_eq|by rewrite lookup_insert_ne]. Qed.
Lemma thread_set t t' th s : (set_thread t' th s).(threads) !! t = if decide (t' = t) then Some th else s.(threads) !! t.
Proof. cbn. case_decide; subst; [by rewrite lookup_insert_eq|by rewrite lookup_insert_ne]. Qed.

Lemma bind_snoc {A C} (f : A -> list C) l x : ((l ++ [x]) ≫= f) = (l ≫= f) ++ f x.
Proof. rewrite bind_app. cbn. by rewrite app_nil_r. Qed.

(** The cases of a step, the labels evaluated. *)
Ltac step_cases Hst :=
  inversion Hst; subst;
  cbn [accepted took queued drained took_by finished_by produced_by settled_by drained_by sent_by];
  rewrite ?bqueue_set, ?cqueue_set; repeat case_decide; subst; rewrite ?app_nil_r; try done.

Lemma step_brain tr s l s' b : step s l s' ->
  omap (accepted b) tr = omap (took b) tr ++ bqueue b s ->
  omap (accepted b) (tr ++ [l]) = omap (took b) (tr ++ [l]) ++ bqueue b s'.
Proof.
  intros Hst I. rewrite !omap_snoc, I. step_cases Hst; [by rewrite app_assoc|].
  match goal with H : bqueue _ _ = _ |- _ => rewrite H end. by rewrite <- app_assoc.
Qed.

Lemma step_channel tr s l s' c : step s l s' ->
  omap (queued c) tr = omap (drained c) tr ++ cqueue c s ->
  omap (queued c) (tr ++ [l]) = omap (drained c) (tr ++ [l]) ++ cqueue c s'.
Proof.
  intros Hst I. rewrite !omap_snoc, I. step_cases Hst; [by rewrite app_assoc|].
  match goal with H : cqueue _ _ = _ |- _ => rewrite H end. by rewrite <- app_assoc.
Qed.

Lemma step_caps s l s' : step s l s' ->
  (forall b, (List.length (bqueue b s) <= queueCapacity)%nat) ->
  (forall c, (List.length (cqueue c s) <= outboundQueueCapacity)%nat) ->
  (forall b, (List.length (bqueue b s') <= queueCapacity)%nat)
  /\ (forall c, (List.length (cqueue c s') <= outboundQueueCapacity)%nat).
Proof.
  intros Hst Hb Hc. split.
  - intros b. specialize (Hb b). step_cases Hst; [rewrite length_app; cbn; lia|].
    match goal with H : bqueue _ _ = _ |- _ => rewrite H in Hb end. cbn in Hb. lia.
  - intros c. specialize (Hc c). step_cases Hst; [rewrite length_app; cbn; lia|].
    match goal with H : cqueue _ _ = _ |- _ => rewrite H in Hc end. cbn in Hc. lia.
Qed.

Lemma next_reply_spec th e next : next_reply th = Some (e, next) ->
  in_hand (Some th) = [] /\ in_hand (Some next) = [] /\ sending (Some th) = [] /\ sending (Some next) = []
  /\ pending (Some th) = e :: pending (Some next).
Proof. destruct th as [|e'|?|?|?|b [|e' out]|?|?| |]; intros [= <- <-]; done. Qed.

(** A step changes the thread that takes it. *)
Ltac thread_cases Hst t :=
  inversion Hst; subst;
  cbn [took_by finished_by produced_by settled_by drained_by sent_by threads set_thread set_bqueue set_cqueue];
  repeat match goal with
  | |- context [<[?u := _]> _ !! t] =>
      destruct (decide (u = t)); [subst u; rewrite lookup_insert_eq|rewrite lookup_insert_ne by done]
  end;
  repeat case_decide; subst; try done;
  repeat match goal with H : threads _ !! t = _ |- _ => rewrite H end;
  repeat match goal with H : next_reply _ = Some _ |- _ =>
    let H1 := fresh in let H2 := fresh in let H3 := fresh in let H4 := fresh in let H5 := fresh in
    apply next_reply_spec in H as (H1 & H2 & H3 & H4 & H5);
    try rewrite H1, H2; try rewrite H3, H4; try rewrite H5 end;
  try match goal with o : option (list Envelope.t) |- _ => destruct o end;
  cbn [in_hand pending sending app]; rewrite ?app_nil_r; try done.

Lemma step_hand tr s l s' t : step s l s' ->
  omap (took_by t) tr = omap (finished_by t) tr ++ in_hand (s.(threads) !! t) ->
  omap (took_by t) (tr ++ [l]) = omap (finished_by t) (tr ++ [l]) ++ in_hand (s'.(threads) !! t).
Proof.
  intros Hst I. rewrite !omap_snoc, I. thread_cases Hst t.
Qed.

Lemma step_pending tr s l s' t : step s l s' ->
  (tr ≫= produced_by t) = omap (settled_by t) tr ++ pending (s.(threads) !! t) ->
  ((tr ++ [l]) ≫= produced_by t) = omap (settled_by t) (tr ++ [l]) ++ pending (s'.(threads) !! t).
Proof.
  intros Hst I. rewrite omap_snoc, bind_snoc, I. thread_cases Hst t; by rewrite <- app_assoc.

Qed.

Lemma step_sending tr s l s' t : step s l s' ->
  omap (drained_by t) tr = omap (sent_by t) tr ++ sending (s.(threads) !! t) ->
  omap (drained_by t) (tr ++ [l]) = omap (sent_by t) (tr ++ [l]) ++ sending (s'.(threads) !! t).
Proof.
  intros Hst I. rewrite !omap_snoc, I. thread_cases Hst t.
Qed.

Lemma step_stop tr s l s' : step s l s' ->
  (s.(stopped) = false -> Forall (fun l => forall t e, l <> Settled t e Abandoned) tr) ->
  s'.(stopped) = false -> Forall (fun l => forall t e, l <> Settled t e Abandoned) (tr ++ [l]).
Proof.
  intros Hst I H. assert (s.(stopped) = false) as Hf by (inversion Hst; subst; cbn in *; congruence).
  apply Forall_app. split; [by apply I|]. constructor; [|done]. intros t e ->. inversion Hst. congruence.
Qed.

Lemma queue_inv_step tr s l s' : inv tr s -> step s l s' -> inv (tr ++ [l]) s'.
Proof.
  intros [I1 I2 I3 I4 I5 I6 I7 I8] Hst. destruct (step_caps s l s' Hst I2 I4) as [J2 J4].
  split; [|exact J2| |exact J4|..].
  - intros b. by apply (step_brain _ s).
  - intros c. by apply (step_channel _ s).
  - intros t. by apply (step_hand _ s).
  - intros t. by apply (step_pending _ s).
  - intros t. by apply (step_sending _ s).
  - by apply (step_stop _ s).
Qed.

Lemma queue_inv_reach s0 tr s : reach s0 tr s -> inv tr s.
Proof.
  induction 1 as [(Hb & Hc & Hs & Ht)|tr s l s' _ IH Hst]; [|by eapply queue_inv_step].
  split; cbn; try done.
  - intros b. unfold bqueue. by rewrite Hb, lookup_empty.
  - intros b. unfold bqueue. rewrite Hb, lookup_empty. cbn. lia.
  - intros c. unfold cqueue. by rewrite Hc, lookup_empty.
  - intros c. unfold cqueue. rewrite Hc, lookup_empty. cbn. lia.
  - intros t. destruct (threads s0 !! t) as [th|] eqn:E; [|done]. by destruct (Ht t th E) as [[b ->]|[c ->]].
  - intros t. destruct (threads s0 !! t) as [th|] eqn:E; [|done]. by destruct (Ht t th E) as [[b ->]|[c ->]].
  - intros t. destruct (threads s0 !! t) as [th|] eqn:E; [|done]. by destruct (Ht t th E) as [[b ->]|[c ->]].
Qed.

(** ** Coming to rest *)

(** What can go on without a new call or a shutdown. *)
Definition moves (s s' : pool) : Prop :=
  exists l, step s l s' /\ match l with Called _ | CalledReply _ _ | Stopping => False | _ => True end.

(** Work items count first, replies and looks after them. *)
Definition item_weight (th : thread) : nat :=
  match th with Offering _ _ => 3 | Handling _ _ => 1 | _ => 0 end.
Definition reply_weight (th : thread) : nat :=
  match th with
  | OfferingReply _ => 4
  | Checking _ => 2
  | Waiting _ => 1
  | Replying _ out => 3 * List.length out + 3
  | Draining _ => 1
  | Sending _ _ => 2
  | _ => 0
  end.

Definition places {A} (q : list A) : nat := 2 * List.length q.

Definition items (s : pool) : nat :=
  InMemoryBus.msum item_weight s.(threads) + InMemoryBus.msum places s.(brain_queues).
Definition replies (s : pool) : nat :=
  InMemoryBus.msum reply_weight s.(threads) + InMemoryBus.msum places s.(channel_queues).

Lemma msum_set {A} (f : A -> nat) (d : A) (m : gmap nat A) i y : f d = 0 ->
  InMemoryBus.msum f (<[i := y]> m) + f (default d (m !! i)) = InMemoryBus.msum f m + f y.
Proof.
  intros Hd. destruct (m !! i) as [x|] eqn:E; cbn [default]; [by apply InMemoryBus.msum_insert|].
  rewrite InMemoryBus.msum_insert_new by done. lia.
Qed.

Lemma next_reply_weight th e next : next_reply th = Some (e, next) ->
  item_weight th = 0 /\ item_weight next = 0 /\ reply_weight next + 3 <= reply_weight th.
Proof. destruct th as [|e'|?|?|?|b [|e' out]|?|?| |]; intros [= <- <-]; cbn; lia. Qed.

Lemma moves_decrease s s' : moves s s' ->
  items s' < items s \/ items s' = items s /\ replies s' < replies s.
Proof.
  intros (l & Hst & Hl). unfold items, replies.
  destruct Hst; cbn [threads brain_queues channel_queues set_thread set_bqueue set_cqueue] in *; try done;
    match goal with
    | H : threads s !! ?t = Some ?th |- context [<[?t := ?th']> _] =>
        pose proof (InMemoryBus.msum_insert item_weight s.(threads) t th th' H);
        pose proof (InMemoryBus.msum_insert reply_weight s.(threads) t th th' H)
    end;
    try match goal with
    | |- context [<[?b := ?q]> (brain_queues s)] =>
        pose proof (msum_set places [] s.(brain_queues) b q eq_refl) as Hq;
        fold (bqueue b s) in Hq
    | |- context [<[?c := ?q]> (channel_queues s)] =>
        pose proof (msum_set places [] s.(channel_queues) c q eq_refl) as Hq;
        fold (cqueue c s) in Hq
    end;
    try match goal with H : bqueue _ _ = _ |- _ => rewrite H in Hq end;
    try match goal with H : cqueue _ _ = _ |- _ => rewrite H in Hq end;
    try match goal with H : next_reply _ = Some _ |- _ => apply next_reply_weight in H end;
    try match goal with o : option (list Envelope.t) |- _ => destruct o end;
    unfold places in *; try rewrite length_app in Hq; cbn [item_weight reply_weight List.length] in *; lia.
Qed.

Lemma queue_moves_terminate s : sn moves s.
Proof.
  enough (forall n m s, items s < n -> replies s < m -> sn moves s) as H by (by apply (H (S (items s)) (S (replies s))); lia).
  clear s. intros n. induction n as [|n IHn]; [intros m s H; lia|].
  intros m s Hn _. revert Hn. remember (replies s) as k eqn:Hk. revert s Hk.
  induction (lt_wf k) as [k _ IHk]. intros s -> Hn. constructor. intros s' Hm.
  destruct (moves_decrease s s' Hm) as [Hi|[Hi Hr]].
  - apply (IHn (S (replies s'))); lia.
  - apply (IHk (replies s')); [done|done|lia].
Qed.

(** *** At rest *)

Definition at_rest (s : pool) : Prop := forall s', ~ moves s s'.

Lemma rest_thread s t th : at_rest s -> s.(threads) !! t = Some th ->
  th = Exited \/ th = Returned
  \/ s.(stopped) = false /\ ((exists b, th = Waiting b /\ bqueue b s = []) \/ exists c, th = Draining c /\ cqueue c s = []).
Proof.
  intros Hrest Ht.
  assert (forall l s', step s l s' -> (match l with Called _ | CalledReply _ _ | Stopping => False | _ => True end) -> False) as Hno
    by (intros l s' Hst Hl; apply (Hrest s'); by exists l).
  assert (forall e next, next_reply th = Some (e, next) -> False) as Hreply.
  { intros e next Hn. destruct (channels g !! e.(Envelope.Channel)) as [c|] eqn:Ec.
    - eapply Hno; [by eapply reply_saturated|done].
    - eapply Hno; [by eapply reply_unknown|done]. }
  destruct (stopped s) eqn:Es.
  - destruct th as [b w|e|b|b|b w|b out|c|c e| |]; try auto; exfalso.
    + eapply Hno; [by eapply dispatch_reject|done].
    + by eapply Hreply.
    + eapply Hno; [by eapply worker_look_stopped|done].
    + eapply Hno; [by eapply worker_stopped|done].
    + eapply Hno; [by eapply (worker_finish _ _ _ _ None)|done].
    + destruct out; [eapply Hno; [by eapply worker_again|done]|by eapply Hreply].
    + eapply Hno; [by eapply channel_stopped|done].
    + eapply Hno; [by eapply (channel_sent _ _ _ _ true)|done].
  - destruct th as [b w|e|b|b|b w|b out|c|c e| |]; try auto.
    + exfalso. eapply Hno; [by eapply dispatch_reject|done].
    + exfalso. by eapply Hreply.
    + exfalso. eapply Hno; [by eapply worker_look|done].
    + right; right. split; [done|]. left. exists b. split; [done|].
      destruct (bqueue b s) eqn:Eq; [done|]. exfalso. eapply Hno; [by eapply worker_take|done].
    + exfalso. eapply Hno; [by eapply (worker_finish _ _ _ _ None)|done].
    + exfalso. destruct out; [eapply Hno; [by eapply worker_again|done]|by eapply Hreply].
    + right; right. split; [done|]. right. exists c. split; [done|].
      destruct (cqueue c s) eqn:Eq; [done|]. exfalso. eapply Hno; [by eapply channel_take|done].
    + exfalso. eapply Hno; [by eapply (channel_sent _ _ _ _ true)|done].
Qed.

(** A worker of a queue stays its worker until it leaves. *)
Definition works_for (b : nat) (th : thread) : Prop :=
  match th with Checking b' | Waiting b' | Handling b' _ | Replying b' _ => b' = b | _ => False end.
Definition sends_for (c : nat) (th : thread) : Prop :=
  match th with Draining c' | Sending c' _ => c' = c | _ => False end.

Lemma step_worker s l s' t th : step s l s' -> s'.(stopped) = false -> s.(threads) !! t = Some th ->
  exists th', s'.(threads) !! t = Some th'
    /\ (forall b, works_for b th -> works_for b th') /\ (forall c, sends_for c th -> sends_for c th').
Proof.
  intros Hst Hs' Ht.
  inversion Hst; subst; cbn [threads set_thread set_bqueue set_cqueue stopped] in *; try congruence;
    match goal with
    | |- context [<[?u := ?y]> _ !! t] =>
        destruct (decide (u = t)) as [->|Hne]; [rewrite lookup_insert_eq|rewrite lookup_insert_ne by done; by exists th]
    end; simplify_eq; eexists; (split; [reflexivity|]).
  all: try (by split).
  { by destruct out. }
  all: match goal with H : next_reply _ = Some _ |- _ => rename H into Hn end.
  all: destruct th as [|e'|?|?|?|b [|e' out]|?|?| |]; simplify_eq/=; by split.
Qed.

Lemma reach_worker s0 tr s t th : reach s0 tr s -> s.(stopped) = false -> s0.(threads) !! t = Some th ->
  exists th', s.(threads) !! t = Some th'
    /\ (forall b, works_for b th -> works_for b th') /\ (forall c, sends_for c th -> sends_for c th').
Proof.
  intros Hr Hs Ht. induction Hr as [|tr s l s' Hr IH Hst]; [by exists th|].
  assert (s.(stopped) = false) as Hs1 by (inversion Hst; subst; cbn in *; congruence).
  destruct (IH Hs1) as (th1 & H1 & B1 & C1). destruct (step_worker _ _ _ _ _ Hst Hs H1) as (th2 & H2 & B2 & C2).
  exists th2. auto.
Qed.

End Run.

(** ** Theorems *)

(** C9.  What a queue takes is worked off once, in order, by one worker.
    In every run, whatever the schedule, the work items a brain's queue
    accepted are exactly those its workers took, in the order of acceptance,
    followed by those still in the queue, which never holds more than its
    capacity; what one worker took is what it handed to the brain and saw
    finished, and at most the one it has in hand.  The same holds for the
    replies of a channel's queue and what its worker sent.  Every reply a brain
    produced was settled in order (queued, or reported as saturated or as
    naming no channel), but for those its worker still has to settle; none is
    given up before a shutdown. *)
Theorem queues_lose_and_repeat_nothing g queueCapacity outboundQueueCapacity s0 tr s :
  reach g queueCapacity outboundQueueCapacity s0 tr s ->
  (forall b, omap (accepted b) tr = omap (took b) tr ++ bqueue b s
     /\ (List.length (bqueue b s) <= queueCapacity)%nat)
  /\ (forall c, omap (queued c) tr = omap (drained c) tr ++ cqueue c s
     /\ (List.length (cqueue c s) <= outboundQueueCapacity)%nat)
  /\ (forall t, omap (took_by t) tr = omap (finished_by t) tr ++ in_hand (s.(threads) !! t)
     /\ omap (drained_by t) tr = omap (sent_by t) tr ++ sending (s.(threads) !! t)
     /\ (tr ≫= produced_by t) = omap (settled_by t) tr ++ pending (s.(threads) !! t))
  /\ (s.(stopped) = false -> forall t e, Settled t e Abandoned ∉ tr).
Proof.
  intros Hr. destruct (queue_inv_reach _ _ _ _ _ _ Hr) as [I1 I2 I3 I4 I5 I6 I7 I8]. split_and!; auto.
  intros Hs t e Hin. specialize (I8 Hs). rewrite Forall_forall in I8. by apply (I8 _ Hin t e).
Qed.


(** ** A concrete run: one message, one reply, a message behind at shutdown *)

Definition example_threads : gmap nat thread := <[0 := Checking 1]> {[1 := Draining 0]}.
Definition example_pool : pool :=
  {| brain_queues := ∅; channel_queues := ∅; threads := example_threads; stopped := false |}.

Definition example_work : inboundWork := {| iw_envelope := inbound "hello"; iw_ingress := plain_ingress |}.

Lemma example_fresh : fresh_pool example_pool.
Proof.
  split_and!; [done..|]. intros t th. cbn [threads example_pool]. unfold example_threads.
  destruct (decide (t = 0)) as [->|H0]; [rewrite lookup_insert_eq; intros [= <-]; eauto|].
  rewrite lookup_insert_ne by done. intros [<- <-]%lookup_singleton_Some. eauto.
Qed.

Lemma reach_snoc g qc oc s0 tr s l s' tr' : reach g qc oc s0 tr s -> step g qc oc s l s' -> tr' = tr ++ [l] ->
  reach g qc oc s0 tr' s'.
Proof. intros Hr Hs ->. by eapply reach_step. Qed.

(** A message is accepted, handled and answered. *)
Definition after_call : pool := set_thread 2 (Offering 1 example_work) example_pool.
Definition after_look : pool := set_thread 0 (Waiting 1) after_call.
Definition after_accept : pool := set_bqueue 1 [example_work] (set_thread 2 Returned after_look).
Definition after_take : pool := set_bqueue 1 [] (set_thread 0 (Handling 1 example_work) after_accept).
Definition after_finish : pool := set_thread 0 (Replying 1 [inbound "hi"]) after_take.
Definition after_reply : pool := set_cqueue 0 [inbound "hi"] (set_thread 0 (Replying 1 []) after_finish).

Definition example_trace : list label :=
  [Called 2; Looked 0; Accepted 2 1 example_work; Took 0 1 example_work;
   Finished 0 1 example_work (Some [inbound "hi"]); Settled 0 (inbound "hi") (ToQueue 0)].

Lemma queue_example_reach : reach example_registry 4 4 example_pool example_trace after_reply.
Proof.
  assert (reach example_registry 4 4 example_pool [Called 2] after_call) as H1
    by (eapply reach_snoc; [apply reach_start, example_fresh|by apply dispatch_call|done]).
  assert (reach example_registry 4 4 example_pool [Called 2; Looked 0] after_look) as H2
    by (eapply reach_snoc; [exact H1|by apply worker_look|done]).
  assert (reach example_registry 4 4 example_pool [Called 2; Looked 0; Accepted 2 1 example_work] after_accept) as H3.
  { eapply reach_snoc; [exact H2|apply (dispatch_accept _ _ _ after_look 2 1 example_work); [done|vm_compute; lia]|done]. }
  assert (reach example_registry 4 4 example_pool
    [Called 2; Looked 0; Accepted 2 1 example_work; Took 0 1 example_work] after_take) as H4
    by (eapply reach_snoc; [exact H3|by apply (worker_take _ _ _ after_accept 0 1 example_work [])|done]).
  assert (reach example_registry 4 4 example_pool
    [Called 2; Looked 0; Accepted 2 1 example_work; Took 0 1 example_work;
     Finished 0 1 example_work (Some [inbound "hi"])] after_finish) as H5
    by (eapply reach_snoc; [exact H4|by apply (worker_finish _ _ _ after_take 0 1 example_work (Some [inbound "hi"]))|done]).
  eapply reach_snoc; [exact H5| |done].
  apply (reply_queue _ _ _ after_finish 0 (Replying 1 [inbound "hi"]) (inbound "hi") (Replying 1 []) 0);
    [done|done|vm_compute; reflexivity|vm_compute; lia].
Qed.

Lemma queues_lose_and_repeat_nothing_witness :
  omap (accepted 1) example_trace = omap (took 1) example_trace
  /\ omap (queued 0) example_trace = omap (drained 0) example_trace ++ [inbound "hi"].
Proof.
  destruct (queues_lose_and_repeat_nothing _ _ _ _ _ _ queue_example_reach) as (Hb & Hc & _). split.
  - rewrite (proj1 (Hb 1)). vm_compute. reflexivity.
  - rewrite (proj1 (Hc 0)). vm_compute. reflexivity.
Defined.

