(* ===== verification/Supervisor.v ===== *)
(** * The supervisor

    [internal/supervisor/supervisor.go]: the life of the running app, and the
    cutover to another configuration.  The loop of [Run] and the callers of
    [RequestReload] interleave freely, one section under the mutex (or one
    call outside it) at a time; what the app, the builder, the preflight and
    the disk answer is chosen by the run.  Logs and the observer are left out:
    they are told what the status already says. *)

From S2P Require Import Prelude Encoding.
From Stdlib Require Import String.
Local Open Scope Z_scope.
Local Open Scope korvun_scope.

Definition Handle := string.

Inductive State :=
| StatePending
| StateCutoverInProgress
| StateSucceeded
| StateRolledBack
| StateFailed
| StatePersistFailed.

Definition ErrReloadInProgress : error := ErrorNew "supervisor: a reload is already in progress".
Definition ErrShuttingDown : error := ErrorNew "supervisor: shutting down".

(** ** [WriteConfigAtomic]: what each call to the system answered is an argument *)

Definition WriteConfigAtomic (path : string) (marshal create : result string) (write close rename : option error)
    (removes : bool) (files : gmap string string) : option error * gmap string string :=
  match marshal with
  | Err err => (Some (ErrorWrap "supervisor: marshal config" err), files)
  | Ok data =>
    match create with
    | Err err => (Some (ErrorWrap "supervisor: create temp config" err), files)
    | Ok tmpName =>
      let remove (m : gmap string string) := if removes then delete tmpName m else m in
      match write with
      | Some err => (Some (ErrorWrap "supervisor: write temp config" err), remove (<[tmpName := EmptyString]> files))
      | None =>
        let written := <[tmpName := data]> files in
        match close with
        | Some err => (Some (ErrorWrap "supervisor: close temp config" err), remove written)
        | None =>
          match rename with
          | Some err => (Some (ErrorWrap "supervisor: rename config into place" err), remove written)
          | None => (None, remove (<[path := data]> (delete tmpName written)))
          end
        end
      end
    end
  end.

(** A failure leaves the old configuration where it was; a success replaces it
    whole.  The temporary name is not the target's. *)
Lemma WriteConfigAtomic_spec path marshal create write close rename removes files err files' :
  WriteConfigAtomic path marshal create write close rename removes files = (err, files') ->
  create <> Ok path ->
  match err with
  | Some _ => files' !! path = files !! path
  | None => exists data, marshal = Ok data /\ files' !! path = Some data
  end.
Proof.
  unfold WriteConfigAtomic. intros H Hne.
  destruct marshal as [data|], create as [tmp|]; try (by simplify_eq).
  assert (tmp <> path) by congruence.
  destruct write, close, rename, removes; simplify_eq; try exists data;
    by rewrite ?lookup_delete_ne, ?lookup_insert_ne, ?lookup_insert_eq by done.
Qed.

Section Supervisor.
(** A configuration is opaque; an app is the configuration it was built from.
    The preflight and the persist seam may each be unset. *)
Context {C : Type} (preflight persist : bool).

Record reloadReq := {
  rq_cfg : C;
  rq_handle : Handle
}.

Inductive stopReason :=
| reasonShutdown
| reasonReload (req : reloadReq)
| reasonAppFailed (err : error).

(** Where the loop of [Run] is; an app it holds is named by its configuration. *)
Inductive position :=
| Booting
| Installing (cfg : C)
| Serving (cfg : C)
| Refusing (cfg : C) (req : reloadReq)
| Refused (cfg : C) (req : reloadReq)
| Stopping (cfg : C) (reason : stopReason)
| Stopped (cfg : C) (reason : stopReason)
| Building (old : C) (req : reloadReq)
| Failing (old : C) (req : reloadReq)
| Releasing (old : C) (req : reloadReq)
| RollingBack (old : C)
| Swapping (req : reloadReq)
| Persisting (req : reloadReq)
| Reporting (req : reloadReq) (persisted : bool)
| Recording (req : reloadReq)
| Finishing (req : reloadReq)
| Returned (err : option error).

Record st := {
  pos : position;
  current : option C;
  currentCfg : C;
  status : gmap Handle State;
  reloadInProgress : bool;
  shuttingDown : bool;
  seq : Z;
  (** Requests registered and not yet sent, and the channel of one place. *)
  unsent : list reloadReq;
  reloadCh : option reloadReq;
  (** Apps that were started and not yet shut down. *)
  running : list C;
  disk : C
}.

Inductive label :=
| Started (cfg : C)
| StartFailed (cfg : C)
| Preflighted (req : reloadReq) (ok : bool)
| Quit (reason : stopReason)
| ShutDown (cfg : C)
| SetStatus (h : Handle) (s : State)
| Persisted (req : reloadReq) (ok : bool)
| Requested (req : reloadReq)
| Declined (cfg : C) (err : error)
| Sent (req : reloadReq)
| Silent.

Definition set_pos (p : position) (s : st) : st :=
  {| pos := p; current := s.(current); currentCfg := s.(currentCfg); status := s.(status);
     reloadInProgress := s.(reloadInProgress); shuttingDown := s.(shuttingDown); seq := s.(seq);
     unsent := s.(unsent); reloadCh := s.(reloadCh); running := s.(running); disk := s.(disk) |}.
Definition setCurrent (c : C) (s : st) : st :=
  {| pos := s.(pos); current := Some c; currentCfg := s.(currentCfg); status := s.(status);
     reloadInProgress := s.(reloadInProgress); shuttingDown := s.(shuttingDown); seq := s.(seq);
     unsent := s.(unsent); reloadCh := s.(reloadCh); running := s.(running); disk := s.(disk) |}.
Definition setCurrentCfg (c : C) (s : st) : st :=
  {| pos := s.(pos); current := s.(current); currentCfg := c; status := s.(status);
     reloadInProgress := s.(reloadInProgress); shuttingDown := s.(shuttingDown); seq := s.(seq);
     unsent := s.(unsent); reloadCh := s.(reloadCh); running := s.(running); disk := s.(disk) |}.
Definition setStatus (h : Handle) (x : State) (s : st) : st :=
  {| pos := s.(pos); current := s.(current); currentCfg := s.(currentCfg); status := <[h := x]> s.(status);
     reloadInProgress := s.(reloadInProgress); shuttingDown := s.(shuttingDown); seq := s.(seq);
     unsent := s.(unsent); reloadCh := s.(reloadCh); running := s.(running); disk := s.(disk) |}.
Definition finishReload (s : st) : st :=
  {| pos := s.(pos); current := s.(current); currentCfg := s.(currentCfg); status := s.(status);
     reloadInProgress := false; shuttingDown := s.(shuttingDown); seq := s.(seq);
     unsent := s.(unsent); reloadCh := s.(reloadCh); running := s.(running); disk := s.(disk) |}.
Definition set_shuttingDown (s : st) : st :=
  {| pos := s.(pos); current := s.(current); currentCfg := s.(currentCfg); status := s.(status);
     reloadInProgress := s.(reloadInProgress); shuttingDown := true; seq := s.(seq);
     unsent := s.(unsent); reloadCh := s.(reloadCh); running := s.(running); disk := s.(disk) |}.
Definition set_running (l : list C) (s : st) : st :=
  {| pos := s.(pos); current := s.(current); currentCfg := s.(currentCfg); status := s.(status);
     reloadInProgress := s.(reloadInProgress); shuttingDown := s.(shuttingDown); seq := s.(seq);
     unsent := s.(unsent); reloadCh := s.(reloadCh); running := l; disk := s.(disk) |}.
Definition set_channel (u : list reloadReq) (c : option reloadReq) (s : st) : st :=
  {| pos := s.(pos); current := s.(current); currentCfg := s.(currentCfg); status := s.(status);
     reloadInProgress := s.(reloadInProgress); shuttingDown := s.(shuttingDown); seq := s.(seq);
     unsent := u; reloadCh := c; running := s.(running); disk := s.(disk) |}.
Definition set_disk (c : C) (s : st) : st :=
  {| pos := s.(pos); current := s.(current); currentCfg := s.(currentCfg); status := s.(status);
     reloadInProgress := s.(reloadInProgress); shuttingDown := s.(shuttingDown); seq := s.(seq);
     unsent := s.(unsent); reloadCh := s.(reloadCh); running := s.(running); disk := c |}.

Definition Status (h : Handle) (s : st) : option State := s.(status) !! h.

(** [New], and the configuration on the disk it came from. *)
Definition New (initial : C) : st :=
  {| pos := Booting; current := None; currentCfg := initial; status := ∅; reloadInProgress := false;
     shuttingDown := false; seq := 0; unsent := []; reloadCh := None; running := []; disk := initial |}.

(** ** [RequestReload] *)

Definition next_seq (n : Z) : Z := (n + 1) mod 18446744073709551616.
Definition handle_of (n : Z) : Handle := "reload-" +:+ Itoa n.

(** The section under the mutex: the answer, or the request to send. *)
Definition register (cfg : C) (s : st) : result Handle * st :=
  if s.(shuttingDown) then (Err ErrShuttingDown, s)
  else if s.(reloadInProgress) then (Err ErrReloadInProgress, s)
  else
    let n := next_seq s.(seq) in
    let h := handle_of n in
    (Ok h,
     {| pos := s.(pos); current := s.(current); currentCfg := s.(currentCfg);
        status := <[h := StatePending]> s.(status); reloadInProgress := true;
        shuttingDown := s.(shuttingDown); seq := n;
        unsent := s.(unsent) ++ [{| rq_cfg := cfg; rq_handle := h |}];
        reloadCh := s.(reloadCh); running := s.(running); disk := s.(disk) |}).

(** ** The loop of [Run] *)

Definition serve_quit : error :=
  ErrorNew "app.Serve returned with no error while the supervisor was not shutting down".

(** [buildAndStart]: an app that is started runs until it is shut down; one
    that is not leaves nothing running. *)
Inductive step (s : st) : label -> st -> Prop :=
| boot : s.(pos) = Booting ->
    step s (Started s.(currentCfg))
      (set_running (s.(currentCfg) :: s.(running)) (set_pos (Installing s.(currentCfg)) s))
| boot_failed err : s.(pos) = Booting ->
    step s (StartFailed s.(currentCfg)) (set_pos (Returned (Some (ErrorWrap "supervisor: initial start" err))) s)
| install c : s.(pos) = Installing c -> step s Silent (setCurrent c (set_pos (Serving c) s))
(** [serve]: the app quits, a shutdown is asked for, a reload arrives. *)
| serve_failed c err : s.(pos) = Serving c ->
    step s (Quit (reasonAppFailed (default serve_quit err)))
      (set_pos (Stopping c (reasonAppFailed (default serve_quit err))) s)
| serve_shutdown c : s.(pos) = Serving c -> step s (Quit reasonShutdown) (set_pos (Stopping c reasonShutdown) s)
| serve_refuse c req : s.(pos) = Serving c -> s.(reloadCh) = Some req -> preflight = true ->
    step s (Preflighted req false) (set_pos (Refusing c req) (set_channel s.(unsent) None s))
| refuse_status c req : s.(pos) = Refusing c req ->
    step s (SetStatus req.(rq_handle) StateFailed)
      (setStatus req.(rq_handle) StateFailed (set_pos (Refused c req) s))
| refuse_finish c req : s.(pos) = Refused c req -> step s Silent (finishReload (set_pos (Serving c) s))
| serve_reload c req : s.(pos) = Serving c -> s.(reloadCh) = Some req ->
    step s (Preflighted req true) (set_pos (Stopping c (reasonReload req)) (set_channel s.(unsent) None s))
(** [shutdownApp], which may report an error the loop only logs. *)
| shut_down c r : s.(pos) = Stopping c r ->
    step s (ShutDown c) (set_running (tail s.(running)) (set_pos (Stopped c r) s))
| stop_shutdown c : s.(pos) = Stopped c reasonShutdown ->
    step s Silent (set_shuttingDown (set_pos (Returned None) s))
| stop_failed c err : s.(pos) = Stopped c (reasonAppFailed err) ->
    step s Silent (set_pos (Returned (Some (ErrorWrap "supervisor: running app failed" err))) s)
| stop_reload c req : s.(pos) = Stopped c (reasonReload req) ->
    step s (SetStatus req.(rq_handle) StateCutoverInProgress)
      (setStatus req.(rq_handle) StateCutoverInProgress (set_pos (Building c req) s))
(** The cutover, and the way back. *)
| build_ok c req : s.(pos) = Building c req ->
    step s (Started req.(rq_cfg)) (set_running (req.(rq_cfg) :: s.(running)) (set_pos (Swapping req) s))
| build_failed c req : s.(pos) = Building c req ->
    step s (StartFailed req.(rq_cfg)) (set_pos (Failing c req) s)
| roll_status c req : s.(pos) = Failing c req ->
    step s (SetStatus req.(rq_handle) StateRolledBack)
      (setStatus req.(rq_handle) StateRolledBack (set_pos (Releasing c req) s))
| roll_release c req : s.(pos) = Releasing c req -> step s Silent (finishReload (set_pos (RollingBack c) s))
| roll_ok c : s.(pos) = RollingBack c ->
    step s (Started c) (set_running (c :: s.(running)) (set_pos (Installing c) s))
| roll_failed c err : s.(pos) = RollingBack c ->
    step s (StartFailed c)
      (set_pos (Returned (Some (ErrorWrap "supervisor: rollback failed after cutover error" err))) s)
| swap req : s.(pos) = Swapping req -> step s Silent (setCurrent req.(rq_cfg) (set_pos (Persisting req) s))
| persist_ok req : s.(pos) = Persisting req ->
    step s (Persisted req true)
      (set_disk (if persist then req.(rq_cfg) else s.(disk)) (set_pos (Reporting req true) s))
| persist_failed req : s.(pos) = Persisting req -> persist = true ->
    step s (Persisted req false) (set_pos (Reporting req false) s)
| report req ok : s.(pos) = Reporting req ok ->
    step s (SetStatus req.(rq_handle) (if ok then StateSucceeded else StatePersistFailed))
      (setStatus req.(rq_handle) (if ok then StateSucceeded else StatePersistFailed) (set_pos (Recording req) s))
| record req : s.(pos) = Recording req -> step s Silent (setCurrentCfg req.(rq_cfg) (set_pos (Finishing req) s))
| finish req : s.(pos) = Finishing req -> step s Silent (finishReload (set_pos (Serving req.(rq_cfg)) s))
(** The callers. *)
| request cfg h s' : register cfg s = (Ok h, s') -> step s (Requested {| rq_cfg := cfg; rq_handle := h |}) s'
| decline cfg err s' : register cfg s = (Err err, s') -> step s (Declined cfg err) s'
| send req l r : s.(unsent) = l ++ req :: r -> s.(reloadCh) = None ->
    step s (Sent req) (set_channel (l ++ r) (Some req) s).

Inductive reach (initial : C) : list label -> st -> Prop :=
| reach_new : reach initial [] (New initial)
| reach_step tr s l s' : reach initial tr s -> step s l s' -> reach initial (tr ++ [l]) s'.

(** ** One reload at a time *)

(** The request the loop holds. *)
Definition held (p : position) : list reloadReq :=
  match p with
  | Refusing _ req | Refused _ req | Stopping _ (reasonReload req) | Stopped _ (reasonReload req)
  | Building _ req | Failing _ req | Releasing _ req | Swapping req | Persisting req | Reporting req _
  | Recording req | Finishing req => [req]
  | _ => []
  end.
Definition in_flight (s : st) : list reloadReq := s.(unsent) ++ option_list s.(reloadCh) ++ held s.(pos).

(** The app that runs there, and the configuration it is recorded under. *)
Definition app_of (p : position) : list C :=
  match p with
  | Installing c | Serving c | Refusing c _ | Refused c _ | Stopping c _ => [c]
  | Swapping req | Persisting req | Reporting req _ | Recording req | Finishing req => [req.(rq_cfg)]
  | _ => []
  end.
Definition recorded (p : position) (s : st) : Prop :=
  match p with
  | Serving c | Refusing c _ | Refused c _ => s.(currentCfg) = c /\ s.(current) = Some c
  | Building c _ | Failing c _ | Releasing c _ | RollingBack c | Installing c | Stopping c _ | Stopped c _ => s.(currentCfg) = c
  | Persisting req | Reporting req _ | Recording req => s.(current) = Some req.(rq_cfg)
  | Finishing req => s.(currentCfg) = req.(rq_cfg) /\ s.(current) = Some req.(rq_cfg)
  | _ => True
  end.

(** The cases of a step, with what each knew of the state in its hypotheses. *)
Ltac step_cases Hst :=
  inversion Hst; clear Hst; subst;
  try match goal with H : register _ _ = _ |- _ => unfold register in H; repeat case_match; simplify_eq end.

Lemma step_one s l s' : step s l s' ->
  List.length (in_flight s) = (if s.(reloadInProgress) then 1 else 0)%nat ->
  List.length (in_flight s') = (if s'.(reloadInProgress) then 1 else 0)%nat.
Proof.
  unfold in_flight. intros Hst I. step_cases Hst; cbn;
    try match goal with H : pos _ = _ |- _ => rewrite H in I end;
    try match goal with H : reloadCh _ = _ |- _ => rewrite H in I end;
    try match goal with H : unsent _ = _ |- _ => rewrite H in I end;
    try match goal with H : reloadInProgress _ = _ |- _ => rewrite H in I end;
    repeat rewrite ?length_app in *; cbn in *; try destruct (reloadInProgress _); try lia.
Qed.

Lemma step_apps s l s' : step s l s' -> s.(running) = app_of s.(pos) -> s'.(running) = app_of s'.(pos).
Proof. intros Hst I. step_cases Hst; cbn; repeat match goal with H : pos _ = _ |- _ => rewrite H in I end; cbn in *; by rewrite ?I. Qed.

Lemma step_recorded s l s' : step s l s' -> recorded s.(pos) s -> recorded s'.(pos) s'.
Proof.
  intros Hst I. step_cases Hst; cbn; repeat match goal with H : pos _ = _ |- _ => rewrite H in I end; cbn in *; try tauto.
Qed.

(** ** What a handle is told *)

(** The requests taken, in order, and what was told about a handle. *)
Definition issued_by (l : label) : option reloadReq := match l with Requested req => Some req | _ => None end.
Definition issued (tr : list label) : list reloadReq := omap issued_by tr.
Definition told_by (h : Handle) (l : label) : option State :=
  match l with
  | Requested req => if decide (req.(rq_handle) = h) then Some StatePending else None
  | SetStatus h' x => if decide (h' = h) then Some x else None
  | _ => None
  end.
Definition history (h : Handle) (tr : list label) : list State := omap (told_by h) tr.

(** The histories that are over, each with what the run did for it. *)
Inductive closed (tr : list label) (req : reloadReq) : list State -> Prop :=
| closed_failed : Preflighted req false ∈ tr -> closed tr req [StatePending; StateFailed]
| closed_rolled_back : StartFailed req.(rq_cfg) ∈ tr ->
    closed tr req [StatePending; StateCutoverInProgress; StateRolledBack]
| closed_succeeded : Started req.(rq_cfg) ∈ tr -> Persisted req true ∈ tr ->
    closed tr req [StatePending; StateCutoverInProgress; StateSucceeded]
| closed_persist_failed : Started req.(rq_cfg) ∈ tr -> Persisted req false ∈ tr ->
    closed tr req [StatePending; StateCutoverInProgress; StatePersistFailed].

(** The history of the request in flight, by where the loop is. *)
Definition open_at (tr : list label) (req : reloadReq) (p : position) (hist : list State) : Prop :=
  match p with
  | Refused _ _ | Releasing _ _ | Recording _ | Finishing _ => closed tr req hist
  | Refusing _ _ => hist = [StatePending] /\ Preflighted req false ∈ tr
  | Building _ _ => hist = [StatePending; StateCutoverInProgress]
  | Failing _ _ => hist = [StatePending; StateCutoverInProgress] /\ StartFailed req.(rq_cfg) ∈ tr
  | Swapping _ | Persisting _ => hist = [StatePending; StateCutoverInProgress] /\ Started req.(rq_cfg) ∈ tr
  | Reporting _ ok => hist = [StatePending; StateCutoverInProgress]
      /\ Started req.(rq_cfg) ∈ tr /\ Persisted req ok ∈ tr
  | _ => hist = [StatePending]
  end.

(** The books of the handles, while the counter has not wrapped. *)
Record books (tr : list label) (s : st) : Prop := {
  books_seq : s.(seq) = Z.of_nat (List.length (issued tr));
  books_handles : map rq_handle (issued tr) = map (fun n => handle_of (Z.of_nat n)) (List.seq 1 (List.length (issued tr)));
  books_flight : forall req, req ∈ in_flight s -> req ∈ issued tr;
  books_told : forall req, req ∈ issued tr ->
    (req ∈ in_flight s /\ open_at tr req s.(pos) (history req.(rq_handle) tr))
    \/ (req ∉ in_flight s /\ closed tr req (history req.(rq_handle) tr));
  books_untold : forall h, h ∉ map rq_handle (issued tr) -> history h tr = [];
  books_status : forall h, Status h s = last (history h tr)
}.

Lemma closed_mono tr l req hist : closed tr req hist -> closed (tr ++ [l]) req hist.
Proof. intros []; constructor; set_solver. Qed.
Lemma open_at_mono tr l req p hist : open_at tr req p hist -> open_at (tr ++ [l]) req p hist.
Proof. destruct p; cbn; try done; try set_solver; apply closed_mono. Qed.

Lemma handle_of_inj n m : handle_of n = handle_of m -> n = m.
Proof. unfold handle_of. intros H. apply (inj _) in H. by apply Itoa_inj. Qed.

Lemma handles_NoDup tr s : books tr s -> NoDup (map rq_handle (issued tr)).
Proof.
  intros B. rewrite (books_handles _ _ B). apply NoDup_fmap_2_strong; [|apply NoDup_ListNoDup, seq_NoDup].
  intros n m _ _ H%handle_of_inj. lia.
Qed.
Lemma handles_differ tr s req req' : books tr s -> req ∈ issued tr -> req' ∈ issued tr ->
  req.(rq_handle) = req'.(rq_handle) -> req = req'.
Proof.
  intros B Hr Hr' E. pose proof (handles_NoDup _ _ B) as N.
  apply list_elem_of_lookup in Hr as [n Hn], Hr' as [m Hm].
  assert (n = m); [|congruence].
  eapply NoDup_lookup; [exact N|..]; rewrite list_lookup_fmap, ?Hn, ?Hm; cbn; [done|by rewrite E].
Qed.

(** A step that takes no request: what it says is about the request it holds,
    and the others stay as they were. *)
Lemma books_move tr s l s' : books tr s -> issued_by l = None -> s'.(seq) = s.(seq) ->
  s'.(status) = match l with SetStatus h x => <[h := x]> s.(status) | _ => s.(status) end ->
  (forall req, req ∈ in_flight s' -> req ∈ in_flight s) ->
  match l with SetStatus h _ => exists req, req ∈ in_flight s /\ req.(rq_handle) = h | _ => True end ->
  (forall req, req ∈ in_flight s -> open_at tr req s.(pos) (history req.(rq_handle) tr) ->
     let hist := history req.(rq_handle) tr ++ match told_by req.(rq_handle) l with Some x => [x] | None => [] end in
     (req ∈ in_flight s' /\ open_at (tr ++ [l]) req s'.(pos) hist)
     \/ (req ∉ in_flight s' /\ closed (tr ++ [l]) req hist)) ->
  books (tr ++ [l]) s'.
Proof.
  intros B Hi Hseq Hst Hsub Hown Hopen.
  assert (issued (tr ++ [l]) = issued tr) as Hiss by (unfold issued; by rewrite omap_snoc, Hi, app_nil_r).
  assert (forall h, (forall req, req ∈ in_flight s -> req.(rq_handle) <> h) -> told_by h l = None) as Hquiet.
  { intros h Hh. destruct l; cbn in *; try done. destruct Hown as (req & Hin & <-). by rewrite decide_False by auto. }
  assert (forall h, history h (tr ++ [l]) = history h tr ++ match told_by h l with Some x => [x] | None => [] end)
    as Hhist by (intros; apply omap_snoc).
  destruct B as [B1 B2 B3 B4 B5 B6] eqn:EB. clear EB.
  split; rewrite ?Hiss.
  - congruence.
  - done.
  - auto.
  - intros req Hreq. rewrite Hhist. destruct (B4 _ Hreq) as [[Hin Ho]|[Hni Hc]]; [by apply Hopen|]. right.
    rewrite Hquiet, app_nil_r; [split; [auto|by apply closed_mono]|].
    intros r Hr E. assert (r = req) as ->; [|done]. eapply handles_differ; eauto; by split.
  - intros h Hh. rewrite Hhist, B5, Hquiet; [done| |done]. intros r Hr <-. apply Hh, list_elem_of_fmap; eauto.
  - intros h. unfold Status. rewrite Hst, Hhist. specialize (B6 h). unfold Status in B6.
    destruct l; cbn in *; try done; rewrite ?app_nil_r; try done.
    case_decide; subst; [by rewrite lookup_insert_eq, last_snoc|by rewrite lookup_insert_ne, app_nil_r by done].
Qed.

(** With one request in flight, where it is tells where it is not. *)
Definition lone (s : st) : Prop := (List.length (in_flight s) <= 1)%nat.

Lemma flight_held s req : lone s -> held s.(pos) = [req] -> s.(unsent) = [] /\ s.(reloadCh) = None /\ in_flight s = [req].
Proof.
  unfold lone, in_flight. intros H E. rewrite E in *. rewrite !length_app in H. cbn in H.
  destruct (unsent s), (reloadCh s); cbn in *; try lia. done.
Qed.
Lemma flight_channel s req : lone s -> s.(reloadCh) = Some req ->
  s.(unsent) = [] /\ held s.(pos) = [] /\ in_flight s = [req].
Proof.
  unfold lone, in_flight. intros H E. rewrite E in *. rewrite !length_app in H. cbn in H.
  destruct (unsent s), (held (pos s)); cbn in *; try lia. done.
Qed.

Ltac flight :=
  repeat match goal with
  | HL : lone ?s, H : pos ?s = ?p |- _ =>
    let E := fresh "E" in eassert (held (pos s) = [_]) as E by (by rewrite H);
    apply (flight_held s _ HL) in E as (?Hu & ?Hc & ?Hf); clear HL
  | HL : lone ?s, H : reloadCh ?s = Some _ |- _ => apply (flight_channel s _ HL) in H as (?Hu & ?Hh & ?Hf); clear HL
  end.

Lemma step_books tr s l s' : step s l s' -> books tr s -> lone s -> issued_by l = None -> books (tr ++ [l]) s'.
Proof.
  intros Hst B HL Hi.
  assert (l ∈ tr ++ [l]) as Hl by set_solver.
  eapply (books_move tr s l s' B Hi).
  - step_cases Hst; done.
  - step_cases Hst; done.
  - step_cases Hst; unfold in_flight; cbn;
      repeat match goal with H : pos _ = _ |- _ => rewrite H | H : reloadCh _ = _ |- _ => rewrite H
        | H : unsent _ = _ |- _ => rewrite H end; set_solver.
  - step_cases Hst; try done; flight; rewrite Hf; set_solver.
  - intros req Hin Ho hist. subst hist.
    assert (forall p hist, open_at tr req p hist -> open_at (tr ++ [l]) req p hist) as Hmono by (intros; by apply open_at_mono).
    step_cases Hst; try done; flight.
    all: try (match goal with H : in_flight _ = _ |- _ => rewrite H in Hin end; apply list_elem_of_singleton in Hin as ->).
    all: cbn [told_by]; rewrite ?decide_True, ?app_nil_r by done.
    all: try match goal with H : pos _ = _ |- _ => rewrite H in Ho end; cbn in Ho.
    all: unfold in_flight in *; try match goal with H : pos _ = _ |- _ => rewrite H in Hin end.
    all: try match goal with H : unsent _ = _ |- _ => rewrite H in Hin end; try match goal with H : reloadCh _ = None |- _ => rewrite H in Hin end.
    all: cbn in *; rewrite ?app_nil_r in *; rewrite ?Hu, ?Hc; cbn in *.
    all: try (left; split; [set_solver|by apply Hmono]).
    all: first [left; split; [set_solver|]|right; split; [set_solver|]|idtac].
    all: try (by apply closed_mono).
    all: repeat match type of Ho with _ /\ _ => destruct Ho as [Ho ?] | _ = _ => rewrite Ho; clear Ho end.
    all: try destruct ok; repeat constructor; set_solver.
Qed.

Lemma register_ok cfg s h s' : register cfg s = (Ok h, s') ->
  s.(reloadInProgress) = false /\ h = handle_of (next_seq s.(seq)) /\ s'.(pos) = s.(pos)
  /\ s'.(seq) = next_seq s.(seq) /\ s'.(status) = <[h := StatePending]> s.(status)
  /\ s'.(unsent) = s.(unsent) ++ [{| rq_cfg := cfg; rq_handle := h |}] /\ s'.(reloadCh) = s.(reloadCh).
Proof. unfold register. intros H. by repeat case_match; simplify_eq. Qed.

(** Taking a request: none is in flight, and the handle is new. *)
Lemma request_books tr s req s' : register req.(rq_cfg) s = (Ok req.(rq_handle), s') -> books tr s ->
  in_flight s = [] -> Z.of_nat (List.length (issued (tr ++ [Requested req]))) < 18446744073709551616 ->
  books (tr ++ [Requested req]) s'.
Proof.
  intros Hreg B Hempty Hsmall.
  assert (issued (tr ++ [Requested req]) = issued tr ++ [req]) as Hiss by (unfold issued; by rewrite omap_snoc).
  rewrite Hiss, length_app in Hsmall. cbn in Hsmall.
  apply register_ok in Hreg as (_ & Hh & Hp & Hs & Hst & Hu & Hc).
  assert (next_seq (seq s) = Z.of_nat (S (List.length (issued tr)))) as Hn.
  { unfold next_seq. rewrite (books_seq _ _ B), Z.mod_small; lia. }
  assert (in_flight s' = [req]) as Hf.
  { unfold in_flight in *. apply app_eq_nil in Hempty as [H1 H2]. apply app_eq_nil in H2 as [H2 H3].
    rewrite Hu, Hc, Hp, H1, H2, H3. by destruct req. }
  assert (rq_handle req ∉ map rq_handle (issued tr)) as Hnew.
  { rewrite (books_handles _ _ B), Hh, Hn. intros (n & E & Hin)%list_elem_of_fmap.
    apply handle_of_inj in E. apply elem_of_seq in Hin. lia. }
  assert (forall h, history h (tr ++ [Requested req]) = history h tr ++ (if decide (rq_handle req = h) then [StatePending] else []))
    as Hhist by (intros; unfold history; rewrite omap_snoc; cbn; by case_decide).
  destruct B as [B1 B2 B3 B4 B5 B6].
  split; rewrite ?Hiss.
  - rewrite Hs, Hn, length_app. cbn. lia.
  - rewrite map_app, B2, length_app, seq_app, map_app. cbn. by rewrite Hh, Hn.
  - rewrite Hf. set_solver.
  - intros r [Hr| ->%list_elem_of_singleton]%elem_of_app.
    + destruct (B4 _ Hr) as [[Hin _]|[_ Hcl]]; [rewrite Hempty in Hin; set_solver|]. right.
      assert (rq_handle req <> rq_handle r) by (intros E; apply Hnew; rewrite E; by apply list_elem_of_fmap_2).
      rewrite Hhist, decide_False, app_nil_r by done. split; [rewrite Hf; set_solver|by apply closed_mono].
    + left. rewrite Hf, Hhist, decide_True, (B5 _ Hnew), Hp by done. split; [set_solver|].
      unfold in_flight in Hempty. apply app_eq_nil in Hempty as [_ H2]. apply app_eq_nil in H2 as [_ H3].
      destruct (pos s) as [| | | | |? []|? []| | | | | | | | | |]; done.
  - intros h Hh'. rewrite map_app in Hh'. rewrite Hhist, B5, decide_False by set_solver. done.
  - intros h. unfold Status. rewrite Hst, Hhist. specialize (B6 h). unfold Status in B6.
    case_decide as E; [by rewrite <- E, lookup_insert_eq, last_snoc|by rewrite lookup_insert_ne, app_nil_r by done].
Qed.

(** ** The invariant of the runs *)

Record inv (initial : C) (tr : list label) (s : st) : Prop := {
  inv_one : List.length (in_flight s) = (if s.(reloadInProgress) then 1 else 0)%nat;
  inv_running : s.(running) = app_of s.(pos);
  inv_recorded : recorded s.(pos) s;
  inv_books : Z.of_nat (List.length (issued tr)) < 18446744073709551616 -> books tr s;
  inv_disk : s.(disk) = initial \/ Started s.(disk) ∈ tr;
  inv_proven : forall req, s.(pos) = Swapping req \/ s.(pos) = Persisting req -> Started req.(rq_cfg) ∈ tr
}.

Lemma inv_lone initial tr s : inv initial tr s -> lone s.
Proof. intros I. unfold lone. rewrite (inv_one _ _ _ I). by destruct (reloadInProgress s); lia. Qed.

Lemma step_disk initial tr s l s' : step s l s' -> inv initial tr s ->
  s'.(disk) = initial \/ Started s'.(disk) ∈ tr ++ [l].
Proof.
  intros Hst [_ _ _ _ I6 I7].
  assert (s.(disk) = initial \/ Started s.(disk) ∈ tr ++ [l]) as I6' by set_solver.
  step_cases Hst; cbn; try done. destruct persist; [|done]. set_solver.
Qed.

Lemma step_proven initial tr s l s' : step s l s' -> inv initial tr s ->
  forall req, s'.(pos) = Swapping req \/ s'.(pos) = Persisting req -> Started req.(rq_cfg) ∈ tr ++ [l].
Proof.
  intros Hst [_ _ _ _ _ I7] r Hr.
  step_cases Hst; cbn in Hr; destruct Hr as [Hr|Hr]; simplify_eq; set_solver.
Qed.

Lemma reload_inv_step initial tr s l s' : inv initial tr s -> step s l s' -> inv initial (tr ++ [l]) s'.
Proof.
  intros I Hst. split.
  - by apply (step_one s l), I.
  - by apply (step_apps s l), I.
  - by apply (step_recorded s l), I.
  - intros Hsmall.
    assert (books tr s) as B.
    { apply (inv_books _ _ _ I). unfold issued in *. rewrite omap_app, length_app in Hsmall. lia. }
    destruct (issued_by l) as [req|] eqn:Hi; [|apply (step_books tr s l s' Hst B); [by eapply inv_lone|done]].
    destruct l as [| | | | | | |r| | |]; simplify_eq/=.
    inversion Hst; subst. match goal with H : register _ _ = _ |- _ => rename H into Hreg end.
    apply (request_books tr s _ s'); try done.
    apply register_ok in Hreg as (Hin & _). pose proof (inv_one _ _ _ I) as H1. rewrite Hin in H1.
    by apply nil_length_inv.
  - by apply (step_disk _ _ s).
  - by eapply step_proven.
Qed.

Lemma reload_inv_reach initial tr s : reach initial tr s -> inv initial tr s.
Proof.
  induction 1 as [|tr s l s' _ I Hst]; [|by eapply reload_inv_step].
  split; try done; cbn; try tauto; [|by intros ? [|]].
  intros _. split; try done; set_solver.
Qed.


End Supervisor.

(** ** A cutover *)

Definition example_req : reloadReq := {| rq_cfg := 2; rq_handle := "reload-1" |}.
Definition example_trace : list label :=
  [Started 1; Silent; Requested example_req; Sent example_req; Preflighted example_req true; ShutDown 1;
   SetStatus "reload-1" StateCutoverInProgress; Started 2; Silent; Persisted example_req true;
   SetStatus "reload-1" StateSucceeded; Silent; Silent].

Lemma cutover_reach : exists s, reach true true 1 example_trace s
  /\ s.(pos) = Serving 2 /\ Status "reload-1" s = Some StateSucceeded /\ s.(disk) = 2.
Proof.
  eexists. split.
  - pose proof (reach_new true true 1) as R.
    eapply reach_step in R; [|by apply boot].
    eapply reach_step in R; [|by apply (install _ _ _ 1)].
    eapply reach_step in R; [|by apply (request _ _ _ 2 "reload-1")].
    eapply reach_step in R; [|by apply (send _ _ _ example_req [] [])].
    eapply reach_step in R; [|by apply (serve_reload _ _ _ 1 example_req)].
    eapply reach_step in R; [|by apply (shut_down _ _ _ 1 (reasonReload example_req))].
    eapply reach_step in R; [|by apply (stop_reload _ _ _ 1 example_req)].
    eapply reach_step in R; [|by apply (build_ok _ _ _ 1 example_req)].
    eapply reach_step in R; [|by apply (swap _ _ _ example_req)].
    eapply reach_step in R; [|by apply (persist_ok _ _ _ example_req)].
    eapply reach_step in R; [|by apply (report _ _ _ example_req true)].
    eapply reach_step in R; [|by apply (record _ _ _ example_req)].
    eapply reach_step in R; [|by apply (finish _ _ _ example_req)].
    exact R.
  - by vm_compute.
Qed.


(** ** After the app failed

    [Run] returned without setting [shuttingDown]: a request is still taken,
    and nobody will receive it. *)
Definition after_failure : st :=
  set_pos (Returned (Some (ErrorWrap "supervisor: running app failed" serve_quit)))
    (set_running [] (setCurrent 1 (New 1))).

Lemma example_failure : exists tr, reach true true 1 tr after_failure.
Proof.
  pose proof (reach_new true true 1) as R.
  eapply reach_step in R; [|by apply boot].
  eapply reach_step in R; [|by apply (install _ _ _ 1)].
  eapply reach_step in R; [|by apply (serve_failed _ _ _ 1 None)].
  eapply reach_step in R; [|by apply (shut_down _ _ _ 1 (reasonAppFailed serve_quit))].
  eapply reach_step in R; [|by apply (stop_failed _ _ _ 1 serve_quit)].
  eexists. exact R.
Qed.

Lemma request_after_failure_is_taken : (register 2 after_failure).1 = Ok "reload-1"
  /\ forall l s', step true true (register 2 after_failure).2 l s' ->
       Status "reload-1" s' = Some StatePending.
Proof.
  split; [reflexivity|]. intros l s' Hst. inversion Hst; subst; try done.
  all: match goal with H : register _ _ = _ |- _ => vm_compute in H; by simplify_eq end.
Qed.
